(* ===== verification/_CoqProject ===== *)
-Q . S2P
Prelude.v
JsMap.v
Types.v
MoveDomains.v
JsValue.v
Numerals.v
Json.v
SdkTypes.v
Domains.v
Accounting.v
RewardBook.v
Replay.v
Group.v
WalletHandlers.v
LpHandlers.v
PoolHandlers.v
ConfigHandlers.v
GroupChecks.v
CursorRoundTrip.v
LiquidityMath.v
Reducer.v
DraftEncoder.v
SafeClient.v
QuoteSpec.v
DraftSpec.v
Reconciler.v
Snapshot.v
SnapshotDecode.v
AlertCodec.v
Store.v
EventIndexer.v
WriterCycle.v
Ledger.v
ReconcilerSpec.v
JsonRoundTrip.v
ClientSpec.v
FinalizedAdapter.v
FinalizedSpec.v
MockAdapter.v
SnapshotRoundTrip.v
AlertCodecSpec.v
Disk.v
FileStore.v
DiskSpec.v
FileStoreSpec.v
DurableHistory.v
DurableProgress.v
LedgerInvariant.v
ReducerCorrect.v
ReducerSpec.v
Frames.v
LiquidityChecks.v
Fixtures.v
ReducerTheorems.v
WalletTheorems.v
PoolTheorems.v
SdkTheorems.v
AdapterTheorems.v
LiquidityTheorems.v
ReconcilerTheorems.v
IndexerInvariant.v
IndexerHistory.v
IndexerTheorems.v
WorkerTheorems.v
Normalizer.v
NormalizerTheorems.v
DurableTheorems.v
ReleaseClient.v
ReleaseSpec.v
ReleaseTheorems.v
ReleaseInputs.v
ReleaseCandidate.v
CanonicalJson.v
AssemblerSpec.v
CandidateSpec.v
AssemblerTheorems.v
AtomicOutput.v
AtomicTheorems.v
BuildIntegrity.v
IntegrityTheorems.v
