(* ===== verification/Prelude.v ===== *)
(** * Cedra Reflect: the off-chain replay indexer and the client boundary

    Cedra Reflect is a token with reflection rewards on the Cedra testnet.  Its
    Move contracts collect a fee on every transfer and swap and distribute it to
    holders by a growing index.  The repository's TypeScript replays the events
    of the contracts off chain: it rebuilds every balance, vault and reward
    position, compares them with the views of the chain, and only checkpoints a
    state the chain has confirmed.  This library models that program
    ([packages/indexer/src]), the client SDK that reads the chain, verifies swap
    quotes and drafts transactions ([packages/protocol-sdk/src]), and the assembler
    of release transactions ([packages/release-candidate-assembler/src]), and
    proves them correct.

    ** How the parts interact

    A source (the SDK's finalized reads) delivers chain events in pages.  The
    normalizer decodes each event into a [ProtocolEvent].  [EventIndexer] drops
    the events at or before its cursor, groups the rest by ledger version and
    hands each group to the reducer, which either returns the next projection or
    alerts.  The reconciler compares the projection with the chain's accounting
    snapshot at exactly the cursor's version.  When they agree, the indexer may
    write a checkpoint through the store, under a writer lease.  The worker runs
    one such cycle: restore, poll, reconcile, checkpoint, alerts to a sink in
    between.  In operation the store is a directory: a snapshot file, a journal
    of alerts and lock files, written so that a process may die at any point.

    On the client's side, an adapter reads snapshots and quotes through the
    official SDK at one ledger version.  [ReflectionPilotClient] redoes the
    arithmetic of a quote, remembers the object it returns, makes a draft from
    that object only, and hands a swap to the writer only when it is the
    unchanged draft of a remembered quote.  The draft encoder turns a draft into
    the payload of an entry function.  The swap the contracts then execute comes
    back to the indexer as a receipt, which the reducer checks again.

    A release starts from four JSON documents and a clean checkout.  The assembler
    validates them against each other, makes the one transaction that the request
    names, has the release client build it through the official SDK and simulate
    it, and writes the candidate down for approval: the pair of files is staged,
    validated and published by one rename that replaces nothing.  The evidence in
    it says which installed SDK did this: the package is digested and compared
    with a reviewed pin and its attestation.  The release client compares what the
    SDK returns with what was asked, and only simulates the bytes that were
    reviewed.

    ** Files, by the source they model

    - Prelude.v: outcomes (a value or a thrown [Error]), BigInt division, record
      update, decimal text, generic lemmas and hint databases.
    - JsMap.v: the insertion-ordered [Map].  JsValue.v: untyped values.
      Numerals.v: what texts of digits denote, for the specifications.
    - Json.v, JsonRoundTrip.v: [JSON.stringify], [JSON.parse], the bigint
      replacer and reviver, and that parsing inverts printing.
    - Types.v ([types.ts], the SDK's [types.ts]), MoveDomains.v
      ([move-domains.ts]), Accounting.v ([accounting.ts]).
    - The reducer ([reducer.ts]): Replay.v (the mutable context as a monad),
      Group.v (typed views of a group), WalletHandlers.v, LpHandlers.v,
      PoolHandlers.v, ConfigHandlers.v (the cases of the event loop, one
      definition each), GroupChecks.v (the checks before the loop), Reducer.v
      (the loop, the checks after it, the rollback).
    - Reconciler.v ([reconciler.ts]); Snapshot.v and SnapshotDecode.v
      ([snapshot.ts]); Store.v ([IndexerStore] of [types.ts] as a class, its
      contract [StoreLaws], and [memory-store.ts] as an instance).
    - EventIndexer.v and WriterCycle.v ([event-indexer.ts]; [IndexerWorker] of
      [worker.ts]).
    - The files ([file-store.ts]): AlertCodec.v (an alert as a line of JSON),
      Disk.v (paths, the system calls, secure reads, locks, atomic writes),
      FileStore.v (the envelopes and [FileIndexerStore]; [FileCriticalAlertSink]
      of [worker.ts]).
    - Normalizer.v ([cedra-normalizer.ts]).
    - The SDK: SdkTypes.v ([types.ts]), DraftEncoder.v
      ([cedra-draft-encoder.ts]), SafeClient.v ([safe-client.ts]),
      FinalizedAdapter.v ([finalized-read-adapter.ts]), MockAdapter.v
      ([mock-adapter.ts]), ReleaseClient.v ([cedra-release-client.ts]).
    - The assembler: ReleaseInputs.v (patterns, canonical JSON, the documents and
      the context of [index.ts]; the validation of [build-integrity.ts]),
      ReleaseCandidate.v (the operations, the build, the simulation and the
      candidate of [index.ts]), BuildIntegrity.v (the walk, the pin and the
      attestation of [build-integrity.ts]), AtomicOutput.v ([atomic-output.ts],
      and [scripts/rename_noreplace.py] as the child process it starts).

    ** What is proved, and where

    - RewardBook.v is the abstract specification of a reward ledger: holders
      with a weight, a correction and a claimed total against an index.  The
      core ledger and every LP epoch are shown to be such books, and solvency is
      proved once, for the abstract book.
    - Ledger.v, LedgerInvariant.v, ReducerCorrect.v: every handler keeps every
      book balanced, and a group that is not rolled back leaves each vault
      backed and each field within its Move width.  ReducerTheorems.v lifts this
      to everything reachable: solvency of the core and of each LP epoch, the
      three outcomes of a group, replay protection, that no exception leaves
      [reduceEventGroup], exact integer arithmetic.  Domains.v: the declarative
      form of the width checks.  CursorRoundTrip.v, ReducerSpec.v, Frames.v: the
      order of arrival, what a group without alerts satisfies, and what it leaves
      alone.
    - WalletTheorems.v, PoolTheorems.v, LiquidityTheorems.v: single receipts
      against their economic specification; a swap receipt is accepted exactly on
      the constant-product curve ([OnCurve]).
    - ReconcilerSpec.v, ReconcilerTheorems.v: a reconciliation reports success
      exactly when replay and chain agree ([AgreesAt]).
    - SnapshotRoundTrip.v: decoding inverts encoding on every reachable state.
    - IndexerInvariant.v ([Advance], the committed prefix; [IndexerOk], kept by
      each step of each method on every branch), IndexerHistory.v (any history of
      calls and writer cycles, and that a reconciled state gets its checkpoint),
      IndexerTheorems.v, WorkerTheorems.v: prefix commitment,
      idempotent delivery, checkpoints as certificates, restarts, lease safety,
      and the worker end to end.  These are proved for any store that satisfies
      [StoreLaws] and any alert sink.
    - AlertCodecSpec.v ([Persistable]: the alerts that can be written).
      DiskSpec.v: paths, and what each system call, a read, a lock and an atomic
      write leave alone and what they can have done when they fail ([Untouched],
      [write_cases], [lock_cases], [read_cases]).  FileStoreSpec.v:
      the abstract store, a latest snapshot and a journal, that the files show
      ([ShowsSnapshot], [ShowsJournal]), and every branch of every method against
      it.  DurableHistory.v: any program of store operations ([Program]) in any
      succession of processes ([StoreHistory]); DurableProgress.v: a system
      without faults lets a save through.  DurableTheorems.v states the results.
    - NormalizerTheorems.v: what the normalizer returns is what the reducer
      accepts; a field keeps its value whatever its spelling, an address being the
      number its digits denote ([AddressSpelling], [CanonicalAddress]).
    - LiquidityMath.v: floors and the constant-product curve, by inequalities.
      QuoteSpec.v ([Verified]: what a quote must satisfy) and DraftSpec.v
      ([KnownDraft]: the table of entry functions) say exactly which values the
      client's assertions accept.  ClientSpec.v: the invariant [ClientOk] of any
      use of one client, from which SdkTheorems.v derives what can reach the
      writer; SdkTheorems.v also connects the quote with the reducer's check of
      its receipt, and states the encoder.
    - FinalizedSpec.v, AdapterTheorems.v: the adapter's requests are pinned at
      one version of a deployment the chain confirms ([Confirmed]); its quotes
      are the ones the client accepts; the mock quotes the same amounts.
    - ReleaseSpec.v ([Admissible]: a request that leaves nothing open; [Carries]
      and [PayloadOf]: a transaction that is what it asks for) and
      ReleaseTheorems.v: the release client returns exactly such transactions and
      simulates exactly reviewed ones.  CanonicalJson.v ([JsonEquiv]: equal up to
      the order of keys), AssemblerSpec.v (what each reader accepts) and
      CandidateSpec.v ([CandidateOf], [SimulatedBy], [EvidenceOf]) lead to
      AssemblerTheorems.v: inputs that agree, candidates built and simulated as
      requested, and a whole assembly with a concrete SDK.  AtomicTheorems.v: the
      output is untouched or the validated pair ([Published]), relying on what
      [Relied] says of the caller's functions and of the child process, which the
      model of the script discharges.  IntegrityTheorems.v: the digest of a package
      determines its files unless two texts with one digest are at hand, and
      evidence is made of the reviewed package only ([Reviewed]).
    - Fixtures.v: the transactions of the repository's tests, on which the
      witnesses evaluate.

    ** Conventions

    A bigint is a [Z]; the widths are checked where the code checks them.  A
    string is a sequence of code units below 256, which covers all text the
    program's formats admit, escapes above [\u00ff] excepted.  Objects compared
    by identity carry a number.  What the platform provides is an argument:
    SHA-256 ([Digests] says it yields 64 lower-case hex digits), [TextDecoder],
    [Date.now], the text of numbers that are no safe integers.  An asynchronous
    method is a sequence of steps; nothing else of the same indexer runs between
    them, because a second operation is refused while one is active, which is
    itself modelled.  [structuredClone] and freezing are the identity on values.
    The SDK's inputs that the code checks at run time are untyped values; the
    adapters' are at their declared types.  An object a caller passes is its
    identity, which the [WeakMap]s of the client look up, and the value it has
    at that moment; objects whose properties change while they are read (getters
    and proxies) are outside the model.  [Promise.all] starts every task in order
    and fails with some error of them, which one is an argument.  The one constant
    that is not ASCII, the notice of a draft, is its UTF-8 bytes.

    ** The file system

    A disk maps absolute POSIX paths to files, folders and links.  Each system
    call has a number, and [fault] says which of them fail: a call that fails
    changes nothing, except a write, which may leave any part of its text
    ([torn]); a process that dies at a call is one whose calls all fail from
    there on.  The theorems hold for every [fault] that reports [ENOENT] only of
    what is missing ([HonestFaults]).  Between the processes of a [StoreHistory]
    anything else in the file system may change.  An open file is named by its
    path.  A method of the store has settled before its caller goes on, so the
    set of pending mutations is empty when a writer ends; what stays of it are
    the failures, in order.

    ** Fuel

    Three recursions are not structural.  [integerSqrt] gets [log2 n + 3] steps
    and [integerSqrt_floor] shows that they suffice: each Newton step at least
    halves the distance.  [JSON.parse] gets twice the length of the text and two
    more; [parse_enough_fuel] shows that more fuel never changes the result and
    the round trips that this much is enough.  [visit] gets one more than the
    length of the longest path of the disk; [packageTree_enough_fuel] shows that
    more changes nothing, each directory having a longer path than its parent.

    ** Not modelled

    - A machine that loses what was not yet synced, and two processes inside one
      method at once: calls of one method are not interleaved with another's.
    - Callbacks of a writer cycle that start a method before the one before has
      settled; fields of a snapshot file that no type mentions, which the
      decoder keeps and nothing reads.
    - The official SDK, which the adapters, the release client and the assembler
      call: its objects are types of the classes [SdkObjects], [CedraSdk],
      [AssemblerSdk] and [Cedra], its functions their members.
    - Of the assembler: files that are not UTF-8 text.  Its [unknown] values are
      JSON values, and [jsonSafe] is the identity on those of its own records that
      hold no bigint.
    - The scripts that start these parts, but for [rename_noreplace.py]; the
      dashboard; the Move contracts; the Python reference model.

    ** What modelling showed

    The normalizer asks the publisher exclusion events for a field the contract
    does not emit ([publisher_exclusion_rejected]); a v0.2 deployment can never
    be checkpointed ([v02_never_checkpointed]) nor its final exit replayed
    ([v02_final_exit_rejected]); some identifiers pass the envelope check of the
    normalizer but not the reducer's ([normalize_domains]); and the adapter takes
    deployment ids whose quotes the client always refuses
    ([adapter_quote_accepted]). *)
From stdpp Require Export base list strings pretty option.
From Stdlib Require Export Ascii ZArith Lia.

#[export] Set Default Goal Selector "!".
Global Open Scope Z_scope.

(** ** Outcomes: a JavaScript computation returns a value or throws *)

(** An [Error] object: the class name and the message are what the source reads. *)
Record JsError := mkError { err_name : string; err_message : string }.

Inductive Outcome (A : Type) : Type :=
| Returns (a : A)
| Throws (e : JsError).
Arguments Returns {A} a.
Arguments Throws {A} e.

#[export] Instance outcome_ret : MRet Outcome := fun A a => Returns a.
#[export] Instance outcome_bind : MBind Outcome :=
  fun A B f o => match o with Returns a => f a | Throws e => Throws e end.

Definition RangeError (message : string) : JsError := mkError "RangeError" message.
Definition TypeError (message : string) : JsError := mkError "TypeError" message.

(** [for (const x of xs) f(x)] for a body that only checks. *)
Fixpoint outcome_forEach {A} (f : A -> Outcome unit) (xs : list A) : Outcome unit :=
  match xs with
  | [] => Returns tt
  | x :: rest => f x ≫= fun _ => outcome_forEach f rest
  end.

Definition returns {A} (o : Outcome A) : Prop := exists a, o = Returns a.

(** ** Numbers *)

(** BigInt [a / b] truncates toward zero and throws on a zero divisor. *)
Definition bigintDivide (a b : Z) : Outcome Z :=
  if decide (b = 0) then Throws (RangeError "Division by zero") else Returns (Z.quot a b).

(** BigInt [a % b] takes the sign of the dividend and throws on a zero divisor. *)
Definition bigintRemainder (a b : Z) : Outcome Z :=
  if decide (b = 0) then Throws (RangeError "Division by zero") else Returns (Z.rem a b).

Definition MAX_SAFE_INTEGER : Z := 9007199254740991.

(** [Number.isSafeInteger] on an integral number. *)
Definition isSafeInteger (n : Z) : bool :=
  bool_decide (- MAX_SAFE_INTEGER <= n) && bool_decide (n <= MAX_SAFE_INTEGER).

(** ** Strings: [String(value)] and template literals *)

Declare Scope js_scope.
Delimit Scope js_scope with js.
Notation "a ⧺ b" := (String.append a b) (at level 60, right associativity) : js_scope.
Global Open Scope js_scope.

Definition show (z : Z) : string := pretty z.
Definition showBool (b : bool) : string := if b then "true" else "false".

(** [Array.prototype.join]. *)
Fixpoint joinWith (separator : string) (parts : list string) : string :=
  match parts with
  | [] => ""
  | [p] => p
  | p :: rest => p ⧺ separator ⧺ joinWith separator rest
  end.

Fixpoint allChars (f : Ascii.ascii -> bool) (s : string) : bool :=
  match s with
  | EmptyString => true
  | String c rest => f c && allChars f rest
  end.

(** The regular expression [/^0x0+$/]. *)
Definition isZeroAddress (a : string) : bool :=
  match a with
  | String "0" (String "x" (String "0" rest)) => allChars (fun c => bool_decide (c = "0"%char)) rest
  | _ => false
  end.

(** ** Record update: [r <| proj := v |>] is the spread [{ ...r, proj: v }]

    A record declares its eta expansion once; the setter of each field is found
    by abstracting that field's projection in the expansion. *)
Class Eta (R : Type) := eta : R -> R.
Class Update {R T : Type} (proj : R -> T) := update : (T -> T) -> R -> R.
Arguments update {R T} proj {_} f r.

Ltac derive_update :=
  lazymatch goal with
  | |- @Update ?R ?T ?proj =>
      let inst := constr:(_ : Eta R) in
      let body := eval red in inst in
      let abstracted := eval pattern proj in body in
      lazymatch abstracted with
      | ?g _ =>
          let setter := eval cbv beta in (fun (f : T -> T) => g (fun r => f (proj r))) in
          exact setter
      end
  end.
#[export] Hint Extern 1 (Update _) => derive_update : typeclass_instances.

Notation "r <| proj := v |>" := (update proj (fun _ => v) r)
  (at level 1, left associativity, proj at level 9, format "r  <| proj  :=  v |>").

(** ** Lists *)

Create HintDb jsmap.
Create HintDb replay.
Create Rewrite HintDb domains.

Fixpoint sumZ (l : list Z) : Z :=
  match l with
  | [] => 0
  | x :: rest => x + sumZ rest
  end.

(** [array.length]. *)
Definition arrayLength {A} (l : list A) : Z := Z.of_nat (length l).

(** [Array.prototype.find]. *)
Definition arrayFind {A} (f : A -> bool) (l : list A) : option A :=
  head (List.filter f l).

Lemma sumZ_app l1 l2 : sumZ (l1 ++ l2) = sumZ l1 + sumZ l2.
Proof. induction l1 as [|x l1 IH]; cbn in *; lia. Qed.

Lemma foldl_add_sumZ {A} (f : A -> Z) (l : list A) acc :
  foldl (fun total x => total + f x) acc l = acc + sumZ (map f l).
Proof. revert acc; induction l as [|x l IH]; intros acc; cbn in *; [lia|rewrite IH; lia]. Qed.

Lemma sumZ_nonneg l : Forall (fun x => 0 <= x) l -> 0 <= sumZ l.
Proof. induction 1; cbn; lia. Qed.

Lemma sumZ_map_le {A} (f g : A -> Z) l :
  Forall (fun x => f x <= g x) l -> sumZ (map f l) <= sumZ (map g l).
Proof. induction 1; cbn; lia. Qed.

Lemma sumZ_map_add {A} (f g : A -> Z) l :
  sumZ (map (fun x => f x + g x) l) = sumZ (map f l) + sumZ (map g l).
Proof. induction l; cbn; lia. Qed.

Lemma sumZ_map_sub {A} (f g : A -> Z) l :
  sumZ (map (fun x => f x - g x) l) = sumZ (map f l) - sumZ (map g l).
Proof. induction l; cbn; lia. Qed.

Lemma sumZ_map_mul {A} (f : A -> Z) k l :
  sumZ (map (fun x => f x * k) l) = sumZ (map f l) * k.
Proof. induction l; cbn; lia. Qed.

Lemma forallb_Forall {A} (f : A -> bool) l : forallb f l = true <-> Forall (fun x => f x = true) l.
Proof.
  induction l as [|x l IH]; cbn; [split; [constructor|done]|].
  rewrite andb_true_iff, IH, Forall_cons_iff. done.
Qed.

(** ** Outcome lemmas and tactics *)

Lemma outcome_bind_inv {A B} (o : Outcome A) (f : A -> Outcome B) b :
  o ≫= f = Returns b -> exists a, o = Returns a /\ f a = Returns b.
Proof. destruct o; cbn; [eauto|discriminate]. Qed.

(** [m ≫= f] returns exactly when both parts do. *)
Lemma outcome_bind_iff {A B} (o : Outcome A) (f : A -> Outcome B) b :
  o ≫= f = Returns b <-> exists a, o = Returns a /\ f a = Returns b.
Proof. split; [apply outcome_bind_inv|]. by intros (a & -> & E). Qed.

Lemma check_returns (c : bool) e : (if c then Throws e else Returns tt : Outcome unit) = Returns tt <-> c = false.
Proof. by destruct c. Qed.

Lemma outcome_forEach_returns {A} (f : A -> Outcome unit) xs :
  outcome_forEach f xs = Returns tt <-> Forall (fun x => f x = Returns tt) xs.
Proof.
  induction xs as [|x xs IH]; cbn; [split; [constructor|done]|].
  split.
  - destruct (f x) as [[]|e] eqn:E; cbn; [|discriminate]. intros H. constructor; [done|by apply IH].
  - inversion 1 as [|?? Hx Hxs]; subst. rewrite Hx; cbn. by apply IH.
Qed.

(** Peels the successful binds of a hypothesis [m ≫= f = Returns a]. *)
Ltac outcome_inv :=
  repeat match goal with
  | H : (_ ≫= _) = Returns _ |- _ =>
      let a := fresh "a" in let E := fresh "E" in
      apply outcome_bind_inv in H; destruct H as (a & E & H)
  | H : Returns _ = Returns _ |- _ => injection H as H; subst
  | H : Throws _ = Returns _ |- _ => discriminate H
  | u : unit |- _ => destruct u
  end.

(** Turns the boolean tests of the code into propositions. *)
Ltac bools :=
  repeat match goal with
  | H : (_ && _)%bool = true |- _ => apply andb_prop in H; destruct H
  | H : (_ || _)%bool = false |- _ => apply orb_false_elim in H; destruct H
  | H : bool_decide _ = true |- _ => apply bool_decide_eq_true_1 in H
  | H : bool_decide _ = false |- _ => apply bool_decide_eq_false_1 in H
  | H : negb _ = true |- _ => apply negb_true_iff in H
  | H : negb _ = false |- _ => apply negb_false_iff in H
  end.

(** ** Tasks: stateful code that may throw *)

Definition Task (S A : Type) : Type := S -> Outcome A * S.

#[export] Instance task_ret {S} : MRet (Task S) := fun A a s => (Returns a, s).
#[export] Instance task_bind {S} : MBind (Task S) :=
  fun A B k m s => match m s with (Returns a, s') => k a s' | (Throws e, s') => (Throws e, s') end.

Definition throwing {S A} (e : JsError) : Task S A := fun s => (Throws e, s).
Definition evaluate {S A} (o : Outcome A) : Task S A := fun s => (o, s).
Definition getState {S} : Task S S := fun s => (Returns s, s).
Definition modifyState {S} (f : S -> S) : Task S unit := fun s => (Returns tt, f s).
Definition unlessThrow {S} (condition : bool) (e : JsError) : Task S unit :=
  fun s => (if condition then Returns tt else Throws e, s).

(** [try { return await m } finally { cleanup }], for a cleanup that cannot throw. *)
Definition finally {S A} (m : Task S A) (cleanup : S -> S) : Task S A :=
  fun s => let '(o, s') := m s in (o, cleanup s').

Lemma task_bind_inv {S A B} (m : Task S A) (k : A -> Task S B) s b s' :
  (m ≫= k) s = (Returns b, s') -> exists a s1, m s = (Returns a, s1) /\ k a s1 = (Returns b, s').
Proof. unfold mbind, task_bind. destruct (m s) as [[a|e] s1]; [eauto|done]. Qed.

Lemma task_bind_eq {S A B} (m : Task S A) (k : A -> Task S B) s a s1 :
  m s = (Returns a, s1) -> (m ≫= k) s = k a s1.
Proof. unfold mbind, task_bind. by intros ->. Qed.

Lemma task_bind_throws {S A B} (m : Task S A) (k : A -> Task S B) s e s1 :
  m s = (Throws e, s1) -> (m ≫= k) s = (Throws e, s1).
Proof. unfold mbind, task_bind. by intros ->. Qed.

Lemma unlessThrow_true {S B} b e (k : unit -> Task S B) s : b = true -> (unlessThrow b e ≫= k) s = k tt s.
Proof. by intros ->. Qed.
