(* ===== verification/JsMap.v ===== *)
(** * JavaScript [Map]: insertion-ordered, keys unique

    The projections keep [Map] objects whose iteration order reaches alerts,
    sums and serialized snapshots, so a map is the list of its entries in
    insertion order.  [set] keeps the position of an existing key and appends a
    new one, as [Map.prototype.set] does. *)
From S2P Require Import Prelude.
From stdpp Require Import gmap.
#[local] Open Scope Z_scope.

Definition JsMap (K V : Type) : Type := list (K * V).

Section Operations.
Context {K V : Type} `{EqDecision K}.

(** [new Map()] *)
Definition jsEmpty : JsMap K V := [].

Fixpoint jsGet (k : K) (m : JsMap K V) : option V :=
  match m with
  | [] => None
  | (k', v) :: rest => if decide (k' = k) then Some v else jsGet k rest
  end.

Definition jsHas (k : K) (m : JsMap K V) : bool :=
  match jsGet k m with Some _ => true | None => false end.

Fixpoint jsSet (k : K) (v : V) (m : JsMap K V) : JsMap K V :=
  match m with
  | [] => [(k, v)]
  | (k', v') :: rest => if decide (k' = k) then (k', v) :: rest else (k', v') :: jsSet k v rest
  end.

Definition jsKeys (m : JsMap K V) : list K := map fst m.
Definition jsValues (m : JsMap K V) : list V := map snd m.
Definition jsSize (m : JsMap K V) : Z := Z.of_nat (length m).

(** [Map.prototype.delete] *)
Fixpoint jsDelete (k : K) (m : JsMap K V) : JsMap K V :=
  match m with
  | [] => []
  | (k', v') :: rest => if decide (k' = k) then rest else (k', v') :: jsDelete k rest
  end.

(** [new Map(entries)]: the entries are set one after the other. *)
Definition jsFromEntries (l : list (K * V)) : JsMap K V :=
  foldl (fun m kv => jsSet kv.1 kv.2 m) jsEmpty l.

(** [new Map(m)] *)
Definition jsCopy (m : JsMap K V) : JsMap K V := jsFromEntries m.

(** Every [Map] has distinct keys. *)
Definition jsWf (m : JsMap K V) : Prop := NoDup (jsKeys m).
End Operations.

(** [values.includes(x)] *)
Definition includes {A} `{EqDecision A} (x : A) (l : list A) : bool := bool_decide (x ∈ l).

(** [new Set(values).size === values.length] *)
Definition hasUnique {A} `{EqDecision A} (l : list A) : bool := bool_decide (NoDup l).

(** [new Set(values).size] *)
Definition setSize {A} `{EqDecision A} (l : list A) : Z := Z.of_nat (length (remove_dups l)).

Section Laws.
Context {K V : Type} `{EqDecision K}.
Implicit Types (k : K) (v : V) (m : JsMap K V).

Lemma jsGet_set_eq k v m : jsGet k (jsSet k v m) = Some v.
Proof.
  induction m as [|[k' v'] m IH]; cbn; [by rewrite decide_True|].
  destruct (decide (k' = k)) as [->|Hne]; cbn; [by rewrite decide_True|by rewrite decide_False].
Qed.

Lemma jsGet_set_ne k k' v m : k <> k' -> jsGet k' (jsSet k v m) = jsGet k' m.
Proof.
  intros Hne. induction m as [|[k0 v0] m IH]; cbn; [by rewrite decide_False|].
  destruct (decide (k0 = k)) as [->|]; cbn; [by rewrite !decide_False|].
  destruct (decide (k0 = k')); [done|apply IH].
Qed.

Lemma jsHas_true k m : jsHas k m = true <-> k ∈ jsKeys m.
Proof.
  unfold jsHas. induction m as [|[k' v'] m IH]; cbn.
  - split; [done|inversion 1].
  - destruct (decide (k' = k)) as [->|Hne].
    + split; [left|done].
    + rewrite IH, elem_of_cons. naive_solver.
Qed.

Lemma jsHas_false k m : jsHas k m = false <-> k ∉ jsKeys m.
Proof. rewrite <- jsHas_true. destruct (jsHas k m); naive_solver. Qed.

Lemma jsHas_get k m : jsHas k m = true <-> is_Some (jsGet k m).
Proof. unfold jsHas. destruct (jsGet k m); split; [eauto|done|done|intros []; done]. Qed.

Lemma jsGet_elem k v m : jsGet k m = Some v -> (k, v) ∈ m.
Proof.
  induction m as [|[k' v'] m IH]; cbn; [done|].
  destruct (decide (k' = k)) as [->|]; [intros [= ->]; left|right; auto].
Qed.

Lemma jsGet_elem_iff k v m : jsWf m -> jsGet k m = Some v <-> (k, v) ∈ m.
Proof.
  intros Hwf; split; [apply jsGet_elem|].
  induction m as [|[k' v'] m IH]; cbn; [inversion 1|].
  inversion Hwf as [|?? Hnin Hwf']; subst. rewrite elem_of_cons.
  intros [[= -> ->]|Hin]; [by rewrite decide_True|].
  rewrite decide_False; [by apply IH|].
  intros ->; apply Hnin. apply list_elem_of_fmap. by exists (k, v).
Qed.

Lemma jsKeys_set k v m :
  jsKeys (jsSet k v m) = if decide (k ∈ jsKeys m) then jsKeys m else jsKeys m ++ [k].
Proof.
  induction m as [|[k' v'] m IH]; [done|]. cbn [jsSet jsKeys map fst].
  destruct (decide (k' = k)) as [->|Hne].
  - rewrite decide_True; [done|left].
  - change (map fst (jsSet k v m)) with (jsKeys (jsSet k v m)).
    cbn [jsKeys map fst]. change (map fst (jsSet k v m)) with (jsKeys (jsSet k v m)).
    rewrite IH. change (map fst m) with (jsKeys m).
    destruct (decide (k ∈ jsKeys m)) as [Hin|Hnin].
    + rewrite decide_True; [done|by right].
    + rewrite decide_False; [done|]. rewrite elem_of_cons. naive_solver.
Qed.

Lemma jsWf_set k v m : jsWf m -> jsWf (jsSet k v m).
Proof.
  unfold jsWf. rewrite jsKeys_set. intros Hwf.
  destruct (decide _) as [|Hnin]; [done|].
  apply NoDup_app; repeat split; [done| |apply NoDup_singleton].
  intros x Hx. rewrite list_elem_of_singleton. by intros ->.
Qed.

Lemma jsHas_set k k' v m : jsHas k' (jsSet k v m) = bool_decide (k = k') || jsHas k' m.
Proof.
  unfold jsHas. destruct (decide (k = k')) as [->|Hne].
  - by rewrite jsGet_set_eq, bool_decide_true.
  - by rewrite jsGet_set_ne, bool_decide_false.
Qed.

Lemma jsValues_set_Forall (P : V -> Prop) k v m :
  Forall P (jsValues m) -> P v -> Forall P (jsValues (jsSet k v m)).
Proof.
  intros Hm Hv. induction m as [|[k' v'] m IH]; cbn in *; [by repeat constructor|].
  inversion Hm; subst. destruct (decide _); cbn; constructor; auto.
Qed.

Lemma jsEntries_set_Forall (P : K * V -> Prop) k v m :
  Forall P m -> P (k, v) -> Forall P (jsSet k v m).
Proof.
  intros Hm Hv. induction m as [|[k' v'] m IH]; cbn in *; [by repeat constructor|].
  inversion Hm; subst. destruct (decide _) as [->|]; constructor; auto.
Qed.

Lemma jsGet_Forall (P : V -> Prop) k v m :
  Forall P (jsValues m) -> jsGet k m = Some v -> P v.
Proof.
  induction m as [|[k' v'] m IH]; cbn; [done|]. inversion 1; subst.
  destruct (decide _); [by intros [= ->]|auto].
Qed.

(** Setting one key moves a sum by exactly that entry's difference. *)
Lemma sumZ_jsSet (f : V -> Z) k v m :
  sumZ (map f (jsValues (jsSet k v m)))
  = sumZ (map f (jsValues m)) - from_option f 0 (jsGet k m) + f v.
Proof.
  induction m as [|[k' v'] m IH]; cbn in *; [lia|].
  destruct (decide (k' = k)); cbn; [lia|]. unfold jsValues in IH. lia.
Qed.

Lemma jsSet_append k v m : k ∉ jsKeys m -> jsSet k v m = m ++ [(k, v)].
Proof.
  induction m as [|[k' v'] m IH]; cbn; [done|]. rewrite not_elem_of_cons. intros [Hne Hnin].
  rewrite decide_False by done. by rewrite IH.
Qed.

Lemma jsFromEntries_app l m :
  NoDup (jsKeys (m ++ l)) -> foldl (fun m kv => jsSet kv.1 kv.2 m) m l = m ++ l.
Proof.
  revert m; induction l as [|[k v] l IH]; intros m Hnd; cbn; [by rewrite app_nil_r|].
  unfold jsKeys in Hnd; rewrite map_app in Hnd; cbn in Hnd.
  rewrite jsSet_append.
  - rewrite IH; [by rewrite <- app_assoc|]. unfold jsKeys. by rewrite <- app_assoc, map_app.
  - apply NoDup_app in Hnd as (_ & Hdis & _). intros Hin. by apply (Hdis k Hin); left.
Qed.

(** A copy of a [Map] has the same entries in the same order. *)
Lemma jsCopy_wf m : jsWf m -> jsCopy m = m.
Proof. intros Hwf. apply (jsFromEntries_app m []). exact Hwf. Qed.

Lemma jsWf_fromEntries (l : list (K * V)) : jsWf (jsFromEntries l).
Proof.
  unfold jsFromEntries. assert (Hwf : jsWf (@jsEmpty K V)) by constructor.
  revert Hwf. generalize (@jsEmpty K V).
  induction l as [|[k v] l IH]; intros m Hwf; cbn; [done|]. by apply IH, jsWf_set.
Qed.

Lemma jsWf_empty : jsWf (@jsEmpty K V).
Proof. constructor. Qed.
End Laws.

#[export] Hint Resolve jsWf_set jsWf_empty jsWf_fromEntries : jsmap.

(** ** Refinement of the mathematical finite map *)

Section Refinement.
Context {K V : Type} `{Countable K}.
Implicit Types (m : JsMap K V).

(** The finite map an insertion-ordered map denotes. *)
Definition jsDenote (m : JsMap K V) : gmap K V := list_to_map m.

Lemma jsDenote_get k m : jsGet k m = jsDenote m !! k.
Proof.
  unfold jsDenote. induction m as [|[k' v'] m IH]; cbn; [by rewrite lookup_empty|].
  destruct (decide (k' = k)) as [->|Hne]; [by rewrite lookup_insert_eq|by rewrite lookup_insert_ne].
Qed.

Lemma jsDenote_set k v m : jsDenote (jsSet k v m) = <[k := v]> (jsDenote m).
Proof.
  apply map_eq; intros i. rewrite <- jsDenote_get. destruct (decide (k = i)) as [->|Hne].
  - by rewrite jsGet_set_eq, lookup_insert_eq.
  - by rewrite jsGet_set_ne, lookup_insert_ne, jsDenote_get.
Qed.

Lemma jsDenote_size m : jsWf m -> jsSize m = Z.of_nat (size (jsDenote m)).
Proof.
  unfold jsSize, jsWf, jsDenote. intros Hwf. f_equal. symmetry.
  rewrite <- (length_map_to_list (list_to_map m : gmap K V)).
  by rewrite (Permutation_length (map_to_list_to_map m Hwf)).
Qed.
End Refinement.
