(* ===== verification/Types.v ===== *)
(** * Data model: [packages/indexer/src/types.ts] and the SDK types it uses

    One record per interface, one constructor per member of a union of string
    literals.  Field names are the source's; each record lives in a module of
    its own so that the interfaces can share them.  An optional or nullable
    field is an [option].  A [ProtocolEvent] is its [EventBase] together with
    the fields of its own interface; [EvUnknown] is a value whose runtime
    [type] tag is none of the union's, which the source treats as a
    trust-boundary violation. *)
From S2P Require Import Prelude JsMap.

Abbreviation Address := string (only parsing).
Abbreviation EventId := string (only parsing).
Abbreviation MaterializationTrigger := Z (only parsing).

(** ** Unions of string literals *)

Inductive EventSource := chain | replay | fixture.
Inductive AlertSeverity := critical | warning | info.
Inductive LpEpochStatus := active | claim_only.
Inductive SwapDirection := buy | sell.
Inductive Asset := tRFL | tUSD.
Inductive ProtocolLifecycle := CONFIGURING | LIVE | CLOSED.

(** The declared scopes, and any other string found at run time. *)
Inductive OperationalAdminScope :=
| reflection_core | test_assets | test_amm | OtherScope (scope : string).

#[export] Instance AlertSeverity_eq : EqDecision AlertSeverity.
Proof. solve_decision. Defined.
#[export] Instance LpEpochStatus_eq : EqDecision LpEpochStatus.
Proof. solve_decision. Defined.
#[export] Instance SwapDirection_eq : EqDecision SwapDirection.
Proof. solve_decision. Defined.
#[export] Instance Asset_eq : EqDecision Asset.
Proof. solve_decision. Defined.
#[export] Instance ProtocolLifecycle_eq : EqDecision ProtocolLifecycle.
Proof. solve_decision. Defined.
#[export] Instance OperationalAdminScope_eq : EqDecision OperationalAdminScope.
Proof. solve_decision. Defined.

Definition assetName (a : Asset) : string := match a with tRFL => "tRFL" | tUSD => "tUSD" end.
Definition statusName (s : LpEpochStatus) : string :=
  match s with active => "active" | claim_only => "claim-only" end.
Definition lifecycleName (l : ProtocolLifecycle) : string :=
  match l with CONFIGURING => "CONFIGURING" | LIVE => "LIVE" | CLOSED => "CLOSED" end.
Definition scopeName (s : OperationalAdminScope) : string :=
  match s with
  | reflection_core => "reflection-core"
  | test_assets => "test-assets"
  | test_amm => "test-amm"
  | OtherScope scope => scope
  end.

(** [CEDRA_TESTNET_CHAIN_ID] *)
Definition CEDRA_TESTNET_CHAIN_ID : Z := 2.

(** ** Events *)

Module Cursor.
Record EventCursor := mk {
  ledgerVersion : Z;
  eventIndex : Z
}.
End Cursor.

#[export] Instance EventCursor_eq : EqDecision Cursor.EventCursor.
Proof. solve_decision. Defined.

Module Base.
Record EventBase := mk {
  id : EventId;
  txHash : string;
  ledgerVersion : Z;
  eventIndex : Z;
  timestampUnixMilliseconds : Z;
  source : EventSource
}.
End Base.

Module ProtocolInitialized.
Record ProtocolInitializedEvent := mk {
  deploymentId : string;
  networkLabel : string;
  tokenMetadata : Address;
  automaticMaterialization : bool;
  feeBps : Z;
  initialIndex : Z;
  packageVersion : string;
  rewardVault : Address;
  distributionVault : Address;
  protocolExclusionSlots : Z
}.
End ProtocolInitialized.

Module TokenCreated.
Record TokenCreatedEvent := mk {
  eventSchema : string;
  deploymentId : string;
  networkLabel : string;
  tokenMetadata : Address;
  rewardVault : Address;
  distributionVault : Address;
  reflectionFeeBps : Z;
  totalSupply : Z;
  decimals : Z;
  packageVersion : string
}.
End TokenCreated.

Module LaunchSealed.
Record LaunchSealedEvent := mk {
  eventSchema : string;
  reflectionFeeBps : Z;
  ammFeeBps : Z;
  maximumReserveBps : Z;
  maximumGrossSwap : Z;
  maximumRflContribution : Z;
  maximumTusdContribution : Z;
  maximumNonFinalWithdrawalShareBps : Z;
  faucetTrflGrant : Z;
  faucetTusdGrant : Z;
  faucetCooldownSeconds : Z;
  bootstrap : Address;
  rflReserve : Address;
  usdReserve : Address;
  lpRewardVault : Address;
  seedRfl : Z;
  seedUsd : Z;
  initialLpShares : Z
}.
End LaunchSealed.

Module PoolClosed.
Record PoolClosedEvent := mk {
  eventSchema : string;
  provider : Address;
  epoch : Z;
  lpShares : Z;
  rflOutput : Z;
  usdOutput : Z;
  rflReserveAfter : Z;
  usdReserveAfter : Z
}.
End PoolClosed.

Module ProtocolPrimaryStoreExcluded.
Record ProtocolPrimaryStoreExcludedEvent := mk {
  account : Address;
  store : Address;
  remainingSlots : Z
}.
End ProtocolPrimaryStoreExcluded.

Module OperationalPrimaryStoreExcluded.
Record OperationalPrimaryStoreExcludedEvent := mk {
  account : Address;
  store : Address
}.
End OperationalPrimaryStoreExcluded.

Module PositionCreated.
Record PositionCreatedEvent := mk {
  account : Address
}.
End PositionCreated.

Module WalletRegistered.
Record WalletRegisteredEvent := mk {
  account : Address;
  primaryStore : Address;
  registeredWalletCount : Z
}.
End WalletRegistered.

Module FaucetGrant.
Record FaucetGrantEvent := mk {
  account : Address;
  asset : Asset;
  amount : Z
}.
End FaucetGrant.

Module FaucetConfigured.
Record FaucetConfiguredEvent := mk {
  trflGrant : Z;
  tusdGrant : Z;
  cooldownSeconds : Z
}.
End FaucetConfigured.

Module PoolReserveBound.
Record PoolReserveBoundEvent := mk {
  reserveStore : Address;
  custodian : Address
}.
End PoolReserveBound.

Module WalletTransfer.
Record WalletTransferEvent := mk {
  from : Address;
  to : Address;
  asset : Asset;
  amount : Z
}.
End WalletTransfer.

Module EligibleBalanceDebited.
Record EligibleBalanceDebitedEvent := mk {
  account : Address;
  amount : Z
}.
End EligibleBalanceDebited.

Module EligibleBalanceCredited.
Record EligibleBalanceCreditedEvent := mk {
  account : Address;
  amount : Z
}.
End EligibleBalanceCredited.

Module SwapExecuted.
Record SwapExecutedEvent := mk {
  account : Address;
  direction : SwapDirection;
  grossAmount : Z;
  reflectionFee : Z;
  ammFee : Z;
  netReserveInput : Z;
  grossPoolOutput : Z;
  netUserReceipt : Z;
  trflReserveAfter : Z;
  tusdReserveAfter : Z
}.
End SwapExecuted.

Module ReflectionFeeCollected.
Record ReflectionFeeCollectedEvent := mk {
  swapTxHash : string;
  grossAmount : Z;
  feeAmount : Z;
  feeBps : Z
}.
End ReflectionFeeCollected.

Module ReflectionIndexAdvanced.
Record ReflectionIndexAdvancedEvent := mk {
  previousIndex : Z;
  newIndex : Z;
  indexRemainder : Z;
  feeAmount : Z;
  eligibleSupply : Z
}.
End ReflectionIndexAdvanced.

Module RewardsMaterialized.
Record RewardsMaterializedEvent := mk {
  account : Address;
  amount : Z;
  totalClaimed : Z;
  trigger : option MaterializationTrigger
}.
End RewardsMaterialized.

Module RewardsClaimed.
Record RewardsClaimedEvent := mk {
  account : Address;
  amount : Z;
  totalClaimed : Z
}.
End RewardsClaimed.

Module CustodySharesChanged.
Record CustodySharesChangedEvent := mk {
  added : bool;
  amount : Z;
  custodyShares : Z;
  globalShares : Z
}.
End CustodySharesChanged.

Module CustodyAdapterRegistered.
Record CustodyAdapterRegisteredEvent := mk {
  adapterId : Z;
  reserveStore : Address;
  firstEpoch : Z;
  lpRewardVault : Address
}.
End CustodyAdapterRegistered.

Module CustodyEpochRouteOpened.
Record CustodyEpochRouteOpenedEvent := mk {
  adapterId : Z;
  epoch : Z;
  reserveStore : Address;
  lpRewardVault : Address;
  retiredResidueMagnified : Z
}.
End CustodyEpochRouteOpened.

Module CustodyRewardsRouted.
Record CustodyRewardsRoutedEvent := mk {
  reserveStore : Address;
  lpRewardVault : Address;
  epoch : Z;
  amount : Z;
  totalRouted : Z
}.
End CustodyRewardsRouted.

Module FeeConfigurationChanged.
Record FeeConfigurationChangedEvent := mk {
  oldFeeBps : Z;
  newFeeBps : Z
}.
End FeeConfigurationChanged.

Module SwapLimitsChanged.
Record SwapLimitsChangedEvent := mk {
  ammFeeBps : Z;
  maximumGrossSwap : Z;
  maximumReserveBps : Z
}.
End SwapLimitsChanged.

Module LiquidityLimitsChanged.
Record LiquidityLimitsChangedEvent := mk {
  maximumRflContribution : Z;
  maximumTusdContribution : Z;
  maximumNonFinalWithdrawalShareBps : Z
}.
End LiquidityLimitsChanged.

Module PauseStateChanged.
Record PauseStateChangedEvent := mk {
  swapsPaused : bool;
  claimsPaused : bool
}.
End PauseStateChanged.

Module FaucetPauseChanged.
Record FaucetPauseChangedEvent := mk {
  paused : bool
}.
End FaucetPauseChanged.

Module PoolPauseChanged.
Record PoolPauseChangedEvent := mk {
  poolPaused : bool;
  liquidityPaused : bool;
  lpClaimsPaused : bool;
  shutdownMode : bool
}.
End PoolPauseChanged.

Module OperationalAdminChanged.
Record OperationalAdminChangedEvent := mk {
  scope : OperationalAdminScope;
  oldOperationalAdmin : Address;
  newOperationalAdmin : Address
}.
End OperationalAdminChanged.

Module LiquiditySeeded.
Record LiquiditySeededEvent := mk {
  epoch : Z;
  provider : Address;
  trflAmount : Z;
  tusdAmount : Z;
  lpShares : Z;
  trflReserveAfter : Z;
  tusdReserveAfter : Z
}.
End LiquiditySeeded.

Module LiquidityAdded.
Record LiquidityAddedEvent := mk {
  epoch : Z;
  provider : Address;
  trflAmount : Z;
  tusdAmount : Z;
  lpShares : Z;
  trflReserveAfter : Z;
  tusdReserveAfter : Z
}.
End LiquidityAdded.

Module LiquidityRemoved.
Record LiquidityRemovedEvent := mk {
  epoch : Z;
  provider : Address;
  trflAmount : Z;
  tusdAmount : Z;
  lpShares : Z;
  finalExit : bool;
  trflReserveAfter : Z;
  tusdReserveAfter : Z
}.
End LiquidityRemoved.

Module LpEpochOpened.
Record LpEpochOpenedEvent := mk {
  epoch : Z;
  stateId : Address;
  rewardVault : Address
}.
End LpEpochOpened.

Module LpEpochStatusChanged.
Record LpEpochStatusChangedEvent := mk {
  epoch : Z;
  oldStatus : LpEpochStatus;
  newStatus : LpEpochStatus
}.
End LpEpochStatusChanged.

Module LpSharesChanged.
Record LpSharesChangedEvent := mk {
  epoch : Z;
  owner : Address;
  added : bool;
  amount : Z;
  ownerShares : Z;
  totalShares : Z
}.
End LpSharesChanged.

Module LpSharesTransferred.
Record LpSharesTransferredEvent := mk {
  epoch : Z;
  sender : Address;
  recipient : Address;
  amount : Z
}.
End LpSharesTransferred.

Module LpRewardIndexAdvanced.
Record LpRewardIndexAdvancedEvent := mk {
  epoch : Z;
  previousIndex : Z;
  newIndex : Z;
  indexRemainder : Z;
  received : Z;
  totalShares : Z;
  roundingReserve : Z
}.
End LpRewardIndexAdvanced.

Module LpRewardsClaimed.
Record LpRewardsClaimedEvent := mk {
  epoch : Z;
  owner : Address;
  amount : Z;
  totalClaimed : Z
}.
End LpRewardsClaimed.

Module LpRewardQuarantined.
Record LpRewardQuarantinedEvent := mk {
  epoch : Z;
  amount : Z;
  unallocatedRewards : Z;
  rewardVault : Address
}.
End LpRewardQuarantined.

Module LpFractionalResidueRetired.
Record LpFractionalResidueRetiredEvent := mk {
  epoch : Z;
  owner : Address;
  residueMagnified : Z;
  cumulativeRetiredResidueMagnified : Z;
  roundingReserveBaseUnits : Z
}.
End LpFractionalResidueRetired.

Module LpEpochTerminalDustClassified.
Record LpEpochTerminalDustClassifiedEvent := mk {
  epoch : Z;
  rewardVault : Address;
  terminalRoundingBaseUnits : Z;
  retiredResidueMagnified : Z;
  lifetimeReceivedBaseUnits : Z;
  lifetimeClaimedBaseUnits : Z
}.
End LpEpochTerminalDustClassified.

(** [ProtocolEvent]: the union of the event interfaces. *)
Inductive EventBody : Type :=
| EvProtocolInitialized (e : ProtocolInitialized.ProtocolInitializedEvent)
| EvTokenCreated (e : TokenCreated.TokenCreatedEvent)
| EvLaunchSealed (e : LaunchSealed.LaunchSealedEvent)
| EvPoolClosed (e : PoolClosed.PoolClosedEvent)
| EvProtocolPrimaryStoreExcluded (e : ProtocolPrimaryStoreExcluded.ProtocolPrimaryStoreExcludedEvent)
| EvOperationalPrimaryStoreExcluded (e : OperationalPrimaryStoreExcluded.OperationalPrimaryStoreExcludedEvent)
| EvPositionCreated (e : PositionCreated.PositionCreatedEvent)
| EvWalletRegistered (e : WalletRegistered.WalletRegisteredEvent)
| EvFaucetGrant (e : FaucetGrant.FaucetGrantEvent)
| EvFaucetConfigured (e : FaucetConfigured.FaucetConfiguredEvent)
| EvPoolReserveBound (e : PoolReserveBound.PoolReserveBoundEvent)
| EvWalletTransfer (e : WalletTransfer.WalletTransferEvent)
| EvEligibleBalanceDebited (e : EligibleBalanceDebited.EligibleBalanceDebitedEvent)
| EvEligibleBalanceCredited (e : EligibleBalanceCredited.EligibleBalanceCreditedEvent)
| EvSwapExecuted (e : SwapExecuted.SwapExecutedEvent)
| EvReflectionFeeCollected (e : ReflectionFeeCollected.ReflectionFeeCollectedEvent)
| EvReflectionIndexAdvanced (e : ReflectionIndexAdvanced.ReflectionIndexAdvancedEvent)
| EvRewardsMaterialized (e : RewardsMaterialized.RewardsMaterializedEvent)
| EvRewardsClaimed (e : RewardsClaimed.RewardsClaimedEvent)
| EvCustodySharesChanged (e : CustodySharesChanged.CustodySharesChangedEvent)
| EvCustodyAdapterRegistered (e : CustodyAdapterRegistered.CustodyAdapterRegisteredEvent)
| EvCustodyEpochRouteOpened (e : CustodyEpochRouteOpened.CustodyEpochRouteOpenedEvent)
| EvCustodyRewardsRouted (e : CustodyRewardsRouted.CustodyRewardsRoutedEvent)
| EvFeeConfigurationChanged (e : FeeConfigurationChanged.FeeConfigurationChangedEvent)
| EvSwapLimitsChanged (e : SwapLimitsChanged.SwapLimitsChangedEvent)
| EvLiquidityLimitsChanged (e : LiquidityLimitsChanged.LiquidityLimitsChangedEvent)
| EvPauseStateChanged (e : PauseStateChanged.PauseStateChangedEvent)
| EvFaucetPauseChanged (e : FaucetPauseChanged.FaucetPauseChangedEvent)
| EvPoolPauseChanged (e : PoolPauseChanged.PoolPauseChangedEvent)
| EvOperationalAdminChanged (e : OperationalAdminChanged.OperationalAdminChangedEvent)
| EvLiquiditySeeded (e : LiquiditySeeded.LiquiditySeededEvent)
| EvLiquidityAdded (e : LiquidityAdded.LiquidityAddedEvent)
| EvLiquidityRemoved (e : LiquidityRemoved.LiquidityRemovedEvent)
| EvLpEpochOpened (e : LpEpochOpened.LpEpochOpenedEvent)
| EvLpEpochStatusChanged (e : LpEpochStatusChanged.LpEpochStatusChangedEvent)
| EvLpSharesChanged (e : LpSharesChanged.LpSharesChangedEvent)
| EvLpSharesTransferred (e : LpSharesTransferred.LpSharesTransferredEvent)
| EvLpRewardIndexAdvanced (e : LpRewardIndexAdvanced.LpRewardIndexAdvancedEvent)
| EvLpRewardsClaimed (e : LpRewardsClaimed.LpRewardsClaimedEvent)
| EvLpRewardQuarantined (e : LpRewardQuarantined.LpRewardQuarantinedEvent)
| EvLpFractionalResidueRetired (e : LpFractionalResidueRetired.LpFractionalResidueRetiredEvent)
| EvLpEpochTerminalDustClassified (e : LpEpochTerminalDustClassified.LpEpochTerminalDustClassifiedEvent)
| EvUnknown (type : string).

Definition eventType (b : EventBody) : string :=
  match b with
  | EvProtocolInitialized _ => "ProtocolInitialized"
  | EvTokenCreated _ => "TokenCreated"
  | EvLaunchSealed _ => "LaunchSealed"
  | EvPoolClosed _ => "PoolClosed"
  | EvProtocolPrimaryStoreExcluded _ => "ProtocolPrimaryStoreExcluded"
  | EvOperationalPrimaryStoreExcluded _ => "OperationalPrimaryStoreExcluded"
  | EvPositionCreated _ => "PositionCreated"
  | EvWalletRegistered _ => "WalletRegistered"
  | EvFaucetGrant _ => "FaucetGrant"
  | EvFaucetConfigured _ => "FaucetConfigured"
  | EvPoolReserveBound _ => "PoolReserveBound"
  | EvWalletTransfer _ => "WalletTransfer"
  | EvEligibleBalanceDebited _ => "EligibleBalanceDebited"
  | EvEligibleBalanceCredited _ => "EligibleBalanceCredited"
  | EvSwapExecuted _ => "SwapExecuted"
  | EvReflectionFeeCollected _ => "ReflectionFeeCollected"
  | EvReflectionIndexAdvanced _ => "ReflectionIndexAdvanced"
  | EvRewardsMaterialized _ => "RewardsMaterialized"
  | EvRewardsClaimed _ => "RewardsClaimed"
  | EvCustodySharesChanged _ => "CustodySharesChanged"
  | EvCustodyAdapterRegistered _ => "CustodyAdapterRegistered"
  | EvCustodyEpochRouteOpened _ => "CustodyEpochRouteOpened"
  | EvCustodyRewardsRouted _ => "CustodyRewardsRouted"
  | EvFeeConfigurationChanged _ => "FeeConfigurationChanged"
  | EvSwapLimitsChanged _ => "SwapLimitsChanged"
  | EvLiquidityLimitsChanged _ => "LiquidityLimitsChanged"
  | EvPauseStateChanged _ => "PauseStateChanged"
  | EvFaucetPauseChanged _ => "FaucetPauseChanged"
  | EvPoolPauseChanged _ => "PoolPauseChanged"
  | EvOperationalAdminChanged _ => "OperationalAdminChanged"
  | EvLiquiditySeeded _ => "LiquiditySeeded"
  | EvLiquidityAdded _ => "LiquidityAdded"
  | EvLiquidityRemoved _ => "LiquidityRemoved"
  | EvLpEpochOpened _ => "LpEpochOpened"
  | EvLpEpochStatusChanged _ => "LpEpochStatusChanged"
  | EvLpSharesChanged _ => "LpSharesChanged"
  | EvLpSharesTransferred _ => "LpSharesTransferred"
  | EvLpRewardIndexAdvanced _ => "LpRewardIndexAdvanced"
  | EvLpRewardsClaimed _ => "LpRewardsClaimed"
  | EvLpRewardQuarantined _ => "LpRewardQuarantined"
  | EvLpFractionalResidueRetired _ => "LpFractionalResidueRetired"
  | EvLpEpochTerminalDustClassified _ => "LpEpochTerminalDustClassified"
  | EvUnknown type => type
  end.

Record ProtocolEvent := mkEvent {
  base : Base.EventBase;
  body : EventBody
}.

Definition evId (ev : ProtocolEvent) : EventId := ev.(base).(Base.id).
Definition evIndex (ev : ProtocolEvent) : Z := ev.(base).(Base.eventIndex).
Definition evLedger (ev : ProtocolEvent) : Z := ev.(base).(Base.ledgerVersion).

(** ** Replayed state *)

Module Wallet.
Record IndexedPosition := mk {
  account : Address;
  rawTrfl : Z;
  rawTusd : Z;
  correction : Z;
  claimed : Z;
  lifetimeClaimed : Z;
  lifetimeMaterialized : Z
}.
End Wallet.

Module Custody.
Record IndexedCustodyPosition := mk {
  adapterId : option Z;
  reserveStore : option Address;
  activeRouteEpoch : option Z;
  activeLpRewardVault : option Address;
  shares : Z;
  correction : Z;
  claimed : Z;
  lifetimeRouted : Z
}.
End Custody.

Module LpPos.
Record IndexedLpPosition := mk {
  owner : Address;
  shares : Z;
  correction : Z;
  claimed : Z
}.
End LpPos.

Module LpEpoch.
Record IndexedLpEpoch := mk {
  epoch : Z;
  stateId : Address;
  status : LpEpochStatus;
  rewardVault : Address;
  index : Z;
  indexRemainder : Z;
  totalShares : Z;
  aggregateCorrection : Z;
  unallocatedRewards : Z;
  roundingReserve : Z;
  retiredResidueMagnified : Z;
  terminalRoundingBaseUnits : option Z;
  lifetimeReceived : Z;
  lifetimeClaimed : Z;
  quarantined : bool;
  positions : JsMap Address LpPos.IndexedLpPosition
}.
End LpEpoch.

Module Pool.
Record IndexedPool := mk {
  trflReserve : Z;
  tusdReserve : Z;
  ammFeeBps : Z;
  maximumGrossSwap : Z;
  maximumReserveBps : Z;
  maximumRflContribution : Z;
  maximumTusdContribution : Z;
  maximumNonFinalWithdrawalShareBps : Z;
  poolPaused : bool;
  liquidityPaused : bool;
  lpClaimsPaused : bool;
  shutdownMode : bool;
  seeded : bool
}.
End Pool.

Module Admins.
Record OperationalAdmins := mk {
  reflectionCore : option Address;
  testAssets : option Address;
  testAmm : option Address
}.
End Admins.

Module Proj.
Record ProtocolProjection := mk {
  chainId : Z;
  deploymentId : string;
  networkLabel : string;
  tokenMetadata : option Address;
  protocolExclusionSlots : Z;
  protocolExclusionsRemaining : Z;
  protocolExcludedStores : JsMap Address Address;
  registeredWallets : JsMap Address Address;
  registeredWalletCount : Z;
  automaticMaterialization : bool;
  feeBps : Z;
  currentIndex : Z;
  indexRemainder : Z;
  eligibleSupply : Z;
  aggregateCorrection : Z;
  unallocatedFees : Z;
  roundingReserve : Z;
  rewardVault : option Address;
  distributionVault : option Address;
  mockUsdPoolReserve : option Address;
  rewardVaultCredits : Z;
  rewardVaultPayouts : Z;
  lifetimeSwapFees : Z;
  lifetimeMaterialized : Z;
  lifetimeCustodyRouted : Z;
  packageVersion : string;
  lifecycle : option ProtocolLifecycle;
  swapsPaused : bool;
  claimsPaused : bool;
  faucetPaused : bool;
  faucetTrflGrant : Z;
  faucetTusdGrant : Z;
  faucetCooldownSeconds : Z;
  operationalAdmins : Admins.OperationalAdmins;
  deploymentReady : bool;
  pool : Pool.IndexedPool;
  custody : Custody.IndexedCustodyPosition;
  activeLpEpoch : option Z;
  lpEpochs : JsMap Z LpEpoch.IndexedLpEpoch;
  rewardVaultToEpoch : JsMap Address Z;
  stateIdToEpoch : JsMap Address Z;
  positions : JsMap Address Wallet.IndexedPosition;
  seenEventIds : JsMap EventId string
}.
End Proj.

Module ObsPos.
Record ObservedPosition := mk {
  account : Address;
  rawTrfl : Z;
  correction : Z;
  claimed : Z
}.
End ObsPos.

Module ObsLpPos.
Record ObservedLpPosition := mk {
  owner : Address;
  shares : Z;
  correction : Z;
  claimed : Z
}.
End ObsLpPos.

Module ObsLpEpoch.
Record ObservedLpEpoch := mk {
  epoch : Z;
  stateId : Address;
  status : LpEpochStatus;
  rewardVault : Address;
  rewardVaultBalance : Z;
  index : Z;
  indexRemainder : Z;
  totalShares : Z;
  aggregateCorrection : Z;
  unallocatedRewards : Z;
  roundingReserve : Z;
  terminalRoundingBaseUnits : Z;
  retiredResidueMagnified : Z;
  lifetimeReceived : Z;
  lifetimeClaimed : Z;
  quarantined : bool;
  indexedLiability : Z;
  positions : list ObsLpPos.ObservedLpPosition
}.
End ObsLpEpoch.

Module Obs.
Record ObservedAccountingSnapshot := mk {
  chainId : Z;
  ledgerVersion : Z;
  deploymentId : string;
  networkLabel : string;
  tokenMetadata : Address;
  protocolExclusionsRemaining : Z;
  registeredWalletCount : Z;
  registeredWalletAccounts : list Address;
  automaticMaterialization : bool;
  lifecycle : option ProtocolLifecycle;
  reflectionFeeBps : option Z;
  rewardVault : Address;
  rewardVaultBalance : Z;
  reflectionLiability : Z;
  currentIndex : Z;
  indexRemainder : Z;
  eligibleSupply : Z;
  aggregateCorrection : Z;
  unallocatedFees : Z;
  roundingReserve : Z;
  lifetimeSwapFees : Z;
  lifetimeMaterialized : Z;
  lifetimeCustodyRouted : Z;
  custodyAdapterId : Z;
  custodyReserveStore : Address;
  poolRflReserveStore : Address;
  poolUsdReserveStore : Address;
  mockUsdPoolReserve : Address;
  custodyReserveBalance : Z;
  custodyShares : Z;
  custodyCorrection : Z;
  custodyClaimed : Z;
  custodyPendingRewards : Z;
  custodyActiveRouteEpoch : Z;
  custodyActiveLpRewardVault : Address;
  trflReserve : Z;
  tusdReserve : Z;
  ammFeeBps : Z;
  maximumGrossSwap : Z;
  maximumReserveBps : Z;
  maximumRflContribution : Z;
  maximumTusdContribution : Z;
  maximumNonFinalWithdrawalShareBps : Z;
  activeLpEpoch : option Z;
  lpEpochs : list ObsLpEpoch.ObservedLpEpoch;
  positions : list ObsPos.ObservedPosition;
  packageVersion : string;
  swapsPaused : bool;
  claimsPaused : bool;
  faucetPaused : bool;
  faucetTrflGrant : Z;
  faucetTusdGrant : Z;
  faucetCooldownSeconds : Z;
  poolPaused : bool;
  liquidityPaused : bool;
  lpClaimsPaused : bool;
  shutdownMode : bool;
  poolSeeded : bool;
  coreOperationalAdmin : option Address;
  faucetOperationalAdmin : option Address;
  ammOperationalAdmin : option Address
}.
End Obs.

(** ** Alerts *)

Inductive AlertCode :=
| EVENT_ORDER | EVENT_DATA | TRANSACTION_GROUP | IDENTIFIER_REUSE | DOUBLE_COUNTING
| FEE_FORMULA | VAULT_BACKING | REFLECTION_LIABILITY | CORE_ACCOUNTING | GLOBAL_INDEX
| ELIGIBLE_SUPPLY | LIFETIME_TOTAL | POOL_RESERVES | POOL_LIMITS | FAUCET_CONFIG
| RESERVE_CUSTODY | CUSTODY_ACCOUNTING | ROUTE_PAIR | OLD_EPOCH_ROUTE | LP_ACCOUNTING
| LP_VAULT_BACKING | VAULT_BINDING | POSITION_ACCOUNTING | WALLET_REGISTRATION
| PACKAGE_VERSION | PAUSE_STATE | OPERATIONAL_ADMIN | DEPLOYMENT_IDENTITY | LEDGER_VERSION.

#[export] Instance AlertCode_eq : EqDecision AlertCode.
Proof. solve_decision. Defined.

Definition codeName (c : AlertCode) : string :=
  match c with
  | EVENT_ORDER => "EVENT_ORDER"
  | EVENT_DATA => "EVENT_DATA"
  | TRANSACTION_GROUP => "TRANSACTION_GROUP"
  | IDENTIFIER_REUSE => "IDENTIFIER_REUSE"
  | DOUBLE_COUNTING => "DOUBLE_COUNTING"
  | FEE_FORMULA => "FEE_FORMULA"
  | VAULT_BACKING => "VAULT_BACKING"
  | REFLECTION_LIABILITY => "REFLECTION_LIABILITY"
  | CORE_ACCOUNTING => "CORE_ACCOUNTING"
  | GLOBAL_INDEX => "GLOBAL_INDEX"
  | ELIGIBLE_SUPPLY => "ELIGIBLE_SUPPLY"
  | LIFETIME_TOTAL => "LIFETIME_TOTAL"
  | POOL_RESERVES => "POOL_RESERVES"
  | POOL_LIMITS => "POOL_LIMITS"
  | FAUCET_CONFIG => "FAUCET_CONFIG"
  | RESERVE_CUSTODY => "RESERVE_CUSTODY"
  | CUSTODY_ACCOUNTING => "CUSTODY_ACCOUNTING"
  | ROUTE_PAIR => "ROUTE_PAIR"
  | OLD_EPOCH_ROUTE => "OLD_EPOCH_ROUTE"
  | LP_ACCOUNTING => "LP_ACCOUNTING"
  | LP_VAULT_BACKING => "LP_VAULT_BACKING"
  | VAULT_BINDING => "VAULT_BINDING"
  | POSITION_ACCOUNTING => "POSITION_ACCOUNTING"
  | WALLET_REGISTRATION => "WALLET_REGISTRATION"
  | PACKAGE_VERSION => "PACKAGE_VERSION"
  | PAUSE_STATE => "PAUSE_STATE"
  | OPERATIONAL_ADMIN => "OPERATIONAL_ADMIN"
  | DEPLOYMENT_IDENTITY => "DEPLOYMENT_IDENTITY"
  | LEDGER_VERSION => "LEDGER_VERSION"
  end.

Module Alert.
Record CriticalAlert := mk {
  id : string;
  severity : AlertSeverity;
  code : AlertCode;
  message : string;
  detectedAtUnixMilliseconds : Z;
  cursor : option Cursor.EventCursor;
  expected : option string;
  observed : option string
}.
End Alert.

(** ** Reconciliation reports *)

Module LpResult.
Record LpReconciliationResult := mk {
  epoch : Z;
  expectedVaultBalance : Z;
  calculatedLiability : Z;
  backingSurplus : Z
}.
End LpResult.

Module Report.
Record ReconciliationReport := mk {
  ledgerVersion : Z;
  expectedRewardVaultBalance : Z;
  calculatedReflectionLiability : Z;
  backingSurplus : Z;
  lpEpochs : list LpResult.LpReconciliationResult;
  alerts : list Alert.CriticalAlert;
  reconciled : bool
}.
End Report.

(** ** Field updates *)

#[export] Instance eta_IndexedPosition : Eta Wallet.IndexedPosition :=
  fun r => Wallet.mk r.(Wallet.account) r.(Wallet.rawTrfl) r.(Wallet.rawTusd) r.(Wallet.correction) r.(Wallet.claimed) r.(Wallet.lifetimeClaimed) r.(Wallet.lifetimeMaterialized).

#[export] Instance eta_IndexedCustodyPosition : Eta Custody.IndexedCustodyPosition :=
  fun r => Custody.mk r.(Custody.adapterId) r.(Custody.reserveStore) r.(Custody.activeRouteEpoch) r.(Custody.activeLpRewardVault) r.(Custody.shares) r.(Custody.correction) r.(Custody.claimed) r.(Custody.lifetimeRouted).

#[export] Instance eta_IndexedLpPosition : Eta LpPos.IndexedLpPosition :=
  fun r => LpPos.mk r.(LpPos.owner) r.(LpPos.shares) r.(LpPos.correction) r.(LpPos.claimed).

#[export] Instance eta_IndexedLpEpoch : Eta LpEpoch.IndexedLpEpoch :=
  fun r => LpEpoch.mk r.(LpEpoch.epoch) r.(LpEpoch.stateId) r.(LpEpoch.status) r.(LpEpoch.rewardVault) r.(LpEpoch.index) r.(LpEpoch.indexRemainder) r.(LpEpoch.totalShares) r.(LpEpoch.aggregateCorrection) r.(LpEpoch.unallocatedRewards) r.(LpEpoch.roundingReserve) r.(LpEpoch.retiredResidueMagnified) r.(LpEpoch.terminalRoundingBaseUnits) r.(LpEpoch.lifetimeReceived) r.(LpEpoch.lifetimeClaimed) r.(LpEpoch.quarantined) r.(LpEpoch.positions).

#[export] Instance eta_IndexedPool : Eta Pool.IndexedPool :=
  fun r => Pool.mk r.(Pool.trflReserve) r.(Pool.tusdReserve) r.(Pool.ammFeeBps) r.(Pool.maximumGrossSwap) r.(Pool.maximumReserveBps) r.(Pool.maximumRflContribution) r.(Pool.maximumTusdContribution) r.(Pool.maximumNonFinalWithdrawalShareBps) r.(Pool.poolPaused) r.(Pool.liquidityPaused) r.(Pool.lpClaimsPaused) r.(Pool.shutdownMode) r.(Pool.seeded).

#[export] Instance eta_ProtocolProjection : Eta Proj.ProtocolProjection :=
  fun r => Proj.mk r.(Proj.chainId) r.(Proj.deploymentId) r.(Proj.networkLabel) r.(Proj.tokenMetadata) r.(Proj.protocolExclusionSlots) r.(Proj.protocolExclusionsRemaining) r.(Proj.protocolExcludedStores) r.(Proj.registeredWallets) r.(Proj.registeredWalletCount) r.(Proj.automaticMaterialization) r.(Proj.feeBps) r.(Proj.currentIndex) r.(Proj.indexRemainder) r.(Proj.eligibleSupply) r.(Proj.aggregateCorrection) r.(Proj.unallocatedFees) r.(Proj.roundingReserve) r.(Proj.rewardVault) r.(Proj.distributionVault) r.(Proj.mockUsdPoolReserve) r.(Proj.rewardVaultCredits) r.(Proj.rewardVaultPayouts) r.(Proj.lifetimeSwapFees) r.(Proj.lifetimeMaterialized) r.(Proj.lifetimeCustodyRouted) r.(Proj.packageVersion) r.(Proj.lifecycle) r.(Proj.swapsPaused) r.(Proj.claimsPaused) r.(Proj.faucetPaused) r.(Proj.faucetTrflGrant) r.(Proj.faucetTusdGrant) r.(Proj.faucetCooldownSeconds) r.(Proj.operationalAdmins) r.(Proj.deploymentReady) r.(Proj.pool) r.(Proj.custody) r.(Proj.activeLpEpoch) r.(Proj.lpEpochs) r.(Proj.rewardVaultToEpoch) r.(Proj.stateIdToEpoch) r.(Proj.positions) r.(Proj.seenEventIds).

#[export] Instance eta_OperationalAdmins : Eta Admins.OperationalAdmins :=
  fun r => Admins.mk r.(Admins.reflectionCore) r.(Admins.testAssets) r.(Admins.testAmm).
