(* ===== verification/MoveDomains.v ===== *)
(** * Move integer domains: [packages/indexer/src/move-domains.ts]

    Checked arithmetic over unbounded integers that reproduces the abort
    conditions of the Move widths, and the validation of every numeric field of
    an event and of a projection.  Values are [Z]: the [typeof value ===
    "bigint"] tests of the source are the typing of the model. *)
From S2P Require Import Prelude JsMap Types.

(** ** Widths *)

Inductive MoveWidth := U8 | U64 | U128 | U256.

Definition widthBits (w : MoveWidth) : Z :=
  match w with U8 => 8 | U64 => 64 | U128 => 128 | U256 => 256 end.

Definition MOVE_U8_MAX : Z := Z.shiftl 1 8 - 1.
Definition MOVE_U64_MAX : Z := Z.shiftl 1 64 - 1.
Definition MOVE_U128_MAX : Z := Z.shiftl 1 128 - 1.
Definition MOVE_U256_MAX : Z := Z.shiftl 1 256 - 1.

Definition widthMax (w : MoveWidth) : Z :=
  match w with
  | U8 => MOVE_U8_MAX
  | U64 => MOVE_U64_MAX
  | U128 => MOVE_U128_MAX
  | U256 => MOVE_U256_MAX
  end.

Definition isMoveUnsigned (value : Z) (bits : MoveWidth) : bool :=
  if bool_decide (value < 0) then false else bool_decide (value <= widthMax bits).

Definition isMoveSignedU256 (value : Z) : bool :=
  bool_decide (- MOVE_U256_MAX <= value) && bool_decide (value <= MOVE_U256_MAX).

Definition assertMoveUnsigned (value : Z) (bits : MoveWidth) (label : string) : Outcome unit :=
  if isMoveUnsigned value bits then Returns tt
  else Throws (RangeError (label ⧺ " must fit Move u" ⧺ show (widthBits bits))).

Definition assertMoveSignedU256 (value : Z) (label : string) : Outcome unit :=
  if isMoveSignedU256 value then Returns tt
  else Throws (RangeError (label ⧺ " must fit Move SignedU256 magnitude")).

(** ** Checked arithmetic *)

Definition checkedMoveU256Add (left right : Z) (label : string) : Outcome Z :=
  assertMoveUnsigned left U256 (label ⧺ " left operand") ;;
  assertMoveUnsigned right U256 (label ⧺ " right operand") ;;
  let result := left + right in
  assertMoveUnsigned result U256 label ;;
  Returns result.

Definition checkedMoveU256Subtract (left right : Z) (label : string) : Outcome Z :=
  assertMoveUnsigned left U256 (label ⧺ " left operand") ;;
  assertMoveUnsigned right U256 (label ⧺ " right operand") ;;
  if bool_decide (left < right) then Throws (RangeError (label ⧺ " would underflow Move u256"))
  else Returns (left - right).

Definition checkedMoveU256Multiply (left right : Z) (label : string) : Outcome Z :=
  assertMoveUnsigned left U256 (label ⧺ " left operand") ;;
  assertMoveUnsigned right U256 (label ⧺ " right operand") ;;
  let result := left * right in
  assertMoveUnsigned result U256 label ;;
  Returns result.

Definition applyMoveSignedU256 (base correction : Z) (label : string) : Outcome Z :=
  assertMoveUnsigned base U256 (label ⧺ " base") ;;
  assertMoveSignedU256 correction (label ⧺ " correction") ;;
  if bool_decide (correction < 0) then checkedMoveU256Subtract base (- correction) label
  else checkedMoveU256Add base correction label.

Definition checkedMoveSignedU256AddUnsigned (value amount : Z) (label : string) : Outcome Z :=
  assertMoveSignedU256 value (label ⧺ " value") ;;
  assertMoveUnsigned amount U256 (label ⧺ " amount") ;;
  let result := value + amount in
  assertMoveSignedU256 result label ;;
  Returns result.

Definition checkedMoveSignedU256SubtractUnsigned (value amount : Z) (label : string) : Outcome Z :=
  assertMoveSignedU256 value (label ⧺ " value") ;;
  assertMoveUnsigned amount U256 (label ⧺ " amount") ;;
  let result := value - amount in
  assertMoveSignedU256 result label ;;
  Returns result.

Definition checkedMoveSignedU256Add (left right : Z) (label : string) : Outcome Z :=
  assertMoveSignedU256 left (label ⧺ " left operand") ;;
  assertMoveSignedU256 right (label ⧺ " right operand") ;;
  let result := left + right in
  assertMoveSignedU256 result label ;;
  Returns result.

(** ** Events *)

Definition jsLength (s : string) : Z := Z.of_nat (String.length s).

Definition assertBase (event : Base.EventBase) : Outcome unit :=
  (if bool_decide (jsLength event.(Base.id) = 0) || bool_decide (jsLength event.(Base.id) > 512)
   then Throws (TypeError "event id must contain 1 to 512 characters") else Returns tt) ;;
  (if bool_decide (jsLength event.(Base.txHash) = 0) || bool_decide (jsLength event.(Base.txHash) > 512)
   then Throws (TypeError "event transaction hash must contain 1 to 512 characters") else Returns tt) ;;
  assertMoveUnsigned event.(Base.ledgerVersion) U64 "event ledger version" ;;
  (if negb (isSafeInteger event.(Base.eventIndex)) || bool_decide (event.(Base.eventIndex) < 0)
      || bool_decide (event.(Base.eventIndex) > MOVE_U64_MAX)
   then Throws (RangeError "event index must be a non-negative safe Move u64 ordinal") else Returns tt) ;;
  assertMoveUnsigned event.(Base.timestampUnixMilliseconds) U64 "event timestamp milliseconds".

Definition assertProtocolEventMoveDomains (event : ProtocolEvent) : Outcome unit :=
  assertBase event.(base) ;;
  match event.(body) with
  | EvProtocolInitialized e =>
      assertMoveUnsigned e.(ProtocolInitialized.feeBps) U64 "initial fee bps" ;;
      assertMoveUnsigned e.(ProtocolInitialized.initialIndex) U256 "initial reflection index" ;;
      assertMoveUnsigned e.(ProtocolInitialized.protocolExclusionSlots) U64 "protocol exclusion slots"
  | EvTokenCreated e =>
      assertMoveUnsigned e.(TokenCreated.reflectionFeeBps) U64 "immutable reflection fee bps" ;;
      assertMoveUnsigned e.(TokenCreated.totalSupply) U64 "fixed token supply" ;;
      assertMoveUnsigned e.(TokenCreated.decimals) U8 "token decimals"
  | EvLaunchSealed e =>
      assertMoveUnsigned e.(LaunchSealed.reflectionFeeBps) U64 "launch reflection fee bps" ;;
      assertMoveUnsigned e.(LaunchSealed.ammFeeBps) U64 "launch AMM fee bps" ;;
      assertMoveUnsigned e.(LaunchSealed.maximumReserveBps) U64 "launch maximum reserve bps" ;;
      assertMoveUnsigned e.(LaunchSealed.maximumGrossSwap) U64 "launch maximum gross swap" ;;
      assertMoveUnsigned e.(LaunchSealed.maximumRflContribution) U64 "launch maximum tRFL liquidity" ;;
      assertMoveUnsigned e.(LaunchSealed.maximumTusdContribution) U64 "launch maximum tUSD liquidity" ;;
      assertMoveUnsigned e.(LaunchSealed.maximumNonFinalWithdrawalShareBps) U64 "launch maximum withdrawal share bps" ;;
      assertMoveUnsigned e.(LaunchSealed.faucetTrflGrant) U64 "launch faucet tRFL grant" ;;
      assertMoveUnsigned e.(LaunchSealed.faucetTusdGrant) U64 "launch faucet tUSD grant" ;;
      assertMoveUnsigned e.(LaunchSealed.faucetCooldownSeconds) U64 "launch faucet cooldown" ;;
      assertMoveUnsigned e.(LaunchSealed.seedRfl) U64 "launch tRFL seed" ;;
      assertMoveUnsigned e.(LaunchSealed.seedUsd) U64 "launch tUSD seed" ;;
      assertMoveUnsigned e.(LaunchSealed.initialLpShares) U128 "launch initial LP shares"
  | EvPoolClosed e =>
      assertMoveUnsigned e.(PoolClosed.epoch) U64 "closed pool epoch" ;;
      assertMoveUnsigned e.(PoolClosed.lpShares) U128 "closed pool LP shares" ;;
      assertMoveUnsigned e.(PoolClosed.rflOutput) U64 "closed pool tRFL output" ;;
      assertMoveUnsigned e.(PoolClosed.usdOutput) U64 "closed pool tUSD output" ;;
      assertMoveUnsigned e.(PoolClosed.rflReserveAfter) U64 "closed pool tRFL reserve" ;;
      assertMoveUnsigned e.(PoolClosed.usdReserveAfter) U64 "closed pool tUSD reserve"
  | EvProtocolPrimaryStoreExcluded e =>
      assertMoveUnsigned e.(ProtocolPrimaryStoreExcluded.remainingSlots) U64 "remaining exclusion slots"
  | EvOperationalPrimaryStoreExcluded _ => Returns tt
  | EvPositionCreated _ => Returns tt
  | EvWalletRegistered e =>
      assertMoveUnsigned e.(WalletRegistered.registeredWalletCount) U64 "registered wallet count"
  | EvFaucetGrant e =>
      assertMoveUnsigned e.(FaucetGrant.amount) U64 "faucet grant amount"
  | EvFaucetConfigured e =>
      assertMoveUnsigned e.(FaucetConfigured.trflGrant) U64 "faucet tRFL grant" ;;
      assertMoveUnsigned e.(FaucetConfigured.tusdGrant) U64 "faucet tUSD grant" ;;
      assertMoveUnsigned e.(FaucetConfigured.cooldownSeconds) U64 "faucet cooldown"
  | EvPoolReserveBound _ => Returns tt
  | EvWalletTransfer e =>
      assertMoveUnsigned e.(WalletTransfer.amount) U64 "WalletTransfer amount"
  | EvEligibleBalanceDebited e =>
      assertMoveUnsigned e.(EligibleBalanceDebited.amount) U64 "EligibleBalanceDebited amount"
  | EvEligibleBalanceCredited e =>
      assertMoveUnsigned e.(EligibleBalanceCredited.amount) U64 "EligibleBalanceCredited amount"
  | EvSwapExecuted e =>
      assertMoveUnsigned e.(SwapExecuted.grossAmount) U64 "swap gross amount" ;;
      assertMoveUnsigned e.(SwapExecuted.reflectionFee) U64 "swap reflection fee" ;;
      assertMoveUnsigned e.(SwapExecuted.ammFee) U64 "swap AMM fee" ;;
      assertMoveUnsigned e.(SwapExecuted.netReserveInput) U64 "swap net reserve input" ;;
      assertMoveUnsigned e.(SwapExecuted.grossPoolOutput) U64 "swap gross pool output" ;;
      assertMoveUnsigned e.(SwapExecuted.netUserReceipt) U64 "swap net receipt" ;;
      assertMoveUnsigned e.(SwapExecuted.trflReserveAfter) U64 "swap tRFL reserve" ;;
      assertMoveUnsigned e.(SwapExecuted.tusdReserveAfter) U64 "swap tUSD reserve"
  | EvReflectionFeeCollected e =>
      assertMoveUnsigned e.(ReflectionFeeCollected.grossAmount) U64 "reflection gross amount" ;;
      assertMoveUnsigned e.(ReflectionFeeCollected.feeAmount) U64 "reflection fee amount" ;;
      assertMoveUnsigned e.(ReflectionFeeCollected.feeBps) U64 "reflection fee bps"
  | EvReflectionIndexAdvanced e =>
      assertMoveUnsigned e.(ReflectionIndexAdvanced.previousIndex) U256 "previous reflection index" ;;
      assertMoveUnsigned e.(ReflectionIndexAdvanced.newIndex) U256 "new reflection index" ;;
      assertMoveUnsigned e.(ReflectionIndexAdvanced.indexRemainder) U256 "reflection index remainder" ;;
      assertMoveUnsigned e.(ReflectionIndexAdvanced.feeAmount) U64 "indexed fee amount" ;;
      assertMoveUnsigned e.(ReflectionIndexAdvanced.eligibleSupply) U128 "indexed eligible supply"
  | EvRewardsMaterialized e =>
      match e.(RewardsMaterialized.trigger) with
      | Some trigger => assertMoveUnsigned trigger U8 "materialization trigger"
      | None => Returns tt
      end ;;
      assertMoveUnsigned e.(RewardsMaterialized.amount) U64 "RewardsMaterialized amount" ;;
      assertMoveUnsigned e.(RewardsMaterialized.totalClaimed) U256 "RewardsMaterialized total claimed"
  | EvRewardsClaimed e =>
      assertMoveUnsigned e.(RewardsClaimed.amount) U64 "RewardsClaimed amount" ;;
      assertMoveUnsigned e.(RewardsClaimed.totalClaimed) U256 "RewardsClaimed total claimed"
  | EvCustodyAdapterRegistered e =>
      assertMoveUnsigned e.(CustodyAdapterRegistered.adapterId) U64 "custody adapter id" ;;
      assertMoveUnsigned e.(CustodyAdapterRegistered.firstEpoch) U64 "first custody epoch"
  | EvCustodyEpochRouteOpened e =>
      assertMoveUnsigned e.(CustodyEpochRouteOpened.adapterId) U64 "custody route adapter id" ;;
      assertMoveUnsigned e.(CustodyEpochRouteOpened.epoch) U64 "custody route epoch" ;;
      assertMoveUnsigned e.(CustodyEpochRouteOpened.retiredResidueMagnified) U256 "custody retired residue"
  | EvCustodySharesChanged e =>
      assertMoveUnsigned e.(CustodySharesChanged.amount) U64 "custody share amount" ;;
      assertMoveUnsigned e.(CustodySharesChanged.custodyShares) U128 "custody shares" ;;
      assertMoveUnsigned e.(CustodySharesChanged.globalShares) U128 "global shares"
  | EvCustodyRewardsRouted e =>
      assertMoveUnsigned e.(CustodyRewardsRouted.epoch) U64 "custody reward epoch" ;;
      assertMoveUnsigned e.(CustodyRewardsRouted.amount) U64 "custody reward amount" ;;
      assertMoveUnsigned e.(CustodyRewardsRouted.totalRouted) U256 "custody total routed"
  | EvFeeConfigurationChanged e =>
      assertMoveUnsigned e.(FeeConfigurationChanged.oldFeeBps) U64 "old fee bps" ;;
      assertMoveUnsigned e.(FeeConfigurationChanged.newFeeBps) U64 "new fee bps"
  | EvSwapLimitsChanged e =>
      assertMoveUnsigned e.(SwapLimitsChanged.ammFeeBps) U64 "AMM fee bps" ;;
      assertMoveUnsigned e.(SwapLimitsChanged.maximumGrossSwap) U64 "maximum gross swap" ;;
      assertMoveUnsigned e.(SwapLimitsChanged.maximumReserveBps) U64 "maximum reserve bps"
  | EvLiquidityLimitsChanged e =>
      assertMoveUnsigned e.(LiquidityLimitsChanged.maximumRflContribution) U64 "maximum tRFL contribution" ;;
      assertMoveUnsigned e.(LiquidityLimitsChanged.maximumTusdContribution) U64 "maximum tUSD contribution" ;;
      assertMoveUnsigned e.(LiquidityLimitsChanged.maximumNonFinalWithdrawalShareBps) U64 "maximum withdrawal share bps"
  | EvPauseStateChanged _ => Returns tt
  | EvFaucetPauseChanged _ => Returns tt
  | EvPoolPauseChanged _ => Returns tt
  | EvOperationalAdminChanged _ => Returns tt
  | EvLiquiditySeeded e =>
      assertMoveUnsigned e.(LiquiditySeeded.epoch) U64 "LiquiditySeeded epoch" ;;
      assertMoveUnsigned e.(LiquiditySeeded.trflAmount) U64 "LiquiditySeeded tRFL amount" ;;
      assertMoveUnsigned e.(LiquiditySeeded.tusdAmount) U64 "LiquiditySeeded tUSD amount" ;;
      assertMoveUnsigned e.(LiquiditySeeded.lpShares) U128 "LiquiditySeeded LP shares" ;;
      assertMoveUnsigned e.(LiquiditySeeded.trflReserveAfter) U64 "LiquiditySeeded tRFL reserve" ;;
      assertMoveUnsigned e.(LiquiditySeeded.tusdReserveAfter) U64 "LiquiditySeeded tUSD reserve"
  | EvLiquidityAdded e =>
      assertMoveUnsigned e.(LiquidityAdded.epoch) U64 "LiquidityAdded epoch" ;;
      assertMoveUnsigned e.(LiquidityAdded.trflAmount) U64 "LiquidityAdded tRFL amount" ;;
      assertMoveUnsigned e.(LiquidityAdded.tusdAmount) U64 "LiquidityAdded tUSD amount" ;;
      assertMoveUnsigned e.(LiquidityAdded.lpShares) U128 "LiquidityAdded LP shares" ;;
      assertMoveUnsigned e.(LiquidityAdded.trflReserveAfter) U64 "LiquidityAdded tRFL reserve" ;;
      assertMoveUnsigned e.(LiquidityAdded.tusdReserveAfter) U64 "LiquidityAdded tUSD reserve"
  | EvLiquidityRemoved e =>
      assertMoveUnsigned e.(LiquidityRemoved.epoch) U64 "LiquidityRemoved epoch" ;;
      assertMoveUnsigned e.(LiquidityRemoved.trflAmount) U64 "LiquidityRemoved tRFL amount" ;;
      assertMoveUnsigned e.(LiquidityRemoved.tusdAmount) U64 "LiquidityRemoved tUSD amount" ;;
      assertMoveUnsigned e.(LiquidityRemoved.lpShares) U128 "LiquidityRemoved LP shares" ;;
      assertMoveUnsigned e.(LiquidityRemoved.trflReserveAfter) U64 "LiquidityRemoved tRFL reserve" ;;
      assertMoveUnsigned e.(LiquidityRemoved.tusdReserveAfter) U64 "LiquidityRemoved tUSD reserve"
  | EvLpEpochOpened e =>
      assertMoveUnsigned e.(LpEpochOpened.epoch) U64 "LpEpochOpened epoch"
  | EvLpEpochStatusChanged e =>
      assertMoveUnsigned e.(LpEpochStatusChanged.epoch) U64 "LpEpochStatusChanged epoch"
  | EvLpSharesChanged e =>
      assertMoveUnsigned e.(LpSharesChanged.epoch) U64 "LP share epoch" ;;
      assertMoveUnsigned e.(LpSharesChanged.amount) U128 "LP share amount" ;;
      assertMoveUnsigned e.(LpSharesChanged.ownerShares) U128 "LP owner shares" ;;
      assertMoveUnsigned e.(LpSharesChanged.totalShares) U128 "LP total shares"
  | EvLpSharesTransferred e =>
      assertMoveUnsigned e.(LpSharesTransferred.epoch) U64 "LP transfer epoch" ;;
      assertMoveUnsigned e.(LpSharesTransferred.amount) U128 "LP transfer amount"
  | EvLpRewardIndexAdvanced e =>
      assertMoveUnsigned e.(LpRewardIndexAdvanced.epoch) U64 "LP reward epoch" ;;
      assertMoveUnsigned e.(LpRewardIndexAdvanced.previousIndex) U256 "previous LP index" ;;
      assertMoveUnsigned e.(LpRewardIndexAdvanced.newIndex) U256 "new LP index" ;;
      assertMoveUnsigned e.(LpRewardIndexAdvanced.indexRemainder) U256 "LP index remainder" ;;
      assertMoveUnsigned e.(LpRewardIndexAdvanced.received) U64 "LP reward received" ;;
      assertMoveUnsigned e.(LpRewardIndexAdvanced.totalShares) U128 "LP reward total shares" ;;
      assertMoveUnsigned e.(LpRewardIndexAdvanced.roundingReserve) U128 "LP rounding reserve"
  | EvLpRewardsClaimed e =>
      assertMoveUnsigned e.(LpRewardsClaimed.epoch) U64 "LP claim epoch" ;;
      assertMoveUnsigned e.(LpRewardsClaimed.amount) U64 "LP claim amount" ;;
      assertMoveUnsigned e.(LpRewardsClaimed.totalClaimed) U256 "LP claim total"
  | EvLpRewardQuarantined e =>
      assertMoveUnsigned e.(LpRewardQuarantined.epoch) U64 "LP quarantine epoch" ;;
      assertMoveUnsigned e.(LpRewardQuarantined.amount) U64 "LP quarantine amount" ;;
      assertMoveUnsigned e.(LpRewardQuarantined.unallocatedRewards) U128 "LP unallocated rewards"
  | EvLpFractionalResidueRetired e =>
      assertMoveUnsigned e.(LpFractionalResidueRetired.epoch) U64 "LP residue epoch" ;;
      assertMoveUnsigned e.(LpFractionalResidueRetired.residueMagnified) U256 "LP residue magnified" ;;
      assertMoveUnsigned e.(LpFractionalResidueRetired.cumulativeRetiredResidueMagnified) U256 "LP cumulative residue magnified" ;;
      assertMoveUnsigned e.(LpFractionalResidueRetired.roundingReserveBaseUnits) U128 "LP residue rounding base units"
  | EvLpEpochTerminalDustClassified e =>
      assertMoveUnsigned e.(LpEpochTerminalDustClassified.epoch) U64 "LP terminal epoch" ;;
      assertMoveUnsigned e.(LpEpochTerminalDustClassified.terminalRoundingBaseUnits) U128 "LP terminal rounding base units" ;;
      assertMoveUnsigned e.(LpEpochTerminalDustClassified.retiredResidueMagnified) U256 "LP terminal residue magnified" ;;
      assertMoveUnsigned e.(LpEpochTerminalDustClassified.lifetimeReceivedBaseUnits) U256 "LP lifetime received" ;;
      assertMoveUnsigned e.(LpEpochTerminalDustClassified.lifetimeClaimedBaseUnits) U256 "LP lifetime claimed"
  | EvUnknown type => Throws (TypeError ("unknown protocol event " ⧺ type))
  end.

(** ** Canonical [ledger:event] ordinals

    The regular expression [/^(0|[1-9][0-9]{0,19}):(0|[1-9][0-9]{0,19})$/] and
    the [BigInt] conversion of its two groups. *)

Definition digitValue (c : ascii) : option Z :=
  let n := Z.of_nat (nat_of_ascii c) in
  if bool_decide (48 <= n) && bool_decide (n <= 57) then Some (n - 48) else None.

(** [BigInt(s)] on a string of decimal digits. *)
Fixpoint parseDigits (accumulator : Z) (s : string) : option Z :=
  match s with
  | EmptyString => Some accumulator
  | String c rest =>
      match digitValue c with
      | Some d => parseDigits (10 * accumulator + d) rest
      | None => None
      end
  end.

(** [0|[1-9][0-9]{0,n}], for at most [n + 1 = digits] digits, and [BigInt] of the match. *)
Definition parseDecimal (digits : Z) (s : string) : option Z :=
  match s with
  | EmptyString => None
  | String "0" EmptyString => Some 0
  | String "0" _ => None
  | String _ _ => if bool_decide (jsLength s <= digits) then parseDigits 0 s else None
  end.

(** [0|[1-9][0-9]{0,19}] *)
Definition parseOrdinal (s : string) : option Z := parseDecimal 20 s.

Fixpoint splitColon (s : string) : option (string * string) :=
  match s with
  | EmptyString => None
  | String ":" rest => Some (EmptyString, rest)
  | String c rest =>
      match splitColon rest with
      | Some (before, after) => Some (String c before, after)
      | None => None
      end
  end.

Definition parseSeenCursor (cursor : string) : option (Z * Z) :=
  match splitColon cursor with
  | Some (before, after) =>
      match parseOrdinal before, parseOrdinal after with
      | Some ledgerVersion, Some eventIndex => Some (ledgerVersion, eventIndex)
      | _, _ => None
      end
  | None => None
  end.

Definition assertSeenCursor (cursor : string) : Outcome unit :=
  match parseSeenCursor cursor with
  | None => Throws (TypeError "seen-event cursor must contain canonical ledger:event ordinals")
  | Some (ledgerVersion, eventIndex) =>
      assertMoveUnsigned ledgerVersion U64 "seen-event ledger version" ;;
      assertMoveUnsigned eventIndex U64 "seen-event index" ;;
      if bool_decide (eventIndex > MAX_SAFE_INTEGER)
      then Throws (RangeError "seen-event index exceeds the safe ordinal representation")
      else Returns tt
  end.

(** ** Projections *)

Definition assertNullable (value : option Z) (bits : MoveWidth) (label : string) : Outcome unit :=
  match value with None => Returns tt | Some v => assertMoveUnsigned v bits label end.

Definition assertWalletDomains (entry : Address * Wallet.IndexedPosition) : Outcome unit :=
  let '(account, position) := entry in
  assertMoveUnsigned position.(Wallet.rawTrfl) U64 ("wallet " ⧺ account ⧺ " raw tRFL") ;;
  assertMoveUnsigned position.(Wallet.rawTusd) U64 ("wallet " ⧺ account ⧺ " raw tUSD") ;;
  assertMoveSignedU256 position.(Wallet.correction) ("wallet " ⧺ account ⧺ " correction") ;;
  assertMoveUnsigned position.(Wallet.claimed) U256 ("wallet " ⧺ account ⧺ " claimed") ;;
  assertMoveUnsigned position.(Wallet.lifetimeClaimed) U256 ("wallet " ⧺ account ⧺ " lifetime claimed") ;;
  assertMoveUnsigned position.(Wallet.lifetimeMaterialized) U256 ("wallet " ⧺ account ⧺ " lifetime materialized").

Definition assertLpPositionDomains (entry : Address * LpPos.IndexedLpPosition) : Outcome unit :=
  let '(owner, position) := entry in
  assertMoveUnsigned position.(LpPos.shares) U128 ("LP owner " ⧺ owner ⧺ " shares") ;;
  assertMoveSignedU256 position.(LpPos.correction) ("LP owner " ⧺ owner ⧺ " correction") ;;
  assertMoveUnsigned position.(LpPos.claimed) U256 ("LP owner " ⧺ owner ⧺ " claimed").

Definition assertLpEpochDomains (entry : Z * LpEpoch.IndexedLpEpoch) : Outcome unit :=
  let '(key, epoch) := entry in
  let label := "LP epoch " ⧺ show key in
  assertMoveUnsigned key U64 "LP epoch map key" ;;
  assertMoveUnsigned epoch.(LpEpoch.epoch) U64 "LP epoch id" ;;
  assertMoveUnsigned epoch.(LpEpoch.index) U256 (label ⧺ " index") ;;
  assertMoveUnsigned epoch.(LpEpoch.indexRemainder) U256 (label ⧺ " index remainder") ;;
  assertMoveUnsigned epoch.(LpEpoch.totalShares) U128 (label ⧺ " total shares") ;;
  assertMoveSignedU256 epoch.(LpEpoch.aggregateCorrection) (label ⧺ " aggregate correction") ;;
  assertMoveUnsigned epoch.(LpEpoch.unallocatedRewards) U128 (label ⧺ " unallocated rewards") ;;
  assertMoveUnsigned epoch.(LpEpoch.roundingReserve) U128 (label ⧺ " rounding reserve") ;;
  assertMoveUnsigned epoch.(LpEpoch.retiredResidueMagnified) U256 (label ⧺ " retired residue") ;;
  assertNullable epoch.(LpEpoch.terminalRoundingBaseUnits) U128 (label ⧺ " terminal rounding") ;;
  assertMoveUnsigned epoch.(LpEpoch.lifetimeReceived) U256 (label ⧺ " lifetime received") ;;
  assertMoveUnsigned epoch.(LpEpoch.lifetimeClaimed) U256 (label ⧺ " lifetime claimed") ;;
  outcome_forEach assertLpPositionDomains epoch.(LpEpoch.positions).

Definition assertProjectionMoveDomains (projection : Proj.ProtocolProjection) : Outcome unit :=
  assertMoveUnsigned projection.(Proj.protocolExclusionSlots) U64 "projection protocol exclusion slots" ;;
  assertMoveUnsigned projection.(Proj.protocolExclusionsRemaining) U64 "projection exclusions remaining" ;;
  assertMoveUnsigned projection.(Proj.registeredWalletCount) U64 "projection registered wallet count" ;;
  assertMoveUnsigned projection.(Proj.feeBps) U64 "projection fee bps" ;;
  assertMoveUnsigned projection.(Proj.currentIndex) U256 "projection reflection index" ;;
  assertMoveUnsigned projection.(Proj.indexRemainder) U256 "projection reflection remainder" ;;
  assertMoveUnsigned projection.(Proj.eligibleSupply) U128 "projection eligible supply" ;;
  assertMoveSignedU256 projection.(Proj.aggregateCorrection) "projection aggregate correction" ;;
  assertMoveUnsigned projection.(Proj.unallocatedFees) U128 "projection unallocated fees" ;;
  assertMoveUnsigned projection.(Proj.roundingReserve) U128 "projection core rounding reserve" ;;
  assertMoveUnsigned projection.(Proj.rewardVaultCredits) U256 "projection reward vault credits" ;;
  assertMoveUnsigned projection.(Proj.rewardVaultPayouts) U256 "projection reward vault payouts" ;;
  assertMoveUnsigned projection.(Proj.lifetimeSwapFees) U256 "projection lifetime swap fees" ;;
  assertMoveUnsigned projection.(Proj.lifetimeMaterialized) U256 "projection lifetime materialized" ;;
  assertMoveUnsigned projection.(Proj.lifetimeCustodyRouted) U256 "projection lifetime custody routed" ;;
  assertMoveUnsigned projection.(Proj.faucetTrflGrant) U64 "projection faucet tRFL grant" ;;
  assertMoveUnsigned projection.(Proj.faucetTusdGrant) U64 "projection faucet tUSD grant" ;;
  assertMoveUnsigned projection.(Proj.faucetCooldownSeconds) U64 "projection faucet cooldown" ;;
  assertMoveUnsigned projection.(Proj.pool).(Pool.trflReserve) U64 "projection tRFL reserve" ;;
  assertMoveUnsigned projection.(Proj.pool).(Pool.tusdReserve) U64 "projection tUSD reserve" ;;
  assertMoveUnsigned projection.(Proj.pool).(Pool.ammFeeBps) U64 "projection AMM fee bps" ;;
  assertMoveUnsigned projection.(Proj.pool).(Pool.maximumGrossSwap) U64 "projection maximum gross swap" ;;
  assertMoveUnsigned projection.(Proj.pool).(Pool.maximumReserveBps) U64 "projection maximum reserve bps" ;;
  assertMoveUnsigned projection.(Proj.pool).(Pool.maximumRflContribution) U64 "projection maximum tRFL contribution" ;;
  assertMoveUnsigned projection.(Proj.pool).(Pool.maximumTusdContribution) U64 "projection maximum tUSD contribution" ;;
  assertMoveUnsigned projection.(Proj.pool).(Pool.maximumNonFinalWithdrawalShareBps) U64 "projection maximum withdrawal share bps" ;;
  assertNullable projection.(Proj.custody).(Custody.adapterId) U64 "projection custody adapter id" ;;
  assertNullable projection.(Proj.custody).(Custody.activeRouteEpoch) U64 "projection custody route epoch" ;;
  assertMoveUnsigned projection.(Proj.custody).(Custody.shares) U128 "projection custody shares" ;;
  assertMoveSignedU256 projection.(Proj.custody).(Custody.correction) "projection custody correction" ;;
  assertMoveUnsigned projection.(Proj.custody).(Custody.claimed) U256 "projection custody claimed" ;;
  assertMoveUnsigned projection.(Proj.custody).(Custody.lifetimeRouted) U256 "projection custody lifetime routed" ;;
  assertNullable projection.(Proj.activeLpEpoch) U64 "projection active LP epoch" ;;
  outcome_forEach assertWalletDomains projection.(Proj.positions) ;;
  outcome_forEach assertLpEpochDomains projection.(Proj.lpEpochs) ;;
  outcome_forEach (fun epoch => assertMoveUnsigned epoch U64 "reward-vault epoch binding")
    (jsValues projection.(Proj.rewardVaultToEpoch)) ;;
  outcome_forEach (fun epoch => assertMoveUnsigned epoch U64 "state-object epoch binding")
    (jsValues projection.(Proj.stateIdToEpoch)) ;;
  outcome_forEach assertSeenCursor (jsValues projection.(Proj.seenEventIds)).

(** ** Lemmas *)

Definition fitsUnsigned (bits : MoveWidth) (value : Z) : Prop := 0 <= value < 2 ^ widthBits bits.
Definition fitsSignedU256 (value : Z) : Prop := - 2 ^ 256 < value < 2 ^ 256.

#[export] Instance fitsUnsigned_dec bits value : Decision (fitsUnsigned bits value).
Proof. unfold fitsUnsigned. apply _. Defined.
#[export] Instance fitsSignedU256_dec value : Decision (fitsSignedU256 value).
Proof. unfold fitsSignedU256. apply _. Defined.

Lemma widthMax_pow bits : widthMax bits = 2 ^ widthBits bits - 1.
Proof. by destruct bits. Qed.

Lemma isMoveUnsigned_iff value bits : isMoveUnsigned value bits = true <-> fitsUnsigned bits value.
Proof.
  unfold isMoveUnsigned, fitsUnsigned. rewrite widthMax_pow.
  case_bool_decide; [split; [done|lia]|]. rewrite bool_decide_eq_true. lia.
Qed.

Lemma isMoveSignedU256_iff value : isMoveSignedU256 value = true <-> fitsSignedU256 value.
Proof.
  unfold isMoveSignedU256, fitsSignedU256.
  rewrite andb_true_iff, !bool_decide_eq_true. change MOVE_U256_MAX with (2 ^ 256 - 1). lia.
Qed.

Lemma assertMoveUnsigned_iff value bits label :
  assertMoveUnsigned value bits label = Returns tt <-> fitsUnsigned bits value.
Proof.
  unfold assertMoveUnsigned. rewrite <- isMoveUnsigned_iff.
  destruct (isMoveUnsigned value bits); split; done.
Qed.

Lemma assertMoveSignedU256_iff value label :
  assertMoveSignedU256 value label = Returns tt <-> fitsSignedU256 value.
Proof.
  unfold assertMoveSignedU256. rewrite <- isMoveSignedU256_iff.
  destruct (isMoveSignedU256 value); split; done.
Qed.

Lemma outcome_bind_unit {B} (o : Outcome unit) (k : Outcome B) b :
  (o ;; k) = Returns b <-> o = Returns tt /\ k = Returns b.
Proof. destruct o as [[]|e]; cbn; naive_solver. Qed.

Lemma returns_eq {A} (a b : A) : Returns a = Returns b <-> b = a.
Proof. split; [by intros [= ->]|by intros ->]. Qed.

#[export] Hint Rewrite @outcome_bind_unit assertMoveUnsigned_iff assertMoveSignedU256_iff
  @returns_eq : domains.

(** The checked operations return exactly the unbounded result, and exactly
    when the operands and the result fit. *)
Lemma checkedMoveU256Add_iff left right label x :
  checkedMoveU256Add left right label = Returns x
  <-> fitsUnsigned U256 left /\ fitsUnsigned U256 right /\ fitsUnsigned U256 (left + right)
      /\ x = left + right.
Proof. unfold checkedMoveU256Add. autorewrite with domains. done. Qed.

Lemma checkedMoveU256Multiply_iff left right label x :
  checkedMoveU256Multiply left right label = Returns x
  <-> fitsUnsigned U256 left /\ fitsUnsigned U256 right /\ fitsUnsigned U256 (left * right)
      /\ x = left * right.
Proof. unfold checkedMoveU256Multiply. autorewrite with domains. done. Qed.

Lemma checkedMoveU256Subtract_iff left right label x :
  checkedMoveU256Subtract left right label = Returns x
  <-> fitsUnsigned U256 left /\ fitsUnsigned U256 right /\ fitsUnsigned U256 (left - right)
      /\ x = left - right.
Proof.
  unfold checkedMoveU256Subtract. autorewrite with domains.
  unfold fitsUnsigned; cbn [widthBits].
  case_bool_decide; autorewrite with domains; [|intuition lia].
  split; [by intros (_ & _ & [=])|lia].
Qed.

Lemma checkedMoveSignedU256AddUnsigned_iff value amount label x :
  checkedMoveSignedU256AddUnsigned value amount label = Returns x
  <-> fitsSignedU256 value /\ fitsUnsigned U256 amount /\ fitsSignedU256 (value + amount)
      /\ x = value + amount.
Proof. unfold checkedMoveSignedU256AddUnsigned. autorewrite with domains. done. Qed.

Lemma checkedMoveSignedU256SubtractUnsigned_iff value amount label x :
  checkedMoveSignedU256SubtractUnsigned value amount label = Returns x
  <-> fitsSignedU256 value /\ fitsUnsigned U256 amount /\ fitsSignedU256 (value - amount)
      /\ x = value - amount.
Proof. unfold checkedMoveSignedU256SubtractUnsigned. autorewrite with domains. done. Qed.

Lemma checkedMoveSignedU256Add_iff left right label x :
  checkedMoveSignedU256Add left right label = Returns x
  <-> fitsSignedU256 left /\ fitsSignedU256 right /\ fitsSignedU256 (left + right)
      /\ x = left + right.
Proof. unfold checkedMoveSignedU256Add. autorewrite with domains. done. Qed.

Lemma applyMoveSignedU256_iff base correction label x :
  applyMoveSignedU256 base correction label = Returns x
  <-> fitsUnsigned U256 base /\ fitsSignedU256 correction /\ fitsUnsigned U256 (base + correction)
      /\ x = base + correction.
Proof.
  unfold applyMoveSignedU256. autorewrite with domains.
  case_bool_decide; rewrite ?checkedMoveU256Subtract_iff, ?checkedMoveU256Add_iff;
    unfold fitsUnsigned, fitsSignedU256; cbn [widthBits]; intuition lia.
Qed.

(** Replaces each successful checked operation in the context by its bounds
    and its value. *)
Ltac checked_inv :=
  repeat match goal with
  | H : checkedMoveU256Add _ _ _ = Returns _ |- _ => apply checkedMoveU256Add_iff in H as (? & ? & ? & ->)
  | H : checkedMoveU256Multiply _ _ _ = Returns _ |- _ => apply checkedMoveU256Multiply_iff in H as (? & ? & ? & ->)
  | H : checkedMoveU256Subtract _ _ _ = Returns _ |- _ => apply checkedMoveU256Subtract_iff in H as (? & ? & ? & ->)
  | H : checkedMoveSignedU256AddUnsigned _ _ _ = Returns _ |- _ =>
      apply checkedMoveSignedU256AddUnsigned_iff in H as (? & ? & ? & ->)
  | H : checkedMoveSignedU256SubtractUnsigned _ _ _ = Returns _ |- _ =>
      apply checkedMoveSignedU256SubtractUnsigned_iff in H as (? & ? & ? & ->)
  | H : checkedMoveSignedU256Add _ _ _ = Returns _ |- _ => apply checkedMoveSignedU256Add_iff in H as (? & ? & ? & ->)
  | H : applyMoveSignedU256 _ _ _ = Returns _ |- _ => apply applyMoveSignedU256_iff in H as (? & ? & ? & ->)
  end.
