(* ===== verification/JsValue.v ===== *)
(** * Untyped JavaScript values

    What crosses a trust boundary as [unknown]: the fields of a chain event or
    of a quote.  A number is its exact value when it is an integer; fractions,
    infinities and [NaN] are [JsNumber None].  An object is its own properties
    in insertion order; an absent property reads [undefined]. *)
From S2P Require Import Prelude JsMap Types MoveDomains.

Inductive JsValue :=
| JsUndefined
| JsNull
| JsBoolean (b : bool)
| JsNumber (n : option Z)
| JsBigint (n : Z)
| JsString (s : string)
| JsArray (items : list JsValue)
| JsObject (fields : list (string * JsValue)).

(** A record: an object that is neither [null] nor an array. *)
Definition DataRecord : Type := list (string * JsValue).

(** [data[key]] *)
Definition property (data : DataRecord) (key : string) : JsValue := default JsUndefined (jsGet key data).

(** [String.prototype.split] by ["::"]. *)
Fixpoint splitDoubleColon (s : string) : list string :=
  match s with
  | EmptyString => [EmptyString]
  | String ":" (String ":" after) => EmptyString :: splitDoubleColon after
  | String c rest =>
      match splitDoubleColon rest with
      | part :: parts => String c part :: parts
      | [] => [String c EmptyString]
      end
  end.

(** [[0-9a-f]] and the same under the [i] flag. *)
Definition isUpperHexLetter (c : ascii) : bool :=
  let n := Z.of_nat (nat_of_ascii c) in bool_decide (65 <= n) && bool_decide (n <= 70).
Definition isLowerHex (c : ascii) : bool :=
  let n := Z.of_nat (nat_of_ascii c) in
  (bool_decide (48 <= n) && bool_decide (n <= 57)) || (bool_decide (97 <= n) && bool_decide (n <= 102)).
Definition isHexDigit (c : ascii) : bool := isLowerHex c || isUpperHexLetter c.

(** [String.prototype.toLowerCase] on hexadecimal digits. *)
Definition lowerChar (c : ascii) : ascii :=
  if isUpperHexLetter c then ascii_of_nat (nat_of_ascii c + 32) else c.

Fixpoint mapChars (f : ascii -> ascii) (s : string) : string :=
  match s with
  | EmptyString => EmptyString
  | String c rest => String (f c) (mapChars f rest)
  end.

(** [replace(/^0+/, "")] *)
Fixpoint stripZeros (s : string) : string :=
  match s with
  | String "0" rest => stripZeros rest
  | _ => s
  end.

(** The value of a hexadecimal digit. *)
Definition hexValue (c : ascii) : Z :=
  let n := Z.of_nat (nat_of_ascii c) in
  if bool_decide (n <= 57) then n - 48 else if bool_decide (n <= 70) then n - 55 else n - 87.

(** [/^0x(?:[0-9a-f]{2})*$/i]: the bytes of a hexadecimal string. *)
Fixpoint hexBytes (s : string) : option (list Z) :=
  match s with
  | EmptyString => Some []
  | String a (String b rest) =>
      if isHexDigit a && isHexDigit b
      then bytes ← hexBytes rest; Some (16 * hexValue a + hexValue b :: bytes)
      else None
  | String _ EmptyString => None
  end.

(** An array of bytes: [value.every((entry) => Number.isInteger(entry) && entry >= 0 && entry <= 255)] *)
Fixpoint byteArray (items : list JsValue) : option (list Z) :=
  match items with
  | [] => Some []
  | JsNumber (Some n) :: rest =>
      if bool_decide (0 <= n) && bool_decide (n <= 255)
      then bytes ← byteArray rest; Some (n :: bytes) else None
  | _ :: _ => None
  end.

(** The text after a ["0x"] or ["0X"] prefix. *)
Definition afterHexPrefix (s : string) : option string :=
  match s with
  | String "0" (String x rest) => if bool_decide (x = "x"%char) || bool_decide (x = "X"%char) then Some rest else None
  | _ => None
  end.

(** The text after [prefix]. *)
Fixpoint stripPrefix (prefix s : string) : option string :=
  match prefix, s with
  | EmptyString, _ => Some s
  | String p prefix', String c rest => if bool_decide (p = c) then stripPrefix prefix' rest else None
  | String _ _, EmptyString => None
  end.
