(* ===== verification/Numerals.v ===== *)
(** * Numerals

    What a text of digits denotes, by place value, whatever reads or writes it:
    the decimal numeral of a natural number and the hexadecimal digits of an
    address.  Decimals are what [show] prints and [parseDecimal] reads; of the
    digits of an address, the canonical ones are unique for their value. *)
From S2P Require Import Prelude JsMap Types MoveDomains JsValue.

(** ** Decimal digits *)

Definition isDigit (c : ascii) : bool := bool_decide (is_Some (digitValue c)).

(** A numeral: digits only, no leading zero, parsed back as [x]. *)
Definition Numeral (x : Z) (s : string) : Prop :=
  allChars isDigit s = true
  /\ (exists c rest, s = String c rest /\ c <> "0"%char)
  /\ forall rest, parseDigits 0 (s ⧺ rest) = parseDigits x rest.

Lemma digitValue_char x : (x < 10)%N -> digitValue (pretty_N_char x) = Some (Z.of_N x).
Proof.
  intros H. assert (x = 0 \/ x = 1 \/ x = 2 \/ x = 3 \/ x = 4 \/ x = 5 \/ x = 6 \/ x = 7 \/ x = 8 \/ x = 9)%N
    as Hx by lia. by destruct_or! Hx; subst.
Qed.

Lemma pretty_N_char_nonzero x : (0 < x < 10)%N -> pretty_N_char x <> "0"%char.
Proof. intros H E. apply (pretty_N_char_inj x 0) in E; lia. Qed.

Lemma append_assoc (a b c : string) : (a ⧺ b) ⧺ c = a ⧺ (b ⧺ c).
Proof. induction a as [|x a IH]; [done|exact (f_equal (String x) IH)]. Qed.

Lemma append_String c (a b : string) : String c a ⧺ b = String c (a ⧺ b).
Proof. done. Qed.

Lemma append_inj (a b c : string) : a ⧺ b = a ⧺ c -> b = c.
Proof. induction a as [|x a IH]; [done|]. rewrite !append_String. intros [= E]. by apply IH. Qed.

Lemma append_empty (a : string) : a ⧺ "" = a.
Proof. induction a as [|x a IH]; [done|exact (f_equal (String x) IH)]. Qed.

Lemma allChars_append f a b : allChars f (a ⧺ b) = allChars f a && allChars f b.
Proof.
  induction a as [|x a IH]; [done|].
  change (f x && allChars f (a ⧺ b) = (f x && allChars f a) && allChars f b).
  by rewrite IH, andb_assoc.
Qed.

Lemma length_append (a b : string) : String.length (a ⧺ b) = (String.length a + String.length b)%nat.
Proof. induction a as [|x a IH]; [done|exact (f_equal S IH)]. Qed.

(** Reading one digit. *)
Lemma parseDigits_char acc d rest :
  (d < 10)%N -> parseDigits acc (String (pretty_N_char d) rest) = parseDigits (10 * acc + Z.of_N d) rest.
Proof.
  intros Hd. change (match digitValue (pretty_N_char d) with
    | Some v => parseDigits (10 * acc + v) rest | None => None end = parseDigits (10 * acc + Z.of_N d) rest).
  by rewrite digitValue_char.
Qed.

Lemma isDigit_char d : (d < 10)%N -> allChars isDigit (String (pretty_N_char d) "") = true.
Proof.
  intros Hd. change (isDigit (pretty_N_char d) && true = true). unfold isDigit.
  rewrite digitValue_char by done. by rewrite bool_decide_true by eauto.
Qed.

(** One more digit on the right. *)
Lemma numeral_snoc x s d :
  (d < 10)%N -> Numeral x s ->
  Numeral (10 * x + Z.of_N d) (s ⧺ String (pretty_N_char d) "").
Proof.
  intros Hd (Ha & (c & r & -> & Hc) & Hp). split; [|split].
  - by rewrite allChars_append, Ha, isDigit_char.
  - exists c, (r ⧺ String (pretty_N_char d) ""). by split.
  - intros rest. rewrite append_assoc, Hp. exact (parseDigits_char x d rest Hd).
Qed.

Lemma numeral_single d :
  (0 < d < 10)%N -> Numeral (Z.of_N d) (String (pretty_N_char d) "").
Proof.
  intros Hd. split; [|split].
  - apply isDigit_char. lia.
  - eexists _, _. split; [done|]. by apply pretty_N_char_nonzero.
  - intros rest. exact (parseDigits_char 0 d rest ltac:(lia)).
Qed.

(** The printer's accumulator only prepends a numeral. *)
Lemma pretty_N_go_numeral x : (0 < x)%N -> forall k s, (x < 10 ^ N.of_nat k)%N ->
  exists pre, pretty_N_go x s = pre ⧺ s /\ Numeral (Z.of_N x) pre /\ (String.length pre <= k)%nat.
Proof.
  induction (N.lt_wf_0 x) as [x _ IH]. intros Hx k s Hk.
  destruct k as [|k]; [cbn in Hk; lia|]. rewrite pretty_N_go_step by done.
  destruct (decide (x < 10)%N) as [Hlt|Hge].
  - exists (String (pretty_N_char x) "").
    rewrite N.div_small, N.mod_small, pretty_N_go_0 by done.
    split; [done|split; [by apply numeral_single|cbn; lia]].
  - rewrite Nat2N.inj_succ, N.pow_succ_r' in Hk.
    assert (Hdiv : (x `div` 10 < 10 ^ N.of_nat k)%N) by (apply N.Div0.div_lt_upper_bound; lia).
    destruct (IH (x `div` 10)%N ltac:(apply N.div_lt; lia) ltac:(apply N.div_str_pos; lia) k
      (String (pretty_N_char (x `mod` 10)) s) Hdiv) as (pre & E & Hn & Hl).
    exists (pre ⧺ String (pretty_N_char (x `mod` 10)) "").
    split; [by rewrite E, append_assoc|]. split; [|rewrite length_append; cbn; lia].
    assert (Hm : (x `mod` 10 < 10)%N) by (apply N.mod_lt; done).
    pose proof (numeral_snoc _ _ _ Hm Hn) as Hs.
    replace (Z.of_N x) with (10 * Z.of_N (x `div` 10) + Z.of_N (x `mod` 10))%Z; [done|].
    rewrite (N.div_mod x 10) at 3 by done. lia.
Qed.

(** A number of at most [k] digits prints as a numeral the expression accepts. *)
Lemma parseDecimal_show k n :
  (0 < k)%nat -> 0 <= n < 10 ^ Z.of_nat k ->
  parseDecimal (Z.of_nat k) (show n) = Some n /\ allChars isDigit (show n) = true.
Proof.
  intros Hk0 Hn. unfold show. destruct n as [|p|p]; [done| |lia].
  change (pretty (Z.pos p)) with (pretty_N_go (N.pos p) "").
  destruct (pretty_N_go_numeral (N.pos p) ltac:(lia) k "") as (pre & -> & (Ha & (c & r & -> & Hc) & Hp) & Hl).
  { apply N2Z.inj_lt. rewrite N2Z.inj_pow, nat_N_Z. cbn. lia. }
  rewrite append_empty. split; [|done].
  specialize (Hp ""). rewrite append_empty in Hp.
  assert (Hlen : bool_decide (jsLength (String c r) <= Z.of_nat k) = true).
  { apply bool_decide_eq_true. unfold jsLength. lia. }
  unfold parseDecimal. rewrite Hlen, Hp. cbn [parseDigits].
  destruct c as [[] [] [] [] [] [] [] []]; done.
Qed.

Lemma show_numeral n : 0 < n -> Numeral n (show n).
Proof.
  intros Hn. unfold show. destruct n as [|p|p]; [lia| |lia].
  change (pretty (Z.pos p)) with (pretty_N_go (N.pos p) "").
  destruct (pretty_N_go_numeral (N.pos p) ltac:(lia) (N.to_nat (N.pos p)) "") as (pre & -> & H & _).
  { rewrite N2Nat.id. apply N.pow_gt_lin_r. lia. }
  by rewrite append_empty.
Qed.

(** ** Prefixes *)

Lemma stripPrefix_app prefix rest : stripPrefix prefix (prefix ⧺ rest) = Some rest.
Proof. induction prefix as [|p prefix IH]; [done|]. rewrite append_String. cbn [stripPrefix]. by rewrite bool_decide_true. Qed.

Lemma stripPrefix_some prefix s rest : stripPrefix prefix s = Some rest -> s = prefix ⧺ rest.
Proof.
  revert s. induction prefix as [|c prefix IH]; intros s; [by intros [= ->]|]. destruct s as [|c' s]; [done|]. cbn [stripPrefix].
  case_bool_decide as E; [|done]. intros ->%IH. by rewrite E, append_String.
Qed.

(** ** Zeros and letter case *)

Lemma lowerChar_hex c : isHexDigit c = true -> isLowerHex (lowerChar c) = true /\ (lowerChar c = "0"%char -> c = "0"%char).
Proof. destruct c as [[] [] [] [] [] [] [] []]; done. Qed.

Lemma lowerHex_fixed c : isLowerHex c = true -> isHexDigit c = true /\ lowerChar c = c.
Proof. destruct c as [[] [] [] [] [] [] [] []]; done. Qed.

(** Neither empty of zeros at its head. *)
Definition NoLeadingZero (s : string) : Prop := match s with String "0" _ => False | _ => True end.

Lemma noLeadingZero_cons c s : c <> "0"%char -> NoLeadingZero (String c s).
Proof. destruct c as [[] [] [] [] [] [] [] []]; done. Qed.

Lemma stripZeros_fixed s : NoLeadingZero s -> stripZeros s = s.
Proof. destruct s as [|[[] [] [] [] [] [] [] []] s]; done. Qed.

Lemma stripZeros_step c s :
  stripZeros (String c s) = if bool_decide (c = "0"%char) then stripZeros s else String c s.
Proof. destruct c as [[] [] [] [] [] [] [] []]; done. Qed.

Lemma stripZeros_spec f s :
  allChars f s = true ->
  allChars f (stripZeros s) = true /\ NoLeadingZero (stripZeros s)
  /\ (String.length (stripZeros s) <= String.length s)%nat.
Proof.
  induction s as [|c s IH]; [done|]. intros Hf. rewrite stripZeros_step.
  change (f c && allChars f s = true) in Hf. apply andb_prop in Hf as [Hc Hf].
  case_bool_decide as E.
  - destruct (IH Hf) as (? & ? & ?). split; [done|]. split; [done|]. cbn. lia.
  - split; [by apply andb_true_intro|]. split; [by apply noLeadingZero_cons|done].
Qed.

Lemma lower_spec s :
  allChars isHexDigit s = true -> NoLeadingZero s ->
  allChars isLowerHex (mapChars lowerChar s) = true /\ NoLeadingZero (mapChars lowerChar s)
  /\ String.length (mapChars lowerChar s) = String.length s.
Proof.
  intros Hs Hz. assert (Hall : forall s, allChars isHexDigit s = true ->
    allChars isLowerHex (mapChars lowerChar s) = true /\ String.length (mapChars lowerChar s) = String.length s).
  { clear. induction s as [|c s IH]; [done|]. intros H. change (isHexDigit c && allChars isHexDigit s = true) in H.
    apply andb_prop in H as [Hc H]. destruct (IH H) as [? ?]. cbn [mapChars]. split; [|cbn; congruence].
    apply andb_true_intro. split; [by apply lowerChar_hex|done]. }
  destruct (Hall s Hs) as [? ?]. split; [done|]. split; [|done].
  destruct s as [|c s]; [done|]. cbn [mapChars]. apply noLeadingZero_cons. intros E.
  change (isHexDigit c && allChars isHexDigit s = true) in Hs. apply andb_prop in Hs as [Hc _].
  apply lowerChar_hex in Hc as [_ Hc]. rewrite (Hc E) in Hz. done.
Qed.

Lemma lower_fixed s : allChars isLowerHex s = true -> allChars isHexDigit s = true /\ mapChars lowerChar s = s.
Proof.
  induction s as [|c s IH]; [done|]. intros H. change (isLowerHex c && allChars isLowerHex s = true) in H.
  apply andb_prop in H as [Hc H]. destruct (IH H) as [? E]. apply lowerHex_fixed in Hc as [? ?].
  split; [by apply andb_true_intro|]. cbn [mapChars]. congruence.
Qed.


(** ** Place value *)

(** The digits of [s] after what [accumulated] so far. *)
Fixpoint placeValue (base accumulated : Z) (s : string) : Z :=
  match s with
  | EmptyString => accumulated
  | String c rest => placeValue base (base * accumulated + hexValue c) rest
  end.
Definition valueIn (base : Z) (s : string) : Z := placeValue base 0 s.

Lemma digit_value c : isDigit c = true -> digitValue c = Some (hexValue c) /\ 0 <= hexValue c < 10.
Proof. destruct c as [[] [] [] [] [] [] [] []]; vm_compute; intros [=]; done. Qed.

Lemma digit_inj c c' : isDigit c = true -> isDigit c' = true -> hexValue c = hexValue c' -> c = c'.
Proof.
  intros [Hc _]%digit_value [Hc' _]%digit_value E. unfold digitValue in *. repeat case_match; try done.
  injection Hc as Hc. injection Hc' as Hc'. rewrite <- (ascii_nat_embedding c), <- (ascii_nat_embedding c'). f_equal. lia.
Qed.

Lemma lowerHex_value c : isLowerHex c = true -> 0 <= hexValue c < 16.
Proof. destruct c as [[] [] [] [] [] [] [] []]; vm_compute; intros [=]; done. Qed.

Lemma lowerHex_inj c c' : isLowerHex c = true -> isLowerHex c' = true -> hexValue c = hexValue c' -> c = c'.
Proof.
  unfold isLowerHex, hexValue. intros Hc Hc' E. rewrite <- (ascii_nat_embedding c), <- (ascii_nat_embedding c'). f_equal.
  repeat case_bool_decide; cbn in Hc, Hc'; try done; lia.
Qed.

Lemma lowerChar_value c : isHexDigit c = true -> hexValue (lowerChar c) = hexValue c.
Proof. destruct c as [[] [] [] [] [] [] [] []]; vm_compute; intros [=]; done. Qed.

(** Digits of a base, each with a value of its own. *)
Class DigitsOf (base : Z) (digit : ascii -> bool) : Prop := {
  digit_range c : digit c = true -> 0 <= hexValue c < base;
  digit_distinct c c' : digit c = true -> digit c' = true -> hexValue c = hexValue c' -> c = c';
  digit_zero : digit "0"%char = true
}.

#[export] Instance decimal_digits : DigitsOf 10 isDigit.
Proof. split; [by intros c [_ H]%digit_value|apply digit_inj|reflexivity]. Qed.

#[export] Instance lowerHex_digits : DigitsOf 16 isLowerHex.
Proof. split; [apply lowerHex_value|apply lowerHex_inj|reflexivity]. Qed.

Fixpoint pad (k : nat) (s : string) : string := match k with O => s | S k' => String "0" (pad k' s) end.

Section Unique.
Context {base : Z} {digit : ascii -> bool} `{!DigitsOf base digit}.

(** Numerals of one length are told apart by their value. *)
Lemma placeValue_inj s s' a a' :
  allChars digit s = true -> allChars digit s' = true -> String.length s = String.length s' ->
  placeValue base a s = placeValue base a' s' -> a = a' /\ s = s'.
Proof.
  revert s' a a'. induction s as [|c s IH]; intros [|c' s'] a a' Hs Hs' Hl E; try done. injection Hl as Hl. cbn [allChars placeValue] in *.
  apply andb_prop in Hs as [Hc Hs]. apply andb_prop in Hs' as [Hc' Hs']. apply IH in E as [E ->]; [|done..].
  pose proof (digit_range c Hc). pose proof (digit_range c' Hc'). assert (a = a') as -> by nia.
  split; [done|]. f_equal. apply digit_distinct; [done|done|lia].
Qed.

Lemma pad_value k s : valueIn base (pad k s) = valueIn base s.
Proof. induction k as [|k IH]; [done|]. unfold valueIn in *. cbn [pad placeValue]. rewrite <- IH. f_equal. change (hexValue "0") with 0. lia. Qed.

Lemma pad_digits k s : allChars digit s = true -> allChars digit (pad k s) = true.
Proof. intros Hs. induction k as [|k IH]; [done|]. cbn [pad allChars]. by rewrite digit_zero. Qed.

Lemma pad_length k s : String.length (pad k s) = (k + String.length s)%nat.
Proof. induction k as [|k IH]; [done|]. cbn. by rewrite IH. Qed.

(** So are numerals without leading zeros. *)
Lemma value_inj_shorter s s' :
  (String.length s <= String.length s')%nat -> NoLeadingZero s' ->
  allChars digit s = true -> allChars digit s' = true -> valueIn base s = valueIn base s' -> s = s'.
Proof.
  intros Hl Hz Hs Hs' E. rewrite <- (pad_value (String.length s' - String.length s)) in E.
  apply placeValue_inj in E as [_ E]; [|by apply pad_digits|done|rewrite pad_length; lia].
  destruct (String.length s' - String.length s)%nat as [|k]; [done|]. by rewrite <- E in Hz.
Qed.

Lemma value_inj s s' :
  NoLeadingZero s -> NoLeadingZero s' -> allChars digit s = true -> allChars digit s' = true ->
  valueIn base s = valueIn base s' -> s = s'.
Proof.
  intros Hz Hz' Hs Hs' E. destruct (le_ge_dec (String.length s) (String.length s')); [by apply value_inj_shorter|].
  symmetry. by apply value_inj_shorter.
Qed.
End Unique.

(** ** Decimals *)

(** The decimal numeral of [n]. *)
Record DecimalOf (n : Z) (s : string) : Prop := {
  decimal_chars : allChars isDigit s = true;
  decimal_nonempty : s <> "";
  decimal_plain : s = "0" \/ NoLeadingZero s;
  decimal_value : valueIn 10 s = n
}.

Lemma parseDigits_place acc s : allChars isDigit s = true -> parseDigits acc s = Some (placeValue 10 acc s).
Proof.
  revert acc. induction s as [|c s IH]; intros acc Hs; [done|]. cbn [allChars] in Hs. apply andb_prop in Hs as [Hc Hs].
  cbn [parseDigits placeValue]. apply digit_value in Hc as [-> _]. by apply IH.
Qed.

Lemma parseDigits_digits acc s n : parseDigits acc s = Some n -> allChars isDigit s = true.
Proof.
  revert acc. induction s as [|c s IH]; intros acc; [done|]. cbn [parseDigits allChars]. unfold isDigit at 1.
  destruct (digitValue c) as [d|]; [|done]. intros H%IH. by rewrite H.
Qed.

Lemma placeValue_nonneg acc s : 0 <= acc -> allChars isDigit s = true -> 0 <= placeValue 10 acc s.
Proof.
  revert acc. induction s as [|c s IH]; intros acc Ha Hs; [done|]. cbn [allChars placeValue] in *. apply andb_prop in Hs as [[_ Hc]%digit_value Hs].
  apply IH; [lia|done].
Qed.

Lemma decimal_show n : 0 <= n -> DecimalOf n (show n).
Proof.
  intros Hn. destruct (decide (n = 0)) as [->|Hne]; [split; [done|done|by left|done]|].
  destruct (show_numeral n ltac:(lia)) as (Hd & (c & rest & E & Hc) & Hp). rewrite E in *. split; [done|done|right; by apply noLeadingZero_cons|].
  specialize (Hp ""). rewrite append_empty, parseDigits_place in Hp by done. injection Hp as Hp. exact Hp.
Qed.

Lemma decimal_unique n s s' : DecimalOf n s -> DecimalOf n s' -> s = s'.
Proof.
  assert (Hzero : forall t, NoLeadingZero t -> t <> "" -> allChars isDigit t = true -> valueIn 10 t = 0 -> False).
  { intros t Hz Hne Ht E. apply Hne. by apply (value_inj (base := 10) (digit := isDigit) t ""). }
  intros [Hc Hne Hz E] [Hc' Hne' Hz' E']. destruct Hz as [->|Hz], Hz' as [->|Hz']; [done|..].
  - exfalso. apply (Hzero s'); [done..|]. by rewrite E', <- E.
  - exfalso. apply (Hzero s); [done..|]. by rewrite E, <- E'.
  - apply (value_inj (base := 10) (digit := isDigit)); [done..|congruence].
Qed.

(** Decimals are what is printed. *)
Lemma decimal_iff n s : DecimalOf n s <-> 0 <= n /\ s = show n.
Proof.
  split; [|intros [Hn ->]; by apply decimal_show]. intros H. pose proof H as [Hc _ _ <-].
  assert (Hn : 0 <= valueIn 10 s) by by apply placeValue_nonneg. split; [done|]. eapply decimal_unique; [done|by apply decimal_show].
Qed.

(** And what is read. *)
Lemma parseDecimal_decimal k s n : parseDecimal k s = Some n -> DecimalOf n s.
Proof.
  unfold parseDecimal. intros E. destruct s as [|c s]; [done|]. destruct (decide (c = "0"%char)) as [->|Hc].
  { destruct s; [|done]. injection E as <-. split; [done|done|by left|done]. }
  assert (E' : parseDigits 0 (String c s) = Some n).
  { destruct c as [[] [] [] [] [] [] [] []]; try done; case_bool_decide; done. }
  pose proof (parseDigits_digits _ _ _ E') as Hd. rewrite parseDigits_place in E' by done. injection E' as E'.
  split; [done|done|right; by apply noLeadingZero_cons|done].
Qed.

(** ** Hexadecimal digits of an address *)

(** One to sixty-four of them, in any case, with the value [n]. *)
Record HexDigits (n : Z) (digits : string) : Prop := {
  hex_chars : allChars isHexDigit digits = true;
  hex_length : 1 <= jsLength digits <= 64;
  hex_value : valueIn 16 digits = n
}.

(** The digits that are not rewritten: in lower case, no zero in front. *)
Record CanonicalDigits (n : Z) (digits : string) : Prop := {
  canonical_hex : HexDigits n digits;
  canonical_lower : allChars isLowerHex digits = true;
  canonical_plain : digits = "0" \/ NoLeadingZero digits
}.

(** [digits.replace(/^0+/, "").toLowerCase() || "0"] *)
Definition plainDigits (digits : string) : string :=
  let stripped := mapChars lowerChar (stripZeros digits) in if bool_decide (stripped = "") then "0" else stripped.

Lemma stripZeros_value s : valueIn 16 (stripZeros s) = valueIn 16 s.
Proof.
  induction s as [|c s IH]; [done|]. rewrite stripZeros_step. case_bool_decide as E; [|done]. rewrite IH, E. reflexivity.
Qed.

Lemma lower_value a s : allChars isHexDigit s = true -> placeValue 16 a (mapChars lowerChar s) = placeValue 16 a s.
Proof.
  revert a. induction s as [|c s IH]; intros a Hs; [done|]. cbn [allChars mapChars placeValue] in *. apply andb_prop in Hs as [Hc Hs].
  rewrite lowerChar_value by done. by apply IH.
Qed.

Lemma plainDigits_canonical n digits : HexDigits n digits -> CanonicalDigits n (plainDigits digits).
Proof.
  intros [Hc Hl Hn]. destruct (stripZeros_spec isHexDigit digits Hc) as (Hs & Hz & Hlen). destruct (lower_spec _ Hs Hz) as (Ha & Hz' & Hlen').
  assert (Hv : valueIn 16 (mapChars lowerChar (stripZeros digits)) = n) by (unfold valueIn; rewrite lower_value by done; by rewrite <- Hn, <- stripZeros_value).
  unfold plainDigits. case_bool_decide as E.
  - rewrite E in Hv. split; [|done|by left]. split; [done|done|exact Hv].
  - split; [|done|by right]. destruct (lower_fixed _ Ha) as [Hh _]. split; [done| |done]. unfold jsLength in *. rewrite Hlen'.
    destruct (mapChars lowerChar (stripZeros digits)); [done|]. cbn in Hlen'. lia.
Qed.

Lemma canonicalDigits_unique n digits digits' : CanonicalDigits n digits -> CanonicalDigits n digits' -> digits = digits'.
Proof.
  assert (Hzero : forall t, NoLeadingZero t -> allChars isLowerHex t = true -> valueIn 16 t = 0 -> t = "").
  { intros t Hz Ht E. by apply (value_inj (base := 16) (digit := isLowerHex) t ""). }
  intros [[Hc Hl E] Ha Hz] [[Hc' Hl' E'] Ha' Hz']. unfold jsLength in *. destruct Hz as [->|Hz], Hz' as [->|Hz']; [done|..].
  - rewrite (Hzero digits') in Hl'; [cbn in Hl'; lia|done..|]. by rewrite E', <- E.
  - rewrite (Hzero digits) in Hl; [cbn in Hl; lia|done..|]. by rewrite E, <- E'.
  - apply (value_inj (base := 16) (digit := isLowerHex)); [done..|congruence].
Qed.

Lemma plainDigits_fixed n digits : CanonicalDigits n digits -> plainDigits digits = digits.
Proof. intros H. eapply canonicalDigits_unique; [apply plainDigits_canonical, H|done]. Qed.

(** Two spellings are rewritten alike exactly when their values are the same. *)
Lemma plainDigits_same n n' digits digits' :
  HexDigits n digits -> HexDigits n' digits' -> plainDigits digits = plainDigits digits' <-> n = n'.
Proof.
  intros H%plainDigits_canonical H'%plainDigits_canonical. split.
  - intros E. rewrite E in H. destruct H as [[_ _ <-] _ _], H' as [[_ _ <-] _ _]. done.
  - intros ->. by eapply canonicalDigits_unique.
Qed.

Lemma plainDigits_zero n digits : HexDigits n digits -> plainDigits digits = "0" <-> n = 0.
Proof.
  intros H. assert (H0 : HexDigits 0 "0") by (split; [done|cbn; unfold jsLength; cbn; lia|done]).
  rewrite <- (plainDigits_same n 0 digits "0") by done. reflexivity.
Qed.
