(* ===== verification/Json.v ===== *)
(** * JSON

    [JSON.stringify] without indentation and [JSON.parse], with the bigint
    replacer and reviver that [snapshot.ts] and [file-store.ts] share.  Strings
    are code units below 256.  A number is kept exactly when it is a safe
    integer, the only numbers the code accepts; any other number is the text
    [JSON.stringify] writes for it, which the argument [numberText] gives from
    the mantissa and the decimal exponent that were read. *)
From S2P Require Import Prelude JsMap Types MoveDomains JsValue.

(** [JBigint] is what the reviver makes of [{ $bigint: digits }], and what the replacer writes so. *)
Inductive Json :=
| JNull
| JBool (b : bool)
| JNumber (n : Z)
| JDouble (text : string)
| JBigint (n : Z)
| JString (s : string)
| JArray (items : list Json)
| JObject (fields : list (string * Json)).

(** ** [JSON.stringify] *)

Definition hexDigit (n : nat) : ascii :=
  ascii_of_nat (if bool_decide (n < 10)%nat then 48 + n else 87 + n)%nat.

Definition DOUBLE_QUOTE : ascii := ascii_of_nat 34.
Definition BACKSLASH : ascii := ascii_of_nat 92.
Definition NEWLINE : ascii := ascii_of_nat 10.

(** [QuoteJSONString] *)
Definition escapeChar (c : ascii) : string :=
  let n := nat_of_ascii c in
  match n with
  | 8%nat => String BACKSLASH "b" | 9%nat => String BACKSLASH "t" | 10%nat => String BACKSLASH "n"
  | 12%nat => String BACKSLASH "f" | 13%nat => String BACKSLASH "r"
  | 34%nat => String BACKSLASH (String DOUBLE_QUOTE "")
  | 92%nat => String BACKSLASH (String BACKSLASH "")
  | _ => if bool_decide (n < 32)%nat
         then String BACKSLASH "u00" ⧺ String (hexDigit (Nat.div n 16)) (String (hexDigit (Nat.modulo n 16)) "")
         else String c ""
  end.

Fixpoint escapeJson (s : string) : string :=
  match s with
  | EmptyString => EmptyString
  | String c rest => escapeChar c ⧺ escapeJson rest
  end.

Definition quoteJson (s : string) : string :=
  String DOUBLE_QUOTE (escapeJson s ⧺ String DOUBLE_QUOTE "").

(** With the replacer of [encodeBigInts]: a bigint is [{ $bigint: digits }]. *)
Fixpoint stringify (j : Json) : string :=
  match j with
  | JNull => "null"
  | JBool b => showBool b
  | JNumber n => show n
  | JDouble text => text
  | JBigint n => "{" ⧺ quoteJson "$bigint" ⧺ ":" ⧺ quoteJson (show n) ⧺ "}"
  | JString s => quoteJson s
  | JArray items => "[" ⧺ joinWith "," (map stringify items) ⧺ "]"
  | JObject fields =>
      "{" ⧺ joinWith "," (map (fun field => quoteJson field.1 ⧺ ":" ⧺ stringify field.2) fields) ⧺ "}"
  end.

Definition jsonNullable {A} (f : A -> Json) (value : option A) : Json := from_option f JNull value.

(** [object.key], [None] when there is no such property. *)
Definition jsonField (key : string) (j : Json) : option Json :=
  match j with
  | JObject fields => jsGet key fields
  | _ => None
  end.

(** ** [JSON.parse] *)

Definition isSpace (c : ascii) : bool :=
  match nat_of_ascii c with
  | 9%nat | 10%nat | 13%nat | 32%nat => true
  | _ => false
  end.

Fixpoint skipSpace (s : string) : string :=
  match s with
  | String c rest => if isSpace c then skipSpace rest else s
  | EmptyString => EmptyString
  end.

(** The single character escapes. *)
Definition unescape (c : ascii) : option ascii :=
  match nat_of_ascii c with
  | 34%nat => Some c | 92%nat => Some c | 47%nat => Some c
  | 98%nat => Some (ascii_of_nat 8) | 116%nat => Some (ascii_of_nat 9) | 110%nat => Some (ascii_of_nat 10)
  | 102%nat => Some (ascii_of_nat 12) | 114%nat => Some (ascii_of_nat 13)
  | _ => None
  end.

(** [uXXXX], for a code unit below 256. *)
Definition unescapeHex (a b c d : ascii) : option ascii :=
  if isHexDigit a && isHexDigit b && isHexDigit c && isHexDigit d
     && bool_decide (hexValue a = 0) && bool_decide (hexValue b = 0)
  then Some (ascii_of_nat (Z.to_nat (16 * hexValue c + hexValue d)))
  else None.

Definition push (c : ascii) (read : option (string * string)) : option (string * string) :=
  match read with
  | Some (text, rest) => Some (String c text, rest)
  | None => None
  end.

(** A string after its opening quote, and what follows its closing quote. *)
Fixpoint parseChars (s : string) : option (string * string) :=
  match s with
  | EmptyString => None
  | String c rest =>
      if bool_decide (c = DOUBLE_QUOTE) then Some ("", rest)
      else if bool_decide (c = BACKSLASH) then
        match rest with
        | EmptyString => None
        | String e rest' =>
            match unescape e with
            | Some plain => push plain (parseChars rest')
            | None =>
                match rest' with
                | String h1 (String h2 (String h3 (String h4 rest''))) =>
                    if bool_decide (e = "u"%char)
                    then match unescapeHex h1 h2 h3 h4 with
                         | Some plain => push plain (parseChars rest'')
                         | None => None
                         end
                    else None
                | _ => None
                end
            end
        end
      else if bool_decide (nat_of_ascii c < 32)%nat then None
      else push c (parseChars rest)
  end.

(** The longest prefix of digits. *)
Fixpoint spanDigits (s : string) : string * string :=
  match s with
  | String c rest =>
      match digitValue c with
      | Some _ => let '(digits, after) := spanDigits rest in (String c digits, after)
      | None => (EmptyString, s)
      end
  | EmptyString => (EmptyString, EmptyString)
  end.

(** The text after the token [c] and the white space before it. *)
Definition next (c : ascii) (s : string) : option string := stripPrefix (String c "") (skipSpace s).

(** Round half to even. *)
Definition halfEven (numerator denominator : Z) : Z :=
  let q := numerator / denominator in
  match Z.compare (2 * (numerator - q * denominator)) denominator with
  | Lt => q
  | Gt => q + 1
  | Eq => if Z.even q then q else q + 1
  end.

(** The double nearest to a non-negative quotient, when it is an integer. *)
Definition integerDouble (numerator denominator : Z) : option Z :=
  if bool_decide (numerator = 0) then Some 0
  else
    let estimate := Z.log2 numerator - Z.log2 denominator in
    let below := bool_decide (numerator * 2 ^ Z.max 0 (- estimate) < denominator * 2 ^ Z.max 0 estimate) in
    let ulp := Z.max (- 1074) ((if below then estimate - 1 else estimate) - 52) in
    let mantissa := halfEven (numerator * 2 ^ Z.max 0 (- ulp)) (denominator * 2 ^ Z.max 0 ulp) in
    if bool_decide (0 <= ulp)
    then let value := mantissa * 2 ^ ulp in if bool_decide (value < 2 ^ 1024) then Some value else None
    else if bool_decide (mantissa mod 2 ^ (- ulp) = 0) then Some (mantissa / 2 ^ (- ulp)) else None.

(** The text after either prefix. *)
Definition stripEither (p q : string) (s : string) : option string :=
  match stripPrefix p s with
  | Some rest => Some rest
  | None => stripPrefix q s
  end.

(** The value of an exponent part, 0 when there is none. *)
Definition parseExponent (s : string) : option (Z * string) :=
  match stripEither "e" "E" s with
  | Some rest =>
      let negative := match stripPrefix "-" rest with Some _ => true | None => false end in
      let '(digits, after) := spanDigits (default rest (stripEither "-" "+" rest)) in
      if bool_decide (digits = "") then None
      else value ← parseDigits 0 digits; Some (if negative then - value else value, after)
  | None => Some (0, s)
  end.

(** The digits of a fraction part, none when there is no fraction. *)
Definition parseFraction (s : string) : option (string * string) :=
  match stripPrefix "." s with
  | Some rest =>
      let '(digits, after) := spanDigits rest in
      if bool_decide (digits = "") then None else Some (digits, after)
  | None => Some ("", s)
  end.

Definition parseSign (s : string) : bool * string :=
  match stripPrefix "-" s with
  | Some rest => (true, rest)
  | None => (false, s)
  end.

(** The digits of a number may not start with a zero that is not alone. *)
Definition leadingZero (digits : string) : bool :=
  match digits with
  | String "0" (String _ _) => true
  | _ => false
  end.

(** An own key that is an array index: a canonical numeral below [2^32 - 1]. *)
Definition arrayIndex (key : string) : option Z :=
  index ← parseDecimal 10 key; if bool_decide (index < 4294967295) then Some index else None.

Fixpoint insertIndexed (index : Z) (field : string * Json) (sorted : list (Z * (string * Json)))
    : list (Z * (string * Json)) :=
  match sorted with
  | [] => [(index, field)]
  | (i, f) :: rest => if bool_decide (index < i) then (index, field) :: sorted
                      else (i, f) :: insertIndexed index field rest
  end.

(** The own properties of an object: array indices in ascending order, then the
    other keys as they were created; a repeated key keeps its place and takes the last value. *)
Definition objectOf (members : list (string * Json)) : Json :=
  let own := jsFromEntries members in
  let indexed := foldr (fun field sorted =>
    match arrayIndex field.1 with Some i => insertIndexed i field sorted | None => sorted end) [] own in
  JObject (map snd indexed ++ List.filter (fun field => bool_decide (arrayIndex field.1 = None)) own).

Definition SyntaxError : JsError := mkError "SyntaxError" "Unexpected token in JSON".

(** One literal and the value it stands for. *)
Definition literal (text : string) (value : Json) (s : string) (otherwise : option (Json * string)) : option (Json * string) :=
  match stripPrefix text s with
  | Some rest => Some (value, rest)
  | None => otherwise
  end.

Section Parse.
(** The text [JSON.stringify] writes for the double nearest to [mantissa * 10 ^ exponent],
    used where that double is not a safe integer. *)
Context (numberText : Z -> Z -> string).

Definition numberOf (negative : bool) (mantissa exponent : Z) : Json :=
  let signed n := if negative then - n else n in
  match integerDouble (mantissa * 10 ^ Z.max 0 exponent) (10 ^ Z.max 0 (- exponent)) with
  | Some n => if bool_decide (n <= MAX_SAFE_INTEGER) then JNumber (signed n)
              else JDouble (numberText (signed mantissa) exponent)
  | None => JDouble (numberText (signed mantissa) exponent)
  end.

Definition parseNumber (s : string) : option (Json * string) :=
  let '(negative, unsigned) := parseSign s in
  let '(whole, afterWhole) := spanDigits unsigned in
  if bool_decide (whole = "") || leadingZero whole then None
  else
    '(fraction, afterFraction) ← parseFraction afterWhole;
    '(exponent, rest) ← parseExponent afterFraction;
    mantissa ← parseDigits 0 (whole ⧺ fraction);
    Some (numberOf negative mantissa (exponent - jsLength fraction), rest).

Definition parseLiteral (s : string) : option (Json * string) :=
  literal "null" JNull s (literal "true" (JBool true) s (literal "false" (JBool false) s (parseNumber s))).

(** Recursive descent; [fuel] bounds the nesting, [parse_enough_fuel] shows which bound suffices. *)
Fixpoint parseValue (fuel : nat) (s : string) : option (Json * string) :=
  match fuel with
  | O => None
  | S fuel =>
      match next "{" s with
      | Some rest =>
          match next "}" rest with
          | Some after => Some (JObject [], after)
          | None => '(members, after) ← parseMembers fuel rest; Some (objectOf members, after)
          end
      | None =>
          match next "[" s with
          | Some rest =>
              match next "]" rest with
              | Some after => Some (JArray [], after)
              | None => '(items, after) ← parseElements fuel rest; Some (JArray items, after)
              end
          | None =>
              match next DOUBLE_QUOTE s with
              | Some rest => '(text, after) ← parseChars rest; Some (JString text, after)
              | None => parseLiteral (skipSpace s)
              end
          end
      end
  end
with parseElements (fuel : nat) (s : string) : option (list Json * string) :=
  match fuel with
  | O => None
  | S fuel =>
      '(item, after) ← parseValue fuel s;
      match next "]" after with
      | Some rest => Some ([item], rest)
      | None => rest ← next "," after; '(items, last) ← parseElements fuel rest; Some (item :: items, last)
      end
  end
with parseMembers (fuel : nat) (s : string) : option (list (string * Json) * string) :=
  match fuel with
  | O => None
  | S fuel =>
      afterQuote ← next DOUBLE_QUOTE s;
      '(key, afterKey) ← parseChars afterQuote;
      afterColon ← next ":" afterKey;
      '(value, after) ← parseValue fuel afterColon;
      match next "}" after with
      | Some rest => Some ([(key, value)], rest)
      | None => rest ← next "," after; '(members, last) ← parseMembers fuel rest; Some ((key, value) :: members, last)
      end
  end.

Definition parseFuel (text : string) : nat := S (S (2 * String.length text)).

(** [JSON.parse(text)] *)
Definition jsonParse (text : string) : Outcome Json :=
  match parseValue (parseFuel text) text with
  | Some (value, rest) => if bool_decide (skipSpace rest = "") then Returns value else Throws SyntaxError
  | None => Throws SyntaxError
  end.

(** ** The reviver *)

(** [reviver] applied to every value, the parts of a value before it. *)
Fixpoint revive (reviver : Json -> Outcome Json) (j : Json) : Outcome Json :=
  match j with
  | JArray items =>
      items' ← (fix go (l : list Json) : Outcome (list Json) :=
        match l with
        | [] => Returns []
        | item :: rest => item' ← revive reviver item; rest' ← go rest; Returns (item' :: rest')
        end) items;
      reviver (JArray items')
  | JObject fields =>
      fields' ← (fix go (l : list (string * Json)) : Outcome (list (string * Json)) :=
        match l with
        | [] => Returns []
        | (key, value) :: rest => value' ← revive reviver value; rest' ← go rest; Returns ((key, value') :: rest')
        end) fields;
      reviver (JObject fields')
  | _ => reviver j
  end.
End Parse.

(** [/^-?(?:0|[1-9][0-9]{0,n})$/], for [n + 1 = digits], and [BigInt] of the match. *)
Definition parseSigned (digits : Z) (s : string) : option Z :=
  let '(negative, magnitude) := parseSign s in
  n ← parseDecimal digits magnitude; Some (if negative then - n else n).

(** The reviver of the snapshot codec; the alert codec has no bound on the digits. *)
Definition bigintReviver (digits : string -> Z) (message : string) (value : Json) : Outcome Json :=
  match value with
  | JObject [("$bigint", JString encoded)] =>
      match parseSigned (digits encoded) encoded with
      | Some n => Returns (JBigint n)
      | None => Throws (TypeError message)
      end
  | _ => Returns value
  end.
