(* ===== verification/SdkTypes.v ===== *)
(** * The types of the client SDK: [packages/protocol-sdk/src/types.ts]

    Quotes, drafts and read models, with how each looks as the untyped value
    that crosses the boundary between caller, client and adapter.  A value read
    at its type keeps the fields the type names. *)
From S2P Require Import Prelude JsMap Types MoveDomains JsValue.

(** ** Read models *)

Module Portfolio.
Record PortfolioSnapshot := mk {
  account : Address;
  effectiveTrfl : Z;
  rawTrfl : Z;
  pendingReflections : Z;
  lifetimeClaimed : Z;
  eligibleSupply : Z;
  holderShares : Z;
  ledgerVersion : Z
}.
End Portfolio.

Module PoolView.
Record PoolSnapshot := mk {
  trflReserve : Z;
  tusdReserve : Z;
  lifecycle : option ProtocolLifecycle;
  swapsPaused : bool;
  maximumGrossSwap : Z;
  maximumReserveBps : Z;
  maximumRflContribution : Z;
  maximumTusdContribution : Z;
  maximumNonFinalWithdrawalShareBps : Z;
  ledgerVersion : Z
}.
End PoolView.

Module TerminalDust.
Record LpEpochTerminalDustSnapshot := mk {
  epoch : Z;
  terminalRoundingBaseUnits : Z;
  retiredResidueMagnified : Z;
  ledgerVersion : Z
}.
End TerminalDust.

Module Protocol.
Record ProtocolSnapshot := mk {
  lifecycle : option ProtocolLifecycle;
  reflectionFeeBps : option Z;
  automaticMaterialization : bool;
  eligibleHolders : Z;
  eligibleSupply : Z;
  rewardVaultBalance : Z;
  reflectionLiability : Z;
  lifetimeSwapFees : Z;
  lifetimeMaterialized : Z;
  currentIndex : Z;
  indexRemainder : Z;
  pool : PoolView.PoolSnapshot;
  claimsPaused : bool;
  faucetPaused : bool;
  packageVersion : string;
  ledgerVersion : Z
}.
End Protocol.

Module Faucet.
Record FaucetStatus := mk {
  asset : Asset;
  account : Address;
  grantAmount : Z;
  cooldownEndsAtUnixSeconds : Z;
  canClaim : bool
}.
End Faucet.

(** ** Quotes *)

Module SwapContext.
Record SwapQuoteContext := mk {
  chainId : Z;
  ledgerVersion : Z;
  deploymentId : string;
  packageVersion : string;
  inputReserve : Z;
  outputReserve : Z;
  reflectionFeeBps : Z;
  ammFeeBps : Z;
  maximumGrossSwap : Z;
  maximumReserveBps : Z
}.
End SwapContext.

Module Swap.
Record SwapQuote := mk {
  direction : SwapDirection;
  grossAmount : Z;
  slippageBps : Z;
  reflectionFee : Z;
  ammFee : Z;
  netReserveInput : Z;
  grossPoolOutput : Z;
  netUserReceipt : Z;
  minimumNetUserReceipt : Z;
  priceImpactBps : Z;
  deadlineUnixSeconds : Z;
  context : SwapContext.SwapQuoteContext
}.
End Swap.

(** What a caller declares when asking for a quote. *)
Module Request.
Record QuoteRequest := mk {
  direction : SwapDirection;
  grossAmount : Z;
  slippageBps : Z;
  deadlineUnixSeconds : Z
}.
End Request.

Definition directionName (d : SwapDirection) : string := match d with buy => "buy" | sell => "sell" end.

Definition contextValue (c : SwapContext.SwapQuoteContext) : JsValue := JsObject [
  ("chainId", JsNumber (Some c.(SwapContext.chainId)));
  ("ledgerVersion", JsBigint c.(SwapContext.ledgerVersion));
  ("deploymentId", JsString c.(SwapContext.deploymentId));
  ("packageVersion", JsString c.(SwapContext.packageVersion));
  ("inputReserve", JsBigint c.(SwapContext.inputReserve));
  ("outputReserve", JsBigint c.(SwapContext.outputReserve));
  ("reflectionFeeBps", JsBigint c.(SwapContext.reflectionFeeBps));
  ("ammFeeBps", JsBigint c.(SwapContext.ammFeeBps));
  ("maximumGrossSwap", JsBigint c.(SwapContext.maximumGrossSwap));
  ("maximumReserveBps", JsBigint c.(SwapContext.maximumReserveBps))].

Definition quoteValue (q : Swap.SwapQuote) : JsValue := JsObject [
  ("direction", JsString (directionName q.(Swap.direction)));
  ("grossAmount", JsBigint q.(Swap.grossAmount));
  ("slippageBps", JsBigint q.(Swap.slippageBps));
  ("reflectionFee", JsBigint q.(Swap.reflectionFee));
  ("ammFee", JsBigint q.(Swap.ammFee));
  ("netReserveInput", JsBigint q.(Swap.netReserveInput));
  ("grossPoolOutput", JsBigint q.(Swap.grossPoolOutput));
  ("netUserReceipt", JsBigint q.(Swap.netUserReceipt));
  ("minimumNetUserReceipt", JsBigint q.(Swap.minimumNetUserReceipt));
  ("priceImpactBps", JsBigint q.(Swap.priceImpactBps));
  ("deadlineUnixSeconds", JsBigint q.(Swap.deadlineUnixSeconds));
  ("context", contextValue q.(Swap.context))].

(** ** Drafts *)

Inductive DraftKind :=
| faucet_claim | swap | claim_rewards | add_liquidity | remove_liquidity
| transfer_lp_shares | claim_lp_rewards | checkpoint_lp_rewards.

#[export] Instance DraftKind_eq : EqDecision DraftKind.
Proof. solve_decision. Defined.

Definition kindName (k : DraftKind) : string :=
  match k with
  | faucet_claim => "faucet_claim"
  | swap => "swap"
  | claim_rewards => "claim_rewards"
  | add_liquidity => "add_liquidity"
  | remove_liquidity => "remove_liquidity"
  | transfer_lp_shares => "transfer_lp_shares"
  | claim_lp_rewards => "claim_lp_rewards"
  | checkpoint_lp_rewards => "checkpoint_lp_rewards"
  end.

Inductive EntryArgument :=
| ArgString (s : string)
| ArgBigint (n : Z)
| ArgBoolean (b : bool).

Module Draft.
Record TransactionDraft := mk {
  kind : DraftKind;
  functionId : string;
  arguments : list EntryArgument;
  secondarySignerAddresses : list Address;
  expirationUnixSeconds : Z;
  warning : string
}.
End Draft.

Definition argumentValue (a : EntryArgument) : JsValue :=
  match a with ArgString s => JsString s | ArgBigint n => JsBigint n | ArgBoolean b => JsBoolean b end.

Definition draftValue (d : Draft.TransactionDraft) : JsValue := JsObject [
  ("kind", JsString (kindName d.(Draft.kind)));
  ("functionId", JsString d.(Draft.functionId));
  ("arguments", JsArray (map argumentValue d.(Draft.arguments)));
  ("secondarySignerAddresses", JsArray (map JsString d.(Draft.secondarySignerAddresses)));
  ("expirationUnixSeconds", JsBigint d.(Draft.expirationUnixSeconds));
  ("warning", JsString d.(Draft.warning))].

(** [typeof value === "object" && value !== null], and one of its properties.
    An array has none of the names the code asks for. *)
Definition isObject (value : JsValue) : bool :=
  match value with JsObject _ | JsArray _ => true | _ => false end.

Definition member (value : JsValue) (key : string) : JsValue :=
  match value with JsObject fields => property fields key | _ => JsUndefined end.

(** [value.key], which throws on [undefined] and [null]. *)
Definition readMember (value : JsValue) (key : string) : Outcome JsValue :=
  match value with
  | JsUndefined => Throws (TypeError ("Cannot read properties of undefined (reading '" ⧺ key ⧺ "')"))
  | JsNull => Throws (TypeError ("Cannot read properties of null (reading '" ⧺ key ⧺ "')"))
  | _ => Returns (member value key)
  end.

(** ** Text formats *)

(** [0|[1-9][0-9]*] *)
Definition isNumeral (s : string) : bool :=
  match s with
  | EmptyString => false
  | String "0" rest => bool_decide (rest = "")
  | _ => allChars (fun c => bool_decide (is_Some (digitValue c))) s
  end.

(** [String.prototype.split] by a dot. *)
Fixpoint splitDot (s : string) : list string :=
  match s with
  | EmptyString => [EmptyString]
  | String c rest =>
      if bool_decide (c = "."%char) then EmptyString :: splitDot rest
      else match splitDot rest with
           | part :: parts => String c part :: parts
           | [] => [String c EmptyString]
           end
  end.

(** [testnet-v], and three numerals with dots between them. *)
Definition isPackageVersion (s : string) : bool :=
  match splitDot <$> stripPrefix "testnet-v" s with
  | Some [major; minor; patch] => isNumeral major && isNumeral minor && isNumeral patch
  | _ => false
  end.

(** [/^0x[0-9a-fA-F]{1,64}$/] *)
Definition isHexAddress (s : string) : bool :=
  match stripPrefix "0x" s with
  | Some digits => bool_decide (1 <= jsLength digits) && bool_decide (jsLength digits <= 64) && allChars isHexDigit digits
  | None => false
  end.
