(* ===== verification/Domains.v ===== *)
(** * The state a Move module could hold

    The declarative form of [assertProjectionMoveDomains]: every numeric field
    within the width of the Move struct it mirrors, every recorded cursor
    canonical.  The executable check accepts exactly these projections. *)
From S2P Require Import Prelude JsMap Types MoveDomains JsValue Numerals.

(** A field that is [null], or satisfies [P]. *)
Definition nullable {A} (P : A -> Prop) (o : option A) : Prop :=
  match o with None => True | Some a => P a end.

(** The text of a cursor: ledger version and index in decimal. *)
Definition SeenCursor (cursor : string) : Prop :=
  exists ledgerVersion eventIndex,
    cursor = show ledgerVersion ⧺ ":" ⧺ show eventIndex
    /\ fitsUnsigned U64 ledgerVersion /\ 0 <= eventIndex <= MAX_SAFE_INTEGER.

Definition WalletDomains (w : Wallet.IndexedPosition) : Prop :=
  fitsUnsigned U64 w.(Wallet.rawTrfl) /\ fitsUnsigned U64 w.(Wallet.rawTusd)
  /\ fitsSignedU256 w.(Wallet.correction) /\ fitsUnsigned U256 w.(Wallet.claimed)
  /\ fitsUnsigned U256 w.(Wallet.lifetimeClaimed) /\ fitsUnsigned U256 w.(Wallet.lifetimeMaterialized).

Definition LpPositionDomains (p : LpPos.IndexedLpPosition) : Prop :=
  fitsUnsigned U128 p.(LpPos.shares) /\ fitsSignedU256 p.(LpPos.correction) /\ fitsUnsigned U256 p.(LpPos.claimed).

Definition LpEpochDomains (e : LpEpoch.IndexedLpEpoch) : Prop :=
  fitsUnsigned U64 e.(LpEpoch.epoch) /\ fitsUnsigned U256 e.(LpEpoch.index)
  /\ fitsUnsigned U256 e.(LpEpoch.indexRemainder) /\ fitsUnsigned U128 e.(LpEpoch.totalShares)
  /\ fitsSignedU256 e.(LpEpoch.aggregateCorrection) /\ fitsUnsigned U128 e.(LpEpoch.unallocatedRewards)
  /\ fitsUnsigned U128 e.(LpEpoch.roundingReserve) /\ fitsUnsigned U256 e.(LpEpoch.retiredResidueMagnified)
  /\ nullable (fitsUnsigned U128) e.(LpEpoch.terminalRoundingBaseUnits)
  /\ fitsUnsigned U256 e.(LpEpoch.lifetimeReceived) /\ fitsUnsigned U256 e.(LpEpoch.lifetimeClaimed)
  /\ Forall (fun entry => LpPositionDomains entry.2) e.(LpEpoch.positions).

Definition ProjectionDomains (p : Proj.ProtocolProjection) : Prop :=
  fitsUnsigned U64 p.(Proj.protocolExclusionSlots)
  /\ fitsUnsigned U64 p.(Proj.protocolExclusionsRemaining)
  /\ fitsUnsigned U64 p.(Proj.registeredWalletCount)
  /\ fitsUnsigned U64 p.(Proj.feeBps)
  /\ fitsUnsigned U256 p.(Proj.currentIndex)
  /\ fitsUnsigned U256 p.(Proj.indexRemainder)
  /\ fitsUnsigned U128 p.(Proj.eligibleSupply)
  /\ fitsSignedU256 p.(Proj.aggregateCorrection)
  /\ fitsUnsigned U128 p.(Proj.unallocatedFees)
  /\ fitsUnsigned U128 p.(Proj.roundingReserve)
  /\ fitsUnsigned U256 p.(Proj.rewardVaultCredits)
  /\ fitsUnsigned U256 p.(Proj.rewardVaultPayouts)
  /\ fitsUnsigned U256 p.(Proj.lifetimeSwapFees)
  /\ fitsUnsigned U256 p.(Proj.lifetimeMaterialized)
  /\ fitsUnsigned U256 p.(Proj.lifetimeCustodyRouted)
  /\ fitsUnsigned U64 p.(Proj.faucetTrflGrant)
  /\ fitsUnsigned U64 p.(Proj.faucetTusdGrant)
  /\ fitsUnsigned U64 p.(Proj.faucetCooldownSeconds)
  /\ fitsUnsigned U64 p.(Proj.pool).(Pool.trflReserve)
  /\ fitsUnsigned U64 p.(Proj.pool).(Pool.tusdReserve)
  /\ fitsUnsigned U64 p.(Proj.pool).(Pool.ammFeeBps)
  /\ fitsUnsigned U64 p.(Proj.pool).(Pool.maximumGrossSwap)
  /\ fitsUnsigned U64 p.(Proj.pool).(Pool.maximumReserveBps)
  /\ fitsUnsigned U64 p.(Proj.pool).(Pool.maximumRflContribution)
  /\ fitsUnsigned U64 p.(Proj.pool).(Pool.maximumTusdContribution)
  /\ fitsUnsigned U64 p.(Proj.pool).(Pool.maximumNonFinalWithdrawalShareBps)
  /\ nullable (fitsUnsigned U64) p.(Proj.custody).(Custody.adapterId)
  /\ nullable (fitsUnsigned U64) p.(Proj.custody).(Custody.activeRouteEpoch)
  /\ fitsUnsigned U128 p.(Proj.custody).(Custody.shares)
  /\ fitsSignedU256 p.(Proj.custody).(Custody.correction)
  /\ fitsUnsigned U256 p.(Proj.custody).(Custody.claimed)
  /\ fitsUnsigned U256 p.(Proj.custody).(Custody.lifetimeRouted)
  /\ nullable (fitsUnsigned U64) p.(Proj.activeLpEpoch)
  /\ Forall (fun entry => WalletDomains entry.2) p.(Proj.positions)
  /\ Forall (fun entry => fitsUnsigned U64 entry.1 /\ LpEpochDomains entry.2) p.(Proj.lpEpochs)
  /\ Forall (fitsUnsigned U64) (jsValues p.(Proj.rewardVaultToEpoch))
  /\ Forall (fitsUnsigned U64) (jsValues p.(Proj.stateIdToEpoch))
  /\ Forall SeenCursor (jsValues p.(Proj.seenEventIds)).

(** ** Cursors *)

Lemma parseOrdinal_show n :
  0 <= n < 10 ^ 20 -> parseOrdinal (show n) = Some n /\ allChars isDigit (show n) = true.
Proof. intros Hn. apply (parseDecimal_show 20); [lia|exact Hn]. Qed.

Lemma splitColon_digit c rest :
  isDigit c = true ->
  splitColon (String c rest) =
    match splitColon rest with Some (before, after) => Some (String c before, after) | None => None end.
Proof. destruct c as [[] [] [] [] [] [] [] []]; done. Qed.

Lemma splitColon_digits a b :
  allChars isDigit a = true -> splitColon (a ⧺ ":" ⧺ b) = Some (a, b).
Proof.
  induction a as [|c a IH]; [done|]. intros Ha.
  change (isDigit c && allChars isDigit a = true) in Ha. apply andb_prop in Ha as [Hc Ha].
  change (String c a ⧺ ":" ⧺ b) with (String c (a ⧺ ":" ⧺ b)).
  by rewrite (splitColon_digit _ _ Hc), (IH Ha).
Qed.

(** Print, then parse: the ordinals come back. *)
Lemma parseSeenCursor_show ledgerVersion eventIndex :
  0 <= ledgerVersion < 10 ^ 20 -> 0 <= eventIndex < 10 ^ 20 ->
  parseSeenCursor (show ledgerVersion ⧺ ":" ⧺ show eventIndex) = Some (ledgerVersion, eventIndex).
Proof.
  intros Hl He. destruct (parseOrdinal_show _ Hl) as [El Hd]. destruct (parseOrdinal_show _ He) as [Ee _].
  unfold parseSeenCursor. by rewrite (splitColon_digits _ _ Hd), El, Ee.
Qed.

Lemma splitColon_inv s before after : splitColon s = Some (before, after) -> s = before ⧺ ":" ⧺ after.
Proof.
  revert before. induction s as [|c s IH]; intros before; [done|]. destruct (decide (c = ":"%char)) as [->|Hc].
  { by intros [= <- <-]. }
  intros E. assert (Es : splitColon (String c s) = match splitColon s with Some (b, a) => Some (String c b, a) | None => None end).
  { destruct c as [[] [] [] [] [] [] [] []]; done. }
  rewrite Es in E. destruct (splitColon s) as [[b a]|]; [|done]. injection E as <- <-. by rewrite (IH b eq_refl).
Qed.

Lemma assertSeenCursor_iff cursor : assertSeenCursor cursor = Returns tt <-> SeenCursor cursor.
Proof.
  unfold assertSeenCursor. split.
  - destruct (parseSeenCursor cursor) as [[v i]|] eqn:E; [|done]. autorewrite with domains. intros (Hv & [Hi _] & H).
    case_bool_decide; [done|]. exists v, i. split; [|split; [done|lia]].
    unfold parseSeenCursor, parseOrdinal in E. destruct (splitColon cursor) as [[before after]|] eqn:Es; [|done]. apply splitColon_inv in Es as ->.
    destruct (parseDecimal 20 before) eqn:Eb; [|done]. destruct (parseDecimal 20 after) eqn:Ea; [|done]. injection E as -> ->.
    apply parseDecimal_decimal, decimal_iff in Eb as [_ ->]. apply parseDecimal_decimal, decimal_iff in Ea as [_ ->]. done.
  - intros (v & i & -> & Hv & Hi). unfold fitsUnsigned, MAX_SAFE_INTEGER in *. cbn [widthBits] in Hv.
    rewrite parseSeenCursor_show by lia. autorewrite with domains. unfold fitsUnsigned. cbn [widthBits].
    split; [done|]. split; [lia|]. by rewrite bool_decide_false by lia.
Qed.

(** ** The check is the predicate *)

Lemma peel {P Q : Prop} (o k : Outcome unit) :
  (o = Returns tt <-> P) -> (k = Returns tt <-> Q) -> (o ≫= fun _ => k) = Returns tt <-> P /\ Q.
Proof. intros <- <-. apply outcome_bind_unit. Qed.

Lemma assertNullable_iff value bits label :
  assertNullable value bits label = Returns tt <-> nullable (fitsUnsigned bits) value.
Proof. destruct value; cbn; [apply assertMoveUnsigned_iff|done]. Qed.

Lemma outcome_forEach_iff {A} (f : A -> Outcome unit) (P : A -> Prop) xs :
  (forall x, f x = Returns tt <-> P x) -> outcome_forEach f xs = Returns tt <-> Forall P xs.
Proof. intros H. rewrite outcome_forEach_returns. by apply Forall_proper. Qed.

Create HintDb peel.
#[export] Hint Resolve assertMoveUnsigned_iff assertMoveSignedU256_iff assertNullable_iff assertSeenCursor_iff : peel.

(** Turns a chain of assertions into the conjunction of what they assert. *)
Ltac peel := repeat first [apply peel | by auto with peel].

Lemma assertWalletDomains_iff entry : assertWalletDomains entry = Returns tt <-> WalletDomains entry.2.
Proof. destruct entry as [a w]. unfold assertWalletDomains, WalletDomains. peel. Qed.

Lemma assertLpPositionDomains_iff entry :
  assertLpPositionDomains entry = Returns tt <-> LpPositionDomains entry.2.
Proof. destruct entry as [a w]. unfold assertLpPositionDomains, LpPositionDomains. peel. Qed.

Lemma assertLpEpochDomains_iff entry :
  assertLpEpochDomains entry = Returns tt <-> fitsUnsigned U64 entry.1 /\ LpEpochDomains entry.2.
Proof.
  destruct entry as [a w]. unfold assertLpEpochDomains, LpEpochDomains. peel.
  apply outcome_forEach_iff, assertLpPositionDomains_iff.
Qed.

Lemma assertProjectionMoveDomains_domains p :
  assertProjectionMoveDomains p = Returns tt <-> ProjectionDomains p.
Proof.
  unfold assertProjectionMoveDomains, ProjectionDomains. peel.
  - apply outcome_forEach_iff, assertWalletDomains_iff.
  - apply outcome_forEach_iff, assertLpEpochDomains_iff.
  - apply outcome_forEach_iff. auto with peel.
  - apply outcome_forEach_iff. auto with peel.
  - apply outcome_forEach_iff. auto with peel.
Qed.

(** The widths the later arithmetic relies on. *)
Lemma domains_pool p :
  ProjectionDomains p ->
  fitsUnsigned U64 p.(Proj.pool).(Pool.trflReserve) /\ fitsUnsigned U64 p.(Proj.pool).(Pool.tusdReserve)
  /\ fitsUnsigned U64 p.(Proj.pool).(Pool.maximumNonFinalWithdrawalShareBps).
Proof. unfold ProjectionDomains. intros H. decompose [and] H. done. Qed.

Lemma domains_epoch p i e :
  ProjectionDomains p -> jsGet i p.(Proj.lpEpochs) = Some e -> LpEpochDomains e.
Proof.
  unfold ProjectionDomains. intros H Hg. decompose [and] H. clear H.
  match goal with H : Forall (fun entry => _ /\ LpEpochDomains _) _ |- _ => rename H into He end.
  apply jsGet_elem, list_elem_of_In in Hg. rewrite List.Forall_forall in He. by apply (He _ Hg).
Qed.

Lemma domains_seen p seen :
  ProjectionDomains p ->
  Forall SeenCursor (jsValues seen) ->
  ProjectionDomains (p <| Proj.seenEventIds := seen |>).
Proof.
  unfold ProjectionDomains. intros H Hs. repeat (destruct H as [? H]; split; [assumption|]). exact Hs.
Qed.
