(* ===== verification/Accounting.v ===== *)
(** * Reward accounting: [packages/indexer/src/accounting.ts]

    The entitlement formula [floor((shares * index + correction) / M)], the
    pending amounts and liabilities derived from it, and the algebra of that
    formula: a weight change at the current index moves no pending reward, a
    materialization converts pending reward into raw balance one for one, and
    the entitlements of the parts never exceed the entitlement of the whole. *)
From S2P Require Import Prelude JsMap Types MoveDomains.

Definition REFLECTION_MAGNITUDE : Z := 1000000000000000000000000.

Definition requireNonNegative (value : Z) (label : string) : Outcome Z :=
  if bool_decide (value < 0) then Throws (RangeError (label ⧺ " cannot be negative"))
  else Returns value.

Definition magnifiedEntitlement (shares index signedCorrection : Z) : Outcome Z :=
  requireNonNegative shares "shares" ;;
  requireNonNegative index "index" ;;
  base ← checkedMoveU256Multiply shares index "magnified entitlement base";
  magnified ← applyMoveSignedU256 base signedCorrection "corrected magnified entitlement";
  Returns (Z.quot magnified REFLECTION_MAGNITUDE).

Definition walletPending (position : Wallet.IndexedPosition) (index : Z) : Outcome Z :=
  gross ← magnifiedEntitlement position.(Wallet.rawTrfl) index position.(Wallet.correction);
  checkedMoveU256Subtract gross position.(Wallet.claimed) "wallet pending reward".

Definition custodyPending (projection : Proj.ProtocolProjection) : Outcome Z :=
  gross ← magnifiedEntitlement projection.(Proj.custody).(Custody.shares)
            projection.(Proj.currentIndex) projection.(Proj.custody).(Custody.correction);
  checkedMoveU256Subtract gross projection.(Proj.custody).(Custody.claimed) "custody pending reward".

Definition coreIndexedLiability (projection : Proj.ProtocolProjection) : Outcome Z :=
  gross ← magnifiedEntitlement projection.(Proj.eligibleSupply)
            projection.(Proj.currentIndex) projection.(Proj.aggregateCorrection);
  afterMaterialized ← checkedMoveU256Subtract gross projection.(Proj.lifetimeMaterialized)
            "core indexed liability materialized settlement";
  checkedMoveU256Subtract afterMaterialized projection.(Proj.lifetimeCustodyRouted)
            "core indexed liability custody settlement".

Definition expectedCoreVaultBalance (projection : Proj.ProtocolProjection) : Outcome Z :=
  afterMaterialized ← checkedMoveU256Subtract projection.(Proj.lifetimeSwapFees)
            projection.(Proj.lifetimeMaterialized) "expected core vault materialized settlement";
  checkedMoveU256Subtract afterMaterialized projection.(Proj.lifetimeCustodyRouted)
            "expected core vault custody settlement".

Definition lpPositionPending (position : LpPos.IndexedLpPosition)
    (epoch : LpEpoch.IndexedLpEpoch) : Outcome Z :=
  gross ← magnifiedEntitlement position.(LpPos.shares) epoch.(LpEpoch.index) position.(LpPos.correction);
  checkedMoveU256Subtract gross position.(LpPos.claimed) "LP position pending reward".

Definition lpIndexedLiability (epoch : LpEpoch.IndexedLpEpoch) : Outcome Z :=
  gross ← magnifiedEntitlement epoch.(LpEpoch.totalShares) epoch.(LpEpoch.index)
            epoch.(LpEpoch.aggregateCorrection);
  checkedMoveU256Subtract gross epoch.(LpEpoch.lifetimeClaimed) "LP indexed liability".

Definition expectedLpVaultBalance (epoch : LpEpoch.IndexedLpEpoch) : Outcome Z :=
  checkedMoveU256Subtract epoch.(LpEpoch.lifetimeReceived) epoch.(LpEpoch.lifetimeClaimed)
    ("expected LP vault balance for epoch " ⧺ show epoch.(LpEpoch.epoch)).

Definition sumWalletShares (positions : JsMap Address Wallet.IndexedPosition) : Z :=
  foldl (fun total position => total + position.(Wallet.rawTrfl)) 0 (jsValues positions).

Definition sumLpShares (positions : JsMap Address LpPos.IndexedLpPosition) : Z :=
  foldl (fun total position => total + position.(LpPos.shares)) 0 (jsValues positions).

(** ** The entitlement formula without the width checks *)

Definition accrued (shares index correction : Z) : Z :=
  (shares * index + correction) / REFLECTION_MAGNITUDE.

(** The operands for which [magnifiedEntitlement] does not throw. *)
Definition entitlementDomain (shares index correction : Z) : Prop :=
  fitsUnsigned U256 shares /\ fitsUnsigned U256 index /\ fitsUnsigned U256 (shares * index)
  /\ fitsSignedU256 correction /\ fitsUnsigned U256 (shares * index + correction).

Definition walletAccrued (index : Z) (p : Wallet.IndexedPosition) : Z :=
  accrued p.(Wallet.rawTrfl) index p.(Wallet.correction).
Definition lpAccrued (index : Z) (p : LpPos.IndexedLpPosition) : Z :=
  accrued p.(LpPos.shares) index p.(LpPos.correction).

Lemma REFLECTION_MAGNITUDE_pos : 0 < REFLECTION_MAGNITUDE.
Proof. done. Qed.

Lemma requireNonNegative_iff value label x :
  requireNonNegative value label = Returns x <-> 0 <= value /\ x = value.
Proof.
  unfold requireNonNegative. case_bool_decide; [split; [done|lia]|].
  rewrite returns_eq. intuition lia.
Qed.

Lemma magnifiedEntitlement_iff shares index correction g :
  magnifiedEntitlement shares index correction = Returns g
  <-> entitlementDomain shares index correction /\ g = accrued shares index correction.
Proof.
  unfold magnifiedEntitlement, entitlementDomain, accrued. split.
  - intros H. outcome_inv. checked_inv.
    rewrite Z.quot_div_nonneg; [tauto| |done].
    match goal with H : fitsUnsigned _ (_ + _) |- _ => apply H end.
  - intros [(Hs & Hi & Hsi & Hc & Hsc) ->].
    rewrite (proj2 (requireNonNegative_iff shares "shares" shares)); [cbn|split; [apply Hs|done]].
    rewrite (proj2 (requireNonNegative_iff index "index" index)); [cbn|split; [apply Hi|done]].
    rewrite (proj2 (checkedMoveU256Multiply_iff shares index _ (shares * index))) by done. cbn.
    rewrite (proj2 (applyMoveSignedU256_iff (shares * index) correction _ _)) by eauto. cbn.
    rewrite Z.quot_div_nonneg; [done| |done]. apply Hsc.
Qed.

(** Adding [amount] units at [index] with the correction the code applies
    leaves the magnified entitlement, hence the accrued reward, unchanged. *)
Lemma accrued_weight_change shares index correction amount :
  accrued (shares + amount) index (correction - amount * index) = accrued shares index correction.
Proof. unfold accrued. f_equal. ring. Qed.

(** Entitlements of the parts sum to at most the entitlement of the whole. *)
Lemma accrued_superadditive s1 s2 index c1 c2 :
  accrued s1 index c1 + accrued s2 index c2 <= accrued (s1 + s2) index (c1 + c2).
Proof.
  unfold accrued.
  replace ((s1 + s2) * index + (c1 + c2)) with ((s1 * index + c1) + (s2 * index + c2)) by ring.
  set (a := s1 * index + c1). set (b := s2 * index + c2).
  pose proof REFLECTION_MAGNITUDE_pos.
  pose proof (Z.mul_div_le a REFLECTION_MAGNITUDE). pose proof (Z.mul_div_le b REFLECTION_MAGNITUDE).
  apply Z.div_le_lower_bound; lia.
Qed.

Lemma accrued_sum_le {A} (shares correction : A -> Z) index (l : list A) :
  sumZ (map (fun p => accrued (shares p) index (correction p)) l)
  <= accrued (sumZ (map shares l)) index (sumZ (map correction l)).
Proof.
  induction l as [|p l IH]; cbn.
  - unfold accrued. cbn. done.
  - etrans; [|apply accrued_superadditive]. lia.
Qed.

(** A larger index never lowers an entitlement. *)
Lemma accrued_index_mono shares index index' correction :
  0 <= shares -> index <= index' -> accrued shares index correction <= accrued shares index' correction.
Proof. intros. unfold accrued. apply Z.div_le_mono; [done|nia]. Qed.

Lemma sumWalletShares_sum positions :
  sumWalletShares positions = sumZ (map Wallet.rawTrfl (jsValues positions)).
Proof. unfold sumWalletShares. by rewrite foldl_add_sumZ. Qed.

Lemma sumLpShares_sum positions :
  sumLpShares positions = sumZ (map LpPos.shares (jsValues positions)).
Proof. unfold sumLpShares. by rewrite foldl_add_sumZ. Qed.

Lemma walletPending_iff p index x :
  walletPending p index = Returns x
  <-> entitlementDomain p.(Wallet.rawTrfl) index p.(Wallet.correction)
      /\ fitsUnsigned U256 (walletAccrued index p) /\ fitsUnsigned U256 p.(Wallet.claimed)
      /\ fitsUnsigned U256 x /\ x = walletAccrued index p - p.(Wallet.claimed).
Proof.
  unfold walletPending, walletAccrued. split.
  - intros H. outcome_inv. apply magnifiedEntitlement_iff in E as [? ->]. by checked_inv.
  - intros (Hd & Hg & Hc & Hx & ->).
    rewrite (proj2 (magnifiedEntitlement_iff _ _ _ _) (conj Hd eq_refl)). cbn.
    by apply checkedMoveU256Subtract_iff.
Qed.

Lemma lpPositionPending_iff p epoch x :
  lpPositionPending p epoch = Returns x
  <-> entitlementDomain p.(LpPos.shares) epoch.(LpEpoch.index) p.(LpPos.correction)
      /\ fitsUnsigned U256 (lpAccrued epoch.(LpEpoch.index) p) /\ fitsUnsigned U256 p.(LpPos.claimed)
      /\ fitsUnsigned U256 x /\ x = lpAccrued epoch.(LpEpoch.index) p - p.(LpPos.claimed).
Proof.
  unfold lpPositionPending, lpAccrued. split.
  - intros H. outcome_inv. apply magnifiedEntitlement_iff in E as [? ->]. by checked_inv.
  - intros (Hd & Hg & Hc & Hx & ->).
    rewrite (proj2 (magnifiedEntitlement_iff _ _ _ _) (conj Hd eq_refl)). cbn.
    by apply checkedMoveU256Subtract_iff.
Qed.

(** The values of the aggregate formulas, when they do not throw. *)
Lemma coreIndexedLiability_inv p x :
  coreIndexedLiability p = Returns x ->
  x = accrued p.(Proj.eligibleSupply) p.(Proj.currentIndex) p.(Proj.aggregateCorrection)
      - p.(Proj.lifetimeMaterialized) - p.(Proj.lifetimeCustodyRouted) /\ 0 <= x.
Proof.
  unfold coreIndexedLiability. intros H. outcome_inv.
  apply magnifiedEntitlement_iff in E as [_ ->]. checked_inv. unfold fitsUnsigned in *. lia.
Qed.

Lemma expectedCoreVaultBalance_inv p x :
  expectedCoreVaultBalance p = Returns x ->
  x = p.(Proj.lifetimeSwapFees) - p.(Proj.lifetimeMaterialized) - p.(Proj.lifetimeCustodyRouted).
Proof. unfold expectedCoreVaultBalance. intros H. outcome_inv. checked_inv. lia. Qed.

Lemma lpIndexedLiability_inv e x :
  lpIndexedLiability e = Returns x ->
  x = accrued e.(LpEpoch.totalShares) e.(LpEpoch.index) e.(LpEpoch.aggregateCorrection)
      - e.(LpEpoch.lifetimeClaimed) /\ 0 <= x.
Proof.
  unfold lpIndexedLiability. intros H. outcome_inv.
  apply magnifiedEntitlement_iff in E as [_ ->]. checked_inv. unfold fitsUnsigned in *. lia.
Qed.

Lemma expectedLpVaultBalance_inv e x :
  expectedLpVaultBalance e = Returns x ->
  x = e.(LpEpoch.lifetimeReceived) - e.(LpEpoch.lifetimeClaimed).
Proof. unfold expectedLpVaultBalance. intros H. by checked_inv. Qed.
