(* ===== verification/RewardBook.v ===== *)
(** * Reward books: the specification both reward ledgers implement

    The core ledger (wallets and custody) and every LP epoch keep the same kind
    of book: holders with a weight, a signed correction and a claimed total,
    against an index, with running totals beside them.  [RewardBook] is the
    abstract book; the class states when a concrete state is one, and the
    projections of [types.ts] are its instances.  Solvency is proved once, for
    the abstract book. *)
From S2P Require Import Prelude JsMap Types MoveDomains Accounting.

Module Holder.
Record RewardHolder := mk {
  shares : Z;
  correction : Z;
  claimed : Z
}.
End Holder.

Module Book.
Record RewardBook := mk {
  holders : list Holder.RewardHolder;
  index : Z;
  totalShares : Z;
  totalCorrection : Z;
  totalClaimed : Z
}.
End Book.

(** A concrete state read as a book. *)
Class HasBook (S : Type) := bookOf : S -> Book.RewardBook.

Definition totalOf (f : Holder.RewardHolder -> Z) (b : Book.RewardBook) : Z :=
  sumZ (map f b.(Book.holders)).

(** Double entry: the running totals are the sums over the holders. *)
Definition Balanced {S} `{HasBook S} (s : S) : Prop :=
  let b := bookOf s in
  b.(Book.totalShares) = totalOf Holder.shares b
  /\ b.(Book.totalCorrection) = totalOf Holder.correction b
  /\ b.(Book.totalClaimed) = totalOf Holder.claimed b.

(** What a holder may still claim, and what the book as a whole owes. *)
Definition holderPending (index : Z) (h : Holder.RewardHolder) : Z :=
  accrued h.(Holder.shares) index h.(Holder.correction) - h.(Holder.claimed).
Definition bookPending {S} `{HasBook S} (s : S) : Z :=
  totalOf (holderPending (bookOf s).(Book.index)) (bookOf s).
Definition bookLiability {S} `{HasBook S} (s : S) : Z :=
  let b := bookOf s in
  accrued b.(Book.totalShares) b.(Book.index) b.(Book.totalCorrection) - b.(Book.totalClaimed).

(** ** The instances *)

Definition walletHolder (p : Wallet.IndexedPosition) : Holder.RewardHolder :=
  Holder.mk p.(Wallet.rawTrfl) p.(Wallet.correction) p.(Wallet.claimed).
Definition custodyHolder (c : Custody.IndexedCustodyPosition) : Holder.RewardHolder :=
  Holder.mk c.(Custody.shares) c.(Custody.correction) c.(Custody.claimed).
Definition lpHolder (p : LpPos.IndexedLpPosition) : Holder.RewardHolder :=
  Holder.mk p.(LpPos.shares) p.(LpPos.correction) p.(LpPos.claimed).

(** The core book: every wallet, then custody. *)
#[export] Instance coreBook : HasBook Proj.ProtocolProjection :=
  fun p => Book.mk
    (custodyHolder p.(Proj.custody) :: map walletHolder (jsValues p.(Proj.positions)))
    p.(Proj.currentIndex) p.(Proj.eligibleSupply) p.(Proj.aggregateCorrection)
    (p.(Proj.lifetimeMaterialized) + p.(Proj.lifetimeCustodyRouted)).

#[export] Instance epochBook : HasBook LpEpoch.IndexedLpEpoch :=
  fun e => Book.mk (map lpHolder (jsValues e.(LpEpoch.positions)))
    e.(LpEpoch.index) e.(LpEpoch.totalShares) e.(LpEpoch.aggregateCorrection)
    e.(LpEpoch.lifetimeClaimed).

(** ** Laws of every book *)

Section BookLaws.
Context {S : Type} `{HasBook S}.
Implicit Types s : S.

(** Holders can never claim, together, more than the book owes. *)
Lemma balanced_solvent s : Balanced s -> bookPending s <= bookLiability s.
Proof.
  intros (Hs & Hc & Hp). unfold bookPending, bookLiability, totalOf in *. cbv zeta in *.
  rewrite Hs, Hc, Hp. unfold holderPending. rewrite sumZ_map_sub.
  pose proof (accrued_sum_le Holder.shares Holder.correction
    (bookOf s).(Book.index) (bookOf s).(Book.holders)). lia.
Qed.

(** A holder with nothing negative pending is owed at most the liability. *)
Lemma balanced_pending_le s h :
  Balanced s -> h ∈ (bookOf s).(Book.holders) ->
  Forall (fun h' => 0 <= holderPending (bookOf s).(Book.index) h') (bookOf s).(Book.holders) ->
  holderPending (bookOf s).(Book.index) h <= bookLiability s.
Proof.
  intros Hb Hin Hall. pose proof (balanced_solvent s Hb). etrans; [|done].
  unfold bookPending, totalOf. clear -Hin Hall.
  induction Hin as [h l|h x l Hin IH]; inversion Hall as [|?? Hx Hl]; subst; cbn.
  - enough (0 <= sumZ (map (holderPending (bookOf s).(Book.index)) l)) by lia.
    apply sumZ_nonneg. by apply Forall_map.
  - specialize (IH Hl). lia.
Qed.
End BookLaws.

(** The concrete liabilities are the liabilities of the books. *)
Lemma coreIndexedLiability_book p x : coreIndexedLiability p = Returns x -> x = bookLiability p.
Proof.
  intros [-> _]%coreIndexedLiability_inv. unfold bookLiability, bookOf, coreBook. cbn. lia.
Qed.

Lemma lpIndexedLiability_book e x : lpIndexedLiability e = Returns x -> x = bookLiability e.
Proof. intros [-> _]%lpIndexedLiability_inv. done. Qed.

Lemma balanced_core p :
  Balanced p <->
  p.(Proj.eligibleSupply)
    = sumZ (map Wallet.rawTrfl (jsValues p.(Proj.positions))) + p.(Proj.custody).(Custody.shares)
  /\ p.(Proj.aggregateCorrection)
    = sumZ (map Wallet.correction (jsValues p.(Proj.positions))) + p.(Proj.custody).(Custody.correction)
  /\ p.(Proj.lifetimeMaterialized) + p.(Proj.lifetimeCustodyRouted)
    = sumZ (map Wallet.claimed (jsValues p.(Proj.positions))) + p.(Proj.custody).(Custody.claimed).
Proof.
  unfold Balanced, totalOf, bookOf, coreBook. cbn. rewrite !map_map.
  change (fun x => Holder.shares (walletHolder x)) with Wallet.rawTrfl.
  change (fun x => Holder.correction (walletHolder x)) with Wallet.correction.
  change (fun x => Holder.claimed (walletHolder x)) with Wallet.claimed. lia.
Qed.

Lemma balanced_epoch e :
  Balanced e <->
  e.(LpEpoch.totalShares) = sumZ (map LpPos.shares (jsValues e.(LpEpoch.positions)))
  /\ e.(LpEpoch.aggregateCorrection) = sumZ (map LpPos.correction (jsValues e.(LpEpoch.positions)))
  /\ e.(LpEpoch.lifetimeClaimed) = sumZ (map LpPos.claimed (jsValues e.(LpEpoch.positions))).
Proof. unfold Balanced, totalOf, bookOf, epochBook. cbn. rewrite !map_map. cbn. done. Qed.
