(* ===== verification/Replay.v ===== *)
(** * The replay context and its effects: [packages/indexer/src/reducer.ts]

    Handlers of the reducer read and replace [context.next], push onto
    [context.alerts] and throw.  [Replay A] threads that state explicitly;
    alerts pushed before a throw survive it, as in the source, where the catch
    block keeps [context.alerts].  The context also carries the three locals of
    [reduceEventGroup] that its event loop mutates. *)
From S2P Require Import Prelude JsMap Types.

Record PendingCoreFee := mkPendingCoreFee {
  pcf_base : Base.EventBase;
  pcf_event : ReflectionFeeCollected.ReflectionFeeCollectedEvent;
  sharesAtCollection : Z
}.

Module Ctx.
Record MutableContext := mk {
  next : Proj.ProtocolProjection;
  alerts : list Alert.CriticalAlert;
  first : ProtocolEvent;
  pendingCoreFees : list PendingCoreFee;
  consumedRoutes : list EventId;
  sellWalletDebited : bool
}.
End Ctx.

#[export] Instance eta_MutableContext : Eta Ctx.MutableContext :=
  fun r => Ctx.mk r.(Ctx.next) r.(Ctx.alerts) r.(Ctx.first) r.(Ctx.pendingCoreFees)
             r.(Ctx.consumedRoutes) r.(Ctx.sellWalletDebited).

Definition Replay (A : Type) : Type := Ctx.MutableContext -> Outcome A * Ctx.MutableContext.

#[export] Instance replay_ret : MRet Replay := fun A a c => (Returns a, c).
#[export] Instance replay_bind : MBind Replay :=
  fun A B k m c =>
    match m c with
    | (Returns a, c') => k a c'
    | (Throws e, c') => (Throws e, c')
    end.

(** [problem]: the critical alert an event gives rise to. *)
Definition problem (event : Base.EventBase) (code : AlertCode) (message : string)
    (expected observed : option string) : Alert.CriticalAlert :=
  {| Alert.id := "event:" ⧺ event.(Base.id) ⧺ ":" ⧺ codeName code;
     Alert.severity := critical;
     Alert.code := code;
     Alert.message := message;
     Alert.detectedAtUnixMilliseconds := event.(Base.timestampUnixMilliseconds);
     Alert.cursor := Some (Cursor.mk event.(Base.ledgerVersion) event.(Base.eventIndex));
     Alert.expected := expected;
     Alert.observed := observed |}.

(** ** Primitive effects *)

Definition getNext : Replay Proj.ProtocolProjection := fun c => (Returns c.(Ctx.next), c).

(** [context.next = f(context.next)] *)
Definition modifyNext (f : Proj.ProtocolProjection -> Proj.ProtocolProjection) : Replay unit :=
  fun c => (Returns tt, c <| Ctx.next := f c.(Ctx.next) |>).

(** [if (condition) context.alerts.push(problem(...))] *)
Definition alertIf (condition : bool) (event : Base.EventBase) (code : AlertCode)
    (message : string) (expected observed : option string) : Replay unit :=
  fun c => (Returns tt,
    c <| Ctx.alerts := c.(Ctx.alerts)
           ++ (if condition then [problem event code message expected observed] else []) |>).

Definition alert (event : Base.EventBase) (code : AlertCode) (message : string)
    (expected observed : option string) : Replay unit :=
  alertIf true event code message expected observed.

(** The mutable locals of the event loop. *)
Definition getContext : Replay Ctx.MutableContext := fun c => (Returns c, c).
Definition addConsumedRoute (id : EventId) : Replay unit :=
  fun c => (Returns tt, c <| Ctx.consumedRoutes := c.(Ctx.consumedRoutes) ++ [id] |>).
Definition setPendingCoreFees (fees : list PendingCoreFee) : Replay unit :=
  fun c => (Returns tt, c <| Ctx.pendingCoreFees := fees |>).
Definition setSellWalletDebited : Replay unit :=
  fun c => (Returns tt, c <| Ctx.sellWalletDebited := true |>).

Definition lift {A} (o : Outcome A) : Replay A := fun c => (o, c).

(** [if (condition) throw error] *)
Definition throwIf (condition : bool) (error : JsError) : Replay unit :=
  lift (if condition then Throws error else Returns tt).

(** [for (const x of xs) body(x)] *)
Fixpoint forEach {A} (body : A -> Replay unit) (xs : list A) : Replay unit :=
  match xs with
  | [] => mret tt
  | x :: rest => body x ;; forEach body rest
  end.

Definition when (condition : bool) (m : Replay unit) : Replay unit :=
  if condition then m else mret tt.

(** ** State helpers *)

(** [positions(context).set(account, position)] *)
Definition setPosition (account : Address) (position : Wallet.IndexedPosition) : Replay unit :=
  modifyNext (fun next => next <| Proj.positions := jsSet account position next.(Proj.positions) |>).

(** [updateEpoch]: the epoch is stored under its own identifier. *)
Definition updateEpoch (epoch : LpEpoch.IndexedLpEpoch) : Replay unit :=
  modifyNext (fun next =>
    next <| Proj.lpEpochs := jsSet epoch.(LpEpoch.epoch) epoch next.(Proj.lpEpochs) |>).

Definition positionOrEmpty (account : Address)
    (positions : JsMap Address Wallet.IndexedPosition) : Wallet.IndexedPosition :=
  match jsGet account positions with
  | Some position => position
  | None =>
      {| Wallet.account := account; Wallet.rawTrfl := 0; Wallet.rawTusd := 0;
         Wallet.correction := 0; Wallet.claimed := 0;
         Wallet.lifetimeClaimed := 0; Wallet.lifetimeMaterialized := 0 |}
  end.

Definition lpPositionOrEmpty (owner : Address)
    (positions : JsMap Address LpPos.IndexedLpPosition) : LpPos.IndexedLpPosition :=
  match jsGet owner positions with
  | Some position => position
  | None => {| LpPos.owner := owner; LpPos.shares := 0; LpPos.correction := 0; LpPos.claimed := 0 |}
  end.

(** [requireEpoch]: an unknown epoch is an alert and [null]. *)
Definition requireEpoch (event : Base.EventBase) (epochId : Z) : Replay (option LpEpoch.IndexedLpEpoch) :=
  next ← getNext;
  match jsGet epochId next.(Proj.lpEpochs) with
  | None =>
      alert event LP_ACCOUNTING ("LP event references unknown epoch " ⧺ show epochId ⧺ ".") None None ;;
      mret None
  | Some epoch => mret (Some epoch)
  end.

(** ** Running a replay: inversion lemmas *)

Lemma bind_returns {A B} (m : Replay A) (k : A -> Replay B) c b c' :
  (m ≫= k) c = (Returns b, c') ->
  exists a c1, m c = (Returns a, c1) /\ k a c1 = (Returns b, c').
Proof. unfold mbind, replay_bind. destruct (m c) as [[a|e] c1]; [eauto|done]. Qed.

Lemma ret_returns {A} (a b : A) c c' : (mret a : Replay A) c = (Returns b, c') -> b = a /\ c' = c.
Proof. by intros [= <- <-]. Qed.

Lemma getNext_returns n c c' : getNext c = (Returns n, c') -> n = c.(Ctx.next) /\ c' = c.
Proof. by intros [= <- <-]. Qed.

Lemma modifyNext_returns f u c c' :
  modifyNext f c = (Returns u, c') -> c' = c <| Ctx.next := f c.(Ctx.next) |>.
Proof. by intros [= _ <-]. Qed.

Lemma getContext_returns d c c' : getContext c = (Returns d, c') -> d = c /\ c' = c.
Proof. by intros [= <- <-]. Qed.

Lemma addConsumedRoute_returns id u c c' :
  addConsumedRoute id c = (Returns u, c') ->
  c' = c <| Ctx.consumedRoutes := c.(Ctx.consumedRoutes) ++ [id] |>.
Proof. by intros [= _ <-]. Qed.

Lemma setPendingCoreFees_returns fees u c c' :
  setPendingCoreFees fees c = (Returns u, c') -> c' = c <| Ctx.pendingCoreFees := fees |>.
Proof. by intros [= _ <-]. Qed.

Lemma setSellWalletDebited_returns u c c' :
  setSellWalletDebited c = (Returns u, c') -> c' = c <| Ctx.sellWalletDebited := true |>.
Proof. by intros [= _ <-]. Qed.

Lemma lift_returns {A} (o : Outcome A) a c c' : lift o c = (Returns a, c') -> o = Returns a /\ c' = c.
Proof. by intros [= -> <-]. Qed.

Lemma throwIf_returns b e u c c' : throwIf b e c = (Returns u, c') -> b = false /\ c' = c.
Proof. destruct b; [done|]. by intros [= _ <-]. Qed.

Lemma alertIf_returns b ev code msg e o u c c' :
  alertIf b ev code msg e o c = (Returns u, c') ->
  c' = c <| Ctx.alerts := c.(Ctx.alerts) ++ (if b then [problem ev code msg e o] else []) |>.
Proof. by intros [= _ <-]. Qed.

(** Symbolic execution of a hypothesis [m c = (Returns a, c')]. *)
Ltac replay_step :=
  match goal with
  | H : (_ ≫= _) _ = (Returns _, _) |- _ =>
      let a := fresh "v" in let c1 := fresh "c" in let E := fresh "E" in
      apply bind_returns in H; destruct H as (a & c1 & E & H)
  | H : (mret _) _ = (Returns _, _) |- _ => apply ret_returns in H; destruct H; subst
  | H : getNext _ = (Returns _, _) |- _ => apply getNext_returns in H; destruct H; subst
  | H : getContext _ = (Returns _, _) |- _ => apply getContext_returns in H; destruct H; subst
  | H : addConsumedRoute _ _ = (Returns _, _) |- _ => apply addConsumedRoute_returns in H; subst
  | H : setPendingCoreFees _ _ = (Returns _, _) |- _ => apply setPendingCoreFees_returns in H; subst
  | H : setSellWalletDebited _ = (Returns _, _) |- _ => apply setSellWalletDebited_returns in H; subst
  | H : modifyNext _ _ = (Returns _, _) |- _ => apply modifyNext_returns in H; subst
  | H : setPosition _ _ _ = (Returns _, _) |- _ => apply modifyNext_returns in H; subst
  | H : updateEpoch _ _ = (Returns _, _) |- _ => apply modifyNext_returns in H; subst
  | H : lift _ _ = (Returns _, _) |- _ => apply lift_returns in H; destruct H; subst
  | H : throwIf _ _ _ = (Returns _, _) |- _ => apply throwIf_returns in H; destruct H; subst
  | H : alertIf _ _ _ _ _ _ _ = (Returns _, _) |- _ => apply alertIf_returns in H; subst
  | H : alert _ _ _ _ _ _ = (Returns _, _) |- _ => apply alertIf_returns in H; subst
  | H : (Throws _, _) = (Returns _, _) |- _ => discriminate H
  | u : unit |- _ => destruct u
  end.
Ltac replay_inv := repeat replay_step.

(** ** Alerts only accumulate *)

#[export] Typeclasses Opaque getNext modifyNext alertIf alert getContext addConsumedRoute
  setPendingCoreFees setSellWalletDebited lift throwIf forEach when setPosition updateEpoch requireEpoch.

Class Monotone {A} (m : Replay A) : Prop :=
  monotone : forall c o c', m c = (o, c') -> exists extra, c'.(Ctx.alerts) = c.(Ctx.alerts) ++ extra.

#[export] Instance monotone_ret {A} (a : A) : Monotone (mret a : Replay A).
Proof. intros c o c' [= <- <-]. exists []. by rewrite app_nil_r. Qed.

#[export] Instance monotone_bind {A B} (m : Replay A) (k : A -> Replay B) :
  Monotone m -> (forall a, Monotone (k a)) -> Monotone (m ≫= k).
Proof.
  intros Hm Hk c o c'. unfold mbind, replay_bind.
  destruct (m c) as [[a|e] c1] eqn:E; intros H; destruct (Hm _ _ _ E) as [x1 H1].
  - destruct (Hk _ _ _ _ H) as [x2 H2]. exists (x1 ++ x2). by rewrite app_assoc, <- H1.
  - injection H as <- <-. eauto.
Qed.

#[export] Instance monotone_getNext : Monotone getNext.
Proof. intros c o c' [= <- <-]. exists []. by rewrite app_nil_r. Qed.

#[export] Instance monotone_modifyNext f : Monotone (modifyNext f).
Proof. intros c o c' [= <- <-]. exists []. by rewrite app_nil_r. Qed.

#[export] Instance monotone_getContext : Monotone getContext.
Proof. intros c o c' [= <- <-]. exists []. by rewrite app_nil_r. Qed.

#[export] Instance monotone_addConsumedRoute id : Monotone (addConsumedRoute id).
Proof. intros c o c' [= <- <-]. exists []. by rewrite app_nil_r. Qed.

#[export] Instance monotone_setPendingCoreFees fees : Monotone (setPendingCoreFees fees).
Proof. intros c o c' [= <- <-]. exists []. by rewrite app_nil_r. Qed.

#[export] Instance monotone_setSellWalletDebited : Monotone setSellWalletDebited.
Proof. intros c o c' [= <- <-]. exists []. by rewrite app_nil_r. Qed.

#[export] Instance monotone_lift {A} (o : Outcome A) : Monotone (lift o).
Proof. intros c o' c' [= <- <-]. exists []. by rewrite app_nil_r. Qed.

#[export] Instance monotone_throwIf b e : Monotone (throwIf b e).
Proof. apply monotone_lift. Qed.

#[export] Instance monotone_alertIf b ev code msg e o : Monotone (alertIf b ev code msg e o).
Proof. intros c o' c' [= <- <-]. eexists. reflexivity. Qed.

#[export] Instance monotone_alert ev code msg e o : Monotone (alert ev code msg e o).
Proof. apply monotone_alertIf. Qed.

#[export] Instance monotone_when b m : Monotone m -> Monotone (when b m).
Proof. destruct b; cbn; [done|intros; apply _]. Qed.

#[export] Instance monotone_forEach {A} (body : A -> Replay unit) xs :
  (forall x, Monotone (body x)) -> Monotone (forEach body xs).
Proof. intros Hb. induction xs; cbn; apply _. Qed.

#[export] Instance monotone_setPosition a p : Monotone (setPosition a p).
Proof. apply monotone_modifyNext. Qed.

#[export] Instance monotone_updateEpoch e : Monotone (updateEpoch e).
Proof. apply monotone_modifyNext. Qed.

#[export] Instance monotone_requireEpoch ev i : Monotone (requireEpoch ev i).
Proof. unfold requireEpoch. apply monotone_bind; [apply _|]. intros n. case_match; apply _. Qed.

(** Splits a program on its matches until instances decide the pieces. *)
Ltac solve_monotone :=
  repeat first
    [ progress intros
    | apply _
    | apply monotone_bind
    | case_match ].

(** A program that ends without an alert ran without an alert throughout. *)
Lemma monotone_nil {A} (m : Replay A) `{!Monotone m} c o c' :
  m c = (o, c') -> c'.(Ctx.alerts) = [] -> c.(Ctx.alerts) = [].
Proof. intros H Hn. destruct (monotone _ _ _ H) as [x Hx]. rewrite Hx in Hn. by apply app_nil in Hn as []. Qed.

Lemma alertIf_clean b ev code msg e o u c c' :
  alertIf b ev code msg e o c = (Returns u, c') -> c'.(Ctx.alerts) = [] -> b = false.
Proof. intros ->%alertIf_returns. cbn. destruct b; [|done]. by intros [_ [=]]%app_nil. Qed.

(** ** Programs that only raise alerts, and which *)

Class Emits (m : Replay unit) (raised : list Alert.CriticalAlert) : Prop :=
  emits : forall c, m c = (Returns tt, c <| Ctx.alerts := c.(Ctx.alerts) ++ raised |>).
#[export] Hint Mode Emits ! - : typeclass_instances.

Definition raisedIf (condition : bool) (a : Alert.CriticalAlert) : list Alert.CriticalAlert :=
  if condition then [a] else [].

#[export] Instance emits_ret : Emits (mret tt) [].
Proof. intros c. cbn. rewrite app_nil_r. by destruct c. Qed.

#[export] Instance emits_bind m1 m2 r1 r2 : Emits m1 r1 -> Emits m2 r2 -> Emits (m1 ;; m2) (r1 ++ r2).
Proof. intros H1 H2 c. unfold mbind, replay_bind. rewrite H1, H2. cbn. by rewrite app_assoc. Qed.

#[export] Instance emits_alertIf b ev code msg e o :
  Emits (alertIf b ev code msg e o) (raisedIf b (problem ev code msg e o)).
Proof. intros c. done. Qed.

#[export] Instance emits_alert ev code msg e o : Emits (alert ev code msg e o) [problem ev code msg e o].
Proof. intros c. done. Qed.

#[export] Instance emits_forEach {A} (body : A -> Replay unit) raised xs :
  (forall x, Emits (body x) (raised x)) -> Emits (forEach body xs) (concat (map raised xs)).
Proof.
  intros Hb. induction xs as [|x xs IH]; cbn [forEach map concat]; [apply emits_ret|by apply emits_bind].
Qed.
