(* ===== verification/Group.v ===== *)
(** * One transaction group: the typed views [reduceEventGroup] filters out

    [events.filter((event) => event.type === "X")] keeps an event's base next to
    the fields of its interface; the three liquidity receipts are read through
    one view, as the source's union is. *)
From S2P Require Import Prelude JsMap Types.

(** [events.filter(event => event.type === ...)] *)
Definition pick {E} (select : EventBody -> option E) (events : list ProtocolEvent)
    : list (Base.EventBase * E) :=
  omap (fun event =>
    match select event.(body) with Some e => Some (event.(base), e) | None => None end) events.

Definition asSwapExecuted (b : EventBody) := match b with EvSwapExecuted e => Some e | _ => None end.
Definition asCustodySharesChanged (b : EventBody) := match b with EvCustodySharesChanged e => Some e | _ => None end.
Definition asCustodyRewardsRouted (b : EventBody) := match b with EvCustodyRewardsRouted e => Some e | _ => None end.
Definition asLpRewardIndexAdvanced (b : EventBody) := match b with EvLpRewardIndexAdvanced e => Some e | _ => None end.
Definition asLpRewardQuarantined (b : EventBody) := match b with EvLpRewardQuarantined e => Some e | _ => None end.
Definition asLpFractionalResidueRetired (b : EventBody) := match b with EvLpFractionalResidueRetired e => Some e | _ => None end.
Definition asLpEpochTerminalDustClassified (b : EventBody) := match b with EvLpEpochTerminalDustClassified e => Some e | _ => None end.
Definition asLpTerminalTransition (b : EventBody) :=
  match b with
  | EvLpEpochStatusChanged e => if decide (e.(LpEpochStatusChanged.newStatus) = claim_only) then Some e else None
  | _ => None
  end.
Definition asLpEpochOpened (b : EventBody) := match b with EvLpEpochOpened e => Some e | _ => None end.
Definition asCustodyAdapterRegistered (b : EventBody) := match b with EvCustodyAdapterRegistered e => Some e | _ => None end.
Definition asCustodyEpochRouteOpened (b : EventBody) := match b with EvCustodyEpochRouteOpened e => Some e | _ => None end.
Definition asEligibleBalanceDebited (b : EventBody) := match b with EvEligibleBalanceDebited e => Some e | _ => None end.
Definition asEligibleBalanceCredited (b : EventBody) := match b with EvEligibleBalanceCredited e => Some e | _ => None end.
Definition asWalletTransfer (b : EventBody) := match b with EvWalletTransfer e => Some e | _ => None end.
Definition asRewardsMaterialized (b : EventBody) := match b with EvRewardsMaterialized e => Some e | _ => None end.
Definition asRewardsClaimed (b : EventBody) := match b with EvRewardsClaimed e => Some e | _ => None end.
Definition asWalletRegistered (b : EventBody) := match b with EvWalletRegistered e => Some e | _ => None end.
Definition asLpSharesChanged (b : EventBody) := match b with EvLpSharesChanged e => Some e | _ => None end.
Definition asLpSharesTransferred (b : EventBody) := match b with EvLpSharesTransferred e => Some e | _ => None end.

(** The union [LiquiditySeeded | LiquidityAdded | LiquidityRemoved]. *)
Inductive LiquidityKind := Seeded | Added | Removed.

#[export] Instance LiquidityKind_eq : EqDecision LiquidityKind.
Proof. solve_decision. Defined.

Module Liq.
Record LiquidityReceipt := mk {
  kind : LiquidityKind;
  epoch : Z;
  provider : Address;
  trflAmount : Z;
  tusdAmount : Z;
  lpShares : Z;
  finalExit : bool;  (* present on removals only *)
  trflReserveAfter : Z;
  tusdReserveAfter : Z
}.
End Liq.

Definition seededReceipt (e : LiquiditySeeded.LiquiditySeededEvent) : Liq.LiquidityReceipt :=
  Liq.mk Seeded e.(LiquiditySeeded.epoch) e.(LiquiditySeeded.provider)
    e.(LiquiditySeeded.trflAmount) e.(LiquiditySeeded.tusdAmount) e.(LiquiditySeeded.lpShares)
    false e.(LiquiditySeeded.trflReserveAfter) e.(LiquiditySeeded.tusdReserveAfter).
Definition addedReceipt (e : LiquidityAdded.LiquidityAddedEvent) : Liq.LiquidityReceipt :=
  Liq.mk Added e.(LiquidityAdded.epoch) e.(LiquidityAdded.provider)
    e.(LiquidityAdded.trflAmount) e.(LiquidityAdded.tusdAmount) e.(LiquidityAdded.lpShares)
    false e.(LiquidityAdded.trflReserveAfter) e.(LiquidityAdded.tusdReserveAfter).
Definition removedReceipt (e : LiquidityRemoved.LiquidityRemovedEvent) : Liq.LiquidityReceipt :=
  Liq.mk Removed e.(LiquidityRemoved.epoch) e.(LiquidityRemoved.provider)
    e.(LiquidityRemoved.trflAmount) e.(LiquidityRemoved.tusdAmount) e.(LiquidityRemoved.lpShares)
    e.(LiquidityRemoved.finalExit) e.(LiquidityRemoved.trflReserveAfter)
    e.(LiquidityRemoved.tusdReserveAfter).

Definition asLiquidity (b : EventBody) : option Liq.LiquidityReceipt :=
  match b with
  | EvLiquiditySeeded e => Some (seededReceipt e)
  | EvLiquidityAdded e => Some (addedReceipt e)
  | EvLiquidityRemoved e => Some (removedReceipt e)
  | _ => None
  end.

(** [accountStateSubjects]: the accounts whose position an event touches. *)
Definition accountStateSubjects (event : ProtocolEvent) : list Address :=
  match event.(body) with
  | EvPositionCreated e => [e.(PositionCreated.account)]
  | EvEligibleBalanceDebited e => [e.(EligibleBalanceDebited.account)]
  | EvEligibleBalanceCredited e => [e.(EligibleBalanceCredited.account)]
  | EvRewardsMaterialized e => [e.(RewardsMaterialized.account)]
  | EvRewardsClaimed e => [e.(RewardsClaimed.account)]
  | EvSwapExecuted e => [e.(SwapExecuted.account)]
  | EvFaucetGrant e => [e.(FaucetGrant.account)]
  | EvWalletTransfer e => [e.(WalletTransfer.from); e.(WalletTransfer.to)]
  | EvLiquiditySeeded e => [e.(LiquiditySeeded.provider)]
  | EvLiquidityAdded e => [e.(LiquidityAdded.provider)]
  | EvLiquidityRemoved e => [e.(LiquidityRemoved.provider)]
  | EvLpSharesChanged e => [e.(LpSharesChanged.owner)]
  | EvLpRewardsClaimed e => [e.(LpRewardsClaimed.owner)]
  | EvLpFractionalResidueRetired e => [e.(LpFractionalResidueRetired.owner)]
  | EvLpSharesTransferred e => [e.(LpSharesTransferred.sender); e.(LpSharesTransferred.recipient)]
  | _ => []
  end.

(** The group a handler runs in: what the event loop closes over. *)
Module Group.
Record EventGroup := mk {
  prior : Proj.ProtocolProjection;
  events : list ProtocolEvent
}.
End Group.

Definition swapsOf (g : Group.EventGroup) := pick asSwapExecuted g.(Group.events).
Definition routesOf (g : Group.EventGroup) := pick asCustodyRewardsRouted g.(Group.events).
Definition nativeDebitsOf (g : Group.EventGroup) := pick asEligibleBalanceDebited g.(Group.events).
Definition nativeCreditsOf (g : Group.EventGroup) := pick asEligibleBalanceCredited g.(Group.events).
