(* ===== verification/WalletHandlers.v ===== *)
(** * Wallet positions: the wallet cases of the event loop of [reducer.ts] *)
From S2P Require Import Prelude JsMap Types MoveDomains Accounting Replay Group.

Definition U64_MAX : Z := Z.shiftl 1 64 - 1.
Definition U128_MAX : Z := Z.shiftl 1 128 - 1.
Definition U256_MAX : Z := Z.shiftl 1 256 - 1.
Definition BPS_DENOMINATOR : Z := 10000.

Definition adjustWalletAsset (account : Address) (asset : Asset) (delta : Z)
    (event : Base.EventBase) : Replay unit :=
  next ← getNext;
  let current := positionOrEmpty account next.(Proj.positions) in
  let balance := match asset with tRFL => current.(Wallet.rawTrfl) | tUSD => current.(Wallet.rawTusd) end in
  throwIf (bool_decide (balance + delta < 0))
    (RangeError ("event group would create a negative " ⧺ assetName asset ⧺ " balance for " ⧺ account)) ;;
  match asset with
  | tUSD => setPosition account (current <| Wallet.rawTusd := balance + delta |>)
  | tRFL =>
      correctionDelta ← lift (checkedMoveU256Multiply
        (if bool_decide (delta < 0) then - delta else delta)
        next.(Proj.currentIndex) "wallet correction delta");
      correction ← lift (if bool_decide (delta < 0)
        then checkedMoveSignedU256AddUnsigned current.(Wallet.correction) correctionDelta "wallet correction"
        else checkedMoveSignedU256SubtractUnsigned current.(Wallet.correction) correctionDelta "wallet correction");
      aggregateCorrection ← lift (if bool_decide (delta < 0)
        then checkedMoveSignedU256AddUnsigned next.(Proj.aggregateCorrection) correctionDelta "aggregate wallet correction"
        else checkedMoveSignedU256SubtractUnsigned next.(Proj.aggregateCorrection) correctionDelta "aggregate wallet correction");
      setPosition account (current <| Wallet.rawTrfl := balance + delta |>
                                   <| Wallet.correction := correction |>) ;;
      modifyNext (fun next => next <| Proj.eligibleSupply := next.(Proj.eligibleSupply) + delta |>
                                   <| Proj.aggregateCorrection := aggregateCorrection |>) ;;
      next' ← getNext;
      throwIf (bool_decide (next'.(Proj.eligibleSupply) < 0))
        (RangeError ("event group would create negative global shares at " ⧺ event.(Base.id)))
  end.

Definition materializeWallet (b : Base.EventBase) (e : RewardsMaterialized.RewardsMaterializedEvent)
    : Replay unit :=
  let account := e.(RewardsMaterialized.account) in
  let amount := e.(RewardsMaterialized.amount) in
  throwIf (bool_decide (amount <= 0)) (RangeError "materialized reward amount must be positive") ;;
  next ← getNext;
  let before := positionOrEmpty account next.(Proj.positions) in
  pending ← lift (walletPending before next.(Proj.currentIndex));
  alertIf (bool_decide (amount > pending)) b POSITION_ACCOUNTING
    "Wallet materialization exceeds independently calculated pending rewards."
    (Some (show pending)) (Some (show amount)) ;;
  adjustWalletAsset account tRFL amount b ;;
  next1 ← getNext;
  let current := positionOrEmpty account next1.(Proj.positions) in
  claimed ← lift (checkedMoveU256Add current.(Wallet.claimed) amount "wallet cumulative materialization");
  alertIf (bool_decide (claimed <> e.(RewardsMaterialized.totalClaimed))) b POSITION_ACCOUNTING
    "Wallet cumulative materialization does not match the event."
    (Some (show claimed)) (Some (show e.(RewardsMaterialized.totalClaimed))) ;;
  lifetimeMaterialized ← lift (checkedMoveU256Add current.(Wallet.lifetimeMaterialized) amount "wallet lifetime materialization");
  setPosition account (current <| Wallet.claimed := claimed |>
                               <| Wallet.lifetimeMaterialized := lifetimeMaterialized |>) ;;
  next2 ← getNext;
  rewardVaultPayouts ← lift (checkedMoveU256Add next2.(Proj.rewardVaultPayouts) amount "core reward-vault payouts");
  coreMaterialized ← lift (checkedMoveU256Add next2.(Proj.lifetimeMaterialized) amount "core lifetime materialization");
  modifyNext (fun next => next <| Proj.rewardVaultPayouts := rewardVaultPayouts |>
                               <| Proj.lifetimeMaterialized := coreMaterialized |>).

(** [case "WalletRegistered"] *)
Definition onWalletRegistered (b : Base.EventBase) (e : WalletRegistered.WalletRegisteredEvent)
    : Replay unit :=
  next ← getNext;
  let wallets := jsCopy next.(Proj.registeredWallets) in
  let expectedCount := next.(Proj.registeredWalletCount) + 1 in
  let account := e.(WalletRegistered.account) in
  let primaryStore := e.(WalletRegistered.primaryStore) in
  let count := e.(WalletRegistered.registeredWalletCount) in
  alertIf (isZeroAddress account
      || isZeroAddress primaryStore
      || bool_decide (count <= 0)
      || bool_decide (count > U64_MAX)
      || bool_decide (count <> expectedCount)
      || jsHas account wallets
      || includes primaryStore (jsValues wallets)
      || jsHas account next.(Proj.protocolExcludedStores)
      || includes primaryStore (jsValues next.(Proj.protocolExcludedStores)))
    b WALLET_REGISTRATION
    "Wallet registration must bind one fresh non-excluded account/store and advance the exact u64 count once."
    (Some (show expectedCount)) (Some (show count)) ;;
  modifyNext (fun next => next <| Proj.registeredWallets := jsSet account primaryStore wallets |>
                               <| Proj.registeredWalletCount := count |>).

(** [case "PositionCreated"] *)
Definition onPositionCreated (b : Base.EventBase) (e : PositionCreated.PositionCreatedEvent)
    : Replay unit :=
  let account := e.(PositionCreated.account) in
  next ← getNext;
  alertIf (jsHas account next.(Proj.positions)) b IDENTIFIER_REUSE
    "Wallet accounting position was created more than once." None None ;;
  setPosition account (positionOrEmpty account next.(Proj.positions)).

(** [case "FaucetGrant"] *)
Definition onFaucetGrant (b : Base.EventBase) (e : FaucetGrant.FaucetGrantEvent) : Replay unit :=
  throwIf (bool_decide (e.(FaucetGrant.amount) <= 0)) (RangeError "faucet grant must be positive") ;;
  adjustWalletAsset e.(FaucetGrant.account) e.(FaucetGrant.asset) e.(FaucetGrant.amount) b.

(** [case "WalletTransfer"]: informational, it never mutates the ledger. *)
Definition onWalletTransfer (g : Group.EventGroup) (b : Base.EventBase)
    (e : WalletTransfer.WalletTransferEvent) : Replay unit :=
  throwIf (bool_decide (e.(WalletTransfer.amount) <= 0)) (RangeError "wallet transfer must be positive") ;;
  let nativeDebits := nativeDebitsOf g in
  let nativeCredits := nativeCreditsOf g in
  let matchingDebit := List.filter (fun entry =>
    bool_decide (entry.2.(EligibleBalanceDebited.account) = e.(WalletTransfer.from))
    && bool_decide (entry.2.(EligibleBalanceDebited.amount) = e.(WalletTransfer.amount))) nativeDebits in
  let matchingCredit := List.filter (fun entry =>
    bool_decide (entry.2.(EligibleBalanceCredited.account) = e.(WalletTransfer.to))
    && bool_decide (entry.2.(EligibleBalanceCredited.amount) = e.(WalletTransfer.amount))) nativeCredits in
  alertIf (bool_decide (arrayLength nativeDebits > 0) && bool_decide (arrayLength matchingDebit <> 1))
    b DOUBLE_COUNTING "Router sender receipt disagrees with the native eligible-store debit." None None ;;
  alertIf (bool_decide (arrayLength nativeCredits > 0) && bool_decide (arrayLength matchingCredit <> 1))
    b DOUBLE_COUNTING "Router recipient receipt disagrees with the native eligible-store credit." None None.

(** [case "EligibleBalanceDebited"] *)
Definition onEligibleBalanceDebited (b : Base.EventBase)
    (e : EligibleBalanceDebited.EligibleBalanceDebitedEvent) : Replay unit :=
  throwIf (bool_decide (e.(EligibleBalanceDebited.amount) <= 0))
    (RangeError "eligible-balance debit must be positive") ;;
  adjustWalletAsset e.(EligibleBalanceDebited.account) tRFL (- e.(EligibleBalanceDebited.amount)) b.

(** [case "EligibleBalanceCredited"] *)
Definition onEligibleBalanceCredited (b : Base.EventBase)
    (e : EligibleBalanceCredited.EligibleBalanceCreditedEvent) : Replay unit :=
  throwIf (bool_decide (e.(EligibleBalanceCredited.amount) <= 0))
    (RangeError "eligible-balance credit must be positive") ;;
  adjustWalletAsset e.(EligibleBalanceCredited.account) tRFL e.(EligibleBalanceCredited.amount) b.

(** [case "RewardsClaimed"] *)
Definition onRewardsClaimed (b : Base.EventBase) (e : RewardsClaimed.RewardsClaimedEvent) : Replay unit :=
  throwIf (bool_decide (e.(RewardsClaimed.amount) <= 0)) (RangeError "claimed reward amount must be positive") ;;
  next ← getNext;
  let current := positionOrEmpty e.(RewardsClaimed.account) next.(Proj.positions) in
  lifetimeClaimed ← lift (checkedMoveU256Add current.(Wallet.lifetimeClaimed) e.(RewardsClaimed.amount) "wallet lifetime claimed");
  setPosition e.(RewardsClaimed.account) (current <| Wallet.lifetimeClaimed := lifetimeClaimed |>).
