(* ===== verification/LpHandlers.v ===== *)
(** * LP epochs: the LP cases of the event loop of [reducer.ts] *)
From S2P Require Import Prelude JsMap Types MoveDomains Accounting Replay Group WalletHandlers.

(** Balance less liability less unallocated, each step checked. *)
Definition checkedVaultRemainder (vaultBalance liability unallocated : Z) (label : string) : Outcome Z :=
  afterLiability ← checkedMoveU256Subtract vaultBalance liability (label ⧺ " indexed liability");
  checkedMoveU256Subtract afterLiability unallocated (label ⧺ " unallocated amount").

(** The rounding bucket an epoch's totals leave, as every LP receipt recomputes it. *)
Definition lpRounding (epoch : LpEpoch.IndexedLpEpoch) (unallocated : Z) (label : string) : Outcome Z :=
  vault ← expectedLpVaultBalance epoch;
  liability ← lpIndexedLiability epoch;
  checkedVaultRemainder vault liability unallocated label.

Definition slash (a b : Z) : string := show a ⧺ "/" ⧺ show b.

(** [adjustLpShares] *)
Definition adjustLpShares (b : Base.EventBase) (e : LpSharesChanged.LpSharesChangedEvent) : Replay unit :=
  let amount := e.(LpSharesChanged.amount) in
  let owner := e.(LpSharesChanged.owner) in
  let added := e.(LpSharesChanged.added) in
  found ← requireEpoch b e.(LpSharesChanged.epoch);
  match found with
  | None => mret tt
  | Some epoch =>
      if bool_decide (epoch.(LpEpoch.status) <> active) || epoch.(LpEpoch.quarantined) || bool_decide (amount <= 0)
      then alert b LP_ACCOUNTING "LP share mutation must be positive and target the active epoch." None None
      else
        next ← getNext;
        alertIf (negb (jsHas owner next.(Proj.registeredWallets))) b WALLET_REGISTRATION
          "LP share weight may be created or mutated only for a wallet registered earlier in replay order."
          (Some "earlier WalletRegistered") (Some owner) ;;
        let delta := if added then amount else - amount in
        let current := lpPositionOrEmpty owner epoch.(LpEpoch.positions) in
        if bool_decide (current.(LpPos.shares) + delta < 0) || bool_decide (epoch.(LpEpoch.totalShares) + delta < 0)
        then alert b LP_ACCOUNTING "LP share mutation would underflow a position or epoch." None None
        else
          correctionDelta ← lift (checkedMoveU256Multiply amount epoch.(LpEpoch.index) "LP share correction delta");
          correction ← lift (if added
            then checkedMoveSignedU256SubtractUnsigned current.(LpPos.correction) correctionDelta "LP owner correction"
            else checkedMoveSignedU256AddUnsigned current.(LpPos.correction) correctionDelta "LP owner correction");
          aggregateCorrection ← lift (if added
            then checkedMoveSignedU256SubtractUnsigned epoch.(LpEpoch.aggregateCorrection) correctionDelta "LP aggregate correction"
            else checkedMoveSignedU256AddUnsigned epoch.(LpEpoch.aggregateCorrection) correctionDelta "LP aggregate correction");
          let nextPosition := current <| LpPos.shares := current.(LpPos.shares) + delta |>
                                      <| LpPos.correction := correction |> in
          let nextEpoch := epoch <| LpEpoch.totalShares := epoch.(LpEpoch.totalShares) + delta |>
                                 <| LpEpoch.aggregateCorrection := aggregateCorrection |>
                                 <| LpEpoch.positions := jsSet owner nextPosition (jsCopy epoch.(LpEpoch.positions)) |> in
          alertIf (bool_decide (nextPosition.(LpPos.shares) <> e.(LpSharesChanged.ownerShares))
                   || bool_decide (nextEpoch.(LpEpoch.totalShares) <> e.(LpSharesChanged.totalShares)))
            b LP_ACCOUNTING "LP post-mutation shares disagree with independently replayed shares."
            (Some (slash nextPosition.(LpPos.shares) nextEpoch.(LpEpoch.totalShares)))
            (Some (slash e.(LpSharesChanged.ownerShares) e.(LpSharesChanged.totalShares))) ;;
          updateEpoch nextEpoch
  end.

(** [case "LpEpochOpened"] *)
Definition onLpEpochOpened (b : Base.EventBase) (e : LpEpochOpened.LpEpochOpenedEvent) : Replay unit :=
  next ← getNext;
  let rewardVault := e.(LpEpochOpened.rewardVault) in
  let stateId := e.(LpEpochOpened.stateId) in
  if jsHas e.(LpEpochOpened.epoch) next.(Proj.lpEpochs)
     || jsHas rewardVault next.(Proj.rewardVaultToEpoch)
     || jsHas stateId next.(Proj.stateIdToEpoch)
     || bool_decide (next.(Proj.activeLpEpoch) <> None)
  then alert b IDENTIFIER_REUSE
         "LP epoch or reward-vault identifier was reused while another epoch is active." None None
  else
    updateEpoch {| LpEpoch.epoch := e.(LpEpochOpened.epoch);
                   LpEpoch.stateId := stateId;
                   LpEpoch.status := active;
                   LpEpoch.rewardVault := rewardVault;
                   LpEpoch.index := 0;
                   LpEpoch.indexRemainder := 0;
                   LpEpoch.totalShares := 0;
                   LpEpoch.aggregateCorrection := 0;
                   LpEpoch.unallocatedRewards := 0;
                   LpEpoch.roundingReserve := 0;
                   LpEpoch.retiredResidueMagnified := 0;
                   LpEpoch.terminalRoundingBaseUnits := None;
                   LpEpoch.lifetimeReceived := 0;
                   LpEpoch.lifetimeClaimed := 0;
                   LpEpoch.quarantined := false;
                   LpEpoch.positions := jsEmpty |} ;;
    modifyNext (fun next =>
      next <| Proj.rewardVaultToEpoch := jsSet rewardVault e.(LpEpochOpened.epoch) next.(Proj.rewardVaultToEpoch) |>) ;;
    modifyNext (fun next =>
      next <| Proj.stateIdToEpoch := jsSet stateId e.(LpEpochOpened.epoch) next.(Proj.stateIdToEpoch) |>) ;;
    modifyNext (fun next => next <| Proj.activeLpEpoch := Some e.(LpEpochOpened.epoch) |>).

(** [case "LpEpochStatusChanged"] *)
Definition onLpEpochStatusChanged (b : Base.EventBase)
    (e : LpEpochStatusChanged.LpEpochStatusChangedEvent) : Replay unit :=
  found ← requireEpoch b e.(LpEpochStatusChanged.epoch);
  match found with
  | None => mret tt
  | Some epoch =>
      let allowed := bool_decide (e.(LpEpochStatusChanged.oldStatus) = active)
                     && bool_decide (e.(LpEpochStatusChanged.newStatus) = claim_only) in
      alertIf (negb allowed || bool_decide (epoch.(LpEpoch.status) <> e.(LpEpochStatusChanged.oldStatus)))
        b LP_ACCOUNTING "LP epoch status transition is invalid or does not continue replayed state." None None ;;
      updateEpoch (epoch <| LpEpoch.status := e.(LpEpochStatusChanged.newStatus) |>) ;;
      if bool_decide (e.(LpEpochStatusChanged.newStatus) = claim_only) then
        next ← getNext;
        alertIf (bool_decide (next.(Proj.activeLpEpoch) <> Some e.(LpEpochStatusChanged.epoch))
                 || bool_decide (epoch.(LpEpoch.totalShares) <> 0))
          b LP_ACCOUNTING "Only an empty active epoch can become claim-only." None None ;;
        modifyNext (fun next => next <| Proj.activeLpEpoch := None |>)
      else mret tt
  end.

(** The complete exit a residue retirement must precede: a burn to zero shares
    or a transfer by the owner, later in the group. *)
Definition isResidueExit (b : Base.EventBase)
    (e : LpFractionalResidueRetired.LpFractionalResidueRetiredEvent) (candidate : ProtocolEvent) : bool :=
  match candidate.(body) with
  | EvLpSharesChanged c =>
      negb c.(LpSharesChanged.added)
      && bool_decide (c.(LpSharesChanged.epoch) = e.(LpFractionalResidueRetired.epoch))
      && bool_decide (c.(LpSharesChanged.owner) = e.(LpFractionalResidueRetired.owner))
      && bool_decide (c.(LpSharesChanged.ownerShares) = 0)
  | EvLpSharesTransferred c =>
      bool_decide (c.(LpSharesTransferred.epoch) = e.(LpFractionalResidueRetired.epoch))
      && bool_decide (c.(LpSharesTransferred.sender) = e.(LpFractionalResidueRetired.owner))
  | _ => false
  end && bool_decide (evIndex candidate > b.(Base.eventIndex)).

Definition exitAmountOf (exit : option ProtocolEvent) : Z :=
  match exit with
  | Some event =>
      match event.(body) with
      | EvLpSharesChanged c => c.(LpSharesChanged.amount)
      | EvLpSharesTransferred c => c.(LpSharesTransferred.amount)
      | _ => 0
      end
  | None => 0
  end.

(** [case "LpFractionalResidueRetired"] *)
Definition onLpFractionalResidueRetired (g : Group.EventGroup) (b : Base.EventBase)
    (e : LpFractionalResidueRetired.LpFractionalResidueRetiredEvent) : Replay unit :=
  let residue := e.(LpFractionalResidueRetired.residueMagnified) in
  let cumulative := e.(LpFractionalResidueRetired.cumulativeRetiredResidueMagnified) in
  let reported := e.(LpFractionalResidueRetired.roundingReserveBaseUnits) in
  let owner := e.(LpFractionalResidueRetired.owner) in
  let unitsAlert := alert b LP_ACCOUNTING
    "Fractional residue must use exact u64/u128/u256 units and precede a complete non-zero position exit."
    None None in
  found ← requireEpoch b e.(LpFractionalResidueRetired.epoch);
  match found with
  | None => mret tt
  | Some epoch =>
      let exitAmount := exitAmountOf (arrayFind (isResidueExit b e) g.(Group.events)) in
      if bool_decide (e.(LpFractionalResidueRetired.epoch) <= 0)
         || bool_decide (e.(LpFractionalResidueRetired.epoch) > U64_MAX)
         || bool_decide (residue <= 0)
         || bool_decide (residue > U256_MAX)
         || bool_decide (cumulative > U256_MAX)
         || bool_decide (reported > U128_MAX)
      then unitsAlert
      else match jsGet owner epoch.(LpEpoch.positions) with
      | None => unitsAlert
      | Some current =>
        if bool_decide (current.(LpPos.shares) <= 0) || bool_decide (exitAmount <> current.(LpPos.shares))
        then unitsAlert
        else
          exitDelta ← lift (checkedMoveU256Multiply current.(LpPos.shares) epoch.(LpEpoch.index) "LP exit correction delta");
          correctionAfterExit ← lift (checkedMoveSignedU256AddUnsigned current.(LpPos.correction) exitDelta "LP zero-share correction");
          throwIf (bool_decide (correctionAfterExit < 0))
            (RangeError "LP zero-share correction cannot remain negative") ;;
          normalizedClaim ← lift (checkedMoveU256Multiply current.(LpPos.claimed) REFLECTION_MAGNITUDE "LP normalized claim");
          expectedResidue ← lift (checkedMoveU256Subtract correctionAfterExit normalizedClaim "LP fractional residue");
          expectedCumulative ← lift (checkedMoveU256Add epoch.(LpEpoch.retiredResidueMagnified) expectedResidue "LP cumulative retired residue");
          if bool_decide (expectedResidue <= 0)
             || bool_decide (expectedResidue >= REFLECTION_MAGNITUDE)
             || bool_decide (expectedCumulative > U256_MAX)
             || bool_decide (residue <> expectedResidue)
             || bool_decide (cumulative <> expectedCumulative)
          then alert b LP_ACCOUNTING
                 "Fractional residue receipt disagrees with the zero-share correction normalization."
                 (Some (slash expectedResidue expectedCumulative)) (Some (slash residue cumulative))
          else
            ownerCorrection ← lift (checkedMoveSignedU256SubtractUnsigned current.(LpPos.correction) expectedResidue "LP retired owner residue correction");
            aggregateCorrection ← lift (checkedMoveSignedU256SubtractUnsigned epoch.(LpEpoch.aggregateCorrection) expectedResidue "LP retired aggregate residue correction");
            let withoutRounding :=
              epoch <| LpEpoch.aggregateCorrection := aggregateCorrection |>
                    <| LpEpoch.retiredResidueMagnified := expectedCumulative |>
                    <| LpEpoch.positions := jsSet owner (current <| LpPos.correction := ownerCorrection |>)
                                              (jsCopy epoch.(LpEpoch.positions)) |> in
            expectedRounding ← lift (lpRounding withoutRounding withoutRounding.(LpEpoch.unallocatedRewards) "LP residue rounding reserve");
            alertIf (bool_decide (expectedRounding < 0) || bool_decide (expectedRounding > U128_MAX)
                     || bool_decide (reported <> expectedRounding))
              b LP_VAULT_BACKING "Fractional residue retirement reports the wrong physical rounding reserve."
              (Some (show expectedRounding)) (Some (show reported)) ;;
            updateEpoch (withoutRounding <| LpEpoch.roundingReserve := expectedRounding |>)
      end
  end.

(** [case "LpEpochTerminalDustClassified"] *)
Definition onLpEpochTerminalDustClassified (b : Base.EventBase)
    (e : LpEpochTerminalDustClassified.LpEpochTerminalDustClassifiedEvent) : Replay unit :=
  let terminal := e.(LpEpochTerminalDustClassified.terminalRoundingBaseUnits) in
  let retired := e.(LpEpochTerminalDustClassified.retiredResidueMagnified) in
  let received := e.(LpEpochTerminalDustClassified.lifetimeReceivedBaseUnits) in
  let claimed := e.(LpEpochTerminalDustClassified.lifetimeClaimedBaseUnits) in
  found ← requireEpoch b e.(LpEpochTerminalDustClassified.epoch);
  match found with
  | None => mret tt
  | Some epoch =>
      expectedVaultBalance ← lift (expectedLpVaultBalance epoch);
      calculatedLiability ← lift (lpIndexedLiability epoch);
      alertIf (bool_decide (e.(LpEpochTerminalDustClassified.epoch) <= 0)
          || bool_decide (e.(LpEpochTerminalDustClassified.epoch) > U64_MAX)
          || bool_decide (terminal > U128_MAX)
          || bool_decide (retired > U256_MAX)
          || bool_decide (received > U256_MAX)
          || bool_decide (claimed > U256_MAX)
          || bool_decide (epoch.(LpEpoch.status) <> claim_only)
          || bool_decide (epoch.(LpEpoch.terminalRoundingBaseUnits) <> None)
          || bool_decide (epoch.(LpEpoch.rewardVault) <> e.(LpEpochTerminalDustClassified.rewardVault))
          || bool_decide (epoch.(LpEpoch.totalShares) <> 0)
          || epoch.(LpEpoch.quarantined)
          || bool_decide (epoch.(LpEpoch.unallocatedRewards) <> 0)
          || bool_decide (calculatedLiability <> 0)
          || bool_decide (expectedVaultBalance <> epoch.(LpEpoch.roundingReserve))
          || bool_decide (terminal <> epoch.(LpEpoch.roundingReserve))
          || bool_decide (retired <> epoch.(LpEpoch.retiredResidueMagnified))
          || bool_decide (received <> epoch.(LpEpoch.lifetimeReceived))
          || bool_decide (claimed <> epoch.(LpEpoch.lifetimeClaimed)))
        b LP_ACCOUNTING
        "Terminal dust classification must exactly match the healthy zero-share claim-only epoch and its immutable vault/lifetime evidence."
        None None ;;
      updateEpoch (epoch <| LpEpoch.terminalRoundingBaseUnits := Some epoch.(LpEpoch.roundingReserve) |>)
  end.

(** [case "LpSharesTransferred"] *)
Definition onLpSharesTransferred (b : Base.EventBase)
    (e : LpSharesTransferred.LpSharesTransferredEvent) : Replay unit :=
  let amount := e.(LpSharesTransferred.amount) in
  let from := e.(LpSharesTransferred.sender) in
  let to := e.(LpSharesTransferred.recipient) in
  found ← requireEpoch b e.(LpSharesTransferred.epoch);
  match found with
  | None => mret tt
  | Some epoch =>
      if bool_decide (epoch.(LpEpoch.status) <> active) || epoch.(LpEpoch.quarantined) || bool_decide (amount <= 0)
      then alert b LP_ACCOUNTING "LP transfer must be positive and target the active epoch." None None
      else
        next ← getNext;
        alertIf (negb (jsHas from next.(Proj.registeredWallets)) || negb (jsHas to next.(Proj.registeredWallets)))
          b WALLET_REGISTRATION
          "LP sender and recipient must both have WalletRegistered evidence earlier in replay order."
          (Some "registered sender and recipient") (Some (from ⧺ "/" ⧺ to)) ;;
        let sender := lpPositionOrEmpty from epoch.(LpEpoch.positions) in
        let recipient := lpPositionOrEmpty to epoch.(LpEpoch.positions) in
        if bool_decide (sender.(LpPos.shares) < amount) || bool_decide (from = to)
        then alert b LP_ACCOUNTING "LP transfer would underflow or transfer to self." None None
        else
          delta ← lift (checkedMoveU256Multiply amount epoch.(LpEpoch.index) "LP transfer correction delta");
          senderCorrection ← lift (checkedMoveSignedU256AddUnsigned sender.(LpPos.correction) delta "LP transfer sender correction");
          recipientCorrection ← lift (checkedMoveSignedU256SubtractUnsigned recipient.(LpPos.correction) delta "LP transfer recipient correction");
          let afterSender := jsSet from (sender <| LpPos.shares := sender.(LpPos.shares) - amount |>
                                                <| LpPos.correction := senderCorrection |>)
                                   (jsCopy epoch.(LpEpoch.positions)) in
          let nextPositions := jsSet to (recipient <| LpPos.shares := recipient.(LpPos.shares) + amount |>
                                                   <| LpPos.correction := recipientCorrection |>)
                                     afterSender in
          updateEpoch (epoch <| LpEpoch.positions := nextPositions |>)
  end.

(** The first unconsumed custody route a downstream receipt can pair with. *)
Definition findRoute (g : Group.EventGroup) (consumed : list EventId) (b : Base.EventBase)
    (epoch amount : Z) (vault : Address)
    : option (Base.EventBase * CustodyRewardsRouted.CustodyRewardsRoutedEvent) :=
  arrayFind (fun candidate =>
    negb (includes candidate.1.(Base.id) consumed)
    && bool_decide (candidate.2.(CustodyRewardsRouted.epoch) = epoch)
    && bool_decide (candidate.2.(CustodyRewardsRouted.amount) = amount)
    && bool_decide (candidate.2.(CustodyRewardsRouted.lpRewardVault) = vault)
    && bool_decide (candidate.1.(Base.eventIndex) < b.(Base.eventIndex))) (routesOf g).

(** Consumes the route found, or alerts. *)
Definition consumeRoute (b : Base.EventBase) (message : string)
    (route : option (Base.EventBase * CustodyRewardsRouted.CustodyRewardsRoutedEvent)) : Replay unit :=
  match route with
  | None => alert b ROUTE_PAIR message None None
  | Some r => addConsumedRoute r.1.(Base.id)
  end.

(** [case "LpRewardIndexAdvanced"] *)
Definition onLpRewardIndexAdvanced (g : Group.EventGroup) (b : Base.EventBase)
    (e : LpRewardIndexAdvanced.LpRewardIndexAdvancedEvent) : Replay unit :=
  let received := e.(LpRewardIndexAdvanced.received) in
  found ← requireEpoch b e.(LpRewardIndexAdvanced.epoch);
  match found with
  | None => mret tt
  | Some epoch =>
      context ← getContext;
      consumeRoute b "LP index receipt has no preceding equal core custody route."
        (findRoute g context.(Ctx.consumedRoutes) b e.(LpRewardIndexAdvanced.epoch) received
           epoch.(LpEpoch.rewardVault)) ;;
      next ← getNext;
      alertIf (bool_decide (next.(Proj.activeLpEpoch) <> Some e.(LpRewardIndexAdvanced.epoch)))
        b OLD_EPOCH_ROUTE "LP index advanced outside the active epoch." None None ;;
      if bool_decide (epoch.(LpEpoch.totalShares) <= 0)
      then alert b LP_ACCOUNTING "LP index cannot advance with zero shares." None None
      else
        scaled ← lift (checkedMoveU256Multiply received REFLECTION_MAGNITUDE "LP reward index numerator");
        numerator ← lift (checkedMoveU256Add scaled epoch.(LpEpoch.indexRemainder) "LP reward index numerator with remainder");
        increment ← lift (bigintDivide numerator epoch.(LpEpoch.totalShares));
        expectedIndex ← lift (checkedMoveU256Add epoch.(LpEpoch.index) increment "LP reward index");
        expectedRemainder ← lift (bigintRemainder numerator epoch.(LpEpoch.totalShares));
        lifetimeReceived ← lift (checkedMoveU256Add epoch.(LpEpoch.lifetimeReceived) received "LP lifetime received");
        let nextEpoch := epoch <| LpEpoch.index := e.(LpRewardIndexAdvanced.newIndex) |>
                               <| LpEpoch.indexRemainder := e.(LpRewardIndexAdvanced.indexRemainder) |>
                               <| LpEpoch.lifetimeReceived := lifetimeReceived |> in
        calculatedRounding ← lift (lpRounding nextEpoch nextEpoch.(LpEpoch.unallocatedRewards) "LP index rounding reserve");
        alertIf (bool_decide (e.(LpRewardIndexAdvanced.previousIndex) <> epoch.(LpEpoch.index))
            || bool_decide (e.(LpRewardIndexAdvanced.newIndex) <> expectedIndex)
            || bool_decide (e.(LpRewardIndexAdvanced.indexRemainder) <> expectedRemainder)
            || bool_decide (e.(LpRewardIndexAdvanced.totalShares) <> epoch.(LpEpoch.totalShares))
            || bool_decide (e.(LpRewardIndexAdvanced.roundingReserve) <> calculatedRounding))
          b LP_ACCOUNTING "LP reward index or rounding receipt disagrees with independent arithmetic."
          (Some (joinWith "/" (map show [epoch.(LpEpoch.index); expectedIndex; expectedRemainder;
                                         epoch.(LpEpoch.totalShares); calculatedRounding])))
          (Some (joinWith "/" (map show [e.(LpRewardIndexAdvanced.previousIndex);
                                         e.(LpRewardIndexAdvanced.newIndex);
                                         e.(LpRewardIndexAdvanced.indexRemainder);
                                         e.(LpRewardIndexAdvanced.totalShares);
                                         e.(LpRewardIndexAdvanced.roundingReserve)]))) ;;
        updateEpoch (nextEpoch <| LpEpoch.roundingReserve := calculatedRounding |>)
  end.

(** [case "LpRewardQuarantined"] *)
Definition onLpRewardQuarantined (g : Group.EventGroup) (b : Base.EventBase)
    (e : LpRewardQuarantined.LpRewardQuarantinedEvent) : Replay unit :=
  let amount := e.(LpRewardQuarantined.amount) in
  found ← requireEpoch b e.(LpRewardQuarantined.epoch);
  match found with
  | None => mret tt
  | Some epoch =>
      context ← getContext;
      consumeRoute b "LP quarantine receipt has no preceding equal custody route."
        (findRoute g context.(Ctx.consumedRoutes) b e.(LpRewardQuarantined.epoch) amount
           e.(LpRewardQuarantined.rewardVault)) ;;
      next ← getNext;
      alertIf (bool_decide (next.(Proj.activeLpEpoch) <> Some e.(LpRewardQuarantined.epoch))
          || bool_decide (epoch.(LpEpoch.status) <> active)
          || bool_decide (epoch.(LpEpoch.totalShares) <> 0)
          || bool_decide (epoch.(LpEpoch.rewardVault) <> e.(LpRewardQuarantined.rewardVault)))
        b LP_ACCOUNTING
        "LP reward quarantine is valid only for the empty active epoch and its bound vault." None None ;;
      let unallocatedRewards := epoch.(LpEpoch.unallocatedRewards) + amount in
      alertIf (bool_decide (unallocatedRewards <> e.(LpRewardQuarantined.unallocatedRewards)))
        b LP_ACCOUNTING "LP quarantine cumulative unallocated amount disagrees with replay."
        (Some (show unallocatedRewards)) (Some (show e.(LpRewardQuarantined.unallocatedRewards))) ;;
      lifetimeReceived ← lift (checkedMoveU256Add epoch.(LpEpoch.lifetimeReceived) amount "quarantined LP lifetime received");
      let nextEpoch := epoch <| LpEpoch.lifetimeReceived := lifetimeReceived |>
                             <| LpEpoch.unallocatedRewards := unallocatedRewards |>
                             <| LpEpoch.quarantined := true |> in
      rounding ← lift (lpRounding nextEpoch unallocatedRewards "quarantined LP rounding reserve");
      updateEpoch (nextEpoch <| LpEpoch.roundingReserve := rounding |>)
  end.

(** [case "LpRewardsClaimed"] *)
Definition onLpRewardsClaimed (b : Base.EventBase) (e : LpRewardsClaimed.LpRewardsClaimedEvent) : Replay unit :=
  let amount := e.(LpRewardsClaimed.amount) in
  let owner := e.(LpRewardsClaimed.owner) in
  found ← requireEpoch b e.(LpRewardsClaimed.epoch);
  match found with
  | None => mret tt
  | Some epoch =>
      let current := lpPositionOrEmpty owner epoch.(LpEpoch.positions) in
      pending ← lift (lpPositionPending current epoch);
      alertIf (bool_decide (amount <= 0) || bool_decide (amount > pending)) b LP_ACCOUNTING
        "LP claim exceeds independently calculated pending rewards."
        (Some (show pending)) (Some (show amount)) ;;
      claimed ← lift (checkedMoveU256Add current.(LpPos.claimed) amount "LP position cumulative claim");
      alertIf (bool_decide (claimed <> e.(LpRewardsClaimed.totalClaimed))) b POSITION_ACCOUNTING
        "LP position cumulative claim disagrees with replay."
        (Some (show claimed)) (Some (show e.(LpRewardsClaimed.totalClaimed))) ;;
      lifetimeClaimed ← lift (checkedMoveU256Add epoch.(LpEpoch.lifetimeClaimed) amount "LP lifetime claimed");
      updateEpoch (epoch <| LpEpoch.positions := jsSet owner (current <| LpPos.claimed := claimed |>)
                                                   (jsCopy epoch.(LpEpoch.positions)) |>
                         <| LpEpoch.lifetimeClaimed := lifetimeClaimed |>) ;;
      adjustWalletAsset owner tRFL amount b
  end.
