(* ===== verification/PoolHandlers.v ===== *)
(** * Fees, custody, swaps and liquidity: the pool cases of the event loop of [reducer.ts] *)
From S2P Require Import Prelude JsMap Types MoveDomains Accounting Replay Group WalletHandlers.
From S2P Require Import LpHandlers.

(** [value?.toString() ?? "none"] *)
Definition showOrNone (value : option Z) : string := from_option show "none" value.

(** The divisor [BPS_DENOMINATOR] is a nonzero constant. *)
Definition bpsOf (amount bps : Z) : Z := Z.quot (amount * bps) BPS_DENOMINATOR.

(** [case "CustodyAdapterRegistered"] *)
Definition onCustodyAdapterRegistered (b : Base.EventBase)
    (e : CustodyAdapterRegistered.CustodyAdapterRegisteredEvent) : Replay unit :=
  next ← getNext;
  alertIf (bool_decide (e.(CustodyAdapterRegistered.adapterId) <= 0)
      || bool_decide (e.(CustodyAdapterRegistered.firstEpoch) <> 1)
      || bool_decide (next.(Proj.custody).(Custody.adapterId) <> None)
      || bool_decide (next.(Proj.custody).(Custody.reserveStore) <> None)
      || jsHas e.(CustodyAdapterRegistered.lpRewardVault) next.(Proj.rewardVaultToEpoch))
    b IDENTIFIER_REUSE
    "Canonical custody adapter, reserve, or first LP vault was registered more than once." None None ;;
  modifyNext (fun next => next <| Proj.custody :=
    next.(Proj.custody) <| Custody.adapterId := Some e.(CustodyAdapterRegistered.adapterId) |>
                        <| Custody.reserveStore := Some e.(CustodyAdapterRegistered.reserveStore) |>
                        <| Custody.activeRouteEpoch := Some e.(CustodyAdapterRegistered.firstEpoch) |>
                        <| Custody.activeLpRewardVault := Some e.(CustodyAdapterRegistered.lpRewardVault) |> |>).

(** The fresh route breaks the immutable binding: the tests run left to right,
    so [custodyPending], which can throw, is reached only when all others pass. *)
Definition routeOpeningBroken (next : Proj.ProtocolProjection)
    (e : CustodyEpochRouteOpened.CustodyEpochRouteOpenedEvent) : Outcome bool :=
  let epochId := e.(CustodyEpochRouteOpened.epoch) in
  if bool_decide (next.(Proj.custody).(Custody.adapterId) <> Some e.(CustodyEpochRouteOpened.adapterId))
     || bool_decide (next.(Proj.custody).(Custody.reserveStore) <> Some e.(CustodyEpochRouteOpened.reserveStore))
  then Returns true
  else match jsGet epochId next.(Proj.lpEpochs) with
  | None => Returns true
  | Some epoch =>
      if bool_decide (epoch.(LpEpoch.rewardVault) <> e.(CustodyEpochRouteOpened.lpRewardVault))
         || bool_decide (epoch.(LpEpoch.status) <> active)
         || bool_decide (next.(Proj.activeLpEpoch) <> Some epochId)
         || bool_decide (next.(Proj.custody).(Custody.shares) <> 0)
      then Returns true
      else pending ← custodyPending next; Returns (bool_decide (pending <> 0))
  end.

(** [case "CustodyEpochRouteOpened"] *)
Definition onCustodyEpochRouteOpened (b : Base.EventBase)
    (e : CustodyEpochRouteOpened.CustodyEpochRouteOpenedEvent) : Replay unit :=
  let epochId := e.(CustodyEpochRouteOpened.epoch) in
  let retired := e.(CustodyEpochRouteOpened.retiredResidueMagnified) in
  next ← getNext;
  broken ← lift (routeOpeningBroken next e);
  alertIf broken b VAULT_BINDING
    "Fresh custody route does not continue the immutable adapter/reserve/epoch binding." None None ;;
  alertIf (match next.(Proj.custody).(Custody.activeRouteEpoch) with
           | Some activeRouteEpoch => bool_decide (epochId <> activeRouteEpoch + 1)
           | None => false
           end)
    b OLD_EPOCH_ROUTE "Custody route epochs must advance exactly once." None None ;;
  let custody := next.(Proj.custody) in
  throwIf (bool_decide (custody.(Custody.correction) < 0))
    (RangeError "custody route correction cannot be negative during residue normalization") ;;
  normalizedCustodyClaim ← lift (checkedMoveU256Multiply custody.(Custody.claimed) REFLECTION_MAGNITUDE "custody normalized claim");
  expectedResidue ← lift (checkedMoveU256Subtract custody.(Custody.correction) normalizedCustodyClaim "custody route residue");
  alertIf (bool_decide (expectedResidue < 0) || bool_decide (expectedResidue >= REFLECTION_MAGNITUDE)
           || bool_decide (retired <> expectedResidue))
    b CUSTODY_ACCOUNTING
    "Custody route did not retire exactly the prior epoch's fractional magnified residue."
    (Some (show expectedResidue)) (Some (show retired)) ;;
  aggregateCorrection ← lift (checkedMoveSignedU256SubtractUnsigned next.(Proj.aggregateCorrection) retired "aggregate custody residue correction");
  correction ← lift (checkedMoveSignedU256SubtractUnsigned custody.(Custody.correction) retired "custody residue correction");
  modifyNext (fun next =>
    next <| Proj.aggregateCorrection := aggregateCorrection |>
         <| Proj.custody := next.(Proj.custody)
              <| Custody.activeRouteEpoch := Some epochId |>
              <| Custody.activeLpRewardVault := Some e.(CustodyEpochRouteOpened.lpRewardVault) |>
              <| Custody.correction := correction |> |>).

(** A sell debits its wallet once: at the fee receipt, or at the swap receipt
    of a fee-free sell. *)
Definition debitSellOnce (b : Base.EventBase) (swap : SwapExecuted.SwapExecutedEvent) : Replay unit :=
  context ← getContext;
  when (bool_decide (swap.(SwapExecuted.direction) = sell) && negb context.(Ctx.sellWalletDebited))
    (adjustWalletAsset swap.(SwapExecuted.account) tRFL (- swap.(SwapExecuted.grossAmount)) b ;;
     setSellWalletDebited).

(** [case "ReflectionFeeCollected"] *)
Definition onReflectionFeeCollected (g : Group.EventGroup) (b : Base.EventBase)
    (e : ReflectionFeeCollected.ReflectionFeeCollectedEvent) : Replay unit :=
  match head (swapsOf g) with
  | Some (_, swap) => debitSellOnce b swap
  | None => mret tt
  end ;;
  let feeAmount := e.(ReflectionFeeCollected.feeAmount) in
  let feeBps := e.(ReflectionFeeCollected.feeBps) in
  let expectedFee := bpsOf e.(ReflectionFeeCollected.grossAmount) feeBps in
  next ← getNext;
  let maximumFeeBps := if bool_decide (next.(Proj.packageVersion) = "testnet-v0.2.0") then 500 else 100 in
  alertIf (bool_decide (feeBps > maximumFeeBps)
      || bool_decide (feeBps <> next.(Proj.feeBps))
      || bool_decide (feeAmount <> expectedFee)
      || bool_decide (e.(ReflectionFeeCollected.swapTxHash) <> b.(Base.txHash)))
    b FEE_FORMULA
    "Reflection fee receipt does not match configured floor arithmetic and transaction identity." None None ;;
  rewardVaultCredits ← lift (checkedMoveU256Add next.(Proj.rewardVaultCredits) feeAmount "core reward-vault credits");
  lifetimeSwapFees ← lift (checkedMoveU256Add next.(Proj.lifetimeSwapFees) feeAmount "core lifetime fees");
  modifyNext (fun next => next <| Proj.rewardVaultCredits := rewardVaultCredits |>
                               <| Proj.lifetimeSwapFees := lifetimeSwapFees |>) ;;
  after ← getContext;
  setPendingCoreFees (after.(Ctx.pendingCoreFees)
    ++ [mkPendingCoreFee b e after.(Ctx.next).(Proj.eligibleSupply)]).

(** [case "ReflectionIndexAdvanced"]: takes the oldest pending fee. *)
Definition onReflectionIndexAdvanced (b : Base.EventBase)
    (e : ReflectionIndexAdvanced.ReflectionIndexAdvancedEvent) : Replay unit :=
  context ← getContext;
  match context.(Ctx.pendingCoreFees) with
  | [] =>
      alert b TRANSACTION_GROUP "Global index advanced without a preceding fee receipt." None None
  | pending :: rest =>
      setPendingCoreFees rest ;;
      let shares := pending.(sharesAtCollection) in
      let fee := pending.(pcf_event).(ReflectionFeeCollected.feeAmount) in
      if bool_decide (shares <= 0)
      then alert b GLOBAL_INDEX "Global index advanced with a zero denominator." None None
      else
        next ← getNext;
        scaled ← lift (checkedMoveU256Multiply fee REFLECTION_MAGNITUDE "core index fee numerator");
        numerator ← lift (checkedMoveU256Add scaled next.(Proj.indexRemainder) "core index numerator with remainder");
        increment ← lift (bigintDivide numerator shares);
        expectedIndex ← lift (checkedMoveU256Add next.(Proj.currentIndex) increment "core reflection index");
        expectedRemainder ← lift (bigintRemainder numerator shares);
        alertIf (bool_decide (e.(ReflectionIndexAdvanced.feeAmount) <> fee)
            || bool_decide (e.(ReflectionIndexAdvanced.previousIndex) <> next.(Proj.currentIndex))
            || bool_decide (e.(ReflectionIndexAdvanced.newIndex) <> expectedIndex)
            || bool_decide (e.(ReflectionIndexAdvanced.indexRemainder) <> expectedRemainder)
            || bool_decide (e.(ReflectionIndexAdvanced.eligibleSupply) <> shares)
            || bool_decide (e.(ReflectionIndexAdvanced.eligibleSupply) <> next.(Proj.eligibleSupply)))
          b GLOBAL_INDEX "Global index event disagrees with the independent fee/share calculation."
          (Some (joinWith "/" (map show [next.(Proj.currentIndex); expectedIndex; expectedRemainder; shares])))
          (Some (joinWith "/" (map show [e.(ReflectionIndexAdvanced.previousIndex);
                                         e.(ReflectionIndexAdvanced.newIndex);
                                         e.(ReflectionIndexAdvanced.indexRemainder);
                                         e.(ReflectionIndexAdvanced.eligibleSupply)]))) ;;
        modifyNext (fun next => next <| Proj.currentIndex := e.(ReflectionIndexAdvanced.newIndex) |>
                                     <| Proj.indexRemainder := e.(ReflectionIndexAdvanced.indexRemainder) |>)
  end.

(** [case "CustodySharesChanged"] *)
Definition onCustodySharesChanged (b : Base.EventBase)
    (e : CustodySharesChanged.CustodySharesChangedEvent) : Replay unit :=
  let amount := e.(CustodySharesChanged.amount) in
  let added := e.(CustodySharesChanged.added) in
  throwIf (bool_decide (amount <= 0)) (RangeError "custody share mutation must be positive") ;;
  let delta := if added then amount else - amount in
  next ← getNext;
  let current := next.(Proj.custody) in
  throwIf (bool_decide (current.(Custody.shares) + delta < 0)) (RangeError "custody shares cannot underflow") ;;
  correctionDelta ← lift (checkedMoveU256Multiply amount next.(Proj.currentIndex) "custody correction delta");
  correction ← lift (if added
    then checkedMoveSignedU256SubtractUnsigned current.(Custody.correction) correctionDelta "custody correction"
    else checkedMoveSignedU256AddUnsigned current.(Custody.correction) correctionDelta "custody correction");
  aggregateCorrection ← lift (if added
    then checkedMoveSignedU256SubtractUnsigned next.(Proj.aggregateCorrection) correctionDelta "aggregate custody correction"
    else checkedMoveSignedU256AddUnsigned next.(Proj.aggregateCorrection) correctionDelta "aggregate custody correction");
  let custody := current <| Custody.shares := current.(Custody.shares) + delta |>
                         <| Custody.correction := correction |> in
  let eligibleSupply := next.(Proj.eligibleSupply) + delta in
  modifyNext (fun next => next <| Proj.custody := custody |>
                               <| Proj.eligibleSupply := eligibleSupply |>
                               <| Proj.aggregateCorrection := aggregateCorrection |>) ;;
  alertIf (bool_decide (custody.(Custody.shares) <> e.(CustodySharesChanged.custodyShares))
           || bool_decide (eligibleSupply <> e.(CustodySharesChanged.globalShares)))
    b CUSTODY_ACCOUNTING "Custody/global post-mutation shares disagree with replay."
    (Some (slash custody.(Custody.shares) eligibleSupply))
    (Some (slash e.(CustodySharesChanged.custodyShares) e.(CustodySharesChanged.globalShares))).

(** [case "CustodyRewardsRouted"] *)
Definition onCustodyRewardsRouted (b : Base.EventBase)
    (e : CustodyRewardsRouted.CustodyRewardsRoutedEvent) : Replay unit :=
  let epochId := e.(CustodyRewardsRouted.epoch) in
  let amount := e.(CustodyRewardsRouted.amount) in
  let vault := e.(CustodyRewardsRouted.lpRewardVault) in
  found ← requireEpoch b epochId;
  next ← getNext;
  let custody := next.(Proj.custody) in
  alertIf (bool_decide (next.(Proj.activeLpEpoch) <> Some epochId)
           || bool_decide (custody.(Custody.activeRouteEpoch) <> Some epochId))
    b OLD_EPOCH_ROUTE "Custody rewards were routed to a non-active LP/custody epoch."
    (Some (showOrNone next.(Proj.activeLpEpoch) ⧺ "/" ⧺ showOrNone custody.(Custody.activeRouteEpoch)))
    (Some (show epochId)) ;;
  match found with
  | Some epoch =>
      alertIf (bool_decide (epoch.(LpEpoch.rewardVault) <> vault)) b VAULT_BINDING
        "Custody route vault disagrees with the epoch's immutable vault binding."
        (Some epoch.(LpEpoch.rewardVault)) (Some vault)
  | None => mret tt
  end ;;
  alertIf (bool_decide (custody.(Custody.activeLpRewardVault) <> Some vault)) b VAULT_BINDING
    "Custody route does not target the adapter's active LP vault."
    (Some (default "none" custody.(Custody.activeLpRewardVault))) (Some vault) ;;
  match custody.(Custody.reserveStore) with
  | Some reserveStore =>
      alertIf (bool_decide (reserveStore <> e.(CustodyRewardsRouted.reserveStore))) b VAULT_BINDING
        "Canonical custody reserve identifier changed after registration."
        (Some reserveStore) (Some e.(CustodyRewardsRouted.reserveStore))
  | None => mret tt
  end ;;
  pending ← lift (custodyPending next);
  alertIf (bool_decide (amount <> pending) || bool_decide (amount <= 0)) b CUSTODY_ACCOUNTING
    "Custody route must settle the exact whole pending amount."
    (Some (show pending)) (Some (show amount)) ;;
  claimed ← lift (checkedMoveU256Add custody.(Custody.claimed) amount "custody cumulative routed");
  alertIf (bool_decide (claimed <> e.(CustodyRewardsRouted.totalRouted))) b CUSTODY_ACCOUNTING
    "Custody cumulative routed amount disagrees with replay."
    (Some (show claimed)) (Some (show e.(CustodyRewardsRouted.totalRouted))) ;;
  lifetimeRouted ← lift (checkedMoveU256Add custody.(Custody.lifetimeRouted) amount "custody lifetime routed");
  lifetimeCustodyRouted ← lift (checkedMoveU256Add next.(Proj.lifetimeCustodyRouted) amount "core lifetime custody routed");
  rewardVaultPayouts ← lift (checkedMoveU256Add next.(Proj.rewardVaultPayouts) amount "core reward-vault payouts");
  modifyNext (fun next =>
    next <| Proj.custody := next.(Proj.custody)
              <| Custody.reserveStore :=
                   Some (default e.(CustodyRewardsRouted.reserveStore) next.(Proj.custody).(Custody.reserveStore)) |>
              <| Custody.claimed := claimed |>
              <| Custody.lifetimeRouted := lifetimeRouted |> |>
         <| Proj.lifetimeCustodyRouted := lifetimeCustodyRouted |>
         <| Proj.rewardVaultPayouts := rewardVaultPayouts |>).

(** ** Swaps *)

(** The amounts a swap receipt is checked against. *)
Module Quote.
Record SwapQuote := mk {
  expectedReflectionFee : Z;
  expectedReserveInput : Z;
  expectedTrflReserve : Z;
  expectedTusdReserve : Z;
  expectedAmmFee : Z;
  expectedGrossOutput : Z;
  expectedNetReceipt : Z
}.
End Quote.

(** The independent arithmetic of [case "SwapExecuted"], on the projection the
    settlement has reached; dividing by an empty input side throws. *)
Definition quoteSwapReceipt (next : Proj.ProtocolProjection) (e : SwapExecuted.SwapExecutedEvent)
    : Outcome Quote.SwapQuote :=
  let isSell := bool_decide (e.(SwapExecuted.direction) = sell) in
  let gross := e.(SwapExecuted.grossAmount) in
  let pool := next.(Proj.pool) in
  let expectedReflectionFee :=
    if isSell then bpsOf gross next.(Proj.feeBps)
    else bpsOf e.(SwapExecuted.grossPoolOutput) next.(Proj.feeBps) in
  let expectedReserveInput := if isSell then gross - e.(SwapExecuted.reflectionFee) else gross in
  let expectedTrflReserve :=
    if isSell then pool.(Pool.trflReserve) + e.(SwapExecuted.netReserveInput)
    else pool.(Pool.trflReserve) - e.(SwapExecuted.grossPoolOutput) in
  let expectedTusdReserve :=
    if isSell then pool.(Pool.tusdReserve) - e.(SwapExecuted.grossPoolOutput)
    else pool.(Pool.tusdReserve) + e.(SwapExecuted.netReserveInput) in
  let ammGrossInput := if isSell then e.(SwapExecuted.netReserveInput) else gross in
  let invariantInput := bpsOf ammGrossInput (BPS_DENOMINATOR - pool.(Pool.ammFeeBps)) in
  let expectedAmmFee := ammGrossInput - invariantInput in
  let reserveIn := if isSell then pool.(Pool.trflReserve) else pool.(Pool.tusdReserve) in
  let reserveOut := if isSell then pool.(Pool.tusdReserve) else pool.(Pool.trflReserve) in
  expectedGrossOutput ← bigintDivide (reserveOut * invariantInput) (reserveIn + invariantInput);
  let expectedNetReceipt :=
    if isSell then expectedGrossOutput else expectedGrossOutput - expectedReflectionFee in
  Returns (Quote.mk expectedReflectionFee expectedReserveInput expectedTrflReserve
             expectedTusdReserve expectedAmmFee expectedGrossOutput expectedNetReceipt).

(** [case "SwapExecuted"] *)
Definition onSwapExecuted (b : Base.EventBase) (e : SwapExecuted.SwapExecutedEvent) : Replay unit :=
  let account := e.(SwapExecuted.account) in
  debitSellOnce b e ;;
  (if bool_decide (e.(SwapExecuted.direction) = sell)
   then adjustWalletAsset account tUSD e.(SwapExecuted.netUserReceipt) b
   else adjustWalletAsset account tUSD (- e.(SwapExecuted.grossAmount)) b ;;
        adjustWalletAsset account tRFL e.(SwapExecuted.netUserReceipt) b) ;;
  next ← getNext;
  quote ← lift (quoteSwapReceipt next e);
  alertIf (bool_decide (e.(SwapExecuted.reflectionFee) <> quote.(Quote.expectedReflectionFee))
      || bool_decide (e.(SwapExecuted.netReserveInput) <> quote.(Quote.expectedReserveInput))
      || bool_decide (e.(SwapExecuted.ammFee) <> quote.(Quote.expectedAmmFee))
      || bool_decide (e.(SwapExecuted.grossPoolOutput) <> quote.(Quote.expectedGrossOutput))
      || bool_decide (e.(SwapExecuted.netUserReceipt) <> quote.(Quote.expectedNetReceipt)))
    b FEE_FORMULA
    "Swap receipt disagrees with reflection/AMM fee and constant-product arithmetic." None None ;;
  alertIf (bool_decide (e.(SwapExecuted.trflReserveAfter) <> quote.(Quote.expectedTrflReserve))
      || bool_decide (e.(SwapExecuted.tusdReserveAfter) <> quote.(Quote.expectedTusdReserve)))
    b POOL_RESERVES "Swap reserve movement does not match its direction and amounts."
    (Some (slash quote.(Quote.expectedTrflReserve) quote.(Quote.expectedTusdReserve)))
    (Some (slash e.(SwapExecuted.trflReserveAfter) e.(SwapExecuted.tusdReserveAfter))) ;;
  modifyNext (fun next => next <| Proj.pool := next.(Proj.pool)
    <| Pool.trflReserve := e.(SwapExecuted.trflReserveAfter) |>
    <| Pool.tusdReserve := e.(SwapExecuted.tusdReserveAfter) |> |>).

(** ** Liquidity *)

(** [invalidAmounts] *)
Definition invalidLiquidityAmounts (priorShutdown : bool) (e : Liq.LiquidityReceipt) : bool :=
  let trfl := e.(Liq.trflAmount) in
  let tusd := e.(Liq.tusdAmount) in
  let removed := bool_decide (e.(Liq.kind) = Removed) in
  let oneSidedRemoval := removed && xorb (bool_decide (trfl = 0)) (bool_decide (tusd = 0)) in
  bool_decide (e.(Liq.lpShares) <= 0)
  || bool_decide (trfl < 0)
  || bool_decide (tusd < 0)
  || (bool_decide (trfl = 0) && bool_decide (tusd = 0))
  || (negb removed && (bool_decide (trfl = 0) || bool_decide (tusd = 0)))
  || (oneSidedRemoval && negb priorShutdown).

(** [case "LiquiditySeeded": case "LiquidityAdded": case "LiquidityRemoved"] *)
Definition onLiquidity (g : Group.EventGroup) (b : Base.EventBase) (e : Liq.LiquidityReceipt) : Replay unit :=
  let provider := e.(Liq.provider) in
  let trfl := e.(Liq.trflAmount) in
  let tusd := e.(Liq.tusdAmount) in
  let removedFinally := bool_decide (e.(Liq.kind) = Removed) && e.(Liq.finalExit) in
  next ← getNext;
  alertIf (bool_decide (next.(Proj.packageVersion) = "testnet-v0.2.0")
      && bool_decide (e.(Liq.kind) = Seeded)
      && (bool_decide (e.(Liq.epoch) <> 1) || bool_decide (next.(Proj.lifecycle) <> Some LIVE)
          || next.(Proj.pool).(Pool.seeded)))
    b EVENT_DATA "v0.2 permits only the launch transaction's first and only liquidity seed." None None ;;
  alertIf (invalidLiquidityAmounts g.(Group.prior).(Proj.pool).(Pool.shutdownMode) e) b EVENT_DATA
    "Liquidity shares must be positive; both assets are required except a one-sided, non-empty shutdown removal."
    None None ;;
  let sign := if bool_decide (e.(Liq.kind) = Removed) then -1 else 1 in
  let expectedTrfl := next.(Proj.pool).(Pool.trflReserve) + sign * trfl in
  let expectedTusd := next.(Proj.pool).(Pool.tusdReserve) + sign * tusd in
  alertIf (bool_decide (e.(Liq.trflReserveAfter) <> expectedTrfl)
           || bool_decide (e.(Liq.tusdReserveAfter) <> expectedTusd))
    b POOL_RESERVES "Liquidity receipt reserve totals disagree with replay."
    (Some (slash expectedTrfl expectedTusd))
    (Some (slash e.(Liq.trflReserveAfter) e.(Liq.tusdReserveAfter))) ;;
  match e.(Liq.kind) with
  | Added =>
      adjustWalletAsset provider tRFL (- trfl) b ;;
      adjustWalletAsset provider tUSD (- tusd) b
  | Removed =>
      when (bool_decide (trfl > 0)) (adjustWalletAsset provider tRFL trfl b) ;;
      when (bool_decide (tusd > 0)) (adjustWalletAsset provider tUSD tusd b)
  | Seeded => mret tt
  end ;;
  modifyNext (fun next =>
    let pool := next.(Proj.pool) in
    next <| Proj.pool :=
      pool <| Pool.trflReserve := e.(Liq.trflReserveAfter) |>
           <| Pool.tusdReserve := e.(Liq.tusdReserveAfter) |>
           <| Pool.seeded := if bool_decide (e.(Liq.kind) = Seeded) then true
                             else if removedFinally then false else pool.(Pool.seeded) |>
           <| Pool.shutdownMode := if removedFinally then false else pool.(Pool.shutdownMode) |> |>).
