(* ===== verification/ConfigHandlers.v ===== *)
(** * Deployment, limits, pauses and administrators: the configuration cases of [reducer.ts] *)
From S2P Require Import Prelude JsMap Types Replay Group WalletHandlers.

(** The first generation's marker and the second's. *)
Definition UNINITIALIZED : string := "uninitialized".
Definition V02 : string := "testnet-v0.2.0".

(** [case "ProtocolInitialized"] *)
Definition onProtocolInitialized (b : Base.EventBase)
    (e : ProtocolInitialized.ProtocolInitializedEvent) : Replay unit :=
  next ← getNext;
  alertIf (bool_decide (next.(Proj.packageVersion) <> UNINITIALIZED)) b IDENTIFIER_REUSE
    "Protocol initialization appeared more than once." None None ;;
  alertIf (bool_decide (e.(ProtocolInitialized.feeBps) > 100)) b EVENT_DATA
    "Protocol initialized with a reflection fee above 100 bps." None None ;;
  alertIf (bool_decide (e.(ProtocolInitialized.deploymentId) = "")
      || bool_decide (e.(ProtocolInitialized.networkLabel) <> "cedra-testnet")
      || bool_decide (e.(ProtocolInitialized.protocolExclusionSlots) <> 2))
    b EVENT_DATA "Protocol initialization identity or exclusion-slot policy is invalid." None None ;;
  modifyNext (fun next =>
    next <| Proj.deploymentId := e.(ProtocolInitialized.deploymentId) |>
         <| Proj.networkLabel := e.(ProtocolInitialized.networkLabel) |>
         <| Proj.tokenMetadata := Some e.(ProtocolInitialized.tokenMetadata) |>
         <| Proj.protocolExclusionSlots := e.(ProtocolInitialized.protocolExclusionSlots) |>
         <| Proj.protocolExclusionsRemaining := e.(ProtocolInitialized.protocolExclusionSlots) |>
         <| Proj.automaticMaterialization := e.(ProtocolInitialized.automaticMaterialization) |>
         <| Proj.feeBps := e.(ProtocolInitialized.feeBps) |>
         <| Proj.currentIndex := e.(ProtocolInitialized.initialIndex) |>
         <| Proj.packageVersion := e.(ProtocolInitialized.packageVersion) |>
         <| Proj.rewardVault := Some e.(ProtocolInitialized.rewardVault) |>
         <| Proj.distributionVault := Some e.(ProtocolInitialized.distributionVault) |>).

(** [case "TokenCreated"] *)
Definition onTokenCreated (b : Base.EventBase) (e : TokenCreated.TokenCreatedEvent) : Replay unit :=
  next ← getNext;
  alertIf (bool_decide (next.(Proj.packageVersion) <> UNINITIALIZED)) b IDENTIFIER_REUSE
    "Token creation appeared more than once." None None ;;
  alertIf (bool_decide (e.(TokenCreated.eventSchema) <> "v0.2")
      || bool_decide (e.(TokenCreated.packageVersion) <> V02)
      || bool_decide (e.(TokenCreated.networkLabel) <> "cedra-testnet")
      || bool_decide (e.(TokenCreated.reflectionFeeBps) > 500)
      || bool_decide (e.(TokenCreated.totalSupply) <> 1000000000000000)
      || bool_decide (e.(TokenCreated.decimals) <> 6))
    b EVENT_DATA "v0.2 TokenCreated identity or immutable creation parameters are invalid." None None ;;
  modifyNext (fun next =>
    next <| Proj.deploymentId := e.(TokenCreated.deploymentId) |>
         <| Proj.networkLabel := e.(TokenCreated.networkLabel) |>
         <| Proj.tokenMetadata := Some e.(TokenCreated.tokenMetadata) |>
         <| Proj.protocolExclusionSlots := 0 |>
         <| Proj.protocolExclusionsRemaining := 0 |>
         <| Proj.automaticMaterialization := true |>
         <| Proj.feeBps := e.(TokenCreated.reflectionFeeBps) |>
         <| Proj.packageVersion := e.(TokenCreated.packageVersion) |>
         <| Proj.lifecycle := Some CONFIGURING |>
         <| Proj.rewardVault := Some e.(TokenCreated.rewardVault) |>
         <| Proj.distributionVault := Some e.(TokenCreated.distributionVault) |>).

(** [case "LaunchSealed"] *)
Definition onLaunchSealed (b : Base.EventBase) (e : LaunchSealed.LaunchSealedEvent) : Replay unit :=
  next ← getNext;
  alertIf (bool_decide (next.(Proj.packageVersion) <> V02)
      || bool_decide (next.(Proj.lifecycle) <> Some CONFIGURING)
      || bool_decide (e.(LaunchSealed.reflectionFeeBps) <> next.(Proj.feeBps))
      || bool_decide (e.(LaunchSealed.reflectionFeeBps) > 500)
      || bool_decide (e.(LaunchSealed.ammFeeBps) <> 30)
      || bool_decide (e.(LaunchSealed.maximumReserveBps) <> 2000)
      || bool_decide (e.(LaunchSealed.maximumGrossSwap) <> 100000000000)
      || bool_decide (e.(LaunchSealed.maximumRflContribution) <> 100000000000)
      || bool_decide (e.(LaunchSealed.maximumTusdContribution) <> 100000000000)
      || bool_decide (e.(LaunchSealed.maximumNonFinalWithdrawalShareBps) <> 10000)
      || bool_decide (e.(LaunchSealed.faucetTrflGrant) <> 1000000000)
      || bool_decide (e.(LaunchSealed.faucetTusdGrant) <> 1000000000)
      || bool_decide (e.(LaunchSealed.faucetCooldownSeconds) <> 3600)
      || bool_decide (e.(LaunchSealed.seedRfl) <> 500000000)
      || bool_decide (e.(LaunchSealed.seedUsd) <> 500000000)
      || bool_decide (e.(LaunchSealed.initialLpShares) <= 0))
    b EVENT_DATA "v0.2 LaunchSealed disagrees with the fixed launch envelope." None None ;;
  modifyNext (fun next =>
    next <| Proj.lifecycle := Some LIVE |>
         <| Proj.deploymentReady := true |>
         <| Proj.faucetTrflGrant := e.(LaunchSealed.faucetTrflGrant) |>
         <| Proj.faucetTusdGrant := e.(LaunchSealed.faucetTusdGrant) |>
         <| Proj.faucetCooldownSeconds := e.(LaunchSealed.faucetCooldownSeconds) |>
         <| Proj.pool := next.(Proj.pool)
              <| Pool.ammFeeBps := e.(LaunchSealed.ammFeeBps) |>
              <| Pool.maximumReserveBps := e.(LaunchSealed.maximumReserveBps) |>
              <| Pool.maximumGrossSwap := e.(LaunchSealed.maximumGrossSwap) |>
              <| Pool.maximumRflContribution := e.(LaunchSealed.maximumRflContribution) |>
              <| Pool.maximumTusdContribution := e.(LaunchSealed.maximumTusdContribution) |>
              <| Pool.maximumNonFinalWithdrawalShareBps := e.(LaunchSealed.maximumNonFinalWithdrawalShareBps) |> |>).

(** [case "PoolClosed"] *)
Definition onPoolClosed (b : Base.EventBase) (e : PoolClosed.PoolClosedEvent) : Replay unit :=
  next ← getNext;
  alertIf (bool_decide (next.(Proj.packageVersion) <> V02)
      || bool_decide (next.(Proj.lifecycle) <> Some LIVE)
      || bool_decide (e.(PoolClosed.epoch) <> 1)
      || bool_decide (e.(PoolClosed.rflReserveAfter) <> next.(Proj.pool).(Pool.trflReserve))
      || bool_decide (e.(PoolClosed.usdReserveAfter) <> next.(Proj.pool).(Pool.tusdReserve)))
    b EVENT_DATA
    "v0.2 PoolClosed is out of lifecycle order or disagrees with replayed terminal reserves." None None ;;
  modifyNext (fun next => next <| Proj.lifecycle := Some CLOSED |>).

(** The exclusion tests both exclusion cases share. *)
Definition exclusionConflict (next : Proj.ProtocolProjection) (account store : Address) : bool :=
  let stores := jsCopy next.(Proj.protocolExcludedStores) in
  jsHas account stores
  || includes store (jsValues stores)
  || jsHas account next.(Proj.registeredWallets)
  || includes store (jsValues next.(Proj.registeredWallets)).

(** [case "ProtocolPrimaryStoreExcluded"] *)
Definition onProtocolPrimaryStoreExcluded (b : Base.EventBase)
    (e : ProtocolPrimaryStoreExcluded.ProtocolPrimaryStoreExcludedEvent) : Replay unit :=
  let account := e.(ProtocolPrimaryStoreExcluded.account) in
  let store := e.(ProtocolPrimaryStoreExcluded.store) in
  let remainingSlots := e.(ProtocolPrimaryStoreExcluded.remainingSlots) in
  next ← getNext;
  alertIf (isZeroAddress account
      || isZeroAddress store
      || bool_decide (next.(Proj.protocolExclusionsRemaining) <= 0)
      || bool_decide (remainingSlots <> next.(Proj.protocolExclusionsRemaining) - 1)
      || exclusionConflict next account store)
    b IDENTIFIER_REUSE
    "Protocol publisher exclusion is zero, registered, duplicated, or exceeds the finite bootstrap slots."
    None None ;;
  modifyNext (fun next =>
    next <| Proj.protocolExclusionsRemaining := remainingSlots |>
         <| Proj.protocolExcludedStores := jsSet account store (jsCopy next.(Proj.protocolExcludedStores)) |>).

(** [case "OperationalPrimaryStoreExcluded"]: the remaining slots do not change. *)
Definition onOperationalPrimaryStoreExcluded (b : Base.EventBase)
    (e : OperationalPrimaryStoreExcluded.OperationalPrimaryStoreExcludedEvent) : Replay unit :=
  let account := e.(OperationalPrimaryStoreExcluded.account) in
  let store := e.(OperationalPrimaryStoreExcluded.store) in
  next ← getNext;
  alertIf (isZeroAddress account || isZeroAddress store || exclusionConflict next account store)
    b IDENTIFIER_REUSE
    "Operational primary-store exclusion is zero, duplicated, or reuses an already classified store."
    None None ;;
  modifyNext (fun next =>
    next <| Proj.protocolExcludedStores := jsSet account store (jsCopy next.(Proj.protocolExcludedStores)) |>).

(** [case "FaucetConfigured"] *)
Definition onFaucetConfigured (b : Base.EventBase) (e : FaucetConfigured.FaucetConfiguredEvent) : Replay unit :=
  alertIf (bool_decide (e.(FaucetConfigured.trflGrant) <= 0) || bool_decide (e.(FaucetConfigured.tusdGrant) <= 0))
    b EVENT_DATA "Faucet grants must both be positive." None None ;;
  modifyNext (fun next =>
    next <| Proj.faucetTrflGrant := e.(FaucetConfigured.trflGrant) |>
         <| Proj.faucetTusdGrant := e.(FaucetConfigured.tusdGrant) |>
         <| Proj.faucetCooldownSeconds := e.(FaucetConfigured.cooldownSeconds) |>).

(** [case "PoolReserveBound"] *)
Definition onPoolReserveBound (b : Base.EventBase) (e : PoolReserveBound.PoolReserveBoundEvent) : Replay unit :=
  next ← getNext;
  alertIf (bool_decide (next.(Proj.mockUsdPoolReserve) <> None)
      || bool_decide (e.(PoolReserveBound.reserveStore) = "0x0")
      || bool_decide (e.(PoolReserveBound.custodian) = "0x0"))
    b IDENTIFIER_REUSE "The one-shot tUSD pool reserve binding is invalid or repeated." None None ;;
  modifyNext (fun next => next <| Proj.mockUsdPoolReserve := Some e.(PoolReserveBound.reserveStore) |>).

(** The alert v0.2 raises for every configuration event it has no authority for. *)
Definition rejectInV02 (b : Base.EventBase) (message : string) : Replay unit :=
  next ← getNext;
  alertIf (bool_decide (next.(Proj.packageVersion) = V02)) b EVENT_DATA message None None.

(** [case "FeeConfigurationChanged"] *)
Definition onFeeConfigurationChanged (b : Base.EventBase)
    (e : FeeConfigurationChanged.FeeConfigurationChangedEvent) : Replay unit :=
  next ← getNext;
  (if bool_decide (next.(Proj.packageVersion) = V02)
   then alert b EVENT_DATA "v0.2 does not permit fee changes after creation." None None
   else alertIf (bool_decide (e.(FeeConfigurationChanged.oldFeeBps) <> next.(Proj.feeBps))
                 || bool_decide (e.(FeeConfigurationChanged.newFeeBps) > 100))
          b EVENT_DATA "Fee configuration does not continue replayed state or exceeds 100 bps." None None) ;;
  modifyNext (fun next => next <| Proj.feeBps := e.(FeeConfigurationChanged.newFeeBps) |>).

(** [case "FaucetPauseChanged"] *)
Definition onFaucetPauseChanged (b : Base.EventBase) (e : FaucetPauseChanged.FaucetPauseChangedEvent) : Replay unit :=
  rejectInV02 b "v0.2 has no faucet pause authority." ;;
  modifyNext (fun next => next <| Proj.faucetPaused := e.(FaucetPauseChanged.paused) |>).

(** [case "SwapLimitsChanged"] *)
Definition onSwapLimitsChanged (b : Base.EventBase) (e : SwapLimitsChanged.SwapLimitsChangedEvent) : Replay unit :=
  rejectInV02 b "v0.2 swap limits are immutable and have no configuration event." ;;
  modifyNext (fun next => next <| Proj.pool := next.(Proj.pool)
    <| Pool.ammFeeBps := e.(SwapLimitsChanged.ammFeeBps) |>
    <| Pool.maximumGrossSwap := e.(SwapLimitsChanged.maximumGrossSwap) |>
    <| Pool.maximumReserveBps := e.(SwapLimitsChanged.maximumReserveBps) |> |>).

(** [case "LiquidityLimitsChanged"] *)
Definition onLiquidityLimitsChanged (b : Base.EventBase)
    (e : LiquidityLimitsChanged.LiquidityLimitsChangedEvent) : Replay unit :=
  rejectInV02 b "v0.2 liquidity limits are immutable and have no configuration event." ;;
  let share := e.(LiquidityLimitsChanged.maximumNonFinalWithdrawalShareBps) in
  alertIf (bool_decide (e.(LiquidityLimitsChanged.maximumRflContribution) <= 0)
      || bool_decide (e.(LiquidityLimitsChanged.maximumTusdContribution) <= 0)
      || bool_decide (share <= 0)
      || bool_decide (share > BPS_DENOMINATOR))
    b EVENT_DATA
    "Liquidity contribution limits must be positive and the non-final withdrawal share limit must be between 1 and 10,000 bps."
    None None ;;
  modifyNext (fun next => next <| Proj.pool := next.(Proj.pool)
    <| Pool.maximumRflContribution := e.(LiquidityLimitsChanged.maximumRflContribution) |>
    <| Pool.maximumTusdContribution := e.(LiquidityLimitsChanged.maximumTusdContribution) |>
    <| Pool.maximumNonFinalWithdrawalShareBps := share |> |>).

(** [case "PauseStateChanged"] *)
Definition onPauseStateChanged (b : Base.EventBase) (e : PauseStateChanged.PauseStateChangedEvent) : Replay unit :=
  rejectInV02 b "v0.2 has no core pause authority." ;;
  modifyNext (fun next => next <| Proj.swapsPaused := e.(PauseStateChanged.swapsPaused) |>
                               <| Proj.claimsPaused := e.(PauseStateChanged.claimsPaused) |>).

(** [case "PoolPauseChanged"] *)
Definition onPoolPauseChanged (b : Base.EventBase) (e : PoolPauseChanged.PoolPauseChangedEvent) : Replay unit :=
  rejectInV02 b "v0.2 has no pool pause or shutdown authority." ;;
  modifyNext (fun next => next <| Proj.pool := next.(Proj.pool)
    <| Pool.poolPaused := e.(PoolPauseChanged.poolPaused) |>
    <| Pool.liquidityPaused := e.(PoolPauseChanged.liquidityPaused) |>
    <| Pool.lpClaimsPaused := e.(PoolPauseChanged.lpClaimsPaused) |>
    <| Pool.shutdownMode := e.(PoolPauseChanged.shutdownMode) |> |>).

(** [operationalAdmins[key]] and [{ ...operationalAdmins, [key]: value }];
    [None] for a scope that names no key. *)
Definition adminOfScope (scope : OperationalAdminScope) (admins : Admins.OperationalAdmins)
    : option (option Address) :=
  match scope with
  | reflection_core => Some admins.(Admins.reflectionCore)
  | test_assets => Some admins.(Admins.testAssets)
  | test_amm => Some admins.(Admins.testAmm)
  | OtherScope _ => None
  end.

Definition setAdminOfScope (scope : OperationalAdminScope) (admin : Address)
    (admins : Admins.OperationalAdmins) : Admins.OperationalAdmins :=
  match scope with
  | reflection_core => admins <| Admins.reflectionCore := Some admin |>
  | test_assets => admins <| Admins.testAssets := Some admin |>
  | test_amm => admins <| Admins.testAmm := Some admin |>
  | OtherScope _ => admins
  end.

Definition adminsComplete (admins : Admins.OperationalAdmins) : bool :=
  bool_decide (admins.(Admins.reflectionCore) <> None)
  && bool_decide (admins.(Admins.testAssets) <> None)
  && bool_decide (admins.(Admins.testAmm) <> None).

(** [case "OperationalAdminChanged"]: an unknown scope is never mapped onto a role. *)
Definition onOperationalAdminChanged (b : Base.EventBase)
    (e : OperationalAdminChanged.OperationalAdminChangedEvent) : Replay unit :=
  let scope := e.(OperationalAdminChanged.scope) in
  let oldAdmin := e.(OperationalAdminChanged.oldOperationalAdmin) in
  let newAdmin := e.(OperationalAdminChanged.newOperationalAdmin) in
  rejectInV02 b "v0.2 has no operational administrator or authority handoff." ;;
  next ← getNext;
  match adminOfScope scope next.(Proj.operationalAdmins) with
  | None =>
      alert b OPERATIONAL_ADMIN "Operational-admin event has an unsupported authority scope."
        (Some "reflection-core|test-assets|test-amm") (Some (scopeName scope))
  | Some previous =>
      let core := next.(Proj.operationalAdmins).(Admins.reflectionCore) in
      let initializing := bool_decide (previous = None) && isZeroAddress oldAdmin in
      let continuesAuthorityChain :=
        match previous with
        | None => initializing
        | Some admin => bool_decide (admin = oldAdmin)
        end in
      let hasPermanentExclusion := jsHas newAdmin next.(Proj.protocolExcludedStores) in
      let alignedToCore := bool_decide (scope = reflection_core) || bool_decide (Some newAdmin = core) in
      alertIf (negb continuesAuthorityChain
          || isZeroAddress newAdmin
          || (negb initializing && (negb hasPermanentExclusion || negb alignedToCore)))
        b OPERATIONAL_ADMIN
        "Operational-admin handoff breaks authority continuity, lacks permanent primary-store exclusion, is not aligned to core, or targets zero."
        (Some (default (default oldAdmin core) previous)) (Some newAdmin) ;;
      let operationalAdmins := setAdminOfScope scope newAdmin next.(Proj.operationalAdmins) in
      modifyNext (fun next => next <| Proj.operationalAdmins := operationalAdmins |>
                                   <| Proj.deploymentReady := adminsComplete operationalAdmins |>)
  end.

(** [default]: an unknown discriminant is never an ignorable event. *)
Definition onUnknownEvent (b : Base.EventBase) (type : string) : Replay unit :=
  alert b EVENT_DATA "Event has an unsupported runtime type and cannot be checkpointed."
    (Some "known ProtocolEvent type") (Some type).
