(* ===== verification/GroupChecks.v ===== *)
(** * Group-level receipts: what [reduceEventGroup] checks before the event loop

    Ordering and identity of the group's events, registration order, and the
    pairing of composite receipts (one terminal pool receipt, one equal custody
    receipt, one LP receipt per route, one ordered terminal sequence per full
    exit).  These checks run outside the source's [try]: a throw here would
    leave [reduceEventGroup]. *)
From S2P Require Import Prelude JsMap Types MoveDomains Replay Group WalletHandlers LpHandlers.

(** ** Integer helpers of the liquidity arithmetic *)

Definition ceilDiv (numerator denominator : Z) : Outcome Z :=
  if bool_decide (denominator <= 0) then Throws (RangeError "division denominator must be positive")
  else Returns (if bool_decide (numerator = 0) then 0 else Z.quot (numerator - 1) denominator + 1).

(** The [while] loop of [integerSqrt]. *)
Fixpoint sqrtLoop (fuel : nat) (value current next : Z) : option Z :=
  match fuel with
  | O => None
  | S fuel =>
      if bool_decide (next < current)
      then sqrtLoop fuel value next (Z.quot (next + Z.quot value next) 2)
      else Some current
  end.

(** Each round at least halves the distance to the root, which starts below [value]. *)
Definition sqrtFuel (value : Z) : nat := Z.to_nat (Z.log2 value) + 3.

Definition integerSqrt (value : Z) : Outcome Z :=
  if bool_decide (value < 0) then Throws (RangeError "square-root input cannot be negative")
  else if bool_decide (value < 2) then Returns value
  else
    let current := Z.quot value 2 + 1 in
    match sqrtLoop (sqrtFuel value) value current (Z.quot (current + Z.quot value current) 2) with
    | Some root => Returns root
    | None => Throws (mkError "OutOfFuel" "the loop of integerSqrt did not terminate")
    end.

(** ** Order and identity *)

(** [sort((left, right) => left.eventIndex - right.eventIndex)], a stable sort. *)
Fixpoint insertByIndex (event : ProtocolEvent) (sorted : list ProtocolEvent) : list ProtocolEvent :=
  match sorted with
  | [] => [event]
  | x :: rest =>
      if bool_decide (evIndex event <= evIndex x) then event :: sorted
      else x :: insertByIndex event rest
  end.
Definition sortByIndex (events : list ProtocolEvent) : list ProtocolEvent :=
  foldr insertByIndex [] events.

(** [`${ledgerVersion}:${eventIndex}`] *)
Definition cursorText (b : Base.EventBase) : string :=
  show b.(Base.ledgerVersion) ⧺ ":" ⧺ show b.(Base.eventIndex).

(** One round of the header loop. *)
Definition checkEventHeader (prior : Proj.ProtocolProjection) (first : ProtocolEvent)
    (previousEventIndex : Z) (groupIds : list EventId) (event : ProtocolEvent) : Replay unit :=
  let b := event.(base) in
  match assertProtocolEventMoveDomains event with
  | Throws error => alert b EVENT_DATA error.(err_message) None None
  | Returns _ => mret tt
  end ;;
  alertIf (bool_decide (evLedger event <> evLedger first)
           || bool_decide (b.(Base.txHash) <> first.(base).(Base.txHash)))
    b TRANSACTION_GROUP "One atomic event group contains more than one transaction identity." None None ;;
  alertIf (bool_decide (evIndex event <= previousEventIndex)) b EVENT_ORDER
    "Event indices inside a transaction must be strictly increasing." None None ;;
  let priorCursor := jsGet (evId event) prior.(Proj.seenEventIds) in
  alertIf (bool_decide (priorCursor <> None) || includes (evId event) groupIds) b IDENTIFIER_REUSE
    "An event identifier was reused for a different replay position."
    (Some (default "unique in transaction" priorCursor)) (Some (cursorText b)).

Fixpoint checkEventHeaders (prior : Proj.ProtocolProjection) (first : ProtocolEvent)
    (previousEventIndex : Z) (groupIds : list EventId) (events : list ProtocolEvent) : Replay unit :=
  match events with
  | [] => mret tt
  | event :: rest =>
      checkEventHeader prior first previousEventIndex groupIds event ;;
      checkEventHeaders prior first (evIndex event) (groupIds ++ [evId event]) rest
  end.

(** [alerts.some((entry) => entry.code === "EVENT_DATA")] *)
Definition hasEventData (alerts : list Alert.CriticalAlert) : bool :=
  existsb (fun a => bool_decide (a.(Alert.code) = EVENT_DATA)) alerts.

(** ** Registrations precede the account's other events *)

Definition precedingAccountMutation (events : list ProtocolEvent)
    (b : Base.EventBase) (e : WalletRegistered.WalletRegisteredEvent) : option ProtocolEvent :=
  arrayFind (fun candidate =>
    bool_decide (evId candidate <> b.(Base.id))
    && includes e.(WalletRegistered.account) (accountStateSubjects candidate)
    && bool_decide (evIndex candidate <= b.(Base.eventIndex))) events.

Definition checkRegistrationOrder (events : list ProtocolEvent) : Replay unit :=
  forEach (fun registration =>
    match precedingAccountMutation events registration.1 registration.2 with
    | None => mret tt
    | Some candidate =>
        alert registration.1 WALLET_REGISTRATION
          "WalletRegistered must precede every same-transaction position or account-balance event for that account."
          (Some ("registration before " ⧺ eventType candidate.(body)))
          (Some (eventType candidate.(body) ⧺ " at " ⧺ show (evIndex candidate)))
    end) (pick asWalletRegistered events).

(** ** Terminal receipts and custody *)

Definition checkTerminalReceipts (first : ProtocolEvent) (events : list ProtocolEvent) : Replay unit :=
  let swaps := pick asSwapExecuted events in
  let liquidity := pick asLiquidity events in
  alertIf (bool_decide (arrayLength swaps > 1) || bool_decide (arrayLength liquidity > 1))
    first.(base) TRANSACTION_GROUP "A transaction contains multiple terminal pool receipts." None None ;;
  alertIf (bool_decide (arrayLength swaps + arrayLength liquidity > 0)
      && (bool_decide (arrayLength (pick asEligibleBalanceDebited events) > 0)
          || bool_decide (arrayLength (pick asEligibleBalanceCredited events) > 0)
          || bool_decide (arrayLength (pick asWalletTransfer events) > 0)))
    first.(base) DOUBLE_COUNTING
    "Composite pool settlement must not also be replayed as a wallet-hook transfer." None None.

(** The custody receipt the group's terminal receipt calls for. *)
Definition expectedCustody (events : list ProtocolEvent) : option (bool * Z) :=
  match pick asSwapExecuted events, pick asLiquidity events with
  | [(_, swap)], _ =>
      let isSell := bool_decide (swap.(SwapExecuted.direction) = sell) in
      Some (isSell, if isSell then swap.(SwapExecuted.netReserveInput) else swap.(SwapExecuted.grossPoolOutput))
  | _, [(_, receipt)] =>
      if bool_decide (receipt.(Liq.trflAmount) > 0)
      then Some (bool_decide (receipt.(Liq.kind) <> Removed), receipt.(Liq.trflAmount))
      else None
  | _, _ => None
  end.

Definition custodyText (added : bool) (amount : Z) : string := showBool added ⧺ "/" ⧺ show amount.

Definition checkExpectedCustody (first : ProtocolEvent) (events : list ProtocolEvent) : Replay unit :=
  let custodyChanges := pick asCustodySharesChanged events in
  match expectedCustody events with
  | Some (added, amount) =>
      let matched :=
        match custodyChanges with
        | [(_, change)] => bool_decide (change.(CustodySharesChanged.added) = added)
                           && bool_decide (change.(CustodySharesChanged.amount) = amount)
        | _ => false
        end in
      let listing := joinWith "," (map (fun c =>
        custodyText c.2.(CustodySharesChanged.added) c.2.(CustodySharesChanged.amount)) custodyChanges) in
      alertIf (negb matched) first.(base)
        (if bool_decide (arrayLength custodyChanges > 1) then DOUBLE_COUNTING else RESERVE_CUSTODY)
        "Pool reserve movement must have exactly one equal custody-share receipt."
        (Some (custodyText added amount))
        (Some (if bool_decide (listing = "") then "missing" else listing))
  | None =>
      alertIf (bool_decide (arrayLength custodyChanges > 0)) first.(base) TRANSACTION_GROUP
        "Custody shares changed without a swap or liquidity receipt." None None
  end.

(** ** LP epochs and routes *)

Definition checkRouteCount (first : ProtocolEvent) (events : list ProtocolEvent) : Replay unit :=
  let routes := arrayLength (pick asCustodyRewardsRouted events) in
  let receipts := arrayLength (pick asLpRewardIndexAdvanced events)
                  + arrayLength (pick asLpRewardQuarantined events) in
  alertIf (bool_decide (routes <> receipts)) first.(base) ROUTE_PAIR
    "Each core custody route must have exactly one downstream LP-index receipt in the same transaction."
    (Some (show routes)) (Some (show receipts)).

Definition checkEpochOpenings (prior : Proj.ProtocolProjection) (events : list ProtocolEvent) : Replay unit :=
  forEach (fun opening =>
    let e := opening.2 in
    let initialPair := List.filter (fun candidate =>
      bool_decide (candidate.2.(CustodyAdapterRegistered.firstEpoch) = e.(LpEpochOpened.epoch))
      && bool_decide (candidate.2.(CustodyAdapterRegistered.lpRewardVault) = e.(LpEpochOpened.rewardVault)))
      (pick asCustodyAdapterRegistered events) in
    let laterPair := List.filter (fun candidate =>
      bool_decide (candidate.2.(CustodyEpochRouteOpened.epoch) = e.(LpEpochOpened.epoch))
      && bool_decide (candidate.2.(CustodyEpochRouteOpened.lpRewardVault) = e.(LpEpochOpened.rewardVault)))
      (pick asCustodyEpochRouteOpened events) in
    let expectedInitial := bool_decide (jsSize prior.(Proj.lpEpochs) = 0) in
    alertIf (bool_decide ((if expectedInitial then arrayLength initialPair else arrayLength laterPair) <> 1))
      opening.1 ROUTE_PAIR
      "Every LP epoch opening must pair with exactly one matching initial adapter or fresh custody route."
      None None) (pick asLpEpochOpened events).

Definition checkRouteOpenings (events : list ProtocolEvent) : Replay unit :=
  forEach (fun routeOpening =>
    alertIf (negb (existsb (fun opening =>
        bool_decide (opening.2.(LpEpochOpened.epoch) = routeOpening.2.(CustodyEpochRouteOpened.epoch))
        && bool_decide (opening.2.(LpEpochOpened.rewardVault) = routeOpening.2.(CustodyEpochRouteOpened.lpRewardVault)))
        (pick asLpEpochOpened events)))
      routeOpening.1 ROUTE_PAIR
      "Fresh custody epoch route lacks a same-transaction LP epoch opening." None None)
    (pick asCustodyEpochRouteOpened events).

Definition checkTerminalTransitions (events : list ProtocolEvent) : Replay unit :=
  forEach (fun transition =>
    let matches := arrayLength (List.filter (fun candidate =>
      bool_decide (candidate.2.(LpEpochTerminalDustClassified.epoch) = transition.2.(LpEpochStatusChanged.epoch))
      && bool_decide (candidate.1.(Base.eventIndex) > transition.1.(Base.eventIndex)))
      (pick asLpEpochTerminalDustClassified events)) in
    alertIf (bool_decide (matches <> 1)) transition.1 LP_ACCOUNTING
      "Every active-to-claim-only transition requires exactly one later terminal-dust classification in the same transaction."
      (Some (show 1)) (Some (show matches))) (pick asLpTerminalTransition events).

Definition checkTerminalClassifications (events : list ProtocolEvent) : Replay unit :=
  forEach (fun classification =>
    let matches := arrayLength (List.filter (fun candidate =>
      bool_decide (candidate.2.(LpEpochStatusChanged.epoch) = classification.2.(LpEpochTerminalDustClassified.epoch))
      && bool_decide (candidate.1.(Base.eventIndex) < classification.1.(Base.eventIndex)))
      (pick asLpTerminalTransition events)) in
    alertIf (bool_decide (matches <> 1)) classification.1 LP_ACCOUNTING
      "Terminal dust classification must follow exactly one matching status transition in its transaction."
      (Some (show 1)) (Some (show matches))) (pick asLpEpochTerminalDustClassified events).

Definition residueBurns (events : list ProtocolEvent) (b : Base.EventBase)
    (e : LpFractionalResidueRetired.LpFractionalResidueRetiredEvent) :=
  List.filter (fun candidate =>
    negb candidate.2.(LpSharesChanged.added)
    && bool_decide (candidate.2.(LpSharesChanged.epoch) = e.(LpFractionalResidueRetired.epoch))
    && bool_decide (candidate.2.(LpSharesChanged.owner) = e.(LpFractionalResidueRetired.owner))
    && bool_decide (candidate.2.(LpSharesChanged.ownerShares) = 0)
    && bool_decide (candidate.1.(Base.eventIndex) > b.(Base.eventIndex))) (pick asLpSharesChanged events).

Definition residueTransfers (events : list ProtocolEvent) (b : Base.EventBase)
    (e : LpFractionalResidueRetired.LpFractionalResidueRetiredEvent) :=
  List.filter (fun candidate =>
    bool_decide (candidate.2.(LpSharesTransferred.epoch) = e.(LpFractionalResidueRetired.epoch))
    && bool_decide (candidate.2.(LpSharesTransferred.sender) = e.(LpFractionalResidueRetired.owner))
    && bool_decide (candidate.1.(Base.eventIndex) > b.(Base.eventIndex))) (pick asLpSharesTransferred events).

Definition checkResidues (events : list ProtocolEvent) : Replay unit :=
  forEach (fun residue =>
    let exits := arrayLength (residueBurns events residue.1 residue.2)
                 + arrayLength (residueTransfers events residue.1 residue.2) in
    alertIf (bool_decide (exits <> 1)) residue.1 LP_ACCOUNTING
      "Fractional residue retirement must precede exactly one complete owner exit in the same transaction."
      (Some (show 1)) (Some (show exits))) (pick asLpFractionalResidueRetired events).

(** ** The liquidity receipt *)

(** The ordered terminal sequence a final exit must come after: one complete
    share exit, one transition, one classification. *)
Definition finalExitOrdered (events : list ProtocolEvent) (b : Base.EventBase)
    (receipt : Liq.LiquidityReceipt) : bool :=
  let shareExits := List.filter (fun event =>
    negb event.2.(LpSharesChanged.added)
    && bool_decide (event.2.(LpSharesChanged.epoch) = receipt.(Liq.epoch))
    && bool_decide (event.2.(LpSharesChanged.owner) = receipt.(Liq.provider))
    && bool_decide (event.2.(LpSharesChanged.amount) = receipt.(Liq.lpShares))
    && bool_decide (event.2.(LpSharesChanged.ownerShares) = 0)
    && bool_decide (event.2.(LpSharesChanged.totalShares) = 0)
    && bool_decide (event.1.(Base.eventIndex) < b.(Base.eventIndex))) (pick asLpSharesChanged events) in
  let epochTransitions := List.filter (fun event =>
    bool_decide (event.2.(LpEpochStatusChanged.epoch) = receipt.(Liq.epoch))) (pick asLpTerminalTransition events) in
  let epochClassifications := List.filter (fun event =>
    bool_decide (event.2.(LpEpochTerminalDustClassified.epoch) = receipt.(Liq.epoch)))
    (pick asLpEpochTerminalDustClassified events) in
  match shareExits, epochTransitions, epochClassifications with
  | [(exit, _)], [(transition, t)], [(classification, _)] =>
      bool_decide (t.(LpEpochStatusChanged.oldStatus) = active)
      && bool_decide (exit.(Base.eventIndex) < transition.(Base.eventIndex))
      && bool_decide (transition.(Base.eventIndex) < classification.(Base.eventIndex))
      && bool_decide (classification.(Base.eventIndex) < b.(Base.eventIndex))
  | _, _, _ => false
  end.

Definition terminatesEpoch (events : list ProtocolEvent) (epoch : Z) : bool :=
  existsb (fun event => bool_decide (event.2.(LpEpochStatusChanged.epoch) = epoch))
    (pick asLpTerminalTransition events)
  || existsb (fun event => bool_decide (event.2.(LpEpochTerminalDustClassified.epoch) = epoch))
    (pick asLpEpochTerminalDustClassified events).

(** The [LiquidityAdded] arm: proportional amounts, rounded up. *)
Definition checkLiquidityAdded (pool : Pool.IndexedPool) (epoch : LpEpoch.IndexedLpEpoch)
    (b : Base.EventBase) (receipt : Liq.LiquidityReceipt) : Replay unit :=
  let total := epoch.(LpEpoch.totalShares) in
  if bool_decide (total <= 0) || bool_decide (pool.(Pool.trflReserve) <= 0)
     || bool_decide (pool.(Pool.tusdReserve) <= 0)
  then alert b LP_ACCOUNTING
         "Liquidity addition requires nonzero reserves and existing LP shares." None None
  else
    rflNumerator ← lift (checkedMoveU256Multiply receipt.(Liq.lpShares) pool.(Pool.trflReserve) "LP mint tRFL numerator");
    expectedRfl ← lift (ceilDiv rflNumerator total);
    usdNumerator ← lift (checkedMoveU256Multiply receipt.(Liq.lpShares) pool.(Pool.tusdReserve) "LP mint tUSD numerator");
    expectedUsd ← lift (ceilDiv usdNumerator total);
    alertIf (bool_decide (receipt.(Liq.trflAmount) <> expectedRfl)
             || bool_decide (receipt.(Liq.tusdAmount) <> expectedUsd))
      b LP_ACCOUNTING "Liquidity input amounts do not match the shares' proportional ceil arithmetic."
      (Some (slash expectedRfl expectedUsd)) (Some (slash receipt.(Liq.trflAmount) receipt.(Liq.tusdAmount))).

(** What a withdrawal of [shares] out of [total] must pay from [reserve]. *)
Definition withdrawalAmount (shares total reserve : Z) (label : string) : Outcome Z :=
  if bool_decide (shares = total) then Returns reserve
  else numerator ← checkedMoveU256Multiply shares reserve label; bigintDivide numerator total.

Definition withdrawalText (rfl usd : Z) (final : bool) : string :=
  slash rfl usd ⧺ "/" ⧺ showBool final.

(** The [LiquidityRemoved] arm: proportional amounts rounded down, the share
    limit of non-final withdrawals, and the terminal sequence of a full exit. *)
Definition checkLiquidityRemoved (prior : Proj.ProtocolProjection) (events : list ProtocolEvent)
    (epoch : LpEpoch.IndexedLpEpoch) (b : Base.EventBase) (receipt : Liq.LiquidityReceipt) : Replay unit :=
  let pool := prior.(Proj.pool) in
  let total := epoch.(LpEpoch.totalShares) in
  let shares := receipt.(Liq.lpShares) in
  if bool_decide (total <= 0) || bool_decide (shares > total)
  then alert b LP_ACCOUNTING "Liquidity removal exceeds replayed epoch shares." None None
  else
    let fullExit := bool_decide (shares = total) in
    expectedRfl ← lift (withdrawalAmount shares total pool.(Pool.trflReserve) "LP withdrawal tRFL numerator");
    expectedUsd ← lift (withdrawalAmount shares total pool.(Pool.tusdReserve) "LP withdrawal tUSD numerator");
    alertIf (bool_decide (receipt.(Liq.trflAmount) <> expectedRfl)
             || bool_decide (receipt.(Liq.tusdAmount) <> expectedUsd)
             || bool_decide (receipt.(Liq.finalExit) <> fullExit))
      b LP_ACCOUNTING "Liquidity withdrawal does not match proportional floor/final-exit arithmetic."
      (Some (withdrawalText expectedRfl expectedUsd fullExit))
      (Some (withdrawalText receipt.(Liq.trflAmount) receipt.(Liq.tusdAmount) receipt.(Liq.finalExit))) ;;
    when (negb fullExit && negb pool.(Pool.shutdownMode))
      (request ← lift (checkedMoveU256Multiply shares BPS_DENOMINATOR "LP withdrawal limit request");
       allowance ← lift (checkedMoveU256Multiply total pool.(Pool.maximumNonFinalWithdrawalShareBps) "LP withdrawal limit allowance");
       alertIf (bool_decide (request > allowance)) b POOL_LIMITS
         "Normal-mode non-final withdrawal exceeds the configured proportional share limit."
         (Some (show allowance)) (Some (show request))) ;;
    if fullExit then
      alertIf (negb pool.(Pool.shutdownMode) || negb receipt.(Liq.finalExit)
               || negb (finalExitOrdered events b receipt))
        b LP_ACCOUNTING
        "Final liquidity removal requires prior shutdown and one ordered same-transaction share exit, active-to-claim-only transition, terminal classification, then receipt."
        None None
    else
      alertIf (terminatesEpoch events receipt.(Liq.epoch)) b LP_ACCOUNTING
        "A non-final liquidity removal cannot terminate or classify its active LP epoch." None None.

(** The receipt targets the active epoch, or seeds one opened in the group. *)
Definition checkLiquidityReceipt (prior : Proj.ProtocolProjection) (events : list ProtocolEvent)
    (b : Base.EventBase) (receipt : Liq.LiquidityReceipt) : Replay unit :=
  let pool := prior.(Proj.pool) in
  let epoch := jsGet receipt.(Liq.epoch) prior.(Proj.lpEpochs) in
  let openedInGroup := existsb (fun candidate =>
    bool_decide (candidate.2.(LpEpochOpened.epoch) = receipt.(Liq.epoch))) (pick asLpEpochOpened events) in
  let isFreshReseed := bool_decide (receipt.(Liq.kind) = Seeded) && negb (jsHas receipt.(Liq.epoch) prior.(Proj.lpEpochs))
    && bool_decide (prior.(Proj.activeLpEpoch) = None) && openedInGroup in
  if negb isFreshReseed
     && (negb (jsHas receipt.(Liq.epoch) prior.(Proj.lpEpochs)) || bool_decide (prior.(Proj.activeLpEpoch) <> Some receipt.(Liq.epoch)))
  then alert b LP_ACCOUNTING "Liquidity receipt does not target the replayed active LP epoch." None None
  else
    match receipt.(Liq.kind), epoch with
    | Seeded, _ =>
        expectedShares ← lift (integerSqrt (receipt.(Liq.trflAmount) * receipt.(Liq.tusdAmount)));
        alertIf (bool_decide (pool.(Pool.trflReserve) <> 0)
            || bool_decide (pool.(Pool.tusdReserve) <> 0)
            || bool_decide (from_option LpEpoch.totalShares 0 epoch <> 0)
            || bool_decide (receipt.(Liq.lpShares) <> expectedShares))
          b LP_ACCOUNTING
          "Initial liquidity shares must equal floor(sqrt(tRFL * tUSD)) on empty reserves."
          (Some (show expectedShares)) (Some (show receipt.(Liq.lpShares)))
    | Added, Some epoch => checkLiquidityAdded pool epoch b receipt
    | Removed, Some epoch => checkLiquidityRemoved prior events epoch b receipt
    | _, None => mret tt  (* excluded: without an epoch only a reseed passes the guard *)
    end.

Definition checkLiquidity (prior : Proj.ProtocolProjection) (events : list ProtocolEvent) : Replay unit :=
  match pick asLiquidity events with
  | [(b, receipt)] => checkLiquidityReceipt prior events b receipt
  | _ => mret tt
  end.

(** ** Explicit claims pair with one materialization *)

Definition checkExplicitClaims (events : list ProtocolEvent) : Replay unit :=
  forEach (fun claim =>
    let matches := List.filter (fun entry =>
      bool_decide (entry.2.(RewardsMaterialized.account) = claim.2.(RewardsClaimed.account))
      && bool_decide (entry.2.(RewardsMaterialized.amount) = claim.2.(RewardsClaimed.amount)))
      (pick asRewardsMaterialized events) in
    let paired :=
      match matches with
      | [entry] => bool_decide (claim.2.(RewardsClaimed.totalClaimed) = entry.2.(RewardsMaterialized.totalClaimed))
      | _ => false
      end in
    alertIf (negb paired) claim.1 DOUBLE_COUNTING
      "Explicit claim action must pair with exactly one materialization receipt." None None)
    (pick asRewardsClaimed events).

(** All the checks between the header loop and the event loop, in order. *)
Definition checkGroup (prior : Proj.ProtocolProjection) (first : ProtocolEvent)
    (events : list ProtocolEvent) : Replay unit :=
  checkRegistrationOrder events ;;
  checkTerminalReceipts first events ;;
  checkExpectedCustody first events ;;
  checkRouteCount first events ;;
  checkEpochOpenings prior events ;;
  checkRouteOpenings events ;;
  checkTerminalTransitions events ;;
  checkTerminalClassifications events ;;
  checkResidues events ;;
  checkLiquidity prior events ;;
  checkExplicitClaims events.
