(* ===== verification/CursorRoundTrip.v ===== *)
(** * Cursors of events, and their order in a group

    [reduceEventGroup] writes [`${ledgerVersion}:${eventIndex}`] for every event
    it has seen; what is written is always accepted by
    [assertProjectionMoveDomains].  Sorting by index forgets the order of arrival. *)
From S2P Require Import Prelude JsMap Types MoveDomains JsValue Numerals Domains Replay Group GroupChecks.

(** What passes [assertBase] leaves a cursor the projection check accepts. *)
Lemma assertBase_ordinals b :
  assertBase b = Returns tt ->
  fitsUnsigned U64 b.(Base.ledgerVersion) /\ 0 <= b.(Base.eventIndex) <= MAX_SAFE_INTEGER.
Proof.
  unfold assertBase. autorewrite with domains. intros (_ & _ & Hl & Hi & _). split; [done|].
  destruct (negb _ || _ || _) eqn:E; [discriminate|]. bools. unfold isSafeInteger in *. bools. lia.
Qed.

Lemma seenCursor_base b : assertBase b = Returns tt -> SeenCursor (cursorText b).
Proof. intros [Hl Hi]%assertBase_ordinals. by exists b.(Base.ledgerVersion), b.(Base.eventIndex). Qed.

(** ** The order of a group's events

    [sortByIndex] is a stable sort; on distinct indices its result does not
    depend on the order the events arrive in. *)

Lemma insertByIndex_perm event events : insertByIndex event events ≡ₚ event :: events.
Proof.
  induction events as [|x events IH]; cbn; [done|]. case_bool_decide; [done|].
  rewrite IH. apply Permutation_swap.
Qed.

Lemma sortByIndex_perm events : sortByIndex events ≡ₚ events.
Proof. induction events as [|x events IH]; cbn; [done|]. by rewrite insertByIndex_perm, IH. Qed.

Lemma insertByIndex_comm a b events :
  evIndex a <> evIndex b ->
  insertByIndex a (insertByIndex b events) = insertByIndex b (insertByIndex a events).
Proof.
  intros Hne. induction events as [|x events IH]; cbn.
  - repeat case_bool_decide; try done; lia.
  - repeat (case_bool_decide; cbn); try done; try lia. by rewrite IH.
Qed.

Lemma sortByIndex_arrival events events' :
  events ≡ₚ events' -> NoDup (map evIndex events) -> sortByIndex events = sortByIndex events'.
Proof.
  induction 1 as [|x l l' Hp IH|x y l|l l' l'' H1 IH1 H2 IH2]; cbn; intros Hnd; [done|..].
  - inversion Hnd; subst.
    change (insertByIndex x (sortByIndex l) = insertByIndex x (sortByIndex l')). by rewrite IH.
  - apply insertByIndex_comm. inversion Hnd as [|?? Hx]; subst. intros E. apply Hx. rewrite E. left.
  - rewrite IH1 by done. apply IH2. by rewrite <- H1.
Qed.
