(* ===== verification/LiquidityMath.v ===== *)
(** * The integer arithmetic of liquidity receipts

    [integerSqrt] terminates within its fuel and is the integer square root;
    [ceilDiv] is the ceiling of the quotient.  Together with the proportional
    formulas they make every accepted liquidity receipt favour the pool. *)
From S2P Require Import Prelude JsMap Types MoveDomains Accounting Replay Group WalletHandlers.
From S2P Require Import LpHandlers PoolHandlers GroupChecks.

(** ** Floors and the constant-product curve

    Shares in basis points and the output of a swap, by inequalities. *)

Lemma U64_MAX_value : U64_MAX = 18446744073709551615.
Proof. reflexivity. Qed.

(** [q] is the whole part of [n / d]. *)
Definition IsFloor (n d q : Z) : Prop := q * d <= n < (q + 1) * d.

Lemma quot_floor n d q : 0 <= n -> 0 < d -> Z.quot n d = q <-> IsFloor n d q.
Proof.
  intros Hn Hd. rewrite Z.quot_div_nonneg by lia. unfold IsFloor. split.
  - intros <-. pose proof (Z.div_mod n d ltac:(lia)). pose proof (Z.mod_pos_bound n d Hd). nia.
  - intros H. symmetry. apply (Z.div_unique_pos n d q (n - q * d)); nia.
Qed.

Lemma floor_unique n d q q' : 0 < d -> IsFloor n d q -> IsFloor n d q' -> q = q'.
Proof. unfold IsFloor. intros. nia. Qed.

Lemma bpsOf_floor amount bps q :
  0 <= amount -> 0 <= bps -> bpsOf amount bps = q <-> IsFloor (amount * bps) BPS_DENOMINATOR q.
Proof. intros. apply quot_floor; [nia|done]. Qed.

Lemma bpsOf_spec amount bps :
  0 <= amount -> 0 <= bps -> bpsOf amount bps * BPS_DENOMINATOR <= amount * bps
    < (bpsOf amount bps + 1) * BPS_DENOMINATOR.
Proof. intros Ha Hb. by apply (bpsOf_floor amount bps (bpsOf amount bps)). Qed.

Lemma bpsOf_le amount bps : 0 <= amount -> 0 <= bps <= BPS_DENOMINATOR -> 0 <= bpsOf amount bps <= amount.
Proof.
  intros Ha Hb. pose proof (bpsOf_spec amount bps Ha ltac:(lia)). unfold BPS_DENOMINATOR in *. nia.
Qed.

(** The most the pool pays, by division and by the product of the reserves. *)
Lemma curve_quot x y traded out :
  0 < x -> 0 <= y -> 0 <= traded ->
  Z.quot (y * traded) (x + traded) = out
  <-> (x + traded) * (y - (out + 1)) < x * y <= (x + traded) * (y - out).
Proof. intros Hx Hy Ht. rewrite quot_floor by nia. unfold IsFloor. nia. Qed.

Lemma bigintDivide_pos a b : 0 < b -> bigintDivide a b = Returns (Z.quot a b).
Proof. intros Hb. unfold bigintDivide. by rewrite decide_False by lia. Qed.

(** One Newton round. *)
Definition newton (value current : Z) : Z := Z.quot (current + Z.quot value current) 2.

Lemma newton_div value current :
  0 <= value -> 0 < current -> newton value current = (current + value / current) / 2.
Proof.
  intros. unfold newton. rewrite (Z.quot_div_nonneg value current) by lia.
  pose proof (Z.div_pos value current ltac:(lia) ltac:(lia)).
  by rewrite Z.quot_div_nonneg by lia.
Qed.

(** A round never undershoots the root. *)
Lemma newton_ge value current :
  0 <= value -> 0 < current -> Z.sqrt value <= newton value current.
Proof.
  intros Hv Hc. rewrite newton_div by lia. set (s := Z.sqrt value).
  pose proof (Z.sqrt_spec value Hv) as [Hs _]. fold s in Hs.
  apply Z.div_le_lower_bound; [lia|].
  enough (2 * s - current <= value / current) by lia.
  apply Z.div_le_lower_bound; [lia|]. pose proof (Z.square_nonneg (s - current)). nia.
Qed.

(** Above the root, a round halves the distance. *)
Lemma newton_halves value current :
  0 <= value -> Z.sqrt value < current ->
  newton value current - Z.sqrt value <= (current - Z.sqrt value) / 2.
Proof.
  intros Hv Hc. pose proof (Z.sqrt_nonneg value) as Hn.
  rewrite newton_div by lia. set (s := Z.sqrt value) in *.
  pose proof (Z.sqrt_spec value Hv) as [_ Hs]. fold s in Hs.
  assert (value / current <= s). { apply Z.lt_succ_r, Z.div_lt_upper_bound; nia. }
  replace (current - s) with ((current + s) + (- s) * 2) by lia.
  rewrite Z.div_add by lia.
  pose proof (Z.div_le_mono (current + value / current) (current + s) 2). lia.
Qed.

(** A round that does not decrease has reached the root. *)
Lemma newton_fixed value current :
  0 <= value -> 0 < current -> Z.sqrt value <= current ->
  current <= newton value current -> current = Z.sqrt value.
Proof.
  intros Hv Hc Hge Hle. rewrite newton_div in Hle by lia.
  assert (2 * current <= current + value / current).
  { pose proof (Z.mul_div_le (current + value / current) 2). lia. }
  pose proof (Z.mul_div_le value current Hc).
  assert (current <= Z.sqrt value); [|lia]. apply Z.sqrt_le_square; nia.
Qed.

Lemma sqrtLoop_spec value fuel : forall current,
  0 <= value -> 0 < Z.sqrt value <= current -> current - Z.sqrt value < 2 ^ Z.of_nat fuel ->
  sqrtLoop (S fuel) value current (newton value current) = Some (Z.sqrt value).
Proof.
  induction fuel as [|fuel IH]; intros current Hv Hge Hlt;
    pose proof (newton_ge value current Hv ltac:(lia)) as Hng.
  - assert (current = Z.sqrt value) as E by (cbn in Hlt; lia).
    cbn. rewrite bool_decide_false by lia. by rewrite E.
  - change (sqrtLoop (S (S fuel)) value current (newton value current)) with
      (if bool_decide (newton value current < current)
       then sqrtLoop (S fuel) value (newton value current) (newton value (newton value current))
       else Some current).
    case_bool_decide as Hd; [|f_equal; apply newton_fixed; lia].
    pose proof (newton_halves value current Hv ltac:(lia)) as Hh.
    rewrite Nat2Z.inj_succ, Z.pow_succ_r in Hlt by lia.
    assert ((current - Z.sqrt value) / 2 < 2 ^ Z.of_nat fuel) by (apply Z.div_lt_upper_bound; lia).
    apply IH; lia.
Qed.

(** The loop starts above the root and within the fuel's reach. *)
Lemma sqrt_start value :
  2 <= value -> 0 < Z.sqrt value <= Z.quot value 2 + 1
    /\ Z.quot value 2 + 1 - Z.sqrt value < 2 ^ Z.of_nat (Z.to_nat (Z.log2 value) + 2).
Proof.
  intros Hv. rewrite Z.quot_div_nonneg by lia.
  pose proof (Z.sqrt_spec value ltac:(lia)) as [Hs _].
  assert (0 < Z.sqrt value) by (apply Z.sqrt_pos; lia).
  assert (Z.sqrt value - 1 <= value / 2).
  { apply Z.div_le_lower_bound; [lia|]. pose proof (Z.square_nonneg (Z.sqrt value - 1)). nia. }
  split; [lia|].
  pose proof (Z.log2_spec value ltac:(lia)) as [_ Hl]. pose proof (Z.log2_nonneg value).
  rewrite Nat2Z.inj_add, Z2Nat.id by lia.
  replace (Z.log2 value + Z.of_nat 2) with (Z.succ (Z.log2 value) + 1) by lia.
  rewrite Z.pow_add_r by lia.
  assert (value / 2 <= value) by (apply Z.div_le_upper_bound; lia). nia.
Qed.

Lemma integerSqrt_eq value : 0 <= value -> integerSqrt value = Returns (Z.sqrt value).
Proof.
  intros Hv. unfold integerSqrt. rewrite bool_decide_false by lia.
  case_bool_decide as H2.
  - assert (value = 0 \/ value = 1) as [->| ->] by lia; done.
  - pose proof (sqrt_start value ltac:(lia)) as [Hr Hf].
    pose proof (sqrtLoop_spec value _ _ Hv Hr Hf) as E.
    unfold sqrtFuel. replace (Z.to_nat (Z.log2 value) + 3)%nat with (S (Z.to_nat (Z.log2 value) + 2)) by lia.
    cbv zeta. fold (newton value (Z.quot value 2 + 1)). by rewrite E.
Qed.

(** ** Ceiling division *)

Lemma ceilDiv_eq numerator denominator :
  0 <= numerator -> 0 < denominator ->
  ceilDiv numerator denominator = Returns (- (- numerator / denominator)).
Proof.
  intros Hn Hd. unfold ceilDiv. rewrite bool_decide_false by lia. f_equal.
  case_bool_decide as H0; [by subst|].
  rewrite Z.quot_div_nonneg by lia.
  pose proof (Z.mod_pos_bound (numerator - 1) denominator Hd) as Hm.
  pose proof (Z.div_mod (numerator - 1) denominator ltac:(lia)) as Hq.
  assert (- numerator / denominator = - ((numerator - 1) / denominator + 1)); [|lia].
  symmetry. apply (Z.div_unique _ _ _ (denominator - 1 - (numerator - 1) mod denominator)); lia.
Qed.

(** The least number of units that covers the quotient. *)
Lemma ceilDiv_iff numerator denominator q :
  0 <= numerator -> 0 < denominator ->
  ceilDiv numerator denominator = Returns q
  <-> (q - 1) * denominator < numerator <= q * denominator.
Proof.
  intros Hn Hd. rewrite ceilDiv_eq by done. split.
  - intros [= <-]. pose proof (Z.mod_pos_bound (- numerator) denominator Hd).
    pose proof (Z.div_mod (- numerator) denominator ltac:(lia)). nia.
  - intros H. f_equal. enough (- numerator / denominator = - q) by lia.
    symmetry. apply (Z.div_unique _ _ _ (q * denominator - numerator)); lia.
Qed.
