(* ===== verification/Reducer.v ===== *)
(** * The transaction reducer: [reduceEventGroup] of [packages/indexer/src/reducer.ts]

    One complete transaction group is replayed on a clone of the projection:
    header checks, group checks, the event loop, the final cross-module checks.
    Anything thrown inside the source's [try] becomes an [EVENT_DATA] alert and
    the clone of the prior projection. *)
From S2P Require Import Prelude JsMap Types MoveDomains Accounting Replay Group WalletHandlers.
From S2P Require Import LpHandlers PoolHandlers ConfigHandlers GroupChecks.

(** [createEmptyProjection] *)
Definition createEmptyProjection : Proj.ProtocolProjection :=
  {| Proj.chainId := CEDRA_TESTNET_CHAIN_ID;
     Proj.deploymentId := UNINITIALIZED;
     Proj.networkLabel := UNINITIALIZED;
     Proj.tokenMetadata := None;
     Proj.protocolExclusionSlots := 0;
     Proj.protocolExclusionsRemaining := 0;
     Proj.protocolExcludedStores := jsEmpty;
     Proj.registeredWallets := jsEmpty;
     Proj.registeredWalletCount := 0;
     Proj.automaticMaterialization := false;
     Proj.feeBps := 100;
     Proj.currentIndex := 0;
     Proj.indexRemainder := 0;
     Proj.eligibleSupply := 0;
     Proj.aggregateCorrection := 0;
     Proj.unallocatedFees := 0;
     Proj.roundingReserve := 0;
     Proj.rewardVault := None;
     Proj.distributionVault := None;
     Proj.mockUsdPoolReserve := None;
     Proj.rewardVaultCredits := 0;
     Proj.rewardVaultPayouts := 0;
     Proj.lifetimeSwapFees := 0;
     Proj.lifetimeMaterialized := 0;
     Proj.lifetimeCustodyRouted := 0;
     Proj.packageVersion := UNINITIALIZED;
     Proj.lifecycle := None;
     Proj.swapsPaused := false;
     Proj.claimsPaused := false;
     Proj.faucetPaused := false;
     Proj.faucetTrflGrant := 1000000000;
     Proj.faucetTusdGrant := 1000000000;
     Proj.faucetCooldownSeconds := 3600;
     Proj.operationalAdmins := Admins.mk None None None;
     Proj.deploymentReady := false;
     Proj.pool :=
       {| Pool.trflReserve := 0;
          Pool.tusdReserve := 0;
          Pool.ammFeeBps := 30;
          Pool.maximumGrossSwap := 0;
          Pool.maximumReserveBps := 0;
          Pool.maximumRflContribution := 100000000000;
          Pool.maximumTusdContribution := 100000000000;
          Pool.maximumNonFinalWithdrawalShareBps := BPS_DENOMINATOR;
          Pool.poolPaused := false;
          Pool.liquidityPaused := false;
          Pool.lpClaimsPaused := false;
          Pool.shutdownMode := false;
          Pool.seeded := false |};
     Proj.custody :=
       {| Custody.adapterId := None;
          Custody.reserveStore := None;
          Custody.activeRouteEpoch := None;
          Custody.activeLpRewardVault := None;
          Custody.shares := 0;
          Custody.correction := 0;
          Custody.claimed := 0;
          Custody.lifetimeRouted := 0 |};
     Proj.activeLpEpoch := None;
     Proj.lpEpochs := jsEmpty;
     Proj.rewardVaultToEpoch := jsEmpty;
     Proj.stateIdToEpoch := jsEmpty;
     Proj.positions := jsEmpty;
     Proj.seenEventIds := jsEmpty |}.

(** [cloneProjection]: fresh maps throughout; the epochs are set one by one,
    each with a fresh positions map. *)
Definition cloneProjection (prior : Proj.ProtocolProjection) : Proj.ProtocolProjection :=
  prior <| Proj.positions := jsCopy prior.(Proj.positions) |>
        <| Proj.protocolExcludedStores := jsCopy prior.(Proj.protocolExcludedStores) |>
        <| Proj.registeredWallets := jsCopy prior.(Proj.registeredWallets) |>
        <| Proj.lpEpochs := jsFromEntries (map (fun entry =>
             (entry.1, entry.2 <| LpEpoch.positions := jsCopy entry.2.(LpEpoch.positions) |>))
             prior.(Proj.lpEpochs)) |>
        <| Proj.rewardVaultToEpoch := jsCopy prior.(Proj.rewardVaultToEpoch) |>
        <| Proj.stateIdToEpoch := jsCopy prior.(Proj.stateIdToEpoch) |>
        <| Proj.seenEventIds := jsCopy prior.(Proj.seenEventIds) |>.

(** The [switch] of the event loop. *)
Definition applyEvent (g : Group.EventGroup) (event : ProtocolEvent) : Replay unit :=
  let b := event.(base) in
  match event.(body) with
  | EvProtocolInitialized e => onProtocolInitialized b e
  | EvTokenCreated e => onTokenCreated b e
  | EvLaunchSealed e => onLaunchSealed b e
  | EvPoolClosed e => onPoolClosed b e
  | EvProtocolPrimaryStoreExcluded e => onProtocolPrimaryStoreExcluded b e
  | EvOperationalPrimaryStoreExcluded e => onOperationalPrimaryStoreExcluded b e
  | EvPositionCreated e => onPositionCreated b e
  | EvWalletRegistered e => onWalletRegistered b e
  | EvFaucetGrant e => onFaucetGrant b e
  | EvFaucetConfigured e => onFaucetConfigured b e
  | EvPoolReserveBound e => onPoolReserveBound b e
  | EvWalletTransfer e => onWalletTransfer g b e
  | EvEligibleBalanceDebited e => onEligibleBalanceDebited b e
  | EvEligibleBalanceCredited e => onEligibleBalanceCredited b e
  | EvSwapExecuted e => onSwapExecuted b e
  | EvReflectionFeeCollected e => onReflectionFeeCollected g b e
  | EvReflectionIndexAdvanced e => onReflectionIndexAdvanced b e
  | EvRewardsMaterialized e => materializeWallet b e
  | EvRewardsClaimed e => onRewardsClaimed b e
  | EvCustodySharesChanged e => onCustodySharesChanged b e
  | EvCustodyAdapterRegistered e => onCustodyAdapterRegistered b e
  | EvCustodyEpochRouteOpened e => onCustodyEpochRouteOpened b e
  | EvCustodyRewardsRouted e => onCustodyRewardsRouted b e
  | EvFeeConfigurationChanged e => onFeeConfigurationChanged b e
  | EvSwapLimitsChanged e => onSwapLimitsChanged b e
  | EvLiquidityLimitsChanged e => onLiquidityLimitsChanged b e
  | EvPauseStateChanged e => onPauseStateChanged b e
  | EvFaucetPauseChanged e => onFaucetPauseChanged b e
  | EvPoolPauseChanged e => onPoolPauseChanged b e
  | EvOperationalAdminChanged e => onOperationalAdminChanged b e
  | EvLiquiditySeeded e => onLiquidity g b (seededReceipt e)
  | EvLiquidityAdded e => onLiquidity g b (addedReceipt e)
  | EvLiquidityRemoved e => onLiquidity g b (removedReceipt e)
  | EvLpEpochOpened e => onLpEpochOpened b e
  | EvLpEpochStatusChanged e => onLpEpochStatusChanged b e
  | EvLpSharesChanged e => adjustLpShares b e
  | EvLpSharesTransferred e => onLpSharesTransferred b e
  | EvLpRewardIndexAdvanced e => onLpRewardIndexAdvanced g b e
  | EvLpRewardsClaimed e => onLpRewardsClaimed b e
  | EvLpRewardQuarantined e => onLpRewardQuarantined g b e
  | EvLpFractionalResidueRetired e => onLpFractionalResidueRetired g b e
  | EvLpEpochTerminalDustClassified e => onLpEpochTerminalDustClassified b e
  | EvUnknown type => onUnknownEvent b type
  end.

(** ** The checks after the event loop, still inside the [try] *)

Definition settlePendingFees : Replay unit :=
  context ← getContext;
  forEach (fun pending =>
    if bool_decide (pending.(sharesAtCollection) = 0)
    then modifyNext (fun next =>
           next <| Proj.unallocatedFees :=
             next.(Proj.unallocatedFees) + pending.(pcf_event).(ReflectionFeeCollected.feeAmount) |>)
    else alert pending.(pcf_base) TRANSACTION_GROUP
           "Positive-denominator fee has no global-index receipt." None None)
    context.(Ctx.pendingCoreFees).

Definition checkRoutesConsumed (events : list ProtocolEvent) : Replay unit :=
  context ← getContext;
  forEach (fun route =>
    alertIf (negb (includes route.1.(Base.id) context.(Ctx.consumedRoutes))) route.1 ROUTE_PAIR
      "Core custody route lacks an equal downstream LP-index receipt." None None)
    (pick asCustodyRewardsRouted events).

Definition checkLiquidityShares (events : list ProtocolEvent) : Replay unit :=
  match pick asLiquidity events with
  | [(b, receipt)] =>
      let shares := arrayLength (List.filter (fun candidate =>
        bool_decide (candidate.2.(LpSharesChanged.epoch) = receipt.(Liq.epoch))
        && bool_decide (candidate.2.(LpSharesChanged.owner) = receipt.(Liq.provider))
        && bool_decide (candidate.2.(LpSharesChanged.amount) = receipt.(Liq.lpShares))
        && bool_decide (candidate.2.(LpSharesChanged.added) = bool_decide (receipt.(Liq.kind) <> Removed)))
        (pick asLpSharesChanged events)) in
      alertIf (bool_decide (shares <> 1)) b
        (if bool_decide (shares > 1) then DOUBLE_COUNTING else LP_ACCOUNTING)
        "Liquidity receipt must pair with exactly one equal LP-share mutation." None None
  | _ => mret tt
  end.

(** Some registration is zero or doubles as an excluded account or store. *)
Definition registrationConflict (next : Proj.ProtocolProjection) (entry : Address * Address) : bool :=
  isZeroAddress entry.1 || isZeroAddress entry.2
  || jsHas entry.1 next.(Proj.protocolExcludedStores)
  || includes entry.2 (jsValues next.(Proj.protocolExcludedStores)).

Definition checkRegistrations (first : ProtocolEvent) : Replay unit :=
  next ← getNext;
  let wallets := next.(Proj.registeredWallets) in
  alertIf (bool_decide (next.(Proj.registeredWalletCount) <> jsSize wallets)
      || bool_decide (next.(Proj.registeredWalletCount) < 0)
      || bool_decide (next.(Proj.registeredWalletCount) > U64_MAX)
      || bool_decide (setSize (jsValues wallets) <> jsSize wallets)
      || existsb (registrationConflict next) wallets)
    first.(base) WALLET_REGISTRATION
    "Registered-wallet count and unique primary-store bindings must exactly match replayed registration events."
    (Some (show (jsSize wallets))) (Some (show next.(Proj.registeredWalletCount))) ;;
  forEach (fun account =>
    alertIf (negb (jsHas account wallets)) first.(base) WALLET_REGISTRATION
      "Every wallet accounting position must have an exact prior or same-transaction registration event."
      (Some "registered wallet") (Some account)) (jsKeys next.(Proj.positions)).

(** The loop that sums the corrections, every step checked. *)
Fixpoint sumCorrections (total : Z) (label : string) (corrections : list Z) : Outcome Z :=
  match corrections with
  | [] => Returns total
  | c :: rest => total' ← checkedMoveSignedU256Add total c label; sumCorrections total' label rest
  end.

Definition checkCoreTotals (first : ProtocolEvent) : Replay unit :=
  next ← getNext;
  let custody := next.(Proj.custody) in
  let walletShares := sumWalletShares next.(Proj.positions) in
  alertIf (bool_decide (walletShares + custody.(Custody.shares) <> next.(Proj.eligibleSupply)))
    first.(base) ELIGIBLE_SUPPLY
    "Global shares do not equal replayed wallet shares plus canonical custody shares."
    (Some (show (walletShares + custody.(Custody.shares)))) (Some (show next.(Proj.eligibleSupply))) ;;
  positionCorrection ← lift (sumCorrections custody.(Custody.correction)
    "summed core position correction" (map Wallet.correction (jsValues next.(Proj.positions))));
  alertIf (bool_decide (positionCorrection <> next.(Proj.aggregateCorrection))) first.(base) CORE_ACCOUNTING
    "Aggregate correction does not equal wallet plus custody corrections."
    (Some (show positionCorrection)) (Some (show next.(Proj.aggregateCorrection))) ;;
  alertIf (bool_decide (next.(Proj.pool).(Pool.trflReserve) <> custody.(Custody.shares)))
    first.(base) RESERVE_CUSTODY "Canonical tRFL reserve must equal custody shares exactly."
    (Some (show next.(Proj.pool).(Pool.trflReserve))) (Some (show custody.(Custody.shares))).

(** The active route's epoch exists and has the route's vault. *)
Definition routeBound (next : Proj.ProtocolProjection) : bool :=
  match next.(Proj.custody).(Custody.activeRouteEpoch) with
  | None => false
  | Some activeRouteEpoch =>
      match jsGet activeRouteEpoch next.(Proj.lpEpochs) with
      | None => false
      | Some routeEpoch =>
          bool_decide (Some routeEpoch.(LpEpoch.rewardVault) = next.(Proj.custody).(Custody.activeLpRewardVault))
      end
  end.

Definition checkRouteBinding (first : ProtocolEvent) : Replay unit :=
  next ← getNext;
  alertIf (bool_decide (next.(Proj.custody).(Custody.adapterId) <> None) && negb (routeBound next))
    first.(base) VAULT_BINDING
    "Active custody route is not bound to the matching immutable LP epoch vault." None None.

Definition settleCoreRounding : Replay unit :=
  next ← getNext;
  expectedCoreVault ← lift (expectedCoreVaultBalance next);
  coreLiability ← lift (coreIndexedLiability next);
  coreRounding ← lift (checkedVaultRemainder expectedCoreVault coreLiability
    next.(Proj.unallocatedFees) "core rounding reserve");
  modifyNext (fun next => next <| Proj.roundingReserve := coreRounding |>).

(** The loop over an epoch's positions: alerts, and the two checked sums. *)
Fixpoint sumLpPositions (first : ProtocolEvent) (epoch : LpEpoch.IndexedLpEpoch)
    (summedCorrection summedClaims : Z) (positions : list LpPos.IndexedLpPosition) : Replay (Z * Z) :=
  match positions with
  | [] => mret (summedCorrection, summedClaims)
  | position :: rest =>
      let id := show epoch.(LpEpoch.epoch) in
      next ← getNext;
      alertIf (bool_decide (position.(LpPos.shares) > 0)
               && negb (jsHas position.(LpPos.owner) next.(Proj.registeredWallets)))
        first.(base) WALLET_REGISTRATION
        ("Every positive LP position in epoch " ⧺ id ⧺ " must belong to a previously registered wallet.")
        (Some "registered wallet") (Some position.(LpPos.owner)) ;;
      correction ← lift (checkedMoveSignedU256Add summedCorrection position.(LpPos.correction)
        ("summed LP epoch " ⧺ id ⧺ " correction"));
      claims ← lift (checkedMoveU256Add summedClaims position.(LpPos.claimed)
        ("summed LP epoch " ⧺ id ⧺ " claims"));
      sumLpPositions first epoch correction claims rest
  end.

(** The residue units and the terminal state of an epoch are inconsistent. *)
Definition lpTerminalStateInvalid (epoch : LpEpoch.IndexedLpEpoch) : bool :=
  bool_decide (epoch.(LpEpoch.retiredResidueMagnified) < 0)
  || bool_decide (epoch.(LpEpoch.retiredResidueMagnified) > U256_MAX)
  || (bool_decide (epoch.(LpEpoch.status) = active)
      && bool_decide (epoch.(LpEpoch.terminalRoundingBaseUnits) <> None))
  || (bool_decide (epoch.(LpEpoch.status) = claim_only)
      && bool_decide (epoch.(LpEpoch.terminalRoundingBaseUnits) = None))
  || match epoch.(LpEpoch.terminalRoundingBaseUnits) with
     | None => false
     | Some terminal => bool_decide (terminal < 0) || bool_decide (terminal > U128_MAX)
                        || bool_decide (terminal <> epoch.(LpEpoch.roundingReserve))
     end.

Definition checkLpEpoch (first : ProtocolEvent) (epoch : LpEpoch.IndexedLpEpoch) : Replay unit :=
  let id := show epoch.(LpEpoch.epoch) in
  let summedShares := sumLpShares epoch.(LpEpoch.positions) in
  sums ← sumLpPositions first epoch 0 0 (jsValues epoch.(LpEpoch.positions));
  alertIf (bool_decide (summedShares <> epoch.(LpEpoch.totalShares))
      || bool_decide (sums.1 <> epoch.(LpEpoch.aggregateCorrection))
      || bool_decide (sums.2 <> epoch.(LpEpoch.lifetimeClaimed)))
    first.(base) LP_ACCOUNTING
    ("LP epoch " ⧺ id ⧺ " aggregate state disagrees with its positions.") None None ;;
  alertIf (lpTerminalStateInvalid epoch) first.(base) LP_ACCOUNTING
    ("LP epoch " ⧺ id ⧺ " residue units or terminal classification state is invalid.") None None ;;
  rounding ← lift (lpRounding epoch epoch.(LpEpoch.unallocatedRewards) ("LP epoch " ⧺ id ⧺ " rounding reserve"));
  alertIf (bool_decide (rounding <> epoch.(LpEpoch.roundingReserve))) first.(base) LP_VAULT_BACKING
    ("LP epoch " ⧺ id ⧺ " bucket identity is not exact.")
    (Some (show epoch.(LpEpoch.roundingReserve))) (Some (show rounding)).

Definition checkLpEpochs (first : ProtocolEvent) : Replay unit :=
  next ← getNext;
  forEach (checkLpEpoch first) (jsValues next.(Proj.lpEpochs)).

Definition checkResultDomains : Replay unit :=
  next ← getNext;
  lift (assertProjectionMoveDomains next).

(** The whole [try] block. *)
Definition replayGroup (g : Group.EventGroup) (first : ProtocolEvent) : Replay unit :=
  forEach (applyEvent g) g.(Group.events) ;;
  settlePendingFees ;;
  checkRoutesConsumed g.(Group.events) ;;
  checkLiquidityShares g.(Group.events) ;;
  checkRegistrations first ;;
  checkCoreTotals first ;;
  checkRouteBinding first ;;
  settleCoreRounding ;;
  checkLpEpochs first ;;
  checkResultDomains.

(** ** [reduceEventGroup] *)

Module Result.
Record ReduceResult := mk {
  projection : Proj.ProtocolProjection;
  alerts : list Alert.CriticalAlert
}.
End Result.

Definition markSeen (events : list ProtocolEvent) (next : Proj.ProtocolProjection) : Proj.ProtocolProjection :=
  next <| Proj.seenEventIds :=
    foldl (fun seen event => jsSet (evId event) (cursorText event.(base)) seen)
      next.(Proj.seenEventIds) events |>.

(** [try { replayGroup } catch { alert; next = clone }], then the seen ids. *)
Definition commitGroup (prior : Proj.ProtocolProjection) (first : ProtocolEvent)
    (events : list ProtocolEvent) (context : Ctx.MutableContext) : Result.ReduceResult :=
  let finish '(next, alerts) := Result.mk (markSeen events next) alerts in
  match replayGroup (Group.mk prior events) first context with
  | (Returns _, c) => finish (c.(Ctx.next), c.(Ctx.alerts))
  | (Throws error, c) =>
      finish (cloneProjection prior,
              c.(Ctx.alerts) ++ [problem first.(base) EVENT_DATA error.(err_message) None None])
  end.

(** The result; [Throws] is an exception leaving the function. *)
Definition reduceEventGroup (prior : Proj.ProtocolProjection) (unsortedEvents : list ProtocolEvent)
    : Outcome Result.ReduceResult :=
  let events := sortByIndex unsortedEvents in
  match events with
  | [] => Returns (Result.mk prior [])
  | first :: _ =>
      match assertProjectionMoveDomains prior with
      | Throws error =>
          Returns (Result.mk prior [problem first.(base) EVENT_DATA error.(err_message) None None])
      | Returns _ =>
          let context := Ctx.mk (cloneProjection prior) [] first [] [] false in
          match checkEventHeaders prior first (-1) [] events context with
          | (Throws error, _) => Throws error
          | (Returns _, headers) =>
              if hasEventData headers.(Ctx.alerts)
              then Returns (Result.mk prior headers.(Ctx.alerts))
              else
                match checkGroup prior first events headers with
                | (Throws error, _) => Throws error
                | (Returns _, checked) => Returns (commitGroup prior first events checked)
                end
          end
      end
  end.

Definition reduceEvent (prior : Proj.ProtocolProjection) (event : ProtocolEvent) : Outcome Result.ReduceResult :=
  reduceEventGroup prior [event].
