(* ===== verification/DraftEncoder.v ===== *)
(** * The draft encoder: [packages/protocol-sdk/src/cedra-draft-encoder.ts]

    Which entry functions a draft may name, the domain of each argument, and the
    payload the official SDK gets.  A draft arrives untyped; the value a
    validation gives is what the code after it reads, the draft at its type.
    [describe] is [String(value)], which only error messages contain. *)
From S2P Require Import Prelude JsMap Types MoveDomains JsValue SdkTypes WalletHandlers.

Module Modules.
Record ProtocolModuleAddresses := mk {
  reflectionCore : Address;
  testAssets : Address;
  testAmm : Address
}.
End Modules.

Inductive MoveArgumentKind := KindU64 | KindU128 | KindAddress.

Module Entry.
Record EntryShape := mk {
  functionId : string;
  argumentKinds : list MoveArgumentKind
}.
End Entry.

Module Payload.
Record InputEntryFunctionData := mk {
  function : string;
  functionArguments : list EntryArgument
}.
End Payload.

Definition ENTRY_SHAPES (kind : DraftKind) : list Entry.EntryShape :=
  match kind with
  | faucet_claim =>
      [Entry.mk "test_assets::test_faucet::claim_trfl" [];
       Entry.mk "test_assets::test_faucet::claim_tusd" []]
  | swap =>
      [Entry.mk "test_amm::pool::buy_trfl" [KindU64; KindU64; KindU64];
       Entry.mk "test_amm::pool::sell_trfl" [KindU64; KindU64; KindU64]]
  | claim_rewards =>
      [Entry.mk "reflection_core::reflection_token::claim" [KindU64];
       Entry.mk "reflection_core::reflection_token::claim_all" []]
  | add_liquidity => [Entry.mk "test_amm::pool::add_liquidity" [KindU64; KindU64; KindU128; KindU64]]
  | remove_liquidity => [Entry.mk "test_amm::pool::remove_liquidity" [KindU128; KindU64; KindU64; KindU64]]
  | transfer_lp_shares => [Entry.mk "test_amm::pool::transfer_lp_shares" [KindAddress; KindU128]]
  | claim_lp_rewards => [Entry.mk "test_amm::pool::claim_lp_rewards" [KindU64; KindU64]]
  | checkpoint_lp_rewards => [Entry.mk "test_amm::pool::checkpoint_lp_rewards" []]
  end.

(** [Object.prototype.hasOwnProperty.call(ENTRY_SHAPES, kind)]: the kind of that name. *)
Definition kindOf (name : string) : option DraftKind :=
  arrayFind (fun kind => bool_decide (kindName kind = name))
    [faucet_claim; swap; claim_rewards; add_liquidity; remove_liquidity; transfer_lp_shares; claim_lp_rewards;
     checkpoint_lp_rewards].

Section Encoder.
Context (describe : JsValue -> string).

Definition canonicalAddressKey (address : JsValue) : Outcome string :=
  match address with
  | JsString s =>
      if isHexAddress s then
        let stripped := mapChars lowerChar (stripZeros (default "" (stripPrefix "0x" s))) in
        let key := if bool_decide (stripped = "") then "0" else stripped in
        if bool_decide (key = "0")
        then Throws (TypeError "Cedra signer and module publisher addresses cannot be zero")
        else Returns key
      else Throws (TypeError ("Invalid Cedra account address: " ⧺ describe address))
  | _ => Throws (TypeError ("Invalid Cedra account address: " ⧺ describe address))
  end.

Definition kindLabel (kind : MoveArgumentKind) : string :=
  match kind with KindU64 => "u64" | KindU128 => "u128" | KindAddress => "address" end.

(** The argument at its type, once it has passed. *)
Definition assertMoveArgument (value : JsValue) (kind : MoveArgumentKind) (index : Z) : Outcome EntryArgument :=
  let outside := Throws (TypeError ("Move argument " ⧺ show index ⧺ " must be a bigint in the " ⧺ kindLabel kind ⧺ " domain")) in
  match kind with
  | KindAddress =>
      canonicalAddressKey value ≫= fun _ =>
      match value with JsString s => Returns (ArgString s) | _ => outside end
  | KindU64 | KindU128 =>
      let maximum := match kind with KindU64 => U64_MAX | _ => U128_MAX end in
      match value with
      | JsBigint n => if bool_decide (n < 0) || bool_decide (n > maximum) then outside else Returns (ArgBigint n)
      | _ => outside
      end
  end.

(** [for (let index = 0; ...) assertMoveArgument(candidate.arguments[index], ...)] *)
Fixpoint assertMoveArguments (values : list JsValue) (kinds : list MoveArgumentKind) (index : Z)
    : Outcome (list EntryArgument) :=
  match kinds with
  | [] => Returns []
  | kind :: kinds =>
      argument ← assertMoveArgument (default JsUndefined (head values)) kind index;
      rest ← assertMoveArguments (tail values) kinds (index + 1);
      Returns (argument :: rest)
  end.

Definition argumentAt (draft : Draft.TransactionDraft) (index : nat) : option EntryArgument :=
  nth_error draft.(Draft.arguments) index.

Definition assertPositiveArgument (draft : Draft.TransactionDraft) (index : nat) (label : string) : Outcome unit :=
  match argumentAt draft index with
  | Some (ArgBigint n) => if bool_decide (n <= 0) then Throws (RangeError (label ⧺ " must be positive")) else Returns tt
  | _ => Throws (RangeError (label ⧺ " must be positive"))
  end.

Definition assertDeadlineMatchesExpiration (draft : Draft.TransactionDraft) (index : nat) : Outcome unit :=
  let mismatch := Throws (RangeError "on-chain deadline must be positive and equal the transaction draft expiration") in
  match argumentAt draft index with
  | Some (ArgBigint deadline) =>
      if bool_decide (deadline <= 0) || bool_decide (deadline <> draft.(Draft.expirationUnixSeconds))
      then mismatch else Returns tt
  | _ => mismatch
  end.

Definition assertEntrySemantics (draft : Draft.TransactionDraft) (shape : Entry.EntryShape) : Outcome unit :=
  let named name := bool_decide (shape.(Entry.functionId) = name) in
  if named "reflection_core::reflection_token::claim" then assertPositiveArgument draft 0 "reward claim amount"
  else if named "test_amm::pool::buy_trfl" || named "test_amm::pool::sell_trfl" then
    assertPositiveArgument draft 0 "swap gross amount" ≫= fun _ => assertDeadlineMatchesExpiration draft 2
  else if named "test_amm::pool::add_liquidity" then
    assertPositiveArgument draft 0 "maximum tRFL contribution" ≫= fun _ =>
    assertPositiveArgument draft 1 "maximum tUSD contribution" ≫= fun _ => assertDeadlineMatchesExpiration draft 3
  else if named "test_amm::pool::remove_liquidity" then
    assertPositiveArgument draft 0 "LP shares" ≫= fun _ => assertDeadlineMatchesExpiration draft 3
  else if named "test_amm::pool::transfer_lp_shares" then assertPositiveArgument draft 1 "LP shares"
  else if named "test_amm::pool::claim_lp_rewards" then assertPositiveArgument draft 0 "LP epoch"
  else Returns tt.

(** The runtime fields: kind, function, arguments, signers, expiration, warning. *)
Definition runtimeFields (draft : JsValue) : option (DraftKind * string * list JsValue * list JsValue * Z * string) :=
  match member draft "kind", member draft "functionId", member draft "arguments",
        member draft "secondarySignerAddresses", member draft "expirationUnixSeconds", member draft "warning" with
  | JsString name, JsString functionId, JsArray arguments, JsArray signers, JsBigint expiration, JsString notice =>
      kind ← kindOf name;
      if bool_decide (expiration <= 0) || bool_decide (expiration > U64_MAX) || bool_decide (jsLength notice = 0)
      then None else Some (kind, functionId, arguments, signers, expiration, notice)
  | _, _, _, _, _, _ => None
  end.

(** The shape the draft matches, and the draft at its type. *)
Definition knownEntryShape (draft : JsValue) : Outcome (Entry.EntryShape * Draft.TransactionDraft) :=
  if negb (isObject draft) then Throws (TypeError "Cedra transaction draft must be an object") else
  match runtimeFields draft with
  | None => Throws (TypeError "Cedra transaction draft has invalid runtime fields")
  | Some (kind, functionId, arguments, signers, expiration, notice) =>
      match arrayFind (fun shape => bool_decide (shape.(Entry.functionId) = functionId)
          && bool_decide (arrayLength shape.(Entry.argumentKinds) = arrayLength arguments)
          && bool_decide (arrayLength signers = 0)) (ENTRY_SHAPES kind) with
      | None =>
          Throws (TypeError ("Draft kind " ⧺ kindName kind ⧺ " does not match a supported entry-function shape"))
      | Some shape =>
          typed ← assertMoveArguments arguments shape.(Entry.argumentKinds) 0;
          (* no signer is left to check: the shape was found with none *)
          let typedDraft := Draft.mk kind functionId typed [] expiration notice in
          assertEntrySemantics typedDraft shape ≫= fun _ => Returns (shape, typedDraft)
      end
  end.

Definition assertCedraTransactionDraft (draft : JsValue) : Outcome Draft.TransactionDraft :=
  '(_, typed) ← knownEntryShape draft; Returns typed.

Definition publisherForFunction (functionId : string) (modules : Modules.ProtocolModuleAddresses) : Outcome Address :=
  let packageName := default "" (head (splitDoubleColon functionId)) in
  publisher ←
    (if bool_decide (packageName = "reflection_core") then Returns modules.(Modules.reflectionCore)
     else if bool_decide (packageName = "test_assets") then Returns modules.(Modules.testAssets)
     else if bool_decide (packageName = "test_amm") then Returns modules.(Modules.testAmm)
     else Throws (TypeError ("Draft refers to unsupported package " ⧺ packageName)));
  canonicalAddressKey (JsString publisher) ≫= fun _ => Returns publisher.

Definition assertModuleAddresses (modules : Modules.ProtocolModuleAddresses) : Outcome unit :=
  core ← canonicalAddressKey (JsString modules.(Modules.reflectionCore));
  assets ← canonicalAddressKey (JsString modules.(Modules.testAssets));
  amm ← canonicalAddressKey (JsString modules.(Modules.testAmm));
  if bool_decide (NoDup [core; assets; amm]) then Returns tt
  else Throws (TypeError "Core, asset, and AMM package publishers must be distinct canonical addresses").

(** [typeof argument === "bigint" ? argument.toString() : argument] *)
Definition decimalArgument (argument : EntryArgument) : EntryArgument :=
  match argument with ArgBigint n => ArgString (show n) | _ => argument end.

Definition encodePayload (draft : Draft.TransactionDraft) (modules : Modules.ProtocolModuleAddresses)
    : Outcome Payload.InputEntryFunctionData :=
  assertModuleAddresses modules ≫= fun _ =>
  match splitDoubleColon draft.(Draft.functionId) with
  | [_; moduleName; functionName] =>
      publisher ← publisherForFunction draft.(Draft.functionId) modules;
      Returns (Payload.mk (publisher ⧺ "::" ⧺ moduleName ⧺ "::" ⧺ functionName)
                 (map decimalArgument draft.(Draft.arguments)))
  | _ => Throws (TypeError ("Unqualified draft function id: " ⧺ draft.(Draft.functionId)))
  end.

Definition encodeCedraEntryFunction (draft : JsValue) (modules : Modules.ProtocolModuleAddresses)
    : Outcome Payload.InputEntryFunctionData :=
  '(_, typed) ← knownEntryShape draft;
  if bool_decide (arrayLength typed.(Draft.secondarySignerAddresses) > 0)
  then Throws (TypeError
    "A multi-agent draft cannot be encoded as a single-signer entry. Use encodeCedraMultiAgentEntryFunction instead.")
  else encodePayload typed modules.
End Encoder.
