(* ===== verification/SafeClient.v ===== *)
(** * The client: [packages/protocol-sdk/src/safe-client.ts]

    [ReflectionPilotClient] reads through an adapter, verifies each swap quote by
    redoing its arithmetic, and only submits a swap draft that it made itself
    from a quote it verified.  Both are recognised by object identity: the two
    [WeakMap]s give an object's fingerprint under its number, and a caller passes
    an object as its number and the value it has at that moment.  The clock, the
    reader's answers and the writer are arguments; [sent] records what the writer
    was handed. *)
From stdpp Require Import gmap.
From S2P Require Import Prelude JsMap Types MoveDomains JsValue Json SdkTypes Accounting Replay Group WalletHandlers.
From S2P Require Import LpHandlers PoolHandlers DraftEncoder.

Definition TESTNET_NO_VALUE_WARNING : string :=
  "TESTNET ASSET — NO MONETARY VALUE — STATE AND ADDRESSES MAY CHANGE".

Definition MAX_REFLECTION_FEE_BPS : Z := 500.

Module AddLiquidity.
Record AddLiquidityDraftInput := mk {
  maxRfl : JsValue;
  maxUsd : JsValue;
  minLpShares : JsValue;
  deadlineUnixSeconds : JsValue
}.
End AddLiquidity.

Module RemoveLiquidity.
Record RemoveLiquidityDraftInput := mk {
  shares : JsValue;
  minRfl : JsValue;
  minUsd : JsValue;
  deadlineUnixSeconds : JsValue
}.
End RemoveLiquidity.

Definition StateChangingCallsDisabledError : JsError :=
  mkError "StateChangingCallsDisabledError" "State-changing calls are disabled. Inject an explicitly approved CedraWriteAdapter in the release application; this client never discovers a wallet or RPC writer by itself.".
Definition MultiAgentSubmissionRequiredError : JsError :=
  mkError "MultiAgentSubmissionRequiredError" "This draft requires ordered secondary signers. Use the build/simulate-only CedraReleaseClient and an independently reviewed signing ceremony; the generic writer cannot submit it.".
Definition UnverifiedSwapQuoteError (detail : string) : JsError :=
  mkError "UnverifiedSwapQuoteError" ("Swap draft refused: " ⧺ detail).
Definition UnverifiedSwapDraftError (detail : string) : JsError :=
  mkError "UnverifiedSwapDraftError" ("Swap submission refused: " ⧺ detail).

(** ** Assertions on untyped values, each with the value at its type *)

Definition reflectionFee (grossAmount feeBps : Z) : Outcome Z :=
  if bool_decide (grossAmount < 0) || bool_decide (grossAmount > U64_MAX)
     || bool_decide (feeBps < 0) || bool_decide (feeBps > MAX_REFLECTION_FEE_BPS)
  then Throws (RangeError "gross amount must be non-negative and fee must be between 0 and 500 basis points")
  else Returns (bpsOf grossAmount feeBps).

Definition asBigint (value : JsValue) (label : string) : Outcome Z :=
  match value with
  | JsBigint n => Returns n
  | _ => Throws (TypeError (label ⧺ " must be a bigint base-unit value"))
  end.

Definition assertUnsigned (value : JsValue) (maximum : Z) (label : string) : Outcome Z :=
  n ← asBigint value label;
  if bool_decide (n < 0) || bool_decide (n > maximum)
  then Throws (RangeError (label ⧺ " must fit the on-chain unsigned integer type")) else Returns n.

Definition assertPositive (value : JsValue) (maximum : Z) (label : string) : Outcome Z :=
  n ← asBigint value label;
  if bool_decide (n <= 0) || bool_decide (n > maximum)
  then Throws (RangeError (label ⧺ " must be positive and fit the on-chain unsigned integer type")) else Returns n.

Definition assertFutureDeadline (deadlineUnixSeconds : JsValue) (nowUnixSeconds : Z) : Outcome Z :=
  deadline ← assertUnsigned deadlineUnixSeconds U64_MAX "deadline";
  if bool_decide (deadline <= nowUnixSeconds)
  then Throws (RangeError "transaction deadline must be in the future") else Returns deadline.

Definition assertNonZeroAddress (address : JsValue) (label : string) : Outcome Address :=
  let invalid := Throws (TypeError (label ⧺ " must be a non-zero Cedra account address")) in
  match address with
  | JsString s => if negb (isHexAddress s) || isZeroAddress s then invalid else Returns s
  | _ => invalid
  end.

Definition assertFaucetAsset (asset : JsValue) : Outcome Asset :=
  match asset with
  | JsString "tRFL" => Returns tRFL
  | JsString "tUSD" => Returns tUSD
  | _ => Throws (TypeError "faucet asset must be tRFL or tUSD")
  end.

Definition assertSwapDirection (direction : JsValue) : Outcome SwapDirection :=
  match direction with
  | JsString "buy" => Returns buy
  | JsString "sell" => Returns sell
  | _ => Throws (TypeError "swap direction must be buy or sell")
  end.

(** ** [assertSwapQuote] *)

(** [value === n], for a number *)
Definition isNumber (value : JsValue) (n : Z) : bool :=
  match value with JsNumber (Some m) => bool_decide (m = n) | _ => false end.

(** The provenance of a quote, [candidate.context]. *)
Definition assertSwapContext (context : JsValue) : Outcome SwapContext.SwapQuoteContext :=
  match context with
  | JsObject _ =>
      (if isNumber (member context "chainId") CEDRA_TESTNET_CHAIN_ID then Returns tt
       else Throws (TypeError "swap quote provenance must be Cedra Testnet chain 2")) ≫= fun _ =>
      ledgerVersion ← assertPositive (member context "ledgerVersion") U64_MAX "quote ledger version";
      '(deploymentId, packageVersion) ←
        match member context "deploymentId", member context "packageVersion" with
        | JsString deploymentId, JsString packageVersion =>
            if bool_decide (jsLength deploymentId = 0) || bool_decide (jsLength deploymentId > 512)
               || negb (isPackageVersion packageVersion)
            then Throws (TypeError "swap quote provenance requires bounded deployment and package identities")
            else Returns (deploymentId, packageVersion)
        | _, _ => Throws (TypeError "swap quote provenance requires bounded deployment and package identities")
        end;
      inputReserve ← assertPositive (member context "inputReserve") U64_MAX "quote input reserve";
      outputReserve ← assertPositive (member context "outputReserve") U64_MAX "quote output reserve";
      reflectionFeeBps ← assertUnsigned (member context "reflectionFeeBps") U64_MAX "quote reflection fee rate";
      ammFeeBps ← assertUnsigned (member context "ammFeeBps") U64_MAX "quote AMM fee rate";
      maximumGrossSwap ← assertPositive (member context "maximumGrossSwap") U64_MAX "quote maximum gross swap";
      maximumReserveBps ← assertPositive (member context "maximumReserveBps") U64_MAX "quote maximum reserve share";
      if bool_decide (reflectionFeeBps > MAX_REFLECTION_FEE_BPS) || bool_decide (ammFeeBps > 100)
         || bool_decide (maximumReserveBps > BPS_DENOMINATOR)
      then Throws (RangeError "swap quote fee or reserve-limit provenance exceeds the contract policy")
      else Returns (SwapContext.mk CEDRA_TESTNET_CHAIN_ID ledgerVersion deploymentId packageVersion inputReserve
        outputReserve reflectionFeeBps ammFeeBps maximumGrossSwap maximumReserveBps)
  | _ => Throws (TypeError "swap quote requires finalized arithmetic provenance")
  end.

(** The limits of the pool and the arithmetic of the swap, redone. *)
Definition checkSwapArithmetic (candidate : Swap.SwapQuote) : Outcome unit :=
  let context := candidate.(Swap.context) in
  let gross := candidate.(Swap.grossAmount) in
  (if bool_decide (gross > context.(SwapContext.maximumGrossSwap))
      || bool_decide (gross * BPS_DENOMINATOR > context.(SwapContext.inputReserve) * context.(SwapContext.maximumReserveBps))
   then Throws (RangeError "swap quote exceeds the pinned gross or reserve-share limit") else Returns tt) ≫= fun _ =>
  let isSell := bool_decide (candidate.(Swap.direction) = sell) in
  let expectedSellReflection := bpsOf gross context.(SwapContext.reflectionFeeBps) in
  let expectedReserveInput := if isSell then gross - expectedSellReflection else gross in
  let invariantInput := bpsOf expectedReserveInput (BPS_DENOMINATOR - context.(SwapContext.ammFeeBps)) in
  let expectedAmmFee := expectedReserveInput - invariantInput in
  expectedGrossOutput ← bigintDivide (context.(SwapContext.outputReserve) * invariantInput)
                                     (context.(SwapContext.inputReserve) + invariantInput);
  let expectedReflectionFee :=
    if isSell then expectedSellReflection else bpsOf expectedGrossOutput context.(SwapContext.reflectionFeeBps) in
  let expectedReceipt :=
    if bool_decide (candidate.(Swap.direction) = buy) then expectedGrossOutput - expectedReflectionFee
    else expectedGrossOutput in
  let expectedMinimum := bpsOf expectedReceipt (BPS_DENOMINATOR - candidate.(Swap.slippageBps)) in
  expectedImpact ← bigintDivide (invariantInput * BPS_DENOMINATOR) (context.(SwapContext.inputReserve) + invariantInput);
  if bool_decide (expectedReserveInput <= 0)
     || bool_decide (expectedReceipt <= 0)
     || bool_decide (candidate.(Swap.netReserveInput) <> expectedReserveInput)
     || bool_decide (candidate.(Swap.ammFee) <> expectedAmmFee)
     || bool_decide (candidate.(Swap.grossPoolOutput) <> expectedGrossOutput)
     || bool_decide (candidate.(Swap.reflectionFee) <> expectedReflectionFee)
     || bool_decide (candidate.(Swap.netUserReceipt) <> expectedReceipt)
     || bool_decide (candidate.(Swap.minimumNetUserReceipt) <> expectedMinimum)
     || bool_decide (candidate.(Swap.priceImpactBps) <> expectedImpact)
  then Throws (RangeError "swap quote disagrees with pinned fee, constant-product, slippage, or rounding arithmetic")
  else Returns tt.

Definition assertSwapQuote (quote : JsValue) (nowUnixSeconds : Z) : Outcome Swap.SwapQuote :=
  match quote with
  | JsObject _ =>
      direction ← assertSwapDirection (member quote "direction");
      grossAmount ← assertPositive (member quote "grossAmount") U64_MAX "quote gross amount";
      slippageBps ← assertUnsigned (member quote "slippageBps") U64_MAX "quote slippage";
      reflectionFee ← assertUnsigned (member quote "reflectionFee") U64_MAX "quote reflection fee";
      ammFee ← assertUnsigned (member quote "ammFee") U64_MAX "quote AMM fee";
      netReserveInput ← assertPositive (member quote "netReserveInput") U64_MAX "quote net reserve input";
      grossPoolOutput ← assertPositive (member quote "grossPoolOutput") U64_MAX "quote gross pool output";
      netUserReceipt ← assertPositive (member quote "netUserReceipt") U64_MAX "quote net user receipt";
      minimumNetUserReceipt ← assertUnsigned (member quote "minimumNetUserReceipt") U64_MAX "quote minimum receipt";
      priceImpactBps ← assertUnsigned (member quote "priceImpactBps") U64_MAX "quote price impact";
      assertUnsigned (member quote "deadlineUnixSeconds") U64_MAX "quote deadline" ≫= fun _ =>
      deadlineUnixSeconds ← assertFutureDeadline (member quote "deadlineUnixSeconds") nowUnixSeconds;
      (if bool_decide (slippageBps > BPS_DENOMINATOR)
       then Throws (RangeError "quote slippage cannot exceed 10,000 basis points") else Returns tt) ≫= fun _ =>
      context ← assertSwapContext (member quote "context");
      let candidate := Swap.mk direction grossAmount slippageBps reflectionFee ammFee netReserveInput grossPoolOutput
        netUserReceipt minimumNetUserReceipt priceImpactBps deadlineUnixSeconds context in
      checkSwapArithmetic candidate ≫= fun _ => Returns candidate
  | _ => Throws (TypeError "swap quote must be an object")
  end.

(** ** Fingerprints *)

Definition swapQuoteFingerprint (quote : Swap.SwapQuote) : string :=
  let context := quote.(Swap.context) in
  stringify (JArray [
    JString (directionName quote.(Swap.direction));
    JString (show quote.(Swap.grossAmount));
    JString (show quote.(Swap.slippageBps));
    JString (show quote.(Swap.reflectionFee));
    JString (show quote.(Swap.ammFee));
    JString (show quote.(Swap.netReserveInput));
    JString (show quote.(Swap.grossPoolOutput));
    JString (show quote.(Swap.netUserReceipt));
    JString (show quote.(Swap.minimumNetUserReceipt));
    JString (show quote.(Swap.priceImpactBps));
    JString (show quote.(Swap.deadlineUnixSeconds));
    JNumber context.(SwapContext.chainId);
    JString (show context.(SwapContext.ledgerVersion));
    JString context.(SwapContext.deploymentId);
    JString context.(SwapContext.packageVersion);
    JString (show context.(SwapContext.inputReserve));
    JString (show context.(SwapContext.outputReserve));
    JString (show context.(SwapContext.reflectionFeeBps));
    JString (show context.(SwapContext.ammFeeBps));
    JString (show context.(SwapContext.maximumGrossSwap));
    JString (show context.(SwapContext.maximumReserveBps))]).

(** [typeof argument === "bigint" ? argument.toString() : argument] *)
Definition argumentJson (argument : EntryArgument) : Json :=
  match argument with ArgBigint n => JString (show n) | ArgString s => JString s | ArgBoolean b => JBool b end.

Definition transactionDraftFingerprint (draft : Draft.TransactionDraft) : string :=
  stringify (JArray [
    JString (kindName draft.(Draft.kind));
    JString draft.(Draft.functionId);
    JArray (map argumentJson draft.(Draft.arguments));
    JArray (map JString draft.(Draft.secondarySignerAddresses));
    JString (show draft.(Draft.expirationUnixSeconds));
    JString draft.(Draft.warning)]).

(** ** The client *)

Module Submitted.
Record SubmittedTransaction := mk {
  hash : string;
  submittedAtUnixMilliseconds : Z
}.
End Submitted.

(** [CedraReadAdapter]: what its methods answer, untyped. *)
Module Reader.
Record CedraReadAdapter := mk {
  getPortfolio : Address -> Outcome JsValue;
  getProtocol : Outcome JsValue;
  getPool : Outcome JsValue;
  getLpEpochTerminalDust : Z -> Outcome JsValue;
  getFaucetStatus : Address -> Asset -> Outcome JsValue;
  quoteSwap : Request.QuoteRequest -> Outcome JsValue
}.
End Reader.

(** An object a caller holds: its identity, and its value when it is passed. *)
Module Handle.
Record Handle := mk { identity : nat; contents : JsValue }.
End Handle.

Module Client.
Record ReflectionPilotClient := mk {
  verifiedSwapQuotes : gmap nat string;
  verifiedSwapDrafts : gmap nat string;
  allocated : nat;                                (* objects below are in use *)
  sent : list (nat * Draft.TransactionDraft)      (* what the writer was handed, the latest first *)
}.
End Client.

#[export] Instance eta_ReflectionPilotClient : Eta Client.ReflectionPilotClient :=
  fun r => Client.mk r.(Client.verifiedSwapQuotes) r.(Client.verifiedSwapDrafts) r.(Client.allocated) r.(Client.sent).

(** [new ReflectionPilotClient(reader, options)] *)
Definition newClient : Client.ReflectionPilotClient := Client.mk ∅ ∅ 0 [].

#[local] Notation Method := (Task Client.ReflectionPilotClient).

(** A new object holds the value. *)
Definition newObject {A} (value : A) : Method (nat * A) := fun c =>
  (Returns (c.(Client.allocated), value), c <| Client.allocated := Datatypes.S c.(Client.allocated) |>).

(** [this.nowUnixSeconds()], checked. *)
Definition currentTime (clock : JsValue) : Outcome Z := assertUnsigned clock U64_MAX "current Unix time".

Definition defaultExpiration (clock : JsValue) : Outcome Z :=
  now ← currentTime clock;
  let lifetime := 15 * 60 in
  if bool_decide (now > U64_MAX - lifetime)
  then Throws (RangeError "default transaction expiration exceeds the Move u64 timestamp domain")
  else Returns (now + lifetime).

Section Client.
Context (describe : JsValue -> string).

(** *** Reads *)

Definition getPortfolio (reader : Reader.CedraReadAdapter) (account : JsValue) : Outcome JsValue :=
  account ← assertNonZeroAddress account "portfolio account"; reader.(Reader.getPortfolio) account.

Definition getProtocol (reader : Reader.CedraReadAdapter) : Outcome JsValue := reader.(Reader.getProtocol).
Definition getPool (reader : Reader.CedraReadAdapter) : Outcome JsValue := reader.(Reader.getPool).

Definition getLpEpochTerminalDust (reader : Reader.CedraReadAdapter) (epoch : JsValue)
    : Outcome TerminalDust.LpEpochTerminalDustSnapshot :=
  epoch ← assertPositive epoch U64_MAX "LP epoch";
  observed ← reader.(Reader.getLpEpochTerminalDust) epoch;
  (match isObject observed, member observed "epoch" with
   | true, JsBigint n => if bool_decide (n = epoch) then Returns tt
       else Throws (TypeError "LP terminal-dust adapter returned a result for a different epoch")
   | _, _ => Throws (TypeError "LP terminal-dust adapter returned a result for a different epoch")
   end) ≫= fun _ =>
  terminalRoundingBaseUnits ← assertUnsigned (member observed "terminalRoundingBaseUnits") U128_MAX
    "terminal LP rounding base units";
  retiredResidueMagnified ← assertUnsigned (member observed "retiredResidueMagnified") U256_MAX
    "retired LP residue magnified units";
  ledgerVersion ← assertPositive (member observed "ledgerVersion") U64_MAX "LP terminal-dust ledger version";
  Returns (TerminalDust.mk epoch terminalRoundingBaseUnits retiredResidueMagnified ledgerVersion).

Definition getFaucetStatus (reader : Reader.CedraReadAdapter) (account asset : JsValue) : Outcome JsValue :=
  account ← assertNonZeroAddress account "faucet account";
  asset ← assertFaucetAsset asset;
  reader.(Reader.getFaucetStatus) account asset.

(** *** Quotes *)

(** [quoteSwap] up to the read, which is asynchronous: what it asks the reader. *)
Definition quoteSwapRequest (input clock : JsValue) : Outcome Request.QuoteRequest :=
  direction ← readMember input "direction" ≫= assertSwapDirection;
  grossAmount ← assertPositive (member input "grossAmount") U64_MAX "swap amount";
  slippageBps ← assertUnsigned (member input "slippageBps") U64_MAX "slippage";
  (if bool_decide (slippageBps < 0) || bool_decide (slippageBps > BPS_DENOMINATOR)
   then Throws (RangeError "slippage must be between 0 and 10,000 basis points") else Returns tt) ≫= fun _ =>
  now ← currentTime clock;
  deadlineUnixSeconds ← assertFutureDeadline (member input "deadlineUnixSeconds") now;
  Returns (Request.mk direction grossAmount slippageBps deadlineUnixSeconds).

(** [quoteSwap] after it: the quote is verified, frozen and remembered. *)
Definition quoteSwapAnswer (input : Request.QuoteRequest) (answer : Outcome JsValue) (clock : JsValue)
    : Method (nat * Swap.SwapQuote) :=
  quote ← evaluate answer;
  now ← evaluate (currentTime clock);
  quote ← evaluate (assertSwapQuote quote now);
  unlessThrow (bool_decide (quote.(Swap.direction) = input.(Request.direction))
      && bool_decide (quote.(Swap.grossAmount) = input.(Request.grossAmount))
      && bool_decide (quote.(Swap.slippageBps) = input.(Request.slippageBps))
      && bool_decide (quote.(Swap.deadlineUnixSeconds) = input.(Request.deadlineUnixSeconds)))
    (TypeError "read adapter returned a quote for different declared inputs") ;;
  '(verified, quote) ← newObject quote;
  modifyState (fun c => c <| Client.verifiedSwapQuotes := <[verified := swapQuoteFingerprint quote]> c.(Client.verifiedSwapQuotes) |>) ;;
  mret (verified, quote).

Definition quoteSwap (reader : Reader.CedraReadAdapter) (input clock laterClock : JsValue)
    : Method (nat * Swap.SwapQuote) :=
  request ← evaluate (quoteSwapRequest input clock);
  quoteSwapAnswer request (reader.(Reader.quoteSwap) request) laterClock.

(** *** Drafts *)

(** [createDraft]: the clock is read when no expiration is given. *)
Definition createDraft (kind : DraftKind) (functionId : string) (args : list EntryArgument)
    (expirationUnixSeconds : option Z) (clock : JsValue) : Outcome Draft.TransactionDraft :=
  expiration ← from_option Returns (defaultExpiration clock) expirationUnixSeconds;
  expiration ← assertUnsigned (JsBigint expiration) U64_MAX "transaction expiration";
  (if bool_decide (expiration <= 0) then Throws (RangeError "transaction expiration must be positive")
   else Returns tt) ≫= fun _ =>
  let draft := Draft.mk kind functionId args [] expiration TESTNET_NO_VALUE_WARNING in
  assertCedraTransactionDraft describe (draftValue draft) ≫= fun _ => Returns draft.

Definition createFaucetClaimDraft (asset clock : JsValue) : Outcome Draft.TransactionDraft :=
  asset ← assertFaucetAsset asset;
  createDraft faucet_claim
    (if bool_decide (asset = tRFL) then "test_assets::test_faucet::claim_trfl" else "test_assets::test_faucet::claim_tusd")
    [] None clock.

Definition createRewardClaimDraft (amount clock : JsValue) : Outcome Draft.TransactionDraft :=
  amount ← assertPositive amount U64_MAX "claim amount";
  createDraft claim_rewards "reflection_core::reflection_token::claim" [ArgBigint amount] None clock.

Definition createRewardClaimAllDraft (clock : JsValue) : Outcome Draft.TransactionDraft :=
  createDraft claim_rewards "reflection_core::reflection_token::claim_all" [] None clock.

(** The draft of a verified quote. *)
Definition createSwapDraft (quote : Handle.Handle) (clock : JsValue) : Method (nat * Draft.TransactionDraft) :=
  c ← getState;
  match c.(Client.verifiedSwapQuotes) !! quote.(Handle.identity) with
  | None => throwing (UnverifiedSwapQuoteError "quote was not issued by this client from a finalized read")
  | Some expectedFingerprint =>
      now ← evaluate (currentTime clock);
      quote ← evaluate (assertSwapQuote quote.(Handle.contents) now);
      unlessThrow (bool_decide (swapQuoteFingerprint quote = expectedFingerprint))
        (UnverifiedSwapQuoteError "issued quote was mutated after verification") ;;
      draft ← evaluate (createDraft swap
        (if bool_decide (quote.(Swap.direction) = buy) then "test_amm::pool::buy_trfl" else "test_amm::pool::sell_trfl")
        [ArgBigint quote.(Swap.grossAmount); ArgBigint quote.(Swap.minimumNetUserReceipt);
         ArgBigint quote.(Swap.deadlineUnixSeconds)]
        (Some quote.(Swap.deadlineUnixSeconds)) clock);
      '(object, draft) ← newObject draft;
      modifyState (fun c => c <| Client.verifiedSwapDrafts := <[object := transactionDraftFingerprint draft]> c.(Client.verifiedSwapDrafts) |>) ;;
      mret (object, draft)
  end.

Definition quoteAndCreateSwapDraft (reader : Reader.CedraReadAdapter) (input clock laterClock lastClock : JsValue)
    : Method ((nat * Swap.SwapQuote) * (nat * Draft.TransactionDraft)) :=
  '(object, quote) ← quoteSwap reader input clock laterClock;
  draft ← createSwapDraft (Handle.mk object (quoteValue quote)) lastClock;
  mret ((object, quote), draft).

Definition createAddLiquidityDraft (input : AddLiquidity.AddLiquidityDraftInput) (clock : JsValue)
    : Outcome Draft.TransactionDraft :=
  maxRfl ← assertPositive input.(AddLiquidity.maxRfl) U64_MAX "maximum tRFL contribution";
  maxUsd ← assertPositive input.(AddLiquidity.maxUsd) U64_MAX "maximum tUSD contribution";
  minLpShares ← assertUnsigned input.(AddLiquidity.minLpShares) U128_MAX "minimum LP shares";
  now ← currentTime clock;
  deadlineUnixSeconds ← assertFutureDeadline input.(AddLiquidity.deadlineUnixSeconds) now;
  createDraft add_liquidity "test_amm::pool::add_liquidity"
    [ArgBigint maxRfl; ArgBigint maxUsd; ArgBigint minLpShares; ArgBigint deadlineUnixSeconds]
    (Some deadlineUnixSeconds) clock.

Definition createRemoveLiquidityDraft (input : RemoveLiquidity.RemoveLiquidityDraftInput) (clock : JsValue)
    : Outcome Draft.TransactionDraft :=
  shares ← assertPositive input.(RemoveLiquidity.shares) U128_MAX "LP shares";
  minRfl ← assertUnsigned input.(RemoveLiquidity.minRfl) U64_MAX "minimum tRFL output";
  minUsd ← assertUnsigned input.(RemoveLiquidity.minUsd) U64_MAX "minimum tUSD output";
  now ← currentTime clock;
  deadlineUnixSeconds ← assertFutureDeadline input.(RemoveLiquidity.deadlineUnixSeconds) now;
  createDraft remove_liquidity "test_amm::pool::remove_liquidity"
    [ArgBigint shares; ArgBigint minRfl; ArgBigint minUsd; ArgBigint deadlineUnixSeconds]
    (Some deadlineUnixSeconds) clock.

Definition createTransferLpSharesDraft (recipient shares clock : JsValue) : Outcome Draft.TransactionDraft :=
  recipient ← assertNonZeroAddress recipient "LP share recipient";
  shares ← assertPositive shares U128_MAX "LP shares";
  createDraft transfer_lp_shares "test_amm::pool::transfer_lp_shares" [ArgString recipient; ArgBigint shares] None clock.

Definition createLpRewardClaimDraft (epoch amount clock : JsValue) : Outcome Draft.TransactionDraft :=
  epoch ← assertPositive epoch U64_MAX "LP reward epoch";
  amount ← assertUnsigned amount U64_MAX "LP reward claim amount";
  createDraft claim_lp_rewards "test_amm::pool::claim_lp_rewards" [ArgBigint epoch; ArgBigint amount] None clock.

Definition createCheckpointLpRewardsDraft (clock : JsValue) : Outcome Draft.TransactionDraft :=
  createDraft checkpoint_lp_rewards "test_amm::pool::checkpoint_lp_rewards" [] None clock.

(** *** Submission *)

(** [this.writer.submit(draft)] *)
Definition writerSubmit (writer : Draft.TransactionDraft -> Outcome Submitted.SubmittedTransaction)
    (identity : nat) (draft : Draft.TransactionDraft) : Method Submitted.SubmittedTransaction := fun c =>
  (writer draft, c <| Client.sent := (identity, draft) :: c.(Client.sent) |>).

Definition submit (writer : option (Draft.TransactionDraft -> Outcome Submitted.SubmittedTransaction))
    (draft : Handle.Handle) (clock : JsValue) : Method Submitted.SubmittedTransaction :=
  typed ← evaluate (assertCedraTransactionDraft describe draft.(Handle.contents));
  c ← getState;
  (if bool_decide (typed.(Draft.kind) = swap) then
     unlessThrow (bool_decide (c.(Client.verifiedSwapDrafts) !! draft.(Handle.identity) = Some (transactionDraftFingerprint typed)))
       (UnverifiedSwapDraftError "draft was not issued intact from this client's verified quote path") ;;
     now ← evaluate (currentTime clock);
     unlessThrow (bool_decide (now < typed.(Draft.expirationUnixSeconds))) (RangeError "swap draft has expired")
   else mret tt) ;;
  unlessThrow (bool_decide (arrayLength typed.(Draft.secondarySignerAddresses) <= 0)) MultiAgentSubmissionRequiredError ;;
  match writer with
  | None => throwing StateChangingCallsDisabledError
  | Some writer => writerSubmit writer draft.(Handle.identity) typed
  end.
End Client.
