(* ===== verification/QuoteSpec.v ===== *)
(** * What a verified quote promises

    A swap settles on the constant-product curve: the fees are floors, and the
    pool pays the most that does not let the product of its reserves fall.
    [Verified] says this of a quote, with the widths, limits and provenance the
    client asks for, and [assertSwapQuote] accepts exactly the values that carry
    such a quote. *)
From S2P Require Import Prelude JsMap Types MoveDomains JsValue Json SdkTypes Accounting Replay Group WalletHandlers.
From S2P Require Import LpHandlers PoolHandlers LiquidityMath DraftEncoder SafeClient.

(** The terms of one swap: fees in basis points, the reserve the input goes to
    and the one the output comes from, what is given, and what comes of it. *)
Module Terms.
Record SwapTerms := mk {
  reflectionFeeBps : Z;
  ammFeeBps : Z;
  inputReserve : Z;
  outputReserve : Z;
  grossAmount : Z;
  reflectionFee : Z;
  ammFee : Z;
  netReserveInput : Z;
  grossPoolOutput : Z;
  netUserReceipt : Z
}.
End Terms.

Record OnCurve (direction : SwapDirection) (t : Terms.SwapTerms) : Prop := {
  curve_amm_fee :
    IsFloor (t.(Terms.netReserveInput) * (BPS_DENOMINATOR - t.(Terms.ammFeeBps))) BPS_DENOMINATOR
      (t.(Terms.netReserveInput) - t.(Terms.ammFee));
  curve_output :
    let traded := t.(Terms.netReserveInput) - t.(Terms.ammFee) in
    let product out := (t.(Terms.inputReserve) + traded) * (t.(Terms.outputReserve) - out) in
    product (t.(Terms.grossPoolOutput) + 1) < t.(Terms.inputReserve) * t.(Terms.outputReserve)
      <= product t.(Terms.grossPoolOutput);
  curve_reflection :
    match direction with
    | sell =>
        IsFloor (t.(Terms.grossAmount) * t.(Terms.reflectionFeeBps)) BPS_DENOMINATOR t.(Terms.reflectionFee)
        /\ t.(Terms.grossAmount) = t.(Terms.reflectionFee) + t.(Terms.netReserveInput)
        /\ t.(Terms.netUserReceipt) = t.(Terms.grossPoolOutput)
    | buy =>
        IsFloor (t.(Terms.grossPoolOutput) * t.(Terms.reflectionFeeBps)) BPS_DENOMINATOR t.(Terms.reflectionFee)
        /\ t.(Terms.netReserveInput) = t.(Terms.grossAmount)
        /\ t.(Terms.grossPoolOutput) = t.(Terms.reflectionFee) + t.(Terms.netUserReceipt)
    end
}.

Definition termsOf (q : Swap.SwapQuote) : Terms.SwapTerms :=
  let c := q.(Swap.context) in
  Terms.mk c.(SwapContext.reflectionFeeBps) c.(SwapContext.ammFeeBps) c.(SwapContext.inputReserve)
    c.(SwapContext.outputReserve) q.(Swap.grossAmount) q.(Swap.reflectionFee) q.(Swap.ammFee)
    q.(Swap.netReserveInput) q.(Swap.grossPoolOutput) q.(Swap.netUserReceipt).

Definition Unsigned (maximum n : Z) : Prop := 0 <= n <= maximum.
Definition Positive (maximum n : Z) : Prop := 0 < n <= maximum.

(** Where the quote was read, and what the pool allowed there. *)
Record ContextOk (c : SwapContext.SwapQuoteContext) : Prop := {
  context_chain : c.(SwapContext.chainId) = CEDRA_TESTNET_CHAIN_ID;
  context_version : Positive U64_MAX c.(SwapContext.ledgerVersion);
  context_deployment : 1 <= jsLength c.(SwapContext.deploymentId) <= 512;
  context_package : isPackageVersion c.(SwapContext.packageVersion) = true;
  context_input : Positive U64_MAX c.(SwapContext.inputReserve);
  context_output : Positive U64_MAX c.(SwapContext.outputReserve);
  context_reflection : Unsigned MAX_REFLECTION_FEE_BPS c.(SwapContext.reflectionFeeBps);
  context_amm : Unsigned 100 c.(SwapContext.ammFeeBps);
  context_gross : Positive U64_MAX c.(SwapContext.maximumGrossSwap);
  context_share : Positive BPS_DENOMINATOR c.(SwapContext.maximumReserveBps)
}.

(** The amounts fit their width. *)
Record AmountsOk (q : Swap.SwapQuote) : Prop := {
  amounts_gross : Positive U64_MAX q.(Swap.grossAmount);
  amounts_slippage : Unsigned BPS_DENOMINATOR q.(Swap.slippageBps);
  amounts_reflection : Unsigned U64_MAX q.(Swap.reflectionFee);
  amounts_amm : Unsigned U64_MAX q.(Swap.ammFee);
  amounts_net : Positive U64_MAX q.(Swap.netReserveInput);
  amounts_output : Positive U64_MAX q.(Swap.grossPoolOutput);
  amounts_receipt : Positive U64_MAX q.(Swap.netUserReceipt);
  amounts_minimum : Unsigned U64_MAX q.(Swap.minimumNetUserReceipt);
  amounts_impact : Unsigned U64_MAX q.(Swap.priceImpactBps)
}.

(** The arithmetic of the quote: limits, curve, slippage and price impact. *)
Record Priced (q : Swap.SwapQuote) : Prop := {
  priced_gross : q.(Swap.grossAmount) <= q.(Swap.context).(SwapContext.maximumGrossSwap);
  priced_share :
    q.(Swap.grossAmount) * BPS_DENOMINATOR
      <= q.(Swap.context).(SwapContext.inputReserve) * q.(Swap.context).(SwapContext.maximumReserveBps);
  priced_curve : OnCurve q.(Swap.direction) (termsOf q);
  priced_minimum :
    IsFloor (q.(Swap.netUserReceipt) * (BPS_DENOMINATOR - q.(Swap.slippageBps))) BPS_DENOMINATOR
      q.(Swap.minimumNetUserReceipt);
  priced_impact :
    let traded := q.(Swap.netReserveInput) - q.(Swap.ammFee) in
    IsFloor (traded * BPS_DENOMINATOR) (q.(Swap.context).(SwapContext.inputReserve) + traded) q.(Swap.priceImpactBps)
}.

Record Verified (now : Z) (q : Swap.SwapQuote) : Prop := {
  verified_deadline : now < q.(Swap.deadlineUnixSeconds);
  verified_width : Unsigned U64_MAX q.(Swap.deadlineUnixSeconds);
  verified_context : ContextOk q.(Swap.context);
  verified_amounts : AmountsOk q;
  verified_priced : Priced q
}.

(** ** The terms, computed *)

#[local] Arguments bpsOf _ _ : simpl never.

(** What a swap of [gross] settles at. *)
Definition settleSwap (direction : SwapDirection) (reflectionFeeBps ammFeeBps inputReserve outputReserve gross : Z)
    : Terms.SwapTerms :=
  let sellFee := bpsOf gross reflectionFeeBps in
  let net := match direction with sell => gross - sellFee | buy => gross end in
  let traded := bpsOf net (BPS_DENOMINATOR - ammFeeBps) in
  let out := Z.quot (outputReserve * traded) (inputReserve + traded) in
  let fee := match direction with sell => sellFee | buy => bpsOf out reflectionFeeBps end in
  Terms.mk reflectionFeeBps ammFeeBps inputReserve outputReserve gross fee (net - traded) net out
    match direction with sell => out | buy => out - fee end.

(** The ranges in which the arithmetic of the code is that of the integers. *)
Definition InRange (t : Terms.SwapTerms) : Prop :=
  0 <= t.(Terms.reflectionFeeBps) <= BPS_DENOMINATOR /\ 0 <= t.(Terms.ammFeeBps) <= BPS_DENOMINATOR
  /\ 0 < t.(Terms.inputReserve) /\ 0 <= t.(Terms.outputReserve) /\ 0 <= t.(Terms.grossAmount).

(** The inequalities have one solution, and [settleSwap] computes it. *)
Lemma onCurve_settle direction t :
  InRange t ->
  OnCurve direction t
  <-> t = settleSwap direction t.(Terms.reflectionFeeBps) t.(Terms.ammFeeBps) t.(Terms.inputReserve)
            t.(Terms.outputReserve) t.(Terms.grossAmount).
Proof.
  destruct t as [fee amm x y gross rf af net out receipt]. unfold InRange, settleSwap. cbn. intros (Hf & Ha & Hx & Hy & Hg).
  pose proof (bpsOf_le gross fee Hg Hf) as Hfee.
  set (net' := match direction with sell => gross - bpsOf gross fee | buy => gross end).
  assert (Hn : 0 <= net') by (unfold net'; destruct direction; lia).
  pose proof (bpsOf_le net' (BPS_DENOMINATOR - amm) Hn ltac:(lia)) as Ht.
  set (traded := bpsOf net' (BPS_DENOMINATOR - amm)) in *.
  assert (Hout : 0 <= Z.quot (y * traded) (x + traded)) by (apply Z.quot_pos; nia).
  split.
  - intros [Hamm Hcurve Hrefl]. cbn in *.
    assert (net = net') as ->.
    { unfold net'. destruct direction; [lia|]. destruct Hrefl as (Hr & -> & _).
      apply bpsOf_floor in Hr; lia. }
    apply bpsOf_floor in Hamm; [|lia|lia]. fold traded in Hamm. assert (af = net' - traded) as -> by lia.
    replace (net' - (net' - traded)) with traded in Hcurve by lia.
    apply curve_quot in Hcurve; [|lia|lia|lia]. subst out.
    destruct direction; destruct Hrefl as (Hr & Hs & Hu); (apply bpsOf_floor in Hr; [|lia|lia]); rewrite Hr; f_equal; lia.
  - intros [= -> -> -> -> ->]. split; cbn.
    + replace (net' - (net' - traded)) with traded by lia. apply bpsOf_floor; [lia|lia|done].
    + replace (net' - (net' - traded)) with traded by lia. apply curve_quot; [lia|lia|lia|done].
    + unfold net'. destruct direction; (split; [apply bpsOf_floor; [lia|lia|done]|lia]).
Qed.

(** ** The check of the arithmetic is exact *)

Lemma context_range q : ContextOk q.(Swap.context) -> 0 <= q.(Swap.grossAmount) -> InRange (termsOf q).
Proof.
  intros [_ _ _ _ Hx Hy Hr Ha _ _] Hg. unfold InRange, Positive, Unsigned, MAX_REFLECTION_FEE_BPS, BPS_DENOMINATOR in *.
  cbn. lia.
Qed.

(** Between reasonable terms, all that is traded is an input, and what is paid an output. *)
Lemma settle_traded direction fee amm x y gross :
  0 <= fee <= BPS_DENOMINATOR -> 0 <= amm <= BPS_DENOMINATOR -> 0 <= gross ->
  let t := settleSwap direction fee amm x y gross in
  0 <= t.(Terms.netReserveInput) - t.(Terms.ammFee) <= t.(Terms.netReserveInput) /\ t.(Terms.netReserveInput) <= gross.
Proof.
  intros Hf Ha Hg. cbn. pose proof (bpsOf_le gross fee Hg Hf).
  set (net := match direction with sell => gross - bpsOf gross fee | buy => gross end).
  assert (0 <= net <= gross) by (unfold net; destruct direction; lia).
  pose proof (bpsOf_le net (BPS_DENOMINATOR - amm) ltac:(lia) ltac:(lia)). lia.
Qed.

(** The check compares with what the swap settles at. *)
Lemma checkSwapArithmetic_settle q :
  InRange (termsOf q) ->
  let c := q.(Swap.context) in
  let t := settleSwap q.(Swap.direction) c.(SwapContext.reflectionFeeBps) c.(SwapContext.ammFeeBps)
             c.(SwapContext.inputReserve) c.(SwapContext.outputReserve) q.(Swap.grossAmount) in
  let traded := t.(Terms.netReserveInput) - t.(Terms.ammFee) in
  checkSwapArithmetic q = Returns tt <->
  q.(Swap.grossAmount) <= c.(SwapContext.maximumGrossSwap)
  /\ q.(Swap.grossAmount) * BPS_DENOMINATOR <= c.(SwapContext.inputReserve) * c.(SwapContext.maximumReserveBps)
  /\ 0 < t.(Terms.netReserveInput) /\ 0 < t.(Terms.netUserReceipt) /\ termsOf q = t
  /\ q.(Swap.minimumNetUserReceipt) = bpsOf t.(Terms.netUserReceipt) (BPS_DENOMINATOR - q.(Swap.slippageBps))
  /\ q.(Swap.priceImpactBps) = Z.quot (traded * BPS_DENOMINATOR) (c.(SwapContext.inputReserve) + traded).
Proof.
  destruct q as [dir gross slippage rf af net out receipt minimum impact deadline c].
  intros (Hf & Ha & Hx & Hy & Hg). cbn in Hf, Ha, Hx, Hy, Hg. cbv zeta. unfold checkSwapArithmetic, termsOf. cbn [Swap.context Swap.grossAmount
    Swap.direction Swap.netReserveInput Swap.ammFee Swap.grossPoolOutput Swap.reflectionFee Swap.netUserReceipt
    Swap.minimumNetUserReceipt Swap.priceImpactBps Swap.slippageBps].
  pose proof (settle_traded dir _ _ c.(SwapContext.inputReserve) c.(SwapContext.outputReserve) gross Hf Ha Hg) as [Ht _].
  unfold settleSwap in *. cbn in Ht.
  destruct dir; cbn [Terms.netReserveInput Terms.ammFee Terms.netUserReceipt];
    [rewrite (bool_decide_false (buy = sell)) by done; rewrite (bool_decide_true (buy = buy)) by done
    |rewrite (bool_decide_true (sell = sell)) by done; rewrite (bool_decide_false (sell = buy)) by done].
  all: cbv zeta; repeat rewrite bigintDivide_pos by lia; cbn [mbind outcome_bind].
  all: match goal with |- context [?n - (?n - ?t)] => replace (n - (n - t)) with t by lia end.
  all: split.
  1,3: intros E; repeat case_match; try discriminate E; bools; repeat match goal with H : ~ (_ <> _) |- _ => apply dec_stable in H end;
    repeat split; try lia; by f_equal.
  all: intros (H1 & H2 & H3 & H4 & H5 & H6 & H7); injection H5 as E1 E2 E3 E4 E5;
    repeat (case_bool_decide; [exfalso; first [contradiction|lia]|]); done.
Qed.

Lemma settle_range direction fee amm x y gross :
  let t := settleSwap direction fee amm x y gross in
  t.(Terms.reflectionFeeBps) = fee /\ t.(Terms.ammFeeBps) = amm /\ t.(Terms.inputReserve) = x
  /\ t.(Terms.outputReserve) = y /\ t.(Terms.grossAmount) = gross.
Proof. by destruct direction. Qed.

Lemma checkSwapArithmetic_exact q :
  ContextOk q.(Swap.context) -> AmountsOk q -> checkSwapArithmetic q = Returns tt <-> Priced q.
Proof.
  intros Hc Hq. pose proof (context_range q Hc ltac:(destruct Hq as [[? _]]; lia)) as Hr.
  rewrite (checkSwapArithmetic_settle q Hr). cbv zeta.
  pose proof (onCurve_settle q.(Swap.direction) (termsOf q) Hr) as Hcurve.
  change (Terms.reflectionFeeBps (termsOf q)) with q.(Swap.context).(SwapContext.reflectionFeeBps) in Hcurve.
  change (Terms.ammFeeBps (termsOf q)) with q.(Swap.context).(SwapContext.ammFeeBps) in Hcurve.
  change (Terms.inputReserve (termsOf q)) with q.(Swap.context).(SwapContext.inputReserve) in Hcurve.
  change (Terms.outputReserve (termsOf q)) with q.(Swap.context).(SwapContext.outputReserve) in Hcurve.
  change (Terms.grossAmount (termsOf q)) with q.(Swap.grossAmount) in Hcurve.
  destruct Hr as (Hf & Ha & Hx & Hy & Hg). cbn in Hf, Ha, Hx, Hg.
  pose proof (settle_traded q.(Swap.direction) _ _ (q.(Swap.context).(SwapContext.inputReserve))
    (q.(Swap.context).(SwapContext.outputReserve)) _ Hf Ha Hg) as [Ht _]. cbv zeta in Ht.
  set (t := settleSwap _ _ _ _ _ _) in *. destruct Hq as [_ Hs _ _ Hn _ Hu _ _]. unfold Positive, Unsigned in *.
  split.
  - intros (H1 & H2 & H3 & H4 & H5 & H6 & H7). split; [done|done|by apply Hcurve| |]; cbv zeta.
    + apply bpsOf_floor; [lia|lia|]. rewrite H6, <- H5. done.
    + apply quot_floor; [rewrite <- H5 in Ht; cbn in Ht; unfold BPS_DENOMINATOR; lia|rewrite <- H5 in Ht; cbn in Ht; lia|].
      rewrite H7, <- H5. done.
  - intros [H1 H2 H3 H4 H5]. apply Hcurve in H3. rewrite <- H3 in *. cbn in *.
    split; [done|]. split; [done|]. split; [lia|]. split; [lia|]. split; [done|]. split.
    + symmetry. apply bpsOf_floor; [lia|lia|done].
    + symmetry. apply quot_floor; [unfold BPS_DENOMINATOR; lia|lia|done].
Qed.

(** ** The value that crosses the boundary *)

(** [v] is a record that has the properties [keys] of [w]. *)
Definition Carries (keys : list string) (v w : JsValue) : Prop :=
  (exists fields, v = JsObject fields) /\ Forall (fun key => member v key = member w key) keys.

Definition contextKeys : list string :=
  ["chainId"; "ledgerVersion"; "deploymentId"; "packageVersion"; "inputReserve"; "outputReserve"; "reflectionFeeBps";
   "ammFeeBps"; "maximumGrossSwap"; "maximumReserveBps"].
Definition quoteKeys : list string :=
  ["direction"; "grossAmount"; "slippageBps"; "reflectionFee"; "ammFee"; "netReserveInput"; "grossPoolOutput";
   "netUserReceipt"; "minimumNetUserReceipt"; "priceImpactBps"; "deadlineUnixSeconds"].

(** The value has the fields of the quote, those of its context included. *)
Definition CarriesQuote (v : JsValue) (q : Swap.SwapQuote) : Prop :=
  Carries quoteKeys v (quoteValue q)
  /\ Carries contextKeys (member v "context") (contextValue q.(Swap.context)).

Lemma assertUnsigned_returns v maximum label n :
  assertUnsigned v maximum label = Returns n <-> v = JsBigint n /\ Unsigned maximum n.
Proof.
  unfold assertUnsigned, asBigint, Unsigned. destruct v; cbn; try (split; [done|by intros [? _]]).
  destruct (decide (0 <= n0 <= maximum)).
  - rewrite !bool_decide_false by lia. cbn. split; [by intros [= ->]|by intros [[= ->] _]].
  - replace (_ || _) with true by (symmetry; rewrite orb_true_iff, !bool_decide_eq_true; lia).
    split; [done|intros [[= ->] ?]; lia].
Qed.

Lemma assertPositive_returns v maximum label n :
  assertPositive v maximum label = Returns n <-> v = JsBigint n /\ Positive maximum n.
Proof.
  unfold assertPositive, asBigint, Positive. destruct v; cbn; try (split; [done|by intros [? _]]).
  destruct (decide (0 < n0 <= maximum)).
  - rewrite !bool_decide_false by lia. cbn. split; [by intros [= ->]|by intros [[= ->] _]].
  - replace (_ || _) with true by (symmetry; rewrite orb_true_iff, !bool_decide_eq_true; lia).
    split; [done|intros [[= ->] ?]; lia].
Qed.

Lemma assertFutureDeadline_returns v now n :
  assertFutureDeadline v now = Returns n <-> v = JsBigint n /\ Unsigned U64_MAX n /\ now < n.
Proof.
  unfold assertFutureDeadline. destruct (assertUnsigned v U64_MAX "deadline") as [d|e] eqn:E; cbn.
  - apply assertUnsigned_returns in E as [-> Hd]. case_bool_decide; split; try done.
    + intros ([= ->] & _ & ?). lia.
    + intros [= ->]. split; [done|]. split; [done|lia].
    + by intros ([= ->] & _ & ?).
  - split; [done|]. intros (-> & Hn & _). assert (E' : assertUnsigned (JsBigint n) U64_MAX "deadline" = Returns n)
      by by apply assertUnsigned_returns. by rewrite E' in E.
Qed.

Lemma assertSwapDirection_returns v d : assertSwapDirection v = Returns d <-> v = JsString (directionName d).
Proof.
  split; [|by intros ->; destruct d].
  unfold assertSwapDirection. repeat (case_match; try discriminate); by intros [= <-].
Qed.

Lemma isNumber_iff v n : isNumber v n = true <-> v = JsNumber (Some n).
Proof.
  unfold isNumber. repeat case_match; try (split; done). rewrite bool_decide_eq_true. split; [by intros ->|by intros [= ->]].
Qed.

Lemma carries_cons key keys v w :
  Carries (key :: keys) v w <-> member v key = member w key /\ Carries keys v w.
Proof. unfold Carries. rewrite Forall_cons_iff. tauto. Qed.

Lemma carries_nil v w : Carries [] v w <-> exists fields, v = JsObject fields.
Proof. unfold Carries. split; [by intros []|done]. Qed.

Lemma deployment_returns v w d p :
  match v, w with
  | JsString deploymentId, JsString packageVersion =>
      if bool_decide (jsLength deploymentId = 0) || bool_decide (jsLength deploymentId > 512)
         || negb (isPackageVersion packageVersion)
      then Throws (TypeError "swap quote provenance requires bounded deployment and package identities")
      else Returns (deploymentId, packageVersion)
  | _, _ => Throws (TypeError "swap quote provenance requires bounded deployment and package identities")
  end = Returns (d, p)
  <-> v = JsString d /\ w = JsString p /\ 1 <= jsLength d <= 512 /\ isPackageVersion p = true.
Proof.
  split.
  - destruct v; try discriminate. destruct w; try discriminate. case_match eqn:E; [discriminate|].
    intros [= -> ->]. bools. unfold jsLength in *. lia || (split; [done|]; split; [done|]; split; [lia|]; done).
  - intros (-> & -> & Hd & ->). by rewrite !bool_decide_false by lia.
Qed.

(** The code reads nothing else of a context, and of a quote. *)
Lemma assertSwapContext_carries v w :
  Carries contextKeys v w -> Carries contextKeys w v -> assertSwapContext v = assertSwapContext w.
Proof.
  unfold contextKeys. rewrite !carries_cons, !carries_nil.
  intros (E1 & E2 & E3 & E4 & E5 & E6 & E7 & E8 & E9 & E10 & (f & ->)) H.
  assert (exists g, w = JsObject g) as [g ->] by apply H. clear H.
  unfold assertSwapContext. by rewrite E1, E2, E3, E4, E5, E6, E7, E8, E9, E10.
Qed.

Lemma context_members c :
  member (contextValue c) "chainId" = JsNumber (Some c.(SwapContext.chainId))
  /\ member (contextValue c) "ledgerVersion" = JsBigint c.(SwapContext.ledgerVersion)
  /\ member (contextValue c) "deploymentId" = JsString c.(SwapContext.deploymentId)
  /\ member (contextValue c) "packageVersion" = JsString c.(SwapContext.packageVersion)
  /\ member (contextValue c) "inputReserve" = JsBigint c.(SwapContext.inputReserve)
  /\ member (contextValue c) "outputReserve" = JsBigint c.(SwapContext.outputReserve)
  /\ member (contextValue c) "reflectionFeeBps" = JsBigint c.(SwapContext.reflectionFeeBps)
  /\ member (contextValue c) "ammFeeBps" = JsBigint c.(SwapContext.ammFeeBps)
  /\ member (contextValue c) "maximumGrossSwap" = JsBigint c.(SwapContext.maximumGrossSwap)
  /\ member (contextValue c) "maximumReserveBps" = JsBigint c.(SwapContext.maximumReserveBps).
Proof. repeat split. Qed.

Lemma assertUnsigned_value maximum label n : Unsigned maximum n -> assertUnsigned (JsBigint n) maximum label = Returns n.
Proof. intros Hn. by apply assertUnsigned_returns. Qed.

Lemma assertPositive_value maximum label n : Positive maximum n -> assertPositive (JsBigint n) maximum label = Returns n.
Proof. intros Hn. by apply assertPositive_returns. Qed.

Lemma assertSwapContext_value c : ContextOk c -> assertSwapContext (contextValue c) = Returns c.
Proof.
  intros [H1 H2 H3 H4 H5 H6 H7 H8 H9 H10]. destruct (context_members c) as (E1 & E2 & E3 & E4 & E5 & E6 & E7 & E8 & E9 & E10).
  unfold Unsigned, Positive, MAX_REFLECTION_FEE_BPS, BPS_DENOMINATOR in H7, H8, H10.
  unfold assertSwapContext. change (contextValue c) with (JsObject (match contextValue c with JsObject f => f | _ => [] end)).
  cbv beta iota. change (JsObject (match contextValue c with JsObject f => f | _ => [] end)) with (contextValue c).
  rewrite E1, E2, E3, E4, E5, E6, E7, E8, E9, E10. rewrite (proj2 (isNumber_iff _ _) (f_equal (fun n => JsNumber (Some n)) H1)).
  rewrite !assertPositive_value by (done || (unfold Positive; rewrite U64_MAX_value; lia)).
  rewrite !assertUnsigned_value by (unfold Unsigned; rewrite U64_MAX_value; lia). cbn [mbind outcome_bind].
  rewrite H4, !bool_decide_false by (unfold MAX_REFLECTION_FEE_BPS, BPS_DENOMINATOR; lia). cbn [orb negb mbind outcome_bind]. rewrite <- H1. by destruct c.
Qed.

(** A context that is accepted is carried by the value, and in order. *)
Lemma assertSwapContext_returns v c :
  assertSwapContext v = Returns c -> Carries contextKeys v (contextValue c) /\ ContextOk c.
Proof.
  unfold contextKeys. rewrite !carries_cons, carries_nil.
  destruct (context_members c) as (M1 & M2 & M3 & M4 & M5 & M6 & M7 & M8 & M9 & M10).
  rewrite M1, M2, M3, M4, M5, M6, M7, M8, M9, M10. clear M1 M2 M3 M4 M5 M6 M7 M8 M9 M10.
  unfold assertSwapContext. destruct v as [| | | | | | |fields]; try discriminate. intros E.
  apply outcome_bind_iff in E as ([] & E1 & E).
  apply outcome_bind_iff in E as (version & Ev & E). apply outcome_bind_iff in E as ([d p] & Ed & E).
  apply outcome_bind_iff in E as (x & Ex & E). apply outcome_bind_iff in E as (y & Ey & E).
  apply outcome_bind_iff in E as (rf & Erf & E). apply outcome_bind_iff in E as (af & Eaf & E).
  apply outcome_bind_iff in E as (mg & Emg & E). apply outcome_bind_iff in E as (mr & Emr & E).
  rewrite assertPositive_returns in Ev, Ex, Ey, Emg, Emr. rewrite assertUnsigned_returns in Erf, Eaf.
  apply deployment_returns in Ed. destruct (isNumber _ _) eqn:En; [|discriminate]. apply isNumber_iff in En.
  destruct (_ || _) eqn:Eb in E; [discriminate|]. injection E as <-. bools.
  destruct Ev, Ex, Ey, Emg, Emr, Erf, Eaf, Ed as (? & ? & ? & ?). unfold MAX_REFLECTION_FEE_BPS in *.
  split; [eauto 20|]. split; cbn; try assumption; try reflexivity; unfold Positive, Unsigned, MAX_REFLECTION_FEE_BPS in *; lia.
Qed.

Lemma assertSwapContext_exact v c :
  assertSwapContext v = Returns c <-> Carries contextKeys v (contextValue c) /\ ContextOk c.
Proof.
  split; [apply assertSwapContext_returns|]. intros [Hv Hc].
  rewrite (assertSwapContext_carries v (contextValue c)); [by apply assertSwapContext_value|done|].
  destruct Hv as [_ Hv]. split; [by eexists|]. eapply Forall_impl; [|exact Hv]. done.
Qed.

Lemma quote_members q :
  member (quoteValue q) "direction" = JsString (directionName q.(Swap.direction))
  /\ member (quoteValue q) "grossAmount" = JsBigint q.(Swap.grossAmount)
  /\ member (quoteValue q) "slippageBps" = JsBigint q.(Swap.slippageBps)
  /\ member (quoteValue q) "reflectionFee" = JsBigint q.(Swap.reflectionFee)
  /\ member (quoteValue q) "ammFee" = JsBigint q.(Swap.ammFee)
  /\ member (quoteValue q) "netReserveInput" = JsBigint q.(Swap.netReserveInput)
  /\ member (quoteValue q) "grossPoolOutput" = JsBigint q.(Swap.grossPoolOutput)
  /\ member (quoteValue q) "netUserReceipt" = JsBigint q.(Swap.netUserReceipt)
  /\ member (quoteValue q) "minimumNetUserReceipt" = JsBigint q.(Swap.minimumNetUserReceipt)
  /\ member (quoteValue q) "priceImpactBps" = JsBigint q.(Swap.priceImpactBps)
  /\ member (quoteValue q) "deadlineUnixSeconds" = JsBigint q.(Swap.deadlineUnixSeconds).
Proof. repeat split. Qed.

Lemma assertSwapQuote_returns v now q :
  assertSwapQuote v now = Returns q -> CarriesQuote v q /\ Verified now q.
Proof.
  unfold CarriesQuote, quoteKeys. rewrite !carries_cons, carries_nil.
  destruct (quote_members q) as (M1 & M2 & M3 & M4 & M5 & M6 & M7 & M8 & M9 & M10 & M11).
  rewrite M1, M2, M3, M4, M5, M6, M7, M8, M9, M10, M11. clear M1 M2 M3 M4 M5 M6 M7 M8 M9 M10 M11.
  unfold assertSwapQuote. destruct v as [| | | | | | |fields]; try discriminate. intros E.
  apply outcome_bind_iff in E as (dir & Edir & E). apply outcome_bind_iff in E as (gross & Eg & E).
  apply outcome_bind_iff in E as (slip & Es & E). apply outcome_bind_iff in E as (rf & Erf & E).
  apply outcome_bind_iff in E as (af & Eaf & E). apply outcome_bind_iff in E as (net & En & E).
  apply outcome_bind_iff in E as (out & Eo & E). apply outcome_bind_iff in E as (receipt & Eu & E).
  apply outcome_bind_iff in E as (minimum & Em & E). apply outcome_bind_iff in E as (impact & Ei & E).
  apply outcome_bind_iff in E as (_ & _ & E). apply outcome_bind_iff in E as (deadline & Ed & E).
  apply outcome_bind_iff in E as ([] & Eslip & E). apply outcome_bind_iff in E as (c & Ec & E).
  apply outcome_bind_iff in E as ([] & Ea & E). injection E as <-.
  rewrite assertPositive_returns in Eg, En, Eo, Eu. rewrite assertUnsigned_returns in Es, Erf, Eaf, Em, Ei.
  apply assertSwapDirection_returns in Edir. apply assertFutureDeadline_returns in Ed.
  apply assertSwapContext_returns in Ec as [Hcarry Hc]. apply check_returns in Eslip. bools. cbn.
  destruct Eg, En, Eo, Eu, Es, Erf, Eaf, Em, Ei, Ed as (? & ? & ?).
  assert (Hq : AmountsOk (Swap.mk dir gross slip rf af net out receipt minimum impact deadline c)).
  { split; cbn; try assumption. unfold Unsigned in *. lia. }
  split; [split; [eauto 20|exact Hcarry]|]. split; try assumption. by apply checkSwapArithmetic_exact.
Qed.

Lemma assertSwapQuote_value v now q :
  CarriesQuote v q -> Verified now q -> assertSwapQuote v now = Returns q.
Proof.
  unfold CarriesQuote, quoteKeys. rewrite !carries_cons, carries_nil.
  destruct (quote_members q) as (M1 & M2 & M3 & M4 & M5 & M6 & M7 & M8 & M9 & M10 & M11).
  rewrite M1, M2, M3, M4, M5, M6, M7, M8, M9, M10, M11. clear M1 M2 M3 M4 M5 M6 M7 M8 M9 M10 M11.
  intros [(E1 & E2 & E3 & E4 & E5 & E6 & E7 & E8 & E9 & E10 & E11 & (f & ->)) Hcarry] [Hnow Hw Hc Hq Hp].
  unfold assertSwapQuote. rewrite E1, E2, E3, E4, E5, E6, E7, E8, E9, E10, E11.
  rewrite (proj2 (assertSwapDirection_returns _ _) eq_refl), (proj2 (assertSwapContext_exact _ _) (conj Hcarry Hc)).
  rewrite (proj2 (assertFutureDeadline_returns _ now _) (conj eq_refl (conj Hw Hnow))).
  pose proof (proj2 (checkSwapArithmetic_exact q Hc Hq) Hp) as Ha.
  destruct Hq as [H1 H2 H3 H4 H5 H6 H7 H8 H9].
  assert (Unsigned U64_MAX q.(Swap.slippageBps)) by (unfold Unsigned in *; rewrite U64_MAX_value; unfold BPS_DENOMINATOR in *; lia).
  rewrite !assertPositive_value, !assertUnsigned_value by done. cbn [mbind outcome_bind].
  rewrite bool_decide_false by (unfold Unsigned in *; lia). cbn [mbind outcome_bind].
  replace (Swap.mk _ _ _ _ _ _ _ _ _ _ _ _) with q by (by destruct q). by rewrite Ha.
Qed.

(** The amounts of a verified quote, computed one from the other. *)
Lemma verified_settles now q :
  Verified now q ->
  let c := q.(Swap.context) in
  let traded := q.(Swap.netReserveInput) - q.(Swap.ammFee) in
  0 < c.(SwapContext.inputReserve) /\ 0 <= traded
  /\ q.(Swap.netReserveInput) = match q.(Swap.direction) with sell => q.(Swap.grossAmount) - q.(Swap.reflectionFee) | buy => q.(Swap.grossAmount) end
  /\ traded = bpsOf q.(Swap.netReserveInput) (BPS_DENOMINATOR - c.(SwapContext.ammFeeBps))
  /\ q.(Swap.grossPoolOutput) = Z.quot (c.(SwapContext.outputReserve) * traded) (c.(SwapContext.inputReserve) + traded)
  /\ q.(Swap.reflectionFee) = bpsOf match q.(Swap.direction) with sell => q.(Swap.grossAmount) | buy => q.(Swap.grossPoolOutput) end
       c.(SwapContext.reflectionFeeBps)
  /\ q.(Swap.netUserReceipt) = match q.(Swap.direction) with sell => q.(Swap.grossPoolOutput) | buy => q.(Swap.grossPoolOutput) - q.(Swap.reflectionFee) end.
Proof.
  intros [_ _ Hc Ha Hp]. pose proof (amounts_gross _ Ha) as Hg. unfold Positive in Hg.
  pose proof (context_range q Hc ltac:(lia)) as Hrange.
  pose proof (proj1 (onCurve_settle _ _ Hrange) (priced_curve _ Hp)) as Hs.
  destruct (settle_traded (Swap.direction q) (SwapContext.reflectionFeeBps (Swap.context q)) (SwapContext.ammFeeBps (Swap.context q))
    (SwapContext.inputReserve (Swap.context q)) (SwapContext.outputReserve (Swap.context q)) (Swap.grossAmount q)) as [Ht _].
  1-3: unfold InRange, termsOf in Hrange; cbn in Hrange; lia.
  assert (Hx : 0 < SwapContext.inputReserve (Swap.context q)) by apply Hrange.
  unfold termsOf in Hs. unfold settleSwap in Hs, Ht. cbn [Terms.reflectionFeeBps Terms.ammFeeBps Terms.inputReserve
    Terms.outputReserve Terms.grossAmount Terms.netReserveInput Terms.ammFee] in Hs, Ht. injection Hs as Erf Eaf Enet Eout Erec.
  cbv zeta. destruct (Swap.direction q); rewrite <- Enet in *;
    (match goal with H : Swap.ammFee q = _ - ?b |- _ => assert (Et : Swap.netReserveInput q - Swap.ammFee q = b) by lia end);
    rewrite Et, <- Eout in *; split_and!; try done; lia.
Qed.
