(* ===== verification/DraftSpec.v ===== *)
(** * The drafts that can be submitted

    [KnownDraft] is the table of entry functions a draft may call, with the
    domain of each argument: [assertCedraTransactionDraft] accepts exactly the
    values that carry such a draft. *)
From S2P Require Import Prelude JsMap Types MoveDomains JsValue Numerals Json SdkTypes Accounting Replay Group WalletHandlers.
From S2P Require Import LpHandlers PoolHandlers LiquidityMath DraftEncoder SafeClient QuoteSpec.

(** The account of that number, in hexadecimal after ["0x"]. *)
Definition HexAddress (n : Z) (s : string) : Prop := exists digits, s = "0x" ⧺ digits /\ HexDigits n digits.

(** An account that is not zero. *)
Definition SignerAddress (s : string) : Prop := exists n, HexAddress n s /\ n <> 0.

(** Kind, entry function, arguments, and the expiration they go with. *)
Inductive KnownDraft : DraftKind -> string -> list EntryArgument -> Z -> Prop :=
| Known_claim_trfl expiration : KnownDraft faucet_claim "test_assets::test_faucet::claim_trfl" [] expiration
| Known_claim_tusd expiration : KnownDraft faucet_claim "test_assets::test_faucet::claim_tusd" [] expiration
| Known_buy gross minimum deadline :
    Positive U64_MAX gross -> Unsigned U64_MAX minimum ->
    KnownDraft swap "test_amm::pool::buy_trfl" [ArgBigint gross; ArgBigint minimum; ArgBigint deadline] deadline
| Known_sell gross minimum deadline :
    Positive U64_MAX gross -> Unsigned U64_MAX minimum ->
    KnownDraft swap "test_amm::pool::sell_trfl" [ArgBigint gross; ArgBigint minimum; ArgBigint deadline] deadline
| Known_claim amount expiration :
    Positive U64_MAX amount ->
    KnownDraft claim_rewards "reflection_core::reflection_token::claim" [ArgBigint amount] expiration
| Known_claim_all expiration : KnownDraft claim_rewards "reflection_core::reflection_token::claim_all" [] expiration
| Known_add maxRfl maxUsd minShares deadline :
    Positive U64_MAX maxRfl -> Positive U64_MAX maxUsd -> Unsigned U128_MAX minShares ->
    KnownDraft add_liquidity "test_amm::pool::add_liquidity"
      [ArgBigint maxRfl; ArgBigint maxUsd; ArgBigint minShares; ArgBigint deadline] deadline
| Known_remove shares minRfl minUsd deadline :
    Positive U128_MAX shares -> Unsigned U64_MAX minRfl -> Unsigned U64_MAX minUsd ->
    KnownDraft remove_liquidity "test_amm::pool::remove_liquidity"
      [ArgBigint shares; ArgBigint minRfl; ArgBigint minUsd; ArgBigint deadline] deadline
| Known_transfer recipient shares expiration :
    SignerAddress recipient -> Positive U128_MAX shares ->
    KnownDraft transfer_lp_shares "test_amm::pool::transfer_lp_shares" [ArgString recipient; ArgBigint shares] expiration
| Known_lp_claim epoch amount expiration :
    Positive U64_MAX epoch -> Unsigned U64_MAX amount ->
    KnownDraft claim_lp_rewards "test_amm::pool::claim_lp_rewards" [ArgBigint epoch; ArgBigint amount] expiration
| Known_checkpoint expiration :
    KnownDraft checkpoint_lp_rewards "test_amm::pool::checkpoint_lp_rewards" [] expiration.

Record DraftOk (d : Draft.TransactionDraft) : Prop := {
  draft_known : KnownDraft d.(Draft.kind) d.(Draft.functionId) d.(Draft.arguments) d.(Draft.expirationUnixSeconds);
  draft_single : d.(Draft.secondarySignerAddresses) = [];
  draft_expiration : Positive U64_MAX d.(Draft.expirationUnixSeconds);
  draft_warning : d.(Draft.warning) <> ""
}.

Definition draftKeys : list string :=
  ["kind"; "functionId"; "arguments"; "secondarySignerAddresses"; "expirationUnixSeconds"; "warning"].
Definition CarriesDraft (v : JsValue) (d : Draft.TransactionDraft) : Prop := Carries draftKeys v (draftValue d).

Lemma draft_members d :
  member (draftValue d) "kind" = JsString (kindName d.(Draft.kind))
  /\ member (draftValue d) "functionId" = JsString d.(Draft.functionId)
  /\ member (draftValue d) "arguments" = JsArray (map argumentValue d.(Draft.arguments))
  /\ member (draftValue d) "secondarySignerAddresses" = JsArray (map JsString d.(Draft.secondarySignerAddresses))
  /\ member (draftValue d) "expirationUnixSeconds" = JsBigint d.(Draft.expirationUnixSeconds)
  /\ member (draftValue d) "warning" = JsString d.(Draft.warning).
Proof. repeat split. Qed.

(** ** Addresses *)

Lemma isHexAddress_iff s : isHexAddress s = true <-> exists n, HexAddress n s.
Proof.
  unfold isHexAddress. split.
  - destruct (stripPrefix "0x" s) as [digits|] eqn:E; [|done]. apply stripPrefix_some in E as ->. intros H. bools.
    exists (valueIn 16 digits), digits. by repeat split.
  - intros (n & digits & -> & [Hc Hl _]). rewrite stripPrefix_app, Hc. by rewrite !bool_decide_true by lia.
Qed.

(** The key of an account is its canonical digits. *)
Lemma canonicalAddressKey_returns describe s key :
  canonicalAddressKey describe (JsString s) = Returns key
  <-> exists n digits, s = "0x" ⧺ digits /\ HexDigits n digits /\ n <> 0 /\ key = plainDigits digits.
Proof.
  unfold canonicalAddressKey. split.
  - destruct (isHexAddress s) eqn:Eh; [|done]. apply isHexAddress_iff in Eh as (n & digits & -> & Hd). rewrite stripPrefix_app.
    cbn [default from_option id]. change (if bool_decide (mapChars _ _ = "") then _ else _) with (plainDigits digits).
    case_bool_decide as E; [done|]. intros [= <-]. exists n, digits. rewrite (plainDigits_zero n) in E by done. done.
  - intros (n & digits & -> & Hd & Hn & ->). rewrite (proj2 (isHexAddress_iff _)) by by exists n, digits. rewrite stripPrefix_app.
    cbn [default from_option id]. change (if bool_decide (mapChars _ _ = "") then _ else _) with (plainDigits digits).
    rewrite bool_decide_false; [done|]. by rewrite (plainDigits_zero n).
Qed.

Lemma canonicalAddressKey_signer describe s : (exists key, canonicalAddressKey describe (JsString s) = Returns key) <-> SignerAddress s.
Proof.
  setoid_rewrite canonicalAddressKey_returns. unfold SignerAddress, HexAddress. split.
  - intros (key & n & digits & -> & Hd & Hn & _). exists n. split; [by exists digits|done].
  - intros (n & (digits & -> & Hd) & Hn). by exists (plainDigits digits), n, digits.
Qed.

(** ** Arguments *)

Definition ArgumentOk (kind : MoveArgumentKind) (argument : EntryArgument) : Prop :=
  match kind, argument with
  | KindU64, ArgBigint n => Unsigned U64_MAX n
  | KindU128, ArgBigint n => Unsigned U128_MAX n
  | KindAddress, ArgString s => SignerAddress s
  | _, _ => False
  end.

Lemma assertMoveArgument_returns describe v kind index a :
  assertMoveArgument describe v kind index = Returns a <-> v = argumentValue a /\ ArgumentOk kind a.
Proof.
  destruct kind; unfold assertMoveArgument.
  3:{ split.
    - intros E. apply outcome_bind_iff in E as (key & Ek & E). destruct v; try discriminate. injection E as <-.
      split; [done|]. apply (canonicalAddressKey_signer describe). by exists key.
    - destruct a as [s| |]; cbn; try by intros []. intros [-> Hs].
      apply (canonicalAddressKey_signer describe) in Hs as [key ->]. reflexivity. }
  all: split; [destruct v; try discriminate; case_match eqn:E; [discriminate|]; intros [= <-]; bools; cbn; unfold Unsigned; split; [done|lia]
              |destruct a; cbn; try (by intros []); intros [-> Hn]; unfold Unsigned in Hn; by rewrite !bool_decide_false by lia].
Qed.

Lemma assertMoveArguments_returns describe kinds : forall values index args,
  length kinds = length values ->
  assertMoveArguments describe values kinds index = Returns args
  <-> values = map argumentValue args /\ Forall2 ArgumentOk kinds args.
Proof.
  induction kinds as [|kind kinds IH]; intros [|v values] index args Hl; try discriminate Hl; cbn [assertMoveArguments].
  - split; [by intros [= <-]|]. intros [E Hok]. by inversion Hok; subst.
  - change (default JsUndefined (head (v :: values))) with v. change (tail (v :: values)) with values. injection Hl as Hl. rewrite outcome_bind_iff. setoid_rewrite assertMoveArgument_returns.
    setoid_rewrite outcome_bind_iff. setoid_rewrite (IH values); [|done]. split.
    + intros (a & [-> Ha] & rest & [-> Hr] & [= <-]). by split; [|constructor].
    + intros [E Hok]. inversion Hok as [|? a ? rest Ha Hr]; subst. injection E as -> ->. exists a. split; [done|]. by exists rest.
Qed.

(** ** Kinds, and the semantics of each entry *)

Lemma arrayFind_inv {A} (f : A -> bool) l x : arrayFind f l = Some x -> In x l /\ f x = true.
Proof.
  unfold arrayFind. induction l as [|y l IH]; [done|]. cbn. destruct (f y) eqn:E.
  - intros [= <-]. by split; [left|].
  - intros H. apply IH in H as [? ?]. by split; [right|].
Qed.

Lemma kindOf_name k : kindOf (kindName k) = Some k.
Proof. by destruct k. Qed.

Lemma kindOf_inv name k : kindOf name = Some k -> name = kindName k.
Proof. intros H. apply arrayFind_inv in H as [_ H]. apply bool_decide_eq_true in H. by symmetry. Qed.

Lemma runtimeFields_returns v k f args signers expiration w :
  runtimeFields v = Some (k, f, args, signers, expiration, w)
  <-> member v "kind" = JsString (kindName k) /\ member v "functionId" = JsString f /\ member v "arguments" = JsArray args
      /\ member v "secondarySignerAddresses" = JsArray signers /\ member v "expirationUnixSeconds" = JsBigint expiration
      /\ member v "warning" = JsString w /\ Positive U64_MAX expiration /\ w <> "".
Proof.
  unfold runtimeFields. split.
  - destruct (member v "kind") as [| | | | |name| |]; try discriminate.
    destruct (member v "functionId"); try discriminate. destruct (member v "arguments"); try discriminate.
    destruct (member v "secondarySignerAddresses"); try discriminate.
    destruct (member v "expirationUnixSeconds"); try discriminate. destruct (member v "warning") as [| | | | |w'| |]; try discriminate.
    destruct (kindOf name) as [k'|] eqn:Ek; [|discriminate]. apply kindOf_inv in Ek as ->. cbn [mbind option_bind].
    case_match eqn:E; [discriminate|]. intros [= -> -> -> -> -> ->]. bools. unfold Positive.
    repeat (split; [done|]). split; [lia|]. by intros ->.
  - intros (-> & -> & -> & -> & -> & -> & He & Hw). rewrite kindOf_name. cbn [mbind option_bind]. unfold Positive in He.
    assert (jsLength w <> 0) by (destruct w; [done|unfold jsLength; cbn; lia]).
    by rewrite !bool_decide_false by lia.
Qed.

(** Decides the equations between closed strings. *)
Ltac decide_closed :=
  repeat match goal with
  | |- context [bool_decide (@eq string ?a ?b)] =>
      let r := eval vm_compute in (bool_decide (a = b)) in
      lazymatch r with true => idtac | false => idtac end;
      change (bool_decide (a = b)) with r
  end.

(** The semantics of an entry hold exactly for the known drafts with its arguments. *)
Lemma semantics_known k shape args expiration w :
  In shape (ENTRY_SHAPES k) -> Forall2 ArgumentOk shape.(Entry.argumentKinds) args -> Positive U64_MAX expiration ->
  assertEntrySemantics (Draft.mk k shape.(Entry.functionId) args [] expiration w) shape = Returns tt
  <-> KnownDraft k shape.(Entry.functionId) args expiration.
Proof.
  intros Hin Hargs He. destruct k; cbn in Hin; repeat (destruct Hin as [<-|Hin]; [|]); try destruct Hin as [].
  all: cbn [Entry.functionId Entry.argumentKinds] in *; unfold assertEntrySemantics; cbn [Entry.functionId]; decide_closed.
  all: cbv zeta; cbn [orb].
  all: repeat match goal with
    | H : Forall2 _ (_ :: _) _ |- _ => inversion H; clear H; subst
    | H : Forall2 _ [] _ |- _ => inversion H; clear H; subst
    | H : ArgumentOk _ ?a |- _ => destruct a; cbn in H; try done; []
    end.
  all: unfold assertPositiveArgument, assertDeadlineMatchesExpiration, argumentAt; cbn [nth_error Draft.arguments Draft.expirationUnixSeconds].
  all: unfold Unsigned, Positive in *.
  all: split; [intros E|inversion 1; subst; unfold Positive, Unsigned in *].
  all: repeat (case_bool_decide; cbn [orb mbind outcome_bind] in *; try discriminate E; try (exfalso; lia)); try done.
  all: repeat match goal with H : ~ (_ <> _) |- _ => apply dec_stable in H end; subst.
  all: first [apply Known_claim_trfl|apply Known_claim_tusd|apply Known_buy|apply Known_sell|apply Known_claim_all|apply Known_claim
    |apply Known_add|apply Known_remove|apply Known_transfer|apply Known_lp_claim|apply Known_checkpoint].
  all: unfold Positive, Unsigned; first [done|lia].
Qed.

(** Every row of the table is a shape of its kind, with arguments in their domains. *)
Lemma known_shape k f args expiration :
  KnownDraft k f args expiration -> Positive U64_MAX expiration ->
  exists shape, arrayFind (fun shape => bool_decide (shape.(Entry.functionId) = f)
        && bool_decide (arrayLength shape.(Entry.argumentKinds) = arrayLength (map argumentValue args))
        && bool_decide (arrayLength (map JsString []) = 0)) (ENTRY_SHAPES k) = Some shape
    /\ In shape (ENTRY_SHAPES k) /\ shape.(Entry.functionId) = f /\ Forall2 ArgumentOk shape.(Entry.argumentKinds) args
    /\ length shape.(Entry.argumentKinds) = length (map argumentValue args).
Proof.
  intros Hk He. assert (Hfit : 0 < U128_MAX) by reflexivity. destruct Hk; eexists; split_and!; try reflexivity;
    try (cbn; tauto); cbn [Entry.argumentKinds]; repeat (constructor; [cbn; unfold Positive, Unsigned in *; first [assumption|lia]|]);
    constructor.
Qed.

Lemma assertDraft_exact describe v d :
  assertCedraTransactionDraft describe v = Returns d <-> CarriesDraft v d /\ DraftOk d.
Proof.
  unfold CarriesDraft, draftKeys. rewrite !carries_cons, carries_nil.
  destruct (draft_members d) as (M1 & M2 & M3 & M4 & M5 & M6). rewrite M1, M2, M3, M4, M5, M6.
  clear M1 M2 M3 M4 M5 M6. unfold assertCedraTransactionDraft, knownEntryShape. split.
  - intros E. apply outcome_bind_iff in E as ([shape typed] & E & [= ->]).
    destruct v as [| | | | | |items|fields]; try discriminate E. cbn [isObject negb] in E.
    destruct (runtimeFields _) as [[[[[[k f] args] signers] expiration] w]|] eqn:Ef; [|discriminate].
    apply runtimeFields_returns in Ef as (E1 & E2 & E3 & E4 & E5 & E6 & He & Hw).
    destruct (arrayFind _ _) as [shape'|] eqn:Eshape; [|discriminate]. apply arrayFind_inv in Eshape as [Hin Hshape].
    apply outcome_bind_iff in E as (args' & Eargs & E). apply outcome_bind_iff in E as ([] & Esem & [= -> <-]). bools.
    unfold arrayLength in *. apply assertMoveArguments_returns in Eargs as [-> Hargs]; [|lia].
    destruct signers; [|discriminate]. cbn [Draft.kind Draft.functionId Draft.arguments Draft.secondarySignerAddresses
      Draft.expirationUnixSeconds Draft.warning]. subst f.
    split; [eauto 10|]. split; cbn; try done. by apply (semantics_known k shape args' expiration w).
  - intros [(E1 & E2 & E3 & E4 & E5 & E6 & (fields & ->)) [Hk Hs He Hw]]. cbn [isObject negb].
    rewrite (proj2 (runtimeFields_returns _ _ _ _ _ _ _) (conj E1 (conj E2 (conj E3 (conj E4 (conj E5 (conj E6 (conj He Hw)))))))).
    destruct d as [k f args signers expiration w]. cbn in Hk, Hs, He, Hw. subst signers.
    cbn [Draft.kind Draft.functionId Draft.arguments Draft.secondarySignerAddresses Draft.expirationUnixSeconds Draft.warning].
    destruct (known_shape _ _ _ _ Hk He) as (shape & -> & Hin & <- & Hargs & Hl).
    rewrite (proj2 (assertMoveArguments_returns describe _ _ _ _ Hl) (conj eq_refl Hargs)). cbn [mbind outcome_bind].
    by rewrite (proj2 (semantics_known k shape args expiration w Hin Hargs He) Hk).
Qed.
