(* ===== verification/Reconciler.v ===== *)
(** * The reconciler

    [reconciler.ts]: the replayed projection against the views of the chain at
    one finalized ledger version.  The alerts pushed so far are threaded through
    an error monad: an exception of the accounting functions loses them with the
    call.  [clock n] is what [Date.now()] returns for the [n]-th alert. *)
From S2P Require Import Prelude JsMap Types MoveDomains Accounting Replay Group WalletHandlers.
From S2P Require Import LpHandlers PoolHandlers ConfigHandlers.

Definition Audit (A : Type) : Type :=
  list Alert.CriticalAlert -> Outcome (A * list Alert.CriticalAlert).

#[export] Instance audit_ret : MRet Audit := fun A a alerts => Returns (a, alerts).
#[export] Instance audit_bind : MBind Audit :=
  fun A B k m alerts => m alerts ≫= fun '(a, alerts') => k a alerts'.

Definition computing {A} (o : Outcome A) : Audit A := fun alerts => a ← o; Returns (a, alerts).

Fixpoint audit_forEach {A} (body : A -> Audit unit) (xs : list A) : Audit unit :=
  match xs with
  | [] => mret tt
  | x :: rest => body x ;; audit_forEach body rest
  end.

Definition cursorPart (f : Cursor.EventCursor -> Z) (cursor : option Cursor.EventCursor) : string :=
  from_option (fun c => show (f c)) "none" cursor.

(** [alert] of the reconciler, at a reading of the clock. *)
Definition reconcileAlert (now : Z) (code : AlertCode) (message : string) (cursor : option Cursor.EventCursor)
    (expected observed scope : string) : Alert.CriticalAlert :=
  {| Alert.id := "reconcile:" ⧺ codeName code ⧺ ":" ⧺ scope ⧺ ":" ⧺ cursorPart Cursor.ledgerVersion cursor
       ⧺ ":" ⧺ cursorPart Cursor.eventIndex cursor;
     Alert.severity := critical;
     Alert.code := code;
     Alert.message := message;
     Alert.detectedAtUnixMilliseconds := now;
     Alert.cursor := cursor;
     Alert.expected := Some expected;
     Alert.observed := Some observed |}.

(** [tuple], on the already rendered values. *)
Definition tuple (values : list string) : string := joinWith "/" values.
Definition orNone (value : option string) : string := default "none" value.

(** [Array.prototype.sort] on strings. *)
Fixpoint insertString (x : string) (sorted : list string) : list string :=
  match sorted with
  | [] => [x]
  | y :: rest => if String.leb x y then x :: sorted else y :: insertString x rest
  end.
Definition sortStrings (l : list string) : list string := foldr insertString [] l.

Section Reconciler.
Context (clock : nat -> Z) (cursor : option Cursor.EventCursor).

Definition raiseIf (condition : bool) (code : AlertCode) (message scope expected observed : string)
    : Audit unit := fun alerts =>
  Returns (tt, if condition
               then alerts ++ [reconcileAlert (clock (length alerts)) code message cursor expected observed scope]
               else alerts).

(** ** Positions: the loop deletes what it matched from the observed map *)

Definition walletDiffers (position : Wallet.IndexedPosition) (onChain : option ObsPos.ObservedPosition) : bool :=
  match onChain with
  | None => true
  | Some onChain =>
      bool_decide (onChain.(ObsPos.rawTrfl) <> position.(Wallet.rawTrfl))
      || bool_decide (onChain.(ObsPos.correction) <> position.(Wallet.correction))
      || bool_decide (onChain.(ObsPos.claimed) <> position.(Wallet.claimed))
  end.

Fixpoint compareWallets (replayed : JsMap Address Wallet.IndexedPosition)
    (remaining : JsMap Address ObsPos.ObservedPosition) : Audit (JsMap Address ObsPos.ObservedPosition) :=
  match replayed with
  | [] => mret remaining
  | (account, position) :: rest =>
      let onChain := jsGet account remaining in
      raiseIf (walletDiffers position onChain) POSITION_ACCOUNTING
        "Wallet position differs from independently replayed raw shares and reward history."
        ("wallet-" ⧺ account)
        (tuple [show position.(Wallet.rawTrfl); show position.(Wallet.correction); show position.(Wallet.claimed)])
        (from_option (fun onChain => tuple [show onChain.(ObsPos.rawTrfl); show onChain.(ObsPos.correction);
                                          show onChain.(ObsPos.claimed)]) "missing" onChain) ;;
      compareWallets rest (jsDelete account remaining)
  end.

Definition lpPositionDiffers (position : LpPos.IndexedLpPosition) (onChain : option ObsLpPos.ObservedLpPosition) : bool :=
  match onChain with
  | None => true
  | Some onChain =>
      bool_decide (onChain.(ObsLpPos.shares) <> position.(LpPos.shares))
      || bool_decide (onChain.(ObsLpPos.correction) <> position.(LpPos.correction))
      || bool_decide (onChain.(ObsLpPos.claimed) <> position.(LpPos.claimed))
  end.

Fixpoint compareLpPositions (scope : string) (registered : list Address)
    (replayed : JsMap Address LpPos.IndexedLpPosition)
    (remaining : JsMap Address ObsLpPos.ObservedLpPosition) : Audit (JsMap Address ObsLpPos.ObservedLpPosition) :=
  match replayed with
  | [] => mret remaining
  | (owner, position) :: rest =>
      let onChain := jsGet owner remaining in
      raiseIf (bool_decide (position.(LpPos.shares) > 0) && negb (includes owner registered)) WALLET_REGISTRATION
        "Replayed positive LP ownership is not bound to the registered-wallet set."
        (scope ⧺ "-" ⧺ owner ⧺ "-replayed-registration") "registered LP owner" owner ;;
      raiseIf (lpPositionDiffers position onChain) POSITION_ACCOUNTING
        "LP position differs from independently replayed ownership and history."
        (scope ⧺ "-" ⧺ owner)
        (tuple [show position.(LpPos.shares); show position.(LpPos.correction); show position.(LpPos.claimed)])
        (from_option (fun onChain => tuple [show onChain.(ObsLpPos.shares); show onChain.(ObsLpPos.correction);
                                          show onChain.(ObsLpPos.claimed)]) "missing" onChain) ;;
      compareLpPositions scope registered rest (jsDelete owner remaining)
  end.

(** ** [compareLpEpoch] *)

Definition lpFieldsDiffer (expected : LpEpoch.IndexedLpEpoch) (observed : ObsLpEpoch.ObservedLpEpoch) : bool :=
  bool_decide (observed.(ObsLpEpoch.status) <> expected.(LpEpoch.status))
  || bool_decide (observed.(ObsLpEpoch.index) <> expected.(LpEpoch.index))
  || bool_decide (observed.(ObsLpEpoch.indexRemainder) <> expected.(LpEpoch.indexRemainder))
  || bool_decide (observed.(ObsLpEpoch.totalShares) <> expected.(LpEpoch.totalShares))
  || bool_decide (observed.(ObsLpEpoch.aggregateCorrection) <> expected.(LpEpoch.aggregateCorrection))
  || bool_decide (observed.(ObsLpEpoch.unallocatedRewards) <> expected.(LpEpoch.unallocatedRewards))
  || bool_decide (observed.(ObsLpEpoch.roundingReserve) <> expected.(LpEpoch.roundingReserve))
  || bool_decide (observed.(ObsLpEpoch.terminalRoundingBaseUnits) <> default 0 expected.(LpEpoch.terminalRoundingBaseUnits))
  || bool_decide (observed.(ObsLpEpoch.retiredResidueMagnified) <> expected.(LpEpoch.retiredResidueMagnified))
  || bool_decide (observed.(ObsLpEpoch.lifetimeReceived) <> expected.(LpEpoch.lifetimeReceived))
  || bool_decide (observed.(ObsLpEpoch.lifetimeClaimed) <> expected.(LpEpoch.lifetimeClaimed))
  || bool_decide (observed.(ObsLpEpoch.quarantined) <> expected.(LpEpoch.quarantined)).

Definition expectedLpFields (e : LpEpoch.IndexedLpEpoch) : string :=
  tuple [statusName e.(LpEpoch.status); show e.(LpEpoch.index); show e.(LpEpoch.indexRemainder);
         show e.(LpEpoch.totalShares); show e.(LpEpoch.aggregateCorrection); show e.(LpEpoch.unallocatedRewards);
         show e.(LpEpoch.roundingReserve); show (default 0 e.(LpEpoch.terminalRoundingBaseUnits));
         show e.(LpEpoch.retiredResidueMagnified); show e.(LpEpoch.lifetimeReceived);
         show e.(LpEpoch.lifetimeClaimed); showBool e.(LpEpoch.quarantined)].

Definition observedLpFields (e : ObsLpEpoch.ObservedLpEpoch) : string :=
  tuple [statusName e.(ObsLpEpoch.status); show e.(ObsLpEpoch.index); show e.(ObsLpEpoch.indexRemainder);
         show e.(ObsLpEpoch.totalShares); show e.(ObsLpEpoch.aggregateCorrection); show e.(ObsLpEpoch.unallocatedRewards);
         show e.(ObsLpEpoch.roundingReserve); show e.(ObsLpEpoch.terminalRoundingBaseUnits);
         show e.(ObsLpEpoch.retiredResidueMagnified); show e.(ObsLpEpoch.lifetimeReceived);
         show e.(ObsLpEpoch.lifetimeClaimed); showBool e.(ObsLpEpoch.quarantined)].

Definition compareLpEpoch (projection : Proj.ProtocolProjection) (observed : ObsLpEpoch.ObservedLpEpoch)
    (replayedRegistered observedRegistered : list Address) : Audit (option LpResult.LpReconciliationResult) :=
  let scope := "lp-" ⧺ show observed.(ObsLpEpoch.epoch) in
  match jsGet observed.(ObsLpEpoch.epoch) projection.(Proj.lpEpochs) with
  | None =>
      raiseIf true LP_ACCOUNTING "Observed chain state contains an LP epoch absent from replay." scope
        "absent" (show observed.(ObsLpEpoch.epoch)) ;;
      mret None
  | Some expected =>
      calculatedLiability ← computing (lpIndexedLiability expected);
      expectedVaultBalance ← computing (expectedLpVaultBalance expected);
      raiseIf (bool_decide (observed.(ObsLpEpoch.rewardVault) <> expected.(LpEpoch.rewardVault))) VAULT_BINDING
        "LP epoch reward-vault identifier differs from its event-bound vault." scope
        expected.(LpEpoch.rewardVault) observed.(ObsLpEpoch.rewardVault) ;;
      raiseIf (bool_decide (observed.(ObsLpEpoch.stateId) <> expected.(LpEpoch.stateId))) IDENTIFIER_REUSE
        "LP epoch state-object identifier differs from immutable opening evidence." scope
        expected.(LpEpoch.stateId) observed.(ObsLpEpoch.stateId) ;;
      raiseIf (bool_decide (observed.(ObsLpEpoch.rewardVaultBalance) <> expectedVaultBalance)) LP_VAULT_BACKING
        "Individual LP vault balance differs from routed rewards less claims." scope
        (show expectedVaultBalance) (show observed.(ObsLpEpoch.rewardVaultBalance)) ;;
      raiseIf (bool_decide (observed.(ObsLpEpoch.indexedLiability) <> calculatedLiability)) LP_ACCOUNTING
        "LP indexed liability differs from share/index/correction/claim arithmetic." scope
        (show calculatedLiability) (show observed.(ObsLpEpoch.indexedLiability)) ;;
      indexedAndUnallocated ← computing (checkedMoveU256Add observed.(ObsLpEpoch.indexedLiability)
        observed.(ObsLpEpoch.unallocatedRewards) "observed LP indexed and unallocated buckets");
      observedLpBuckets ← computing (checkedMoveU256Add indexedAndUnallocated
        observed.(ObsLpEpoch.roundingReserve) "observed LP vault buckets");
      raiseIf (bool_decide (observed.(ObsLpEpoch.rewardVaultBalance) <> observedLpBuckets)) LP_VAULT_BACKING
        "Observed LP vault does not equal indexed liability plus unallocated and rounding buckets." scope
        (show observedLpBuckets) (show observed.(ObsLpEpoch.rewardVaultBalance)) ;;
      raiseIf (lpFieldsDiffer expected observed) LP_ACCOUNTING
        "LP epoch accounting fields disagree with event replay." scope
        (expectedLpFields expected) (observedLpFields observed) ;;
      remaining ← compareLpPositions scope replayedRegistered expected.(LpEpoch.positions)
        (jsFromEntries (map (fun position => (position.(ObsLpPos.owner), position)) observed.(ObsLpEpoch.positions)));
      audit_forEach (fun position =>
        raiseIf (bool_decide (position.(ObsLpPos.shares) > 0) && negb (includes position.(ObsLpPos.owner) observedRegistered))
          WALLET_REGISTRATION
          "Observed positive LP ownership is not bound to the finalized registered-wallet set."
          (scope ⧺ "-" ⧺ position.(ObsLpPos.owner) ⧺ "-observed-registration")
          "registered LP owner" position.(ObsLpPos.owner)) observed.(ObsLpEpoch.positions) ;;
      audit_forEach (fun owner =>
        raiseIf true POSITION_ACCOUNTING "Observed LP position is absent from replay."
          (scope ⧺ "-" ⧺ owner) "absent" owner) (jsKeys remaining) ;;
      mret (Some (LpResult.mk observed.(ObsLpEpoch.epoch) expectedVaultBalance calculatedLiability
              (observed.(ObsLpEpoch.rewardVaultBalance) - calculatedLiability)))
  end.

(** [observed.lpEpochs.map(compareLpEpoch).filter(non-null)] *)
Fixpoint compareLpEpochs (projection : Proj.ProtocolProjection) (observed : list ObsLpEpoch.ObservedLpEpoch)
    (replayedRegistered observedRegistered : list Address) : Audit (list LpResult.LpReconciliationResult) :=
  match observed with
  | [] => mret []
  | epoch :: rest =>
      result ← compareLpEpoch projection epoch replayedRegistered observedRegistered;
      results ← compareLpEpochs projection rest replayedRegistered observedRegistered;
      mret (option_list result ++ results)
  end.

(** ** The parts of [reconcile], in order *)

Definition compareIdentity (p : Proj.ProtocolProjection) (o : Obs.ObservedAccountingSnapshot) : Audit unit :=
  raiseIf (bool_decide (p.(Proj.chainId) <> CEDRA_TESTNET_CHAIN_ID)
      || bool_decide (o.(Obs.chainId) <> p.(Proj.chainId))
      || bool_decide (o.(Obs.deploymentId) <> p.(Proj.deploymentId))
      || bool_decide (o.(Obs.networkLabel) <> p.(Proj.networkLabel))
      || bool_decide (p.(Proj.tokenMetadata) = None)
      || bool_decide (Some o.(Obs.tokenMetadata) <> p.(Proj.tokenMetadata))
      || bool_decide (o.(Obs.protocolExclusionsRemaining) <> p.(Proj.protocolExclusionsRemaining)))
    DEPLOYMENT_IDENTITY
    "Chain, registry identity, token metadata, or finite exclusion-bootstrap state disagrees with initialization evidence."
    "global"
    (tuple [show p.(Proj.chainId); p.(Proj.deploymentId); p.(Proj.networkLabel); orNone p.(Proj.tokenMetadata);
            show p.(Proj.protocolExclusionsRemaining)])
    (tuple [show o.(Obs.chainId); o.(Obs.deploymentId); o.(Obs.networkLabel); o.(Obs.tokenMetadata);
            show o.(Obs.protocolExclusionsRemaining)]).

Definition registrationsMatch (p : Proj.ProtocolProjection) (o : Obs.ObservedAccountingSnapshot) : bool :=
  bool_decide (arrayLength o.(Obs.registeredWalletAccounts) = setSize o.(Obs.registeredWalletAccounts))
  && bool_decide (p.(Proj.registeredWalletCount) = jsSize p.(Proj.registeredWallets))
  && bool_decide (o.(Obs.registeredWalletCount) = p.(Proj.registeredWalletCount))
  && bool_decide (setSize o.(Obs.registeredWalletAccounts) = jsSize p.(Proj.registeredWallets))
  && forallb (fun account => includes account o.(Obs.registeredWalletAccounts)) (jsKeys p.(Proj.registeredWallets)).

Definition compareRegistrations (p : Proj.ProtocolProjection) (o : Obs.ObservedAccountingSnapshot) : Audit unit :=
  raiseIf (negb (registrationsMatch p o)) WALLET_REGISTRATION
    "Finalized wallet registration count/set disagrees with exact-once event replay." "registered-wallets"
    (tuple (show p.(Proj.registeredWalletCount) :: sortStrings (jsKeys p.(Proj.registeredWallets))))
    (tuple (show o.(Obs.registeredWalletCount) :: sortStrings o.(Obs.registeredWalletAccounts))).

Definition compareAdmin (key : string) (expected observed : option Address) : Audit unit :=
  match expected with
  | None =>
      raiseIf true OPERATIONAL_ADMIN
        "Legacy v0.1 deployment is missing an operational-admin initialization event." key
        "evented non-zero authority" (default "missing" observed)
  | Some admin =>
      raiseIf (bool_decide (Some admin <> observed)) OPERATIONAL_ADMIN
        "Legacy v0.1 on-chain operational admin differs from the evented publisher handoff." key
        admin (default "missing" observed)
  end.

Definition isV02 (p : Proj.ProtocolProjection) : bool := bool_decide (p.(Proj.packageVersion) = V02).

Definition compareAuthorities (p : Proj.ProtocolProjection) (o : Obs.ObservedAccountingSnapshot) : Audit unit :=
  let admins := p.(Proj.operationalAdmins) in
  if negb (isV02 p) then
    compareAdmin "reflectionCore" admins.(Admins.reflectionCore) o.(Obs.coreOperationalAdmin) ;;
    compareAdmin "testAssets" admins.(Admins.testAssets) o.(Obs.faucetOperationalAdmin) ;;
    compareAdmin "testAmm" admins.(Admins.testAmm) o.(Obs.ammOperationalAdmin) ;;
    raiseIf (bool_decide (p.(Proj.deploymentReady) <> adminsComplete admins) || negb p.(Proj.deploymentReady))
      OPERATIONAL_ADMIN
      "Legacy v0.1 deployment readiness requires complete core, faucet, and AMM authority histories."
      "deployment-readiness" "true" (showBool p.(Proj.deploymentReady))
  else
    raiseIf (negb p.(Proj.deploymentReady) || bool_decide (p.(Proj.lifecycle) = Some CONFIGURING)) EVENT_DATA
      "v0.2 deployment readiness requires the ownerless launch seal."
      "deployment-readiness" "LIVE|CLOSED" (from_option lifecycleName "missing" p.(Proj.lifecycle)).

Definition compareVault (p : Proj.ProtocolProjection) (o : Obs.ObservedAccountingSnapshot)
    (expectedRewardVaultBalance calculatedReflectionLiability : Z) : Audit unit :=
  raiseIf (bool_decide (p.(Proj.rewardVault) = None) || bool_decide (Some o.(Obs.rewardVault) <> p.(Proj.rewardVault)))
    VAULT_BINDING "Core reward-vault identifier differs from initialization evidence." "core"
    (default "missing" p.(Proj.rewardVault)) o.(Obs.rewardVault) ;;
  raiseIf (bool_decide (o.(Obs.rewardVaultBalance) <> expectedRewardVaultBalance)) VAULT_BACKING
    "Core reward-vault balance differs from lifetime fees less wallet materializations and custody routes." "core"
    (show expectedRewardVaultBalance) (show o.(Obs.rewardVaultBalance)) ;;
  raiseIf (bool_decide (o.(Obs.reflectionLiability) <> calculatedReflectionLiability)) REFLECTION_LIABILITY
    "Core indexed liability differs from global shares/index/correction less settled totals." "core"
    (show calculatedReflectionLiability) (show o.(Obs.reflectionLiability)) ;;
  indexedAndUnallocated ← computing (checkedMoveU256Add o.(Obs.reflectionLiability) o.(Obs.unallocatedFees)
    "observed core indexed and unallocated buckets");
  observedCoreBuckets ← computing (checkedMoveU256Add indexedAndUnallocated o.(Obs.roundingReserve)
    "observed core vault buckets");
  raiseIf (bool_decide (o.(Obs.rewardVaultBalance) <> observedCoreBuckets)) VAULT_BACKING
    "Observed core vault does not equal indexed liability plus unallocated and rounding buckets." "core-buckets"
    (show observedCoreBuckets) (show o.(Obs.rewardVaultBalance)).

Definition compareTotals (p : Proj.ProtocolProjection) (o : Obs.ObservedAccountingSnapshot) : Audit unit :=
  raiseIf (bool_decide (o.(Obs.currentIndex) <> p.(Proj.currentIndex))
           || bool_decide (o.(Obs.indexRemainder) <> p.(Proj.indexRemainder))) GLOBAL_INDEX
    "On-chain global reflection index or remainder disagrees with replay." "global"
    (tuple [show p.(Proj.currentIndex); show p.(Proj.indexRemainder)])
    (tuple [show o.(Obs.currentIndex); show o.(Obs.indexRemainder)]) ;;
  raiseIf (bool_decide (o.(Obs.eligibleSupply) <> p.(Proj.eligibleSupply))) ELIGIBLE_SUPPLY
    "On-chain total global shares disagree with replay." "global"
    (show p.(Proj.eligibleSupply)) (show o.(Obs.eligibleSupply)) ;;
  raiseIf (bool_decide (o.(Obs.aggregateCorrection) <> p.(Proj.aggregateCorrection))
           || bool_decide (o.(Obs.unallocatedFees) <> p.(Proj.unallocatedFees))
           || bool_decide (o.(Obs.roundingReserve) <> p.(Proj.roundingReserve))) CORE_ACCOUNTING
    "Core aggregate correction, unallocated, or rounding bucket disagrees with replay." "global"
    (tuple [show p.(Proj.aggregateCorrection); show p.(Proj.unallocatedFees); show p.(Proj.roundingReserve)])
    (tuple [show o.(Obs.aggregateCorrection); show o.(Obs.unallocatedFees); show o.(Obs.roundingReserve)]) ;;
  raiseIf (bool_decide (o.(Obs.lifetimeSwapFees) <> p.(Proj.lifetimeSwapFees))
           || bool_decide (o.(Obs.lifetimeMaterialized) <> p.(Proj.lifetimeMaterialized))
           || bool_decide (o.(Obs.lifetimeCustodyRouted) <> p.(Proj.lifetimeCustodyRouted))) LIFETIME_TOTAL
    "Core fee, wallet-materialization, or custody-route totals disagree with replay." "global"
    (tuple [show p.(Proj.lifetimeSwapFees); show p.(Proj.lifetimeMaterialized); show p.(Proj.lifetimeCustodyRouted)])
    (tuple [show o.(Obs.lifetimeSwapFees); show o.(Obs.lifetimeMaterialized); show o.(Obs.lifetimeCustodyRouted)]).

Definition compareCustody (p : Proj.ProtocolProjection) (o : Obs.ObservedAccountingSnapshot)
    (calculatedCustodyPending : Z) : Audit unit :=
  let custody := p.(Proj.custody) in
  raiseIf (bool_decide (Some o.(Obs.custodyAdapterId) <> custody.(Custody.adapterId))
           || bool_decide (Some o.(Obs.custodyActiveRouteEpoch) <> custody.(Custody.activeRouteEpoch))
           || bool_decide (Some o.(Obs.custodyActiveLpRewardVault) <> custody.(Custody.activeLpRewardVault)))
    VAULT_BINDING "Custody adapter or active epoch/vault route disagrees with registration events." "custody-route"
    (tuple [orNone (show <$> custody.(Custody.adapterId)); orNone (show <$> custody.(Custody.activeRouteEpoch));
            orNone custody.(Custody.activeLpRewardVault)])
    (tuple [show o.(Obs.custodyAdapterId); show o.(Obs.custodyActiveRouteEpoch); o.(Obs.custodyActiveLpRewardVault)]) ;;
  raiseIf (bool_decide (o.(Obs.custodyShares) <> custody.(Custody.shares))
           || bool_decide (o.(Obs.custodyCorrection) <> custody.(Custody.correction))
           || bool_decide (o.(Obs.custodyClaimed) <> custody.(Custody.claimed))
           || bool_decide (o.(Obs.custodyPendingRewards) <> calculatedCustodyPending)) CUSTODY_ACCOUNTING
    "Canonical custody shares, correction, settlement, or pending rewards disagree with replay." "global"
    (tuple [show custody.(Custody.shares); show custody.(Custody.correction); show custody.(Custody.claimed);
            show calculatedCustodyPending])
    (tuple [show o.(Obs.custodyShares); show o.(Obs.custodyCorrection); show o.(Obs.custodyClaimed);
            show o.(Obs.custodyPendingRewards)]) ;;
  raiseIf (bool_decide (custody.(Custody.reserveStore) <> None)
           && bool_decide (Some o.(Obs.custodyReserveStore) <> custody.(Custody.reserveStore))) VAULT_BINDING
    "Canonical reserve-store identifier differs from route evidence." "custody"
    (orNone custody.(Custody.reserveStore)) o.(Obs.custodyReserveStore) ;;
  raiseIf (bool_decide (o.(Obs.poolRflReserveStore) <> o.(Obs.custodyReserveStore))
           || bool_decide (custody.(Custody.reserveStore) = None)
           || bool_decide (Some o.(Obs.poolRflReserveStore) <> custody.(Custody.reserveStore))) VAULT_BINDING
    "AMM tRFL reserve-store view must equal the immutable custody registration." "pool-rfl-reserve"
    (default "missing" custody.(Custody.reserveStore))
    (tuple [o.(Obs.poolRflReserveStore); o.(Obs.custodyReserveStore)]) ;;
  raiseIf (bool_decide (p.(Proj.mockUsdPoolReserve) = None)
           || bool_decide (Some o.(Obs.poolUsdReserveStore) <> p.(Proj.mockUsdPoolReserve))
           || bool_decide (Some o.(Obs.mockUsdPoolReserve) <> p.(Proj.mockUsdPoolReserve))) VAULT_BINDING
    "AMM tUSD reserve and mock-asset settlement capability must equal the one-shot reserve event." "pool-tusd-reserve"
    (default "missing" p.(Proj.mockUsdPoolReserve))
    (tuple [o.(Obs.poolUsdReserveStore); o.(Obs.mockUsdPoolReserve)]) ;;
  raiseIf (bool_decide (o.(Obs.trflReserve) <> o.(Obs.custodyReserveBalance))
           || bool_decide (o.(Obs.trflReserve) <> o.(Obs.custodyShares))
           || bool_decide (p.(Proj.pool).(Pool.trflReserve) <> custody.(Custody.shares))) RESERVE_CUSTODY
    "Pool tRFL reserve, raw custody-store balance, and custody shares must be exactly equal." "global"
    (tuple [show p.(Proj.pool).(Pool.trflReserve); show custody.(Custody.shares)])
    (tuple [show o.(Obs.trflReserve); show o.(Obs.custodyReserveBalance); show o.(Obs.custodyShares)]).

Definition poolLimits (ammFeeBps gross reserve rfl usd withdrawal : Z) : string :=
  tuple [show ammFeeBps; show gross; show reserve; show rfl; show usd; show withdrawal].

Definition comparePool (pool : Pool.IndexedPool) (o : Obs.ObservedAccountingSnapshot) : Audit unit :=
  raiseIf (bool_decide (o.(Obs.trflReserve) <> pool.(Pool.trflReserve))
           || bool_decide (o.(Obs.tusdReserve) <> pool.(Pool.tusdReserve))) POOL_RESERVES
    "On-chain pool reserves disagree with swap/liquidity receipts." "global"
    (tuple [show pool.(Pool.trflReserve); show pool.(Pool.tusdReserve)])
    (tuple [show o.(Obs.trflReserve); show o.(Obs.tusdReserve)]) ;;
  raiseIf (bool_decide (o.(Obs.ammFeeBps) <> pool.(Pool.ammFeeBps))
           || bool_decide (o.(Obs.maximumGrossSwap) <> pool.(Pool.maximumGrossSwap))
           || bool_decide (o.(Obs.maximumReserveBps) <> pool.(Pool.maximumReserveBps))
           || bool_decide (o.(Obs.maximumRflContribution) <> pool.(Pool.maximumRflContribution))
           || bool_decide (o.(Obs.maximumTusdContribution) <> pool.(Pool.maximumTusdContribution))
           || bool_decide (o.(Obs.maximumNonFinalWithdrawalShareBps) <> pool.(Pool.maximumNonFinalWithdrawalShareBps)))
    POOL_LIMITS "On-chain swap, liquidity contribution, or withdrawal limits disagree with event replay." "global"
    (poolLimits pool.(Pool.ammFeeBps) pool.(Pool.maximumGrossSwap) pool.(Pool.maximumReserveBps)
       pool.(Pool.maximumRflContribution) pool.(Pool.maximumTusdContribution) pool.(Pool.maximumNonFinalWithdrawalShareBps))
    (poolLimits o.(Obs.ammFeeBps) o.(Obs.maximumGrossSwap) o.(Obs.maximumReserveBps)
       o.(Obs.maximumRflContribution) o.(Obs.maximumTusdContribution) o.(Obs.maximumNonFinalWithdrawalShareBps)).

Definition comparePositions (p : Proj.ProtocolProjection) (o : Obs.ObservedAccountingSnapshot) : Audit unit :=
  let total := sumWalletShares p.(Proj.positions) + p.(Proj.custody).(Custody.shares) in
  raiseIf (bool_decide (total <> p.(Proj.eligibleSupply))) ELIGIBLE_SUPPLY
    "Replay itself violates wallet plus custody share conservation." "self"
    (show total) (show p.(Proj.eligibleSupply)) ;;
  remaining ← compareWallets p.(Proj.positions)
    (jsFromEntries (map (fun position => (position.(ObsPos.account), position)) o.(Obs.positions)));
  audit_forEach (fun account =>
    raiseIf true POSITION_ACCOUNTING "Observed wallet position is absent from replay."
      ("wallet-" ⧺ account) "absent" account) (jsKeys remaining).

Definition compareEpochs (p : Proj.ProtocolProjection) (o : Obs.ObservedAccountingSnapshot)
    : Audit (list LpResult.LpReconciliationResult) :=
  raiseIf (bool_decide (o.(Obs.activeLpEpoch) <> p.(Proj.activeLpEpoch))) LP_ACCOUNTING
    "Active LP epoch differs from event history." "active-epoch"
    (orNone (show <$> p.(Proj.activeLpEpoch))) (orNone (show <$> o.(Obs.activeLpEpoch))) ;;
  audit_forEach (fun epoch =>
    raiseIf (negb (includes epoch (map ObsLpEpoch.epoch o.(Obs.lpEpochs)))) LP_ACCOUNTING
      "Replayed LP epoch is missing from chain observation." ("lp-" ⧺ show epoch) (show epoch) "missing")
    (jsKeys p.(Proj.lpEpochs)) ;;
  compareLpEpochs p o.(Obs.lpEpochs) (jsKeys p.(Proj.registeredWallets)) o.(Obs.registeredWalletAccounts).

Definition pauseFlags (swaps claims faucet pool liquidity lpClaims shutdown seeded : bool) : string :=
  tuple (map showBool [swaps; claims; faucet; pool; liquidity; lpClaims; shutdown; seeded]).

Definition compareDeployment (p : Proj.ProtocolProjection) (o : Obs.ObservedAccountingSnapshot) : Audit unit :=
  let pool := p.(Proj.pool) in
  raiseIf (bool_decide (o.(Obs.packageVersion) <> p.(Proj.packageVersion))) PACKAGE_VERSION
    "On-chain package version disagrees with event history." "global"
    p.(Proj.packageVersion) o.(Obs.packageVersion) ;;
  raiseIf (bool_decide (o.(Obs.automaticMaterialization) <> p.(Proj.automaticMaterialization))) CORE_ACCOUNTING
    "On-chain materialization mode disagrees with the immutable initialization event." "materialization-mode"
    (showBool p.(Proj.automaticMaterialization)) (showBool o.(Obs.automaticMaterialization)) ;;
  raiseIf (isV02 p && (bool_decide (o.(Obs.lifecycle) <> p.(Proj.lifecycle))
                       || bool_decide (o.(Obs.reflectionFeeBps) <> Some p.(Proj.feeBps)))) EVENT_DATA
    "On-chain v0.2 lifecycle or immutable reflection fee disagrees with event history." "v0.2-identity"
    (tuple [from_option lifecycleName "missing" p.(Proj.lifecycle); show p.(Proj.feeBps)])
    (tuple [from_option lifecycleName "missing" o.(Obs.lifecycle); from_option show "missing" o.(Obs.reflectionFeeBps)]) ;;
  raiseIf (bool_decide (o.(Obs.faucetTrflGrant) <> p.(Proj.faucetTrflGrant))
           || bool_decide (o.(Obs.faucetTusdGrant) <> p.(Proj.faucetTusdGrant))
           || bool_decide (o.(Obs.faucetCooldownSeconds) <> p.(Proj.faucetCooldownSeconds))) FAUCET_CONFIG
    "On-chain faucet configuration disagrees with event history." "global"
    (tuple [show p.(Proj.faucetTrflGrant); show p.(Proj.faucetTusdGrant); show p.(Proj.faucetCooldownSeconds)])
    (tuple [show o.(Obs.faucetTrflGrant); show o.(Obs.faucetTusdGrant); show o.(Obs.faucetCooldownSeconds)]) ;;
  raiseIf (negb (isV02 p) && (bool_decide (o.(Obs.swapsPaused) <> p.(Proj.swapsPaused))
      || bool_decide (o.(Obs.claimsPaused) <> p.(Proj.claimsPaused))
      || bool_decide (o.(Obs.faucetPaused) <> p.(Proj.faucetPaused))
      || bool_decide (o.(Obs.poolPaused) <> pool.(Pool.poolPaused))
      || bool_decide (o.(Obs.liquidityPaused) <> pool.(Pool.liquidityPaused))
      || bool_decide (o.(Obs.lpClaimsPaused) <> pool.(Pool.lpClaimsPaused))
      || bool_decide (o.(Obs.shutdownMode) <> pool.(Pool.shutdownMode))
      || bool_decide (o.(Obs.poolSeeded) <> pool.(Pool.seeded)))) PAUSE_STATE
    "Core/faucet/pool pause and shutdown state disagrees with event history." "global"
    (pauseFlags p.(Proj.swapsPaused) p.(Proj.claimsPaused) p.(Proj.faucetPaused) pool.(Pool.poolPaused)
       pool.(Pool.liquidityPaused) pool.(Pool.lpClaimsPaused) pool.(Pool.shutdownMode) pool.(Pool.seeded))
    (pauseFlags o.(Obs.swapsPaused) o.(Obs.claimsPaused) o.(Obs.faucetPaused) o.(Obs.poolPaused)
       o.(Obs.liquidityPaused) o.(Obs.lpClaimsPaused) o.(Obs.shutdownMode) o.(Obs.poolSeeded)).

(** The comparisons of a snapshot at the replayed ledger version, in order. *)
Definition compareSnapshot (p : Proj.ProtocolProjection) (o : Obs.ObservedAccountingSnapshot)
    (vault liability pending : Z) : Audit (list LpResult.LpReconciliationResult) :=
  compareIdentity p o ;;
  compareRegistrations p o ;;
  compareAuthorities p o ;;
  compareVault p o vault liability ;;
  compareTotals p o ;;
  compareCustody p o pending ;;
  comparePool p.(Proj.pool) o ;;
  comparePositions p o ;;
  lpResults ← compareEpochs p o;
  compareDeployment p o ;;
  mret lpResults.

(** [reconcile] *)
Definition reconcile (p : Proj.ProtocolProjection) (o : Obs.ObservedAccountingSnapshot)
    : Outcome Report.ReconciliationReport :=
  vault ← expectedCoreVaultBalance p;
  liability ← coreIndexedLiability p;
  let backingSurplus := o.(Obs.rewardVaultBalance) - liability in
  pending ← custodyPending p;
  let report lpResults alerts reconciled :=
    Report.mk o.(Obs.ledgerVersion) vault liability backingSurplus lpResults alerts reconciled in
  let pinned := match cursor with
                | None => false
                | Some c => bool_decide (o.(Obs.ledgerVersion) = c.(Cursor.ledgerVersion))
                end in
  if negb pinned then
    '(_, alerts) ← raiseIf true LEDGER_VERSION
      "Finalized chain views must be pinned to the exact event-replay ledger version." "global"
      (from_option (fun c => show c.(Cursor.ledgerVersion)) "indexed cursor required" cursor)
      (show o.(Obs.ledgerVersion)) [];
    Returns (report [] alerts false)
  else
    '(lpResults, alerts) ← compareSnapshot p o vault liability pending [];
    Returns (report lpResults alerts (bool_decide (length alerts = 0%nat))).
End Reconciler.
