(* ===== verification/Snapshot.v ===== *)
(** * Snapshots: the checkpoint guard, its identity encoding

    [snapshot.ts]: [isProjection] as a boolean on the projection (the [typeof]
    tests hold of every typed value and are left out), the JSON value whose text a snapshot
    is identified by, and [takeSnapshot].  The hash of [node:crypto] is the
    argument [sha256]. *)
From S2P Require Import Prelude JsMap Types MoveDomains JsValue Json Accounting Replay Group WalletHandlers LpHandlers.
From S2P Require Import PoolHandlers ConfigHandlers.

Module Snap.
Record IndexerSnapshot := mk {
  schemaVersion : Z;
  id : string;
  takenAtUnixMilliseconds : Z;
  cursor : option Cursor.EventCursor;
  projection : Proj.ProtocolProjection
}.
End Snap.

(** ** The guards *)

(** [/^0x(?:0|[1-9a-f][0-9a-f]{0,63})$/] *)
Definition isAddress (value : Address) : bool :=
  match value with
  | String "0" (String "x" digits) =>
      match digits with
      | String "0" rest => bool_decide (rest = "")
      | String _ _ => allChars isLowerHex digits && bool_decide (jsLength digits <= 64)
      | EmptyString => false
      end
  | _ => false
  end.

Definition isOptionalAddress (value : option Address) : bool := from_option isAddress true value.
Definition isOptionalMoveUnsigned (value : option Z) (bits : MoveWidth) : bool :=
  from_option (fun v => isMoveUnsigned v bits) true value.

Definition isCursor (value : option Cursor.EventCursor) : bool :=
  match value with
  | None => true
  | Some c => isMoveUnsigned c.(Cursor.ledgerVersion) U64 && isSafeInteger c.(Cursor.eventIndex)
              && bool_decide (0 <= c.(Cursor.eventIndex)) && isMoveUnsigned c.(Cursor.eventIndex) U64
  end.

Definition isWalletPosition (w : Wallet.IndexedPosition) : bool :=
  isAddress w.(Wallet.account) && isMoveUnsigned w.(Wallet.rawTrfl) U64 && isMoveUnsigned w.(Wallet.rawTusd) U64
  && isMoveSignedU256 w.(Wallet.correction) && isMoveUnsigned w.(Wallet.claimed) U256
  && isMoveUnsigned w.(Wallet.lifetimeClaimed) U256 && isMoveUnsigned w.(Wallet.lifetimeMaterialized) U256.

Definition isLpPosition (p : LpPos.IndexedLpPosition) : bool :=
  isAddress p.(LpPos.owner) && isMoveUnsigned p.(LpPos.shares) U128 && isMoveSignedU256 p.(LpPos.correction)
  && isMoveUnsigned p.(LpPos.claimed) U256.

Definition isLpEpoch (e : LpEpoch.IndexedLpEpoch) : bool :=
  isMoveUnsigned e.(LpEpoch.epoch) U64 && bool_decide (0 < e.(LpEpoch.epoch)) && isAddress e.(LpEpoch.stateId)
  && isAddress e.(LpEpoch.rewardVault) && isMoveUnsigned e.(LpEpoch.index) U256
  && isMoveUnsigned e.(LpEpoch.indexRemainder) U256 && isMoveUnsigned e.(LpEpoch.totalShares) U128
  && isMoveSignedU256 e.(LpEpoch.aggregateCorrection) && isMoveUnsigned e.(LpEpoch.unallocatedRewards) U128
  && isMoveUnsigned e.(LpEpoch.roundingReserve) U128 && isMoveUnsigned e.(LpEpoch.retiredResidueMagnified) U256
  && match e.(LpEpoch.terminalRoundingBaseUnits) with
     | None => bool_decide (e.(LpEpoch.status) = active)
     | Some units => bool_decide (e.(LpEpoch.status) = claim_only) && isMoveUnsigned units U128
     end
  && isMoveUnsigned e.(LpEpoch.lifetimeReceived) U256 && isMoveUnsigned e.(LpEpoch.lifetimeClaimed) U256
  && forallb isLpPosition (jsValues e.(LpEpoch.positions))
  && hasUnique (map LpPos.owner (jsValues e.(LpEpoch.positions))).

Definition isAddressEpochEntries (entries : JsMap Address Z) : bool :=
  forallb (fun entry => isAddress entry.1 && isMoveUnsigned entry.2 U64 && bool_decide (entry.2 <> 0)) entries
  && hasUnique (map fst entries) && hasUnique (map snd entries).

Definition isAddressEntries (entries : JsMap Address Address) : bool :=
  forallb (fun entry => isAddress entry.1 && isAddress entry.2) entries
  && hasUnique (map fst entries) && hasUnique (map snd entries).

Definition isSeenEventEntries (entries : JsMap EventId string) : bool :=
  forallb (fun entry =>
    bool_decide (jsLength entry.1 <> 0) && bool_decide (jsLength entry.1 <= 512)
    && match parseSeenCursor entry.2 with
       | None => false
       | Some (ledgerVersion, eventIndex) =>
           isMoveUnsigned ledgerVersion U64 && isMoveUnsigned eventIndex U64
           && bool_decide (eventIndex <= MAX_SAFE_INTEGER)
       end) entries
  && hasUnique (map fst entries).

(** [isProjection]: first the collections and their cross-references, *)
Definition validCollections (p : Proj.ProtocolProjection) : bool :=
  let positions := jsValues p.(Proj.positions) in
  let lpEpochs := jsValues p.(Proj.lpEpochs) in
  forallb isWalletPosition positions && hasUnique (map Wallet.account positions)
  && forallb isLpEpoch lpEpochs && hasUnique (map LpEpoch.epoch lpEpochs)
  && hasUnique (map LpEpoch.rewardVault lpEpochs) && hasUnique (map LpEpoch.stateId lpEpochs)
  && isAddressEpochEntries p.(Proj.rewardVaultToEpoch) && isAddressEpochEntries p.(Proj.stateIdToEpoch)
  && isSeenEventEntries p.(Proj.seenEventIds)
  && isAddressEntries p.(Proj.protocolExcludedStores) && isAddressEntries p.(Proj.registeredWallets).

Definition validRegistrationBindings (p : Proj.ProtocolProjection) : bool :=
  let excluded := p.(Proj.protocolExcludedStores) in
  forallb (fun entry => bool_decide (entry.1 <> "0x0") && bool_decide (entry.2 <> "0x0")) excluded
  && forallb (fun entry => bool_decide (entry.1 <> "0x0") && bool_decide (entry.2 <> "0x0")
                           && negb (includes entry.1 (map fst excluded)) && negb (includes entry.2 (map snd excluded)))
       p.(Proj.registeredWallets).

Definition validEpochBindings (p : Proj.ProtocolProjection) : bool :=
  let lpEpochs := jsValues p.(Proj.lpEpochs) in
  bool_decide (length p.(Proj.rewardVaultToEpoch) = length lpEpochs)
  && bool_decide (length p.(Proj.stateIdToEpoch) = length lpEpochs)
  && forallb (fun epoch =>
       bool_decide (jsGet epoch.(LpEpoch.rewardVault) p.(Proj.rewardVaultToEpoch) = Some epoch.(LpEpoch.epoch))
       && bool_decide (jsGet epoch.(LpEpoch.stateId) p.(Proj.stateIdToEpoch) = Some epoch.(LpEpoch.epoch))) lpEpochs.

Definition validActiveEpoch (p : Proj.ProtocolProjection) : bool :=
  let activeEpochs := List.filter (fun epoch => bool_decide (epoch.(LpEpoch.status) = active)) (jsValues p.(Proj.lpEpochs)) in
  isOptionalMoveUnsigned p.(Proj.activeLpEpoch) U64
  && match p.(Proj.activeLpEpoch) with
     | None => bool_decide (length activeEpochs = 0%nat)
     | Some id => bool_decide (id <> 0) && match activeEpochs with
                                           | [epoch] => bool_decide (epoch.(LpEpoch.epoch) = id)
                                           | _ => false
                                           end
     end.

(** then the scalar fields, *)
Definition validIdentity (p : Proj.ProtocolProjection) : bool :=
  bool_decide (jsLength p.(Proj.deploymentId) > 0) && bool_decide (jsLength p.(Proj.deploymentId) <= 512)
  && (bool_decide (p.(Proj.networkLabel) = "uninitialized") || bool_decide (p.(Proj.networkLabel) = "cedra-testnet"))
  && bool_decide (p.(Proj.chainId) = 2) && isOptionalAddress p.(Proj.tokenMetadata)
  && isMoveUnsigned p.(Proj.protocolExclusionSlots) U64 && isMoveUnsigned p.(Proj.protocolExclusionsRemaining) U64
  && isMoveUnsigned p.(Proj.registeredWalletCount) U64
  && bool_decide (p.(Proj.registeredWalletCount) = jsSize p.(Proj.registeredWallets))
  && forallb (fun position => includes position.(Wallet.account) (jsKeys p.(Proj.registeredWallets)))
       (jsValues p.(Proj.positions))
  && forallb (fun epoch => forallb (fun position =>
       bool_decide (position.(LpPos.shares) = 0) || includes position.(LpPos.owner) (jsKeys p.(Proj.registeredWallets)))
       (jsValues epoch.(LpEpoch.positions))) (jsValues p.(Proj.lpEpochs)).

Definition validCore (p : Proj.ProtocolProjection) : bool :=
  isMoveUnsigned p.(Proj.feeBps) U64
  && bool_decide (p.(Proj.feeBps) <= if bool_decide (p.(Proj.packageVersion) = "testnet-v0.2.0") then 500 else 100)
  && isMoveUnsigned p.(Proj.currentIndex) U256 && isMoveUnsigned p.(Proj.indexRemainder) U256
  && isMoveUnsigned p.(Proj.eligibleSupply) U128 && isMoveSignedU256 p.(Proj.aggregateCorrection)
  && isMoveUnsigned p.(Proj.unallocatedFees) U128 && isMoveUnsigned p.(Proj.roundingReserve) U128
  && isOptionalAddress p.(Proj.rewardVault) && isOptionalAddress p.(Proj.distributionVault)
  && isOptionalAddress p.(Proj.mockUsdPoolReserve) && isMoveUnsigned p.(Proj.rewardVaultCredits) U256
  && isMoveUnsigned p.(Proj.rewardVaultPayouts) U256 && isMoveUnsigned p.(Proj.lifetimeSwapFees) U256
  && isMoveUnsigned p.(Proj.lifetimeMaterialized) U256 && isMoveUnsigned p.(Proj.lifetimeCustodyRouted) U256.

Definition validDeployment (p : Proj.ProtocolProjection) : bool :=
  let v02 := bool_decide (p.(Proj.packageVersion) = "testnet-v0.2.0") in
  let admins := p.(Proj.operationalAdmins) in
  bool_decide (jsLength p.(Proj.packageVersion) > 0) && bool_decide (jsLength p.(Proj.packageVersion) <= 128)
  && (if v02 then bool_decide (p.(Proj.lifecycle) <> None) && bool_decide (p.(Proj.automaticMaterialization) = true)
      else bool_decide (p.(Proj.lifecycle) = None))
  && isMoveUnsigned p.(Proj.faucetTrflGrant) U64 && isMoveUnsigned p.(Proj.faucetTusdGrant) U64
  && isMoveUnsigned p.(Proj.faucetCooldownSeconds) U64
  && isOptionalAddress admins.(Admins.reflectionCore) && isOptionalAddress admins.(Admins.testAssets)
  && isOptionalAddress admins.(Admins.testAmm)
  && bool_decide (p.(Proj.deploymentReady) =
       if v02 then bool_decide (p.(Proj.lifecycle) <> Some CONFIGURING) else adminsComplete admins).

(** and the nested records. *)
Definition validPool (pool : Pool.IndexedPool) : bool :=
  isMoveUnsigned pool.(Pool.trflReserve) U64 && isMoveUnsigned pool.(Pool.tusdReserve) U64
  && isMoveUnsigned pool.(Pool.ammFeeBps) U64 && isMoveUnsigned pool.(Pool.maximumGrossSwap) U64
  && isMoveUnsigned pool.(Pool.maximumReserveBps) U64 && isMoveUnsigned pool.(Pool.maximumRflContribution) U64
  && isMoveUnsigned pool.(Pool.maximumTusdContribution) U64
  && isMoveUnsigned pool.(Pool.maximumNonFinalWithdrawalShareBps) U64.

Definition validCustody (c : Custody.IndexedCustodyPosition) : bool :=
  isOptionalMoveUnsigned c.(Custody.adapterId) U64 && isOptionalAddress c.(Custody.reserveStore)
  && isOptionalMoveUnsigned c.(Custody.activeRouteEpoch) U64 && isOptionalAddress c.(Custody.activeLpRewardVault)
  && isMoveUnsigned c.(Custody.shares) U128 && isMoveSignedU256 c.(Custody.correction)
  && isMoveUnsigned c.(Custody.claimed) U256 && isMoveUnsigned c.(Custody.lifetimeRouted) U256.

Definition isProjection (p : Proj.ProtocolProjection) : bool :=
  validCollections p && validRegistrationBindings p && validEpochBindings p && validActiveEpoch p
  && validIdentity p && validCore p && validDeployment p && validPool p.(Proj.pool) && validCustody p.(Proj.custody).

(** ** [serialiseProjection], in the key order the reducer builds the objects *)

Definition walletJson (w : Wallet.IndexedPosition) : Json :=
  JObject [("account", JString w.(Wallet.account)); ("rawTrfl", JBigint w.(Wallet.rawTrfl));
           ("rawTusd", JBigint w.(Wallet.rawTusd)); ("correction", JBigint w.(Wallet.correction));
           ("claimed", JBigint w.(Wallet.claimed)); ("lifetimeClaimed", JBigint w.(Wallet.lifetimeClaimed));
           ("lifetimeMaterialized", JBigint w.(Wallet.lifetimeMaterialized))].

Definition lpPositionJson (p : LpPos.IndexedLpPosition) : Json :=
  JObject [("owner", JString p.(LpPos.owner)); ("shares", JBigint p.(LpPos.shares));
           ("correction", JBigint p.(LpPos.correction)); ("claimed", JBigint p.(LpPos.claimed))].

Definition lpEpochJson (e : LpEpoch.IndexedLpEpoch) : Json :=
  JObject [("epoch", JBigint e.(LpEpoch.epoch)); ("stateId", JString e.(LpEpoch.stateId));
           ("status", JString (statusName e.(LpEpoch.status))); ("rewardVault", JString e.(LpEpoch.rewardVault));
           ("index", JBigint e.(LpEpoch.index)); ("indexRemainder", JBigint e.(LpEpoch.indexRemainder));
           ("totalShares", JBigint e.(LpEpoch.totalShares)); ("aggregateCorrection", JBigint e.(LpEpoch.aggregateCorrection));
           ("unallocatedRewards", JBigint e.(LpEpoch.unallocatedRewards)); ("roundingReserve", JBigint e.(LpEpoch.roundingReserve));
           ("retiredResidueMagnified", JBigint e.(LpEpoch.retiredResidueMagnified));
           ("terminalRoundingBaseUnits", jsonNullable JBigint e.(LpEpoch.terminalRoundingBaseUnits));
           ("lifetimeReceived", JBigint e.(LpEpoch.lifetimeReceived)); ("lifetimeClaimed", JBigint e.(LpEpoch.lifetimeClaimed));
           ("quarantined", JBool e.(LpEpoch.quarantined));
           ("positions", JArray (map lpPositionJson (jsValues e.(LpEpoch.positions))))].

Definition poolJson (p : Pool.IndexedPool) : Json :=
  JObject [("trflReserve", JBigint p.(Pool.trflReserve)); ("tusdReserve", JBigint p.(Pool.tusdReserve));
           ("ammFeeBps", JBigint p.(Pool.ammFeeBps)); ("maximumGrossSwap", JBigint p.(Pool.maximumGrossSwap));
           ("maximumReserveBps", JBigint p.(Pool.maximumReserveBps));
           ("maximumRflContribution", JBigint p.(Pool.maximumRflContribution));
           ("maximumTusdContribution", JBigint p.(Pool.maximumTusdContribution));
           ("maximumNonFinalWithdrawalShareBps", JBigint p.(Pool.maximumNonFinalWithdrawalShareBps));
           ("poolPaused", JBool p.(Pool.poolPaused)); ("liquidityPaused", JBool p.(Pool.liquidityPaused));
           ("lpClaimsPaused", JBool p.(Pool.lpClaimsPaused)); ("shutdownMode", JBool p.(Pool.shutdownMode));
           ("seeded", JBool p.(Pool.seeded))].

Definition custodyJson (c : Custody.IndexedCustodyPosition) : Json :=
  JObject [("adapterId", jsonNullable JBigint c.(Custody.adapterId)); ("reserveStore", jsonNullable JString c.(Custody.reserveStore));
           ("activeRouteEpoch", jsonNullable JBigint c.(Custody.activeRouteEpoch));
           ("activeLpRewardVault", jsonNullable JString c.(Custody.activeLpRewardVault));
           ("shares", JBigint c.(Custody.shares)); ("correction", JBigint c.(Custody.correction));
           ("claimed", JBigint c.(Custody.claimed)); ("lifetimeRouted", JBigint c.(Custody.lifetimeRouted))].

Definition adminsJson (a : Admins.OperationalAdmins) : Json :=
  JObject [("reflectionCore", jsonNullable JString a.(Admins.reflectionCore));
           ("testAssets", jsonNullable JString a.(Admins.testAssets)); ("testAmm", jsonNullable JString a.(Admins.testAmm))].

Definition entriesJson {V} (f : V -> Json) (entries : JsMap string V) : Json :=
  JArray (map (fun entry => JArray [JString entry.1; f entry.2]) entries).

(** The optional [lifecycle] is set after creation, so it is the last key. *)
Definition serialiseProjection (p : Proj.ProtocolProjection) : Json :=
  JObject ([("chainId", JNumber p.(Proj.chainId)); ("deploymentId", JString p.(Proj.deploymentId));
    ("networkLabel", JString p.(Proj.networkLabel)); ("tokenMetadata", jsonNullable JString p.(Proj.tokenMetadata));
    ("protocolExclusionSlots", JBigint p.(Proj.protocolExclusionSlots));
    ("protocolExclusionsRemaining", JBigint p.(Proj.protocolExclusionsRemaining));
    ("protocolExcludedStores", entriesJson JString p.(Proj.protocolExcludedStores));
    ("registeredWallets", entriesJson JString p.(Proj.registeredWallets));
    ("registeredWalletCount", JBigint p.(Proj.registeredWalletCount));
    ("automaticMaterialization", JBool p.(Proj.automaticMaterialization)); ("feeBps", JBigint p.(Proj.feeBps));
    ("currentIndex", JBigint p.(Proj.currentIndex)); ("indexRemainder", JBigint p.(Proj.indexRemainder));
    ("eligibleSupply", JBigint p.(Proj.eligibleSupply)); ("aggregateCorrection", JBigint p.(Proj.aggregateCorrection));
    ("unallocatedFees", JBigint p.(Proj.unallocatedFees)); ("roundingReserve", JBigint p.(Proj.roundingReserve));
    ("rewardVault", jsonNullable JString p.(Proj.rewardVault)); ("distributionVault", jsonNullable JString p.(Proj.distributionVault));
    ("mockUsdPoolReserve", jsonNullable JString p.(Proj.mockUsdPoolReserve));
    ("rewardVaultCredits", JBigint p.(Proj.rewardVaultCredits)); ("rewardVaultPayouts", JBigint p.(Proj.rewardVaultPayouts));
    ("lifetimeSwapFees", JBigint p.(Proj.lifetimeSwapFees)); ("lifetimeMaterialized", JBigint p.(Proj.lifetimeMaterialized));
    ("lifetimeCustodyRouted", JBigint p.(Proj.lifetimeCustodyRouted)); ("packageVersion", JString p.(Proj.packageVersion));
    ("swapsPaused", JBool p.(Proj.swapsPaused)); ("claimsPaused", JBool p.(Proj.claimsPaused));
    ("faucetPaused", JBool p.(Proj.faucetPaused)); ("faucetTrflGrant", JBigint p.(Proj.faucetTrflGrant));
    ("faucetTusdGrant", JBigint p.(Proj.faucetTusdGrant)); ("faucetCooldownSeconds", JBigint p.(Proj.faucetCooldownSeconds));
    ("operationalAdmins", adminsJson p.(Proj.operationalAdmins)); ("deploymentReady", JBool p.(Proj.deploymentReady));
    ("pool", poolJson p.(Proj.pool)); ("custody", custodyJson p.(Proj.custody));
    ("activeLpEpoch", jsonNullable JBigint p.(Proj.activeLpEpoch));
    ("lpEpochs", JArray (map lpEpochJson (jsValues p.(Proj.lpEpochs))));
    ("rewardVaultToEpoch", entriesJson JBigint p.(Proj.rewardVaultToEpoch));
    ("stateIdToEpoch", entriesJson JBigint p.(Proj.stateIdToEpoch));
    ("positions", JArray (map walletJson (jsValues p.(Proj.positions))));
    ("seenEventIds", entriesJson JString p.(Proj.seenEventIds))]
   ++ match p.(Proj.lifecycle) with None => [] | Some l => [("lifecycle", JString (lifecycleName l))] end).

Definition cursorJson (c : Cursor.EventCursor) : Json :=
  JObject [("ledgerVersion", JBigint c.(Cursor.ledgerVersion)); ("eventIndex", JNumber c.(Cursor.eventIndex))].

(** [encodeSnapshot]'s object, whose [id] is ["pending"] when it is identified. *)
Definition snapshotJson (id : string) (takenAt : Z) (cursor : option Cursor.EventCursor)
    (p : Proj.ProtocolProjection) : Json :=
  JObject [("schemaVersion", JNumber 1); ("id", JString id); ("takenAtUnixMilliseconds", JBigint takenAt);
           ("cursor", jsonNullable cursorJson cursor); ("projection", serialiseProjection p)].

Definition encodeSnapshot (s : Snap.IndexerSnapshot) : string :=
  stringify (snapshotJson s.(Snap.id) s.(Snap.takenAtUnixMilliseconds) s.(Snap.cursor) s.(Snap.projection)).

Section Identity.
(** The hexadecimal SHA-256 digest of a text. *)
Context (sha256 : string -> string).

Definition snapshotId (input : string) : string := "snapshot-" ⧺ sha256 input.

Definition snapshotIdentityEncoding (takenAt : Z) (cursor : option Cursor.EventCursor)
    (p : Proj.ProtocolProjection) : string := stringify (snapshotJson "pending" takenAt cursor p).

Definition takeSnapshot (p : Proj.ProtocolProjection) (cursor : option Cursor.EventCursor) (takenAt : Z)
    : Outcome Snap.IndexerSnapshot :=
  if negb (isMoveUnsigned takenAt U64) then Throws (RangeError "snapshot timestamp must fit Move u64")
  else if negb (isCursor cursor)
  then Throws (RangeError "snapshot cursor must fit the finalized Move u64 cursor domain")
  else if negb (isProjection p)
  then Throws (TypeError "snapshot projection is not a complete, exact-width protocol state")
  else Returns (Snap.mk 1 (snapshotId (snapshotIdentityEncoding takenAt cursor p)) takenAt cursor p).
End Identity.
