(* ===== verification/SnapshotDecode.v ===== *)
(** * Reading a snapshot back: [decodeSnapshot]

    [isSerializableSnapshot] tests the type of every field and then its value.
    The type tests are the readers below, which give the typed record; the tests
    of values are the guards of Snapshot.v on that record.  A [Map] is rebuilt
    under the owners its values name, as the code does after the guards.  Fields
    no type mentions are not kept. *)
From S2P Require Import Prelude JsMap Types MoveDomains JsValue Json Accounting Replay Group WalletHandlers LpHandlers.
From S2P Require Import PoolHandlers ConfigHandlers Snapshot.

(** ** Typed readers *)

Definition readBigint (j : Json) : option Z := match j with JBigint n => Some n | _ => None end.
Definition readString (j : Json) : option string := match j with JString s => Some s | _ => None end.
Definition readBool (j : Json) : option bool := match j with JBool b => Some b | _ => None end.
Definition readNumber (j : Json) : option Z := match j with JNumber n => Some n | _ => None end.
Definition readArray {A} (read : Json -> option A) (j : Json) : option (list A) :=
  match j with JArray items => mapM read items | _ => None end.
Definition readNullable {A} (read : Json -> option A) (j : Json) : option (option A) :=
  match j with JNull => Some None | _ => Some <$> read j end.

(** [value.key], tested by [read]; [undefined] passes no test. *)
Definition field {A} (key : string) (read : Json -> option A) (j : Json) : option A :=
  value ← jsonField key j; read value.

(** [[first, second]] *)
Definition readPair {A B} (first : Json -> option A) (second : Json -> option B) (j : Json) : option (A * B) :=
  match j with
  | JArray [a; b] => a' ← first a; b' ← second b; Some (a', b')
  | _ => None
  end.

Definition readWallet (j : Json) : option Wallet.IndexedPosition :=
  account ← field "account" readString j; rawTrfl ← field "rawTrfl" readBigint j;
  rawTusd ← field "rawTusd" readBigint j; correction ← field "correction" readBigint j;
  claimed ← field "claimed" readBigint j; lifetimeClaimed ← field "lifetimeClaimed" readBigint j;
  lifetimeMaterialized ← field "lifetimeMaterialized" readBigint j;
  Some (Wallet.mk account rawTrfl rawTusd correction claimed lifetimeClaimed lifetimeMaterialized).

Definition readLpPosition (j : Json) : option LpPos.IndexedLpPosition :=
  owner ← field "owner" readString j; shares ← field "shares" readBigint j;
  correction ← field "correction" readBigint j; claimed ← field "claimed" readBigint j;
  Some (LpPos.mk owner shares correction claimed).

(** [value.status === "active" || value.status === "claim-only"] *)
Definition readStatus (j : Json) : option LpEpochStatus :=
  name ← readString j;
  if bool_decide (name = statusName active) then Some active
  else if bool_decide (name = statusName claim_only) then Some claim_only
  else None.

Definition readLpEpoch (j : Json) : option LpEpoch.IndexedLpEpoch :=
  epoch ← field "epoch" readBigint j; stateId ← field "stateId" readString j;
  status ← field "status" readStatus j; rewardVault ← field "rewardVault" readString j;
  index ← field "index" readBigint j; indexRemainder ← field "indexRemainder" readBigint j;
  totalShares ← field "totalShares" readBigint j; aggregateCorrection ← field "aggregateCorrection" readBigint j;
  unallocatedRewards ← field "unallocatedRewards" readBigint j; roundingReserve ← field "roundingReserve" readBigint j;
  retiredResidueMagnified ← field "retiredResidueMagnified" readBigint j;
  terminalRoundingBaseUnits ← field "terminalRoundingBaseUnits" (readNullable readBigint) j;
  lifetimeReceived ← field "lifetimeReceived" readBigint j; lifetimeClaimed ← field "lifetimeClaimed" readBigint j;
  quarantined ← field "quarantined" readBool j; positions ← field "positions" (readArray readLpPosition) j;
  Some {| LpEpoch.epoch := epoch; LpEpoch.stateId := stateId; LpEpoch.status := status;
          LpEpoch.rewardVault := rewardVault; LpEpoch.index := index; LpEpoch.indexRemainder := indexRemainder;
          LpEpoch.totalShares := totalShares; LpEpoch.aggregateCorrection := aggregateCorrection;
          LpEpoch.unallocatedRewards := unallocatedRewards; LpEpoch.roundingReserve := roundingReserve;
          LpEpoch.retiredResidueMagnified := retiredResidueMagnified;
          LpEpoch.terminalRoundingBaseUnits := terminalRoundingBaseUnits;
          LpEpoch.lifetimeReceived := lifetimeReceived; LpEpoch.lifetimeClaimed := lifetimeClaimed;
          LpEpoch.quarantined := quarantined;
          LpEpoch.positions := map (fun position => (position.(LpPos.owner), position)) positions |}.

Definition readPool (j : Json) : option Pool.IndexedPool :=
  trflReserve ← field "trflReserve" readBigint j; tusdReserve ← field "tusdReserve" readBigint j;
  ammFeeBps ← field "ammFeeBps" readBigint j; maximumGrossSwap ← field "maximumGrossSwap" readBigint j;
  maximumReserveBps ← field "maximumReserveBps" readBigint j;
  maximumRflContribution ← field "maximumRflContribution" readBigint j;
  maximumTusdContribution ← field "maximumTusdContribution" readBigint j;
  maximumNonFinalWithdrawalShareBps ← field "maximumNonFinalWithdrawalShareBps" readBigint j;
  poolPaused ← field "poolPaused" readBool j; liquidityPaused ← field "liquidityPaused" readBool j;
  lpClaimsPaused ← field "lpClaimsPaused" readBool j; shutdownMode ← field "shutdownMode" readBool j;
  seeded ← field "seeded" readBool j;
  Some {| Pool.trflReserve := trflReserve; Pool.tusdReserve := tusdReserve; Pool.ammFeeBps := ammFeeBps;
          Pool.maximumGrossSwap := maximumGrossSwap; Pool.maximumReserveBps := maximumReserveBps;
          Pool.maximumRflContribution := maximumRflContribution;
          Pool.maximumTusdContribution := maximumTusdContribution;
          Pool.maximumNonFinalWithdrawalShareBps := maximumNonFinalWithdrawalShareBps;
          Pool.poolPaused := poolPaused; Pool.liquidityPaused := liquidityPaused;
          Pool.lpClaimsPaused := lpClaimsPaused; Pool.shutdownMode := shutdownMode; Pool.seeded := seeded |}.

Definition readCustody (j : Json) : option Custody.IndexedCustodyPosition :=
  adapterId ← field "adapterId" (readNullable readBigint) j;
  reserveStore ← field "reserveStore" (readNullable readString) j;
  activeRouteEpoch ← field "activeRouteEpoch" (readNullable readBigint) j;
  activeLpRewardVault ← field "activeLpRewardVault" (readNullable readString) j;
  shares ← field "shares" readBigint j; correction ← field "correction" readBigint j;
  claimed ← field "claimed" readBigint j; lifetimeRouted ← field "lifetimeRouted" readBigint j;
  Some {| Custody.adapterId := adapterId; Custody.reserveStore := reserveStore;
          Custody.activeRouteEpoch := activeRouteEpoch; Custody.activeLpRewardVault := activeLpRewardVault;
          Custody.shares := shares; Custody.correction := correction; Custody.claimed := claimed;
          Custody.lifetimeRouted := lifetimeRouted |}.

Definition readAdmins (j : Json) : option Admins.OperationalAdmins :=
  reflectionCore ← field "reflectionCore" (readNullable readString) j;
  testAssets ← field "testAssets" (readNullable readString) j; testAmm ← field "testAmm" (readNullable readString) j;
  Some {| Admins.reflectionCore := reflectionCore; Admins.testAssets := testAssets; Admins.testAmm := testAmm |}.

(** [undefined], or one of the three names. *)
Definition readLifecycle (j : Json) : option (option ProtocolLifecycle) :=
  match jsonField "lifecycle" j with
  | None => Some None
  | Some value =>
      name ← readString value;
      if bool_decide (name = lifecycleName CONFIGURING) then Some (Some CONFIGURING)
      else if bool_decide (name = lifecycleName LIVE) then Some (Some LIVE)
      else if bool_decide (name = lifecycleName CLOSED) then Some (Some CLOSED)
      else None
  end.

Definition readCursor (j : Json) : option Cursor.EventCursor :=
  ledgerVersion ← field "ledgerVersion" readBigint j; eventIndex ← field "eventIndex" readNumber j;
  Some (Cursor.mk ledgerVersion eventIndex).

(** [SerializableProjection], its [Map]s rebuilt from their entries. *)
Definition readProjection (j : Json) : option Proj.ProtocolProjection :=
  chainId ← field "chainId" readNumber j; deploymentId ← field "deploymentId" readString j;
  networkLabel ← field "networkLabel" readString j;
  tokenMetadata ← field "tokenMetadata" (readNullable readString) j;
  protocolExclusionSlots ← field "protocolExclusionSlots" readBigint j;
  protocolExclusionsRemaining ← field "protocolExclusionsRemaining" readBigint j;
  protocolExcludedStores ← field "protocolExcludedStores" (readArray (readPair readString readString)) j;
  registeredWallets ← field "registeredWallets" (readArray (readPair readString readString)) j;
  registeredWalletCount ← field "registeredWalletCount" readBigint j;
  automaticMaterialization ← field "automaticMaterialization" readBool j; feeBps ← field "feeBps" readBigint j;
  currentIndex ← field "currentIndex" readBigint j; indexRemainder ← field "indexRemainder" readBigint j;
  eligibleSupply ← field "eligibleSupply" readBigint j;
  aggregateCorrection ← field "aggregateCorrection" readBigint j;
  unallocatedFees ← field "unallocatedFees" readBigint j;
  roundingReserve ← field "roundingReserve" readBigint j;
  rewardVault ← field "rewardVault" (readNullable readString) j;
  distributionVault ← field "distributionVault" (readNullable readString) j;
  mockUsdPoolReserve ← field "mockUsdPoolReserve" (readNullable readString) j;
  rewardVaultCredits ← field "rewardVaultCredits" readBigint j;
  rewardVaultPayouts ← field "rewardVaultPayouts" readBigint j;
  lifetimeSwapFees ← field "lifetimeSwapFees" readBigint j;
  lifetimeMaterialized ← field "lifetimeMaterialized" readBigint j;
  lifetimeCustodyRouted ← field "lifetimeCustodyRouted" readBigint j;
  packageVersion ← field "packageVersion" readString j; lifecycle ← readLifecycle j;
  swapsPaused ← field "swapsPaused" readBool j; claimsPaused ← field "claimsPaused" readBool j;
  faucetPaused ← field "faucetPaused" readBool j; faucetTrflGrant ← field "faucetTrflGrant" readBigint j;
  faucetTusdGrant ← field "faucetTusdGrant" readBigint j;
  faucetCooldownSeconds ← field "faucetCooldownSeconds" readBigint j;
  operationalAdmins ← field "operationalAdmins" readAdmins j;
  deploymentReady ← field "deploymentReady" readBool j; pool ← field "pool" readPool j;
  custody ← field "custody" readCustody j; activeLpEpoch ← field "activeLpEpoch" (readNullable readBigint) j;
  lpEpochs ← field "lpEpochs" (readArray readLpEpoch) j;
  rewardVaultToEpoch ← field "rewardVaultToEpoch" (readArray (readPair readString readBigint)) j;
  stateIdToEpoch ← field "stateIdToEpoch" (readArray (readPair readString readBigint)) j;
  positions ← field "positions" (readArray readWallet) j;
  seenEventIds ← field "seenEventIds" (readArray (readPair readString readString)) j;
  Some {| Proj.chainId := chainId; Proj.deploymentId := deploymentId; Proj.networkLabel := networkLabel;
     Proj.tokenMetadata := tokenMetadata; Proj.protocolExclusionSlots := protocolExclusionSlots;
     Proj.protocolExclusionsRemaining := protocolExclusionsRemaining;
     Proj.protocolExcludedStores := protocolExcludedStores; Proj.registeredWallets := registeredWallets;
     Proj.registeredWalletCount := registeredWalletCount;
     Proj.automaticMaterialization := automaticMaterialization; Proj.feeBps := feeBps;
     Proj.currentIndex := currentIndex; Proj.indexRemainder := indexRemainder;
     Proj.eligibleSupply := eligibleSupply; Proj.aggregateCorrection := aggregateCorrection;
     Proj.unallocatedFees := unallocatedFees; Proj.roundingReserve := roundingReserve;
     Proj.rewardVault := rewardVault; Proj.distributionVault := distributionVault;
     Proj.mockUsdPoolReserve := mockUsdPoolReserve; Proj.rewardVaultCredits := rewardVaultCredits;
     Proj.rewardVaultPayouts := rewardVaultPayouts; Proj.lifetimeSwapFees := lifetimeSwapFees;
     Proj.lifetimeMaterialized := lifetimeMaterialized; Proj.lifetimeCustodyRouted := lifetimeCustodyRouted;
     Proj.packageVersion := packageVersion; Proj.lifecycle := lifecycle; Proj.swapsPaused := swapsPaused;
     Proj.claimsPaused := claimsPaused; Proj.faucetPaused := faucetPaused;
     Proj.faucetTrflGrant := faucetTrflGrant; Proj.faucetTusdGrant := faucetTusdGrant;
     Proj.faucetCooldownSeconds := faucetCooldownSeconds; Proj.operationalAdmins := operationalAdmins;
     Proj.deploymentReady := deploymentReady; Proj.pool := pool; Proj.custody := custody;
     Proj.activeLpEpoch := activeLpEpoch;
     Proj.lpEpochs := map (fun epoch => (epoch.(LpEpoch.epoch), epoch)) lpEpochs;
     Proj.rewardVaultToEpoch := rewardVaultToEpoch; Proj.stateIdToEpoch := stateIdToEpoch;
     Proj.positions := map (fun position => (position.(Wallet.account), position)) positions;
     Proj.seenEventIds := seenEventIds |}.

(** [/^snapshot-[0-9a-f]{64}$/] *)
Definition isSnapshotId (id : string) : bool :=
  match stripPrefix "snapshot-" id with
  | Some digest => bool_decide (jsLength digest = 64) && allChars isLowerHex digest
  | None => false
  end.

(** [isSerializableSnapshot] *)
Definition readSnapshot (j : Json) : option Snap.IndexerSnapshot :=
  schemaVersion ← field "schemaVersion" readNumber j; id ← field "id" readString j;
  takenAt ← field "takenAtUnixMilliseconds" readBigint j; cursor ← field "cursor" (readNullable readCursor) j;
  projection ← field "projection" readProjection j;
  if bool_decide (schemaVersion = 1) && isMoveUnsigned takenAt U64 && isSnapshotId id && isCursor cursor
     && isProjection projection
  then Some (Snap.mk schemaVersion id takenAt cursor projection) else None.

(** ** [decodeSnapshot] *)

Definition snapshotReviver : Json -> Outcome Json :=
  bigintReviver (fun _ => 78) "Invalid indexer snapshot bigint encoding".

(** [snapshotIdentityEncoding] of the parsed object: its own texts of cursor and projection. *)
Definition parsedIdentityEncoding (j : Json) : string :=
  let part key := default JNull (jsonField key j) in
  stringify (JObject [("schemaVersion", part "schemaVersion"); ("id", JString "pending");
    ("takenAtUnixMilliseconds", part "takenAtUnixMilliseconds"); ("cursor", part "cursor");
    ("projection", part "projection")]).

Section Decode.
Context (sha256 : string -> string) (numberText : Z -> Z -> string).

Definition decodeSnapshot (encoded : string) : Outcome Snap.IndexerSnapshot :=
  parsed ← jsonParse numberText encoded ≫= revive snapshotReviver;
  match readSnapshot parsed with
  | None => Throws (TypeError "Invalid indexer snapshot")
  | Some snapshot =>
      if bool_decide (snapshot.(Snap.id) = snapshotId sha256 (parsedIdentityEncoding parsed))
      then Returns snapshot
      else Throws (TypeError "Indexer snapshot identifier does not match its content")
  end.
End Decode.
