(* ===== verification/AlertCodec.v ===== *)
(** * The codec of critical alerts: [packages/indexer/src/file-store.ts]

    An alert as one line of JSON, with bigints as [{ $bigint: digits }].  A
    decoded alert is read at its type: fields no type mentions are not kept. *)
From S2P Require Import Prelude JsMap Types MoveDomains JsValue Json Accounting Replay Group WalletHandlers LpHandlers.
From S2P Require Import PoolHandlers ConfigHandlers Snapshot SnapshotDecode.

Definition MAX_ALERT_ID_LENGTH : Z := 512.
Definition MAX_ALERT_MESSAGE_LENGTH : Z := 8192.
Definition MAX_ALERT_VALUE_LENGTH : Z := 8192.

Definition ALERT_CODES : list AlertCode :=
  [EVENT_ORDER; EVENT_DATA; TRANSACTION_GROUP; IDENTIFIER_REUSE; DOUBLE_COUNTING; FEE_FORMULA; VAULT_BACKING;
   REFLECTION_LIABILITY; CORE_ACCOUNTING; GLOBAL_INDEX; ELIGIBLE_SUPPLY; LIFETIME_TOTAL; POOL_RESERVES; POOL_LIMITS;
   FAUCET_CONFIG; RESERVE_CUSTODY; CUSTODY_ACCOUNTING; ROUTE_PAIR; OLD_EPOCH_ROUTE; LP_ACCOUNTING; LP_VAULT_BACKING;
   VAULT_BINDING; POSITION_ACCOUNTING; WALLET_REGISTRATION; PACKAGE_VERSION; PAUSE_STATE; OPERATIONAL_ADMIN;
   DEPLOYMENT_IDENTITY; LEDGER_VERSION].

(** [ALERT_CODES.has(name)]: the code of that name. *)
Definition alertCodeOf (name : string) : option AlertCode :=
  arrayFind (fun code => bool_decide (codeName code = name)) ALERT_CODES.

Definition severityName (severity : AlertSeverity) : string :=
  match severity with critical => "critical" | warning => "warning" | info => "info" end.

(** [JSON.stringify] leaves out a property that is [undefined]. *)
Definition optionalField (key : string) (value : option string) : list (string * Json) :=
  match value with Some text => [(key, JString text)] | None => [] end.

(** An alert, in the key order its makers give it. *)
Definition alertJson (alert : Alert.CriticalAlert) : Json :=
  JObject ([("id", JString alert.(Alert.id)); ("severity", JString (severityName alert.(Alert.severity)));
            ("code", JString (codeName alert.(Alert.code))); ("message", JString alert.(Alert.message));
            ("detectedAtUnixMilliseconds", JBigint alert.(Alert.detectedAtUnixMilliseconds));
            ("cursor", jsonNullable cursorJson alert.(Alert.cursor))]
           ++ optionalField "expected" alert.(Alert.expected) ++ optionalField "observed" alert.(Alert.observed)).

Definition boundedString (value : option Json) (label : string) (maximum : Z) : Outcome string :=
  match value with
  | Some (JString text) =>
      if bool_decide (jsLength text = 0) || bool_decide (jsLength text > maximum)
      then Throws (TypeError (label ⧺ " must be a non-empty bounded string")) else Returns text
  | _ => Throws (TypeError (label ⧺ " must be a non-empty bounded string"))
  end.

(** The cursor at its type when [validCursor] accepts it. *)
Definition validCursor (value : option Json) : option (option Cursor.EventCursor) :=
  match value with
  | Some JNull => Some None
  | Some value =>
      ledgerVersion ← field "ledgerVersion" readBigint value; eventIndex ← field "eventIndex" readNumber value;
      if bool_decide (0 <= ledgerVersion) && isSafeInteger eventIndex && bool_decide (0 <= eventIndex)
      then Some (Some (Cursor.mk ledgerVersion eventIndex)) else None
  | None => None
  end.

(** [expected] and [observed]: absent, or a bounded string. *)
Definition optionalText (value : option Json) : option (option string) :=
  match value with
  | None => Some None
  | Some (JString text) => if bool_decide (jsLength text > MAX_ALERT_VALUE_LENGTH) then None else Some (Some text)
  | Some _ => None
  end.

Definition invalidAlert {A} : Outcome A := Throws (TypeError "Invalid persisted critical alert").
Definition require {A} (read : option A) : Outcome A := from_option Returns invalidAlert read.

Section Codec.
Context (numberText : Z -> Z -> string).

(** Its numerals have no bound on the digits. *)
Definition decodeBigintJson (value : string) : Outcome Json :=
  jsonParse numberText value ≫= revive (bigintReviver jsLength "Invalid persisted bigint encoding").

Definition encodeBigintJson (value : Json) : string := stringify value.

Definition decodeCriticalAlert (value : string) : Outcome Alert.CriticalAlert :=
  decoded ← decodeBigintJson value;
  match decoded with
  | JObject _ | JArray _ =>
      id ← boundedString (jsonField "id" decoded) "critical alert id" MAX_ALERT_ID_LENGTH;
      severity ← require (field "severity" readString decoded);
      (if bool_decide (severity = "critical") then Returns tt else invalidAlert) ≫= fun _ =>
      code ← require (field "code" readString decoded ≫= alertCodeOf);
      message ← boundedString (jsonField "message" decoded) "critical alert message" MAX_ALERT_MESSAGE_LENGTH;
      detectedAt ← require (field "detectedAtUnixMilliseconds" readBigint decoded);
      (if bool_decide (detectedAt < 0) then invalidAlert else Returns tt) ≫= fun _ =>
      cursor ← require (validCursor (jsonField "cursor" decoded));
      expected ← require (optionalText (jsonField "expected" decoded));
      observed ← require (optionalText (jsonField "observed" decoded));
      Returns (Alert.mk id critical code message detectedAt cursor expected observed)
  | _ => invalidAlert
  end.

Definition encodeCriticalAlert (alert : Alert.CriticalAlert) : Outcome string :=
  let encoded := encodeBigintJson (alertJson alert) in
  decodeCriticalAlert encoded ≫= fun _ => Returns encoded.
End Codec.

Definition equivalentCriticalAlert (left right : Alert.CriticalAlert) : bool :=
  bool_decide (left.(Alert.id) = right.(Alert.id))
  && bool_decide (left.(Alert.severity) = right.(Alert.severity))
  && bool_decide (left.(Alert.code) = right.(Alert.code))
  && bool_decide (left.(Alert.message) = right.(Alert.message))
  && bool_decide (Cursor.ledgerVersion <$> left.(Alert.cursor) = Cursor.ledgerVersion <$> right.(Alert.cursor))
  && bool_decide (Cursor.eventIndex <$> left.(Alert.cursor) = Cursor.eventIndex <$> right.(Alert.cursor))
  && bool_decide (left.(Alert.expected) = right.(Alert.expected))
  && bool_decide (left.(Alert.observed) = right.(Alert.observed)).

(** ** What the codec keeps *)

(** The alerts that can be persisted. *)
Record Persistable (alert : Alert.CriticalAlert) : Prop := {
  persistable_id : 1 <= jsLength alert.(Alert.id) <= MAX_ALERT_ID_LENGTH;
  persistable_severity : alert.(Alert.severity) = critical;
  persistable_message : 1 <= jsLength alert.(Alert.message) <= MAX_ALERT_MESSAGE_LENGTH;
  persistable_time : 0 <= alert.(Alert.detectedAtUnixMilliseconds);
  persistable_cursor : forall cursor, alert.(Alert.cursor) = Some cursor ->
    0 <= cursor.(Cursor.ledgerVersion) /\ 0 <= cursor.(Cursor.eventIndex) <= MAX_SAFE_INTEGER;
  persistable_expected : forall text, alert.(Alert.expected) = Some text -> jsLength text <= MAX_ALERT_VALUE_LENGTH;
  persistable_observed : forall text, alert.(Alert.observed) = Some text -> jsLength text <= MAX_ALERT_VALUE_LENGTH
}.
