(* ===== verification/Store.v ===== *)
(** * The indexer's store: the interface and the in-memory store

    [IndexerStore] of [types.ts] as a class of operations on a store state, its
    contract as [StoreLaws], and [memory-store.ts] as an instance of both.  An
    asynchronous callback runs between [beginWriter] and [endWriter], the two
    halves of [withExclusiveWriter].  Leases are object identities: numbers
    that are never issued twice.  [structuredClone] is the identity on values
    that are never mutated. *)
From S2P Require Import Prelude JsMap Types Snapshot.

Definition Lease : Type := nat.

Definition ConcurrentDurableWriterError (lockPath : string) : JsError :=
  mkError "ConcurrentDurableWriterError" ("Another durable indexer writer holds the exclusive lock: " ⧺ lockPath).
Definition StaleIndexerSnapshotError (detail : string) : JsError :=
  mkError "StaleIndexerSnapshotError" ("Refusing a stale or conflicting indexer snapshot: " ⧺ detail).
Definition InvalidIndexerWriterLeaseError : JsError :=
  mkError "InvalidIndexerWriterLeaseError"
    "Durable indexer mutation requires the active lease issued by this exact store instance.".
Definition IndexerWriterLeaseRequiredError : JsError :=
  mkError "IndexerWriterLeaseRequiredError" "Durable indexer mutation requires one explicit full-cycle writer lease.".

Class IndexerStore (S : Type) := {
  permitsImplicitWriterLease : bool;
  beginWriter : Task S Lease;
  endWriter : S -> S;
  loadLatestSnapshot : Task S (option Snap.IndexerSnapshot);
  saveSnapshot : Snap.IndexerSnapshot -> Lease -> option string -> Task S unit;
  appendAlerts : list Alert.CriticalAlert -> Lease -> Task S unit;
  listAlerts : Task S (list Alert.CriticalAlert)
}.

Definition withExclusiveWriter {S A} `{IndexerStore S} (operation : Lease -> Task S A) : Task S A :=
  lease ← beginWriter; finally (operation lease) endWriter.

(** ** [InMemoryIndexerStore] *)

Module Mem.
Record InMemoryIndexerStore := mk {
  latest : option Snap.IndexerSnapshot;
  alerts : list Alert.CriticalAlert;
  writerActive : bool;
  activeLease : option Lease;
  issued : Lease  (* leases below were issued *)
}.
End Mem.

#[export] Instance eta_InMemoryIndexerStore : Eta Mem.InMemoryIndexerStore :=
  fun r => Mem.mk r.(Mem.latest) r.(Mem.alerts) r.(Mem.writerActive) r.(Mem.activeLease) r.(Mem.issued).

Definition newMemoryStore : Mem.InMemoryIndexerStore := Mem.mk None [] false None 0%nat.

Definition memoryBeginWriter : Task Mem.InMemoryIndexerStore Lease := fun s =>
  if s.(Mem.writerActive) then (Throws (ConcurrentDurableWriterError "in-memory-indexer-writer"), s)
  else (Returns s.(Mem.issued),
        s <| Mem.writerActive := true |> <| Mem.activeLease := Some s.(Mem.issued) |> <| Mem.issued := S s.(Mem.issued) |>).

Definition memoryEndWriter (s : Mem.InMemoryIndexerStore) : Mem.InMemoryIndexerStore :=
  s <| Mem.activeLease := None |> <| Mem.writerActive := false |>.

Definition assertActiveLease (lease : Lease) : Task Mem.InMemoryIndexerStore unit := fun s =>
  (if bool_decide (s.(Mem.activeLease) = Some lease) then Returns tt else Throws InvalidIndexerWriterLeaseError, s).

Definition memoryLoadLatestSnapshot : Task Mem.InMemoryIndexerStore (option Snap.IndexerSnapshot) :=
  fun s => (Returns s.(Mem.latest), s).

Definition memorySaveSnapshot (snapshot : Snap.IndexerSnapshot) (lease : Lease)
    (expectedBaseSnapshotId : option string) : Task Mem.InMemoryIndexerStore unit :=
  assertActiveLease lease ;;
  s ← getState;
  unlessThrow (bool_decide (Snap.id <$> s.(Mem.latest) = expectedBaseSnapshotId))
    (StaleIndexerSnapshotError "in-memory durable base changed after restore") ;;
  modifyState (fun s => s <| Mem.latest := Some snapshot |>).

Definition memoryAppendAlerts (alerts : list Alert.CriticalAlert) (lease : Lease)
    : Task Mem.InMemoryIndexerStore unit :=
  assertActiveLease lease ;;
  modifyState (fun s => s <| Mem.alerts := s.(Mem.alerts) ++ alerts |>).

Definition memoryListAlerts : Task Mem.InMemoryIndexerStore (list Alert.CriticalAlert) :=
  fun s => (Returns s.(Mem.alerts), s).

#[export] Instance memoryStore : IndexerStore Mem.InMemoryIndexerStore := {|
  permitsImplicitWriterLease := true;
  beginWriter := memoryBeginWriter;
  endWriter := memoryEndWriter;
  loadLatestSnapshot := memoryLoadLatestSnapshot;
  saveSnapshot := memorySaveSnapshot;
  appendAlerts := memoryAppendAlerts;
  listAlerts := memoryListAlerts
|}.

(** ** The contract *)

(** What the indexer relies on: a lease is held by one writer at a time, only
    its holder mutates, a snapshot is compared and swapped, nothing is lost. *)
Class StoreLaws (S : Type) `{IndexerStore S} := {
  storeOk : S -> Prop;
  holds : S -> option Lease;          (* the lease now active *)
  latestOf : S -> option Snap.IndexerSnapshot;
  alertsOf : S -> list Alert.CriticalAlert;
  store_begin s : storeOk s ->
    match holds s with
    | Some _ => exists e, beginWriter s = (Throws e, s)
    | None => exists lease s', beginWriter s = (Returns lease, s') /\ storeOk s' /\ holds s' = Some lease
                /\ latestOf s' = latestOf s /\ alertsOf s' = alertsOf s
    end;
  store_end s : storeOk s ->
    storeOk (endWriter s) /\ holds (endWriter s) = None
    /\ latestOf (endWriter s) = latestOf s /\ alertsOf (endWriter s) = alertsOf s;
  store_load s : storeOk s -> loadLatestSnapshot s = (Returns (latestOf s), s);
  store_list s : storeOk s -> listAlerts s = (Returns (alertsOf s), s);
  store_append s alerts lease : storeOk s ->
    if decide (holds s = Some lease)
    then exists s', appendAlerts alerts lease s = (Returns tt, s') /\ storeOk s' /\ holds s' = holds s
           /\ latestOf s' = latestOf s /\ alertsOf s' = alertsOf s ++ alerts
    else exists e, appendAlerts alerts lease s = (Throws e, s);
  store_save s snapshot lease base : storeOk s ->
    if decide (holds s = Some lease /\ Snap.id <$> latestOf s = base)
    then exists s', saveSnapshot snapshot lease base s = (Returns tt, s') /\ storeOk s' /\ holds s' = holds s
           /\ latestOf s' = Some snapshot /\ alertsOf s' = alertsOf s
    else exists e, saveSnapshot snapshot lease base s = (Throws e, s)
}.

(** The writer flag and the active lease of the in-memory store go together. *)
Definition MemoryOk (s : Mem.InMemoryIndexerStore) : Prop :=
  if s.(Mem.writerActive)
  then exists lease, s.(Mem.activeLease) = Some lease /\ (lease < s.(Mem.issued))%nat
  else s.(Mem.activeLease) = None.

(** ** The in-memory store keeps the contract *)

#[export, refine] Instance memoryStoreLaws : StoreLaws Mem.InMemoryIndexerStore := {|
  storeOk := MemoryOk;
  holds := Mem.activeLease;
  latestOf := Mem.latest;
  alertsOf := Mem.alerts
|}.
Proof.
  all: intros [latest alerts active lease issued]; unfold MemoryOk; cbn.
  - unfold memoryBeginWriter. cbn. destruct active; [intros (l & -> & _); by eexists|intros ->].
    eexists _, _. split; [done|]. cbn. repeat split. exists issued. split; [done|lia].
  - done.
  - done.
  - done.
  - intros alerts' l Hok. unfold memoryAppendAlerts, assertActiveLease, mbind, task_bind. cbn. case_decide as E; cbn.
    + rewrite bool_decide_true by done. eexists. split; [done|]. cbn. done.
    + rewrite bool_decide_false by done. by eexists.
  - intros snapshot l base Hok. unfold memorySaveSnapshot, assertActiveLease, unlessThrow, mbind, task_bind. cbn.
    case_decide as E.
    + destruct E as [-> <-]. eexists.
      rewrite bool_decide_true by done. cbn. rewrite bool_decide_true by done. split; [done|]. cbn. done.
    + case_bool_decide as Hl; cbn; [|by eexists].
      rewrite bool_decide_false by naive_solver. by eexists.
Defined.
