(* ===== verification/EventIndexer.v ===== *)
(** * The event indexer

    [event-indexer.ts]: the class [EventIndexer] over any store.  Its mutable
    fields are a record; a method is a [Task] on it.  [this.projection] is an
    object compared by identity ([!==]), so a projection is kept with the number
    of the object that holds it.  Between two awaits of an operation no other
    one can run: every public method goes through [withStateOwner], which refuses
    while an operation is active, so an operation is a plain sequence of steps.
    The source's answers, the clock of the reconciler, SHA-256 and the text of
    numbers that are no safe integers are arguments. *)
From S2P Require Import Prelude JsMap Types MoveDomains Accounting Replay Group WalletHandlers LpHandlers.
From S2P Require Import PoolHandlers ConfigHandlers GroupChecks Reducer Reconciler Snapshot SnapshotDecode Store.

(** ** Cursors *)

Definition compareCursor (left right : Cursor.EventCursor) : Z :=
  if bool_decide (left.(Cursor.ledgerVersion) <> right.(Cursor.ledgerVersion))
  then (if bool_decide (left.(Cursor.ledgerVersion) < right.(Cursor.ledgerVersion)) then -1 else 1)
  else left.(Cursor.eventIndex) - right.(Cursor.eventIndex).

Definition eventCursor (event : ProtocolEvent) : Cursor.EventCursor := Cursor.mk (evLedger event) (evIndex event).

Definition cursorShow (c : Cursor.EventCursor) : string :=
  show c.(Cursor.ledgerVersion) ⧺ ":" ⧺ show c.(Cursor.eventIndex).

Definition eventOrderAlert (event : ProtocolEvent) (previous : option Cursor.EventCursor) : Alert.CriticalAlert :=
  {| Alert.id := "event:" ⧺ evId event ⧺ ":EVENT_ORDER";
     Alert.severity := critical;
     Alert.code := EVENT_ORDER;
     Alert.message := "Event cursor is not strictly later than the indexer checkpoint.";
     Alert.detectedAtUnixMilliseconds := event.(base).(Base.timestampUnixMilliseconds);
     Alert.cursor := previous;
     Alert.expected := Some (from_option cursorShow "first event" previous);
     Alert.observed := Some (cursorShow (eventCursor event)) |}.

(** [sort((left, right) => compareCursor(...))], a stable sort. *)
Fixpoint insertByCursor (event : ProtocolEvent) (sorted : list ProtocolEvent) : list ProtocolEvent :=
  match sorted with
  | [] => [event]
  | x :: rest =>
      if bool_decide (compareCursor (eventCursor event) (eventCursor x) <= 0)
      then event :: sorted else x :: insertByCursor event rest
  end.
Definition sortByCursor (events : list ProtocolEvent) : list ProtocolEvent := foldr insertByCursor [] events.

(** [this.cursor !== null && compareCursor(eventCursor(event), this.cursor) <= 0] *)
Definition notAfter (event : ProtocolEvent) (cursor : option Cursor.EventCursor) : bool :=
  match cursor with
  | None => false
  | Some c => bool_decide (compareCursor (eventCursor event) c <= 0)
  end.

(** The groups of one ledger version each, in order. *)
Fixpoint groupByLedger (fresh : list ProtocolEvent) : list (list ProtocolEvent) :=
  match fresh with
  | [] => []
  | event :: rest =>
      match groupByLedger rest with
      | (next :: more) :: groups =>
          if bool_decide (evLedger event = evLedger next)
          then (event :: next :: more) :: groups else [event] :: (next :: more) :: groups
      | groups => [event] :: groups
      end
  end.

(** ** State *)

(** An object of the heap holding a projection. *)
Module Ref.
Record ProjectionRef := mk { object : nat; value : Proj.ProtocolProjection }.
End Ref.

Module Idx.
Record EventIndexer (S : Type) := mk {
  projection : Ref.ProjectionRef;
  cursor : option Cursor.EventCursor;
  reconciledProjection : option nat;
  reconciledCursor : option Cursor.EventCursor;
  reconciledStateIdentity : option string;
  activeStateOwner : option nat;
  durableBaseSnapshotId : option (option string);  (* [undefined], or an id or [null] *)
  store : S;
  allocated : nat                                   (* objects below are in use *)
}.
Arguments mk {S}.
Arguments projection {S}.
Arguments cursor {S}.
Arguments reconciledProjection {S}.
Arguments reconciledCursor {S}.
Arguments reconciledStateIdentity {S}.
Arguments activeStateOwner {S}.
Arguments durableBaseSnapshotId {S}.
Arguments store {S}.
Arguments allocated {S}.
End Idx.

#[export] Instance eta_EventIndexer {S} : Eta (Idx.EventIndexer S) :=
  fun r => Idx.mk r.(Idx.projection) r.(Idx.cursor) r.(Idx.reconciledProjection) r.(Idx.reconciledCursor)
             r.(Idx.reconciledStateIdentity) r.(Idx.activeStateOwner) r.(Idx.durableBaseSnapshotId)
             r.(Idx.store) r.(Idx.allocated).

Module Processed.
Record ProcessResult := mk {
  processedEvents : Z;
  skippedEvents : Z;
  rejectedEvents : Z;
  cursor : option Cursor.EventCursor;
  alerts : list Alert.CriticalAlert
}.
End Processed.

Module Page.
Record EventPage := mk {
  chainId : Z;
  events : list ProtocolEvent;
  nextCursor : option Cursor.EventCursor
}.
End Page.

(** [ProtocolEventSource]: what its two methods answer. *)
Module Source.
Record ProtocolEventSource := mk {
  listEvents : option Cursor.EventCursor -> Z -> Outcome Page.EventPage;
  getAccountingSnapshot : Z -> Outcome Obs.ObservedAccountingSnapshot
}.
End Source.

Definition UnreconciledCheckpointError (detail : string) : JsError :=
  mkError "UnreconciledCheckpointError" ("Indexer checkpoint refused: " ⧺ detail).
Definition CedraChainIdMismatchError (observed : Z) : JsError :=
  mkError "CedraChainIdMismatchError"
    ("Event source must be Cedra Testnet chain " ⧺ show CEDRA_TESTNET_CHAIN_ID ⧺ ", observed " ⧺ show observed).
Definition ConcurrentIndexerOperationError : JsError :=
  mkError "ConcurrentIndexerOperationError" "An unrelated indexer state operation overlaps the active writer cycle.".
Definition InvalidIndexerWriterCycleError : JsError :=
  mkError "InvalidIndexerWriterCycleError" "The indexer writer-cycle capability is inactive or is not the current owner.".

(** [new EventIndexer(store)] *)
Definition newEventIndexer {S} (store : S) : Idx.EventIndexer S :=
  Idx.mk (Ref.mk 0 createEmptyProjection) None None None None None None store 1.

Section EventIndexer.
Context {S : Type} `{IndexerStore S}.
Context (clock : nat -> Z) (sha256 : string -> string) (numberText : Z -> Z -> string).

#[local] Notation Method := (Task (Idx.EventIndexer S)).

(** [await this.store.m()] *)
Definition onStore {A} (m : Task S A) : Method A := fun s =>
  let '(o, store) := m s.(Idx.store) in (o, s <| Idx.store := store |>).

(** [Object.freeze({})]: a new object. *)
Definition allocate : Method nat := fun s =>
  (Returns s.(Idx.allocated), s <| Idx.allocated := Datatypes.S s.(Idx.allocated) |>).

(** [this.projection = value], a new object. *)
Definition setProjection (value : Proj.ProtocolProjection) : Method unit :=
  object ← allocate; modifyState (fun s => s <| Idx.projection := Ref.mk object value |>).

Definition assertStateOwner (owner : nat) : Method unit :=
  s ← getState;
  unlessThrow (bool_decide (s.(Idx.activeStateOwner) = Some owner)) InvalidIndexerWriterCycleError.

(** The two ends of [withStateOwner]. *)
Definition acquireOwner (owner : nat) : Method unit :=
  s ← getState;
  unlessThrow (bool_decide (s.(Idx.activeStateOwner) = None)) ConcurrentIndexerOperationError ;;
  modifyState (fun s => s <| Idx.activeStateOwner := Some owner |>).

Definition releaseOwner (owner : nat) (s : Idx.EventIndexer S) : Idx.EventIndexer S :=
  if bool_decide (s.(Idx.activeStateOwner) = Some owner) then s <| Idx.activeStateOwner := None |> else s.

Definition withStateOwner {A} (owner : nat) (operation : Method A) : Method A :=
  acquireOwner owner ;; finally operation (releaseOwner owner).

Definition withDirectStateOperation {A} (operation : nat -> Method A) : Method A :=
  owner ← allocate; withStateOwner owner (operation owner).

Definition invalidateReconciliation : Method unit :=
  modifyState (fun s => s <| Idx.reconciledProjection := None |> <| Idx.reconciledCursor := None |>
                          <| Idx.reconciledStateIdentity := None |>).

Definition checkpointStateIdentity (p : Proj.ProtocolProjection) (cursor : Cursor.EventCursor) : Outcome string :=
  snapshot ← takeSnapshot sha256 p (Some cursor) 0; Returns snapshot.(Snap.id).

(** The operation runs between the two halves of the store's writer bracket. *)
Definition withStoreWriter {A} (writerLease : option Lease) (operation : Lease -> Method A) : Method A :=
  match writerLease with
  | Some lease => operation lease
  | None =>
      unlessThrow permitsImplicitWriterLease IndexerWriterLeaseRequiredError ;;
      lease ← onStore beginWriter;
      finally (operation lease) (fun s => s <| Idx.store := endWriter s.(Idx.store) |>)
  end.

Definition persistAlerts (alerts : list Alert.CriticalAlert) (writerLease : option Lease) : Method unit :=
  match alerts with
  | [] => mret tt
  | _ => withStoreWriter writerLease (fun lease => onStore (appendAlerts alerts lease))
  end.

(** ** [restoreLatestSnapshot] *)

Definition restoreLatestSnapshotOwned (owner : nat) : Method (option Snap.IndexerSnapshot) :=
  assertStateOwner owner ;;
  invalidateReconciliation ;;
  loaded ← onStore loadLatestSnapshot;
  assertStateOwner owner ;;
  match loaded with
  | None =>
      setProjection createEmptyProjection ;;
      modifyState (fun s => s <| Idx.cursor := None |> <| Idx.durableBaseSnapshotId := Some None |>) ;;
      mret None
  | Some stored =>
      snapshot ← evaluate (decodeSnapshot sha256 numberText (encodeSnapshot stored));
      setProjection snapshot.(Snap.projection) ;;
      modifyState (fun s => s <| Idx.cursor := snapshot.(Snap.cursor) |>
                              <| Idx.durableBaseSnapshotId := Some (Some snapshot.(Snap.id)) |>) ;;
      mret (Some snapshot)
  end.

Definition restoreLatestSnapshot : Method (option Snap.IndexerSnapshot) :=
  withDirectStateOperation restoreLatestSnapshotOwned.

(** ** [process] *)

(** The group loop: the events processed, those rejected, and the alerts. *)
Fixpoint processGroups (groups : list (list ProtocolEvent)) (processed : Z)
    : Method (Z * Z * list Alert.CriticalAlert) :=
  match groups with
  | [] => mret (processed, 0, [])
  | group :: rest =>
      match group with
      | first :: _ =>
          let final := List.last group first in
          s ← getState;
          if notAfter first s.(Idx.cursor)
          then mret (processed, arrayLength group, [eventOrderAlert first s.(Idx.cursor)])
          else
            result ← evaluate (reduceEventGroup s.(Idx.projection).(Ref.value) group);
            match result.(Result.alerts) with
            | [] =>
                setProjection result.(Result.projection) ;;
                modifyState (fun s => s <| Idx.cursor := Some (eventCursor final) |>) ;;
                processGroups rest (processed + arrayLength group)
            | alerts => mret (processed, arrayLength group, alerts)
            end
      | [] => mret (processed, 0, [])  (* excluded: groups are not empty *)
      end
  end.

Definition processOwned (events : list ProtocolEvent) (owner : nat) (writerLease : option Lease)
    : Method Processed.ProcessResult :=
  assertStateOwner owner ;;
  invalidateReconciliation ;;
  s ← getState;
  let sorted := sortByCursor events in
  let skipped := List.filter (fun event => notAfter event s.(Idx.cursor)) sorted in
  let fresh := List.filter (fun event => negb (notAfter event s.(Idx.cursor))) sorted in
  '(processedEvents, rejectedEvents, alerts) ← processGroups (groupByLedger fresh) 0;
  match alerts with
  | [] => mret tt
  | _ => persistAlerts alerts writerLease ;; assertStateOwner owner
  end ;;
  s ← getState;
  mret (Processed.mk processedEvents (arrayLength skipped) rejectedEvents s.(Idx.cursor) alerts).

Definition process (events : list ProtocolEvent) : Method Processed.ProcessResult :=
  withDirectStateOperation (fun owner => processOwned events owner None).

Definition pollOnceOwned (source : Source.ProtocolEventSource) (limit : Z) (owner : nat) (writerLease : option Lease)
    : Method Processed.ProcessResult :=
  assertStateOwner owner ;;
  unlessThrow (isSafeInteger limit && bool_decide (1 <= limit) && bool_decide (limit <= 10000))
    (RangeError "event page limit must be an integer between 1 and 10,000") ;;
  s ← getState;
  page ← evaluate (source.(Source.listEvents) s.(Idx.cursor) limit);
  assertStateOwner owner ;;
  unlessThrow (bool_decide (page.(Page.chainId) = CEDRA_TESTNET_CHAIN_ID))
    (CedraChainIdMismatchError page.(Page.chainId)) ;;
  processOwned page.(Page.events) owner writerLease.

Definition pollOnce (source : Source.ProtocolEventSource) (limit : Z) : Method Processed.ProcessResult :=
  withDirectStateOperation (fun owner => pollOnceOwned source limit owner None).

(** ** [reconcile] *)

Definition reconcileOwned (source : Source.ProtocolEventSource) (owner : nat) (writerLease : option Lease)
    : Method Report.ReconciliationReport :=
  assertStateOwner owner ;;
  before ← getState;
  match before.(Idx.cursor) with
  | None => throwing (mkError "Error" "Cannot reconcile before at least one complete event transaction is indexed.")
  | Some cursor =>
      invalidateReconciliation ;;
      let projection := before.(Idx.projection) in
      stateIdentity ← evaluate (checkpointStateIdentity projection.(Ref.value) cursor);
      observed ← evaluate (source.(Source.getAccountingSnapshot) cursor.(Cursor.ledgerVersion));
      assertStateOwner owner ;;
      report ← evaluate (reconcile clock (Some cursor) projection.(Ref.value) observed);
      match report.(Report.alerts) with
      | [] => mret tt
      | alerts => persistAlerts alerts writerLease ;; assertStateOwner owner
      end ;;
      after ← getState;
      let authorized :=
        report.(Report.reconciled)
        && bool_decide (projection.(Ref.value).(Proj.chainId) = CEDRA_TESTNET_CHAIN_ID)
        && bool_decide (observed.(Obs.chainId) = CEDRA_TESTNET_CHAIN_ID)
        && projection.(Ref.value).(Proj.deploymentReady)
        && adminsComplete projection.(Ref.value).(Proj.operationalAdmins)
        && bool_decide (after.(Idx.projection).(Ref.object) = projection.(Ref.object)) in
      match after.(Idx.cursor) with
      | Some current =>
          if authorized && bool_decide (compareCursor current cursor = 0) then
            identity ← evaluate (checkpointStateIdentity after.(Idx.projection).(Ref.value) current);
            if bool_decide (identity = stateIdentity) then
              modifyState (fun s => s <| Idx.reconciledProjection := Some projection.(Ref.object) |>
                                      <| Idx.reconciledCursor := Some cursor |>
                                      <| Idx.reconciledStateIdentity := Some stateIdentity |>)
            else mret tt
          else mret tt
      | None => mret tt
      end ;;
      mret report
  end.

Definition reconcileWith (source : Source.ProtocolEventSource) : Method Report.ReconciliationReport :=
  withDirectStateOperation (fun owner => reconcileOwned source owner None).

(** ** [snapshot] *)

(** [if (this.durableBaseSnapshotId === undefined) { ... }] *)
Definition resolveDurableBase (owner : nat) : Method unit :=
  current ← getState;
  match current.(Idx.durableBaseSnapshotId) with
  | Some _ => mret tt
  | None =>
      existing ← onStore loadLatestSnapshot;
      assertStateOwner owner ;;
      match existing with
      | Some _ =>
          throwing (StaleIndexerSnapshotError
            "indexer attempted to checkpoint without restoring the existing durable base")
      | None => modifyState (fun s => s <| Idx.durableBaseSnapshotId := Some None |>)
      end
  end.

Definition snapshotOwned (takenAtUnixMilliseconds : Z) (owner : nat) (writerLease : option Lease)
    : Method Snap.IndexerSnapshot :=
  assertStateOwner owner ;;
  unlessThrow (bool_decide (0 <= takenAtUnixMilliseconds)) (RangeError "checkpoint time must be a non-negative bigint") ;;
  s ← getState;
  match s.(Idx.cursor) with
  | None => throwing (UnreconciledCheckpointError "at least one complete event transaction is required")
  | Some cursor =>
      let p := s.(Idx.projection).(Ref.value) in
      unlessThrow (bool_decide (p.(Proj.chainId) = CEDRA_TESTNET_CHAIN_ID) && p.(Proj.deploymentReady)
                   && adminsComplete p.(Proj.operationalAdmins))
        (UnreconciledCheckpointError
          "Cedra Testnet identity and complete core, faucet, and AMM authority histories are required") ;;
      let refused := UnreconciledCheckpointError
        "a successful chain-2 reconciliation of this exact projection and cursor is required" in
      match s.(Idx.reconciledCursor) with
      | Some reconciledCursor =>
          unlessThrow (bool_decide (s.(Idx.reconciledProjection) = Some s.(Idx.projection).(Ref.object))
                       && bool_decide (compareCursor reconciledCursor cursor = 0)) refused ;;
          identity ← evaluate (checkpointStateIdentity p cursor);
          unlessThrow (bool_decide (s.(Idx.reconciledStateIdentity) = Some identity)) refused
      | None => throwing refused
      end ;;
      snapshot ← evaluate (takeSnapshot sha256 p (Some cursor) takenAtUnixMilliseconds);
      withStoreWriter writerLease (fun lease =>
        assertStateOwner owner ;;
        resolveDurableBase owner ;;
        based ← getState;
        onStore (saveSnapshot snapshot lease (default None based.(Idx.durableBaseSnapshotId))) ;;
        assertStateOwner owner ;;
        modifyState (fun s => s <| Idx.durableBaseSnapshotId := Some (Some snapshot.(Snap.id)) |>) ;;
        mret snapshot)
  end.

Definition snapshot (takenAtUnixMilliseconds : Z) : Method Snap.IndexerSnapshot :=
  withDirectStateOperation (fun owner => snapshotOwned takenAtUnixMilliseconds owner None).

(** ** The operations, as data *)

(** The methods of [IndexerWriterCycle], which are those of the class. *)
Inductive Call :=
| CallRestore
| CallProcess (events : list ProtocolEvent)
| CallPoll (source : Source.ProtocolEventSource) (limit : Z)
| CallReconcile (source : Source.ProtocolEventSource)
| CallSnapshot (takenAtUnixMilliseconds : Z).

Definition answer (call : Call) : Type :=
  match call with
  | CallRestore => option Snap.IndexerSnapshot
  | CallProcess _ | CallPoll _ _ => Processed.ProcessResult
  | CallReconcile _ => Report.ReconciliationReport
  | CallSnapshot _ => Snap.IndexerSnapshot
  end.

Definition invokeOwned (call : Call) (owner : nat) (writerLease : option Lease) : Method (answer call) :=
  match call with
  | CallRestore => restoreLatestSnapshotOwned owner
  | CallProcess events => processOwned events owner writerLease
  | CallPoll source limit => pollOnceOwned source limit owner writerLease
  | CallReconcile source => reconcileOwned source owner writerLease
  | CallSnapshot takenAt => snapshotOwned takenAt owner writerLease
  end.

(** A public method. *)
Definition run (call : Call) : Method (answer call) :=
  withDirectStateOperation (fun owner => invokeOwned call owner None).
End EventIndexer.
