(* ===== verification/WriterCycle.v ===== *)
(** * Writer cycles and the worker

    [withExclusiveStoreWriter] runs a callback that is given the five methods of
    the cycle.  The callback is a tree: what it invokes next may depend on every
    answer before, thrown errors included, and it may hand alerts to a sink in
    between.  Callbacks that start a method before the one before has settled
    are not modelled.  [worker.ts] is such a callback. *)
From S2P Require Import Prelude JsMap Types MoveDomains Accounting Replay Group WalletHandlers LpHandlers.
From S2P Require Import PoolHandlers ConfigHandlers GroupChecks Reducer Reconciler Snapshot SnapshotDecode Store.
From S2P Require Import EventIndexer.

Inductive CycleProgram (A : Type) :=
| Done (result : Outcome A)
| Invoke (call : Call) (continue : Outcome (answer call) -> CycleProgram A)
| Deliver (alert : Alert.CriticalAlert) (continue : Outcome unit -> CycleProgram A).
Arguments Done {A} result.
Arguments Invoke {A} call continue.
Arguments Deliver {A} alert continue.

#[export] Instance program_ret : MRet CycleProgram := fun A a => Done (Returns a).
#[export] Instance program_bind : MBind CycleProgram := fun A B k =>
  fix bind (m : CycleProgram A) : CycleProgram B :=
    match m with
    | Done (Returns a) => k a
    | Done (Throws e) => Done (Throws e)
    | Invoke call continue => Invoke call (fun o => bind (continue o))
    | Deliver alert continue => Deliver alert (fun o => bind (continue o))
    end.

(** [await cycle.m()] and [await this.alertSink.deliver(alert)] *)
Definition invoke (call : Call) : CycleProgram (answer call) := Invoke call Done.
Definition deliverTo (alert : Alert.CriticalAlert) : CycleProgram unit := Deliver alert Done.

(** [CriticalAlertSink] *)
Class CriticalAlertSink (K : Type) := { deliver : Alert.CriticalAlert -> Task K unit }.

Section Cycle.
Context {S K : Type} `{IndexerStore S} `{CriticalAlertSink K}.
Context (clock : nat -> Z) (sha256 : string -> string) (numberText : Z -> Z -> string).

(** A step of the indexer, the sink aside. *)
Definition onIndexer {A} (m : Task (Idx.EventIndexer S) A) : Task (Idx.EventIndexer S * K) A := fun s =>
  let '(o, indexer) := m s.1 in (o, (indexer, s.2)).

(** [invoke] of the cycle, when no method of it is active. *)
Definition cycleMethod (call : Call) (owner : nat) (lease : Lease) : Task (Idx.EventIndexer S) (answer call) :=
  assertStateOwner owner ;; invokeOwned clock sha256 numberText call owner (Some lease).

Definition failureOf {A} (o : Outcome A) : list JsError := match o with Throws e => [e] | Returns _ => [] end.

(** The callback, and after it the first failure of a method it did not let escape. *)
Fixpoint interpret {A} (owner : nat) (lease : Lease) (program : CycleProgram A) (failures : list JsError)
    (s : Idx.EventIndexer S * K) : Outcome A * (Idx.EventIndexer S * K) :=
  match program with
  | Done (Throws e) => (Throws e, s)
  | Done (Returns a) => (match failures with e :: _ => Throws e | [] => Returns a end, s)
  | Invoke call continue =>
      let '(o, indexer) := cycleMethod call owner lease s.1 in
      interpret owner lease (continue o) (failures ++ failureOf o) (indexer, s.2)
  | Deliver alert continue =>
      let '(o, sink) := deliver alert s.2 in
      interpret owner lease (continue o) failures (s.1, sink)
  end.

Definition withExclusiveStoreWriter {A} (program : CycleProgram A) : Task (Idx.EventIndexer S * K) A :=
  lease ← onIndexer (onStore beginWriter);
  finally
    (owner ← onIndexer allocate;
     onIndexer (acquireOwner owner) ;;
     finally (interpret owner lease program []) (fun s => (releaseOwner owner s.1, s.2)))
    (fun s => (s.1 <| Idx.store := endWriter s.1.(Idx.store) |>, s.2)).
End Cycle.

(** ** [IndexerWorker] *)

Module WorkerRun.
Record WorkerRunResult := mk {
  processing : Processed.ProcessResult;
  reconciliation : option Report.ReconciliationReport;
  snapshot : option Snap.IndexerSnapshot;
  deliveredAlertIds : list string
}.
End WorkerRun.

(** [for (const alert of alerts) { await this.alertSink.deliver(alert); deliveredAlertIds.push(alert.id); }] *)
Fixpoint deliverAlerts (alerts : list Alert.CriticalAlert) (deliveredAlertIds : list string)
    : CycleProgram (list string) :=
  match alerts with
  | [] => mret deliveredAlertIds
  | alert :: rest => deliverTo alert ;; deliverAlerts rest (deliveredAlertIds ++ [alert.(Alert.id)])
  end.

Definition runOnceUnderLease (source : Source.ProtocolEventSource) (limit nowUnixMilliseconds : Z)
    : CycleProgram WorkerRun.WorkerRunResult :=
  invoke CallRestore ;;
  processing ← invoke (CallPoll source limit);
  delivered ← deliverAlerts processing.(Processed.alerts) [];
  if bool_decide (arrayLength processing.(Processed.alerts) > 0) || bool_decide (processing.(Processed.cursor) = None)
  then mret (WorkerRun.mk processing None None delivered)
  else
    reconciliation ← invoke (CallReconcile source);
    delivered ← deliverAlerts reconciliation.(Report.alerts) delivered;
    if negb reconciliation.(Report.reconciled)
    then mret (WorkerRun.mk processing (Some reconciliation) None delivered)
    else
      snapshot ← invoke (CallSnapshot nowUnixMilliseconds);
      mret (WorkerRun.mk processing (Some reconciliation) (Some snapshot) delivered).

Definition runOnce {S K} `{IndexerStore S} `{CriticalAlertSink K} (clock : nat -> Z) (sha256 : string -> string)
    (numberText : Z -> Z -> string) (source : Source.ProtocolEventSource) (limit nowUnixMilliseconds : Z)
    : Task (Idx.EventIndexer S * K) WorkerRun.WorkerRunResult :=
  withExclusiveStoreWriter clock sha256 numberText (runOnceUnderLease source limit nowUnixMilliseconds).
