(* ===== verification/Ledger.v ===== *)
(** * The ledger machine: what the handlers do to the books

    [weighWallet], [weighCustody], ... are the abstract transitions of the two
    reward ledgers, without widths, alerts or exceptions.  Each handler that
    returns is shown to perform exactly its transition, and every transition
    keeps [LedgerOk]: double entry in the core book and in every LP book, and
    the lifetime totals tied to the vault's credits and payouts. *)
From S2P Require Import Prelude JsMap Types MoveDomains Accounting RewardBook Replay Group.
From S2P Require Import WalletHandlers LpHandlers PoolHandlers ConfigHandlers.

(** ** The ledger invariant *)

(** Every [Map] of a projection has distinct keys. *)
Definition MapsWf (p : Proj.ProtocolProjection) : Prop :=
  jsWf p.(Proj.positions) /\ jsWf p.(Proj.lpEpochs)
  /\ jsWf p.(Proj.protocolExcludedStores) /\ jsWf p.(Proj.registeredWallets)
  /\ jsWf p.(Proj.rewardVaultToEpoch) /\ jsWf p.(Proj.stateIdToEpoch) /\ jsWf p.(Proj.seenEventIds).

(** Epochs are stored under their identifiers, positions under their owners. *)
Definition EpochKeyed (entry : Z * LpEpoch.IndexedLpEpoch) : Prop := entry.2.(LpEpoch.epoch) = entry.1.
Definition WalletKeyed (entry : Address * Wallet.IndexedPosition) : Prop := entry.2.(Wallet.account) = entry.1.
Definition LpKeyed (entry : Address * LpPos.IndexedLpPosition) : Prop := entry.2.(LpPos.owner) = entry.1.

Definition KeysOk (p : Proj.ProtocolProjection) : Prop :=
  Forall EpochKeyed p.(Proj.lpEpochs) /\ Forall WalletKeyed p.(Proj.positions).

(** An LP epoch keeps its own book, and its positions map is well formed. *)
Definition LpMapOk (positions : JsMap Address LpPos.IndexedLpPosition) : Prop :=
  jsWf positions /\ Forall LpKeyed positions.
Definition EpochOk (e : LpEpoch.IndexedLpEpoch) : Prop := LpMapOk e.(LpEpoch.positions) /\ Balanced e.

(** The vault's flows: credits are the fees collected, payouts are what wallets
    materialized and custody routed, each equal to its holders' claims. *)
Definition FlowsOk (p : Proj.ProtocolProjection) : Prop :=
  p.(Proj.rewardVaultCredits) = p.(Proj.lifetimeSwapFees)
  /\ p.(Proj.rewardVaultPayouts) = p.(Proj.lifetimeMaterialized) + p.(Proj.lifetimeCustodyRouted)
  /\ p.(Proj.lifetimeCustodyRouted) = p.(Proj.custody).(Custody.claimed)
  /\ p.(Proj.custody).(Custody.lifetimeRouted) = p.(Proj.custody).(Custody.claimed)
  /\ Forall (fun w => w.(Wallet.lifetimeMaterialized) = w.(Wallet.claimed)) (jsValues p.(Proj.positions)).

Definition LedgerOk (p : Proj.ProtocolProjection) : Prop :=
  MapsWf p /\ Balanced p /\ FlowsOk p
  /\ Forall EpochOk (jsValues p.(Proj.lpEpochs)) /\ KeysOk p.

(** ** The transitions *)

(** Signed reweighing of a wallet at the current index: the correction moves
    against the weight, so that nothing pending changes. *)
Definition reweighed (delta index : Z) (w : Wallet.IndexedPosition) : Wallet.IndexedPosition :=
  w <| Wallet.rawTrfl := w.(Wallet.rawTrfl) + delta |>
    <| Wallet.correction := w.(Wallet.correction) - delta * index |>.

Definition weighWallet (account : Address) (delta : Z) (p : Proj.ProtocolProjection) : Proj.ProtocolProjection :=
  p <| Proj.positions := jsSet account
         (reweighed delta p.(Proj.currentIndex) (positionOrEmpty account p.(Proj.positions))) p.(Proj.positions) |>
    <| Proj.eligibleSupply := p.(Proj.eligibleSupply) + delta |>
    <| Proj.aggregateCorrection := p.(Proj.aggregateCorrection) - delta * p.(Proj.currentIndex) |>.

Definition depositUsd (account : Address) (delta : Z) (p : Proj.ProtocolProjection) : Proj.ProtocolProjection :=
  let current := positionOrEmpty account p.(Proj.positions) in
  p <| Proj.positions := jsSet account
         (current <| Wallet.rawTusd := current.(Wallet.rawTusd) + delta |>) p.(Proj.positions) |>.

Definition adjusted (account : Address) (asset : Asset) (delta : Z) : Proj.ProtocolProjection -> Proj.ProtocolProjection :=
  match asset with tRFL => weighWallet account delta | tUSD => depositUsd account delta end.

(** Claiming [amount] of a wallet's pending reward from the core vault. *)
Definition settleWallet (account : Address) (amount : Z) (p : Proj.ProtocolProjection) : Proj.ProtocolProjection :=
  let current := positionOrEmpty account p.(Proj.positions) in
  p <| Proj.positions := jsSet account
         (current <| Wallet.claimed := current.(Wallet.claimed) + amount |>
                  <| Wallet.lifetimeMaterialized := current.(Wallet.lifetimeMaterialized) + amount |>)
         p.(Proj.positions) |>
    <| Proj.rewardVaultPayouts := p.(Proj.rewardVaultPayouts) + amount |>
    <| Proj.lifetimeMaterialized := p.(Proj.lifetimeMaterialized) + amount |>.

Definition weighCustody (delta : Z) (p : Proj.ProtocolProjection) : Proj.ProtocolProjection :=
  let custody := p.(Proj.custody) in
  p <| Proj.custody := custody <| Custody.shares := custody.(Custody.shares) + delta |>
                               <| Custody.correction := custody.(Custody.correction) - delta * p.(Proj.currentIndex) |> |>
    <| Proj.eligibleSupply := p.(Proj.eligibleSupply) + delta |>
    <| Proj.aggregateCorrection := p.(Proj.aggregateCorrection) - delta * p.(Proj.currentIndex) |>.

(** An LP owner's weight changes by [delta] in one epoch. *)
Definition weighLp (owner : Address) (delta : Z) (e : LpEpoch.IndexedLpEpoch) : LpEpoch.IndexedLpEpoch :=
  let current := lpPositionOrEmpty owner e.(LpEpoch.positions) in
  e <| LpEpoch.totalShares := e.(LpEpoch.totalShares) + delta |>
    <| LpEpoch.aggregateCorrection := e.(LpEpoch.aggregateCorrection) - delta * e.(LpEpoch.index) |>
    <| LpEpoch.positions := jsSet owner
         (current <| LpPos.shares := current.(LpPos.shares) + delta |>
                  <| LpPos.correction := current.(LpPos.correction) - delta * e.(LpEpoch.index) |>)
         (jsCopy e.(LpEpoch.positions)) |>.

(** ** The handlers perform the transitions *)

(** A correction that moves up or down by one magnitude. *)
Lemma addOrSubtract_value (up : bool) value amount l1 l2 x :
  (if up then checkedMoveSignedU256AddUnsigned value amount l1
   else checkedMoveSignedU256SubtractUnsigned value amount l2) = Returns x ->
  x = value + (if up then amount else - amount).
Proof. destruct up; intros; checked_inv; lia. Qed.

Lemma subtractOrAdd_value (down : bool) value amount l1 l2 x :
  (if down then checkedMoveSignedU256SubtractUnsigned value amount l1
   else checkedMoveSignedU256AddUnsigned value amount l2) = Returns x ->
  x = value - (if down then amount else - amount).
Proof. destruct down; intros; checked_inv; lia. Qed.

(** Symbolic execution through the program's own case splits. *)
Ltac replay_cases :=
  repeat first
    [ replay_step
    | match goal with
      | H : (match ?x with _ => _ end) _ = (Returns _, _) |- _ => destruct x eqn:?
      end ].

(** [replay_inv], the boolean tests as propositions, the checked results as values. *)
Ltac handler_inv :=
  replay_inv; bools; cbn in *; checked_inv;
  repeat match goal with
  | H : (if ?up then checkedMoveSignedU256AddUnsigned _ _ _ else _) = Returns _ |- _ =>
      apply addOrSubtract_value in H; subst
  | H : (if ?up then checkedMoveSignedU256SubtractUnsigned _ _ _ else _) = Returns _ |- _ =>
      apply subtractOrAdd_value in H; subst
  end.

Lemma adjustWalletAsset_returns account asset delta b u c c' :
  adjustWalletAsset account asset delta b c = (Returns u, c') ->
  c' = c <| Ctx.next := adjusted account asset delta c.(Ctx.next) |>
  /\ 0 <= match asset with
          | tRFL => (positionOrEmpty account c.(Ctx.next).(Proj.positions)).(Wallet.rawTrfl)
          | tUSD => (positionOrEmpty account c.(Ctx.next).(Proj.positions)).(Wallet.rawTusd)
          end + delta.
Proof.
  unfold adjustWalletAsset. intros H. destruct asset; handler_inv; (split; [|lia]); [|done].
  unfold adjusted, weighWallet, reweighed.
  cbn. destruct (bool_decide (delta < 0)); by rewrite ?Z.mul_opp_l, ?Z.add_opp_r.
Qed.

Lemma requireEpoch_returns b i found c c' :
  requireEpoch b i c = (Returns found, c') ->
  found = jsGet i c.(Ctx.next).(Proj.lpEpochs) /\ c'.(Ctx.next) = c.(Ctx.next)
  /\ c'.(Ctx.pendingCoreFees) = c.(Ctx.pendingCoreFees).
Proof.
  unfold requireEpoch. intros H. replay_step. replay_step.
  destruct (jsGet i _) eqn:E; handler_inv; done.
Qed.

(** ** Sums over positions *)

Lemma sumZ_setPosition (f : Wallet.IndexedPosition -> Z) a w m :
  f (positionOrEmpty a jsEmpty) = 0 ->
  sumZ (map f (jsValues (jsSet a w m))) = sumZ (map f (jsValues m)) - f (positionOrEmpty a m) + f w.
Proof. intros H0. rewrite sumZ_jsSet. unfold positionOrEmpty in *. cbn in H0. destruct (jsGet a m); cbn; lia. Qed.

Lemma sumZ_setLpPosition (f : LpPos.IndexedLpPosition -> Z) a w m :
  f (lpPositionOrEmpty a jsEmpty) = 0 ->
  sumZ (map f (jsValues (jsSet a w m))) = sumZ (map f (jsValues m)) - f (lpPositionOrEmpty a m) + f w.
Proof. intros H0. rewrite sumZ_jsSet. unfold lpPositionOrEmpty in *. cbn in H0. destruct (jsGet a m); cbn; lia. Qed.

(** A per-wallet fact that holds of the empty position holds of what a key reads. *)
Lemma positionOrEmpty_Forall (P : Wallet.IndexedPosition -> Prop) a m :
  Forall P (jsValues m) -> P (positionOrEmpty a jsEmpty) -> P (positionOrEmpty a m).
Proof.
  intros Hm He. unfold positionOrEmpty. destruct (jsGet a m) eqn:E; [|done]. by eapply jsGet_Forall.
Qed.

(** ** The transitions keep the ledger *)

(** Writing a wallet whose counters agree keeps everything but the core totals. *)
Lemma flows_setPosition p a w :
  FlowsOk p -> w.(Wallet.lifetimeMaterialized) = w.(Wallet.claimed) ->
  Forall (fun w => w.(Wallet.lifetimeMaterialized) = w.(Wallet.claimed))
    (jsValues (jsSet a w p.(Proj.positions))).
Proof. intros (_ & _ & _ & _ & Hw) Hc. by apply jsValues_set_Forall. Qed.

Lemma flows_position p a :
  FlowsOk p ->
  (positionOrEmpty a p.(Proj.positions)).(Wallet.lifetimeMaterialized)
  = (positionOrEmpty a p.(Proj.positions)).(Wallet.claimed).
Proof. intros (_ & _ & _ & _ & Hw). by apply (positionOrEmpty_Forall
  (fun w => w.(Wallet.lifetimeMaterialized) = w.(Wallet.claimed)) a p.(Proj.positions)). Qed.

(** What a map holds under a key is keyed by it, and so is a fresh position. *)
Lemma keyed_get {K V} `{EqDecision K} (P : K * V -> Prop) k v (m : JsMap K V) :
  Forall P m -> jsGet k m = Some v -> P (k, v).
Proof. intros H Hg%jsGet_elem%list_elem_of_In. rewrite Forall_forall in H. by apply H. Qed.

Lemma positionOrEmpty_account a positions :
  Forall WalletKeyed positions -> (positionOrEmpty a positions).(Wallet.account) = a.
Proof. intros H. unfold positionOrEmpty. destruct (jsGet a positions) eqn:E; [exact (keyed_get _ _ _ _ H E)|done]. Qed.

Lemma lpPositionOrEmpty_owner a positions :
  Forall LpKeyed positions -> (lpPositionOrEmpty a positions).(LpPos.owner) = a.
Proof. intros H. unfold lpPositionOrEmpty. destruct (jsGet a positions) eqn:E; [exact (keyed_get _ _ _ _ H E)|done]. Qed.

Lemma ledger_account a p : LedgerOk p -> (positionOrEmpty a p.(Proj.positions)).(Wallet.account) = a.
Proof. intros (_ & _ & _ & _ & _ & H). by apply positionOrEmpty_account. Qed.

(** Rewriting one wallet with the totals moved by the same amounts. *)
Lemma ledger_setPosition p p' a w :
  LedgerOk p ->
  let current := positionOrEmpty a p.(Proj.positions) in
  p'.(Proj.positions) = jsSet a w p.(Proj.positions) -> w.(Wallet.account) = a ->
  p'.(Proj.eligibleSupply) - p.(Proj.eligibleSupply) = w.(Wallet.rawTrfl) - current.(Wallet.rawTrfl) ->
  p'.(Proj.aggregateCorrection) - p.(Proj.aggregateCorrection)
    = w.(Wallet.correction) - current.(Wallet.correction) ->
  p'.(Proj.lifetimeMaterialized) - p.(Proj.lifetimeMaterialized)
    = w.(Wallet.claimed) - current.(Wallet.claimed) ->
  p'.(Proj.rewardVaultPayouts) - p.(Proj.rewardVaultPayouts)
    = w.(Wallet.claimed) - current.(Wallet.claimed) ->
  w.(Wallet.lifetimeMaterialized) = w.(Wallet.claimed) ->
  p'.(Proj.custody) = p.(Proj.custody) ->
  p'.(Proj.rewardVaultCredits) = p.(Proj.rewardVaultCredits) ->
  p'.(Proj.lifetimeSwapFees) = p.(Proj.lifetimeSwapFees) ->
  p'.(Proj.lifetimeCustodyRouted) = p.(Proj.lifetimeCustodyRouted) ->
  p'.(Proj.lpEpochs) = p.(Proj.lpEpochs) ->
  p'.(Proj.protocolExcludedStores) = p.(Proj.protocolExcludedStores) ->
  p'.(Proj.registeredWallets) = p.(Proj.registeredWallets) ->
  p'.(Proj.rewardVaultToEpoch) = p.(Proj.rewardVaultToEpoch) ->
  p'.(Proj.stateIdToEpoch) = p.(Proj.stateIdToEpoch) ->
  p'.(Proj.seenEventIds) = p.(Proj.seenEventIds) ->
  LedgerOk p'.
Proof.
  intros (Hm & Hb & Hf & He & Hk & Hka) current E1 Ha E2 E3 E4 E5 Hw E6 E7 E8 E9 E10 E11 E12 E13 E14 E15.
  pose proof (flows_setPosition p a w Hf Hw) as Hall.
  destruct Hm as (M1 & M2 & M3 & M4 & M5 & M6 & M7). destruct Hf as (F1 & F2 & F3 & F4 & _).
  apply balanced_core in Hb as (B1 & B2 & B3).
  split; [|split; [|split; [|split]]].
  - unfold MapsWf. rewrite E1, E10, E11, E12, E13, E14, E15. auto 10 with jsmap.
  - apply balanced_core. rewrite E1, E6, E9, !sumZ_setPosition by done. fold current. lia.
  - unfold FlowsOk. rewrite E1, E6. repeat split; [lia..|done].
  - by rewrite E10.
  - split; [by rewrite E10|]. rewrite E1. by apply jsEntries_set_Forall.
Qed.

Lemma ledger_weighWallet a delta p : LedgerOk p -> LedgerOk (weighWallet a delta p).
Proof.
  intros H. eapply (ledger_setPosition p (weighWallet a delta p) a); [done|reflexivity|by apply ledger_account|cbn; try lia; try done..].
  by apply flows_position, H.
Qed.

Lemma ledger_depositUsd a delta p : LedgerOk p -> LedgerOk (depositUsd a delta p).
Proof.
  intros H. eapply (ledger_setPosition p (depositUsd a delta p) a); [done|reflexivity|by apply ledger_account|cbn; try lia; try done..].
  by apply flows_position, H.
Qed.

Lemma ledger_adjusted a asset delta p : LedgerOk p -> LedgerOk (adjusted a asset delta p).
Proof. destruct asset; [apply ledger_weighWallet|apply ledger_depositUsd]. Qed.

Lemma ledger_settleWallet a amount p : LedgerOk p -> LedgerOk (settleWallet a amount p).
Proof.
  intros H. eapply (ledger_setPosition p (settleWallet a amount p) a); [done|reflexivity|by apply ledger_account|cbn; try lia; try done..].
  pose proof (flows_position p a (proj1 (proj2 (proj2 H)))). lia.
Qed.

(** Rewriting custody with the totals moved by the same amounts. *)
Lemma ledger_setCustody p p' :
  LedgerOk p ->
  p'.(Proj.eligibleSupply) - p.(Proj.eligibleSupply)
    = p'.(Proj.custody).(Custody.shares) - p.(Proj.custody).(Custody.shares) ->
  p'.(Proj.aggregateCorrection) - p.(Proj.aggregateCorrection)
    = p'.(Proj.custody).(Custody.correction) - p.(Proj.custody).(Custody.correction) ->
  p'.(Proj.lifetimeCustodyRouted) - p.(Proj.lifetimeCustodyRouted)
    = p'.(Proj.custody).(Custody.claimed) - p.(Proj.custody).(Custody.claimed) ->
  p'.(Proj.custody).(Custody.lifetimeRouted) - p.(Proj.custody).(Custody.lifetimeRouted)
    = p'.(Proj.custody).(Custody.claimed) - p.(Proj.custody).(Custody.claimed) ->
  p'.(Proj.rewardVaultPayouts) - p.(Proj.rewardVaultPayouts)
    = p'.(Proj.custody).(Custody.claimed) - p.(Proj.custody).(Custody.claimed) ->
  p'.(Proj.rewardVaultCredits) = p.(Proj.rewardVaultCredits) ->
  p'.(Proj.lifetimeSwapFees) = p.(Proj.lifetimeSwapFees) ->
  p'.(Proj.lifetimeMaterialized) = p.(Proj.lifetimeMaterialized) ->
  p'.(Proj.positions) = p.(Proj.positions) ->
  p'.(Proj.lpEpochs) = p.(Proj.lpEpochs) -> MapsWf p' -> LedgerOk p'.
Proof.
  intros (_ & Hb & (F1 & F2 & F3 & F4 & F5) & He & Hk) E1 E2 E3 E4 E5 E6 E7 E8 E9 E10 Hm.
  apply balanced_core in Hb as (B1 & B2 & B3).
  split; [done|split; [|split; [|unfold KeysOk; by rewrite E9, E10]]].
  - apply balanced_core. rewrite E8, E9. lia.
  - unfold FlowsOk. rewrite E9. repeat split; [lia..|done].
Qed.

Lemma ledger_weighCustody delta p : LedgerOk p -> LedgerOk (weighCustody delta p).
Proof. intros H. apply (ledger_setCustody p); [done|cbn; try lia; try done..]. apply H. Qed.

(** ** LP books *)

(** One position rewritten, the totals moved by the same amounts. *)
Lemma lpMap_set owner w positions :
  LpMapOk positions -> w.(LpPos.owner) = owner -> LpMapOk (jsSet owner w positions).
Proof. intros [Hwf Hk] Hw. split; [auto with jsmap|by apply jsEntries_set_Forall]. Qed.

Lemma epoch_owner owner e : EpochOk e -> (lpPositionOrEmpty owner e.(LpEpoch.positions)).(LpPos.owner) = owner.
Proof. intros [[_ H] _]. by apply lpPositionOrEmpty_owner. Qed.

Lemma epoch_found_owner owner e w :
  EpochOk e -> jsGet owner e.(LpEpoch.positions) = Some w -> w.(LpPos.owner) = owner.
Proof. intros [[_ H] _] Hg. exact (keyed_get _ _ _ _ H Hg). Qed.

Lemma epoch_setPosition e e' owner w :
  EpochOk e ->
  let current := lpPositionOrEmpty owner e.(LpEpoch.positions) in
  e'.(LpEpoch.positions) = jsSet owner w (jsCopy e.(LpEpoch.positions)) -> w.(LpPos.owner) = owner ->
  e'.(LpEpoch.totalShares) - e.(LpEpoch.totalShares) = w.(LpPos.shares) - current.(LpPos.shares) ->
  e'.(LpEpoch.aggregateCorrection) - e.(LpEpoch.aggregateCorrection)
    = w.(LpPos.correction) - current.(LpPos.correction) ->
  e'.(LpEpoch.lifetimeClaimed) - e.(LpEpoch.lifetimeClaimed) = w.(LpPos.claimed) - current.(LpPos.claimed) ->
  EpochOk e'.
Proof.
  intros [Hmap Hb] current E1 Hw E2 E3 E4. pose proof (proj1 Hmap) as Hwf. rewrite (jsCopy_wf _ Hwf) in E1.
  split; [rewrite E1; by apply lpMap_set|].
  apply balanced_epoch in Hb. apply balanced_epoch.
  rewrite E1, !sumZ_setLpPosition by done. fold current. lia.
Qed.

Lemma epoch_weighLp owner delta e : EpochOk e -> EpochOk (weighLp owner delta e).
Proof. intros H. eapply (epoch_setPosition e _ owner); [done|reflexivity|by apply epoch_owner|cbn; lia..]. Qed.

Lemma ledger_updateEpoch e p :
  LedgerOk p -> EpochOk e ->
  LedgerOk (p <| Proj.lpEpochs := jsSet e.(LpEpoch.epoch) e p.(Proj.lpEpochs) |>).
Proof.
  intros (Hm & Hb & Hf & He & Hk & Hka) Hoe. destruct Hm as (M1 & M2 & M3).
  split; [split; [exact M1|split; [cbn; auto with jsmap|exact M3]]|].
  split; [exact Hb|split; [exact Hf|]]. cbn.
  split; [by apply jsValues_set_Forall|split; [by apply jsEntries_set_Forall|exact Hka]].
Qed.

Lemma ledger_epoch p i e :
  LedgerOk p -> jsGet i p.(Proj.lpEpochs) = Some e -> EpochOk e /\ e.(LpEpoch.epoch) = i.
Proof.
  intros (_ & _ & _ & He & Hk & _) Hg. split; [by eapply jsGet_Forall|]. exact (keyed_get _ _ _ _ Hk Hg).
Qed.

(** ** Programs that keep the ledger *)

Class Keeps {A} (m : Replay A) : Prop :=
  keeps : forall c a c', m c = (Returns a, c') -> LedgerOk c.(Ctx.next) -> LedgerOk c'.(Ctx.next).

#[export] Typeclasses Opaque adjustWalletAsset consumeRoute.

#[export] Instance keeps_ret {A} (a : A) : Keeps (mret a : Replay A).
Proof. intros c a' c' H. by handler_inv. Qed.

#[export] Instance keeps_bind {A B} (m : Replay A) (k : A -> Replay B) :
  Keeps m -> (forall a, Keeps (k a)) -> Keeps (m ≫= k).
Proof.
  intros Hm Hk c b c' H Hok. apply bind_returns in H as (a & c1 & H1 & H2).
  eapply Hk; [done|]. by eapply Hm.
Qed.

#[export] Instance keeps_getNext : Keeps getNext.
Proof. intros c a' c' H. by handler_inv. Qed.
#[export] Instance keeps_getContext : Keeps getContext.
Proof. intros c a' c' H. by handler_inv. Qed.
#[export] Instance keeps_addConsumedRoute id : Keeps (addConsumedRoute id).
Proof. intros c a' c' H. by handler_inv. Qed.
#[export] Instance keeps_setPendingCoreFees fees : Keeps (setPendingCoreFees fees).
Proof. intros c a' c' H. by handler_inv. Qed.
#[export] Instance keeps_setSellWalletDebited : Keeps setSellWalletDebited.
Proof. intros c a' c' H. by handler_inv. Qed.
#[export] Instance keeps_lift {A} (o : Outcome A) : Keeps (lift o).
Proof. intros c a' c' H. by handler_inv. Qed.
#[export] Instance keeps_throwIf b e : Keeps (throwIf b e).
Proof. apply keeps_lift. Qed.
#[export] Instance keeps_alertIf b ev code msg e o : Keeps (alertIf b ev code msg e o).
Proof. intros c a' c' H. by handler_inv. Qed.
#[export] Instance keeps_alert ev code msg e o : Keeps (alert ev code msg e o).
Proof. apply keeps_alertIf. Qed.
#[export] Instance keeps_when b m : Keeps m -> Keeps (when b m).
Proof. destruct b; cbn; [done|intros; apply _]. Qed.
#[export] Instance keeps_forEach {A} (body : A -> Replay unit) xs :
  (forall x, Keeps (body x)) -> Keeps (forEach body xs).
Proof. intros Hb. induction xs; cbn; apply _. Qed.
#[export] Instance keeps_adjust account asset delta b : Keeps (adjustWalletAsset account asset delta b).
Proof. intros c u c' [-> _]%adjustWalletAsset_returns H. cbn. by apply ledger_adjusted. Qed.
#[export] Instance keeps_requireEpoch b i : Keeps (requireEpoch b i).
Proof. intros c u c' (_ & E & _)%requireEpoch_returns H. by rewrite E. Qed.
#[export] Instance keeps_consumeRoute b msg r : Keeps (consumeRoute b msg r).
Proof. destruct r; cbn; apply _. Qed.

Lemma keeps_modifyNext f : (forall p, LedgerOk p -> LedgerOk (f p)) -> Keeps (modifyNext f).
Proof. intros Hf c u c' H Hok. handler_inv. by apply Hf. Qed.

(** Projections that agree on the fields of the ledger. *)
Lemma ledger_ext p p' :
  p'.(Proj.positions) = p.(Proj.positions) ->
  p'.(Proj.custody) = p.(Proj.custody) ->
  p'.(Proj.eligibleSupply) = p.(Proj.eligibleSupply) ->
  p'.(Proj.aggregateCorrection) = p.(Proj.aggregateCorrection) ->
  p'.(Proj.lifetimeMaterialized) = p.(Proj.lifetimeMaterialized) ->
  p'.(Proj.lifetimeCustodyRouted) = p.(Proj.lifetimeCustodyRouted) ->
  p'.(Proj.rewardVaultPayouts) = p.(Proj.rewardVaultPayouts) ->
  p'.(Proj.rewardVaultCredits) - p'.(Proj.lifetimeSwapFees)
    = p.(Proj.rewardVaultCredits) - p.(Proj.lifetimeSwapFees) ->
  p'.(Proj.lpEpochs) = p.(Proj.lpEpochs) ->
  (jsWf p.(Proj.protocolExcludedStores) -> jsWf p'.(Proj.protocolExcludedStores)) ->
  (jsWf p.(Proj.registeredWallets) -> jsWf p'.(Proj.registeredWallets)) ->
  (jsWf p.(Proj.rewardVaultToEpoch) -> jsWf p'.(Proj.rewardVaultToEpoch)) ->
  (jsWf p.(Proj.stateIdToEpoch) -> jsWf p'.(Proj.stateIdToEpoch)) ->
  (jsWf p.(Proj.seenEventIds) -> jsWf p'.(Proj.seenEventIds)) ->
  LedgerOk p -> LedgerOk p'.
Proof.
  intros E1 E2 E3 E4 E5 E6 E7 E8 E9 W1 W2 W3 W4 W5
    ((M1 & M2 & M3 & M4 & M5 & M6 & M7) & Hb & (F1 & F2 & F3 & F4 & F5) & He & Hk).
  split; [unfold MapsWf; rewrite E1, E9; auto 10|].
  split; [|split; [|unfold KeysOk; by rewrite E1, E9]].
  - apply balanced_core. apply balanced_core in Hb. rewrite E1, E2, E3, E4, E5, E6. done.
  - unfold FlowsOk. rewrite E1, E2, E5, E6, E7. repeat split; [lia..|done].
Qed.

(** A write of fields the ledger does not mention, or of a fresh [Map] copy. *)
Ltac ledger_frame :=
  let p := fresh "p" in let H := fresh "H" in
  intros p H; apply (ledger_ext p); [reflexivity..| | | | | |exact H];
  cbn; eauto using jsWf_set, jsWf_fromEntries.

Ltac solve_keeps :=
  repeat (intros;
    lazymatch goal with
    | |- Keeps (_ ≫= _) => apply keeps_bind
    | |- Keeps (forEach _ _) => apply keeps_forEach
    | |- Keeps (modifyNext _) => apply keeps_modifyNext; ledger_frame
    | |- Keeps (match _ with _ => _ end) => case_match
    | |- Keeps (let _ := _ in _) => cbv zeta
    | |- Keeps _ => apply _
    end).
