(* ===== verification/ReconcilerSpec.v ===== *)
(** * What a clean reconciliation certifies

    [Agrees p o]: the projection and the observed snapshot hold the same books.
    [Clears m P] says that a comparison which returns pushes no alert exactly
    when [P] holds; it composes along the code of the reconciler. *)
From S2P Require Import Prelude JsMap Types MoveDomains Accounting Replay Group WalletHandlers.
From S2P Require Import LpHandlers PoolHandlers ConfigHandlers Reconciler Ledger.

(** ** Agreement *)

(** Two maps with the same keys and related values. *)
Definition MapsAgree {V W} (R : V -> W -> Prop) (m : JsMap Address V) (n : JsMap Address W) : Prop :=
  forall k, match jsGet k m, jsGet k n with
            | Some v, Some w => R v w
            | None, None => True
            | _, _ => False
            end.

Definition WalletAgrees (w : Wallet.IndexedPosition) (o : ObsPos.ObservedPosition) : Prop :=
  o.(ObsPos.rawTrfl) = w.(Wallet.rawTrfl) /\ o.(ObsPos.correction) = w.(Wallet.correction)
  /\ o.(ObsPos.claimed) = w.(Wallet.claimed).

Definition LpPositionAgrees (p : LpPos.IndexedLpPosition) (o : ObsLpPos.ObservedLpPosition) : Prop :=
  o.(ObsLpPos.shares) = p.(LpPos.shares) /\ o.(ObsLpPos.correction) = p.(LpPos.correction)
  /\ o.(ObsLpPos.claimed) = p.(LpPos.claimed).

Definition observedWallets (o : Obs.ObservedAccountingSnapshot) : JsMap Address ObsPos.ObservedPosition :=
  jsFromEntries (map (fun position => (position.(ObsPos.account), position)) o.(Obs.positions)).

Definition observedLpPositions (o : ObsLpEpoch.ObservedLpEpoch) : JsMap Address ObsLpPos.ObservedLpPosition :=
  jsFromEntries (map (fun position => (position.(ObsLpPos.owner), position)) o.(ObsLpEpoch.positions)).

Definition IdentityAgrees (p : Proj.ProtocolProjection) (o : Obs.ObservedAccountingSnapshot) : Prop :=
  p.(Proj.chainId) = CEDRA_TESTNET_CHAIN_ID /\ o.(Obs.chainId) = p.(Proj.chainId)
  /\ o.(Obs.deploymentId) = p.(Proj.deploymentId) /\ o.(Obs.networkLabel) = p.(Proj.networkLabel)
  /\ p.(Proj.tokenMetadata) = Some o.(Obs.tokenMetadata)
  /\ o.(Obs.protocolExclusionsRemaining) = p.(Proj.protocolExclusionsRemaining).

(** The observed registry lists exactly the replayed wallets, each once. *)
Definition RegistrationsAgree (p : Proj.ProtocolProjection) (o : Obs.ObservedAccountingSnapshot) : Prop :=
  jsKeys p.(Proj.registeredWallets) ≡ₚ o.(Obs.registeredWalletAccounts)
  /\ p.(Proj.registeredWalletCount) = jsSize p.(Proj.registeredWallets)
  /\ o.(Obs.registeredWalletCount) = p.(Proj.registeredWalletCount).

Definition AuthoritiesAgree (p : Proj.ProtocolProjection) (o : Obs.ObservedAccountingSnapshot) : Prop :=
  p.(Proj.deploymentReady) = true
  /\ if isV02 p then p.(Proj.lifecycle) <> Some CONFIGURING
     else adminsComplete p.(Proj.operationalAdmins) = true
          /\ o.(Obs.coreOperationalAdmin) = p.(Proj.operationalAdmins).(Admins.reflectionCore)
          /\ o.(Obs.faucetOperationalAdmin) = p.(Proj.operationalAdmins).(Admins.testAssets)
          /\ o.(Obs.ammOperationalAdmin) = p.(Proj.operationalAdmins).(Admins.testAmm).

Definition VaultAgrees (p : Proj.ProtocolProjection) (o : Obs.ObservedAccountingSnapshot) : Prop :=
  p.(Proj.rewardVault) = Some o.(Obs.rewardVault)
  /\ expectedCoreVaultBalance p = Returns o.(Obs.rewardVaultBalance)
  /\ coreIndexedLiability p = Returns o.(Obs.reflectionLiability)
  /\ o.(Obs.rewardVaultBalance) = o.(Obs.reflectionLiability) + o.(Obs.unallocatedFees) + o.(Obs.roundingReserve).

Definition TotalsAgree (p : Proj.ProtocolProjection) (o : Obs.ObservedAccountingSnapshot) : Prop :=
  o.(Obs.currentIndex) = p.(Proj.currentIndex) /\ o.(Obs.indexRemainder) = p.(Proj.indexRemainder)
  /\ o.(Obs.eligibleSupply) = p.(Proj.eligibleSupply)
  /\ o.(Obs.aggregateCorrection) = p.(Proj.aggregateCorrection)
  /\ o.(Obs.unallocatedFees) = p.(Proj.unallocatedFees) /\ o.(Obs.roundingReserve) = p.(Proj.roundingReserve)
  /\ o.(Obs.lifetimeSwapFees) = p.(Proj.lifetimeSwapFees)
  /\ o.(Obs.lifetimeMaterialized) = p.(Proj.lifetimeMaterialized)
  /\ o.(Obs.lifetimeCustodyRouted) = p.(Proj.lifetimeCustodyRouted).

Definition CustodyAgrees (p : Proj.ProtocolProjection) (o : Obs.ObservedAccountingSnapshot) : Prop :=
  let custody := p.(Proj.custody) in
  custody.(Custody.adapterId) = Some o.(Obs.custodyAdapterId)
  /\ custody.(Custody.activeRouteEpoch) = Some o.(Obs.custodyActiveRouteEpoch)
  /\ custody.(Custody.activeLpRewardVault) = Some o.(Obs.custodyActiveLpRewardVault)
  /\ o.(Obs.custodyShares) = custody.(Custody.shares) /\ o.(Obs.custodyCorrection) = custody.(Custody.correction)
  /\ o.(Obs.custodyClaimed) = custody.(Custody.claimed)
  /\ custodyPending p = Returns o.(Obs.custodyPendingRewards)
  /\ custody.(Custody.reserveStore) = Some o.(Obs.custodyReserveStore)
  /\ o.(Obs.poolRflReserveStore) = o.(Obs.custodyReserveStore)
  /\ p.(Proj.mockUsdPoolReserve) = Some o.(Obs.poolUsdReserveStore)
  /\ o.(Obs.mockUsdPoolReserve) = o.(Obs.poolUsdReserveStore)
  /\ o.(Obs.trflReserve) = o.(Obs.custodyReserveBalance) /\ o.(Obs.trflReserve) = o.(Obs.custodyShares)
  /\ p.(Proj.pool).(Pool.trflReserve) = custody.(Custody.shares).

Definition PoolAgrees (pool : Pool.IndexedPool) (o : Obs.ObservedAccountingSnapshot) : Prop :=
  o.(Obs.trflReserve) = pool.(Pool.trflReserve) /\ o.(Obs.tusdReserve) = pool.(Pool.tusdReserve)
  /\ o.(Obs.ammFeeBps) = pool.(Pool.ammFeeBps) /\ o.(Obs.maximumGrossSwap) = pool.(Pool.maximumGrossSwap)
  /\ o.(Obs.maximumReserveBps) = pool.(Pool.maximumReserveBps)
  /\ o.(Obs.maximumRflContribution) = pool.(Pool.maximumRflContribution)
  /\ o.(Obs.maximumTusdContribution) = pool.(Pool.maximumTusdContribution)
  /\ o.(Obs.maximumNonFinalWithdrawalShareBps) = pool.(Pool.maximumNonFinalWithdrawalShareBps).

Definition PositionsAgree (p : Proj.ProtocolProjection) (o : Obs.ObservedAccountingSnapshot) : Prop :=
  sumWalletShares p.(Proj.positions) + p.(Proj.custody).(Custody.shares) = p.(Proj.eligibleSupply)
  /\ MapsAgree WalletAgrees p.(Proj.positions) (observedWallets o).

Definition LpFieldsAgree (e : LpEpoch.IndexedLpEpoch) (o : ObsLpEpoch.ObservedLpEpoch) : Prop :=
  o.(ObsLpEpoch.status) = e.(LpEpoch.status) /\ o.(ObsLpEpoch.index) = e.(LpEpoch.index)
  /\ o.(ObsLpEpoch.indexRemainder) = e.(LpEpoch.indexRemainder)
  /\ o.(ObsLpEpoch.totalShares) = e.(LpEpoch.totalShares)
  /\ o.(ObsLpEpoch.aggregateCorrection) = e.(LpEpoch.aggregateCorrection)
  /\ o.(ObsLpEpoch.unallocatedRewards) = e.(LpEpoch.unallocatedRewards)
  /\ o.(ObsLpEpoch.roundingReserve) = e.(LpEpoch.roundingReserve)
  /\ o.(ObsLpEpoch.terminalRoundingBaseUnits) = default 0 e.(LpEpoch.terminalRoundingBaseUnits)
  /\ o.(ObsLpEpoch.retiredResidueMagnified) = e.(LpEpoch.retiredResidueMagnified)
  /\ o.(ObsLpEpoch.lifetimeReceived) = e.(LpEpoch.lifetimeReceived)
  /\ o.(ObsLpEpoch.lifetimeClaimed) = e.(LpEpoch.lifetimeClaimed)
  /\ o.(ObsLpEpoch.quarantined) = e.(LpEpoch.quarantined).

(** An observed epoch is a replayed one: same bindings, same books, same owners,
    all of them registered on both sides. *)
Definition EpochAgrees (p : Proj.ProtocolProjection) (registered : list Address) (o : ObsLpEpoch.ObservedLpEpoch) : Prop :=
  exists e, jsGet o.(ObsLpEpoch.epoch) p.(Proj.lpEpochs) = Some e
    /\ o.(ObsLpEpoch.rewardVault) = e.(LpEpoch.rewardVault) /\ o.(ObsLpEpoch.stateId) = e.(LpEpoch.stateId)
    /\ expectedLpVaultBalance e = Returns o.(ObsLpEpoch.rewardVaultBalance)
    /\ lpIndexedLiability e = Returns o.(ObsLpEpoch.indexedLiability)
    /\ o.(ObsLpEpoch.rewardVaultBalance)
       = o.(ObsLpEpoch.indexedLiability) + o.(ObsLpEpoch.unallocatedRewards) + o.(ObsLpEpoch.roundingReserve)
    /\ LpFieldsAgree e o
    /\ MapsAgree LpPositionAgrees e.(LpEpoch.positions) (observedLpPositions o)
    /\ Forall (fun entry => 0 < entry.2.(LpPos.shares) -> entry.1 ∈ jsKeys p.(Proj.registeredWallets)) e.(LpEpoch.positions)
    /\ Forall (fun position => 0 < position.(ObsLpPos.shares) -> position.(ObsLpPos.owner) ∈ registered)
         o.(ObsLpEpoch.positions).

Definition EpochsAgree (p : Proj.ProtocolProjection) (o : Obs.ObservedAccountingSnapshot) : Prop :=
  o.(Obs.activeLpEpoch) = p.(Proj.activeLpEpoch)
  /\ Forall (fun id => id ∈ map ObsLpEpoch.epoch o.(Obs.lpEpochs)) (jsKeys p.(Proj.lpEpochs))
  /\ Forall (EpochAgrees p o.(Obs.registeredWalletAccounts)) o.(Obs.lpEpochs).

Definition DeploymentAgrees (p : Proj.ProtocolProjection) (o : Obs.ObservedAccountingSnapshot) : Prop :=
  o.(Obs.packageVersion) = p.(Proj.packageVersion)
  /\ o.(Obs.automaticMaterialization) = p.(Proj.automaticMaterialization)
  /\ o.(Obs.faucetTrflGrant) = p.(Proj.faucetTrflGrant) /\ o.(Obs.faucetTusdGrant) = p.(Proj.faucetTusdGrant)
  /\ o.(Obs.faucetCooldownSeconds) = p.(Proj.faucetCooldownSeconds)
  /\ if isV02 p
     then o.(Obs.lifecycle) = p.(Proj.lifecycle) /\ o.(Obs.reflectionFeeBps) = Some p.(Proj.feeBps)
     else o.(Obs.swapsPaused) = p.(Proj.swapsPaused) /\ o.(Obs.claimsPaused) = p.(Proj.claimsPaused)
          /\ o.(Obs.faucetPaused) = p.(Proj.faucetPaused)
          /\ o.(Obs.poolPaused) = p.(Proj.pool).(Pool.poolPaused)
          /\ o.(Obs.liquidityPaused) = p.(Proj.pool).(Pool.liquidityPaused)
          /\ o.(Obs.lpClaimsPaused) = p.(Proj.pool).(Pool.lpClaimsPaused)
          /\ o.(Obs.shutdownMode) = p.(Proj.pool).(Pool.shutdownMode)
          /\ o.(Obs.poolSeeded) = p.(Proj.pool).(Pool.seeded).

Definition Agrees (p : Proj.ProtocolProjection) (o : Obs.ObservedAccountingSnapshot) : Prop :=
  IdentityAgrees p o /\ RegistrationsAgree p o /\ AuthoritiesAgree p o /\ VaultAgrees p o /\ TotalsAgree p o
  /\ CustodyAgrees p o /\ PoolAgrees p.(Proj.pool) o /\ PositionsAgree p o /\ EpochsAgree p o
  /\ DeploymentAgrees p o.

(** The observed buckets can be added in a Move [u256]. *)
Definition BucketsFit (liability unallocated rounding : Z) : Prop :=
  0 <= liability /\ 0 <= unallocated /\ 0 <= rounding /\ liability + unallocated + rounding < 2 ^ 256.

Definition ObservedFits (o : Obs.ObservedAccountingSnapshot) : Prop :=
  BucketsFit o.(Obs.reflectionLiability) o.(Obs.unallocatedFees) o.(Obs.roundingReserve)
  /\ Forall (fun e => BucketsFit e.(ObsLpEpoch.indexedLiability) e.(ObsLpEpoch.unallocatedRewards)
                       e.(ObsLpEpoch.roundingReserve)) o.(Obs.lpEpochs).

(** Comparisons that never throw. *)
Class Completes {A} (m : Audit A) : Prop :=
  completes : forall alerts, exists a alerts', m alerts = Returns (a, alerts').

#[export] Instance completes_ret {A} (a : A) : Completes (mret a : Audit A).
Proof. intros al. by exists a, al. Qed.

#[export] Instance completes_bind {A B} (m : Audit A) (k : A -> Audit B) :
  Completes m -> (forall a, Completes (k a)) -> Completes (m ≫= k).
Proof.
  intros Hm Hk al. unfold mbind, audit_bind. destruct (Hm al) as (a & al1 & ->). exact (Hk a al1).
Qed.

Lemma completes_computing {A B} (o : Outcome A) (k : A -> Audit B) :
  returns o -> (forall a, o = Returns a -> Completes (k a)) -> Completes (computing o ≫= k).
Proof.
  intros [a ->] Hk al. exact (Hk a eq_refl al).
Qed.

#[export] Instance completes_raiseIf clock cursor b code message scope expected observed :
  Completes (raiseIf clock cursor b code message scope expected observed).
Proof. intros al. by eexists _, _. Qed.

#[export] Instance completes_forEach {A} (body : A -> Audit unit) xs :
  (forall x, Completes (body x)) -> Completes (audit_forEach body xs).
Proof. intros Hb. induction xs; cbn [audit_forEach]; apply _. Qed.

Lemma buckets_sum l u r label1 label2 :
  BucketsFit l u r ->
  checkedMoveU256Add l u label1 = Returns (l + u) /\ checkedMoveU256Add (l + u) r label2 = Returns (l + u + r).
Proof.
  unfold BucketsFit. intros H. rewrite !checkedMoveU256Add_iff. unfold fitsUnsigned. cbn [widthBits]. lia.
Qed.

(** ** The calculus *)

Class Clears {A} (m : Audit A) (P : Prop) : Prop :=
  clears : forall alerts a alerts', m alerts = Returns (a, alerts') ->
    (exists extra, alerts' = alerts ++ extra) /\ (alerts' = alerts <-> P).

Lemma app_same {A} (l extra1 extra2 : list A) : (l ++ extra1) ++ extra2 = l <-> extra1 = [] /\ extra2 = [].
Proof.
  rewrite <- app_assoc. split; [|by intros [-> ->]; rewrite app_nil_r].
  intros H. rewrite <- (app_nil_r l) in H at 2. by apply app_inv_head, app_nil in H.
Qed.

Lemma app_own {A} (l extra : list A) : l ++ extra = l <-> extra = [].
Proof. split; [|by intros ->; apply app_nil_r]. intros H. apply (app_inv_head l). by rewrite app_nil_r. Qed.

Lemma clears_iff {A} (m : Audit A) P Q : (P <-> Q) -> Clears m P -> Clears m Q.
Proof. intros E H al a al' Hm. destruct (H _ _ _ Hm) as [He Hi]. split; [done|]. by rewrite Hi. Qed.

#[export] Instance clears_proper {A} (m : Audit A) : Proper (iff ==> iff) (Clears m).
Proof. intros P Q E. split; by apply clears_iff. Qed.

#[export] Instance clears_ret {A} (a : A) : Clears (mret a : Audit A) True.
Proof. intros al a' al' [= <- <-]. split; [exists []; by rewrite app_nil_r|done]. Qed.

Lemma clears_bind_value {A B} (m : Audit A) (k : A -> Audit B) (V : A -> Prop) P Q :
  (forall al a al', m al = Returns (a, al') -> V a) ->
  Clears m P -> (forall a, V a -> Clears (k a) Q) -> Clears (m ≫= k) (P /\ Q).
Proof.
  intros Hv Hm Hk al b al' H. unfold mbind, audit_bind in H.
  apply outcome_bind_inv in H as ([a al1] & E & H).
  destruct (Hm _ _ _ E) as [[e1 ->] Hp]. destruct (Hk a (Hv _ _ _ E) _ _ _ H) as [[e2 ->] Hq].
  split; [exists (e1 ++ e2); by rewrite app_assoc|].
  rewrite app_same. rewrite <- Hp, <- Hq, !app_own. done.
Qed.

#[export] Instance clears_bind {A B} (m : Audit A) (k : A -> Audit B) P Q :
  Clears m P -> (forall a, Clears (k a) Q) -> Clears (m ≫= k) (P /\ Q).
Proof. intros Hm Hk. by apply (clears_bind_value m k (fun _ => True)). Qed.

Lemma clears_computing {A B} (o : Outcome A) (k : A -> Audit B) P :
  (forall a, o = Returns a -> Clears (k a) P) -> Clears (computing o ≫= k) P.
Proof.
  intros Hk al b al' H. unfold mbind, audit_bind, computing in H.
  destruct o as [a|]; [|done]. exact (Hk a eq_refl _ _ _ H).
Qed.

#[export] Instance clears_raiseIf clock cursor b code message scope expected observed :
  Clears (raiseIf clock cursor b code message scope expected observed) (b = false).
Proof.
  intros al [] al' [= <-]. destruct b.
  - split; [by eexists|]. split; [|done]. intros H%app_own. done.
  - split; [exists []; by rewrite app_nil_r|done].
Qed.

#[export] Instance clears_forEach {A} (body : A -> Audit unit) (P : A -> Prop) xs :
  (forall x, Clears (body x) (P x)) -> Clears (audit_forEach body xs) (Forall P xs).
Proof.
  intros Hb. induction xs as [|x xs IH]; cbn [audit_forEach].
  - apply (clears_iff _ True); [by split; constructor|apply _].
  - apply (clears_iff _ (P x /\ Forall P xs)); [split; [by intros []; constructor|by inversion 1]|]. apply clears_bind; [done|by intros []].
Qed.

(** Comparisons as propositions. *)
Lemma differs_false {A} `{EqDecision A} (x y : A) : bool_decide (x <> y) = false <-> x = y.
Proof. rewrite bool_decide_eq_false. split; [apply dec_stable|by intros -> []]. Qed.

Create Rewrite HintDb agrees.
#[export] Hint Rewrite orb_false_iff @differs_false : agrees.

(** ** The position loops *)

Lemma jsGet_delete_ne {K V} `{EqDecision K} (k k' : K) (m : JsMap K V) :
  k <> k' -> jsGet k' (jsDelete k m) = jsGet k' m.
Proof.
  intros Hne. induction m as [|[k0 v] m IH]; [done|]. cbn. destruct (decide (k0 = k)) as [->|]; cbn.
  - by rewrite decide_False.
  - destruct (decide (k0 = k')); [done|exact IH].
Qed.

Lemma jsGet_delete_eq {K V} `{EqDecision K} (k : K) (m : JsMap K V) :
  jsWf m -> jsGet k (jsDelete k m) = None.
Proof.
  unfold jsWf. induction m as [|[k0 v] m IH]; [done|]. cbn. intros Hwf. inversion Hwf as [|?? Hx Hm]; subst.
  destruct (decide (k0 = k)) as [->|Hne]; cbn; [|by rewrite decide_False; auto].
  destruct (jsGet k m) eqn:E; [|done]. exfalso. apply Hx. apply jsHas_true. unfold jsHas. by rewrite E.
Qed.

Lemma jsDelete_keys_incl {K V} `{EqDecision K} (k k' : K) (m : JsMap K V) :
  k' ∈ jsKeys (jsDelete k m) -> k' ∈ jsKeys m.
Proof.
  induction m as [|[k0 v] m IH]; [done|]. cbn. destruct (decide (k0 = k)); cbn; rewrite ?elem_of_cons; naive_solver.
Qed.

Lemma jsWf_delete {K V} `{EqDecision K} (k : K) (m : JsMap K V) : jsWf m -> jsWf (jsDelete k m).
Proof.
  unfold jsWf. induction m as [|[k0 v] m IH]; [done|]. cbn. intros Hwf. inversion Hwf as [|?? Hx Hm]; subst.
  destruct (decide (k0 = k)); cbn; [done|]. constructor; [|by apply IH].
  intros Hin. by apply Hx, (jsDelete_keys_incl k).
Qed.

(** What the loop leaves of the observed map. *)
Definition leftover {V W} (replayed : JsMap Address V) (remaining : JsMap Address W) : JsMap Address W :=
  foldl (fun rest entry => jsDelete entry.1 rest) remaining replayed.

(** Entries other than [k] do not see its deletion. *)
Lemma forall_delete {V W} (R : V -> W -> Prop) k (m : JsMap Address V) (n : JsMap Address W) :
  k ∉ jsKeys m ->
  Forall (fun entry => exists w, jsGet entry.1 (jsDelete k n) = Some w /\ R entry.2 w) m
  <-> Forall (fun entry => exists w, jsGet entry.1 n = Some w /\ R entry.2 w) m.
Proof.
  intros Hx. rewrite !Forall_forall. split; intros H [k' v'] Hin; specialize (H _ Hin); cbn in *;
    rewrite jsGet_delete_ne in *; try done; intros ->; apply Hx, list_elem_of_fmap; exists (k', v');
    (split; [done|by apply list_elem_of_In]).
Qed.

(** The entries the loop accepted one by one, and nothing left: the maps agree. *)
Lemma maps_agree {V W} (R : V -> W -> Prop) (m : JsMap Address V) : forall n : JsMap Address W,
  jsWf m -> jsWf n ->
  (Forall (fun entry => exists w, jsGet entry.1 n = Some w /\ R entry.2 w) m /\ jsKeys (leftover m n) = [])
  <-> MapsAgree R m n.
Proof.
  unfold MapsAgree. induction m as [|[k v] m IH]; intros n Hm Hn; cbn [leftover foldl].
  - split.
    + intros [_ Hk] k. cbn. destruct n; [done|discriminate].
    + intros H. split; [constructor|]. destruct n as [|[k w] n]; [done|].
      specialize (H k). cbn in H. by rewrite decide_True in H.
  - inversion Hm as [|?? Hx Hm']; subst. fold (leftover m (jsDelete k n)).
    assert (Hnone : jsGet k m = None).
    { destruct (jsGet k m) eqn:E; [|done]. exfalso. apply Hx, jsHas_true. unfold jsHas. by rewrite E. }
    pose proof (forall_delete R k m n Hx) as Hrest.
    specialize (IH (jsDelete k n) Hm' (jsWf_delete k n Hn)). split.
    + intros [Hf Hl]. inversion Hf as [|?? (w & Ew & Hr) Hf']; subst. cbn in *.
      destruct IH as [IH _]. specialize (IH (conj (proj2 Hrest Hf') Hl)). intros k'.
      destruct (decide (k = k')) as [->|Hne]; [by rewrite Ew|].
      specialize (IH k'). by rewrite (jsGet_delete_ne k k') in IH.
    + intros H. assert (Hk := H k). cbn in Hk. rewrite decide_True in Hk by done.
      destruct (jsGet k n) as [w|] eqn:Ew; [|done].
      destruct (proj2 IH) as [Hf' Hl].
      { intros k'. specialize (H k'). cbn in H. destruct (decide (k = k')) as [->|Hne].
        - by rewrite Hnone, jsGet_delete_eq.
        - by rewrite jsGet_delete_ne. }
      split; [|done]. constructor; [by exists w|by apply Hrest].
Qed.

(** The registration guard of an LP owner. *)
Lemma registered_guard shares owner (registered : list Address) :
  bool_decide (shares > 0) && negb (includes owner registered) = false <-> (0 < shares -> owner ∈ registered).
Proof.
  unfold includes. rewrite andb_false_iff, negb_false_iff, bool_decide_eq_false, bool_decide_eq_true.
  split; [intros [|] ?; [lia|done]|]. intros H. destruct (decide (0 < shares)); [right; auto|left; lia].
Qed.

Section Loops.
Context (clock : nat -> Z) (cursor : option Cursor.EventCursor).

Lemma compareWallets_leftover replayed : forall remaining alerts a alerts',
  compareWallets clock cursor replayed remaining alerts = Returns (a, alerts') -> a = leftover replayed remaining.
Proof.
  induction replayed as [|[account w] replayed IH]; intros remaining al a al' H; [by injection H|].
  eapply IH. exact H.
Qed.

#[export] Instance clears_compareWallets replayed : forall remaining,
  jsWf replayed ->
  Clears (compareWallets clock cursor replayed remaining)
    (Forall (fun entry => exists o, jsGet entry.1 remaining = Some o /\ WalletAgrees entry.2 o) replayed).
Proof.
  induction replayed as [|[account w] replayed IH]; intros remaining Hwf; cbn [compareWallets].
  - apply (clears_iff _ True); [by split; constructor|apply _].
  - inversion Hwf as [|?? Hx Hwf']; subst. eapply clears_iff; [|apply clears_bind; [apply _|]];
      [|intros []; by apply IH].
    transitivity ((exists o, jsGet account remaining = Some o /\ WalletAgrees w o)
      /\ Forall (fun entry => exists o, jsGet entry.1 remaining = Some o /\ WalletAgrees entry.2 o) replayed).
    2:{ split; [intros []; by constructor|by inversion 1]. }
    f_equiv.
    + unfold walletDiffers, WalletAgrees. destruct (jsGet account remaining) as [o|]; autorewrite with agrees.
      * split; [intros [[]]; by exists o|by intros (o' & [= ->] & ? & ? & ?)].
      * split; [done|by intros (o' & [=] & _)].
    + by apply forall_delete.
Qed.

Lemma compareLpPositions_leftover scope registered replayed : forall remaining alerts a alerts',
  compareLpPositions clock cursor scope registered replayed remaining alerts = Returns (a, alerts') ->
  a = leftover replayed remaining.
Proof.
  induction replayed as [|[owner w] replayed IH]; intros remaining al a al' H; [by injection H|].
  eapply IH. exact H.
Qed.

#[export] Instance clears_compareLpPositions scope registered replayed : forall remaining,
  jsWf replayed ->
  Clears (compareLpPositions clock cursor scope registered replayed remaining)
    (Forall (fun entry => 0 < entry.2.(LpPos.shares) -> entry.1 ∈ registered) replayed
     /\ Forall (fun entry => exists o, jsGet entry.1 remaining = Some o /\ LpPositionAgrees entry.2 o) replayed).
Proof.
  induction replayed as [|[owner w] replayed IH]; intros remaining Hwf; cbn [compareLpPositions].
  - apply (clears_iff _ True); [by repeat split; constructor|apply _].
  - inversion Hwf as [|?? Hx Hwf']; subst.
    eapply clears_iff; [|apply clears_bind; [apply _|intros []; apply clears_bind; [apply _|intros []; by apply IH]]].
    rewrite (forall_delete LpPositionAgrees owner replayed remaining Hx).
    assert (Hpos : lpPositionDiffers w (jsGet owner remaining) = false
      <-> exists o, jsGet owner remaining = Some o /\ LpPositionAgrees w o).
    { unfold lpPositionDiffers, LpPositionAgrees. destruct (jsGet owner remaining) as [o|]; autorewrite with agrees.
      - split; [intros [[]]; by exists o|by intros (o' & [= ->] & ? & ? & ?)].
      - split; [done|by intros (o' & [=] & _)]. }
    rewrite registered_guard, Hpos. split.
    + intros (? & ? & ? & ?). split; by constructor.
    + intros [H1 H2]. inversion H1; inversion H2; subst. done.
Qed.
End Loops.
