(* ===== verification/JsonRoundTrip.v ===== *)
(** * What JSON prints, JSON reads back

    The fuel of [jsonParse] is enough for every text; the text of a value is
    read back as that value, its bigints as the objects the replacer wrote, and
    the reviver restores them.  So [stringify] is injective. *)
From S2P Require Import Prelude JsMap Types MoveDomains JsValue Numerals Json CursorRoundTrip.

(** ** Induction through the nested lists *)

Section Induction.
Context (P : Json -> Prop).
Context (Hnull : P JNull) (Hbool : forall b, P (JBool b)) (Hnumber : forall n, P (JNumber n))
  (Hdouble : forall t, P (JDouble t)) (Hbigint : forall n, P (JBigint n)) (Hstring : forall s, P (JString s))
  (Harray : forall items, Forall P items -> P (JArray items))
  (Hobject : forall fields, Forall (fun field => P field.2) fields -> P (JObject fields)).

Fixpoint Json_nested_ind (j : Json) : P j :=
  match j with
  | JNull => Hnull
  | JBool b => Hbool b
  | JNumber n => Hnumber n
  | JDouble t => Hdouble t
  | JBigint n => Hbigint n
  | JString s => Hstring s
  | JArray items => Harray items ((fix go l : Forall P l :=
      match l with [] => Forall_nil_2 _ | x :: r => Forall_cons_2 _ _ _ (Json_nested_ind x) (go r) end) items)
  | JObject fields => Hobject fields ((fix go l : Forall (fun field => P field.2) l :=
      match l with [] => Forall_nil_2 _ | x :: r => Forall_cons_2 _ _ _ (Json_nested_ind x.2) (go r) end) fields)
  end.
End Induction.

(** ** The parser consumes its input, and enough fuel is enough *)

Definition Shorter {A} (s : string) (read : option (A * string)) : Prop :=
  match read with
  | Some (_, rest) => (String.length rest < String.length s)%nat
  | None => True
  end.

Definition NotLonger {A} (s : string) (read : option (A * string)) : Prop :=
  match read with
  | Some (_, rest) => (String.length rest <= String.length s)%nat
  | None => True
  end.

Lemma shorter_le {A} s t (read : option (A * string)) :
  (String.length s <= String.length t)%nat -> Shorter s read -> Shorter t read.
Proof. destruct read as [[? ?]|]; cbn; [lia|done]. Qed.

Lemma skipSpace_length s : (String.length (skipSpace s) <= String.length s)%nat.
Proof. induction s as [|c s IH]; cbn; [done|]. destruct (isSpace c); cbn; lia. Qed.

Lemma spanDigits_length s : (String.length (spanDigits s).2 + String.length (spanDigits s).1 = String.length s)%nat.
Proof.
  induction s as [|c s IH]; cbn; [done|]. destruct (digitValue c); cbn; [|lia].
  destruct (spanDigits s); cbn in *. lia.
Qed.

Lemma stripPrefix_length prefix s rest :
  stripPrefix prefix s = Some rest -> (String.length rest + String.length prefix = String.length s)%nat.
Proof.
  revert s; induction prefix as [|p prefix IH]; intros [|c s]; cbn; try congruence.
  - intros [= <-]. done.
  - intros [= <-]. cbn. lia.
  - case_bool_decide; [|done]. intros Hs%IH. lia.
Qed.

Lemma next_length c s rest : next c s = Some rest -> (String.length rest < String.length s)%nat.
Proof. intros H%stripPrefix_length. pose proof (skipSpace_length s). cbn in *; lia. Qed.

Lemma parseSign_length s : (String.length (parseSign s).2 <= String.length s)%nat.
Proof.
  unfold parseSign. destruct (stripPrefix "-" s) eqn:E; [apply stripPrefix_length in E; cbn in *; lia|cbn; lia].
Qed.

Lemma push_shorter c d s read : Shorter s read -> Shorter (String c s) (push d read).
Proof. destruct read as [[? ?]|]; cbn; [lia|done]. Qed.

Lemma parseChars_shorter_at n : forall s, (String.length s <= n)%nat -> Shorter s (parseChars s).
Proof.
  induction n as [|n IH]; intros [|c s] Hn; cbn in Hn; try done; [lia|].
  cbn [parseChars]. case_bool_decide; [cbn; lia|].
  assert (Hrec : forall t, (String.length t <= String.length s)%nat -> Shorter (String c s) (parseChars t)).
  { intros t Ht. apply (shorter_le t); [cbn; lia|apply IH; lia]. }
  case_bool_decide.
  - destruct s as [|e s]; [done|]. destruct (unescape e).
    + apply (shorter_le (String e s)); [cbn; lia|]. apply push_shorter, IH. cbn in Hn. lia.
    + do 4 (destruct s as [|? s]; [done|]). case_bool_decide; [|done].
      destruct (unescapeHex _ _ _ _); [|done].
      apply (shorter_le (String e s)); [cbn; lia|]. apply push_shorter, IH. cbn in Hn. lia.
  - case_bool_decide; [done|]. apply push_shorter, IH. lia.
Qed.

Lemma parseChars_shorter s : Shorter s (parseChars s).
Proof. by apply (parseChars_shorter_at (String.length s)). Qed.

Lemma parseFraction_length s : NotLonger s (parseFraction s).
Proof.
  unfold parseFraction. destruct (stripPrefix "." s) as [rest|] eqn:E; [|cbn; lia].
  apply stripPrefix_length in E. pose proof (spanDigits_length rest) as H.
  destruct (spanDigits rest) as [digits after]. case_bool_decide; cbn in *; [done|lia].
Qed.

Lemma stripEither_length p q s rest :
  stripEither p q s = Some rest -> (String.length rest <= String.length s)%nat.
Proof.
  unfold stripEither. destruct (stripPrefix p s) eqn:E.
  - intros [= ->]. apply stripPrefix_length in E. lia.
  - intros H%stripPrefix_length. lia.
Qed.

Lemma parseExponent_length s : NotLonger s (parseExponent s).
Proof.
  unfold parseExponent. destruct (stripEither "e" "E" s) as [rest|] eqn:E; [|cbn; lia].
  apply stripEither_length in E.
  assert (Hd : (String.length (default rest (stripEither "-" "+" rest)) <= String.length rest)%nat).
  { destruct (stripEither "-" "+" rest) eqn:E1; [by apply stripEither_length in E1|done]. }
  set (digitsOn := default rest _) in *. pose proof (spanDigits_length digitsOn) as H.
  destruct (spanDigits digitsOn) as [digits after]. case_bool_decide; [done|].
  destruct (parseDigits 0 digits); cbn in *; [lia|done].
Qed.

Section Fuel.
Context (numberText : Z -> Z -> string).
Notation parseNumber := (parseNumber numberText).
Notation parseLiteral := (parseLiteral numberText).
Notation parseValue := (parseValue numberText).
Notation parseElements := (parseElements numberText).
Notation parseMembers := (parseMembers numberText).

Lemma parseNumber_shorter s : Shorter s (parseNumber s).
Proof.
  unfold Json.parseNumber. pose proof (parseSign_length s) as Hs. destruct (parseSign s) as [negative unsigned].
  pose proof (spanDigits_length unsigned) as Hd. destruct (spanDigits unsigned) as [[|c whole] afterWhole]; [done|].
  destruct (bool_decide _ || leadingZero _); [done|].
  pose proof (parseFraction_length afterWhole) as Hf. destruct (parseFraction afterWhole) as [[fraction afterF]|]; [|done].
  cbn [mbind option_bind]. pose proof (parseExponent_length afterF) as He.
  destruct (parseExponent afterF) as [[exponent rest]|]; [|done].
  cbn [mbind option_bind]. destruct (parseDigits 0 _); cbn in *; [lia|done].
Qed.

Lemma literal_shorter text value s otherwise :
  text <> "" -> Shorter s otherwise -> Shorter s (literal text value s otherwise).
Proof.
  unfold literal. intros Ht Ho. destruct (stripPrefix text s) eqn:E; [|done].
  apply stripPrefix_length in E. destruct text; [done|]. cbn in *; lia.
Qed.

Lemma parseLiteral_shorter s : Shorter s (parseLiteral s).
Proof. repeat (apply literal_shorter; [done|]). apply parseNumber_shorter. Qed.

(** A step of the parser that reads from a shorter or equal text. *)
Lemma shorter_bind {A B} (s t : string) (read : option (A * string)) (k : A * string -> option (B * string)) :
  (String.length t <= String.length s)%nat -> Shorter t read ->
  (forall a rest, (String.length rest < String.length t)%nat -> Shorter s (k (a, rest))) ->
  Shorter s (read ≫= k).
Proof. destruct read as [[a rest]|]; cbn; [auto|done]. Qed.

Lemma shorter_next {B} (s t : string) c (k : string -> option (B * string)) :
  (forall rest, (String.length rest < String.length t)%nat -> Shorter s (k rest)) ->
  Shorter s (next c t ≫= k).
Proof. destruct (next c t) eqn:E; cbn; [apply next_length in E; auto|done]. Qed.

Lemma parse_shorter fuel : forall s,
  Shorter s (parseValue fuel s) /\ Shorter s (parseElements fuel s) /\ Shorter s (parseMembers fuel s).
Proof.
  induction fuel as [|fuel IH]; intros s; [done|]. cbn [Json.parseValue Json.parseElements Json.parseMembers].
  split; [|split].
  - destruct (next "{" s) as [rest|] eqn:E.
    { apply next_length in E. destruct (next "}" rest) eqn:E1; [apply next_length in E1; cbn; lia|].
      apply (shorter_bind _ rest); [lia|apply IH|]. intros members after H. cbn. lia. }
    destruct (next "[" s) as [rest|] eqn:E2.
    { apply next_length in E2. destruct (next "]" rest) eqn:E1; [apply next_length in E1; cbn; lia|].
      apply (shorter_bind _ rest); [lia|apply IH|]. intros members after H. cbn. lia. }
    destruct (next DOUBLE_QUOTE s) as [rest|] eqn:E3.
    { apply next_length in E3. apply (shorter_bind _ rest); [lia|apply parseChars_shorter|]. intros; cbn; lia. }
    apply (shorter_le (skipSpace s)); [apply skipSpace_length|apply parseLiteral_shorter].
  - apply (shorter_bind _ s); [lia|apply IH|]. intros item after H.
    destruct (next "]" after) eqn:E1; [apply next_length in E1; cbn; lia|].
    apply shorter_next. intros rest Hr. apply (shorter_bind _ rest); [lia|apply IH|]. intros; cbn; lia.
  - apply shorter_next. intros afterQuote Hq. apply (shorter_bind _ afterQuote); [lia|apply parseChars_shorter|].
    intros key afterKey Hk. apply shorter_next. intros afterColon Hc.
    apply (shorter_bind _ afterColon); [lia|apply IH|]. intros value after Ha.
    destruct (next "}" after) eqn:E1; [apply next_length in E1; cbn; lia|].
    apply shorter_next. intros rest Hr. apply (shorter_bind _ rest); [lia|apply IH|]. intros; cbn; lia.
Qed.

Lemma bind_agree {A B} (s : string) (read read' : option (A * string)) (k k' : A * string -> option B) :
  read = read' -> Shorter s read ->
  (forall a rest, (String.length rest < String.length s)%nat -> k (a, rest) = k' (a, rest)) ->
  read ≫= k = read' ≫= k'.
Proof. intros <-. destruct read as [[a rest]|]; cbn; [auto|done]. Qed.

Lemma next_agree {B} c (s : string) (k k' : string -> option B) :
  (forall rest, (String.length rest < String.length s)%nat -> k rest = k' rest) ->
  next c s ≫= k = next c s ≫= k'.
Proof. destruct (next c s) eqn:E; cbn; [apply next_length in E; auto|done]. Qed.

(** Two amounts of fuel that exceed the length of the text agree. *)
Lemma parse_enough_fuel f : forall f' s,
  ((2 * String.length s < f)%nat -> (2 * String.length s < f')%nat -> parseValue f s = parseValue f' s)
  /\ ((S (2 * String.length s) < f)%nat -> (S (2 * String.length s) < f')%nat ->
      parseElements f s = parseElements f' s /\ parseMembers f s = parseMembers f' s).
Proof.
  induction f as [|f IH]; intros f' s; [split; lia|]. destruct f' as [|f']; [split; lia|].
  cbn [Json.parseValue Json.parseElements Json.parseMembers]. split; [intros Hf Hf'|intros Hf Hf'; split].
  - destruct (next "{" s) as [rest|] eqn:E.
    { apply next_length in E. destruct (next "}" rest); [done|].
      apply (bind_agree rest); [apply IH; lia|apply parse_shorter|done]. }
    destruct (next "[" s) as [rest|] eqn:E2; [|done].
    apply next_length in E2. destruct (next "]" rest); [done|].
    apply (bind_agree rest); [apply IH; lia|apply parse_shorter|done].
  - apply (bind_agree s); [apply IH; lia|apply parse_shorter|]. intros item after H.
    destruct (next "]" after); [done|]. apply next_agree. intros rest Hr.
    apply (bind_agree rest); [apply IH; lia|apply parse_shorter|done].
  - apply next_agree. intros afterQuote Hq. apply (bind_agree afterQuote); [done|apply parseChars_shorter|].
    intros key afterKey Hk. apply next_agree. intros afterColon Hc.
    apply (bind_agree afterColon); [apply IH; lia|apply parse_shorter|]. intros value after Ha.
    destruct (next "}" after); [done|]. apply next_agree. intros rest Hr.
    apply (bind_agree rest); [apply IH; lia|apply parse_shorter|done].
Qed.
End Fuel.

(** ** Strings *)

Lemma parseChars_escapeChar c t : parseChars (escapeChar c ⧺ t) = push c (parseChars t).
Proof. destruct c as [[] [] [] [] [] [] [] []]; reflexivity. Qed.

Lemma parseChars_escape s rest : parseChars (escapeJson s ⧺ String DOUBLE_QUOTE rest) = Some (s, rest).
Proof.
  induction s as [|c s IH]; [done|]. cbn [escapeJson]. rewrite append_assoc, parseChars_escapeChar, IH. done.
Qed.

(** ** Tokens *)

Lemma next_hit c rest : isSpace c = false -> next c (String c rest) = Some rest.
Proof. intros H. unfold next. cbn [skipSpace]. rewrite H. cbn [stripPrefix]. by rewrite bool_decide_true. Qed.

Lemma next_miss c d rest : isSpace d = false -> c <> d -> next c (String d rest) = None.
Proof. intros H Hne. unfold next. cbn [skipSpace]. rewrite H. cbn [stripPrefix]. by rewrite bool_decide_false. Qed.

(** What may follow a value: the end, the end of its line, or the token that ends or separates it. *)
Definition endsValue (rest : string) : bool :=
  match rest with
  | EmptyString => true
  | String c _ => bool_decide (c = ","%char) || bool_decide (c = "]"%char) || bool_decide (c = "}"%char)
                  || bool_decide (c = NEWLINE)
  end.

(** ** Numbers *)

Lemma show_negative n : 0 < n -> show (- n) = "-" ⧺ show n.
Proof. destruct n as [|p|p]; [lia|done|lia]. Qed.

Lemma spanDigits_numeral s rest :
  allChars isDigit s = true -> endsValue rest = true -> spanDigits (s ⧺ rest) = (s, rest).
Proof.
  intros Hs Hrest. induction s as [|c s IH].
  - change (spanDigits rest = ("", rest)). destruct rest as [|c rest]; [done|].
    cbn [spanDigits]. destruct (digitValue c) eqn:E; [|done].
    destruct c as [[] [] [] [] [] [] [] []]; try discriminate E; discriminate Hrest.
  - cbn in Hs. apply andb_prop in Hs as [Hc Hs]. change (String c s ⧺ rest) with (String c (s ⧺ rest)).
    cbn [spanDigits]. unfold isDigit in Hc. apply bool_decide_eq_true in Hc as [d ->]. by rewrite IH.
Qed.

Lemma integerDouble_exact n : 0 <= n <= MAX_SAFE_INTEGER -> integerDouble n 1 = Some n.
Proof.
  unfold MAX_SAFE_INTEGER, integerDouble. intros Hn. case_bool_decide as H0; [by subst|].
  assert (Hlog : 0 <= Z.log2 n <= 52).
  { split; [apply Z.log2_nonneg|]. assert (Z.log2 n < 53); [|lia]. apply Z.log2_lt_pow2; lia. }
  change (Z.log2 1) with 0. rewrite Z.sub_0_r, (Z.max_l 0 (- _)), (Z.max_r 0 (Z.log2 n)) by lia.
  rewrite Z.mul_1_l, Z.pow_0_r, Z.mul_1_r.
  pose proof (Z.log2_spec n ltac:(lia)) as Hspec. rewrite (bool_decide_false (n < 2 ^ Z.log2 n)) by lia.
  rewrite (Z.max_r (- 1074)) by lia. set (k := Z.log2 n - 52).
  rewrite (Z.max_r 0 (- k)), (Z.max_l 0 k) by lia. rewrite Z.pow_0_r, Z.mul_1_r.
  assert (Hhalf : forall m, halfEven m 1 = m).
  { intros m. unfold halfEven. rewrite Z.div_1_r. by replace (2 * (m - m * 1)) with 0 by lia. }
  rewrite Hhalf. case_bool_decide as Hk.
  - replace k with 0 by lia. rewrite !Z.pow_0_r, !Z.mul_1_r.
    rewrite bool_decide_true; [done|]. apply Z.le_lt_trans with (2 ^ 53); [lia|apply Z.pow_lt_mono_r; lia].
  - assert (Hp : 0 < 2 ^ (- k)) by (apply Z.pow_pos_nonneg; lia).
    rewrite Z_mod_mult, bool_decide_true by done. by rewrite Z.div_mul by lia.
Qed.

Lemma leadingZero_nonzero c rest : c <> "0"%char -> leadingZero (String c rest) = false.
Proof. intros H. destruct c as [[] [] [] [] [] [] [] []]; done. Qed.

Lemma endsValue_tail rest :
  endsValue rest = true -> parseFraction rest = Some ("", rest) /\ parseExponent rest = Some (0, rest).
Proof.
  destruct rest as [|c rest]; [done|]. unfold endsValue. rewrite !orb_true_iff, !bool_decide_eq_true.
  by intros [[[->| ->]| ->]| ->].
Qed.

Section RoundTrip.
Context (numberText : Z -> Z -> string).
Notation parseNumber := (parseNumber numberText).
Notation parseLiteral := (parseLiteral numberText).
Notation parseValue := (parseValue numberText).
Notation parseElements := (parseElements numberText).
Notation parseMembers := (parseMembers numberText).

(** A sign and a numeral, whatever the sign. *)
Lemma parseNumber_numeral (negative : bool) n s rest :
  0 <= n <= MAX_SAFE_INTEGER -> allChars isDigit s = true -> s <> "" -> leadingZero s = false ->
  parseDigits 0 s = Some n -> endsValue rest = true ->
  parseNumber ((if negative then "-" else "") ⧺ s ⧺ rest)
  = Some (JNumber (if negative then - n else n), rest).
Proof.
  intros Hn Hd Hne Hz Hp Hrest. unfold Json.parseNumber.
  assert (Hsign : parseSign ((if negative then "-" else "") ⧺ s ⧺ rest) = (negative, s ⧺ rest)).
  { destruct negative; [done|]. destruct s as [|c s]; [done|]. cbn in Hd. apply andb_prop in Hd as [Hc _].
    unfold parseSign. cbn. destruct c as [[] [] [] [] [] [] [] []]; done. }
  rewrite Hsign, (spanDigits_numeral _ _ Hd Hrest). rewrite bool_decide_false by done. rewrite Hz. cbn [orb].
  destruct (endsValue_tail _ Hrest) as [-> Hexp]. cbn [mbind option_bind]. rewrite Hexp. cbn [mbind option_bind].
  rewrite append_empty, Hp. cbn [mbind option_bind]. unfold numberOf. change (0 - jsLength "") with 0.
  change (Z.max 0 (- 0)) with 0. change (Z.max 0 0) with 0. rewrite Z.pow_0_r, Z.mul_1_r, integerDouble_exact by done.
  by rewrite bool_decide_true by lia.
Qed.

Lemma parseNumber_show n rest :
  isSafeInteger n = true -> endsValue rest = true -> parseNumber (show n ⧺ rest) = Some (JNumber n, rest).
Proof.
  unfold isSafeInteger. intros Hn Hrest. bools.
  destruct (Z.lt_trichotomy n 0) as [Hneg|[->|Hpos]].
  - destruct (show_numeral (- n) ltac:(lia)) as (Hd & (c & r & E & Hc) & Hp).
    replace n with (- - n) at 1 by lia. rewrite show_negative, append_assoc by lia.
    rewrite (parseNumber_numeral true (- n)); [by rewrite Z.opp_involutive|lia|done| | | |done].
    + by rewrite E.
    + rewrite E. by apply leadingZero_nonzero.
    + specialize (Hp ""). by rewrite append_empty in Hp.
  - exact (parseNumber_numeral false 0 "0" rest ltac:(done) eq_refl ltac:(done) eq_refl eq_refl Hrest).
  - destruct (show_numeral n ltac:(lia)) as (Hd & (c & r & E & Hc) & Hp).
    apply (parseNumber_numeral false n); [lia|done|by rewrite E| | |done].
    + rewrite E. by apply leadingZero_nonzero.
    + specialize (Hp ""). by rewrite append_empty in Hp.
Qed.

(** ** Values *)

(** What a bigint is read back as, before the reviver. *)
Definition bigintObject (n : Z) : Json := JObject [("$bigint", JString (show n))].

Fixpoint plain (j : Json) : Json :=
  match j with
  | JBigint n => bigintObject n
  | JArray items => JArray (map plain items)
  | JObject fields => JObject (map (fun field => (field.1, plain field.2)) fields)
  | _ => j
  end.

(** The values the code writes: numbers are safe integers, keys are distinct and no array indices. *)
Fixpoint jsonOk (j : Json) : bool :=
  match j with
  | JNumber n => isSafeInteger n
  | JDouble _ => false
  | JArray items => forallb jsonOk items
  | JObject fields =>
      bool_decide (NoDup (map fst fields)) && forallb (fun field => bool_decide (arrayIndex field.1 = None)) fields
      && forallb (fun field => jsonOk field.2) fields
  | _ => true
  end.

Lemma isDigit_token c : isDigit c = true -> isSpace c = false /\ c <> "{"%char /\ c <> "["%char /\ c <> DOUBLE_QUOTE
  /\ c <> "]"%char /\ c <> "}"%char /\ c <> "n"%char /\ c <> "t"%char /\ c <> "f"%char.
Proof. destruct c as [[] [] [] [] [] [] [] []]; done. Qed.

(** The first character of a printed number. *)
Lemma show_head n : exists c r, show n = String c r /\ (isDigit c = true \/ c = "-"%char).
Proof.
  destruct (Z.lt_trichotomy n 0) as [Hneg|[->|Hpos]].
  - replace n with (- - n) by lia. rewrite show_negative by lia. eexists _, _. split; [apply append_String|by right].
  - eexists _, _. split; [reflexivity|by left].
  - destruct (show_numeral n Hpos) as (Hd & (c & r & E & _) & _). rewrite E in *. cbn in Hd.
    apply andb_prop in Hd as [Hd _]. eauto.
Qed.

(** A printed value starts with a character that is no white space and closes nothing. *)
Lemma stringify_head j : jsonOk j = true ->
  exists c r, stringify j = String c r /\ isSpace c = false /\ c <> "]"%char /\ c <> "}"%char.
Proof.
  destruct j; cbn [jsonOk stringify]; intros Hok; try discriminate Hok;
    try (by eexists _, _; split; [apply append_String|]); try (by eexists _, _; split; [reflexivity|]).
  - destruct b; by eexists _, _; split; [reflexivity|].
  - destruct (show_head n) as (c & r & -> & [Hd| ->]); [|by exists "-"%char, r].
    apply isDigit_token in Hd. exists c, r. naive_solver.
Qed.

(** [j] is read back from its text, by enough fuel. *)
Definition Reads (j : Json) : Prop :=
  forall rest, endsValue rest = true ->
    exists fuel, forall more, (fuel <= more)%nat -> parseValue more (stringify j ⧺ rest) = Some (plain j, rest).

Lemma parseValue_literal more c r :
  isSpace c = false -> c <> "{"%char -> c <> "["%char -> c <> DOUBLE_QUOTE ->
  parseValue (S more) (String c r) = parseLiteral (String c r).
Proof.
  intros Hs H1 H2 H3. cbn [Json.parseValue]. rewrite !next_miss by done. cbn [skipSpace]. by rewrite Hs.
Qed.

Lemma parseValue_string more s rest :
  parseValue (S more) (quoteJson s ⧺ rest) = Some (JString s, rest).
Proof.
  unfold quoteJson. rewrite append_String, append_assoc, append_String. cbn [Json.parseValue].
  rewrite !next_miss by done. rewrite next_hit by done. by rewrite parseChars_escape.
Qed.

Lemma literal_miss text value c r otherwise :
  (forall t, text <> String c t) -> text <> "" -> literal text value (String c r) otherwise = otherwise.
Proof.
  intros H Hne. unfold literal. destruct text as [|d text]; [done|]. cbn [stripPrefix].
  rewrite bool_decide_false; [done|]. intros ->. by apply (H text).
Qed.

Lemma reads_number n : isSafeInteger n = true -> Reads (JNumber n).
Proof.
  intros Hn rest Hrest. exists 1%nat. intros [|more] Hm; [lia|]. cbn [stringify plain].
  destruct (show_head n) as (c & r & E & Hc).
  assert (Htok : isSpace c = false /\ c <> "{"%char /\ c <> "["%char /\ c <> DOUBLE_QUOTE
    /\ c <> "n"%char /\ c <> "t"%char /\ c <> "f"%char).
  { destruct Hc as [Hd| ->]; [apply isDigit_token in Hd; naive_solver|done]. }
  rewrite E, append_String. rewrite parseValue_literal by naive_solver.
  unfold Json.parseLiteral. rewrite !literal_miss by naive_solver. rewrite <- append_String, <- E.
  by apply parseNumber_show.
Qed.

Lemma reads_literal j : j = JNull \/ (exists b, j = JBool b) -> Reads j.
Proof.
  intros Hj rest _. exists 1%nat. intros [|more] Hm; [lia|].
  destruct Hj as [->|[b ->]]; [|destruct b]; done.
Qed.

Lemma reads_elements items :
  Forall (fun j => jsonOk j = true) items -> Forall Reads items -> items <> [] -> forall rest,
  exists fuel, forall more, (fuel <= more)%nat ->
    parseElements more (joinWith "," (map stringify items) ⧺ String "]" rest) = Some (map plain items, rest).
Proof.
  intros Hok Hreads Hne rest. induction items as [|j items IH]; [done|]. clear Hne.
  inversion Hok as [|?? Hj Hrest]; inversion Hreads as [|?? Rj Rrest]; subst.
  destruct items as [|j' items].
  - destruct (Rj (String "]" rest) eq_refl) as [fuel Hf]. exists (S fuel). intros [|more] Hm; [lia|].
    cbn [Json.parseElements map joinWith]. rewrite Hf by lia. cbn [mbind option_bind]. by rewrite next_hit.
  - destruct (IH Hrest Rrest ltac:(done)) as [fuel1 H1].
    destruct (Rj ("," ⧺ joinWith "," (map stringify (j' :: items)) ⧺ String "]" rest) eq_refl) as [fuel2 H2].
    exists (S (max fuel1 fuel2)). intros [|more] Hm; [lia|].
    change (joinWith "," (map stringify (j :: j' :: items)))
      with (stringify j ⧺ "," ⧺ joinWith "," (map stringify (j' :: items))).
    rewrite !append_assoc. cbn [Json.parseElements]. rewrite H2 by lia. cbn [mbind option_bind].
    rewrite append_String, next_miss, next_hit by done. cbn [mbind option_bind].
    change ("" ⧺ ?x) with x. rewrite H1 by lia. done.
Qed.

(** The text of one property. *)
Notation fieldText := (fun field : string * Json => quoteJson field.1 ⧺ ":" ⧺ stringify field.2).
Notation plainField := (fun field : string * Json => (field.1, plain field.2)).

Lemma reads_member more key value after :
  parseMembers (S more) (quoteJson key ⧺ ":" ⧺ value ⧺ after)
  = ('(v, after') ← parseValue more (value ⧺ after);
     match next "}" after' with
     | Some rest => Some ([(key, v)], rest)
     | None => rest ← next "," after'; '(members, last) ← parseMembers more rest; Some ((key, v) :: members, last)
     end).
Proof.
  unfold quoteJson. rewrite append_String, append_assoc, !append_String. cbn [Json.parseMembers].
  rewrite next_hit by done. cbn [mbind option_bind]. rewrite parseChars_escape. cbn [mbind option_bind].
  change ("" ⧺ ?x) with x. rewrite next_hit by done. done.
Qed.

Lemma reads_members fields :
  Forall (fun field => Reads field.2) fields -> fields <> [] -> forall rest,
  exists fuel, forall more, (fuel <= more)%nat ->
    parseMembers more (joinWith "," (map fieldText fields) ⧺ String "}" rest) = Some (map plainField fields, rest).
Proof.
  intros Hreads Hne rest. induction fields as [|[key j] fields IH]; [done|]. clear Hne.
  inversion Hreads as [|?? Rj Rrest]; subst.
  destruct fields as [|field fields].
  - destruct (Rj (String "}" rest) eq_refl) as [fuel Hf]. exists (S fuel). intros [|more] Hm; [lia|].
    cbn [map joinWith fst snd] in *. rewrite !append_assoc, reads_member, Hf by lia. cbn [mbind option_bind].
    by rewrite next_hit.
  - destruct (IH Rrest ltac:(done)) as [fuel1 H1].
    destruct (Rj ("," ⧺ joinWith "," (map fieldText (field :: fields)) ⧺ String "}" rest) eq_refl) as [fuel2 H2].
    exists (S (max fuel1 fuel2)). intros [|more] Hm; [lia|].
    change (joinWith "," (map fieldText ((key, j) :: field :: fields)))
      with ((quoteJson key ⧺ ":" ⧺ stringify j) ⧺ "," ⧺ joinWith "," (map fieldText (field :: fields))).
    rewrite !append_assoc, reads_member. cbn [snd] in H2. rewrite H2 by lia. cbn [mbind option_bind].
    rewrite append_String, next_miss, next_hit by done. cbn [mbind option_bind].
    change ("" ⧺ ?x) with x. rewrite H1 by lia. done.
Qed.

Lemma objectOf_own fields :
  NoDup (map fst fields) -> Forall (fun field => arrayIndex field.1 = None) fields ->
  objectOf fields = JObject fields.
Proof.
  intros Hnd Hidx. unfold objectOf. change (jsFromEntries fields) with (jsCopy fields). rewrite jsCopy_wf by done.
  f_equal. clear Hnd. set (index := foldr _ [] fields).
  assert (E : index = []).
  { unfold index. induction Hidx as [|field fields Hk _ IH]; [done|]. cbn [foldr]. by rewrite Hk. }
  rewrite E. cbn [map app]. clear E index.
  induction Hidx as [|field fields Hk _ IH]; [done|]. cbn [List.filter]. rewrite bool_decide_true by done. by f_equal.
Qed.

Lemma next_bracket c s rest :
  (exists d r, s = String d r /\ isSpace d = false /\ c <> d) -> next c (s ⧺ rest) = None.
Proof. intros (d & r & -> & Hs & Hne). rewrite append_String. by apply next_miss. Qed.

Lemma joinWith_head sep p parts d r :
  p = String d r -> exists r', joinWith sep (p :: parts) = String d r'.
Proof.
  intros ->. destruct parts as [|p' parts]; [by exists r|]. exists (r ⧺ sep ⧺ joinWith sep (p' :: parts)). done.
Qed.

Lemma reads_array items :
  Forall (fun j => jsonOk j = true) items -> Forall Reads items -> Reads (JArray items).
Proof.
  intros Hok Hreads rest _. cbn [stringify plain]. destruct items as [|j items].
  { exists 1%nat. intros [|more] Hm; [lia|]. done. }
  destruct (reads_elements _ Hok Hreads ltac:(done) rest) as [fuel Hf].
  exists (S fuel). intros [|more] Hm; [lia|]. rewrite append_assoc, append_String, append_assoc.
  change ("" ⧺ ?x) with x. cbn [Json.parseValue]. rewrite (next_miss "{"), next_hit by done.
  rewrite next_bracket.
  2:{ inversion Hok as [|?? Hj _]; subst. destruct (stringify_head j Hj) as (c & r & E & Hs & Hc & _).
      destruct (joinWith_head "," _ (map stringify items) _ _ E) as [r' Er]. exists c, r'. by split_and!. }
  change ("]" ⧺ ?x) with (String "]" x).
  rewrite Hf by lia. done.
Qed.

Lemma reads_object fields :
  jsonOk (JObject fields) = true -> Forall (fun field => Reads field.2) fields -> Reads (JObject fields).
Proof.
  cbn [jsonOk]. intros Hok Hreads rest _. apply andb_prop in Hok as [[Hnd Hidx]%andb_prop _].
  apply bool_decide_eq_true in Hnd. cbn [stringify plain]. destruct fields as [|[key j] fields].
  { exists 1%nat. intros [|more] Hm; [lia|]. done. }
  destruct (reads_members _ Hreads ltac:(done) rest) as [fuel Hf].
  exists (S fuel). intros [|more] Hm; [lia|]. rewrite append_assoc, append_String, append_assoc.
  change ("" ⧺ ?x) with x. cbn [Json.parseValue]. rewrite next_hit by done. rewrite next_bracket.
  2:{ edestruct (joinWith_head "," (quoteJson key ⧺ ":" ⧺ stringify j) (map fieldText fields)) as [r' Er];
        [unfold quoteJson; apply append_String|]. eexists _, r'. cbn [map fst snd]. by split_and!. }
  rewrite append_String. change ("" ⧺ ?x) with x. rewrite Hf by lia. cbn [mbind option_bind].
  rewrite objectOf_own; [done| |].
  - by rewrite map_map.
  - apply Forall_map. apply forallb_Forall in Hidx. eapply Forall_impl; [|exact Hidx].
    intros field Hf'. by apply bool_decide_eq_true in Hf'.
Qed.

Theorem reads_back j : jsonOk j = true -> Reads j.
Proof.
  induction j using Json_nested_ind; intros Hok.
  - apply reads_literal; eauto.
  - apply reads_literal; eauto.
  - by apply reads_number.
  - discriminate Hok.
  - assert (Hb : Reads (JObject [("$bigint", JString (show n))])); [|exact Hb].
    apply reads_object; [done|]. repeat constructor. intros rest _. exists 1%nat. intros [|more] Hm; [lia|].
    apply parseValue_string.
  - intros rest _. exists 1%nat. intros [|more] Hm; [lia|]. apply parseValue_string.
  - cbn in Hok. apply forallb_Forall in Hok. apply reads_array; [done|].
    eapply Forall_impl; [|exact (Forall_and H Hok)]. intros j [Hi Hj]. by apply Hi.
  - apply reads_object; [done|]. cbn in Hok. apply andb_prop in Hok as [_ Hok]. apply forallb_Forall in Hok.
    eapply Forall_impl; [|exact (Forall_and H Hok)]. intros j [Hi Hj]. by apply Hi.
Qed.

Lemma jsonParse_followed j rest :
  jsonOk j = true -> endsValue rest = true -> skipSpace rest = "" ->
  jsonParse numberText (stringify j ⧺ rest) = Returns (plain j).
Proof.
  intros Hok Hrest Hspace. destruct (reads_back j Hok rest Hrest) as [fuel Hf].
  unfold jsonParse. set (need := parseFuel (stringify j ⧺ rest)).
  assert (E : parseValue need (stringify j ⧺ rest) = parseValue (max fuel need) (stringify j ⧺ rest)).
  { apply (parse_enough_fuel numberText); unfold need, parseFuel; lia. }
  rewrite E, Hf by lia. by rewrite Hspace, bool_decide_true.
Qed.

(** [JSON.parse(JSON.stringify(j))] *)
Lemma jsonParse_stringify j : jsonOk j = true -> jsonParse numberText (stringify j) = Returns (plain j).
Proof. intros Hok. rewrite <- (append_empty (stringify j)). by apply jsonParse_followed. Qed.

(** A value on a line of its own. *)
Lemma jsonParse_line j : jsonOk j = true -> jsonParse numberText (stringify j ⧺ String NEWLINE "") = Returns (plain j).
Proof. intros Hok. by apply jsonParse_followed. Qed.
End RoundTrip.

(** Two values with one text are read back as one value. *)
Lemma stringify_inj j j' :
  jsonOk j = true -> jsonOk j' = true -> stringify j = stringify j' -> plain j = plain j'.
Proof.
  intros Hj Hj' E. pose proof (jsonParse_stringify (fun _ _ => "") j Hj) as H.
  rewrite E, jsonParse_stringify in H by done. by injection H.
Qed.

(** ** The reviver *)

Lemma parseDecimal_long d n :
  0 <= n -> jsLength (show n) <= d -> parseDecimal d (show n) = Some n.
Proof.
  intros Hn Hd. destruct (Z.eq_dec n 0) as [->|Hnz]; [done|].
  destruct (show_numeral n ltac:(lia)) as (_ & (c & r & E & Hc) & Hp). specialize (Hp "").
  rewrite append_empty in Hp. rewrite E in *. unfold parseDecimal. rewrite bool_decide_true, Hp by done.
  cbn [parseDigits]. destruct c as [[] [] [] [] [] [] [] []]; done.
Qed.

Lemma parseSign_show n : 0 <= n -> parseSign (show n) = (false, show n).
Proof.
  intros Hn. destruct (show_head n) as (c & r & E & Hc). rewrite E. unfold parseSign. cbn [stripPrefix].
  rewrite bool_decide_false; [done|]. intros <-. destruct Hc as [Hc|Hc]; [done|].
  destruct (Z.eq_dec n 0) as [->|Hnz]; [done|]. destruct (show_numeral n ltac:(lia)) as (Hd & _).
  rewrite E in Hd. done.
Qed.

Lemma parseSigned_show d n :
  jsLength (show (Z.abs n)) <= d -> parseSigned d (show n) = Some n.
Proof.
  intros Hd. unfold parseSigned. destruct (Z.le_gt_cases 0 n) as [Hn|Hn].
  - rewrite parseSign_show by done. rewrite Z.abs_eq in Hd by done. rewrite parseDecimal_long by lia. done.
  - rewrite Z.abs_neq in Hd by lia. replace n with (- - n) by lia. rewrite show_negative by lia.
    change (parseSign ("-" ⧺ show (- n))) with (true, show (- n)).
    cbv beta iota. by rewrite parseDecimal_long by lia.
Qed.

(** Numbers below [10 ^ k] have at most [k] digits. *)
Lemma show_length k n : (0 < k)%nat -> 0 <= n < 10 ^ Z.of_nat k -> jsLength (show n) <= Z.of_nat k.
Proof.
  intros Hk Hn. destruct (parseDecimal_show k n Hk Hn) as [H _]. unfold parseDecimal in H.
  destruct (show n) as [|c r] eqn:E; [done|].
  destruct (bool_decide (jsLength (String c r) <= Z.of_nat k)) eqn:El; [by apply bool_decide_eq_true in El|].
  destruct c as [[] [] [] [] [] [] [] []]; try done.
  destruct r; [cbn; unfold jsLength; cbn; lia|done].
Qed.

Lemma parseSigned_u256 n : Z.abs n < 10 ^ 78 -> parseSigned 78 (show n) = Some n.
Proof. intros Hn. apply parseSigned_show. apply (show_length 78); [lia|]. split; [lia|exact Hn]. Qed.

(** The bigints of a value satisfy [fits], and no object of the value looks like one. *)
Definition looksBigint (fields : list (string * Json)) : bool :=
  match fields with
  | [("$bigint", JString _)] => true
  | _ => false
  end.

Fixpoint bigintsOk (fits : Z -> bool) (j : Json) : bool :=
  match j with
  | JBigint n => fits n
  | JArray items => forallb (bigintsOk fits) items
  | JObject fields => negb (looksBigint fields) && forallb (fun field => bigintsOk fits field.2) fields
  | _ => true
  end.

Section Revive.
Context (digits : string -> Z) (message : string) (fits : Z -> bool).
Context (fits_parse : forall n, fits n = true -> parseSigned (digits (show n)) (show n) = Some n).
Notation reviver := (bigintReviver digits message).

Lemma reviver_array items : reviver (JArray items) = Returns (JArray items).
Proof. done. Qed.

Lemma reviver_object fields : looksBigint fields = false -> reviver (JObject fields) = Returns (JObject fields).
Proof.
  unfold bigintReviver, looksBigint. intros H. destruct fields as [|[key value] fields]; [done|].
  destruct fields; destruct value; try reflexivity;
    repeat (destruct key as [|[[] [] [] [] [] [] [] []] key]; try reflexivity); discriminate H.
Qed.

(** What the replacer wrote the reviver restores. *)
Lemma revive_plain j : bigintsOk fits j = true -> revive reviver (plain j) = Returns j.
Proof.
  induction j using Json_nested_ind; intros Hok; try done.
  - cbn in Hok. unfold plain, bigintObject. cbn [revive mbind outcome_bind].
    change (reviver (JString (show n))) with (Returns (JString (show n))). cbn [mbind outcome_bind].
    unfold bigintReviver. by rewrite fits_parse.
  - cbn [plain revive]. cbn [bigintsOk] in Hok. apply forallb_Forall in Hok.
    match goal with |- (?go (map plain items)) ≫= _ = _ => assert (E : go (map plain items) = Returns items) end.
    { clear -H Hok. induction H as [|j items Hj _ IH]; [done|]. inversion Hok; subst. cbn [map].
      rewrite Hj by done. cbn [mbind outcome_bind]. by rewrite IH. }
    rewrite E. done.
  - cbn [plain revive]. cbn [bigintsOk] in Hok. apply andb_prop in Hok as [Hl Hok].
    apply negb_true_iff in Hl. apply forallb_Forall in Hok.
    match goal with |- (?go (map ?f fields)) ≫= _ = _ => assert (E : go (map f fields) = Returns fields) end.
    { clear -H Hok. induction H as [|[key j] fields Hj _ IH]; [done|]. inversion Hok; subst. cbn [map fst snd].
      cbn [snd] in Hj. rewrite Hj by done. cbn [mbind outcome_bind]. by rewrite IH. }
    rewrite E. cbn [mbind outcome_bind]. by apply reviver_object.
Qed.
End Revive.
