(* ===== verification/ClientSpec.v ===== *)
(** * Any use of one client

    [History] is every sequence of calls on a [ReflectionPilotClient], quotes in
    flight included: a quote is answered whenever the reader answers, with other
    calls before it.  The invariant: whatever fingerprint the client remembers is
    the one of a quote it verified, or of the draft of one. *)
From stdpp Require Import gmap.
From S2P Require Import Prelude JsMap Types MoveDomains JsValue Json SdkTypes Accounting Replay Group WalletHandlers.
From S2P Require Import LpHandlers PoolHandlers LiquidityMath DraftEncoder SafeClient QuoteSpec DraftSpec Ledger.
From S2P Require Import Numerals CursorRoundTrip JsonRoundTrip.

(** ** Fingerprints identify *)

Lemma show_inj (n m : Z) : show n = show m -> n = m.
Proof. apply (inj pretty). Qed.

Lemma directionName_inj d d' : directionName d = directionName d' -> d = d'.
Proof. by destruct d, d'. Qed.

Lemma kindName_inj k k' : kindName k = kindName k' -> k = k'.
Proof. by destruct k, k'. Qed.

Lemma quoteFingerprint_inj q q' :
  q.(Swap.context).(SwapContext.chainId) = CEDRA_TESTNET_CHAIN_ID ->
  q'.(Swap.context).(SwapContext.chainId) = CEDRA_TESTNET_CHAIN_ID ->
  swapQuoteFingerprint q = swapQuoteFingerprint q' -> q = q'.
Proof.
  destruct q as [? ? ? ? ? ? ? ? ? ? ? []], q' as [? ? ? ? ? ? ? ? ? ? ? []]. cbn [Swap.context SwapContext.chainId]. intros -> ->.
  unfold swapQuoteFingerprint. intros E. apply stringify_inj in E; [|reflexivity|reflexivity].
  cbn [plain map Swap.direction Swap.grossAmount Swap.slippageBps Swap.reflectionFee Swap.ammFee Swap.netReserveInput
    Swap.grossPoolOutput Swap.netUserReceipt Swap.minimumNetUserReceipt Swap.priceImpactBps Swap.deadlineUnixSeconds
    Swap.context SwapContext.chainId SwapContext.ledgerVersion SwapContext.deploymentId SwapContext.packageVersion
    SwapContext.inputReserve SwapContext.outputReserve SwapContext.reflectionFeeBps SwapContext.ammFeeBps
    SwapContext.maximumGrossSwap SwapContext.maximumReserveBps] in E.
  injection E as Edir. apply directionName_inj in Edir.
  repeat match goal with H : show _ = show _ |- _ => apply show_inj in H end. by subst.
Qed.

(** On the arguments of one entry; a string and a bigint can print the same. *)
Lemma arguments_inj k f args args' e e' :
  KnownDraft k f args e -> KnownDraft k f args' e' -> map argumentJson args = map argumentJson args' -> args = args'.
Proof.
  intros H H'. destruct H; inversion H'; subst; cbn; try done.
  all: intros [= ]; repeat match goal with H : show _ = show _ |- _ => apply show_inj in H end; by subst.
Qed.

Lemma plain_strings l : map plain (map JString l) = map JString l.
Proof. induction l; cbn; by f_equal. Qed.

Lemma plain_arguments l : map plain (map argumentJson l) = map argumentJson l.
Proof. induction l as [|[] l IH]; cbn; by f_equal. Qed.

Lemma draft_jsonOk d : jsonOk (JArray [
    JString (kindName d.(Draft.kind)); JString d.(Draft.functionId);
    JArray (map argumentJson d.(Draft.arguments)); JArray (map JString d.(Draft.secondarySignerAddresses));
    JString (show d.(Draft.expirationUnixSeconds)); JString d.(Draft.warning)]) = true.
Proof.
  cbn [jsonOk forallb]. rewrite !andb_true_r.
  assert (H1 : forallb jsonOk (map argumentJson d.(Draft.arguments)) = true).
  { generalize d.(Draft.arguments). induction l as [|[] l IH]; cbn; done. }
  assert (H2 : forallb jsonOk (map JString d.(Draft.secondarySignerAddresses)) = true).
  { generalize d.(Draft.secondarySignerAddresses). induction l as [|s l IH]; cbn; done. }
  by rewrite H1, H2.
Qed.

Lemma draftFingerprint_inj d d' :
  DraftOk d -> DraftOk d' -> transactionDraftFingerprint d = transactionDraftFingerprint d' -> d = d'.
Proof.
  intros [Hk Hs _ _] [Hk' Hs' _ _] E. unfold transactionDraftFingerprint in E.
  apply stringify_inj in E; [|apply draft_jsonOk|apply draft_jsonOk].
  cbn [plain map] in E. rewrite !plain_strings, !plain_arguments in E.
  destruct d as [k f args signers e w], d' as [k' f' args' signers' e' w']. cbn in *. subst.
  injection E as Ek Ef Ea Ee Ew. apply kindName_inj in Ek. apply show_inj in Ee. subst.
  f_equal. by eapply arguments_inj.
Qed.

(** ** Drafts the client makes *)

(** The swap a verified quote stands for. *)
Definition swapDraftOf (q : Swap.SwapQuote) : Draft.TransactionDraft :=
  Draft.mk swap
    match q.(Swap.direction) with buy => "test_amm::pool::buy_trfl" | sell => "test_amm::pool::sell_trfl" end
    [ArgBigint q.(Swap.grossAmount); ArgBigint q.(Swap.minimumNetUserReceipt); ArgBigint q.(Swap.deadlineUnixSeconds)]
    [] q.(Swap.deadlineUnixSeconds) TESTNET_NO_VALUE_WARNING.

Lemma carries_own keys fields : Carries keys (JsObject fields) (JsObject fields).
Proof. split; [by eexists|]. by apply List.Forall_forall. Qed.

Lemma assertDraft_value describe d : DraftOk d -> assertCedraTransactionDraft describe (draftValue d) = Returns d.
Proof. intros Hd. apply assertDraft_exact. split; [apply carries_own|done]. Qed.

(** A value is that of one draft. *)
Lemma draftValue_unique d d' : CarriesDraft (draftValue d) d' -> d = d'.
Proof.
  unfold CarriesDraft, draftKeys. rewrite !carries_cons.
  destruct (draft_members d) as (M1 & M2 & M3 & M4 & M5 & M6). destruct (draft_members d') as (N1 & N2 & N3 & N4 & N5 & N6).
  rewrite M1, M2, M3, M4, M5, M6, N1, N2, N3, N4, N5, N6. clear.
  intros (Hk & Hf & Ha & Hs & He & Hw & _). injection Hk as Hk%kindName_inj. injection Hf as Hf. injection Ha as Ha.
  injection Hs as Hs. injection He as He. injection Hw as Hw.
  destruct d as [k f args signers e w], d' as [k' f' args' signers' e' w']. cbn in *. subst. f_equal.
  - revert args' Ha. induction args as [|a args IH]; intros [|a' args'] Ha; try discriminate Ha; [done|]. injection Ha as Ea Ha.
    f_equal; [|by apply IH]. destruct a, a'; cbn in *; congruence.
  - revert signers' Hs. induction signers as [|a l IH]; intros [|a' l'] Hs; try discriminate Hs; [done|]. injection Hs as -> Hs.
    f_equal. by apply IH.
Qed.

(** What [createDraft] returns is a draft of the table. *)
Lemma createDraft_returns describe k f args expiration clock d :
  createDraft describe k f args expiration clock = Returns d ->
  exists e, d = Draft.mk k f args [] e TESTNET_NO_VALUE_WARNING /\ DraftOk d
    /\ from_option Returns (defaultExpiration clock) expiration = Returns e.
Proof.
  unfold createDraft. intros E. apply outcome_bind_iff in E as (e & Ee & E).
  apply outcome_bind_iff in E as (e' & Ee' & E). apply assertUnsigned_returns in Ee' as [[= ->] _].
  apply outcome_bind_iff in E as ([] & _ & E). apply outcome_bind_iff in E as (d' & Ed & [= <-]).
  apply assertDraft_exact in Ed as [Hc Hd]. apply draftValue_unique in Hc as <-. by exists e'.
Qed.

Lemma createDraft_ok describe k f args e clock :
  DraftOk (Draft.mk k f args [] e TESTNET_NO_VALUE_WARNING) ->
  createDraft describe k f args (Some e) clock = Returns (Draft.mk k f args [] e TESTNET_NO_VALUE_WARNING).
Proof.
  intros Hd. pose proof (draft_expiration _ Hd) as He. cbn in He. unfold Positive in He. unfold createDraft. cbn [from_option mbind outcome_bind].
  rewrite assertUnsigned_value by (unfold Unsigned; lia). cbn [mbind outcome_bind].
  rewrite bool_decide_false by lia. cbn [mbind outcome_bind]. by rewrite assertDraft_value.
Qed.

Lemma swapDraft_ok now q : 0 <= now -> Verified now q -> DraftOk (swapDraftOf q).
Proof.
  intros Hnow [Hd Hw _ [Hg _ _ _ _ _ _ Hm _] _]. unfold Unsigned, Positive in *.
  split; [|done|unfold Positive; cbn; lia|done]. unfold swapDraftOf. cbn. destruct (Swap.direction q); by constructor.
Qed.

(** The draft of a verified quote, in the words of [createSwapDraft]. *)
Lemma createDraft_swap describe now q clock :
  0 <= now -> Verified now q ->
  createDraft describe swap
    (if bool_decide (q.(Swap.direction) = buy) then "test_amm::pool::buy_trfl" else "test_amm::pool::sell_trfl")
    [ArgBigint q.(Swap.grossAmount); ArgBigint q.(Swap.minimumNetUserReceipt); ArgBigint q.(Swap.deadlineUnixSeconds)]
    (Some q.(Swap.deadlineUnixSeconds)) clock = Returns (swapDraftOf q).
Proof.
  intros Hnow Hq. replace (if bool_decide _ then _ else _) with (swapDraftOf q).(Draft.functionId) by (unfold swapDraftOf; cbn; by destruct (Swap.direction q)).
  by apply createDraft_ok, (swapDraft_ok now).
Qed.

(** ** Histories *)

(** The quotes a client verified, each with the request it answers. *)
Definition Trace : Type := list (Request.QuoteRequest * Swap.SwapQuote).

Definition withAnswer (request : Request.QuoteRequest) (o : Outcome (nat * Swap.SwapQuote)) (trace : Trace) : Trace :=
  match o with Returns (_, q) => (request, q) :: trace | Throws _ => trace end.

Section History.
Context (describe : JsValue -> string) (writer : option (Draft.TransactionDraft -> Outcome Submitted.SubmittedTransaction)).
Implicit Types c : Client.ReflectionPilotClient.

(** The other methods do not change the client. *)
Inductive History : Trace -> Client.ReflectionPilotClient -> Prop :=
| History_new : History [] newClient
| History_quote trace c input clock request answer laterClock o c' :
    History trace c -> quoteSwapRequest input clock = Returns request ->
    quoteSwapAnswer request answer laterClock c = (o, c') -> History (withAnswer request o trace) c'
| History_swapDraft trace c quote clock o c' :
    History trace c -> createSwapDraft describe quote clock c = (o, c') -> History trace c'
| History_submit trace c draft clock o c' :
    History trace c -> submit describe writer draft clock c = (o, c') -> History trace c'.

(** A quote of the trace answers its request, and was verified at some time. *)
Definition Answers (request : Request.QuoteRequest) (q : Swap.SwapQuote) : Prop :=
  q.(Swap.direction) = request.(Request.direction) /\ q.(Swap.grossAmount) = request.(Request.grossAmount)
  /\ q.(Swap.slippageBps) = request.(Request.slippageBps)
  /\ q.(Swap.deadlineUnixSeconds) = request.(Request.deadlineUnixSeconds)
  /\ exists now, 0 <= now /\ Verified now q.

(** A draft the writer may be handed: one of the table, and when it swaps, that
    of a quote of the trace. *)
Definition Sendable (trace : Trace) (d : Draft.TransactionDraft) : Prop :=
  DraftOk d /\ (d.(Draft.kind) = swap -> exists request q, (request, q) ∈ trace /\ d = swapDraftOf q).

Record ClientOk (trace : Trace) c : Prop := {
  client_trace : forall request q, (request, q) ∈ trace -> Answers request q;
  client_quotes : forall object fingerprint, c.(Client.verifiedSwapQuotes) !! object = Some fingerprint ->
    exists request q, (request, q) ∈ trace /\ fingerprint = swapQuoteFingerprint q;
  client_drafts : forall object fingerprint, c.(Client.verifiedSwapDrafts) !! object = Some fingerprint ->
    exists request q, (request, q) ∈ trace /\ fingerprint = transactionDraftFingerprint (swapDraftOf q);
  client_sent : Forall (fun entry => Sendable trace entry.2) c.(Client.sent)
}.

(** ** What each method does to the client *)

Lemma currentTime_returns clock now : currentTime clock = Returns now <-> clock = JsBigint now /\ Unsigned U64_MAX now.
Proof. apply assertUnsigned_returns. Qed.

(** An answered quote is verified and remembered; a refused one leaves no trace. *)
Definition remembered (q : Swap.SwapQuote) c : Client.ReflectionPilotClient :=
  c <| Client.allocated := Datatypes.S c.(Client.allocated) |>
    <| Client.verifiedSwapQuotes := <[c.(Client.allocated) := swapQuoteFingerprint q]> c.(Client.verifiedSwapQuotes) |>.

Definition AnswersAt (now : Z) (request : Request.QuoteRequest) (q : Swap.SwapQuote) : Prop :=
  q.(Swap.direction) = request.(Request.direction) /\ q.(Swap.grossAmount) = request.(Request.grossAmount)
  /\ q.(Swap.slippageBps) = request.(Request.slippageBps)
  /\ q.(Swap.deadlineUnixSeconds) = request.(Request.deadlineUnixSeconds) /\ 0 <= now /\ Verified now q.

Lemma quoteSwapAnswer_cases request answer clock c o c' :
  quoteSwapAnswer request answer clock c = (o, c') ->
  (exists e, o = Throws e /\ c' = c)
  \/ exists v now q, answer = Returns v /\ clock = JsBigint now /\ CarriesQuote v q /\ AnswersAt now request q
       /\ o = Returns (c.(Client.allocated), q) /\ c' = remembered q c.
Proof.
  unfold quoteSwapAnswer. intros E. unfold mbind, task_bind, evaluate in E.
  destruct answer as [v|e]; [|injection E as <- <-; left; by eexists].
  destruct (currentTime clock) as [now|e] eqn:En; [|injection E as <- <-; left; by eexists].
  apply currentTime_returns in En as [-> [Hnow _]].
  destruct (assertSwapQuote v now) as [q|e] eqn:Eq; [|injection E as <- <-; left; by eexists].
  apply assertSwapQuote_returns in Eq as [Hv Hq]. unfold unlessThrow in E.
  destruct (_ && _) eqn:Em in E; [|injection E as <- <-; left; by eexists]. bools.
  injection E as <- <-. right. exists v, now, q. unfold AnswersAt. auto 20.
Qed.

(** What [createSwapDraft] leaves. *)
Definition issued (q : Swap.SwapQuote) c : Client.ReflectionPilotClient :=
  c <| Client.allocated := Datatypes.S c.(Client.allocated) |>
    <| Client.verifiedSwapDrafts :=
         <[c.(Client.allocated) := transactionDraftFingerprint (swapDraftOf q)]> c.(Client.verifiedSwapDrafts) |>.

Lemma createSwapDraft_cases quote clock c o c' :
  createSwapDraft describe quote clock c = (o, c') ->
  (exists e, o = Throws e /\ c' = c)
  \/ exists now q, clock = JsBigint now /\ 0 <= now /\ Verified now q
       /\ c.(Client.verifiedSwapQuotes) !! quote.(Handle.identity) = Some (swapQuoteFingerprint q)
       /\ o = Returns (c.(Client.allocated), swapDraftOf q) /\ c' = issued q c.
Proof.
  unfold createSwapDraft. intros E. erewrite task_bind_eq in E by reflexivity.
  destruct (Client.verifiedSwapQuotes c !! _) as [fingerprint|] eqn:Ef; [|injection E as <- <-; left; by eexists].
  unfold mbind, task_bind, evaluate in E. destruct (currentTime clock) as [now|e] eqn:En; [|injection E as <- <-; left; by eexists].
  apply currentTime_returns in En as [-> [Hnow _]].
  destruct (assertSwapQuote _ now) as [q|e] eqn:Eq; [|injection E as <- <-; left; by eexists].
  apply assertSwapQuote_returns in Eq as [_ Hq]. unfold unlessThrow in E. case_bool_decide as Efp; [|injection E as <- <-; left; by eexists].
  rewrite (createDraft_swap describe now q (JsBigint now) Hnow Hq) in E. injection E as <- <-.
  right. exists now, q. subst. auto 10.
Qed.

(** A submission is refused with no effect, or the writer is handed the draft. *)
Lemma submit_cases draft clock c o c' :
  submit describe writer draft clock c = (o, c') ->
  (exists e, o = Throws e /\ c' = c)
  \/ exists d write, writer = Some write /\ CarriesDraft draft.(Handle.contents) d /\ DraftOk d
       /\ (d.(Draft.kind) = swap ->
            c.(Client.verifiedSwapDrafts) !! draft.(Handle.identity) = Some (transactionDraftFingerprint d)
            /\ exists now, clock = JsBigint now /\ 0 <= now < d.(Draft.expirationUnixSeconds))
       /\ o = write d /\ c' = c <| Client.sent := (draft.(Handle.identity), d) :: c.(Client.sent) |>.
Proof.
  unfold submit. intros E. unfold mbind, task_bind, evaluate, getState, unlessThrow, mret, task_ret in E.
  destruct (assertCedraTransactionDraft _ _) as [d|e] eqn:Ed; [|injection E as <- <-; left; by eexists].
  apply assertDraft_exact in Ed as [Hc Hd]. rewrite (draft_single d Hd) in E. cbn [arrayLength length Z.of_nat Z.leb] in E.
  case_bool_decide as Ek.
  - case_bool_decide as Ef; [|injection E as <- <-; left; by eexists].
    destruct (currentTime clock) as [now|e] eqn:En; [|injection E as <- <-; left; by eexists].
    apply currentTime_returns in En as [-> [Hnow _]].
    case_bool_decide as Ex; [|injection E as <- <-; left; by eexists].
    destruct writer as [write|]; injection E as <- <-; [right; exists d, write; eauto 20|left; by eexists].
  - destruct writer as [write|]; injection E as <- <-; [right; exists d, write; done|left; by eexists].
Qed.

(** ** The invariant *)

Lemma sendable_mono trace entry d : Sendable trace d -> Sendable (entry :: trace) d.
Proof. intros [Hd Hs]. split; [done|]. intros Hk. destruct (Hs Hk) as (request & q & Hin & ->). exists request, q. by split; [right|]. Qed.

Lemma ok_quote trace c request answer clock o c' :
  ClientOk trace c -> quoteSwapAnswer request answer clock c = (o, c') -> ClientOk (withAnswer request o trace) c'.
Proof.
  intros Hc E. apply quoteSwapAnswer_cases in E as [(e & -> & ->)|(v & now & q & _ & _ & _ & Ha & -> & ->)]; [done|].
  destruct Hc as [Ht Hq Hd Hs]. unfold AnswersAt in Ha. split.
  - intros request' q' [[= -> ->]|Hin]%elem_of_cons; [|by apply Ht]. unfold Answers. intuition eauto.
  - intros object fingerprint. cbn. rewrite lookup_insert_Some. intros [[_ <-]|[_ Hl]].
    + exists request, q. by split; [left|].
    + apply Hq in Hl as (request' & q' & Hin & ->). exists request', q'. by split; [right|].
  - intros object fingerprint Hl. apply Hd in Hl as (request' & q' & Hin & ->). exists request', q'. by split; [right|].
  - eapply Forall_impl; [|exact Hs]. intros entry. apply sendable_mono.
Qed.

(** The quote a fingerprint of the client stands for is one of the trace. *)
Lemma known_quote trace c object now q :
  ClientOk trace c -> Verified now q -> c.(Client.verifiedSwapQuotes) !! object = Some (swapQuoteFingerprint q) ->
  exists request, (request, q) ∈ trace.
Proof.
  intros Hc Hq Hl. apply (client_quotes _ _ Hc) in Hl as (request & q' & Hin & E).
  destruct (client_trace _ _ Hc _ _ Hin) as (_ & _ & _ & _ & now' & _ & Hq').
  apply quoteFingerprint_inj in E as <-; [by exists request|apply Hq|apply Hq'].
Qed.

Lemma ok_swapDraft trace c quote clock o c' :
  ClientOk trace c -> createSwapDraft describe quote clock c = (o, c') -> ClientOk trace c'.
Proof.
  intros Hc E. apply createSwapDraft_cases in E as [(e & -> & ->)|(now & q & -> & _ & Hq & Hl & -> & ->)]; [done|].
  destruct (known_quote _ _ _ _ _ Hc Hq Hl) as [request Hin]. destruct Hc as [Ht Hqs Hd Hs]. split; try done.
  intros object fingerprint. cbn. rewrite lookup_insert_Some. intros [[_ <-]|[_ Hl']]; [|by apply Hd in Hl'].
  by exists request, q.
Qed.

(** A swap the writer is handed is that of a quote of the trace. *)
Lemma known_draft trace c object d :
  ClientOk trace c -> DraftOk d -> c.(Client.verifiedSwapDrafts) !! object = Some (transactionDraftFingerprint d) ->
  exists request q, (request, q) ∈ trace /\ d = swapDraftOf q.
Proof.
  intros Hc Hd Hl. apply (client_drafts _ _ Hc) in Hl as (request & q & Hin & E).
  destruct (client_trace _ _ Hc _ _ Hin) as (_ & _ & _ & _ & now & Hnow & Hq).
  apply draftFingerprint_inj in E as ->; [by exists request, q|done|by eapply swapDraft_ok].
Qed.

Lemma ok_submit trace c draft clock o c' :
  ClientOk trace c -> submit describe writer draft clock c = (o, c') -> ClientOk trace c'.
Proof.
  intros Hc E. apply submit_cases in E as [(e & -> & ->)|(d & write & _ & _ & Hd & Hswap & _ & ->)]; [done|].
  pose proof (known_draft trace c draft.(Handle.identity) d Hc Hd) as Hk. destruct Hc as [Ht Hq Hds Hs]. split; try done.
  cbn. constructor; [|done]. split; [done|]. intros Ek. by apply Hk, Hswap.
Qed.

Lemma ok_client_history trace c : History trace c -> ClientOk trace c.
Proof.
  induction 1.
  - split; [by intros ? ? ?%elem_of_nil|by intros ? ?|by intros ? ?|constructor].
  - by eapply ok_quote.
  - by eapply ok_swapDraft.
  - by eapply ok_submit.
Qed.
End History.
