(* ===== verification/FinalizedAdapter.v ===== *)
(** * The production adapter: [packages/protocol-sdk/src/finalized-read-adapter.ts]

    Each operation reads one ledger header, checks the identity of the deployment
    at that version, and reads the views it needs there.  The official SDK's
    client is a parameter: [getLedgerInfo] and [viewJson] are what it answers
    during the operation; the views asked for are recorded in order.  [race] is
    which of several rejections a [Promise.all] fails with, and [decodeUtf8] the
    platform's fatal [TextDecoder].  Inputs are at their declared types, so the
    guards that only reject other types have no branch here. *)
From S2P Require Import Prelude JsMap Types MoveDomains JsValue SdkTypes Accounting Replay Group WalletHandlers.
From S2P Require Import LpHandlers PoolHandlers DraftEncoder.

Module ViewRequest.
Record ViewRequest := mk {
  function : string;
  functionArguments : list JsValue;
  ledgerVersion : Z
}.
End ViewRequest.

Module Addresses.
Record ManifestAddresses := mk {
  tokenMetadata : Address;
  mockUsdMetadata : Address;
  rewardVault : Address;
  distributionVault : Address;
  pool : Address;
  poolRflReserveStore : Address;
  poolUsdReserveStore : Address
}.
End Addresses.

Module Manifest.
Record FinalizedProtocolManifest := mk {
  networkLabel : string;
  chainId : Z;
  deploymentId : string;
  packageVersion : string;
  finalizedLedgerVersion : Z;
  packages : Modules.ProtocolModuleAddresses;
  addresses : Addresses.ManifestAddresses
}.
End Manifest.

Module Pinned.
Record PinnedLedger := mk {
  chainId : Z;
  version : Z;
  timestampUnixSeconds : Z
}.
End Pinned.

Module Identity.
Record ValidatedIdentity := mk {
  chainId : Z;
  version : Z;
  timestampUnixSeconds : Z;
  packageVersion : string
}.
End Identity.

Definition ManifestIdentityMismatchError (field expected observed : string) : JsError :=
  mkError "ManifestIdentityMismatchError"
    ("Finalized deployment identity mismatch for " ⧺ field ⧺ ": expected " ⧺ expected ⧺ ", observed " ⧺ observed).
Definition MalformedMoveViewError (functionId detail : string) : JsError :=
  mkError "MalformedMoveViewError" ("Malformed Move view " ⧺ functionId ⧺ ": " ⧺ detail).

Definition LEDGER_TIMESTAMP_MICROSECONDS : Z := 1000000.

(** ** [Promise.all]

    Every task is started; the combination returns the tuple of results, or
    fails with one of the errors. *)
Definition All (S A : Type) : Type := S -> (A + list JsError) * S.

Definition start {S A} (m : Task S A) : All S A := fun s =>
  match m s with (Returns a, s') => (inl a, s') | (Throws e, s') => (inr [e], s') end.

Definition beside {S A B} (x : All S A) (m : Task S B) : All S (A * B) := fun s =>
  let '(a, s1) := x s in
  let '(b, s2) := m s1 in
  (match a, b with
   | inl a, Returns b => inl (a, b)
   | inl _, Throws e => inr [e]
   | inr es, Returns _ => inr es
   | inr es, Throws e => inr (es ++ [e])
   end, s2).

Definition promiseAll {S A} (race : list JsError -> JsError) (x : All S A) : Task S A := fun s =>
  match x s with (inl a, s') => (Returns a, s') | (inr es, s') => (Throws (race es), s') end.

Infix "&&&" := beside (at level 40, left associativity) : js_scope.

Module Finalized.

(** ** Fields of a view's answer *)

Definition canonicalAddress (value : JsValue) (field : string) : Outcome Address :=
  let invalid := Throws (TypeError (field ⧺ " must be a 0x-prefixed hexadecimal address")) in
  match value with
  | JsString s =>
      match stripPrefix "0x" s with
      | Some hex =>
          if bool_decide (hex <> "") && allChars isHexDigit hex then
            let stripped := mapChars lowerChar (stripZeros hex) in
            let digits := if bool_decide (stripped = "") then "0" else stripped in
            if bool_decide (jsLength digits > 64) then Throws (RangeError (field ⧺ " exceeds a 32-byte address"))
            else Returns ("0x" ⧺ digits)
          else invalid
      | None => invalid
      end
  | _ => invalid
  end.

Definition nonzeroAddress (value : Address) (field : string) : Outcome Address :=
  canonical ← canonicalAddress (JsString value) field;
  if bool_decide (canonical = "0x0") then Throws (TypeError (field ⧺ " must not be the zero address"))
  else Returns canonical.

Definition objectAddress (value : JsValue) (functionId : string) : Outcome Address :=
  match value with
  | JsString _ => canonicalAddress value functionId
  | JsObject fields =>
      match jsGet "inner" fields with
      | Some inner => canonicalAddress inner functionId
      | None => Throws (MalformedMoveViewError functionId "expected an object address")
      end
  | _ => Throws (MalformedMoveViewError functionId "expected an object address")
  end.

Definition unsigned (value : JsValue) (bits : MoveWidth) (functionId : string) : Outcome Z :=
  let malformed := Throws (MalformedMoveViewError functionId ("expected a decimal u" ⧺ show (widthBits bits))) in
  parsed ← match value with
           | JsBigint n => Returns n
           | JsString s =>
               if isNumeral s then from_option Returns malformed (parseDigits 0 s) else malformed
           | JsNumber (Some n) => if isSafeInteger n && bool_decide (0 <= n) then Returns n else malformed
           | _ => malformed
           end;
  if bool_decide (parsed < 0) || bool_decide (parsed > widthMax bits)
  then Throws (MalformedMoveViewError functionId ("value is outside u" ⧺ show (widthBits bits)))
  else Returns parsed.

Definition boolean (value : JsValue) (functionId : string) : Outcome bool :=
  match value with
  | JsBoolean b => Returns b
  | _ => Throws (MalformedMoveViewError functionId "expected a boolean")
  end.

Definition lifecycle (value : JsValue) (functionId : string) : Outcome ProtocolLifecycle :=
  code ← unsigned value U8 functionId;
  if bool_decide (code = 0) then Returns CONFIGURING
  else if bool_decide (code = 1) then Returns LIVE
  else if bool_decide (code = 2) then Returns CLOSED
  else Throws (MalformedMoveViewError functionId "expected lifecycle code 0, 1, or 2").

Definition utf8Vector (decodeUtf8 : list Z -> option string) (value : JsValue) (functionId : string) : Outcome string :=
  let malformed := Throws (MalformedMoveViewError functionId "expected vector<u8> as hex or byte array") in
  bytes ← match value with
          | JsString s =>
              match stripPrefix "0x" s ≫= hexBytes with Some bytes => Returns bytes | None => malformed end
          | JsArray items => from_option Returns malformed (byteArray items)
          | _ => malformed
          end;
  match decodeUtf8 bytes with
  | Some text => Returns text
  | None => Throws (MalformedMoveViewError functionId "vector<u8> is not valid UTF-8")
  end.

(** [values[index]] *)
Definition at_index (values : list JsValue) (index : nat) : JsValue := default JsUndefined (nth_error values index).

(** ** The manifest *)

Definition unlessType (condition : bool) (message : string) : Outcome unit :=
  if condition then Returns tt else Throws (TypeError message).

Definition assertManifest (manifest : Manifest.FinalizedProtocolManifest) : Outcome unit :=
  let packages := manifest.(Manifest.packages) in
  let addresses := manifest.(Manifest.addresses) in
  unlessType (bool_decide (manifest.(Manifest.networkLabel) = "cedra-testnet"))
    "finalized manifest networkLabel must be cedra-testnet" ;;
  unlessType (bool_decide (manifest.(Manifest.chainId) = CEDRA_TESTNET_CHAIN_ID))
    "finalized manifest chainId must be Cedra Testnet chain 2" ;;
  unlessType (negb (bool_decide (jsLength manifest.(Manifest.deploymentId) = 0)))
    "manifest deploymentId must not be empty" ;;
  unlessType (isPackageVersion manifest.(Manifest.packageVersion))
    "manifest packageVersion must be testnet-vMAJOR.MINOR.PATCH" ;;
  finalized ← unsigned (JsBigint manifest.(Manifest.finalizedLedgerVersion)) U64 "manifest.finalizedLedgerVersion";
  unlessType (negb (bool_decide (finalized = 0))) "manifest finalizedLedgerVersion must be greater than zero" ;;
  core ← nonzeroAddress packages.(Modules.reflectionCore) "manifest.packages.reflectionCore";
  assets ← nonzeroAddress packages.(Modules.testAssets) "manifest.packages.testAssets";
  amm ← nonzeroAddress packages.(Modules.testAmm) "manifest.packages.testAmm";
  unlessType (bool_decide (NoDup [core; assets; amm])) "manifest package publishers must be distinct" ;;
  nonzeroAddress addresses.(Addresses.tokenMetadata) "manifest.addresses.tokenMetadata" ;;
  nonzeroAddress addresses.(Addresses.mockUsdMetadata) "manifest.addresses.mockUsdMetadata" ;;
  nonzeroAddress addresses.(Addresses.rewardVault) "manifest.addresses.rewardVault" ;;
  nonzeroAddress addresses.(Addresses.distributionVault) "manifest.addresses.distributionVault" ;;
  pool ← nonzeroAddress addresses.(Addresses.pool) "manifest.addresses.pool";
  rflReserve ← nonzeroAddress addresses.(Addresses.poolRflReserveStore) "manifest.addresses.poolRflReserveStore";
  usdReserve ← nonzeroAddress addresses.(Addresses.poolUsdReserveStore) "manifest.addresses.poolUsdReserveStore";
  unlessType (negb (bool_decide (rflReserve = usdReserve))) "manifest pool reserve stores must be distinct" ;;
  unlessType (bool_decide (pool = amm)) "manifest pool address must equal the immutable test-AMM publisher address".

Definition expectSameAddress (field : string) (expected observed : Address) : Outcome unit :=
  canonicalExpected ← canonicalAddress (JsString expected) field;
  if bool_decide (canonicalExpected = observed) then Returns tt
  else Throws (ManifestIdentityMismatchError field canonicalExpected observed).

Definition expectText (field expected observed : string) : Outcome unit :=
  if bool_decide (expected = observed) then Returns tt
  else Throws (ManifestIdentityMismatchError field expected observed).

Definition copyManifest (manifest : Manifest.FinalizedProtocolManifest) : Outcome Manifest.FinalizedProtocolManifest :=
  let packages := manifest.(Manifest.packages) in
  let addresses := manifest.(Manifest.addresses) in
  core ← nonzeroAddress packages.(Modules.reflectionCore) "manifest.packages.reflectionCore";
  assets ← nonzeroAddress packages.(Modules.testAssets) "manifest.packages.testAssets";
  amm ← nonzeroAddress packages.(Modules.testAmm) "manifest.packages.testAmm";
  tokenMetadata ← nonzeroAddress addresses.(Addresses.tokenMetadata) "manifest.addresses.tokenMetadata";
  mockUsdMetadata ← nonzeroAddress addresses.(Addresses.mockUsdMetadata) "manifest.addresses.mockUsdMetadata";
  rewardVault ← nonzeroAddress addresses.(Addresses.rewardVault) "manifest.addresses.rewardVault";
  distributionVault ← nonzeroAddress addresses.(Addresses.distributionVault) "manifest.addresses.distributionVault";
  pool ← nonzeroAddress addresses.(Addresses.pool) "manifest.addresses.pool";
  rflReserve ← nonzeroAddress addresses.(Addresses.poolRflReserveStore) "manifest.addresses.poolRflReserveStore";
  usdReserve ← nonzeroAddress addresses.(Addresses.poolUsdReserveStore) "manifest.addresses.poolUsdReserveStore";
  Returns (Manifest.mk manifest.(Manifest.networkLabel) manifest.(Manifest.chainId) manifest.(Manifest.deploymentId)
    manifest.(Manifest.packageVersion) manifest.(Manifest.finalizedLedgerVersion) (Modules.mk core assets amm)
    (Addresses.mk tokenMetadata mockUsdMetadata rewardVault distributionVault pool rflReserve usdReserve)).

(** The constructor: the manifest the adapter keeps. *)
Definition newAdapter (manifest : Manifest.FinalizedProtocolManifest) : Outcome Manifest.FinalizedProtocolManifest :=
  assertManifest manifest ;; copyManifest manifest.

(** ** The adapter of one manifest *)

Section Adapter.
Context (decodeUtf8 : list Z -> option string) (race : list JsError -> JsError).
Context (getLedgerInfo : Outcome JsValue) (viewJson : ViewRequest.ViewRequest -> Outcome (list JsValue)).
Context (manifest : Manifest.FinalizedProtocolManifest).

#[local] Notation Method := (Task (list ViewRequest.ViewRequest)).
#[local] Notation core := manifest.(Manifest.packages).(Modules.reflectionCore).
#[local] Notation assets := manifest.(Manifest.packages).(Modules.testAssets).
#[local] Notation amm := manifest.(Manifest.packages).(Modules.testAmm).

Definition viewId (publisher : Address) (moduleName functionName : string) : string :=
  publisher ⧺ "::" ⧺ moduleName ⧺ "::" ⧺ functionName.

Definition view (ledgerVersion : Z) (publisher : Address) (moduleName functionName : string)
    (functionArguments : list JsValue) : Method (list JsValue) := fun issued =>
  let request := ViewRequest.mk (viewId publisher moduleName functionName) functionArguments ledgerVersion in
  (viewJson request, issued ++ [request]).

Definition scalar (ledgerVersion : Z) (publisher : Address) (moduleName functionName : string)
    (functionArguments : list JsValue) : Method JsValue :=
  values ← view ledgerVersion publisher moduleName functionName functionArguments;
  unlessThrow (bool_decide (arrayLength values = 1))
    (MalformedMoveViewError (viewId publisher moduleName functionName)
       ("expected 1 return value, received " ⧺ show (arrayLength values))) ;;
  mret (at_index values 0).

Definition tuple (ledgerVersion : Z) (publisher : Address) (moduleName functionName : string)
    (functionArguments : list JsValue) (length : Z) : Method (list JsValue) :=
  values ← view ledgerVersion publisher moduleName functionName functionArguments;
  unlessThrow (bool_decide (arrayLength values = length))
    (MalformedMoveViewError (viewId publisher moduleName functionName)
       ("expected " ⧺ show length ⧺ " return values, received " ⧺ show (arrayLength values))) ;;
  mret values.

Definition pinLedger : Outcome Pinned.PinnedLedger :=
  header ← getLedgerInfo;
  chain ← readMember header "chain_id";
  chainId ← unsigned chain U64 "ledger_info::chain_id";
  (if bool_decide (chainId = manifest.(Manifest.chainId)) then Returns tt
   else Throws (ManifestIdentityMismatchError "chainId" (show manifest.(Manifest.chainId)) (show chainId))) ;;
  version ← unsigned (member header "ledger_version") U64 "ledger_info::ledger_version";
  timestamp ← unsigned (member header "ledger_timestamp") U64 "ledger_info::ledger_timestamp";
  (if bool_decide (version < manifest.(Manifest.finalizedLedgerVersion))
   then Throws (ManifestIdentityMismatchError "finalizedLedgerVersion"
     (show manifest.(Manifest.finalizedLedgerVersion)) (show version)) else Returns tt) ;;
  Returns (Pinned.mk CEDRA_TESTNET_CHAIN_ID version (Z.quot timestamp LEDGER_TIMESTAMP_MICROSECONDS)).

Definition packageVersionOf (release : list JsValue) : Outcome string :=
  let label := viewId core "reflection_registry" "release_version" in
  major ← unsigned (at_index release 0) U64 label;
  minor ← unsigned (at_index release 1) U64 label;
  patch ← unsigned (at_index release 2) U64 label;
  Returns ("testnet-v" ⧺ show major ⧺ "." ⧺ show minor ⧺ "." ⧺ show patch).

(** The checks of [pinAndValidateIdentity] on the answers, in order. *)
Definition validateIdentity (stateObject deployment network : JsValue) (release : list JsValue)
    (token reward distribution mockUsd poolRflReserve poolUsdReserve boundUsdReserve : JsValue) : Outcome string :=
  let addresses := manifest.(Manifest.addresses) in
  state ← canonicalAddress stateObject (viewId core "reflection_registry" "state_object");
  expectSameAddress "packages.reflectionCore" core state ;;
  deploymentId ← utf8Vector decodeUtf8 deployment (viewId core "reflection_registry" "deployment_id");
  expectText "deploymentId" manifest.(Manifest.deploymentId) deploymentId ;;
  networkLabel ← utf8Vector decodeUtf8 network (viewId core "reflection_registry" "network_label");
  expectText "networkLabel" manifest.(Manifest.networkLabel) networkLabel ;;
  packageVersion ← packageVersionOf release;
  expectText "packageVersion" manifest.(Manifest.packageVersion) packageVersion ;;
  tokenMetadata ← objectAddress token (viewId core "reflection_token" "metadata");
  expectSameAddress "addresses.tokenMetadata" addresses.(Addresses.tokenMetadata) tokenMetadata ;;
  rewardVault ← objectAddress reward (viewId core "reflection_token" "reward_vault");
  expectSameAddress "addresses.rewardVault" addresses.(Addresses.rewardVault) rewardVault ;;
  distributionVault ← objectAddress distribution (viewId core "reflection_token" "distribution_vault");
  expectSameAddress "addresses.distributionVault" addresses.(Addresses.distributionVault) distributionVault ;;
  mockUsdMetadata ← objectAddress mockUsd (viewId assets "mock_usd" "metadata");
  expectSameAddress "addresses.mockUsdMetadata" addresses.(Addresses.mockUsdMetadata) mockUsdMetadata ;;
  observedRflReserve ← objectAddress poolRflReserve (viewId amm "pool" "rfl_reserve_store");
  observedPoolUsdReserve ← objectAddress poolUsdReserve (viewId amm "pool" "usd_reserve_store");
  observedBoundUsdReserve ← canonicalAddress boundUsdReserve (viewId assets "mock_usd" "pool_reserve");
  expectSameAddress "addresses.poolRflReserveStore" addresses.(Addresses.poolRflReserveStore) observedRflReserve ;;
  expectSameAddress "addresses.poolUsdReserveStore" addresses.(Addresses.poolUsdReserveStore) observedPoolUsdReserve ;;
  expectSameAddress "addresses.poolUsdReserveStore/mock_usd.pool_reserve" addresses.(Addresses.poolUsdReserveStore)
    observedBoundUsdReserve ;;
  Returns packageVersion.

Definition pinAndValidateIdentity : Method Identity.ValidatedIdentity :=
  ledger ← evaluate pinLedger;
  let version := ledger.(Pinned.version) in
  '(stateObject, deployment, network, release, token, reward, distribution, mockUsd, poolRflReserve, poolUsdReserve,
    boundUsdReserve) ← promiseAll race
      (start (scalar version core "reflection_registry" "state_object" [])
       &&& scalar version core "reflection_registry" "deployment_id" []
       &&& scalar version core "reflection_registry" "network_label" []
       &&& tuple version core "reflection_registry" "release_version" [] 3
       &&& scalar version core "reflection_token" "metadata" []
       &&& scalar version core "reflection_token" "reward_vault" []
       &&& scalar version core "reflection_token" "distribution_vault" []
       &&& scalar version assets "mock_usd" "metadata" []
       &&& scalar version amm "pool" "rfl_reserve_store" []
       &&& scalar version amm "pool" "usd_reserve_store" []
       &&& scalar version assets "mock_usd" "pool_reserve" []);
  packageVersion ← evaluate (validateIdentity stateObject deployment network release token reward distribution mockUsd
    poolRflReserve poolUsdReserve boundUsdReserve);
  mret (Identity.mk ledger.(Pinned.chainId) version ledger.(Pinned.timestampUnixSeconds) packageVersion).

(** The snapshot [readPoolAt] makes of the four views. *)
Definition poolSnapshotOf (ledgerVersion : Z) (reserves limits liquidity : list JsValue) (lifecycleRaw : JsValue)
    : Outcome PoolView.PoolSnapshot :=
  let limitsId := viewId amm "pool" "limits" in
  let liquidityId := viewId amm "pool" "liquidity_limits" in
  let reservesId := viewId amm "pool" "reserves_view" in
  poolLifecycle ← lifecycle lifecycleRaw (viewId amm "pool" "lifecycle");
  ammFeeBps ← unsigned (at_index limits 0) U64 limitsId;
  maximumReserveBps ← unsigned (at_index limits 1) U64 limitsId;
  maximumGrossSwap ← unsigned (at_index limits 2) U64 limitsId;
  maximumRflContribution ← unsigned (at_index liquidity 0) U64 liquidityId;
  maximumTusdContribution ← unsigned (at_index liquidity 1) U64 liquidityId;
  maximumNonFinalWithdrawalShareBps ← unsigned (at_index liquidity 2) U64 liquidityId;
  if bool_decide (ammFeeBps > 100)
     || bool_decide (maximumReserveBps = 0)
     || bool_decide (maximumReserveBps > BPS_DENOMINATOR)
     || bool_decide (maximumGrossSwap = 0)
     || bool_decide (maximumRflContribution = 0)
     || bool_decide (maximumTusdContribution = 0)
     || bool_decide (maximumNonFinalWithdrawalShareBps = 0)
     || bool_decide (maximumNonFinalWithdrawalShareBps > BPS_DENOMINATOR)
  then Throws (MalformedMoveViewError limitsId "pool limit state is outside the immutable contract policy")
  else
    trflReserve ← unsigned (at_index reserves 0) U64 reservesId;
    tusdReserve ← unsigned (at_index reserves 1) U64 reservesId;
    Returns (PoolView.mk trflReserve tusdReserve (Some poolLifecycle) (negb (bool_decide (poolLifecycle = LIVE)))
      maximumGrossSwap maximumReserveBps maximumRflContribution maximumTusdContribution
      maximumNonFinalWithdrawalShareBps ledgerVersion).

Definition readPoolAt (ledgerVersion : Z) : Method PoolView.PoolSnapshot :=
  '(reserves, limits, liquidity, lifecycleRaw) ← promiseAll race
    (start (tuple ledgerVersion amm "pool" "reserves_view" [] 2)
     &&& tuple ledgerVersion amm "pool" "limits" [] 3
     &&& tuple ledgerVersion amm "pool" "liquidity_limits" [] 3
     &&& scalar ledgerVersion amm "pool" "lifecycle" []);
  evaluate (poolSnapshotOf ledgerVersion reserves limits liquidity lifecycleRaw).

(** ** Operations *)

Definition portfolioOf (identity : Identity.ValidatedIdentity) (account : Address) (global : list JsValue)
    (raw pending effective registered : JsValue) (position : list JsValue) : Outcome Portfolio.PortfolioSnapshot :=
  let token name := viewId core "reflection_token" name in
  rawTrfl ← unsigned raw U64 (token "raw_balance");
  isRegistered ← boolean registered (token "wallet_is_registered");
  boolean (at_index position 0) (token "wallet_position_accounting") ≫= fun _ =>
  unsigned (at_index position 1) U256 (token "wallet_position_accounting") ≫= fun _ =>
  effectiveTrfl ← unsigned effective U64 (token "effective_balance");
  pendingReflections ← unsigned pending U64 (token "pending_rewards");
  lifetimeClaimed ← unsigned (at_index position 2) U256 (token "wallet_position_accounting");
  eligibleSupply ← unsigned (at_index global 2) U128 (token "global_accounting");
  Returns (Portfolio.mk account effectiveTrfl rawTrfl pendingReflections lifetimeClaimed eligibleSupply
    (if isRegistered : bool then rawTrfl else 0) identity.(Identity.version)).

Definition getPortfolio (account : Address) : Method Portfolio.PortfolioSnapshot :=
  canonicalAccount ← evaluate (nonzeroAddress account "account");
  identity ← pinAndValidateIdentity;
  let version := identity.(Identity.version) in
  let holder := [JsString canonicalAccount] in
  '(global, raw, pending, effective, registered, position) ← promiseAll race
    (start (tuple version core "reflection_token" "global_accounting" [] 6)
     &&& scalar version core "reflection_token" "raw_balance" holder
     &&& scalar version core "reflection_token" "pending_rewards" holder
     &&& scalar version core "reflection_token" "effective_balance" holder
     &&& scalar version core "reflection_token" "wallet_is_registered" holder
     &&& tuple version core "reflection_token" "wallet_position_accounting" holder 3);
  evaluate (portfolioOf identity canonicalAccount global raw pending effective registered position).

Definition protocolOf (identity : Identity.ValidatedIdentity) (automatic lifecycleRaw feeBpsRaw holders : JsValue)
    (global : list JsValue) (vaultBalance liability : JsValue) (pool : PoolView.PoolSnapshot)
    : Outcome Protocol.ProtocolSnapshot :=
  let token name := viewId core "reflection_token" name in
  protocolLifecycle ← lifecycle lifecycleRaw (token "launch_state");
  reflectionFeeBps ← unsigned feeBpsRaw U64 (token "reflection_fee_bps");
  if bool_decide (reflectionFeeBps > 500) then
    Throws (MalformedMoveViewError (token "reflection_fee_bps") "fee exceeds the immutable v0.2 creation bound")
  else if negb (bool_decide (pool.(PoolView.lifecycle) = Some protocolLifecycle)) then
    Throws (MalformedMoveViewError (token "launch_state") "core and pool lifecycles disagree")
  else
    automaticMaterialization ← boolean automatic (token "automatic_materialization_enabled");
    eligibleHolders ← unsigned holders U64 (token "registered_wallet_count");
    eligibleSupply ← unsigned (at_index global 2) U128 (token "global_accounting");
    rewardVaultBalance ← unsigned vaultBalance U64 (token "reward_vault_balance");
    reflectionLiability ← unsigned liability U256 (token "aggregate_indexed_liability");
    lifetimeSwapFees ← unsigned (at_index global 4) U256 (token "global_accounting");
    lifetimeMaterialized ← unsigned (at_index global 5) U256 (token "global_accounting");
    currentIndex ← unsigned (at_index global 0) U256 (token "global_accounting");
    indexRemainder ← unsigned (at_index global 1) U256 (token "global_accounting");
    Returns (Protocol.mk (Some protocolLifecycle) (Some reflectionFeeBps) automaticMaterialization eligibleHolders
      eligibleSupply rewardVaultBalance reflectionLiability lifetimeSwapFees lifetimeMaterialized currentIndex
      indexRemainder pool false false identity.(Identity.packageVersion) identity.(Identity.version)).

Definition getProtocol : Method Protocol.ProtocolSnapshot :=
  identity ← pinAndValidateIdentity;
  let version := identity.(Identity.version) in
  '(automatic, lifecycleRaw, feeBpsRaw, holders, global, vaultBalance, liability, pool) ← promiseAll race
    (start (scalar version core "reflection_token" "automatic_materialization_enabled" [])
     &&& scalar version core "reflection_token" "launch_state" []
     &&& scalar version core "reflection_token" "reflection_fee_bps" []
     &&& scalar version core "reflection_token" "registered_wallet_count" []
     &&& tuple version core "reflection_token" "global_accounting" [] 6
     &&& scalar version core "reflection_token" "reward_vault_balance" []
     &&& scalar version core "reflection_token" "aggregate_indexed_liability" []
     &&& readPoolAt version);
  evaluate (protocolOf identity automatic lifecycleRaw feeBpsRaw holders global vaultBalance liability pool).

Definition getPool : Method PoolView.PoolSnapshot :=
  identity ← pinAndValidateIdentity;
  readPoolAt identity.(Identity.version).

Definition getLpEpochTerminalDust (epoch : Z) : Method TerminalDust.LpEpochTerminalDustSnapshot :=
  unlessThrow (negb (bool_decide (epoch <= 0) || bool_decide (epoch > U64_MAX)))
    (RangeError "LP epoch must be positive and fit Move u64") ;;
  identity ← pinAndValidateIdentity;
  let functionId := viewId amm "pool" "lp_epoch_terminal_dust" in
  dust ← tuple identity.(Identity.version) amm "pool" "lp_epoch_terminal_dust" [JsString (show epoch)] 2;
  terminalRoundingBaseUnits ← evaluate (unsigned (at_index dust 0) U128 functionId);
  retiredResidueMagnified ← evaluate (unsigned (at_index dust 1) U256 functionId);
  mret (TerminalDust.mk epoch terminalRoundingBaseUnits retiredResidueMagnified identity.(Identity.version)).

Definition faucetStatusOf (identity : Identity.ValidatedIdentity) (account : Address) (asset : Asset)
    (configuration lastClaim : list JsValue) (distributionBalance : JsValue) : Outcome Faucet.FaucetStatus :=
  let configurationId := viewId assets "test_faucet" "configuration" in
  let lastClaimId := viewId assets "test_faucet" "last_claim" in
  grantAmount ← unsigned (at_index configuration (if bool_decide (asset = tRFL) then 0 else 1)) U64 configurationId;
  cooldown ← unsigned (at_index configuration 2) U64 configurationId;
  hasClaimed ← boolean (at_index lastClaim 0) lastClaimId;
  previousClaim ← unsigned (at_index lastClaim 1) U64 lastClaimId;
  let cooldownEndsAtUnixSeconds := if hasClaimed : bool then previousClaim + cooldown else 0 in
  if bool_decide (cooldownEndsAtUnixSeconds > U64_MAX) then
    Throws (MalformedMoveViewError configurationId "previous claim plus cooldown exceeds the u64 timestamp domain")
  else
    distribution ← unsigned distributionBalance U64 (viewId core "reflection_token" "distribution_vault_balance");
    let hasInventory := bool_decide (distribution >= grantAmount) in
    let now := identity.(Identity.timestampUnixSeconds) in
    Returns (Faucet.mk asset account grantAmount cooldownEndsAtUnixSeconds
      ((bool_decide (asset = tUSD) || hasInventory)
       && (negb hasClaimed || (bool_decide (now >= previousClaim) && bool_decide (now >= cooldownEndsAtUnixSeconds))))).

Definition getFaucetStatus (account : Address) (asset : Asset) : Method Faucet.FaucetStatus :=
  canonicalAccount ← evaluate (nonzeroAddress account "account");
  identity ← pinAndValidateIdentity;
  let version := identity.(Identity.version) in
  '(configuration, lastClaim, distributionBalance) ← promiseAll race
    (start (tuple version assets "test_faucet" "configuration" [] 3)
     &&& tuple version assets "test_faucet" "last_claim" [JsString canonicalAccount; JsBoolean (bool_decide (asset = tRFL))] 2
     &&& (if bool_decide (asset = tRFL)
          then scalar version core "reflection_token" "distribution_vault_balance" []
          else mret (JsBigint U64_MAX)));
  evaluate (faucetStatusOf identity canonicalAccount asset configuration lastClaim distributionBalance).

(** [quoteSwap] on the answers of its four views. *)
Definition swapQuoteOf (identity : Identity.ValidatedIdentity) (input : Request.QuoteRequest)
    (quote reserves limits : list JsValue) (feeBpsRaw : JsValue) : Outcome Swap.SwapQuote :=
  let isSell := bool_decide (input.(Request.direction) = sell) in
  let gross := input.(Request.grossAmount) in
  let functionId := viewId amm "pool" (if isSell then "quote_sell" else "quote_buy") in
  let limitsId := viewId amm "pool" "limits" in
  let reservesId := viewId amm "pool" "reserves_view" in
  let malformed detail := Throws (MalformedMoveViewError functionId detail) in
  firstOutput ← unsigned (at_index quote 0) U64 functionId;
  reflectionFee ← unsigned (at_index quote 1) U64 functionId;
  ammFee ← unsigned (at_index quote 2) U64 functionId;
  reflectionFeeBps ← unsigned feeBpsRaw U64 (viewId core "reflection_token" "reflection_fee_bps");
  ammFeeBps ← unsigned (at_index limits 0) U64 limitsId;
  maximumReserveBps ← unsigned (at_index limits 1) U64 limitsId;
  maximumGrossSwap ← unsigned (at_index limits 2) U64 limitsId;
  if bool_decide (reflectionFeeBps > 500) || bool_decide (ammFeeBps > 100) || bool_decide (maximumReserveBps = 0)
     || bool_decide (maximumReserveBps > BPS_DENOMINATOR) || bool_decide (maximumGrossSwap = 0)
  then Throws (MalformedMoveViewError limitsId "fee or swap limit is outside the immutable contract policy")
  else
  let netReserveInput := if isSell then gross - reflectionFee else gross in
  if bool_decide (netReserveInput < 0) || bool_decide (ammFee > netReserveInput)
  then malformed "fee tuple exceeds its associated input" else
  let grossPoolOutput := if bool_decide (input.(Request.direction) = buy) then firstOutput + reflectionFee else firstOutput in
  if bool_decide (grossPoolOutput > U64_MAX) then malformed "gross pool output exceeds u64" else
  let netUserReceipt := firstOutput in
  let invariantInput := netReserveInput - ammFee in
  inputReserve ← unsigned (at_index reserves (if isSell then 0 else 1)) U64 reservesId;
  outputReserve ← unsigned (at_index reserves (if isSell then 1 else 0)) U64 reservesId;
  if bool_decide (inputReserve = 0) || bool_decide (outputReserve = 0) || bool_decide (firstOutput = 0)
  then malformed "quote requires non-zero reserves and output" else
  if bool_decide (gross > maximumGrossSwap) || bool_decide (gross * BPS_DENOMINATOR > inputReserve * maximumReserveBps)
  then malformed "quote input exceeds the finalized on-chain swap limits" else
  let expectedAmmFee := netReserveInput - bpsOf netReserveInput (BPS_DENOMINATOR - ammFeeBps) in
  expectedGrossPoolOutput ← bigintDivide (outputReserve * invariantInput) (inputReserve + invariantInput);
  let expectedReflectionFee :=
    if isSell then bpsOf gross reflectionFeeBps else bpsOf expectedGrossPoolOutput reflectionFeeBps in
  if bool_decide (ammFee <> expectedAmmFee) || bool_decide (reflectionFee <> expectedReflectionFee)
     || bool_decide (grossPoolOutput <> expectedGrossPoolOutput)
  then malformed "quote tuple disagrees with finalized fee and constant-product arithmetic" else
  priceImpactBps ← bigintDivide (invariantInput * BPS_DENOMINATOR) (inputReserve + invariantInput);
  Returns (Swap.mk input.(Request.direction) gross input.(Request.slippageBps) reflectionFee ammFee netReserveInput
    grossPoolOutput netUserReceipt (bpsOf netUserReceipt (BPS_DENOMINATOR - input.(Request.slippageBps))) priceImpactBps
    input.(Request.deadlineUnixSeconds)
    (SwapContext.mk identity.(Identity.chainId) identity.(Identity.version) manifest.(Manifest.deploymentId)
       identity.(Identity.packageVersion) inputReserve outputReserve reflectionFeeBps ammFeeBps maximumGrossSwap
       maximumReserveBps)).

(** The checks of the input, before anything is read. *)
Definition checkQuoteInput (input : Request.QuoteRequest) : Outcome unit :=
  if bool_decide (input.(Request.grossAmount) = 0) then Throws (RangeError "grossAmount must be greater than zero") else
  unsigned (JsBigint input.(Request.grossAmount)) U64 "quote.grossAmount" ;;
  unsigned (JsBigint input.(Request.slippageBps)) U64 "quote.slippageBps" ;;
  unsigned (JsBigint input.(Request.deadlineUnixSeconds)) U64 "quote.deadlineUnixSeconds" ;;
  if bool_decide (input.(Request.slippageBps) > BPS_DENOMINATOR)
  then Throws (RangeError "slippageBps must not exceed 10,000") else Returns tt.

Definition quoteSwap (input : Request.QuoteRequest) : Method Swap.SwapQuote :=
  evaluate (checkQuoteInput input) ;;
  identity ← pinAndValidateIdentity;
  unlessThrow (negb (bool_decide (input.(Request.deadlineUnixSeconds) <= identity.(Identity.timestampUnixSeconds))))
    (RangeError "quote deadline must be later than the pinned ledger timestamp") ;;
  let version := identity.(Identity.version) in
  '(quote, reserves, limits, feeBpsRaw) ← promiseAll race
    (start (tuple version amm "pool" (if bool_decide (input.(Request.direction) = sell) then "quote_sell" else "quote_buy")
              [JsString (show input.(Request.grossAmount))] 3)
     &&& tuple version amm "pool" "reserves_view" [] 2
     &&& tuple version amm "pool" "limits" [] 3
     &&& scalar version core "reflection_token" "reflection_fee_bps" []);
  evaluate (swapQuoteOf identity input quote reserves limits feeBpsRaw).
End Adapter.
End Finalized.
