(* ===== verification/FinalizedSpec.v ===== *)
(** * Reading at one version

    Every view an operation of the adapter asks for is pinned at the version of
    the one header it read, and what it returns was read from a deployment whose
    identity that version confirms. *)
From S2P Require Import Prelude JsMap Types MoveDomains JsValue SdkTypes Accounting Replay Group WalletHandlers.
From S2P Require Import LpHandlers PoolHandlers LiquidityMath DraftEncoder SafeClient QuoteSpec FinalizedAdapter.
Import Finalized.

(** What a snapshot says of the version it was read at; a faucet status says nothing. *)
Class ObservedAt (A : Type) := observedAt : Z -> A -> Prop.
#[export] Instance portfolio_observed : ObservedAt Portfolio.PortfolioSnapshot :=
  fun version p => p.(Portfolio.ledgerVersion) = version.
#[export] Instance pool_observed : ObservedAt PoolView.PoolSnapshot :=
  fun version p => p.(PoolView.ledgerVersion) = version.
#[export] Instance protocol_observed : ObservedAt Protocol.ProtocolSnapshot :=
  fun version p => p.(Protocol.ledgerVersion) = version /\ observedAt version p.(Protocol.pool).
#[export] Instance dust_observed : ObservedAt TerminalDust.LpEpochTerminalDustSnapshot :=
  fun version d => d.(TerminalDust.ledgerVersion) = version.
#[export] Instance quote_observed : ObservedAt Swap.SwapQuote :=
  fun version q => q.(Swap.context).(SwapContext.ledgerVersion) = version.
#[export] Instance faucet_observed : ObservedAt Faucet.FaucetStatus := fun _ _ => True.

Section Adapter.
Context (decodeUtf8 : list Z -> option string) (race : list JsError -> JsError).
Context (getLedgerInfo : Outcome JsValue) (viewJson : ViewRequest.ViewRequest -> Outcome (list JsValue)).
Context (manifest : Manifest.FinalizedProtocolManifest).

#[local] Notation Method := (Task (list ViewRequest.ViewRequest)).
#[local] Notation core := manifest.(Manifest.packages).(Modules.reflectionCore).
#[local] Notation assets := manifest.(Manifest.packages).(Modules.testAssets).
#[local] Notation amm := manifest.(Manifest.packages).(Modules.testAmm).
#[local] Notation pinLedger := (pinLedger getLedgerInfo manifest).
#[local] Notation pinAndValidateIdentity := (pinAndValidateIdentity decodeUtf8 race getLedgerInfo viewJson manifest).

(** ** The requests of a task *)

(** All requests are at the version, and what is returned satisfies [P]. *)
Definition Pins {A} (version : Z) (m : Method A) (P : A -> Prop) : Prop :=
  forall log o log', m log = (o, log') ->
    (exists issued, log' = log ++ issued /\ Forall (fun r => r.(ViewRequest.ledgerVersion) = version) issued)
    /\ forall a, o = Returns a -> P a.

Definition AllPins {A} (version : Z) (x : All (list ViewRequest.ViewRequest) A) (P : A -> Prop) : Prop :=
  forall log r log', x log = (r, log') ->
    (exists issued, log' = log ++ issued /\ Forall (fun r => r.(ViewRequest.ledgerVersion) = version) issued)
    /\ forall a, r = inl a -> P a.

Lemma issued_nil version (log : list ViewRequest.ViewRequest) :
  exists issued, log = log ++ issued /\ Forall (fun r => r.(ViewRequest.ledgerVersion) = version) issued.
Proof. exists []. by rewrite app_nil_r. Qed.

Lemma issued_app version (log log1 log2 : list ViewRequest.ViewRequest) :
  (exists issued, log1 = log ++ issued /\ Forall (fun r => r.(ViewRequest.ledgerVersion) = version) issued) ->
  (exists issued, log2 = log1 ++ issued /\ Forall (fun r => r.(ViewRequest.ledgerVersion) = version) issued) ->
  exists issued, log2 = log ++ issued /\ Forall (fun r => r.(ViewRequest.ledgerVersion) = version) issued.
Proof. intros (l1 & -> & H1) (l2 & -> & H2). exists (l1 ++ l2). rewrite (assoc_L (++)). split; [done|]. by apply Forall_app. Qed.

Lemma pins_evaluate {A} version (o : Outcome A) (P : A -> Prop) : (forall a, o = Returns a -> P a) -> Pins version (evaluate o) P.
Proof. intros HP log o' log' [= <- <-]. by split; [apply issued_nil|]. Qed.

Lemma pins_outcome {A} version (o : Outcome A) : Pins version (evaluate o) (fun a => o = Returns a).
Proof. by apply pins_evaluate. Qed.

Lemma pins_ret {A} version (a : A) (P : A -> Prop) : P a -> Pins version (mret a) P.
Proof. intros HP log o' log' [= <- <-]. split; [apply issued_nil|]. by intros ? [= <-]. Qed.

Lemma pins_unlessThrow version b e : Pins version (unlessThrow b e) (fun _ => b = true).
Proof. intros log o log' [= <- <-]. split; [apply issued_nil|]. by destruct b. Qed.

Lemma pins_bind {A B} version (m : Method A) (k : A -> Method B) P Q :
  Pins version m P -> (forall a, P a -> Pins version (k a) Q) -> Pins version (m ≫= k) Q.
Proof.
  intros Hm Hk log o log' E. unfold mbind, task_bind in E. destruct (m log) as [[a|e] log1] eqn:E1.
  - destruct (Hm _ _ _ E1) as [H1 HP]. destruct (Hk a (HP a eq_refl) _ _ _ E) as [H2 HQ].
    split; [by eapply issued_app|done].
  - injection E as <- <-. destruct (Hm _ _ _ E1) as [H1 _]. by split.
Qed.

Lemma pins_start {A} version (m : Method A) P : Pins version m P -> AllPins version (start m) P.
Proof.
  intros Hm log r log' E. unfold start in E. destruct (m log) as [[a|e] log1] eqn:E1; injection E as <- <-;
    destruct (Hm _ _ _ E1) as [H1 HP]; split; try done. intros a' [= <-]. by apply HP.
Qed.

Lemma pins_beside {A B} version x (m : Method B) (P : A -> Prop) Q :
  AllPins version x P -> Pins version m Q -> AllPins version (x &&& m)%js (fun ab => P ab.1 /\ Q ab.2).
Proof.
  intros Hx Hm log r log' E. unfold beside in E. destruct (x log) as [a log1] eqn:E1. destruct (m log1) as [b log2] eqn:E2.
  injection E as <- <-. destruct (Hx _ _ _ E1) as [H1 HP]. destruct (Hm _ _ _ E2) as [H2 HQ].
  split; [by eapply issued_app|]. intros [a' b'] E. destruct a, b; try discriminate E. injection E as -> ->.
  split; [by apply HP|by apply HQ].
Qed.

Lemma pins_all {A} version x (P : A -> Prop) : AllPins version x P -> Pins version (promiseAll race x) P.
Proof.
  intros Hx log o log' E. unfold promiseAll in E. destruct (x log) as [[a|es] log1] eqn:E1; injection E as <- <-;
    destruct (Hx _ _ _ E1) as [H1 HP]; split; try done. intros a' [= <-]. by apply HP.
Qed.

(** What the chain answered to a view. *)
Definition Answered version publisher moduleName functionName arguments (values : list JsValue) : Prop :=
  viewJson (ViewRequest.mk (viewId publisher moduleName functionName) arguments version) = Returns values.

Lemma pins_view version publisher moduleName functionName arguments :
  Pins version (view viewJson version publisher moduleName functionName arguments)
    (Answered version publisher moduleName functionName arguments).
Proof. intros log o log' [= <- <-]. split; [|done]. eexists [_]. by split; [|constructor]. Qed.

Lemma pins_scalar version publisher moduleName functionName arguments :
  Pins version (scalar viewJson version publisher moduleName functionName arguments)
    (fun v => Answered version publisher moduleName functionName arguments [v]).
Proof.
  unfold scalar. eapply pins_bind; [apply pins_view|]. intros values Hv. eapply pins_bind; [apply pins_unlessThrow|].
  intros [] Hl. bools. apply pins_ret. destruct values as [|v [|]]; unfold arrayLength in Hl; cbn in Hl; try lia. exact Hv.
Qed.

Lemma pins_tuple version publisher moduleName functionName arguments n :
  Pins version (tuple viewJson version publisher moduleName functionName arguments n)
    (fun values => Answered version publisher moduleName functionName arguments values /\ arrayLength values = n).
Proof.
  unfold tuple. eapply pins_bind; [apply pins_view|]. intros values Hv. eapply pins_bind; [apply pins_unlessThrow|].
  intros [] Hl. bools. by apply pins_ret.
Qed.

Lemma pins_weaken {A} version (m : Method A) (P Q : A -> Prop) : Pins version m P -> (forall a, P a -> Q a) -> Pins version m Q.
Proof. intros Hm HPQ log o log' E. destruct (Hm _ _ _ E) as [H HP]. split; [done|]. intros a Ea. by apply HPQ, HP. Qed.

(** ** The identity of the deployment *)

(** Two spellings of one account address. *)
Definition SameAddress (address : Address) (value : JsValue) : Prop :=
  exists label label' canonical, canonicalAddress (JsString address) label = Returns canonical
    /\ canonicalAddress value label' = Returns canonical.
Definition SameObject (address : Address) (value : JsValue) : Prop :=
  exists label label' canonical, canonicalAddress (JsString address) label = Returns canonical
    /\ objectAddress value label' = Returns canonical.
Definition SameText (text : string) (value : JsValue) : Prop :=
  exists label, utf8Vector decodeUtf8 value label = Returns text.

(** A view without arguments answered one value, with the property. *)
Definition Says version publisher moduleName functionName (P : JsValue -> Prop) : Prop :=
  exists v, Answered version publisher moduleName functionName [] [v] /\ P v.

(** The chain confirms the manifest at a version. *)
Record Confirmed (version : Z) : Prop := {
  confirmed_core : Says version core "reflection_registry" "state_object" (SameAddress core);
  confirmed_deployment :
    Says version core "reflection_registry" "deployment_id" (SameText manifest.(Manifest.deploymentId));
  confirmed_network : Says version core "reflection_registry" "network_label" (SameText manifest.(Manifest.networkLabel));
  confirmed_release : exists release, Answered version core "reflection_registry" "release_version" [] release
    /\ packageVersionOf manifest release = Returns manifest.(Manifest.packageVersion);
  confirmed_token :
    Says version core "reflection_token" "metadata" (SameObject manifest.(Manifest.addresses).(Addresses.tokenMetadata));
  confirmed_reward :
    Says version core "reflection_token" "reward_vault" (SameObject manifest.(Manifest.addresses).(Addresses.rewardVault));
  confirmed_distribution : Says version core "reflection_token" "distribution_vault"
    (SameObject manifest.(Manifest.addresses).(Addresses.distributionVault));
  confirmed_usd :
    Says version assets "mock_usd" "metadata" (SameObject manifest.(Manifest.addresses).(Addresses.mockUsdMetadata));
  confirmed_rfl_reserve :
    Says version amm "pool" "rfl_reserve_store" (SameObject manifest.(Manifest.addresses).(Addresses.poolRflReserveStore));
  confirmed_usd_reserve :
    Says version amm "pool" "usd_reserve_store" (SameObject manifest.(Manifest.addresses).(Addresses.poolUsdReserveStore));
  confirmed_bound_reserve :
    Says version assets "mock_usd" "pool_reserve" (SameAddress manifest.(Manifest.addresses).(Addresses.poolUsdReserveStore))
}.

Lemma expectSameAddress_returns field expected observed :
  expectSameAddress field expected observed = Returns tt <-> canonicalAddress (JsString expected) field = Returns observed.
Proof.
  unfold expectSameAddress. destruct (canonicalAddress _ _) as [c|]; cbn [mbind outcome_bind]; [|done].
  case_bool_decide; split; intros; simplify_eq; done.
Qed.

Lemma expectText_returns field expected observed : expectText field expected observed = Returns tt <-> expected = observed.
Proof. unfold expectText. by case_bool_decide; split. Qed.

(** A value read and compared with what is expected. *)
Lemma same_address field address value label (k : unit -> Outcome string) r :
  (observed ← canonicalAddress value label; expectSameAddress field address observed ≫= k) = Returns r ->
  SameAddress address value /\ k tt = Returns r.
Proof.
  intros E. apply outcome_bind_iff in E as (observed & Eo & E). apply outcome_bind_iff in E as ([] & Es & E).
  apply expectSameAddress_returns in Es. split; [by exists field, label, observed|done].
Qed.

Lemma same_object field address value label (k : unit -> Outcome string) r :
  (observed ← objectAddress value label; expectSameAddress field address observed ≫= k) = Returns r ->
  SameObject address value /\ k tt = Returns r.
Proof.
  intros E. apply outcome_bind_iff in E as (observed & Eo & E). apply outcome_bind_iff in E as ([] & Es & E).
  apply expectSameAddress_returns in Es. split; [by exists field, label, observed|done].
Qed.

Lemma same_text field text value label (k : unit -> Outcome string) r :
  (observed ← utf8Vector decodeUtf8 value label; expectText field text observed ≫= k) = Returns r ->
  SameText text value /\ k tt = Returns r.
Proof.
  intros E. apply outcome_bind_iff in E as (observed & Eo & E). apply outcome_bind_iff in E as ([] & Es & E).
  apply expectText_returns in Es as ->. split; [by exists label|done].
Qed.

Lemma validateIdentity_returns state deployment network release token reward distribution usd rfl usdReserve bound r :
  validateIdentity decodeUtf8 manifest state deployment network release token reward distribution usd rfl usdReserve bound
    = Returns r ->
  let a := manifest.(Manifest.addresses) in
  SameAddress core state /\ SameText manifest.(Manifest.deploymentId) deployment
  /\ SameText manifest.(Manifest.networkLabel) network
  /\ packageVersionOf manifest release = Returns manifest.(Manifest.packageVersion)
  /\ SameObject a.(Addresses.tokenMetadata) token /\ SameObject a.(Addresses.rewardVault) reward
  /\ SameObject a.(Addresses.distributionVault) distribution /\ SameObject a.(Addresses.mockUsdMetadata) usd
  /\ SameObject a.(Addresses.poolRflReserveStore) rfl /\ SameObject a.(Addresses.poolUsdReserveStore) usdReserve
  /\ SameAddress a.(Addresses.poolUsdReserveStore) bound /\ r = manifest.(Manifest.packageVersion).
Proof.
  unfold validateIdentity. cbv zeta. intros E. apply same_address in E as [H1 E]. apply same_text in E as [H2 E].
  apply same_text in E as [H3 E]. apply outcome_bind_iff in E as (version & H4 & E).
  apply outcome_bind_iff in E as ([] & Ev & E). apply expectText_returns in Ev as <-.
  apply same_object in E as [H5 E]. apply same_object in E as [H6 E]. apply same_object in E as [H7 E].
  apply same_object in E as [H8 E]. apply outcome_bind_iff in E as (o1 & E1 & E). apply outcome_bind_iff in E as (o2 & E2 & E).
  apply outcome_bind_iff in E as (o3 & E3 & E). apply outcome_bind_iff in E as ([] & F1 & E).
  apply outcome_bind_iff in E as ([] & F2 & E). apply outcome_bind_iff in E as ([] & F3 & E). injection E as <-.
  apply expectSameAddress_returns in F1, F2, F3.
  repeat (split; [done || (eexists _, _, _; split; [first [exact F1|exact F2|exact F3]|]; eassumption)|]).
  split; [by eexists _, _, _|done].
Qed.

Lemma pinLedger_returns pinned :
  pinLedger = Returns pinned ->
  manifest.(Manifest.finalizedLedgerVersion) <= pinned.(Pinned.version) <= U64_MAX
  /\ pinned.(Pinned.chainId) = CEDRA_TESTNET_CHAIN_ID
  /\ exists header, getLedgerInfo = Returns header
       /\ unsigned (member header "chain_id") U64 "ledger_info::chain_id" = Returns manifest.(Manifest.chainId)
       /\ unsigned (member header "ledger_version") U64 "ledger_info::ledger_version" = Returns pinned.(Pinned.version).
Proof.
  unfold Finalized.pinLedger. intros E. apply outcome_bind_iff in E as (header & Eh & E).
  apply outcome_bind_iff in E as (chain & Ec & E). apply outcome_bind_iff in E as (chainId & Eu & E).
  apply outcome_bind_iff in E as ([] & Em & E). apply outcome_bind_iff in E as (version & Ev & E).
  apply outcome_bind_iff in E as (timestamp & Et & E). apply outcome_bind_iff in E as ([] & Ef & [= <-]).
  apply check_returns in Ef. bools. case_bool_decide as Hc; [subst|done]. cbn.
  assert (Hw : version <= U64_MAX).
  { unfold unsigned in Ev. apply outcome_bind_iff in Ev as (parsed & _ & Ev). case_match eqn:E'; [done|]. injection Ev as ->. bools.
    change (widthMax U64) with U64_MAX in *. lia. }
  split; [lia|split; [done|]]. exists header. split; [done|]. split; [|done].
  destruct header; try discriminate Ec; by injection Ec as <-.
Qed.

(** An operation is anchored: it asks for nothing, or everything at the version of
    the header; and a result was read at that version of a confirmed deployment. *)
Definition Anchored {A} `{ObservedAt A} (m : Method A) : Prop :=
  forall log o log', m log = (o, log') ->
    (exists issued, log' = log ++ issued
      /\ (issued = [] \/ exists pinned, pinLedger = Returns pinned
            /\ Forall (fun r => r.(ViewRequest.ledgerVersion) = pinned.(Pinned.version)) issued))
    /\ forall a, o = Returns a ->
         exists pinned, pinLedger = Returns pinned /\ Confirmed pinned.(Pinned.version)
           /\ observedAt pinned.(Pinned.version) a.
End Adapter.

Create HintDb pins.
#[export] Hint Resolve pins_evaluate pins_ret pins_unlessThrow pins_scalar pins_tuple pins_view pins_all pins_start pins_beside : pins.

Section Anchors.
Context (decodeUtf8 : list Z -> option string) (race : list JsError -> JsError).
Context (getLedgerInfo : Outcome JsValue) (viewJson : ViewRequest.ViewRequest -> Outcome (list JsValue)).
Context (manifest : Manifest.FinalizedProtocolManifest).

#[local] Notation Method := (Task (list ViewRequest.ViewRequest)).
#[local] Notation pinLedger := (pinLedger getLedgerInfo manifest).
#[local] Notation pinAndValidateIdentity := (pinAndValidateIdentity decodeUtf8 race getLedgerInfo viewJson manifest).
#[local] Notation Anchored := (Anchored decodeUtf8 getLedgerInfo viewJson manifest).
#[local] Notation Confirmed := (Confirmed decodeUtf8 viewJson manifest).

(** The identity the adapter returns is that of the header. *)
Lemma pins_identity pinned :
  pinLedger = Returns pinned ->
  Pins pinned.(Pinned.version) pinAndValidateIdentity (fun identity =>
    Confirmed pinned.(Pinned.version)
    /\ identity = Identity.mk pinned.(Pinned.chainId) pinned.(Pinned.version) pinned.(Pinned.timestampUnixSeconds)
        manifest.(Manifest.packageVersion)).
Proof.
  intros Hp. unfold Finalized.pinAndValidateIdentity. rewrite Hp. set (version := pinned.(Pinned.version)).
  eapply (pins_bind _ _ _ (fun l => l = pinned)); [apply pins_evaluate; by intros ? [= <-]|]. intros ? ->. fold version. cbv zeta.
  eapply pins_bind; [eauto 20 with pins|].
  intros [[[[[[[[[[state deployment] network] release] token] reward] distribution] usd] rfl] usdReserve] bound] H.
  cbn [fst snd] in H. destruct_and! H.
  eapply pins_bind; [apply pins_outcome|]. cbv beta. intros packageVersion E.
  apply validateIdentity_returns in E. cbv zeta in E. destruct_and! E. subst. apply pins_ret. split; [|done].
  split; unfold Says; eauto.
Qed.

Lemma anchored_identity {A} `{ObservedAt A} (k : Identity.ValidatedIdentity -> Method A) :
  (forall identity, identity.(Identity.packageVersion) = manifest.(Manifest.packageVersion) ->
     Pins identity.(Identity.version) (k identity) (observedAt identity.(Identity.version))) ->
  Anchored (pinAndValidateIdentity ≫= k).
Proof.
  intros Hk log o log' E. destruct pinLedger as [pinned|e] eqn:Hp.
  - eapply (pins_bind pinned.(Pinned.version)) in E; [|by apply pins_identity|].
    2: { intros identity [Hc ->]. eapply pins_weaken; [by apply (Hk (Identity.mk _ _ _ _))|]. intros a Ha. exact (conj Hc Ha). }
    destruct E as [(issued & -> & Hi) Ha]. split; [exists issued; split; [done|right; by exists pinned]|].
    intros a Ea. exists pinned. split; [done|]. by apply Ha.
  - assert (Et : pinAndValidateIdentity log = (Throws e, log)) by (unfold Finalized.pinAndValidateIdentity; by rewrite Hp).
    rewrite (task_bind_throws _ _ _ _ _ Et) in E. injection E as <- <-. split; [exists []; rewrite app_nil_r; auto|done].
Qed.

Lemma anchored_evaluate {A B} `{ObservedAt B} (o : Outcome A) (k : A -> Method B) :
  (forall a, o = Returns a -> Anchored (k a)) -> Anchored (evaluate o ≫= k).
Proof.
  intros Hk log o' log' E. destruct o as [a|e]; [by eapply (Hk a)|]. injection E as <- <-.
  split; [exists []; rewrite app_nil_r; auto|done].
Qed.

Lemma anchored_unlessThrow {B} `{ObservedAt B} b e (k : unit -> Method B) :
  (b = true -> Anchored (k tt)) -> Anchored (unlessThrow b e ≫= k).
Proof. intros Hk. destruct b; [exact (Hk eq_refl)|]. intros log o' log' [= <- <-]. split; [exists []; rewrite app_nil_r; auto|done]. Qed.

(** ** The operations *)

Lemma pins_readPoolAt version :
  Pins version (readPoolAt race viewJson manifest version) (observedAt version).
Proof.
  unfold readPoolAt. eapply pins_bind; [eauto 20 with pins|]. intros [[[reserves limits] liquidity] lifecycleRaw] _.
  apply pins_evaluate. intros pool E. unfold poolSnapshotOf in E. repeat (apply outcome_bind_iff in E as (? & _ & E)).
  case_match; [done|]. repeat (apply outcome_bind_iff in E as (? & _ & E)). by injection E as <-.
Qed.

Lemma anchored_getPortfolio account :
  Anchored (Finalized.getPortfolio decodeUtf8 race getLedgerInfo viewJson manifest account).
Proof.
  apply anchored_evaluate. intros canonical _. apply anchored_identity. intros identity Hv.
  cbv zeta. eapply pins_bind; [eauto 20 with pins|]. intros [[[[[global raw] pending] effective] registered] position] _.
  apply pins_evaluate. intros portfolio E. unfold portfolioOf in E. repeat (apply outcome_bind_iff in E as (? & _ & E)).
  by injection E as <-.
Qed.

Lemma anchored_getProtocol : Anchored (Finalized.getProtocol decodeUtf8 race getLedgerInfo viewJson manifest).
Proof.
  apply anchored_identity. intros identity Hv. cbv zeta.
  eapply pins_bind; [eauto 20 using pins_readPoolAt with pins|].
  intros [[[[[[[automatic lifecycleRaw] fee] holders] global] vault] liability] pool] H. cbn [fst snd] in H. destruct_and! H.
  apply pins_evaluate. intros protocol E. unfold protocolOf in E. apply outcome_bind_iff in E as (l & _ & E).
  apply outcome_bind_iff in E as (f & _ & E). do 2 (case_match; [done|]). repeat (apply outcome_bind_iff in E as (? & _ & E)).
  by injection E as <-.
Qed.

Lemma anchored_getPool : Anchored (Finalized.getPool decodeUtf8 race getLedgerInfo viewJson manifest).
Proof. apply anchored_identity. intros identity Hv. apply pins_readPoolAt. Qed.

Lemma anchored_getLpEpochTerminalDust epoch :
  Anchored (Finalized.getLpEpochTerminalDust decodeUtf8 race getLedgerInfo viewJson manifest epoch).
Proof.
  apply anchored_unlessThrow. intros _. apply anchored_identity. intros identity Hv. cbv zeta.
  eapply pins_bind; [eauto with pins|]. intros dust _. eapply pins_bind; [apply pins_outcome|]. intros rounding _.
  eapply pins_bind; [apply pins_outcome|]. intros residue _. by apply pins_ret.
Qed.

Lemma anchored_getFaucetStatus account asset :
  Anchored (Finalized.getFaucetStatus decodeUtf8 race getLedgerInfo viewJson manifest account asset).
Proof.
  apply anchored_evaluate. intros canonical _. apply anchored_identity. intros identity Hv. cbv zeta.
  eapply pins_bind.
  - eapply pins_all, (pins_beside _ _ _ _ (fun _ => True)); [eauto with pins|].
    case_bool_decide; [eapply pins_weaken; [apply pins_scalar|done]|by apply pins_ret].
  - intros [[configuration lastClaim] balance] _. by apply pins_evaluate.
Qed.

Lemma anchored_quoteSwap input :
  Anchored (Finalized.quoteSwap decodeUtf8 race getLedgerInfo viewJson manifest input).
Proof.
  apply anchored_evaluate. intros [] _. apply anchored_identity. intros identity Hv.
  eapply pins_bind; [apply pins_unlessThrow|]. intros [] _. cbv zeta.
  eapply pins_bind; [eauto 20 with pins|]. intros [[[quote reserves] limits] fee] _.
  apply pins_evaluate. intros q E. unfold swapQuoteOf in E. repeat (apply outcome_bind_iff in E as (? & _ & E)).
  repeat (case_match; [done|]). repeat (apply outcome_bind_iff in E as (? & _ & E) || (case_match; [done|])). by injection E as <-.
Qed.

(** The operations of the adapter. *)
Inductive Operation : forall A, ObservedAt A -> Method A -> Prop :=
| Op_getPortfolio account :
    Operation _ _ (Finalized.getPortfolio decodeUtf8 race getLedgerInfo viewJson manifest account)
| Op_getProtocol : Operation _ _ (Finalized.getProtocol decodeUtf8 race getLedgerInfo viewJson manifest)
| Op_getPool : Operation _ _ (Finalized.getPool decodeUtf8 race getLedgerInfo viewJson manifest)
| Op_getLpEpochTerminalDust epoch :
    Operation _ _ (Finalized.getLpEpochTerminalDust decodeUtf8 race getLedgerInfo viewJson manifest epoch)
| Op_getFaucetStatus account asset :
    Operation _ _ (Finalized.getFaucetStatus decodeUtf8 race getLedgerInfo viewJson manifest account asset)
| Op_quoteSwap input : Operation _ _ (Finalized.quoteSwap decodeUtf8 race getLedgerInfo viewJson manifest input).

Lemma operation_anchored A (H : ObservedAt A) (m : Method A) : Operation A H m -> Anchored m.
Proof.
  destruct 1; [apply anchored_getPortfolio|apply anchored_getProtocol|apply anchored_getPool
    |apply anchored_getLpEpochTerminalDust|apply anchored_getFaucetStatus|apply anchored_quoteSwap].
Qed.
End Anchors.

(** ** Quotes *)

#[local] Arguments bigintDivide _ _ : simpl never.
#[local] Arguments bpsOf _ _ : simpl never.

Lemma unsigned_range v bits label n : unsigned v bits label = Returns n -> 0 <= n <= widthMax bits.
Proof.
  unfold unsigned. intros E. apply outcome_bind_iff in E as (parsed & _ & E).
  destruct (_ || _) eqn:Er in E; [done|]. injection E as ->. bools. lia.
Qed.

Lemma unsigned_u64 v label n : unsigned v U64 label = Returns n -> 0 <= n <= U64_MAX.
Proof. apply unsigned_range. Qed.

Lemma checkQuoteInput_returns input :
  checkQuoteInput input = Returns tt ->
  Positive U64_MAX input.(Request.grossAmount) /\ Unsigned BPS_DENOMINATOR input.(Request.slippageBps)
  /\ Unsigned U64_MAX input.(Request.deadlineUnixSeconds).
Proof.
  unfold checkQuoteInput. case_bool_decide as Hz; [done|]. intros E. apply outcome_bind_iff in E as (g & Eg & E).
  apply outcome_bind_iff in E as (s & Es & E). apply outcome_bind_iff in E as (d & Ed & E). case_bool_decide; [done|].
  assert (Hv : forall n label m, unsigned (JsBigint n) U64 label = Returns m -> Unsigned U64_MAX n).
  { intros n label m Hm. unfold unsigned in Hm. cbn [mbind outcome_bind] in Hm. destruct (_ || _) eqn:Er in Hm; [done|]. bools.
    unfold Unsigned. change (widthMax U64) with U64_MAX in *. lia. }
  apply Hv in Eg, Es, Ed. unfold Positive, Unsigned in *. lia.
Qed.

(** The arithmetic the adapter checks is that of the curve. *)
Lemma tuple_on_curve direction gross fee amm x y rf af first :
  let net := match direction with sell => gross - rf | buy => gross end in
  let out := match direction with sell => first | buy => first + rf end in
  0 <= fee <= BPS_DENOMINATOR -> 0 <= amm <= BPS_DENOMINATOR -> 0 < x -> 0 <= y -> 0 <= gross ->
  af = net - bpsOf net (BPS_DENOMINATOR - amm) ->
  out = Z.quot (y * (net - af)) (x + (net - af)) ->
  rf = match direction with sell => bpsOf gross fee | buy => bpsOf out fee end ->
  OnCurve direction (Terms.mk fee amm x y gross rf af net out first).
Proof.
  cbv zeta. intros Hf Ha Hx Hy Hg Eaf Eout Erf. apply onCurve_settle; [unfold InRange; cbn; lia|].
  unfold settleSwap. cbn. destruct direction.
  - assert (Et : gross - af = bpsOf gross (BPS_DENOMINATOR - amm)) by lia. rewrite Et in Eout. rewrite <- Eout. f_equal; lia.
  - rewrite <- Erf. assert (Et : gross - rf - af = bpsOf (gross - rf) (BPS_DENOMINATOR - amm)) by lia. rewrite Et in Eout.
    rewrite <- Eout. f_equal; lia.
Qed.

(** The price impact of a trade is less than all of it. *)
Lemma impact_bound traded x : 0 <= traded -> 0 < x -> 0 <= Z.quot (traded * BPS_DENOMINATOR) (x + traded) <= BPS_DENOMINATOR.
Proof.
  intros Ht Hx. unfold BPS_DENOMINATOR. rewrite Z.quot_div_nonneg by lia.
  split; [apply Z.div_pos; lia|]. apply Z.div_le_upper_bound; lia.
Qed.

Lemma swapQuoteOf_verified manifest identity input quote reserves limits fee q now :
  checkQuoteInput input = Returns tt ->
  identity.(Identity.chainId) = CEDRA_TESTNET_CHAIN_ID -> Positive U64_MAX identity.(Identity.version) ->
  1 <= jsLength manifest.(Manifest.deploymentId) -> isPackageVersion identity.(Identity.packageVersion) = true ->
  swapQuoteOf manifest identity input quote reserves limits fee = Returns q ->
  Request.mk q.(Swap.direction) q.(Swap.grossAmount) q.(Swap.slippageBps) q.(Swap.deadlineUnixSeconds) = input
  /\ q.(Swap.context).(SwapContext.deploymentId) = manifest.(Manifest.deploymentId)
  /\ (now < input.(Request.deadlineUnixSeconds) -> jsLength manifest.(Manifest.deploymentId) <= 512 -> Verified now q).
Proof.
  intros Hinput Hchain Hversion Hdeployment Hpackage E.
  apply checkQuoteInput_returns in Hinput as (Hg & Hslip & Hdeadline). unfold swapQuoteOf in E. cbv zeta in E.
  apply outcome_bind_iff in E as (first & Efirst%unsigned_u64 & E). apply outcome_bind_iff in E as (rf & Erf%unsigned_u64 & E).
  apply outcome_bind_iff in E as (af & Eaf%unsigned_u64 & E). apply outcome_bind_iff in E as (feeBps & Efee%unsigned_u64 & E).
  apply outcome_bind_iff in E as (ammBps & Eamm%unsigned_u64 & E). apply outcome_bind_iff in E as (share & Eshare%unsigned_u64 & E).
  apply outcome_bind_iff in E as (maxGross & Emax%unsigned_u64 & E).
  destruct (_ || _) eqn:G1 in E; [done|]. destruct (_ || _) eqn:G2 in E; [done|]. destruct (bool_decide _) eqn:G3 in E; [done|].
  apply outcome_bind_iff in E as (x & Ex%unsigned_u64 & E). apply outcome_bind_iff in E as (y & Ey%unsigned_u64 & E).
  destruct (_ || _) eqn:G4 in E; [done|]. destruct (_ || _) eqn:G5 in E; [done|].
  replace (if bool_decide (Request.direction input = sell) then Request.grossAmount input - rf else Request.grossAmount input)
    with (match Request.direction input with sell => Request.grossAmount input - rf | buy => Request.grossAmount input end)
    in * by (by destruct (Request.direction input)).
  replace (if bool_decide (Request.direction input = buy) then first + rf else first)
    with (match Request.direction input with sell => first | buy => first + rf end) in * by (by destruct (Request.direction input)).
  set (net := match Request.direction input with sell => Request.grossAmount input - rf | buy => Request.grossAmount input end) in *.
  set (out := match Request.direction input with sell => first | buy => first + rf end) in *.
  bools. unfold Positive, Unsigned in Hg, Hslip, Hdeadline, Hversion.
  rewrite !bigintDivide_pos in E by lia. cbn [mbind outcome_bind] in E. destruct (_ || _) eqn:G6 in E; [done|].
  injection E as <-. bools.
  repeat match goal with H : ~ (_ <> _) |- _ => apply dec_stable in H end.
  split; [by destruct input|split; [done|]]. intros Hnow Hlong.
  assert (Hcurve : OnCurve (Request.direction input) (Terms.mk feeBps ammBps x y (Request.grossAmount input) rf af net out first)).
  { apply tuple_on_curve; unfold BPS_DENOMINATOR in *; try lia; try assumption.
    fold out. match goal with H : out = _, H' : rf = _ |- _ => rewrite <- H in H'; clear -H'; clearbody out end.
    by destruct (Request.direction input). }
  assert (Hpaid : 0 < net - af).
  { assert (0 < out) by (unfold out; destruct (Request.direction input); lia).
    destruct (decide (net - af = 0)) as [Ez|]; [|lia]. match goal with H : out = _ |- _ => rewrite Ez, Z.mul_0_r, Z.quot_0_l in H by lia end. lia. }
  assert (Hout : out <= U64_MAX) by lia.
  pose proof (curve_output _ _ Hcurve) as Hk. cbn in Hk.
  assert (Hbps : 0 <= BPS_DENOMINATOR - Request.slippageBps input <= BPS_DENOMINATOR) by lia.
  pose proof (bpsOf_le first _ ltac:(lia) Hbps) as Hmin.
  assert (Himpact : IsFloor ((net - af) * BPS_DENOMINATOR) (x + (net - af)) (Z.quot ((net - af) * BPS_DENOMINATOR) (x + (net - af)))).
  { apply quot_floor; unfold BPS_DENOMINATOR; lia. }
  assert (Hle : 0 <= Z.quot ((net - af) * BPS_DENOMINATOR) (x + (net - af)) <= BPS_DENOMINATOR).
  { apply impact_bound; lia. }
  assert (Hnetle : net <= Request.grossAmount input) by (unfold net; destruct (Request.direction input); lia).
  assert (Houtpos : 0 < out) by (unfold out; destruct (Request.direction input); lia).
  split; cbn; try assumption; try (unfold Unsigned; lia).
  - split; cbn; unfold Positive, Unsigned, MAX_REFLECTION_FEE_BPS; try assumption; lia.
  - split; cbn; unfold Positive, Unsigned; try lia. rewrite U64_MAX_value. unfold BPS_DENOMINATOR in *. lia.
  - split; cbn; try assumption; try lia. by apply bpsOf_floor; [lia|lia|].
Qed.

(** ** The constructor *)

Lemma unlessType_returns b message : unlessType b message = Returns tt <-> b = true.
Proof. by destruct b. Qed.

(** What the adapter can rely on in the manifest it keeps. *)
Lemma newAdapter_returns raw manifest :
  newAdapter raw = Returns manifest ->
  manifest.(Manifest.chainId) = CEDRA_TESTNET_CHAIN_ID /\ 1 <= jsLength manifest.(Manifest.deploymentId)
  /\ isPackageVersion manifest.(Manifest.packageVersion) = true
  /\ Positive U64_MAX manifest.(Manifest.finalizedLedgerVersion).
Proof.
  unfold newAdapter. intros E. apply outcome_bind_iff in E as ([] & Ea & Ec). unfold assertManifest in Ea. cbv zeta in Ea.
  apply outcome_bind_iff in Ea as ([] & E1 & Ea). apply outcome_bind_iff in Ea as ([] & E2%unlessType_returns & Ea).
  apply outcome_bind_iff in Ea as ([] & E3%unlessType_returns & Ea). apply outcome_bind_iff in Ea as ([] & E4%unlessType_returns & Ea).
  apply outcome_bind_iff in Ea as (finalized & E5 & Ea). apply outcome_bind_iff in Ea as ([] & E6%unlessType_returns & _). bools.
  unfold copyManifest in Ec. cbv zeta in Ec. repeat (apply outcome_bind_iff in Ec as (? & _ & Ec)). injection Ec as <-. cbn.
  unfold unsigned in E5. cbn [mbind outcome_bind] in E5. destruct (_ || _) eqn:Er in E5; [done|]. injection E5 as <-. bools.
  change (widthMax U64) with U64_MAX in *. unfold Positive, jsLength in *. repeat split; try done; lia.
Qed.

(** A quote of the adapter, from the header to the answer. *)
Lemma quoteSwap_verified decodeUtf8 race getLedgerInfo viewJson raw manifest input log q log' now :
  newAdapter raw = Returns manifest ->
  Finalized.quoteSwap decodeUtf8 race getLedgerInfo viewJson manifest input log = (Returns q, log') ->
  Request.mk q.(Swap.direction) q.(Swap.grossAmount) q.(Swap.slippageBps) q.(Swap.deadlineUnixSeconds) = input
  /\ q.(Swap.context).(SwapContext.deploymentId) = manifest.(Manifest.deploymentId)
  /\ (now < input.(Request.deadlineUnixSeconds) -> jsLength manifest.(Manifest.deploymentId) <= 512 -> Verified now q).
Proof.
  intros Hm E. apply newAdapter_returns in Hm as (Hchain & Hdeployment & Hpackage & Hfinal). unfold Finalized.quoteSwap in E.
  apply task_bind_inv in E as ([] & l1 & E1 & E). injection E1 as Einput <-.
  apply task_bind_inv in E as (identity & l2 & Eid & E).
  destruct (pinLedger getLedgerInfo manifest) as [pinned|e] eqn:Hp.
  2: { unfold pinAndValidateIdentity in Eid. by rewrite Hp in Eid. }
  destruct (pins_identity decodeUtf8 race getLedgerInfo viewJson manifest pinned Hp _ _ _ Eid) as [_ Hid].
  destruct (Hid identity eq_refl) as [_ ->]. destruct (pinLedger_returns _ _ _ Hp) as (Hv & Hc & _).
  apply task_bind_inv in E as ([] & l3 & _ & E). cbv zeta in E.
  apply task_bind_inv in E as ([[[quote reserves] limits] fee] & l4 & _ & E). injection E as E _.
  eapply swapQuoteOf_verified; [exact Einput|..|exact E]; cbn; try done. unfold Positive in *. lia.
Qed.
