(* ===== verification/MockAdapter.v ===== *)
(** * The development adapter: [packages/protocol-sdk/src/mock-adapter.ts]

    [MockCedraReadAdapter] answers from a state it was given; it computes quotes
    with an AMM fee of 30 basis points.  [detachedDeepFreeze] and
    [structuredClone] copy, which is the identity on values. *)
From S2P Require Import Prelude JsMap Types MoveDomains JsValue SdkTypes Accounting Replay Group WalletHandlers.
From S2P Require Import LpHandlers PoolHandlers DraftEncoder SafeClient.

Module MockState.
Record MockReadState := mk {
  portfolio : Portfolio.PortfolioSnapshot;
  protocol : Protocol.ProtocolSnapshot;
  faucetTrfl : Faucet.FaucetStatus;
  faucetTusd : Faucet.FaucetStatus;
  (* terminal rounding base units and retired residue by epoch *)
  lpEpochTerminalDust : option (JsMap Z (Z * Z))
}.
End MockState.

Module Mock.
Section Adapter.
Context (state : MockState.MockReadState).

Definition getPortfolio (account : Address) : Portfolio.PortfolioSnapshot := state.(MockState.portfolio).
Definition getProtocol : Protocol.ProtocolSnapshot := state.(MockState.protocol).
Definition getPool : PoolView.PoolSnapshot := state.(MockState.protocol).(Protocol.pool).

Definition getLpEpochTerminalDust (epoch : Z) : TerminalDust.LpEpochTerminalDustSnapshot :=
  let dust := state.(MockState.lpEpochTerminalDust) ≫= jsGet epoch in
  TerminalDust.mk epoch (default 0 (fst <$> dust)) (default 0 (snd <$> dust))
    state.(MockState.protocol).(Protocol.ledgerVersion).

Definition getFaucetStatus (account : Address) (asset : Asset) : Faucet.FaucetStatus :=
  if bool_decide (asset = tRFL) then state.(MockState.faucetTrfl) else state.(MockState.faucetTusd).

Definition quoteSwap (input : Request.QuoteRequest) : Outcome Swap.SwapQuote :=
  let pool := state.(MockState.protocol).(Protocol.pool) in
  let isSell := bool_decide (input.(Request.direction) = sell) in
  let isBuy := bool_decide (input.(Request.direction) = buy) in
  let gross := input.(Request.grossAmount) in
  let feeBps := default 100 state.(MockState.protocol).(Protocol.reflectionFeeBps) in
  inputReflection ← (if isSell then reflectionFee gross feeBps else Returns 0);
  let reserveInput := gross - inputReflection in
  let invariantInput := Z.quot (reserveInput * (10000 - 30)) 10000 in
  let ammFee := reserveInput - invariantInput in
  let inputReserve := if isSell then pool.(PoolView.trflReserve) else pool.(PoolView.tusdReserve) in
  let outputReserve := if isSell then pool.(PoolView.tusdReserve) else pool.(PoolView.trflReserve) in
  grossPoolOutput ← bigintDivide (invariantInput * outputReserve) (inputReserve + invariantInput);
  netUserReceipt ← (if isBuy then fee ← reflectionFee grossPoolOutput feeBps; Returns (grossPoolOutput - fee)
                    else Returns grossPoolOutput);
  let minimumNetUserReceipt := Z.quot (netUserReceipt * (10000 - input.(Request.slippageBps))) 10000 in
  priceImpactBps ← (if bool_decide (inputReserve = 0) then Returns 0
                    else bigintDivide (invariantInput * 10000) (inputReserve + invariantInput));
  fee ← (if isBuy then reflectionFee grossPoolOutput feeBps else Returns inputReflection);
  Returns (Swap.mk input.(Request.direction) gross input.(Request.slippageBps) fee ammFee reserveInput grossPoolOutput
    netUserReceipt minimumNetUserReceipt priceImpactBps input.(Request.deadlineUnixSeconds)
    (SwapContext.mk CEDRA_TESTNET_CHAIN_ID pool.(PoolView.ledgerVersion) "mock-reflection-pilot"
       state.(MockState.protocol).(Protocol.packageVersion) inputReserve outputReserve feeBps 30
       pool.(PoolView.maximumGrossSwap) pool.(PoolView.maximumReserveBps))).
End Adapter.
End Mock.
