(* ===== verification/SnapshotRoundTrip.v ===== *)
(** * A snapshot that was taken is read back

    The value [encodeSnapshot] prints is well-formed JSON whose bigints the
    reviver accepts, the readers of SnapshotDecode.v invert the serializers of
    Snapshot.v, and the identifier is the one of the content. *)
From S2P Require Import Prelude JsMap Types MoveDomains JsValue Numerals Json Accounting RewardBook Replay Group.
From S2P Require Import WalletHandlers LpHandlers PoolHandlers ConfigHandlers Snapshot SnapshotDecode Ledger.
From S2P Require Import CursorRoundTrip JsonRoundTrip.

(** ** Values that survive the journey *)

Definition fits (n : Z) : bool := bool_decide (Z.abs n < 10 ^ 78).

Definition Good (j : Json) : Prop := jsonOk j = true /\ bigintsOk fits j = true.

Lemma good_string s : Good (JString s).
Proof. done. Qed.
Lemma good_bool b : Good (JBool b).
Proof. done. Qed.
Lemma good_number n : isSafeInteger n = true -> Good (JNumber n).
Proof. done. Qed.

Lemma fits_unsigned n w : isMoveUnsigned n w = true -> Good (JBigint n).
Proof.
  intros H%isMoveUnsigned_iff. split; [done|]. apply bool_decide_eq_true.
  unfold fitsUnsigned in H. assert (2 ^ widthBits w <= 2 ^ 256) by (apply Z.pow_le_mono_r; destruct w; cbn; lia). lia.
Qed.

Lemma fits_signed n : isMoveSignedU256 n = true -> Good (JBigint n).
Proof.
  rewrite isMoveSignedU256_iff. unfold fitsSignedU256. intros H. split; [done|]. apply bool_decide_eq_true. lia.
Qed.

Lemma good_array items : Forall Good items -> Good (JArray items).
Proof.
  intros H. split; cbn; apply forallb_Forall; (eapply Forall_impl; [|exact H]); by intros j [].
Qed.

Definition keysOk (keys : list string) : bool :=
  bool_decide (NoDup keys) && forallb (fun key => bool_decide (arrayIndex key = None)) keys.

Lemma forallb_map {A B} (f : A -> B) (p : B -> bool) l : forallb p (map f l) = forallb (fun x => p (f x)) l.
Proof. induction l as [|x l IH]; cbn; [done|by rewrite IH]. Qed.

Lemma good_object fields :
  keysOk (map fst fields) = true -> looksBigint fields = false -> Forall (fun field => Good field.2) fields ->
  Good (JObject fields).
Proof.
  unfold keysOk. intros Hk Hl H. apply andb_prop in Hk as [Hnd Hidx]. rewrite forallb_map in Hidx.
  split; cbn [jsonOk bigintsOk]; [rewrite Hnd, Hidx|rewrite Hl]; cbn [andb negb];
    apply forallb_Forall; (eapply Forall_impl; [|exact H]); by intros field [].
Qed.

Lemma good_nullable {A} (f : A -> Json) value : (forall a, value = Some a -> Good (f a)) -> Good (jsonNullable f value).
Proof. destruct value; cbn; [eauto|done]. Qed.

Lemma good_optional value w : isOptionalMoveUnsigned value w = true -> Good (jsonNullable JBigint value).
Proof. intros H. apply good_nullable. intros a ->. by apply (fits_unsigned a w). Qed.

(** One goal for every element of an explicit list. *)
Ltac each := repeat first [apply Forall_nil_2 | apply Forall_cons_2].

Lemma good_entries {V} (f : V -> Json) entries :
  Forall (fun entry => Good (f entry.2)) entries -> Good (entriesJson f entries).
Proof.
  intros H. apply good_array, Forall_map. eapply Forall_impl; [|exact H]. intros entry He.
  apply good_array. by each.
Qed.

Create HintDb good.
#[export] Hint Resolve good_string good_bool good_number fits_signed : good.
#[export] Hint Extern 2 (Good (jsonNullable JBigint _)) => eapply good_optional; eassumption : good.
#[export] Hint Extern 2 (Good (jsonNullable JString _)) => apply good_nullable; intros; apply good_string : good.
#[export] Hint Extern 2 (Good (JBigint _)) => eapply fits_unsigned; eassumption : good.

(** An object of fixed keys, its values one by one. *)
Ltac good_record :=
  apply good_object; [vm_compute; reflexivity|reflexivity|each; cbn [fst snd]; auto with good].

Lemma good_wallet w : isWalletPosition w = true -> Good (walletJson w).
Proof. unfold isWalletPosition. intros H. bools. good_record. Qed.

Lemma good_lpPosition p : isLpPosition p = true -> Good (lpPositionJson p).
Proof. unfold isLpPosition. intros H. bools. good_record. Qed.

Lemma good_lpEpoch e : isLpEpoch e = true -> Good (lpEpochJson e).
Proof.
  unfold isLpEpoch. intros H. bools. good_record.
  - destruct (LpEpoch.terminalRoundingBaseUnits e); [|done]. bools. cbn. auto with good.
  - apply good_array, Forall_map. match goal with H : forallb isLpPosition _ = true |- _ => apply forallb_Forall in H;
      eapply Forall_impl; [|exact H] end. apply good_lpPosition.
Qed.

Lemma good_pool p : validPool p = true -> Good (poolJson p).
Proof. unfold validPool. intros H. bools. good_record. Qed.

Lemma good_custody c : validCustody c = true -> Good (custodyJson c).
Proof. unfold validCustody. intros H. bools. good_record; eauto with good. Qed.

Lemma good_admins a : Good (adminsJson a).
Proof. good_record. Qed.

Lemma good_strings (entries : JsMap string string) : Good (entriesJson JString entries).
Proof. apply good_entries. induction entries; constructor; auto with good. Qed.

Lemma good_epochs (entries : JsMap Address Z) :
  isAddressEpochEntries entries = true -> Good (entriesJson JBigint entries).
Proof.
  unfold isAddressEpochEntries. intros H. bools. apply good_entries.
  match goal with H : forallb _ entries = true |- _ => apply forallb_Forall in H; eapply Forall_impl; [|exact H] end.
  intros entry He. cbn in He. bools. eauto with good.
Qed.

Lemma good_projection p : isProjection p = true -> Good (serialiseProjection p).
Proof.
  unfold isProjection, validCollections, validIdentity, validCore, validDeployment, validActiveEpoch. intros H. bools.
  assert (Hchain : isSafeInteger p.(Proj.chainId) = true).
  { match goal with H : Proj.chainId p = 2 |- _ => by rewrite H end. }
  assert (Hepochs : Good (JArray (map lpEpochJson (jsValues p.(Proj.lpEpochs))))).
  { apply good_array, Forall_map. match goal with H : forallb isLpEpoch _ = true |- _ => apply forallb_Forall in H;
      eapply Forall_impl; [|exact H] end. apply good_lpEpoch. }
  assert (Hpositions : Good (JArray (map walletJson (jsValues p.(Proj.positions))))).
  { apply good_array, Forall_map. match goal with H : forallb isWalletPosition _ = true |- _ => apply forallb_Forall in H;
      eapply Forall_impl; [|exact H] end. apply good_wallet. }
  unfold serialiseProjection.
  destruct (Proj.lifecycle p) as [l|]; cbn [app]; good_record; auto using good_strings, good_epochs, good_admins, good_pool, good_custody.
Qed.

Lemma good_snapshot id t c p :
  isMoveUnsigned t U64 = true -> isCursor c = true -> isProjection p = true -> Good (snapshotJson id t c p).
Proof.
  intros Ht Hc Hp. unfold snapshotJson. good_record; [|by apply good_projection].
  apply good_nullable. intros cursor ->. unfold isCursor in Hc. bools. good_record.
Qed.

(** ** The readers invert the serializers *)

Lemma mapM_inverse {A} (write : A -> Json) (read : Json -> option A) l :
  Forall (fun a => read (write a) = Some a) l -> mapM read (map write l) = Some l.
Proof. induction 1 as [|a l Ha _ IH]; [done|]. cbn. rewrite Ha. cbn. by rewrite IH. Qed.

Lemma read_wallet w : readWallet (walletJson w) = Some w.
Proof. by destruct w. Qed.

Lemma read_lpPosition p : readLpPosition (lpPositionJson p) = Some p.
Proof. by destruct p. Qed.

Lemma readNullable_inverse {A} (write : A -> Json) (read : Json -> option A) value :
  (forall a, read (write a) = Some a) -> (forall a, write a <> JNull) ->
  readNullable read (jsonNullable write value) = Some value.
Proof.
  intros Hr Hn. destruct value as [a|]; [|done]. cbn. unfold readNullable. specialize (Hn a). specialize (Hr a).
  destruct (write a); try done; by rewrite Hr.
Qed.

Lemma read_bigints value : readNullable readBigint (jsonNullable JBigint value) = Some value.
Proof. by apply readNullable_inverse. Qed.
Lemma read_strings value : readNullable readString (jsonNullable JString value) = Some value.
Proof. by apply readNullable_inverse. Qed.

Lemma read_entries {V} (write : V -> Json) (read : Json -> option V) (entries : JsMap string V) :
  (forall v, read (write v) = Some v) -> readArray (readPair readString read) (entriesJson write entries) = Some entries.
Proof.
  intros Hr. apply mapM_inverse. induction entries as [|[k v] entries IH]; constructor; [|done].
  cbn. by rewrite Hr.
Qed.

(** A list of entries keyed by what they hold is rebuilt from its values. *)
Lemma rekey {K V} (key : V -> K) (m : list (K * V)) :
  Forall (fun entry => key entry.2 = entry.1) m -> map (fun v => (key v, v)) (map snd m) = m.
Proof. induction 1 as [|[k v] m Hk _ IH]; [done|]. cbn in *. by rewrite Hk, IH. Qed.

Lemma field_hit {A} key (read : Json -> option A) fields v :
  jsGet key fields = Some v -> field key read (JObject fields) = read v.
Proof. unfold field, jsonField. by intros ->. Qed.

Lemma read_array {A} (write : A -> Json) (read : Json -> option A) l :
  Forall (fun a => read (write a) = Some a) l -> readArray read (JArray (map write l)) = Some l.
Proof. apply mapM_inverse. Qed.

Lemma read_status status : readStatus (JString (statusName status)) = Some status.
Proof. by destruct status. Qed.

Ltac read_scalars := cbn [readBigint readString readBool readNumber mbind option_bind].

Lemma read_lpEpoch e : LpMapOk e.(LpEpoch.positions) -> readLpEpoch (lpEpochJson e) = Some e.
Proof.
  intros [_ Hk]. unfold readLpEpoch, lpEpochJson. erewrite !field_hit by reflexivity.
  rewrite read_bigints, read_status, (read_array lpPositionJson readLpPosition) by (apply Forall_true, read_lpPosition).
  read_scalars. unfold jsValues. rewrite (rekey LpPos.owner) by exact Hk. by destruct e.
Qed.

Lemma read_pool p : readPool (poolJson p) = Some p.
Proof. by destruct p. Qed.

Lemma read_custody c : readCustody (custodyJson c) = Some c.
Proof.
  unfold readCustody, custodyJson. erewrite !field_hit by reflexivity. rewrite !read_bigints, !read_strings.
  by destruct c.
Qed.

Lemma read_admins a : readAdmins (adminsJson a) = Some a.
Proof. unfold readAdmins, adminsJson. erewrite !field_hit by reflexivity. rewrite !read_strings. by destruct a. Qed.

Lemma read_lifecycle p : readLifecycle (serialiseProjection p) = Some p.(Proj.lifecycle).
Proof. unfold serialiseProjection. by destruct (Proj.lifecycle p) as [[]|]. Qed.

(** What the ledger invariant says of the maps of a projection. *)
Definition MapsKeyed (p : Proj.ProtocolProjection) : Prop :=
  KeysOk p /\ Forall (fun e => LpMapOk e.(LpEpoch.positions)) (jsValues p.(Proj.lpEpochs)).

Lemma ledger_keyed p : LedgerOk p -> MapsKeyed p.
Proof.
  intros (_ & _ & _ & He & Hk). split; [done|]. eapply Forall_impl; [|exact He]. by intros e [].
Qed.

Lemma read_projection p : MapsKeyed p -> readProjection (serialiseProjection p) = Some p.
Proof.
  intros [[Hepochs Hpositions] Hmaps]. unfold readProjection. rewrite read_lifecycle. unfold serialiseProjection.
  assert (Hread : readArray readLpEpoch (JArray (map lpEpochJson (jsValues p.(Proj.lpEpochs))))
    = Some (jsValues p.(Proj.lpEpochs))).
  { apply read_array. eapply Forall_impl; [|exact Hmaps]. apply read_lpEpoch. }
  destruct (Proj.lifecycle p) as [l|] eqn:E; cbn [app]; erewrite !field_hit by reflexivity;
    rewrite !read_bigints, !read_strings, !read_entries, read_admins, read_pool, read_custody, Hread,
      (read_array walletJson readWallet) by first [done|apply Forall_true, read_wallet];
    read_scalars; unfold jsValues; rewrite (rekey LpEpoch.epoch), (rekey Wallet.account) by done;
    destruct p; cbn in E; by subst.
Qed.

Lemma read_cursor c : readCursor (cursorJson c) = Some c.
Proof. by destruct c. Qed.


(** A snapshot as [takeSnapshot] makes them. *)
Definition Taken (sha256 : string -> string) (s : Snap.IndexerSnapshot) : Prop :=
  takeSnapshot sha256 s.(Snap.projection) s.(Snap.cursor) s.(Snap.takenAtUnixMilliseconds) = Returns s.

Section Decode.
Context (sha256 : string -> string) (numberText : Z -> Z -> string).

Lemma takeSnapshot_returns p c t s :
  takeSnapshot sha256 p c t = Returns s ->
  isMoveUnsigned t U64 = true /\ isCursor c = true /\ isProjection p = true
  /\ s = Snap.mk 1 (snapshotId sha256 (snapshotIdentityEncoding t c p)) t c p.
Proof.
  unfold takeSnapshot. destruct (isMoveUnsigned t U64); [|done]. destruct (isCursor c); [|done].
  destruct (isProjection p); [|done]. by intros [= <-].
Qed.

Lemma takeSnapshot_taken p c t s : takeSnapshot sha256 p c t = Returns s -> Taken sha256 s.
Proof. intros H. pose proof H as (_ & _ & _ & ->)%takeSnapshot_returns. exact H. Qed.

(** The text of a taken snapshot reads back as it, or its hash is no digest. *)
Lemma decode_encode_cases s :
  Taken sha256 s -> MapsKeyed s.(Snap.projection) ->
  decodeSnapshot sha256 numberText (encodeSnapshot s)
  = if isSnapshotId s.(Snap.id) then Returns s else Throws (TypeError "Invalid indexer snapshot").
Proof.
  intros H Hk. pose proof H as (Ht & Hc & Hp & E)%takeSnapshot_returns. destruct s as [v id t c p].
  cbn [Snap.id Snap.takenAtUnixMilliseconds Snap.cursor Snap.projection] in *. injection E as -> Eid.
  unfold decodeSnapshot, encodeSnapshot. cbn [Snap.id Snap.takenAtUnixMilliseconds Snap.cursor Snap.projection].
  destruct (good_snapshot id t c p Ht Hc Hp) as [Hok Hbig].
  rewrite jsonParse_stringify by done. cbn [mbind outcome_bind].
  unfold snapshotReviver. rewrite (revive_plain _ _ fits); [|intros n Hn; apply parseSigned_u256; by apply bool_decide_eq_true in Hn|done].
  cbn [mbind outcome_bind].
  assert (Hread : readSnapshot (snapshotJson id t c p)
    = if isSnapshotId id then Some (Snap.mk 1 id t c p) else None).
  { unfold readSnapshot, snapshotJson. erewrite !field_hit by reflexivity. rewrite read_projection by done.
    rewrite (readNullable_inverse cursorJson readCursor) by first [apply read_cursor|done]. read_scalars.
    rewrite Ht, Hc, Hp. by destruct (isSnapshotId id). }
  rewrite Hread. destruct (isSnapshotId id); [|done]. cbn [Snap.id]. rewrite bool_decide_true; [done|].
  rewrite Eid. reflexivity.
Qed.

(** What [createHash("sha256") ... digest("hex")] documents: 64 lower-case hexadecimal digits. *)
Definition Digests : Prop := forall text, jsLength (sha256 text) = 64 /\ allChars isLowerHex (sha256 text) = true.

Lemma isSnapshotId_hash text : Digests -> isSnapshotId (snapshotId sha256 text) = true.
Proof.
  intros H. unfold isSnapshotId, snapshotId. rewrite stripPrefix_app. destruct (H text) as [-> ->]. done.
Qed.

Lemma decode_encode s :
  Digests -> Taken sha256 s -> MapsKeyed s.(Snap.projection) ->
  decodeSnapshot sha256 numberText (encodeSnapshot s) = Returns s.
Proof.
  intros Hd H Hk. rewrite decode_encode_cases by done.
  pose proof H as (_ & _ & _ & ->)%takeSnapshot_returns. cbn [Snap.id]. by rewrite isSnapshotId_hash.
Qed.

Lemma decode_encode_returns s s' :
  Taken sha256 s -> MapsKeyed s.(Snap.projection) ->
  decodeSnapshot sha256 numberText (encodeSnapshot s) = Returns s' -> s' = s.
Proof. intros H Hk. rewrite decode_encode_cases by done. destruct (isSnapshotId _); [by intros [= <-]|done]. Qed.
End Decode.
