(* ===== verification/AlertCodecSpec.v ===== *)
(** * What the alert codec keeps *)
From S2P Require Import Prelude JsMap Types MoveDomains JsValue Numerals Json Accounting Replay Group WalletHandlers LpHandlers.
From S2P Require Import PoolHandlers ConfigHandlers Snapshot SnapshotDecode AlertCodec.
From S2P Require Import Ledger CursorRoundTrip JsonRoundTrip SnapshotRoundTrip.

#[local] Arguments jsLength _ : simpl never.

Lemma alertCodeOf_name code : alertCodeOf (codeName code) = Some code.
Proof. by destruct code. Qed.

Lemma parseSigned_any n : parseSigned (jsLength (show n)) (show n) = Some n.
Proof.
  apply parseSigned_show. destruct (Z.le_gt_cases 0 n); [by rewrite Z.abs_eq|]. rewrite Z.abs_neq by lia.
  replace (show n) with ("-" ⧺ show (- n)) by (by rewrite <- show_negative, Z.opp_involutive by lia).
  unfold jsLength. change (String.length ("-" ⧺ show (- n))) with (S (String.length (show (- n)))). lia.
Qed.

(** The object an alert is written as keeps every value. *)
Lemma alertJson_ok alert :
  (forall cursor, alert.(Alert.cursor) = Some cursor -> isSafeInteger cursor.(Cursor.eventIndex) = true) ->
  jsonOk (alertJson alert) = true /\ bigintsOk (fun _ => true) (alertJson alert) = true.
Proof.
  intros Hc. destruct alert as [id severity code message detected cursor expected observed]. cbn in Hc.
  destruct cursor as [[ledger index]|]; destruct expected, observed; cbn; try done.
  all: pose proof (Hc _ eq_refl) as Hi; cbn in Hi; rewrite Hi; done.
Qed.

(** What is written is decoded exactly when it can be persisted. *)
Lemma decode_alertJson numberText alert :
  (forall cursor, alert.(Alert.cursor) = Some cursor -> isSafeInteger cursor.(Cursor.eventIndex) = true) ->
  decodeBigintJson numberText (stringify (alertJson alert)) = Returns (alertJson alert).
Proof.
  intros Hc. destruct (alertJson_ok alert Hc) as [Hok Hbig]. unfold decodeBigintJson.
  rewrite jsonParse_stringify by done. cbn [mbind outcome_bind].
  apply (revive_plain _ _ (fun _ => true)); [|done]. intros n _. apply parseSigned_any.
Qed.

Lemma boundedString_returns text label maximum r :
  boundedString (Some (JString text)) label maximum = Returns r <-> r = text /\ 1 <= jsLength text <= maximum.
Proof.
  unfold boundedString. pose proof (Nat2Z.is_nonneg (String.length text)). unfold jsLength in *.
  destruct (_ || _) eqn:E; [split; [done|]; intros [-> H1]; apply orb_prop in E as [E|E]; apply bool_decide_eq_true in E; lia|].
  bools. split; [intros [= <-]; split; [done|lia]|]. by intros [-> _].
Qed.

Lemma optionalText_returns key value fields r :
  jsGet key fields = (JString <$> value) ->
  optionalText (jsonField key (JObject fields)) = Some r
  <-> r = value /\ forall text, value = Some text -> jsLength text <= MAX_ALERT_VALUE_LENGTH.
Proof.
  cbn [jsonField]. intros ->. destruct value as [text|]; cbn.
  - case_bool_decide as Hl; split; [done|intros [-> H]; specialize (H _ eq_refl); lia| |by intros [-> _]].
    intros [= <-]. split; [done|]. intros ? [= <-]. lia.
  - split; [by intros [= <-]|by intros [-> _]].
Qed.

Lemma validCursor_returns cursor r :
  validCursor (Some (jsonNullable cursorJson cursor)) = Some r
  <-> r = cursor /\ forall c, cursor = Some c -> 0 <= c.(Cursor.ledgerVersion) /\ 0 <= c.(Cursor.eventIndex) <= MAX_SAFE_INTEGER.
Proof.
  destruct cursor as [[ledger index]|]; [|cbn; split; [by intros [= <-]|by intros [-> _]]].
  change (validCursor (Some (jsonNullable cursorJson (Some (Cursor.mk ledger index)))))
    with (if bool_decide (0 <= ledger) && isSafeInteger index && bool_decide (0 <= index)
          then Some (Some (Cursor.mk ledger index)) else None).
  unfold isSafeInteger, MAX_SAFE_INTEGER. destruct (_ && _) eqn:E.
  - bools. split; [intros [= <-]; split; [done|]; intros ? [= <-]; cbn; lia|]. by intros [-> _].
  - split; [done|]. intros [-> H]. destruct (H _ eq_refl) as [H1 H2]. cbn [Cursor.ledgerVersion Cursor.eventIndex] in *.
    rewrite !bool_decide_true in E by lia. done.
Qed.

Lemma jsGet_alert alert :
  let fields := match alertJson alert with JObject fields => fields | _ => [] end in
  jsGet "id" fields = Some (JString alert.(Alert.id))
  /\ jsGet "severity" fields = Some (JString (severityName alert.(Alert.severity)))
  /\ jsGet "code" fields = Some (JString (codeName alert.(Alert.code)))
  /\ jsGet "message" fields = Some (JString alert.(Alert.message))
  /\ jsGet "detectedAtUnixMilliseconds" fields = Some (JBigint alert.(Alert.detectedAtUnixMilliseconds))
  /\ jsGet "cursor" fields = Some (jsonNullable cursorJson alert.(Alert.cursor))
  /\ jsGet "expected" fields = (JString <$> alert.(Alert.expected))
  /\ jsGet "observed" fields = (JString <$> alert.(Alert.observed)).
Proof. destruct alert as [id severity code message detected cursor [expected|] [observed|]]; repeat split. Qed.

Lemma decodeCriticalAlert_alertJson numberText alert decoded :
  (forall cursor, alert.(Alert.cursor) = Some cursor -> isSafeInteger cursor.(Cursor.eventIndex) = true) ->
  decodeCriticalAlert numberText (stringify (alertJson alert)) = Returns decoded
  <-> decoded = alert /\ Persistable alert.
Proof.
  intros Hc. unfold decodeCriticalAlert. rewrite decode_alertJson by done. cbn [mbind outcome_bind].
  destruct (jsGet_alert alert) as (E1 & E2 & E3 & E4 & E5 & E6 & E7 & E8).
  destruct (alertJson alert) as [| | | | | | |fields] eqn:Ej; try done. cbn zeta in *.
  unfold field. cbn [jsonField]. rewrite E1, E2, E3, E4, E5, E6. cbn [mbind option_bind readString readBigint require from_option].
  rewrite alertCodeOf_name.
  pose proof (optionalText_returns "expected" alert.(Alert.expected) fields) as Hexp.
  pose proof (optionalText_returns "observed" alert.(Alert.observed) fields) as Hobs.
  cbn [jsonField] in Hexp, Hobs. cbn [require from_option mbind outcome_bind]. split.
  - intros E. apply outcome_bind_iff in E as (id & H1%boundedString_returns & E).
    apply outcome_bind_iff in E as ([] & H2 & E). destruct (bool_decide (severityName _ = _)) eqn:Hs in H2; [|discriminate H2]. clear H2.
    apply outcome_bind_iff in E as (message & H4%boundedString_returns & E).
    apply outcome_bind_iff in E as ([] & H5 & E). destruct (bool_decide (_ < 0)) eqn:Ht in H5; [discriminate H5|]. clear H5. bools.
    apply outcome_bind_iff in E as (cursor & H6 & E). apply outcome_bind_iff in E as (expected & H7 & E).
    apply outcome_bind_iff in E as (observed & H8 & [= <-]).
    assert (Hreq : forall A (o : option A) a, require o = Returns a -> o = Some a) by (intros A [x|] a; [by intros [= ->]|discriminate]).
    apply Hreq, validCursor_returns in H6 as [-> H6]. apply Hreq, Hexp in H7 as [-> H7]; [|done].
    apply Hreq, Hobs in H8 as [-> H8]; [|done]. destruct H1 as [-> H1], H4 as [-> H4].
    destruct alert as [id severity code message detected cursor expected observed]. cbn in *.
    destruct severity; try discriminate Hs. split; [done|]. split; cbn; try done. lia.
  - intros [-> [H1 H2 H4 H5 H6 H7 H8]]. rewrite H2.
    rewrite (proj2 (boundedString_returns _ _ _ _) (conj eq_refl H1)). cbn [mbind outcome_bind].
    change (bool_decide (severityName critical = "critical")) with true. cbv iota. cbn [mbind outcome_bind].
    rewrite (proj2 (boundedString_returns _ _ _ _) (conj eq_refl H4)). cbn [mbind outcome_bind].
    rewrite bool_decide_false by lia. cbn [mbind outcome_bind].
    rewrite (proj2 (validCursor_returns _ _) (conj eq_refl H6)). cbn [require from_option mbind outcome_bind].
    rewrite (proj2 (Hexp _ E7) (conj eq_refl H7)), (proj2 (Hobs _ E8) (conj eq_refl H8)). cbn [require from_option mbind outcome_bind].
    destruct alert. cbn in *. by subst.
Qed.

(** The line of an alert. *)
Definition alertText (alert : Alert.CriticalAlert) : string := stringify (alertJson alert).

Lemma persistable_index alert :
  Persistable alert ->
  forall cursor, alert.(Alert.cursor) = Some cursor -> isSafeInteger cursor.(Cursor.eventIndex) = true.
Proof.
  intros Hp cursor Hc. destruct (persistable_cursor _ Hp cursor Hc) as [_ H]. unfold isSafeInteger, MAX_SAFE_INTEGER in *.
  by rewrite !bool_decide_true by lia.
Qed.

Lemma decode_alertText numberText alert : Persistable alert -> decodeCriticalAlert numberText (alertText alert) = Returns alert.
Proof. intros Hp. apply decodeCriticalAlert_alertJson; [by apply persistable_index|done]. Qed.

Lemma encode_persistable numberText alert : Persistable alert -> encodeCriticalAlert numberText alert = Returns (alertText alert).
Proof.
  intros Hp. unfold encodeCriticalAlert, encodeBigintJson. fold (alertText alert). by rewrite decode_alertText.
Qed.

(** Alerts with an event index that JSON can hold are written exactly when they can be persisted. *)
Lemma encodeCriticalAlert_returns numberText alert text :
  (forall cursor, alert.(Alert.cursor) = Some cursor -> isSafeInteger cursor.(Cursor.eventIndex) = true) ->
  encodeCriticalAlert numberText alert = Returns text <-> Persistable alert /\ text = alertText alert.
Proof.
  intros Hc. unfold encodeCriticalAlert, encodeBigintJson. fold (alertText alert). rewrite outcome_bind_iff. split.
  - intros (decoded & E & [= <-]). apply decodeCriticalAlert_alertJson in E as [-> Hp]; done.
  - intros [Hp ->]. exists alert. by rewrite decode_alertText.
Qed.

(** Equivalent alerts differ in their time only. *)
Lemma equivalentCriticalAlert_iff left right :
  equivalentCriticalAlert left right = true
  <-> right = Alert.mk left.(Alert.id) left.(Alert.severity) left.(Alert.code) left.(Alert.message)
        right.(Alert.detectedAtUnixMilliseconds) left.(Alert.cursor) left.(Alert.expected) left.(Alert.observed).
Proof.
  unfold equivalentCriticalAlert. rewrite !andb_true_iff, !bool_decide_eq_true.
  destruct left as [i s c m d q x o], right as [i' s' c' m' d' q' x' o']. cbn. split.
  - intros (((((((-> & ->) & ->) & ->) & Hl) & He) & ->) & ->). f_equal.
    destruct q as [[l e]|], q' as [[l' e']|]; cbn in *; congruence.
  - intros [= -> -> -> -> -> -> ->]. done.
Qed.

(** ** What is decoded can be persisted *)

Lemma boundedString_bound value label maximum r :
  boundedString value label maximum = Returns r -> 1 <= jsLength r <= maximum.
Proof. destruct value as [[]|]; try discriminate. intros H. by apply boundedString_returns in H as [-> H]. Qed.

Lemma optionalText_bound value r text :
  optionalText value = Some r -> r = Some text -> jsLength text <= MAX_ALERT_VALUE_LENGTH.
Proof.
  destruct value as [[]|]; cbn; try (intros [= <-]; discriminate). case_bool_decide; [discriminate|]. intros [= <-] [= <-]. lia.
Qed.

Lemma validCursor_bound value r cursor :
  validCursor value = Some r -> r = Some cursor ->
  0 <= cursor.(Cursor.ledgerVersion) /\ 0 <= cursor.(Cursor.eventIndex) <= MAX_SAFE_INTEGER.
Proof.
  intros H ->. destruct value as [[]|]; try discriminate H; cbn [validCursor] in H;
    apply bind_Some in H as (ledger & _ & H); apply bind_Some in H as (index & _ & H);
    (destruct (_ && _ && _) eqn:E in H; [|discriminate H]); injection H as <-; unfold isSafeInteger in E; bools; cbn; lia.
Qed.

Lemma require_returns {A} (o : option A) a : require o = Returns a -> o = Some a.
Proof. destruct o; [by intros [= ->]|discriminate]. Qed.

Lemma decode_persistable numberText text alert : decodeCriticalAlert numberText text = Returns alert -> Persistable alert.
Proof.
  unfold decodeCriticalAlert. intros (j & _ & H)%outcome_bind_inv.
  destruct j; try discriminate H;
    (apply outcome_bind_inv in H as (id & H1%boundedString_bound & H);
     apply outcome_bind_inv in H as (severity & _ & H); apply outcome_bind_inv in H as ([] & _ & H);
     apply outcome_bind_inv in H as (code & _ & H); apply outcome_bind_inv in H as (message & H2%boundedString_bound & H);
     apply outcome_bind_inv in H as (time & _ & H); apply outcome_bind_inv in H as ([] & H3 & H);
     apply outcome_bind_inv in H as (cursor & H4%require_returns & H);
     apply outcome_bind_inv in H as (expected & H5%require_returns & H);
     apply outcome_bind_inv in H as (observed & H6%require_returns & [= <-]);
     destruct (bool_decide (time < 0)) eqn:Ht; [discriminate H3|]; apply bool_decide_eq_false in Ht;
     split; cbn; [exact H1|done|exact H2|lia
       |intros c Hc; exact (validCursor_bound _ _ _ H4 Hc)|intros t Hx; exact (optionalText_bound _ _ _ H5 Hx)|intros t Hx; exact (optionalText_bound _ _ _ H6 Hx)]).
Qed.
