(* ===== verification/Disk.v ===== *)
(** * Files: the system calls of [file-store.ts] and what it builds from them

    A file system is a map from absolute paths to entries; a call that fails
    changes nothing, except a write, which may leave a part of its text.  Which
    calls fail is up to [fault], so a process that dies in the middle of an
    operation is one whose calls all fail from then on.  An open file is named
    by its path.  Paths are those of POSIX.  Strings are code units below 256. *)
From stdpp Require Import gmap.
From S2P Require Import Prelude JsMap Types JsValue Json Snapshot Store.

(** ** Paths: [resolve] and [dirname] of [node:path] *)

Fixpoint splitSlash (path : string) : list string :=
  match path with
  | EmptyString => [""]
  | String "/" rest => "" :: splitSlash rest
  | String c rest =>
      match splitSlash rest with
      | segment :: segments => String c segment :: segments
      | [] => [String c ""]  (* excluded *)
      end
  end.

(** Empty segments and ["."] vanish, [".."] removes the segment before it; [above] is in reverse. *)
Definition normalizeStep (above : list string) (segment : string) : list string :=
  if bool_decide (segment = "") || bool_decide (segment = ".") then above
  else if bool_decide (segment = "..") then tail above else segment :: above.

Definition segmentsOf (path : string) : list string := rev (foldl normalizeStep [] (splitSlash path)).
Definition render (segments : list string) : string := String "/" (joinWith "/" segments).

Definition isAbsolute (path : string) : bool := match path with String "/" _ => true | _ => false end.

Definition resolvePath (cwd path : string) : string :=
  render (segmentsOf (if isAbsolute path then path else cwd ⧺ "/" ⧺ path)).

Fixpoint dropWhile {A} (f : A -> bool) (l : list A) : list A :=
  match l with
  | x :: rest => if f x then dropWhile f rest else l
  | [] => []
  end.

Definition isSlash (c : ascii) : bool := bool_decide (c = "/"%char).

(** From the end: the slashes, the last segment, the slash before it. *)
Definition dirname (path : string) : string :=
  match dropWhile (fun c => negb (isSlash c)) (dropWhile isSlash (rev (String.list_ascii_of_string path))) with
  | [] => if isAbsolute path then "/" else "."
  | [_] => "/"
  | [_; "/"%char] => "//"
  | _ :: before => String.string_of_list_ascii (rev before)
  end.

(** [Buffer.byteLength(text, "utf8")] *)
Fixpoint utf8Length (text : string) : Z :=
  match text with
  | EmptyString => 0
  | String c rest => (if bool_decide (nat_of_ascii c < 128)%nat then 1 else 2) + utf8Length rest
  end.

(** ** Entries and the operating system *)

Inductive Entry :=
| RegularFile (content : string) (mode : Z)
| Folder (mode : Z)
| SymbolicLink (target : string) (mode : Z)
| OtherEntry (mode : Z).

Definition isFile (entry : Entry) : bool := match entry with RegularFile _ _ => true | _ => false end.
Definition isDirectory (entry : Entry) : bool := match entry with Folder _ => true | _ => false end.
Definition isSymbolicLink (entry : Entry) : bool := match entry with SymbolicLink _ _ => true | _ => false end.
Definition entryMode (entry : Entry) : Z :=
  match entry with RegularFile _ mode | Folder mode | SymbolicLink _ mode | OtherEntry mode => mode end.
Definition withMode (mode : Z) (entry : Entry) : Entry :=
  match entry with
  | RegularFile content _ => RegularFile content mode
  | Folder _ => Folder mode
  | SymbolicLink target _ => SymbolicLink target mode
  | OtherEntry _ => OtherEntry mode
  end.
Definition entrySize (entry : Entry) : Z := match entry with RegularFile content _ => utf8Length content | _ => 0 end.

Abbreviation Files := (gmap string Entry).

Module Dsk.
Record Disk := mk { files : Files; calls : nat }.  (* system calls made so far *)
End Dsk.

#[export] Instance eta_Disk : Eta Dsk.Disk := fun r => Dsk.mk r.(Dsk.files) r.(Dsk.calls).

(** What a process finds around it; an answer may differ from call to call. *)
Module Os.
Record OperatingSystem := mk {
  fault : nat -> option JsError;       (* the error with which that call fails *)
  torn : nat -> nat;                   (* how much of its text a failing write leaves *)
  realpath : Files -> string -> string;
  win32 : bool;
  pid : Z;
  cwd : string;
  umask : Z;
  now : nat -> string;                 (* [new Date().toISOString()] *)
  randomHex : nat -> string            (* [randomBytes(8).toString("hex")] *)
}.
End Os.

(** An error of the system starts its message with its code. *)
Definition systemError (code call path : string) : JsError := mkError "Error" (code ⧺ ": " ⧺ call ⧺ " " ⧺ path).

(** [(error as NodeJS.ErrnoException).code === code] *)
Definition hasCode (code : string) (e : JsError) : bool :=
  match stripPrefix (code ⧺ ":") e.(err_message) with Some _ => true | None => false end.

(** ** [try]: errors as values *)

Definition tryCatch {S A} (m : Task S A) (handler : JsError -> Task S A) : Task S A := fun s =>
  match m s with
  | (Returns a, s') => (Returns a, s')
  | (Throws e, s') => handler e s'
  end.

(** [await m.catch(() => undefined)] *)
Definition attempt {S A} (m : Task S A) : Task S unit := tryCatch (m ;; mret tt) (fun _ => mret tt).

(** [try { return await m } finally { await cleanup }] *)
Definition finallyDo {S A} (m : Task S A) (cleanup : Task S unit) : Task S A := fun s =>
  let '(o, s') := m s in
  match cleanup s' with
  | (Returns _, s'') => (o, s'')
  | (Throws e, s'') => (Throws e, s'')
  end.

(** States with a disk in them. *)
Class HasDisk (S : Type) := {
  diskOf : S -> Dsk.Disk;
  setDisk : Dsk.Disk -> S -> S;
  diskOf_setDisk d s : diskOf (setDisk d s) = d
}.

#[export] Instance disk_hasDisk : HasDisk Dsk.Disk := {| diskOf := fun d => d; setDisk := fun d _ => d; diskOf_setDisk _ _ := eq_refl |}.

Definition onDisk {S A} `{HasDisk S} (m : Task Dsk.Disk A) : Task S A := fun s =>
  let '(o, d) := m (diskOf s) in (o, setDisk d s).

Section Calls.
Context (os : Os.OperatingSystem).

Definition resolve (path : string) : string := resolvePath os.(Os.cwd) path.

(** ** System calls *)

Definition systemCall {A} (effect : Files -> Outcome A * Files) : Task Dsk.Disk A := fun d =>
  let counted := d <| Dsk.calls := S d.(Dsk.calls) |> in
  match os.(Os.fault) d.(Dsk.calls) with
  | Some e => (Throws e, counted)
  | None => let '(o, files) := effect d.(Dsk.files) in (o, counted <| Dsk.files := files |>)
  end.

(** A call that only looks. *)
Definition looks {A} (answer : Files -> Outcome A) : Task Dsk.Disk A := systemCall (fun files => (answer files, files)).

Definition present (call path : string) (files : Files) : Outcome Entry :=
  from_option Returns (Throws (systemError "ENOENT" call path)) (files !! path).

(** [mkdir(path, { recursive: true, mode })] *)
Fixpoint makeDirectories (mode : Z) (above segments : list string) (files : Files) : Outcome unit * Files :=
  match segments with
  | [] => (Returns tt, files)
  | segment :: rest =>
      let path := render (above ++ [segment]) in
      match files !! path with
      | None => makeDirectories mode (above ++ [segment]) rest (<[path := Folder mode]> files)
      | Some (Folder _) | Some (SymbolicLink _ _) => makeDirectories mode (above ++ [segment]) rest files
      | Some _ => (Throws (systemError (match rest with [] => "EEXIST" | _ => "ENOTDIR" end) "mkdir" path), files)
      end
  end.
Definition mkdir (path : string) (mode : Z) : Task Dsk.Disk unit :=
  systemCall (makeDirectories (Z.ldiff mode os.(Os.umask)) [] (segmentsOf path)).

Definition lstat (path : string) : Task Dsk.Disk Entry := looks (present "lstat" path).
Definition realpath (path : string) : Task Dsk.Disk string := looks (fun files => Returns (os.(Os.realpath) files path)).

Definition chmod (path : string) (mode : Z) : Task Dsk.Disk unit :=
  systemCall (fun files =>
    match files !! path with
    | Some entry => (Returns tt, <[path := withMode mode entry]> files)
    | None => (Throws (systemError "ENOENT" "chmod" path), files)
    end).

(** [open(path, O_WRONLY | O_CREAT | O_EXCL, mode)], also ["wx"]: the name is free and its directory exists. *)
Definition openExclusive (path : string) (mode : Z) : Task Dsk.Disk unit :=
  systemCall (fun files =>
    match files !! path, files !! dirname path with
    | Some _, _ => (Throws (systemError "EEXIST" "open" path), files)
    | None, None => (Throws (systemError "ENOENT" "open" path), files)
    | None, Some _ => (Returns tt, <[path := RegularFile "" (Z.ldiff mode os.(Os.umask))]> files)
    end).

(** [open(path, O_RDONLY | O_NOFOLLOW)] *)
Definition openRead (path : string) : Task Dsk.Disk unit :=
  looks (fun files =>
    entry ← present "open" path files;
    if isSymbolicLink entry then Throws (systemError "ELOOP" "open" path) else Returns tt).

(** [open(directory, "r")] *)
Definition openDirectory (path : string) : Task Dsk.Disk unit := looks (fun files => present "open" path files ≫= fun _ => Returns tt).

Definition handleStat (path : string) : Task Dsk.Disk Entry := looks (present "fstat" path).
Definition handleSync (path : string) : Task Dsk.Disk unit := looks (fun _ => Returns tt).
Definition handleClose (path : string) : Task Dsk.Disk unit := looks (fun _ => Returns tt).
Definition handleReadFile (path : string) : Task Dsk.Disk string :=
  looks (fun files =>
    match files !! path with
    | Some (RegularFile content _) => Returns content
    | _ => Throws (systemError "EISDIR" "read" path)
    end).

(** [handle.writeFile(value, "utf8")] on a file just created. *)
Definition setContent (content : string) (entry : Entry) : Entry :=
  match entry with RegularFile _ mode => RegularFile content mode | _ => entry end.
Definition handleWriteFile (path value : string) : Task Dsk.Disk unit := fun d =>
  let written := match os.(Os.fault) d.(Dsk.calls) with
                 | Some _ => String.substring 0 (os.(Os.torn) d.(Dsk.calls)) value
                 | None => value
                 end in
  (from_option Throws (Returns tt) (os.(Os.fault) d.(Dsk.calls)),
   Dsk.mk (alter (setContent written) path d.(Dsk.files)) (S d.(Dsk.calls))).

Definition unlink (path : string) : Task Dsk.Disk unit :=
  systemCall (fun files =>
    match files !! path with
    | None => (Throws (systemError "ENOENT" "unlink" path), files)
    | Some (Folder _) => (Throws (systemError "EISDIR" "unlink" path), files)
    | Some _ => (Returns tt, delete path files)
    end).

(** [rename(from, to)] of a file: the name [to] changes hands in one step. *)
Definition rename (from to : string) : Task Dsk.Disk unit :=
  systemCall (fun files =>
    match files !! from, files !! to with
    | None, _ => (Throws (systemError "ENOENT" "rename" from), files)
    | Some _, Some (Folder _) => (Throws (systemError "EISDIR" "rename" to), files)
    | Some entry, _ => (Returns tt, <[to := entry]> (delete from files))
    end).

(** ** [validateSecureDirectory] *)

Definition groupAndOthers (entry : Entry) : Z := Z.land (entryMode entry) 63.  (* 0o077 *)

Definition validateSecureDirectory (path : string) (create : bool) : Task Dsk.Disk bool :=
  let directory := resolve path in
  (if create then mkdir directory 448 else mret tt) ;;  (* 0o700 *)
  metadata ← tryCatch (entry ← lstat directory; mret (Some entry))
    (fun e => if negb create && hasCode "ENOENT" e then mret None else throwing e);
  match metadata with
  | None => mret false
  | Some metadata =>
      unlessThrow (isDirectory metadata && negb (isSymbolicLink metadata))
        (TypeError ("Durable indexer path is not a real directory: " ⧺ directory)) ;;
      (if os.(Os.win32) then mret tt
       else real ← realpath directory;
            unlessThrow (bool_decide (real = directory))
              (TypeError ("Durable indexer directory contains a symbolic-link component: " ⧺ directory))) ;;
      (if os.(Os.win32) then mret tt
       else if create then chmod directory 448
       else unlessThrow (bool_decide (groupAndOthers metadata = 0))
              (TypeError ("Durable indexer directory must be owner-only (0700): " ⧺ directory))) ;;
      mret true
  end.

(** ** [withExclusiveFileLock] *)

Definition lockText (call : nat) : string :=
  stringify (JObject [("pid", JNumber os.(Os.pid)); ("acquiredAt", JString (os.(Os.now) call))]) ⧺ String NEWLINE "".

Definition takeLock (resolvedLock : string) : Task Dsk.Disk unit :=
  tryCatch (openExclusive resolvedLock 384)  (* 0o600 *)
    (fun e => if hasCode "EEXIST" e || hasCode "ELOOP" e
              then throwing (ConcurrentDurableWriterError resolvedLock) else throwing e).

Definition releaseLock (resolvedLock : string) : Task Dsk.Disk unit :=
  attempt (handleClose resolvedLock) ;; attempt (unlink resolvedLock).

Definition withExclusiveFileLock {S T} `{HasDisk S} (lockPath : string) (operation : Task S T) : Task S T :=
  let resolvedLock := resolve lockPath in
  onDisk (validateSecureDirectory (dirname resolvedLock) true) ;;
  onDisk (takeLock resolvedLock) ;;
  finallyDo
    (onDisk (d ← getState; handleWriteFile resolvedLock (lockText d.(Dsk.calls)) ;; handleSync resolvedLock) ;;
     operation)
    (onDisk (releaseLock resolvedLock)).

(** ** [readFileSecurely] *)

Definition readFileSecurely (path : string) (maximumBytes : Z) : Task Dsk.Disk (option string) :=
  valid ← validateSecureDirectory (dirname path) false;
  if negb valid then mret None
  else
    opened ← tryCatch (openRead path ;; mret true)
      (fun e => if hasCode "ENOENT" e then mret false
                else if hasCode "ELOOP" e
                then throwing (TypeError ("Refusing to follow a symbolic link for durable state: " ⧺ path))
                else throwing e);
    if negb opened then mret None
    else
      finallyDo
        (metadata ← handleStat path;
         unlessThrow (isFile metadata && negb (isSymbolicLink metadata))
           (TypeError ("Durable state is not a regular file: " ⧺ path)) ;;
         unlessThrow (isSafeInteger maximumBytes && bool_decide (0 < maximumBytes)
                      && bool_decide (entrySize metadata <= maximumBytes))
           (RangeError ("Durable state exceeds its " ⧺ show maximumBytes ⧺ " byte limit: " ⧺ path)) ;;
         unlessThrow (os.(Os.win32) || bool_decide (groupAndOthers metadata = 0))
           (TypeError ("Durable state must be owner-only (0600): " ⧺ path)) ;;
         text ← handleReadFile path;
         mret (Some text))
        (handleClose path).

(** ** [writeFileAtomically] *)

Definition temporaryName (path : string) (call : nat) : string :=
  path ⧺ "." ⧺ show os.(Os.pid) ⧺ "." ⧺ os.(Os.randomHex) call ⧺ ".tmp".

(** [try { m } catch (error) { cleanup; throw error }] *)
Definition orElse {S A} (m : Task S A) (cleanup : Task S unit) : Task S A := tryCatch m (fun e => cleanup ;; throwing e).

Definition writeFileAtomically (path value : string) : Task Dsk.Disk unit :=
  let directory := dirname path in
  validateSecureDirectory directory true ;;
  d ← getState;
  let temporary := temporaryName path d.(Dsk.calls) in
  openExclusive temporary 384 ;;
  orElse (handleWriteFile temporary value ;; handleSync temporary)
    (attempt (handleClose temporary) ;; attempt (unlink temporary)) ;;
  orElse (handleClose temporary) (attempt (unlink temporary)) ;;
  orElse (rename temporary path) (attempt (unlink temporary)) ;;
  attempt (openDirectory directory ;; finallyDo (handleSync directory) (handleClose directory)).
End Calls.
