(* ===== verification/FileStore.v ===== *)
(** * The durable store: [FileIndexerStore] of [file-store.ts]

    The class over the files of Disk.v: one snapshot file and one journal of
    alerts under one directory, each an envelope that names the release manifest
    and the hash of its payload.  A method is a [Task] on the fields of the
    object and the disk; a mutation runs to its end before its caller goes on, so
    none is pending when a writer ends.  A lease is an object identity. *)
From stdpp Require Import gmap.
From S2P Require Import Prelude JsMap Types MoveDomains JsValue Json Snapshot SnapshotDecode AlertCodec Store Disk.

Definition MAX_SNAPSHOT_BYTES : Z := 128 * 1024 * 1024.
Definition MAX_ALERT_BYTES : Z := 64 * 1024 * 1024.

(** [/^[0-9a-f]{64}$/] *)
Definition isSha256Digest (value : string) : bool := bool_decide (jsLength value = 64) && allChars isLowerHex value.

Definition assertSha256Digest (value label : string) : Outcome string :=
  if isSha256Digest value then Returns value else Throws (TypeError (label ⧺ " must be a lowercase SHA-256 digest")).

(** [`${JSON.stringify(value)}\n`] *)
Definition jsonLine (value : Json) : string := stringify value ⧺ String NEWLINE "".

Definition snapshotEnvelope (manifestSha256 payloadSha256 snapshot : string) : Json :=
  JObject [("schemaVersion", JNumber 1); ("manifestSha256", JString manifestSha256);
           ("payloadSha256", JString payloadSha256); ("snapshot", JString snapshot)].
Definition jsonStrings (texts : list string) : Json := JArray (map JString texts).
Definition alertEnvelope (manifestSha256 payloadSha256 : string) (alerts : list string) : Json :=
  JObject [("schemaVersion", JNumber 1); ("manifestSha256", JString manifestSha256);
           ("payloadSha256", JString payloadSha256); ("alerts", jsonStrings alerts)].

(** ** Monotone snapshots *)

Definition compareSnapshotCursor (left right : option Cursor.EventCursor) : Z :=
  match left, right with
  | None, None => 0
  | None, Some _ => -1
  | Some _, None => 1
  | Some l, Some r =>
      if bool_decide (l.(Cursor.ledgerVersion) <> r.(Cursor.ledgerVersion))
      then (if bool_decide (l.(Cursor.ledgerVersion) < r.(Cursor.ledgerVersion)) then -1 else 1)
      else l.(Cursor.eventIndex) - r.(Cursor.eventIndex)
  end.

Section FileStore.
Context (sha256 : string -> string) (numberText : Z -> Z -> string).

(** The properties that are [undefined] are left out. *)
Definition definedFields (keys : list string) (j : Json) : list (string * Json) :=
  omap (fun key => value ← jsonField key j; Some (key, value)) keys.

Definition snapshotStateDigest (snapshot : Snap.IndexerSnapshot) : Outcome string :=
  serialised ← jsonParse numberText (encodeSnapshot snapshot);
  Returns (sha256 (stringify (JObject (definedFields ["schemaVersion"; "cursor"; "projection"] serialised)))).

Definition assertMonotonicSnapshot (existing candidate : Snap.IndexerSnapshot) : Outcome unit :=
  let order := compareSnapshotCursor candidate.(Snap.cursor) existing.(Snap.cursor) in
  if bool_decide (order < 0)
  then Throws (StaleIndexerSnapshotError "candidate cursor precedes the durable cursor")
  else if bool_decide (order = 0) then
    candidateDigest ← snapshotStateDigest candidate; existingDigest ← snapshotStateDigest existing;
    if bool_decide (candidateDigest = existingDigest) then Returns tt
    else Throws (StaleIndexerSnapshotError "the same cursor was reused with different projection state")
  else Returns tt.

(** ** Envelopes *)

Definition invalidSnapshotEnvelope : JsError :=
  TypeError "Invalid or release-manifest-mismatched indexer snapshot envelope".

(** The payload of an envelope of the right version and manifest. *)
Definition parseSnapshotEnvelope (manifestSha256 encoded : string) : Outcome string :=
  value ← jsonParse numberText encoded;
  match field "schemaVersion" readNumber value, field "manifestSha256" readString value,
        field "payloadSha256" readString value, field "snapshot" readString value with
  | Some version, Some manifest, Some payloadSha256, Some snapshot =>
      (if bool_decide (version <> 1) || bool_decide (manifest <> manifestSha256)
       then Throws invalidSnapshotEnvelope else Returns tt) ≫= fun _ =>
      assertSha256Digest payloadSha256 "snapshot payload digest" ≫= fun _ =>
      if bool_decide (sha256 snapshot <> payloadSha256)
      then Throws (TypeError "Indexer snapshot payload digest mismatch") else Returns snapshot
  | _, _, _, _ => Throws invalidSnapshotEnvelope
  end.

Definition invalidAlertEnvelope : JsError :=
  TypeError "Invalid or release-manifest-mismatched critical-alert envelope".

(** [for (const alert of envelope.alerts)]: every record decodes, under an id of its own. *)
Fixpoint validateRecords (ids : list string) (alerts : list string) : Outcome unit :=
  match alerts with
  | [] => Returns tt
  | alert :: rest =>
      decoded ← decodeCriticalAlert numberText alert;
      if bool_decide (decoded.(Alert.id) ∈ ids)
      then Throws (TypeError ("Duplicate persisted critical alert ID: " ⧺ decoded.(Alert.id)))
      else validateRecords (decoded.(Alert.id) :: ids) rest
  end.

(** What [loadAlertStrings] makes of the text of the file. *)
Definition parseAlertEnvelope (manifestSha256 encoded : string) : Outcome (list string) :=
  value ← jsonParse numberText encoded;
  match field "schemaVersion" readNumber value, field "manifestSha256" readString value,
        field "payloadSha256" readString value, field "alerts" (readArray readString) value with
  | Some version, Some manifest, Some payloadSha256, Some alerts =>
      (if bool_decide (version <> 1) || bool_decide (manifest <> manifestSha256)
       then Throws invalidAlertEnvelope else Returns tt) ≫= fun _ =>
      assertSha256Digest payloadSha256 "critical-alert payload digest" ≫= fun _ =>
      if bool_decide (sha256 (stringify (jsonStrings alerts)) <> payloadSha256)
      then Throws (TypeError "Critical-alert payload digest mismatch")
      else validateRecords [] alerts ≫= fun _ => Returns alerts
  | _, _, _, _ => Throws invalidAlertEnvelope
  end.

(** The loop of [appendAlertsUnderLease]: the first record of an id stays. *)
Fixpoint mergeAlerts (incoming : list (Alert.CriticalAlert * string)) (byId : list (string * string))
    : Outcome (list (string * string)) :=
  match incoming with
  | [] => Returns byId
  | (alert, alertEncoded) :: rest =>
      match jsGet alert.(Alert.id) byId with
      | Some prior =>
          decoded ← decodeCriticalAlert numberText prior;
          if equivalentCriticalAlert decoded alert then mergeAlerts rest byId
          else Throws (TypeError ("Critical alert ID was reused with different content: " ⧺ alert.(Alert.id)))
      | None => mergeAlerts rest (jsSet alert.(Alert.id) alertEncoded byId)
      end
  end.
End FileStore.

Module Fs.
Record FileIndexerStore := mk {
  snapshotPath : string;
  alertsPath : string;
  writerLeasePath : string;
  manifestSha256 : string;
  activeLease : option Lease;
  leaseMutationFailures : list JsError;
  issued : Lease;               (* leases below were issued *)
  disk : Dsk.Disk
}.
End Fs.

#[export] Instance eta_FileIndexerStore : Eta Fs.FileIndexerStore :=
  fun r => Fs.mk r.(Fs.snapshotPath) r.(Fs.alertsPath) r.(Fs.writerLeasePath) r.(Fs.manifestSha256) r.(Fs.activeLease)
             r.(Fs.leaseMutationFailures) r.(Fs.issued) r.(Fs.disk).

#[export] Instance store_hasDisk : HasDisk Fs.FileIndexerStore :=
  {| diskOf := Fs.disk; setDisk := fun d s => s <| Fs.disk := d |>; diskOf_setDisk _ _ := eq_refl |}.

Module Durable.
Section Durable.
Context (os : Os.OperatingSystem) (sha256 : string -> string) (numberText : Z -> Z -> string).

#[local] Notation Method := (Task Fs.FileIndexerStore).

(** [new FileIndexerStore(directory, manifestSha256)] over the disk. *)
Definition newFileIndexerStore (directory manifestSha256 : string) (disk : Dsk.Disk) : Outcome Fs.FileIndexerStore :=
  let root := resolve os directory in
  let within name := resolve os (root ⧺ "/" ⧺ name) in
  digest ← assertSha256Digest manifestSha256 "release manifest digest";
  Returns {| Fs.snapshotPath := within "indexer-snapshot.json"; Fs.alertsPath := within "critical-alerts.json";
             Fs.writerLeasePath := within "indexer-writer.lock"; Fs.manifestSha256 := digest;
             Fs.activeLease := None; Fs.leaseMutationFailures := []; Fs.issued := 0%nat; Fs.disk := disk |}.

Definition assertActiveLease (lease : Lease) : Method unit :=
  s ← getState; unlessThrow (bool_decide (s.(Fs.activeLease) = Some lease)) InvalidIndexerWriterLeaseError.

(** A mutation that fails is remembered until the writer ends. *)
Definition trackLeaseMutation (operation : Method unit) : Method unit :=
  tryCatch operation (fun e =>
    modifyState (fun s => s <| Fs.leaseMutationFailures := s.(Fs.leaseMutationFailures) ++ [e] |>) ;; throwing e).

(** [Object.freeze({})] *)
Definition issueLease : Method Lease := fun s => (Returns s.(Fs.issued), s <| Fs.issued := S s.(Fs.issued) |>).

Definition withExclusiveWriter {T} (operation : Lease -> Method T) : Method T :=
  s ← getState;
  withExclusiveFileLock os s.(Fs.writerLeasePath)
    (lease ← issueLease;
     modifyState (fun s => s <| Fs.activeLease := Some lease |> <| Fs.leaseMutationFailures := [] |>) ;;
     callback ← (fun s => let '(result, s') := operation lease s in (Returns result, s'));
     modifyState (fun s => s <| Fs.activeLease := None |>) ;;
     s ← getState;
     modifyState (fun s => s <| Fs.leaseMutationFailures := [] |>) ;;
     evaluate callback ≫= fun result =>
     match s.(Fs.leaseMutationFailures) with
     | mutationFailure :: _ => throwing mutationFailure
     | [] => mret result
     end).

Definition loadLatestSnapshot : Method (option Snap.IndexerSnapshot) :=
  s ← getState;
  encoded ← onDisk (readFileSecurely os s.(Fs.snapshotPath) MAX_SNAPSHOT_BYTES);
  match encoded with
  | None => mret None
  | Some encoded =>
      snapshot ← evaluate (parseSnapshotEnvelope sha256 numberText s.(Fs.manifestSha256) encoded ≫= decodeSnapshot sha256 numberText);
      mret (Some snapshot)
  end.

Definition saveSnapshotUnderLease (snapshot : Snap.IndexerSnapshot) (lease : Lease)
    (expectedBaseSnapshotId : option string) : Method unit :=
  s ← getState;
  unlessThrow (from_option isSnapshotId true expectedBaseSnapshotId)
    (TypeError "Expected base snapshot ID is malformed") ;;
  let payload := encodeSnapshot snapshot in
  validatedSnapshot ← evaluate (decodeSnapshot sha256 numberText payload);
  let encoded := jsonLine (snapshotEnvelope s.(Fs.manifestSha256) (sha256 payload) payload) in
  unlessThrow (bool_decide (utf8Length encoded <= MAX_SNAPSHOT_BYTES))
    (RangeError "Indexer snapshot envelope exceeds its durable file limit") ;;
  withExclusiveFileLock os (s.(Fs.snapshotPath) ⧺ ".lock")
    (assertActiveLease lease ;;
     existing ← loadLatestSnapshot;
     unlessThrow (bool_decide (Snap.id <$> existing = expectedBaseSnapshotId))
       (StaleIndexerSnapshotError "durable base changed after this indexer restored its state") ;;
     evaluate (match existing with
               | Some existing => assertMonotonicSnapshot sha256 numberText existing validatedSnapshot
               | None => Returns tt
               end) ;;
     assertActiveLease lease ;;
     onDisk (writeFileAtomically os s.(Fs.snapshotPath) encoded)).

Definition saveSnapshot (snapshot : Snap.IndexerSnapshot) (lease : Lease) (expectedBaseSnapshotId : option string)
    : Method unit :=
  assertActiveLease lease ;;
  trackLeaseMutation (saveSnapshotUnderLease snapshot lease expectedBaseSnapshotId).

Definition loadAlertStrings : Method (list string) :=
  s ← getState;
  encoded ← onDisk (readFileSecurely os s.(Fs.alertsPath) MAX_ALERT_BYTES);
  match encoded with
  | None => mret []
  | Some encoded => evaluate (parseAlertEnvelope sha256 numberText s.(Fs.manifestSha256) encoded)
  end.

Definition appendAlertsUnderLease (alerts : list Alert.CriticalAlert) (lease : Lease) : Method unit :=
  s ← getState;
  incoming ← evaluate (mapM (fun alert => encoded ← encodeCriticalAlert numberText alert; Returns (alert, encoded)) alerts);
  withExclusiveFileLock os (s.(Fs.alertsPath) ⧺ ".lock")
    (assertActiveLease lease ;;
     existing ← loadAlertStrings;
     entries ← evaluate (mapM (fun entry => decoded ← decodeCriticalAlert numberText entry;
                                            Returns (decoded.(Alert.id), entry)) existing);
     byId ← evaluate (mergeAlerts numberText incoming (jsFromEntries entries));
     let payload := stringify (jsonStrings (jsValues byId)) in
     let encoded := jsonLine (alertEnvelope s.(Fs.manifestSha256) (sha256 payload) (jsValues byId)) in
     unlessThrow (bool_decide (utf8Length encoded <= MAX_ALERT_BYTES))
       (RangeError "Critical-alert envelope exceeds its durable file limit") ;;
     assertActiveLease lease ;;
     onDisk (writeFileAtomically os s.(Fs.alertsPath) encoded)).

Definition appendAlerts (alerts : list Alert.CriticalAlert) (lease : Lease) : Method unit :=
  assertActiveLease lease ;;
  match alerts with
  | [] => mret tt
  | _ => trackLeaseMutation (appendAlertsUnderLease alerts lease)
  end.

Definition listAlerts : Method (list Alert.CriticalAlert) :=
  alerts ← loadAlertStrings; evaluate (mapM (decodeCriticalAlert numberText) alerts).
End Durable.
End Durable.

(** ** [FileCriticalAlertSink] of [worker.ts] *)

Definition MAX_DELIVERED_ALERT_BYTES : Z := 64 * 1024 * 1024.

Module Sink.
Record FileCriticalAlertSink := mk { path : string; manifestSha256 : string }.

Section Sink.
Context (os : Os.OperatingSystem) (sha256 : string -> string) (numberText : Z -> Z -> string).

(** [new FileCriticalAlertSink(path, manifestSha256)] *)
Definition newFileCriticalAlertSink (path manifestSha256 : string) : Outcome FileCriticalAlertSink :=
  digest ← assertSha256Digest manifestSha256 "release manifest digest"; Returns (mk (resolve os path) digest).

Context (sink : FileCriticalAlertSink).

(** What [load] makes of the text of the file. *)
Definition parseDelivered (encoded : string) : Outcome (list Alert.CriticalAlert) :=
  value ← jsonParse numberText encoded;
  match field "schemaVersion" readNumber value, field "manifestSha256" readString value,
        field "payloadSha256" readString value, field "alerts" (readArray readString) value with
  | Some version, Some manifest, Some payloadSha256, Some alerts =>
      (if bool_decide (version <> 1) || bool_decide (manifest <> sink.(manifestSha256))
       then Throws (TypeError "Invalid delivered-alert file") else Returns tt) ≫= fun _ =>
      (if isSha256Digest payloadSha256 then Returns tt
       else Throws (TypeError "Invalid delivered-alert payload digest")) ≫= fun _ =>
      (if bool_decide (sha256 (stringify (jsonStrings alerts)) <> payloadSha256)
       then Throws (TypeError "Delivered-alert payload digest mismatch") else Returns tt) ≫= fun _ =>
      decoded ← mapM (decodeCriticalAlert numberText) alerts;
      if hasUnique (map Alert.id decoded) then Returns decoded
      else Throws (TypeError "Duplicate delivered critical alert ID")
  | _, _, _, _ => Throws (TypeError "Invalid delivered-alert file")
  end.

Definition load : Task Dsk.Disk (list Alert.CriticalAlert) :=
  encoded ← readFileSecurely os sink.(path) MAX_DELIVERED_ALERT_BYTES;
  match encoded with
  | None => mret []
  | Some encoded => evaluate (parseDelivered encoded)
  end.

Definition deliver (alert : Alert.CriticalAlert) : Task Dsk.Disk unit :=
  next ← evaluate (encodeCriticalAlert numberText alert);
  withExclusiveFileLock os (sink.(path) ⧺ ".lock")
    (existing ← load;
     match arrayFind (fun entry => bool_decide (entry.(Alert.id) = alert.(Alert.id))) existing with
     | Some prior =>
         unlessThrow (equivalentCriticalAlert prior alert)
           (TypeError ("Delivered critical alert ID was reused with different content: " ⧺ alert.(Alert.id)))
     | None =>
         encodedExisting ← evaluate (mapM (encodeCriticalAlert numberText) existing);
         let encoded := encodedExisting ++ [next] in
         let payload := stringify (jsonStrings encoded) in
         let output := jsonLine (alertEnvelope sink.(manifestSha256) (sha256 payload) encoded) in
         unlessThrow (bool_decide (utf8Length output <= MAX_DELIVERED_ALERT_BYTES))
           (RangeError "Delivered critical-alert file exceeds its durable file limit") ;;
         writeFileAtomically os sink.(path) output
     end).

Definition listDelivered : Task Dsk.Disk (list Alert.CriticalAlert) := load.
End Sink.
End Sink.
