(* ===== verification/DiskSpec.v ===== *)
(** * Files under one directory: what an operation leaves alone, and what it leaves behind

    Every operation of the store works on names of one directory.  [Untouched P]
    relates two file systems that differ there only at the names in [P] and in
    the modes of the directories above them.  The lemmas hold for any faults, so
    for a process that dies at any point; those of the last section are for a
    system without faults. *)
From stdpp Require Import gmap.
From S2P Require Import Prelude JsMap Types MoveDomains JsValue Numerals Json Store CursorRoundTrip Disk.

(** ** Paths: what [resolve] and [dirname] do on names under a directory *)

(** ** Segments *)

Definition noSlash (s : string) : bool := allChars (fun c => negb (isSlash c)) s.

(** A name that a resolved path can contain. *)
Definition isSegment (s : string) : bool :=
  noSlash s && negb (bool_decide (s = "")) && negb (bool_decide (s = ".")) && negb (bool_decide (s = "..")).

Abbreviation Segments := (Forall (fun s => isSegment s = true)).

Lemma isSegment_noSlash s : isSegment s = true -> noSlash s = true.
Proof. unfold isSegment. intros H. by bools. Qed.

Lemma isSegment_nonempty s : isSegment s = true -> s <> "".
Proof. unfold isSegment. intros H. by bools. Qed.

Lemma splitSlash_String c rest : c <> "/"%char ->
  splitSlash (String c rest)
  = match splitSlash rest with segment :: segments => String c segment :: segments | [] => [String c ""] end.
Proof. intros H. destruct c as [[] [] [] [] [] [] [] []]; try reflexivity. by destruct H. Qed.

Lemma splitSlash_nonempty s : splitSlash s <> [].
Proof.
  destruct s as [|c s]; [done|]. destruct (decide (c = "/"%char)) as [->|Hc]; [done|].
  rewrite splitSlash_String by done. by destruct (splitSlash s).
Qed.

Lemma splitSlash_app a b : splitSlash (a ⧺ String "/" b) = splitSlash a ++ splitSlash b.
Proof.
  induction a as [|c a IH]; [done|]. change (String c a ⧺ String "/" b) with (String c (a ⧺ String "/" b)).
  destruct (decide (c = "/"%char)) as [->|Hc].
  - change (splitSlash (String "/" (a ⧺ String "/" b))) with ("" :: splitSlash (a ⧺ String "/" b)). by rewrite IH.
  - rewrite !splitSlash_String, IH by done. pose proof (splitSlash_nonempty a). by destruct (splitSlash a).
Qed.

Lemma splitSlash_noSlash s : noSlash s = true -> splitSlash s = [s].
Proof.
  induction s as [|c s IH]; [done|]. unfold noSlash, isSlash. cbn [allChars]. intros H. bools.
  rewrite splitSlash_String by done. by rewrite IH.
Qed.

Lemma splitSlash_parts s : Forall (fun part => noSlash part = true) (splitSlash s).
Proof.
  induction s as [|c s IH]; [by repeat constructor|]. destruct (decide (c = "/"%char)) as [->|Hc].
  - by constructor.
  - rewrite splitSlash_String by done.
    assert (Hn : noSlash (String c "") = true) by (unfold noSlash, isSlash; cbn; by rewrite bool_decide_false).
    destruct (splitSlash s) as [|part parts]; [by repeat constructor|]. inversion IH as [|?? Hpart Hparts]; subst.
    constructor; [|done]. unfold noSlash, isSlash in *. cbn in *. by rewrite Hpart, bool_decide_false.
Qed.

Lemma splitSlash_joinWith segments :
  segments <> [] -> Forall (fun part => noSlash part = true) segments -> splitSlash (joinWith "/" segments) = segments.
Proof.
  intros Hne H. induction H as [|part parts Hpart Hparts IH]; [done|]. destruct parts as [|next parts].
  - by apply splitSlash_noSlash.
  - change (joinWith "/" (part :: next :: parts)) with (part ⧺ String "/" (joinWith "/" (next :: parts))).
    by rewrite splitSlash_app, splitSlash_noSlash, IH.
Qed.

(** ** [resolve] *)

Lemma normalizeStep_segment above segment : isSegment segment = true -> normalizeStep above segment = segment :: above.
Proof. unfold isSegment, normalizeStep. intros H. bools. by rewrite !bool_decide_false. Qed.

Lemma normalize_segments above segments : Segments segments -> foldl normalizeStep above segments = rev segments ++ above.
Proof.
  intros H. revert above. induction H as [|s segments Hs _ IH]; intros above; [done|]. cbn [foldl rev].
  rewrite normalizeStep_segment, IH by done. by rewrite <- app_assoc.
Qed.

Lemma normalize_sound above parts :
  Segments above -> Forall (fun part => noSlash part = true) parts -> Segments (foldl normalizeStep above parts).
Proof.
  intros Ha H. revert above Ha. induction H as [|part parts Hpart _ IH]; intros above Ha; [done|]. cbn [foldl]. apply IH.
  unfold normalizeStep. destruct (bool_decide (part = "") || bool_decide (part = ".")) eqn:E1; [done|].
  destruct (bool_decide (part = "..")) eqn:E2; [by destruct Ha|]. constructor; [|done].
  unfold isSegment. bools. by rewrite Hpart, !bool_decide_false.
Qed.

Lemma segmentsOf_sound path : Segments (segmentsOf path).
Proof. unfold segmentsOf. apply Forall_rev, normalize_sound; [done|apply splitSlash_parts]. Qed.

Lemma splitSlash_render segments :
  Segments segments -> foldl normalizeStep [] (splitSlash (render segments)) = rev segments.
Proof.
  intros H. unfold render.
  change (splitSlash (String "/" (joinWith "/" segments))) with ("" :: splitSlash (joinWith "/" segments)).
  cbn [foldl]. change (normalizeStep [] "") with (@nil string). destruct segments as [|s segments]; [done|].
  rewrite splitSlash_joinWith; [|done|eapply Forall_impl; [|exact H]; apply isSegment_noSlash].
  rewrite normalize_segments by done. by rewrite app_nil_r.
Qed.

Lemma segmentsOf_render segments : Segments segments -> segmentsOf (render segments) = segments.
Proof. intros H. unfold segmentsOf. rewrite splitSlash_render by done. apply rev_involutive. Qed.

Lemma render_inj a b : Segments a -> Segments b -> render a = render b -> a = b.
Proof. intros Ha Hb E. rewrite <- (segmentsOf_render a), E by done. by apply segmentsOf_render. Qed.

Lemma resolve_render cwd segments : Segments segments -> resolvePath cwd (render segments) = render segments.
Proof. intros H. unfold resolvePath. cbn [isAbsolute render]. f_equal. by apply segmentsOf_render. Qed.

Lemma segmentsOf_child segments name :
  Segments segments -> isSegment name = true -> segmentsOf (render segments ⧺ "/" ⧺ name) = segments ++ [name].
Proof.
  intros H Hn. unfold segmentsOf. change ("/" ⧺ name) with (String "/" name).
  rewrite splitSlash_app, foldl_app, splitSlash_render by done. rewrite (splitSlash_noSlash name) by by apply isSegment_noSlash.
  cbn [foldl]. rewrite normalizeStep_segment by done. cbn [rev]. by rewrite rev_involutive.
Qed.

(** [resolve(root, name)] *)
Lemma resolve_child cwd segments name :
  Segments segments -> isSegment name = true ->
  resolvePath cwd (render segments ⧺ "/" ⧺ name) = render (segments ++ [name]).
Proof. intros H Hn. unfold resolvePath. cbn [isAbsolute render]. f_equal. by apply segmentsOf_child. Qed.

(** ** Names in a directory *)

Lemma render_snoc segments name :
  render (segments ++ [name]) = (match segments with [] => "" | _ => render segments end) ⧺ String "/" name.
Proof.
  unfold render. destruct segments as [|s segments]; [done|]. rewrite append_String. f_equal.
  revert s. induction segments as [|s' segments IH]; intros s; [done|].
  change (joinWith "/" (s :: s' :: segments)) with (s ⧺ "/" ⧺ joinWith "/" (s' :: segments)).
  rewrite !append_assoc. rewrite <- IH. done.
Qed.

(** A longer last name. *)
Lemma render_suffix segments name suffix : render (segments ++ [name]) ⧺ suffix = render (segments ++ [name ⧺ suffix]).
Proof. by rewrite !render_snoc, append_assoc. Qed.

Lemma chars_append a b :
  String.list_ascii_of_string (a ⧺ b) = String.list_ascii_of_string a ++ String.list_ascii_of_string b.
Proof. induction a as [|c a IH]; [done|]. rewrite append_String. cbn. by rewrite IH. Qed.

Lemma dropWhile_all {A} (f : A -> bool) l rest : Forall (fun x => f x = true) l -> dropWhile f (l ++ rest) = dropWhile f rest.
Proof. induction 1 as [|x l Hx _ IH]; [done|]. cbn. by rewrite Hx. Qed.

Lemma noSlash_chars name :
  noSlash name = true -> Forall (fun c => negb (isSlash c) = true) (String.list_ascii_of_string name).
Proof. unfold noSlash. induction name as [|c name IH]; [constructor|]. cbn. intros H. bools. constructor; [by apply negb_true_iff|by apply IH]. Qed.

Lemma dirname_child before name :
  noSlash name = true -> name <> "" ->
  dirname (before ⧺ String "/" name)
  = match rev (String.list_ascii_of_string before) with
    | [] => "/"
    | ["/"%char] => "//"
    | chars => String.string_of_list_ascii (rev chars)
    end.
Proof.
  intros Hn Hne. unfold dirname. rewrite chars_append. cbn [String.list_ascii_of_string]. rewrite rev_app_distr. cbn [rev].
  rewrite <- app_assoc. pose proof (noSlash_chars _ Hn) as Hc. apply Forall_rev in Hc.
  assert (Hnil : rev (String.list_ascii_of_string name) <> []).
  { intros E. apply (f_equal (@rev _)) in E. rewrite rev_involutive in E. by destruct name. }
  assert (E : dropWhile isSlash (rev (String.list_ascii_of_string name) ++ ["/"%char] ++ rev (String.list_ascii_of_string before))
    = rev (String.list_ascii_of_string name) ++ ["/"%char] ++ rev (String.list_ascii_of_string before)).
  { destruct Hc as [|c l Hc Hl]; [done|]. cbn. apply negb_true_iff in Hc. by rewrite Hc. }
  rewrite E, dropWhile_all by done. cbn [app dropWhile].
  change (negb (isSlash "/")) with false. cbv iota. destruct (rev (String.list_ascii_of_string before)) as [|c l]; [done|].
  destruct l as [|c' l]; by destruct c as [[] [] [] [] [] [] [] []].
Qed.

Lemma dirname_render segments name :
  Segments segments -> isSegment name = true -> dirname (render (segments ++ [name])) = render segments.
Proof.
  intros Hs Hn. rewrite render_snoc, dirname_child by by first [apply isSegment_noSlash|apply isSegment_nonempty].
  destruct Hs as [|s segments Hs Hrest]; [done|].
  set (path := render (s :: segments)).
  assert (Hlong : exists c c' l, rev (String.list_ascii_of_string path) = c :: c' :: l).
  { destruct (rev (String.list_ascii_of_string path)) as [|c [|c' l]] eqn:E; [| |by eexists _, _, _];
      apply (f_equal (@length _)) in E; rewrite length_rev in E; unfold path, render in E; cbn in E; [done|].
    injection E as E. apply isSegment_nonempty in Hs. destruct s as [|d s]; [done|]. by destruct segments. }
  destruct Hlong as (c & c' & l & E). pose proof (f_equal (@rev _) E) as Er. rewrite rev_involutive in Er.
  assert (Hpath : String.string_of_list_ascii (rev (c :: c' :: l)) = path).
  { rewrite <- Er. apply String.string_of_list_ascii_of_string. }
  rewrite E, <- Hpath. by destruct c as [[] [] [] [] [] [] [] []].
Qed.

(** ** Relations between the states before and after a task *)

Lemma task_bind_cases {S A B} (m : Task S A) (k : A -> Task S B) s o s' :
  (m ≫= k) s = (o, s') ->
  (exists a s1, m s = (Returns a, s1) /\ k a s1 = (o, s')) \/ (exists e, o = Throws e /\ m s = (Throws e, s')).
Proof. unfold mbind, task_bind. destruct (m s) as [[a|e] s1]; [eauto|]. intros [= <- <-]. eauto. Qed.

Lemma evaluate_inv {S A} (o : Outcome A) (s : S) o' s' : evaluate o s = (o', s') -> o = o' /\ s' = s.
Proof. by intros [= <- <-]. Qed.

Lemma unlessThrow_inv {S} c e (s : S) o s' : unlessThrow c e s = (o, s') -> s' = s /\ (returns o -> c = true).
Proof. intros [= <- <-]. split; [done|]. by destruct c; [|intros []]. Qed.

Definition Frames {S A} (R : S -> S -> Prop) (m : Task S A) : Prop := forall s, R s (m s).2.

Create HintDb frames.

Section Frames.
Context {S : Type} (R : S -> S -> Prop) `{!PreOrder R}.

Lemma frames_ret {A} (a : A) : Frames R (mret a).
Proof. intros s. reflexivity. Qed.

Lemma frames_throwing {A} e : Frames R (throwing (A := A) e).
Proof. intros s. reflexivity. Qed.

Lemma frames_evaluate {A} (o : Outcome A) : Frames R (evaluate o).
Proof. intros s. reflexivity. Qed.

Lemma frames_getState : Frames R getState.
Proof. intros s. reflexivity. Qed.

Lemma frames_unlessThrow c e : Frames R (unlessThrow c e).
Proof. intros s. reflexivity. Qed.

Lemma bind_frames {A B} (m : Task S A) (k : A -> Task S B) :
  Frames R m -> (forall a, Frames R (k a)) -> Frames R (m ≫= k).
Proof.
  intros Hm Hk s. unfold mbind, task_bind. specialize (Hm s). destruct (m s) as [[a|e] s1]; [|done].
  etransitivity; [exact Hm|apply Hk].
Qed.

Lemma frames_tryCatch {A} (m : Task S A) h : Frames R m -> (forall e, Frames R (h e)) -> Frames R (tryCatch m h).
Proof.
  intros Hm Hh s. unfold tryCatch. specialize (Hm s). destruct (m s) as [[a|e] s1]; [done|].
  etransitivity; [exact Hm|apply Hh].
Qed.

Lemma frames_finallyDo {A} (m : Task S A) c : Frames R m -> Frames R c -> Frames R (finallyDo m c).
Proof.
  intros Hm Hc s. unfold finallyDo. specialize (Hm s). destruct (m s) as [o s1]. specialize (Hc s1).
  destruct (c s1) as [[?|?] s2]; by etransitivity.
Qed.
End Frames.

#[export] Hint Resolve frames_ret frames_throwing frames_evaluate frames_getState frames_unlessThrow : frames.
#[export] Hint Resolve bind_frames frames_tryCatch frames_finallyDo : frames.

(** Walks over the structure of a task down to its system calls. *)
Ltac frames :=
  repeat match goal with
  | H : Frames ?R ?m |- Frames ?R ?m => exact H
  | |- Frames _ (_ ≫= _) => apply bind_frames; [try apply _| |intros ?]
  | |- Frames _ (tryCatch _ _) => apply frames_tryCatch; [try apply _| |intros ?]
  | |- Frames _ (attempt _) => unfold attempt
  | |- Frames _ (orElse _ _) => unfold orElse
  | |- Frames _ (finallyDo _ _) => apply frames_finallyDo; [try apply _| |]
  | |- Frames _ (if ?b then _ else _) => destruct b
  | |- Frames _ (match ?x with _ => _ end) => destruct x
  | |- Frames _ _ => progress (eauto with frames typeclass_instances)
  end.

Definition OnFiles (R : Files -> Files -> Prop) (d d' : Dsk.Disk) : Prop := R d.(Dsk.files) d'.(Dsk.files).

#[export] Instance onFiles_preorder R `{!PreOrder R} : PreOrder (OnFiles R).
Proof. split; unfold OnFiles; [intros d; reflexivity|intros d1 d2 d3 H1 H2; by etransitivity]. Qed.

Section Looking.
Context (os : Os.OperatingSystem) (R : Files -> Files -> Prop) `{!PreOrder R}.

Lemma frames_systemCall {A} (effect : Files -> Outcome A * Files) :
  (forall files, R files (effect files).2) -> Frames (OnFiles R) (systemCall os effect).
Proof.
  intros H d. unfold systemCall, OnFiles. destruct (Os.fault os _); cbn; [reflexivity|].
  specialize (H (Dsk.files d)). by destruct (effect (Dsk.files d)).
Qed.

Lemma frames_looks {A} (answer : Files -> Outcome A) : Frames (OnFiles R) (looks os answer).
Proof. apply frames_systemCall. intros files. reflexivity. Qed.
End Looking.

#[export] Hint Resolve frames_looks : frames.
#[export] Hint Extern 3 (Frames _ (lstat _ _)) => apply frames_looks : frames.
#[export] Hint Extern 3 (Frames _ (realpath _ _)) => apply frames_looks : frames.
#[export] Hint Extern 3 (Frames _ (openRead _ _)) => apply frames_looks : frames.
#[export] Hint Extern 3 (Frames _ (openDirectory _ _)) => apply frames_looks : frames.
#[export] Hint Extern 3 (Frames _ (handleStat _ _)) => apply frames_looks : frames.
#[export] Hint Extern 3 (Frames _ (handleSync _ _)) => apply frames_looks : frames.
#[export] Hint Extern 3 (Frames _ (handleClose _ _)) => apply frames_looks : frames.
#[export] Hint Extern 3 (Frames _ (handleReadFile _ _)) => apply frames_looks : frames.

(** ** Names of one directory *)

Lemma withMode_same entry : withMode (entryMode entry) entry = entry.
Proof. by destruct entry. Qed.

Lemma entryMode_withMode mode entry : entryMode (withMode mode entry) = mode.
Proof. by destruct entry. Qed.

Lemma withMode_withMode m m' entry : withMode m (withMode m' entry) = withMode m entry.
Proof. by destruct entry. Qed.

Definition Private (entry : Entry) : Prop := groupAndOthers entry = 0.

Section Directory.
Context (segments : list string).

Definition directory : string := render segments.
Definition inside (name : string) : string := render (segments ++ [name]).

Lemma inside_inj a b : inside a = inside b -> a = b.
Proof. unfold inside. rewrite !render_snoc. intros [= E]%append_inj. done. Qed.

Lemma inside_suffix name suffix : inside name ⧺ suffix = inside (name ⧺ suffix).
Proof. apply render_suffix. Qed.

Lemma length_render_prefix above below :
  (String.length (render above) <= String.length (render (above ++ below)))%nat.
Proof.
  revert above. induction below as [|s below IH]; intros above; [by rewrite app_nil_r|].
  replace (above ++ s :: below) with ((above ++ [s]) ++ below) by by rewrite <- app_assoc.
  etransitivity; [|apply IH]. rewrite render_snoc, length_append. destruct above; cbn; lia.
Qed.

(** No directory on the way is a name inside. *)
Lemma inside_off above name : above `prefix_of` segments -> name <> "" -> inside name <> render above.
Proof.
  intros [below E] Hn H. apply (f_equal String.length) in H. unfold inside in H.
  pose proof (length_render_prefix above below) as Hl. rewrite <- E in Hl. rewrite render_snoc in H.
  destruct segments as [|s rest].
  - destruct above; [|done]. destruct name; [done|]. rewrite length_append in H. cbn in H. lia.
  - rewrite length_append in H. destruct name; [done|]. cbn [String.length] in H. lia.
Qed.

Lemma inside_directory name : name <> "" -> inside name <> directory.
Proof. by apply inside_off. Qed.

(** The directories above keep their kind, and stay private. *)
Definition KeepsWay (files files' : Files) : Prop :=
  forall above entry, above `prefix_of` segments -> files !! render above = Some entry ->
    exists mode, files' !! render above = Some (withMode mode entry) /\ (Private entry -> Z.land mode 63 = 0).

Definition Untouched (P : string -> Prop) (files files' : Files) : Prop :=
  (forall name, name <> "" -> ~ P name -> files' !! inside name = files !! inside name) /\ KeepsWay files files'.

Lemma keepsWay_refl files : KeepsWay files files.
Proof. intros above entry _ E. exists (entryMode entry). by rewrite withMode_same. Qed.

Lemma keepsWay_trans f1 f2 f3 : KeepsWay f1 f2 -> KeepsWay f2 f3 -> KeepsWay f1 f3.
Proof.
  intros W1 W2 above entry Ha E. destruct (W1 _ _ Ha E) as (m & E1 & Hm). destruct (W2 _ _ Ha E1) as (m' & E2 & Hm').
  exists m'. rewrite E2, withMode_withMode. split; [done|]. intros H. apply Hm'. unfold Private, groupAndOthers.
  rewrite entryMode_withMode. by apply Hm.
Qed.

#[export] Instance keepsWay_preorder : PreOrder KeepsWay.
Proof. split; [exact keepsWay_refl|exact keepsWay_trans]. Qed.

#[export] Instance untouched_preorder P : PreOrder (Untouched P).
Proof.
  split.
  - intros files. split; [done|apply keepsWay_refl].
  - intros f1 f2 f3 [H1 W1] [H2 W2]. split; [intros name Hn HP; by rewrite H2, H1|by etransitivity].
Qed.

Lemma untouched_weaken (P Q : string -> Prop) files files' :
  (forall name, P name -> Q name) -> Untouched P files files' -> Untouched Q files files'.
Proof. intros H [Hn Hw]. split; [|done]. intros name Hne HQ. apply Hn; [done|]. intros HP. by apply HQ, H. Qed.

(** A change at one name. *)
Lemma untouched_name (P : string -> Prop) name (files files' : Files) :
  P name -> name <> "" -> (forall path, path <> inside name -> files' !! path = files !! path) -> Untouched P files files'.
Proof.
  intros HP Hne H. split.
  - intros other Ho Hother. apply H. by intros ->%inside_inj.
  - intros above entry Ha E. exists (entryMode entry). rewrite withMode_same. split; [|done].
    rewrite H; [done|]. intros Eq. by apply (inside_off above name).
Qed.

(** ** The calls *)

Section Calls.
Context (os : Os.OperatingSystem) (Hsegments : Segments segments) (P : string -> Prop).
#[local] Abbreviation Keeps := (Frames (OnFiles (Untouched P))).

Lemma resolve_directory : resolve os directory = directory.
Proof. by apply resolve_render. Qed.

Lemma makeDirectories_untouched mode above rest files :
  above ++ rest = segments -> Untouched P files (makeDirectories mode above rest files).2.
Proof.
  revert above files. induction rest as [|s rest IH]; intros above files E; [reflexivity|]. cbn [makeDirectories].
  assert (E' : (above ++ [s]) ++ rest = segments) by by rewrite <- app_assoc.
  assert (Hpre : (above ++ [s]) `prefix_of` segments) by (exists rest; done).
  destruct (files !! render (above ++ [s])) as [[]|] eqn:El; cbn; try reflexivity; try by apply IH.
  etransitivity; [|by apply IH]. split.
  - intros name Hn _. rewrite lookup_insert_ne; [done|]. intros Eq. by apply (inside_off (above ++ [s]) name).
  - intros above' entry Ha Ee. exists (entryMode entry). rewrite withMode_same. split; [|done].
    rewrite lookup_insert_ne; [done|]. intros Eq. by rewrite Eq, Ee in El.
Qed.

Lemma keeps_mkdir mode : Keeps (mkdir os directory mode).
Proof.
  apply frames_systemCall; [apply _|]. intros files. unfold directory. rewrite segmentsOf_render by done.
  by apply makeDirectories_untouched.
Qed.

Lemma keeps_chmod mode : Z.land mode 63 = 0 -> Keeps (chmod os directory mode).
Proof.
  intros Hm. apply frames_systemCall; [apply _|]. intros files. destruct (files !! directory) as [entry|] eqn:E; [|reflexivity].
  cbn. split.
  - intros name Hn _. rewrite lookup_insert_ne; [done|]. intros Eq. by apply (inside_directory name).
  - intros above e Ha Ee. destruct (decide (render above = directory)) as [Eq|Hne].
    + exists mode. rewrite Eq in *. rewrite lookup_insert_eq. rewrite E in Ee. by injection Ee as ->.
    + exists (entryMode e). rewrite withMode_same, lookup_insert_ne by done. done.
Qed.

Lemma keeps_validate create : Keeps (validateSecureDirectory os directory create).
Proof.
  unfold validateSecureDirectory. rewrite !resolve_directory. pose proof keeps_mkdir. pose proof (keeps_chmod 448 eq_refl). frames.
Qed.

Context (name : string) (HP : P name) (Hname : name <> "").

Lemma keeps_openExclusive mode : Keeps (openExclusive os (inside name) mode).
Proof.
  apply frames_systemCall; [apply _|]. intros files. destruct (files !! inside name); [reflexivity|].
  destruct (files !! dirname (inside name)); [|reflexivity]. cbn. apply (untouched_name _ name); [done..|].
  intros path Hne. by rewrite lookup_insert_ne.
Qed.

Lemma keeps_writeFile value : Keeps (handleWriteFile os (inside name) value).
Proof.
  intros d. unfold handleWriteFile, OnFiles. cbn. apply (untouched_name _ name); [done..|].
  intros path Hne. by rewrite lookup_alter_ne.
Qed.

Lemma keeps_unlink : Keeps (unlink os (inside name)).
Proof.
  apply frames_systemCall; [apply _|]. intros files. destruct (files !! inside name) as [[]|]; try reflexivity; cbn;
    (apply (untouched_name _ name); [done..|]; intros path Hne; by rewrite lookup_delete_ne).
Qed.
End Calls.

(** ** Inversion of the calls *)

Section Inversion.
Context (os : Os.OperatingSystem) (Hsegments : Segments segments).

Definition createdMode : Z := Z.ldiff 384 os.(Os.umask).

Lemma systemCall_returns {A} (effect : Files -> Outcome A * Files) d a d' :
  systemCall os effect d = (Returns a, d') -> effect d.(Dsk.files) = (Returns a, d'.(Dsk.files)).
Proof.
  unfold systemCall. destruct (Os.fault os _); [done|]. destruct (effect (Dsk.files d)) as [o files]. by intros [= -> <-].
Qed.

Lemma looks_returns {A} (answer : Files -> Outcome A) d a d' :
  looks os answer d = (Returns a, d') -> answer d.(Dsk.files) = Returns a /\ d'.(Dsk.files) = d.(Dsk.files).
Proof. intros H%systemCall_returns. by injection H as -> ->. Qed.

Lemma openExclusive_returns path mode d u d' :
  openExclusive os path mode d = (Returns u, d') ->
  d.(Dsk.files) !! path = None /\ d'.(Dsk.files) = <[path := RegularFile "" (Z.ldiff mode os.(Os.umask))]> d.(Dsk.files).
Proof.
  intros H%systemCall_returns. cbn in H. destruct (Dsk.files d !! path); [done|]. destruct (Dsk.files d !! dirname path); [|done].
  by injection H as <- <-.
Qed.

Lemma handleWriteFile_returns path value d u d' :
  handleWriteFile os path value d = (Returns u, d') -> d'.(Dsk.files) = alter (setContent value) path d.(Dsk.files).
Proof. unfold handleWriteFile. destruct (Os.fault os _); [done|]. by intros [= <- <-]. Qed.

Lemma rename_returns from to d u d' :
  rename os from to d = (Returns u, d') ->
  exists entry, d.(Dsk.files) !! from = Some entry /\ d'.(Dsk.files) = <[to := entry]> (delete from d.(Dsk.files)).
Proof.
  intros H%systemCall_returns. cbn in H. destruct (Dsk.files d !! from) as [entry|]; [|done]. exists entry. split; [done|].
  by destruct (Dsk.files d !! to) as [[]|]; inversion H.
Qed.

Lemma rename_throws from to d e d' : rename os from to d = (Throws e, d') -> d'.(Dsk.files) = d.(Dsk.files).
Proof.
  unfold rename, systemCall. destruct (Os.fault os _); [by intros [= <- <-]|].
  destruct (Dsk.files d !! from); [|by intros [= <- <-]]. destruct (Dsk.files d !! to) as [[]|]; by intros [= <- <-].
Qed.

Lemma orElse_returns {A} (m : Task Dsk.Disk A) c d a d' : orElse m c d = (Returns a, d') -> m d = (Returns a, d').
Proof.
  unfold orElse, tryCatch. destruct (m d) as [[x|e] d1]; [by intros [= <- <-]|].
  unfold mbind, task_bind. by destruct (c d1) as [[|] ?].
Qed.

Lemma attempt_returns {S A} (m : Task S A) s : (attempt m s).1 = Returns tt.
Proof. unfold attempt, tryCatch, mbind, task_bind. by destruct (m s) as [[|] ?]. Qed.

(** ** [writeFileAtomically] *)

Definition temporaryOf (name : string) (call : nat) : string :=
  name ⧺ "." ⧺ show os.(Os.pid) ⧺ "." ⧺ os.(Os.randomHex) call ⧺ ".tmp".
Definition Temporary (name other : string) : Prop := exists call, other = temporaryOf name call.
Definition Written (name other : string) : Prop := other = name \/ Temporary name other.

Lemma temporaryName_inside name call : temporaryName os (inside name) call = inside (temporaryOf name call).
Proof. apply inside_suffix. Qed.

Lemma temporary_ne name call : temporaryOf name call <> name.
Proof.
  intros E%(f_equal String.length). unfold temporaryOf in E. rewrite !length_append in E. cbn in E. lia.
Qed.

Lemma temporary_nonempty name call : temporaryOf name call <> "".
Proof.
  intros E%(f_equal String.length). unfold temporaryOf in E. rewrite !length_append in E. cbn in E. lia.
Qed.

Lemma frames_at {S A} (R : S -> S -> Prop) (m : Task S A) s o s' : Frames R m -> m s = (o, s') -> R s s'.
Proof. intros H E. specialize (H s). by rewrite E in H. Qed.

Lemma dirname_inside name : isSegment name = true -> dirname (inside name) = directory.
Proof. by apply dirname_render. Qed.

Section Write.
Context (name : string) (Hname : isSegment name = true).
#[local] Abbreviation Keeps := (Frames (OnFiles (Untouched (Temporary name)))).

Lemma temporary_keeps call : Temporary name (temporaryOf name call).
Proof. by exists call. Qed.

Lemma keeps_cleanup call : Keeps (attempt (unlink os (inside (temporaryOf name call)))).
Proof. pose proof (keeps_unlink os (Temporary name) _ (temporary_keeps call) (temporary_nonempty name call)). frames. Qed.

Lemma keeps_fill call value :
  Keeps (orElse (handleWriteFile os (inside (temporaryOf name call)) value ;; handleSync os (inside (temporaryOf name call)))
          (attempt (handleClose os (inside (temporaryOf name call))) ;; attempt (unlink os (inside (temporaryOf name call))))).
Proof.
  pose proof (keeps_cleanup call).
  pose proof (keeps_writeFile os (Temporary name) _ (temporary_keeps call) (temporary_nonempty name call) value). frames.
Qed.

Lemma keeps_closed call :
  Keeps (orElse (handleClose os (inside (temporaryOf name call))) (attempt (unlink os (inside (temporaryOf name call))))).
Proof. pose proof (keeps_cleanup call). frames. Qed.

Lemma untouched_name_kept (P : string -> Prop) files files' :
  Untouched P files files' -> ~ P name -> files' !! inside name = files !! inside name.
Proof. intros [H _] HP. apply H; [by apply isSegment_nonempty|done]. Qed.

Lemma name_not_temporary : ~ Temporary name name.
Proof. intros [call E]. by apply (temporary_ne name call). Qed.

Lemma untouched_written files files' : Untouched (Temporary name) files files' -> Untouched (Written name) files files'.
Proof. apply untouched_weaken. by right. Qed.

Lemma flush_files d o d' :
  attempt (openDirectory os directory ;; finallyDo (handleSync os directory) (handleClose os directory)) d = (o, d') ->
  o = Returns tt /\ d'.(Dsk.files) = d.(Dsk.files).
Proof.
  intros H. split.
  - pose proof (attempt_returns (openDirectory os directory ;;
      finallyDo (handleSync os directory) (handleClose os directory)) d) as E. by rewrite H in E.
  - symmetry. eapply (frames_at (OnFiles eq)); [|exact H]. frames.
Qed.

(** From the closed temporary file on. *)
Lemma publish_cases call entry d o d' :
  (orElse (rename os (inside (temporaryOf name call)) (inside name)) (attempt (unlink os (inside (temporaryOf name call)))) ;;
   attempt (openDirectory os directory ;; finallyDo (handleSync os directory) (handleClose os directory))) d = (o, d') ->
  d.(Dsk.files) !! inside (temporaryOf name call) = Some entry ->
  match o with
  | Returns _ => d'.(Dsk.files) = <[inside name := entry]> (delete (inside (temporaryOf name call)) d.(Dsk.files))
  | Throws _ => OnFiles (Untouched (Temporary name)) d d'
  end.
Proof.
  intros H He. apply task_bind_cases in H as [(u & d1 & E & H)|(e & -> & E)].
  - apply flush_files in H as [-> ->]. apply orElse_returns, rename_returns in E as (entry' & He' & ->).
    rewrite He in He'. by injection He' as ->.
  - unfold orElse, tryCatch in E. destruct (rename os _ _ d) as [[x|e'] d1] eqn:Er; [done|].
    apply rename_throws in Er. apply task_bind_cases in E as [(u & d2 & E & H)|(e2 & _ & E)];
      pose proof (frames_at _ _ _ _ _ (keeps_cleanup call) E) as K; unfold OnFiles in *; rewrite Er in K; [|done].
    by injection H as _ <-.
Qed.

(** The name holds the whole new text, or what it held; whichever call is the last to go through. *)
Definition Replaced (value : string) (d : Dsk.Disk) (o : Outcome unit) (d' : Dsk.Disk) : Prop :=
  Untouched (Written name) d.(Dsk.files) d'.(Dsk.files)
  /\ d'.(Dsk.files) !! inside name
     = match o with Returns _ => Some (RegularFile value createdMode) | Throws _ => d.(Dsk.files) !! inside name end.

Lemma kept_replaced value d e d' : OnFiles (Untouched (Temporary name)) d d' -> Replaced value d (Throws e) d'.
Proof.
  intros H. split; [by apply untouched_written|]. eapply untouched_name_kept; [exact H|apply name_not_temporary].
Qed.

Lemma moved_replaced value call d d' u :
  d'.(Dsk.files) = <[inside name := RegularFile value createdMode]> (delete (inside (temporaryOf name call)) d.(Dsk.files)) ->
  Replaced value d (Returns u) d'.
Proof.
  intros H. split; [|by rewrite H, lookup_insert_eq]. rewrite H.
  etransitivity; [|apply (untouched_name (Written name) name); [by left|by apply isSegment_nonempty|]].
  - apply (untouched_name (Written name) (temporaryOf name call)); [right; apply temporary_keeps|apply temporary_nonempty|].
    intros path Hne. by rewrite lookup_delete_ne.
  - intros path Hne. by rewrite lookup_insert_ne.
Qed.

(** After the directory was validated. *)
Lemma fill_cases value call d o d' :
  (openExclusive os (inside (temporaryOf name call)) 384 ;;
   orElse (handleWriteFile os (inside (temporaryOf name call)) value ;; handleSync os (inside (temporaryOf name call)))
     (attempt (handleClose os (inside (temporaryOf name call))) ;; attempt (unlink os (inside (temporaryOf name call)))) ;;
   orElse (handleClose os (inside (temporaryOf name call))) (attempt (unlink os (inside (temporaryOf name call)))) ;;
   orElse (rename os (inside (temporaryOf name call)) (inside name)) (attempt (unlink os (inside (temporaryOf name call)))) ;;
   attempt (openDirectory os directory ;; finallyDo (handleSync os directory) (handleClose os directory))) d = (o, d') ->
  Replaced value d o d'.
Proof.
  intros H.
  apply task_bind_cases in H as [(u & d2 & E2 & H)|(e & -> & E2)]; pose proof E2 as K2;
    apply (frames_at _ _ _ _ _ (keeps_openExclusive os _ _ (temporary_keeps call) (temporary_nonempty name call) 384)) in K2;
    [|by apply kept_replaced].
  apply task_bind_cases in H as [(u3 & d3 & E3 & H)|(e & -> & E3)]; pose proof E3 as K3;
    apply (frames_at _ _ _ _ _ (keeps_fill call value)) in K3; assert (K' := transitivity K2 K3); [|by apply kept_replaced].
  apply task_bind_cases in H as [(u4 & d4 & E4 & H)|(e & -> & E4)]; pose proof E4 as K4;
    apply (frames_at _ _ _ _ _ (keeps_closed call)) in K4; assert (K'' := transitivity K' K4); [|by apply kept_replaced].
  apply openExclusive_returns in E2 as [_ E2]. apply orElse_returns in E3, E4.
  apply task_bind_inv in E3 as (? & d5 & E3%handleWriteFile_returns & E5).
  apply looks_returns in E4 as [_ E4]. apply looks_returns in E5 as [_ E5].
  rewrite E5, E3, E2, alter_insert_eq in E4. cbn [setContent] in E4.
  apply publish_cases with (entry := RegularFile value createdMode) in H; [|rewrite E4; by rewrite lookup_insert_eq].
  destruct o as [[]|e]; [|by apply kept_replaced; etransitivity].
  apply (moved_replaced value call). by rewrite H, E4, delete_insert_eq.
Qed.

Lemma validate_present create d d' :
  validateSecureDirectory os directory create d = (Returns true, d') -> is_Some (d'.(Dsk.files) !! directory).
Proof.
  unfold validateSecureDirectory. cbv zeta. rewrite !resolve_directory by done.
  intros (u & d0 & _ & H)%task_bind_inv. apply task_bind_inv in H as (metadata & d1 & E & H).
  destruct metadata as [metadata|]; [|done].
  assert (Hd1 : is_Some (d1.(Dsk.files) !! directory)).
  { unfold tryCatch in E. destruct ((lstat os directory ≫= _) d0) as [[answer|e] d2] eqn:El; [|by destruct (negb create && _)].
    apply task_bind_inv in El as (entry & d3 & [El D3]%looks_returns & El2). unfold present in El.
    assert (d1 = d3) as -> by (inversion E; subst; by inversion El2). rewrite D3.
    destruct (Dsk.files d0 !! directory) as [x|]; [by exists x|done]. }
  destruct Hd1 as [entry Hd1].
  assert (K : OnFiles (Untouched (fun _ => False)) d1 d').
  { eapply frames_at; [|exact H]. pose proof (keeps_chmod os (fun _ => False) 448 eq_refl). frames. }
  destruct K as [_ W]. destruct (W segments entry) as (mode & E' & _); [done|exact Hd1|]. by exists (withMode mode entry).
Qed.

(** A directory that may be created is there in the end. *)
Lemma validate_created d b d' : validateSecureDirectory os directory true d = (Returns b, d') -> b = true.
Proof.
  unfold validateSecureDirectory. cbv zeta. rewrite !resolve_directory by done.
  intros (u & d0 & _ & H)%task_bind_inv. apply task_bind_inv in H as (metadata & d1 & E & H).
  destruct metadata as [metadata|].
  - do 3 apply task_bind_inv in H as (? & ? & _ & H). by inversion H.
  - unfold tryCatch in E. destruct ((lstat os directory ≫= _) d0) as [[answer|e] d2] eqn:El; [|done].
    apply task_bind_inv in El as (? & ? & _ & El2). inversion E; subst. by inversion El2.
Qed.

Lemma write_cases value d o d' :
  writeFileAtomically os (inside name) value d = (o, d') ->
  Replaced value d o d' /\ (returns o -> is_Some (d'.(Dsk.files) !! directory)).
Proof.
  unfold writeFileAtomically. cbv zeta. rewrite !dirname_inside by done. intros H.
  apply task_bind_cases in H as [(b & d1 & V & H)|(e & -> & V)]; pose proof V as K;
    apply (frames_at _ _ _ _ _ (keeps_validate os Hsegments (Temporary name) true)) in K;
    [|by split; [apply kept_replaced|intros []]].
  unfold getState, mbind at 1, task_bind at 1 in H. cbv beta iota zeta in H. rewrite temporaryName_inside in H.
  apply fill_cases in H as [HU HL]. split.
  - split; [etransitivity; [by apply untouched_written|done]|]. rewrite HL. destruct o; [done|].
    eapply untouched_name_kept; [exact K|apply name_not_temporary].
  - intros _. apply validate_created in V as E. subst b.
    destruct (validate_present _ _ _ V) as [entry Hd]. destruct HU as [_ W].
    destruct (W segments entry) as (mode & E' & _); [done|exact Hd|]. by exists (withMode mode entry).
Qed.
End Write.

(** ** [withExclusiveFileLock] *)

Section Lock.
Context {S : Type} `{HasDisk S} (R : S -> S -> Prop) `{!PreOrder R} (P : string -> Prop).
Context (Hlift : forall s d', Untouched P (diskOf s).(Dsk.files) d'.(Dsk.files) -> R s (setDisk d' s)).

Lemma frames_onDisk {A} (m : Task Dsk.Disk A) : Frames (OnFiles (Untouched P)) m -> Frames R (onDisk m).
Proof. intros Hm s. unfold onDisk. specialize (Hm (diskOf s)). destruct (m (diskOf s)) as [o d]. by apply Hlift. Qed.

Lemma onDisk_inv {A} (m : Task Dsk.Disk A) (s : S) o s' :
  onDisk m s = (o, s') -> exists d', m (diskOf s) = (o, d') /\ s' = setDisk d' s /\ diskOf s' = d'.
Proof.
  unfold onDisk. destruct (m (diskOf s)) as [o' d']. intros [= -> <-]. exists d'. by rewrite diskOf_setDisk.
Qed.

Lemma takeLock_inv path d o d' :
  takeLock os path d = (o, d') ->
  match o with
  | Returns _ => d.(Dsk.files) !! path = None /\ d'.(Dsk.files) = <[path := RegularFile "" createdMode]> d.(Dsk.files)
  | Throws _ => d'.(Dsk.files) = d.(Dsk.files)
  end.
Proof.
  unfold takeLock, tryCatch. destruct (openExclusive os path 384 d) as [[u|e] d1] eqn:E.
  - intros [= <- <-]. by apply openExclusive_returns in E.
  - assert (E1 : d1.(Dsk.files) = d.(Dsk.files)).
    { unfold openExclusive, systemCall in E. destruct (Os.fault os _); [by injection E as _ <-|].
      destruct (Dsk.files d !! path); [by injection E as _ <-|].
      destruct (Dsk.files d !! dirname path); [done|by injection E as _ <-]. }
    by destruct (_ || _); intros [= <- <-].
Qed.

Lemma finallyDo_inv {A} (m : Task S A) (c : Task S unit) s o s' :
  (forall s, (c s).1 = Returns tt) -> finallyDo m c s = (o, s') -> exists s1, m s = (o, s1) /\ s' = (c s1).2.
Proof.
  intros Hc. unfold finallyDo. destruct (m s) as [o1 s1]. specialize (Hc s1). destruct (c s1) as [oc s2] eqn:E. cbn in Hc. subst oc.
  intros [= <- <-]. exists s1. by rewrite E.
Qed.

Lemma releaseLock_returns path (s : S) : (onDisk (releaseLock os path) s).1 = Returns tt.
Proof.
  unfold onDisk, releaseLock, mbind, task_bind. pose proof (attempt_returns (handleClose os path) (diskOf s)) as E.
  destruct (attempt _ _) as [o d]. cbn in E. subst o. pose proof (attempt_returns (unlink os path) d) as E.
  by destruct (attempt _ d) as [o d'].
Qed.

Context (name : string) (Hname : isSegment name = true).

Lemma validate_kept create d o d' :
  validateSecureDirectory os directory create d = (o, d') ->
  d'.(Dsk.files) !! inside name = d.(Dsk.files) !! inside name.
Proof.
  intros V. pose proof (frames_at _ _ _ _ _ (keeps_validate os Hsegments (fun _ => False) create) V) as [HV _].
  apply HV; [by apply isSegment_nonempty|by intros []].
Qed.

Lemma resolve_inside : resolve os (inside name) = inside name.
Proof.
  unfold resolve, inside. apply resolve_render. apply Forall_app. split; [done|by repeat constructor].
Qed.

(** Held by someone: the operation does not run, and nothing inside changes. *)
Lemma lock_taken s :
  is_Some ((diskOf s).(Dsk.files) !! inside name) ->
  exists e s', (forall T (operation : Task S T), withExclusiveFileLock os (inside name) operation s = (Throws e, s'))
    /\ R s s'.
Proof.
  intros [entry He]. unfold withExclusiveFileLock. cbv zeta. rewrite resolve_inside, dirname_inside by done.
  destruct (onDisk (validateSecureDirectory os directory true) s) as [[b|e] s1] eqn:E1.
  2:{ exists e, s1. split; [intros T operation; by apply task_bind_throws|].
      eapply frames_at; [|exact E1]. apply frames_onDisk. by apply keeps_validate. }
  assert (K1 : R s s1).
  { eapply frames_at; [|exact E1]. apply frames_onDisk. by apply keeps_validate. }
  pose proof E1 as (d1 & V1 & -> & Ed)%onDisk_inv.
  destruct (onDisk (takeLock os (inside name)) (setDisk d1 s)) as [[b2|e] s2] eqn:E2;
    apply onDisk_inv in E2 as E2'; destruct E2' as (d2 & V2 & -> & _); rewrite Ed in V2; apply takeLock_inv in V2.
  - destruct V2 as [V2 _]. apply validate_kept in V1. by rewrite V1, He in V2.
  - exists e, (setDisk d2 (setDisk d1 s)). split.
    + intros T operation. rewrite (task_bind_eq _ _ _ _ _ E1). by apply task_bind_throws.
    + etransitivity; [exact K1|]. apply Hlift. rewrite Ed, V2. reflexivity.
Qed.

Context (HP : P name).

(** The operation runs under the lock, which was free, or not at all. *)
Lemma lock_cases {T} (operation : Task S T) s o s' :
  withExclusiveFileLock os (inside name) operation s = (o, s') ->
  (exists e, o = Throws e /\ R s s')
  \/ (exists s1 s2, R s s1 /\ (diskOf s).(Dsk.files) !! inside name = None
        /\ is_Some ((diskOf s1).(Dsk.files) !! inside name) /\ operation s1 = (o, s2) /\ R s2 s').
Proof.
  unfold withExclusiveFileLock. cbv zeta. rewrite resolve_inside, dirname_inside by done. intros Hrun.
  assert (Hne : name <> "") by by apply isSegment_nonempty.
  assert (Hclean : Frames R (onDisk (releaseLock os (inside name)))).
  { apply frames_onDisk. unfold releaseLock. pose proof (keeps_unlink os P name HP Hne). frames. }
  apply task_bind_cases in Hrun as [(b & s1 & E1 & Hrun)|(e & -> & E1)]; pose proof E1 as K1;
    apply (frames_at R) in K1; try (apply frames_onDisk, keeps_validate; done); [|left; by exists e].
  apply onDisk_inv in E1 as (d1 & V1 & -> & D1).
  apply task_bind_cases in Hrun as [(u & s2 & E2 & Hrun)|(e & -> & E2)]; pose proof E2 as K2;
    apply (frames_at R) in K2; try (apply frames_onDisk; unfold takeLock; pose proof (keeps_openExclusive os P name HP Hne 384); frames);
    [|left; exists e; split; [done|by etransitivity]].
  apply onDisk_inv in E2 as (d2 & V2 & -> & D2). rewrite D1 in V2. apply takeLock_inv in V2 as [Hfree V2].
  apply finallyDo_inv in Hrun as (s3 & Hrun & ->); [|apply releaseLock_returns].
  assert (K12 := transitivity K1 K2).
  assert (Hin : Frames (OnFiles (Untouched P)) (d ← getState; handleWriteFile os (inside name) (lockText os (Dsk.calls d)) ;;
                                                              handleSync os (inside name))).
  { apply bind_frames; [apply _|auto with frames typeclass_instances|]. intros d. pose proof (keeps_writeFile os P name HP Hne (lockText os (Dsk.calls d))). frames. }
  apply task_bind_cases in Hrun as [(u' & s4 & E3 & Hrun)|(e & -> & E3)]; pose proof E3 as K3;
    apply (frames_at R _ _ _ _ (frames_onDisk _ Hin)) in K3; assert (K13 := transitivity K12 K3);
    [|left; exists e; split; [done|etransitivity; [exact K13|apply Hclean]]].
  right. exists s4, s3. split; [exact K13|]. split; [|split; [|split; [done|apply Hclean]]].
  - apply validate_kept in V1. by rewrite <- V1.
  - apply onDisk_inv in E3 as (d4 & V3 & -> & D4). rewrite D4. rewrite D2 in V3.
    apply task_bind_inv in V3 as (d & d' & [= <- <-] & V3). apply task_bind_inv in V3 as (x & d5 & V3%handleWriteFile_returns & V4).
    apply looks_returns in V4 as [_ ->]. rewrite V3, V2, alter_insert_eq, lookup_insert_eq. by eexists.
Qed.
End Lock.

(** ** [readFileSecurely] *)

(** A system that reports a missing file only where there is none. *)
Definition HonestFaults : Prop := forall call e, os.(Os.fault) call = Some e -> hasCode "ENOENT" e = false.

Lemma looks_throws {A} (answer : Files -> Outcome A) d e d' :
  looks os answer d = (Throws e, d') -> os.(Os.fault) d.(Dsk.calls) = Some e \/ answer d.(Dsk.files) = Throws e.
Proof. unfold looks, systemCall. destruct (Os.fault os _); [intros [= <- _]; by left|]. intros [= E _]. by right. Qed.

(** A call reports a missing file: there is none. *)
Lemma present_missing call path d e d' :
  HonestFaults -> looks os (present call path) d = (Throws e, d') -> hasCode "ENOENT" e = true ->
  d.(Dsk.files) !! path = None.
Proof.
  intros Hh [H|H]%looks_throws Hc; [apply Hh in H; congruence|]. unfold present in H. by destruct (Dsk.files d !! path).
Qed.

Lemma keeps_validate_files : Frames (OnFiles eq) (validateSecureDirectory os directory false).
Proof. unfold validateSecureDirectory. cbv zeta. frames. Qed.

Lemma validate_absent d d' :
  HonestFaults -> validateSecureDirectory os directory false d = (Returns false, d') -> d.(Dsk.files) !! directory = None.
Proof.
  intros Hh. unfold validateSecureDirectory. cbv zeta. rewrite !resolve_directory by done.
  intros (u & d0 & E0 & H)%task_bind_inv. assert (d0 = d) as -> by by inversion E0. apply task_bind_inv in H as (metadata & d1 & E & H).
  destruct metadata as [metadata|].
  - do 3 apply task_bind_inv in H as (? & ? & _ & H). done.
  - unfold tryCatch in E. destruct ((lstat os directory ≫= _) d) as [[o|e] d2] eqn:El.
    + apply task_bind_inv in El as (? & ? & _ & El). by inversion El; subst.
    + destruct (negb false && hasCode "ENOENT" e) eqn:Hc; [|done].
      apply task_bind_cases in El as [(entry & d3 & _ & El)|(e' & [= <-] & El)]; [done|].
      by eapply present_missing.
Qed.

(** The file is looked at only in a directory that is there. *)
Lemma read_inv name maximum d answer d' :
  isSegment name = true -> readFileSecurely os (inside name) maximum d = (Returns answer, d') ->
  (validateSecureDirectory os directory false d = (Returns false, d') /\ answer = None)
  \/ exists d1 opened d2, d1.(Dsk.files) = d.(Dsk.files) /\ d2.(Dsk.files) = d.(Dsk.files)
     /\ tryCatch (openRead os (inside name) ;; mret true)
          (fun e => if hasCode "ENOENT" e then mret false
                    else if hasCode "ELOOP" e
                    then throwing (TypeError ("Refusing to follow a symbolic link for durable state: " ⧺ inside name))
                    else throwing e) d1 = (Returns opened, d2)
     /\ if opened then exists text mode, answer = Some text /\ d.(Dsk.files) !! inside name = Some (RegularFile text mode)
        else answer = None.
Proof.
  intros Hname. unfold readFileSecurely. rewrite dirname_inside by done. intros (valid & d1 & V & Hrun)%task_bind_inv.
  pose proof V as V1. apply (frames_at _ _ _ _ _ keeps_validate_files) in V1. unfold OnFiles in V1.
  destruct valid; cbn [negb] in Hrun; [right|injection Hrun as <- <-; by left].
  apply task_bind_inv in Hrun as (opened & d2 & V2 & Hrun). pose proof V2 as V3.
  apply (frames_at (OnFiles eq)) in V3; [|frames]. unfold OnFiles in V3. exists d1, opened, d2.
  rewrite <- V3, <- V1. split; [done|]. split; [done|]. split; [done|].
  destruct opened; cbn [negb] in Hrun; [|by inversion Hrun].
  unfold finallyDo in Hrun. destruct ((handleStat os _ ≫= _) d2) as [o3 d3] eqn:E3. destruct (handleClose _ _ d3) as [[|] d4]; [|done].
  injection Hrun as -> _. apply task_bind_inv in E3 as (metadata & d5 & [_ E5]%looks_returns & E3).
  do 3 (apply task_bind_inv in E3 as (? & ? & E6 & E3); injection E6 as _ <-).
  apply task_bind_inv in E3 as (content & d6 & [E6 _]%looks_returns & E3).
  assert (answer = Some content) as -> by by inversion E3.
  rewrite E5, <- V3, <- V1 in E6. destruct (Dsk.files d !! inside name) as [[]|]; try done.
  injection E6 as ->. by eexists _, _.
Qed.

Lemma read_cases name maximum d o d' :
  HonestFaults -> isSegment name = true -> readFileSecurely os (inside name) maximum d = (o, d') ->
  d'.(Dsk.files) = d.(Dsk.files)
  /\ match o with
     | Throws _ => True
     | Returns None => d.(Dsk.files) !! inside name = None \/ d.(Dsk.files) !! directory = None
     | Returns (Some text) => exists mode, d.(Dsk.files) !! inside name = Some (RegularFile text mode)
     end.
Proof.
  intros Hh Hname Hrun. split.
  { symmetry. eapply (frames_at (OnFiles eq)); [|exact Hrun]. unfold readFileSecurely. rewrite dirname_inside by done.
    pose proof keeps_validate_files. frames. }
  destruct o as [answer|e]; [|done].
  apply read_inv in Hrun as [[V ->]|(d1 & opened & d2 & D1 & D2 & V & H)]; [right; by eapply validate_absent| |done].
  destruct opened; [by destruct H as (text & mode & -> & H); exists mode|]. subst answer. left.
  unfold tryCatch in V. destruct ((openRead os _ ≫= _) d1) as [[u|e] d3] eqn:E1.
  { apply task_bind_inv in E1 as (? & ? & _ & E1). inversion V; subst. by inversion E1. }
  destruct (hasCode "ENOENT" e) eqn:Hc; [|by destruct (hasCode "ELOOP" e)].
  apply task_bind_cases in E1 as [(? & ? & _ & E1)|(e' & [= <-] & E1)]; [done|]. rewrite <- D1.
  apply looks_throws in E1 as [E1|E1]; [apply Hh in E1; congruence|]. unfold present in E1.
  destruct (Dsk.files d1 !! inside name) as [entry|]; [|done]. cbn in E1.
  destruct (isSymbolicLink entry); [|done]. injection E1 as <-. done.
Qed.
End Inversion.
End Directory.
