(* ===== verification/FileStoreSpec.v ===== *)
(** * The durable store under any faults

    What the two files of the store show, and what each operation makes of it:
    whichever system calls fail, a file shows what it showed or what the
    operation was to write. *)
From stdpp Require Import gmap.
From S2P Require Import Prelude JsMap Types MoveDomains JsValue Numerals Json Snapshot SnapshotDecode.
From S2P Require Import AlertCodec Store JsonRoundTrip SnapshotRoundTrip AlertCodecSpec Disk.
From S2P Require Import FileStore DiskSpec.

Definition SNAPSHOT_NAME : string := "indexer-snapshot.json".
Definition ALERTS_NAME : string := "critical-alerts.json".
Definition WRITER_LOCK_NAME : string := "indexer-writer.lock".

(** ** Envelopes read back *)

Section Envelopes.
Context (sha256 : string -> string) (numberText : Z -> Z -> string) (Hsha : Digests sha256).

Lemma digest_ok text : isSha256Digest (sha256 text) = true.
Proof. unfold isSha256Digest. destruct (Hsha text) as [-> ->]. done. Qed.

Lemma parse_snapshotEnvelope manifest payload :
  parseSnapshotEnvelope sha256 numberText manifest (jsonLine (snapshotEnvelope manifest (sha256 payload) payload))
  = Returns payload.
Proof.
  unfold parseSnapshotEnvelope, jsonLine. rewrite jsonParse_line by done. cbn [mbind outcome_bind].
  change (plain (snapshotEnvelope manifest (sha256 payload) payload)) with (snapshotEnvelope manifest (sha256 payload) payload).
  unfold snapshotEnvelope.
  erewrite !field_hit by reflexivity. cbn [readNumber readString].
  rewrite bool_decide_false, bool_decide_false by by intros []. cbn [orb mbind outcome_bind].
  unfold assertSha256Digest. rewrite digest_ok. cbn [mbind outcome_bind]. by rewrite bool_decide_false by by intros [].
Qed.

Lemma jsonOk_strings texts : jsonOk (jsonStrings texts) = true.
Proof. cbn. apply forallb_Forall, Forall_map, Forall_true. done. Qed.

Lemma plain_jsonStrings texts : plain (jsonStrings texts) = jsonStrings texts.
Proof. unfold jsonStrings. cbn [plain]. rewrite map_map. reflexivity. Qed.

Lemma readArray_strings texts : readArray readString (jsonStrings texts) = Some texts.
Proof.
  unfold jsonStrings. rewrite (read_array JString readString); [done|]. by apply Forall_true.
Qed.

(** The fields that the reader of an envelope of alerts finds. *)
Lemma parse_alertFields manifest digest texts :
  exists value, jsonParse numberText (jsonLine (alertEnvelope manifest digest texts)) = Returns value
    /\ field "schemaVersion" readNumber value = Some 1 /\ field "manifestSha256" readString value = Some manifest
    /\ field "payloadSha256" readString value = Some digest
    /\ field "alerts" (readArray readString) value = Some texts.
Proof.
  assert (Hplain : plain (alertEnvelope manifest digest texts) = alertEnvelope manifest digest texts).
  { unfold alertEnvelope. rewrite <- (plain_jsonStrings texts) at 2. reflexivity. }
  exists (alertEnvelope manifest digest texts). unfold jsonLine. rewrite jsonParse_line, Hplain.
  - unfold alertEnvelope. erewrite !field_hit by reflexivity. by rewrite readArray_strings.
  - unfold alertEnvelope. cbn [jsonOk forallb snd]. by rewrite jsonOk_strings.
Qed.
End Envelopes.

(** ** The journal *)

(** What recording alerts does to a journal: the first alert of an id stays, a later one must equal it up to its time. *)
Fixpoint recordAlerts (reused : string) (incoming journal : list Alert.CriticalAlert) : Outcome (list Alert.CriticalAlert) :=
  match incoming with
  | [] => Returns journal
  | alert :: rest =>
      match arrayFind (fun entry => bool_decide (entry.(Alert.id) = alert.(Alert.id))) journal with
      | Some prior => if equivalentCriticalAlert prior alert then recordAlerts reused rest journal
                      else Throws (TypeError (reused ⧺ alert.(Alert.id)))
      | None => recordAlerts reused rest (journal ++ [alert])
      end
  end.

Definition JournalOk (journal : list Alert.CriticalAlert) : Prop :=
  Forall Persistable journal /\ NoDup (map Alert.id journal).

Definition journalEntries (journal : list Alert.CriticalAlert) : list (string * string) :=
  map (fun alert => (alert.(Alert.id), alertText alert)) journal.

Lemma mapM_outcome {A B} (f : A -> Outcome B) (g : A -> B) l :
  Forall (fun a => f a = Returns (g a)) l -> mapM f l = Returns (map g l).
Proof. induction 1 as [|a l Ha _ IH]; [done|]. cbn. rewrite Ha. cbn. by rewrite IH. Qed.

Lemma mapM_outcome_inv {A B} (f : A -> Outcome B) l bs : mapM f l = Returns bs -> Forall2 (fun a b => f a = Returns b) l bs.
Proof.
  revert bs. induction l as [|a l IH]; intros bs H; cbn in H; [injection H as <-; constructor|].
  apply outcome_bind_inv in H as (b & Hb & (bs' & Hl & [= <-])%outcome_bind_inv). constructor; [done|by apply IH].
Qed.

Lemma arrayFind_some {A} (f : A -> bool) l a : arrayFind f l = Some a -> a ∈ l /\ f a = true.
Proof.
  unfold arrayFind. induction l as [|x l IH]; [done|]. cbn. destruct (f x) eqn:E; cbn.
  - intros [= <-]. split; [constructor|done].
  - intros H. destruct (IH H). split; [by constructor|done].
Qed.

Lemma arrayFind_none {A} (f : A -> bool) l : arrayFind f l = None -> Forall (fun a => f a = false) l.
Proof.
  unfold arrayFind. induction l as [|x l IH]; [constructor|]. cbn. destruct (f x) eqn:E; cbn; [done|]. intros H.
  constructor; [done|by apply IH].
Qed.

Lemma find_id_none id journal :
  arrayFind (fun entry => bool_decide (entry.(Alert.id) = id)) journal = None -> id ∉ map Alert.id journal.
Proof.
  intros H%arrayFind_none. intros Hin. apply list_elem_of_In, in_map_iff in Hin as (alert & <- & Hin).
  rewrite Forall_forall in H. specialize (H _ Hin). by apply bool_decide_eq_false in H.
Qed.

Lemma journalOk_snoc journal alert :
  JournalOk journal -> Persistable alert -> alert.(Alert.id) ∉ map Alert.id journal -> JournalOk (journal ++ [alert]).
Proof.
  intros [Hp Hn] Ha Hid. split; [by apply Forall_app; split; [|constructor]|]. rewrite map_app. apply list.NoDup_app.
  split; [done|]. split; [|apply NoDup_singleton]. intros x Hx Hx'. apply list_elem_of_singleton in Hx' as ->. done.
Qed.

Lemma journalOk_elem journal alert : JournalOk journal -> alert ∈ journal -> Persistable alert.
Proof. intros [H _] Hin%list_elem_of_In. rewrite Forall_forall in H. by apply H. Qed.

Lemma journalOk_nil : JournalOk [].
Proof. split; constructor. Qed.

(** Recording extends the journal and keeps it in order. *)
Lemma recordAlerts_extends reused incoming journal journal' :
  JournalOk journal -> Forall Persistable incoming -> recordAlerts reused incoming journal = Returns journal' ->
  JournalOk journal' /\ exists fresh, journal' = journal ++ fresh /\ fresh `sublist_of` incoming.
Proof.
  intros Hj Hi. revert journal Hj. induction Hi as [|alert incoming Ha Hi IH]; intros journal Hj H; cbn in H.
  { injection H as <-. split; [done|]. exists []. by rewrite app_nil_r. }
  destruct (arrayFind _ journal) as [prior|] eqn:E.
  - destruct (equivalentCriticalAlert prior alert); [|done]. destruct (IH _ Hj H) as (Hj' & fresh & -> & Hs).
    split; [done|]. exists fresh. split; [done|by constructor].
  - apply IH in H as (Hj' & fresh & -> & Hs); [|apply journalOk_snoc; [done..|by apply find_id_none]].
    split; [done|]. exists (alert :: fresh). split; [by rewrite <- app_assoc|by constructor].
Qed.

Section Journal.
Context (sha256 : string -> string) (numberText : Z -> Z -> string) (Hsha : Digests sha256).

Lemma jsGet_journal id journal :
  jsGet id (journalEntries journal)
  = alertText <$> arrayFind (fun entry => bool_decide (entry.(Alert.id) = id)) journal.
Proof.
  unfold arrayFind, journalEntries. induction journal as [|alert journal IH]; [done|]. cbn [map jsGet List.filter].
  destruct (bool_decide (Alert.id alert = id)) eqn:E; cbn.
  - apply bool_decide_eq_true in E. by rewrite decide_True.
  - apply bool_decide_eq_false in E. rewrite decide_False by congruence. exact IH.
Qed.

Lemma mergeAlerts_record incoming journal :
  JournalOk journal -> Forall Persistable incoming ->
  mergeAlerts numberText (map (fun alert => (alert, alertText alert)) incoming) (journalEntries journal)
  = (merged ← recordAlerts "Critical alert ID was reused with different content: " incoming journal;
     Returns (journalEntries merged)).
Proof.
  intros Hj Hi. revert journal Hj. induction Hi as [|alert incoming Ha Hi IH]; intros journal Hj; [done|].
  cbn [map mergeAlerts recordAlerts]. rewrite jsGet_journal.
  destruct (arrayFind _ journal) as [prior|] eqn:E; cbn [fmap option_fmap option_map].
  - pose proof (arrayFind_some _ _ _ E) as [Hin _]. rewrite decode_alertText by by eapply journalOk_elem.
    cbn [mbind outcome_bind]. destruct (equivalentCriticalAlert prior alert); [by apply IH|done].
  - apply find_id_none in E as Hid. rewrite <- IH by by apply journalOk_snoc. f_equal.
    unfold journalEntries. rewrite map_app. apply jsSet_append. unfold jsKeys. by rewrite map_map.
Qed.

Lemma validateRecords_journal ids journal :
  Forall Persistable journal -> NoDup (map Alert.id journal) -> (forall id, id ∈ map Alert.id journal -> id ∉ ids) ->
  validateRecords numberText ids (map alertText journal) = Returns tt.
Proof.
  intros Hp. revert ids. induction Hp as [|alert journal Ha Hp IH]; intros ids Hn Hids; [done|]. cbn [map validateRecords] in *.
  rewrite decode_alertText by done. cbn [mbind outcome_bind]. apply list.NoDup_cons in Hn as [Hnot Hn].
  rewrite bool_decide_false by (apply Hids; constructor). apply IH; [done|]. intros id Hid. rewrite elem_of_cons.
  intros [->|Hin]; [done|]. by apply (Hids id); [constructor|].
Qed.

(** The text of the file that holds a journal. *)
Definition journalText (manifest : string) (journal : list Alert.CriticalAlert) : string :=
  let texts := map alertText journal in
  jsonLine (alertEnvelope manifest (sha256 (stringify (jsonStrings texts))) texts).

Lemma parse_journalText manifest journal :
  JournalOk journal -> parseAlertEnvelope sha256 numberText manifest (journalText manifest journal) = Returns (map alertText journal).
Proof.
  intros [Hp Hn]. unfold parseAlertEnvelope, journalText. cbv zeta.
  destruct (parse_alertFields numberText manifest (sha256 (stringify (jsonStrings (map alertText journal)))) (map alertText journal))
    as (value & -> & Hv & Hm & Hd & Ha). cbn [mbind outcome_bind]. rewrite Hv, Hm, Hd, Ha.
  rewrite bool_decide_false, bool_decide_false by by intros []. cbn [orb mbind outcome_bind].
  unfold assertSha256Digest. rewrite digest_ok by done. cbn [mbind outcome_bind]. rewrite bool_decide_false by by intros [].
  rewrite validateRecords_journal; [done..|]. intros id _. apply not_elem_of_nil.
Qed.

Lemma decode_journal journal :
  JournalOk journal -> mapM (decodeCriticalAlert numberText) (map alertText journal) = Returns journal.
Proof.
  intros [Hp _]. induction Hp as [|alert journal Ha Hp IH]; [done|]. cbn [map mapM]. rewrite decode_alertText by done.
  cbn [mbind outcome_bind]. unfold mapM in *. by rewrite IH.
Qed.

Lemma encode_journal journal :
  JournalOk journal -> mapM (encodeCriticalAlert numberText) journal = Returns (map alertText journal).
Proof. intros [Hp _]. apply mapM_outcome. eapply Forall_impl; [|exact Hp]. intros alert. apply encode_persistable. Qed.

Lemma parse_delivered os_path manifest journal :
  JournalOk journal ->
  Sink.parseDelivered sha256 numberText (Sink.mk os_path manifest) (journalText manifest journal) = Returns journal.
Proof.
  intros Hj. pose proof Hj as [_ Hn]. unfold Sink.parseDelivered, journalText. cbv zeta.
  destruct (parse_alertFields numberText manifest (sha256 (stringify (jsonStrings (map alertText journal)))) (map alertText journal))
    as (value & -> & Hv & Hm & Hd & Ha). cbn [mbind outcome_bind]. rewrite Hv, Hm, Hd, Ha. cbn [Sink.manifestSha256].
  rewrite bool_decide_false, bool_decide_false by by intros []. cbn [orb mbind outcome_bind].
  rewrite digest_ok by done. cbn [mbind outcome_bind]. rewrite bool_decide_false by by intros []. cbn [mbind outcome_bind].
  rewrite decode_journal by done. cbn [mbind outcome_bind]. unfold hasUnique. by rewrite bool_decide_true.
Qed.
End Journal.

(** ** What the files show *)

Section Shown.
Context (segments : list string) (sha256 : string -> string) (numberText : Z -> Z -> string) (manifest : string).
#[local] Abbreviation inside := (inside segments).
#[local] Abbreviation directory := (directory segments).

(** A private file in the directory, within its limit. *)
Definition Holds (files : Files) (name text : string) (limit : Z) : Prop :=
  exists mode, files !! inside name = Some (RegularFile text mode) /\ Z.land mode 63 = 0
    /\ utf8Length text <= limit /\ is_Some (files !! directory).

Definition snapshotText (payload : string) : string := jsonLine (snapshotEnvelope manifest (sha256 payload) payload).

Definition ShowsSnapshot (files : Files) (latest : option Snap.IndexerSnapshot) : Prop :=
  match latest with
  | None => files !! inside SNAPSHOT_NAME = None
  | Some snapshot => exists payload, decodeSnapshot sha256 numberText payload = Returns snapshot
                      /\ Holds files SNAPSHOT_NAME (snapshotText payload) MAX_SNAPSHOT_BYTES
  end.

(** A journal in the file of that name; no file is an empty journal. *)
Definition ShowsJournal (name : string) (limit : Z) (files : Files) (journal : list Alert.CriticalAlert) : Prop :=
  JournalOk journal
  /\ ((journal = [] /\ files !! inside name = None) \/ Holds files name (journalText sha256 manifest journal) limit).

(** What a name shows depends on its entry and on the directory. *)
Definition SameAt (name : string) (files files' : Files) : Prop :=
  files' !! inside name = files !! inside name /\ KeepsWay segments files files'.

Lemma untouched_same (P : string -> Prop) name files files' :
  Untouched segments P files files' -> name <> "" -> ~ P name -> SameAt name files files'.
Proof. intros [H W] Hn HP. split; [by apply H|done]. Qed.

Lemma holds_same files files' name text limit : SameAt name files files' -> Holds files name text limit -> Holds files' name text limit.
Proof.
  intros [H W] (mode & E & Hm & Hl & [entry Hd]). exists mode. rewrite H. repeat split; try done.
  destruct (W segments entry) as (m & E' & _); [done..|]. by exists (withMode m entry).
Qed.

Lemma showsSnapshot_same files files' latest :
  SameAt SNAPSHOT_NAME files files' -> ShowsSnapshot files latest -> ShowsSnapshot files' latest.
Proof.
  intros H. destruct latest as [snapshot|]; cbn.
  - intros (payload & E & Hh). exists payload. split; [done|]. by eapply holds_same.
  - intros E. by rewrite (proj1 H).
Qed.

Lemma showsJournal_same name limit files files' journal :
  SameAt name files files' -> ShowsJournal name limit files journal -> ShowsJournal name limit files' journal.
Proof.
  intros H [Hj Hs]. split; [done|]. destruct Hs as [[-> E]|Hh]; [left; by rewrite (proj1 H)|right; by eapply holds_same].
Qed.
End Shown.

(** ** The object and its disk *)

Section Store.
Context (segments : list string) (Hsegments : Segments segments) (os : Os.OperatingSystem).
Context (sha256 : string -> string) (numberText : Z -> Z -> string) (manifest : string).
Context (Hhonest : HonestFaults os) (Hsha : Digests sha256).
#[local] Abbreviation inside := (inside segments).
#[local] Abbreviation directory := (directory segments).
#[local] Abbreviation Untouched := (Untouched segments).
#[local] Abbreviation ShowsSnapshot := (ShowsSnapshot segments sha256 numberText manifest).
#[local] Abbreviation ShowsJournal := (ShowsJournal segments sha256 manifest).

(** A store of the directory. *)
Definition StoreIn (s : Fs.FileIndexerStore) : Prop :=
  s.(Fs.snapshotPath) = inside SNAPSHOT_NAME /\ s.(Fs.alertsPath) = inside ALERTS_NAME
  /\ s.(Fs.writerLeasePath) = inside WRITER_LOCK_NAME /\ s.(Fs.manifestSha256) = manifest.

Definition storeFiles (s : Fs.FileIndexerStore) : Files := s.(Fs.disk).(Dsk.files).

(** The object but for its failures, and the disk but for the names in [P]. *)
Definition SameStore (P : string -> Prop) (s s' : Fs.FileIndexerStore) : Prop :=
  s' = s <| Fs.leaseMutationFailures := s'.(Fs.leaseMutationFailures) |> <| Fs.disk := s'.(Fs.disk) |>
  /\ Untouched P (storeFiles s) (storeFiles s').

#[export] Instance sameStore_preorder P : PreOrder (SameStore P).
Proof.
  split.
  - intros []. split; [done|]. reflexivity.
  - intros s1 s2 s3 [E1 U1] [E2 U2]. split; [|by etransitivity]. rewrite E2, E1. by destruct s3.
Qed.

Lemma sameStore_setDisk P s d' : Untouched P (diskOf s).(Dsk.files) d'.(Dsk.files) -> SameStore P s (setDisk d' s).
Proof. intros H. by destruct s. Qed.

Lemma sameStore_weaken (P Q : string -> Prop) s s' : (forall name, P name -> Q name) -> SameStore P s s' -> SameStore Q s s'.
Proof. intros H [E U]. split; [done|]. by eapply untouched_weaken. Qed.

Lemma sameStore_in P s s' : SameStore P s s' -> StoreIn s -> StoreIn s'.
Proof. intros [E _]. rewrite E. done. Qed.

Lemma sameStore_lease P s s' : SameStore P s s' -> s'.(Fs.activeLease) = s.(Fs.activeLease).
Proof. intros [E _]. by rewrite E. Qed.

Lemma track_inv P m s o s' :
  Durable.trackLeaseMutation m s = (o, s') -> exists s1, m s = (o, s1) /\ SameStore P s1 s' /\ storeFiles s' = storeFiles s1.
Proof.
  unfold Durable.trackLeaseMutation, tryCatch. destruct (m s) as [[u|e] s1].
  - intros [= <- <-]. exists s1. split; [done|]. split; [reflexivity|done].
  - cbn. intros [= <- <-]. exists s1. split; [done|]. split; [|by destruct s1]. split; [by destruct s1|]. destruct s1. reflexivity.
Qed.

Lemma assertActiveLease_returns lease s u s' :
  Durable.assertActiveLease lease s = (Returns u, s') -> s' = s /\ s.(Fs.activeLease) = Some lease.
Proof.
  unfold Durable.assertActiveLease, getState, unlessThrow, mbind, task_bind. case_bool_decide; [|done]. by intros [= _ <-].
Qed.

Lemma assertActiveLease_state lease s o s' : Durable.assertActiveLease lease s = (o, s') -> s' = s.
Proof. unfold Durable.assertActiveLease, getState, unlessThrow, mbind, task_bind. by intros [= _ <-]. Qed.

(** ** Loading *)

Lemma onDisk_read name maximum s o s' :
  isSegment name = true -> onDisk (readFileSecurely os (inside name) maximum) s = (o, s') ->
  SameStore (fun _ => False) s s'
  /\ match o with
     | Throws _ => True
     | Returns None => storeFiles s !! inside name = None \/ storeFiles s !! directory = None
     | Returns (Some text) => exists mode, storeFiles s !! inside name = Some (RegularFile text mode)
     end.
Proof.
  intros Hn H. apply onDisk_inv in H as (d' & E & -> & _). apply read_cases in E as [E H]; [|done..].
  split; [|done]. apply sameStore_setDisk. rewrite E. reflexivity.
Qed.

(** What a file that shows something answers to a reader. *)
Lemma holds_read name text limit s o s' maximum :
  Holds segments (storeFiles s) name text limit -> isSegment name = true ->
  onDisk (readFileSecurely os (inside name) maximum) s = (o, s') ->
  SameStore (fun _ => False) s s' /\ match o with Returns answer => answer = Some text | Throws _ => True end.
Proof.
  intros (mode & E & _ & _ & [dir Hd]) Hn H. apply onDisk_read in H as [Hsame H]; [|done]. split; [done|].
  destruct o as [[answer|]|e]; [| |done].
  - destruct H as [mode' H]. rewrite E in H. by injection H as <-.
  - destruct H as [H|H]; congruence.
Qed.

Lemma load_cases latest s o s' :
  StoreIn s -> ShowsSnapshot (storeFiles s) latest -> Durable.loadLatestSnapshot os sha256 numberText s = (o, s') ->
  SameStore (fun _ => False) s s' /\ match o with Returns loaded => loaded = latest | Throws _ => True end.
Proof.
  intros (Hp & _ & _ & Hm) Hs H. unfold Durable.loadLatestSnapshot, getState, mbind, task_bind in H.
  rewrite Hp, Hm in H. destruct (onDisk _ s) as [[encoded|e] s1] eqn:E.
  - destruct latest as [snapshot|].
    + destruct Hs as (payload & Hd & Hh). pose proof (holds_read _ _ _ _ _ _ _ Hh eq_refl E) as [Hsame ->]. unfold snapshotText in H.
      rewrite parse_snapshotEnvelope in H by done. unfold evaluate, mbind, outcome_bind in H. rewrite Hd in H.
      by injection H as <- <-.
    + apply onDisk_read in E as [Hsame E]; [|done]. change (storeFiles s !! inside SNAPSHOT_NAME = None) in Hs.
      destruct encoded as [text|]; [destruct E; congruence|]. by injection H as <- <-.
  - injection H as <- <-. destruct latest as [snapshot|].
    + destruct Hs as (payload & Hd & Hh). by pose proof (holds_read _ _ _ _ _ _ _ Hh eq_refl E) as [Hsame _].
    + by apply onDisk_read in E as [Hsame _].
Qed.

Lemma loadAlertStrings_cases journal s o s' :
  StoreIn s -> ShowsJournal ALERTS_NAME MAX_ALERT_BYTES (storeFiles s) journal ->
  Durable.loadAlertStrings os sha256 numberText s = (o, s') ->
  SameStore (fun _ => False) s s' /\ match o with Returns texts => texts = map alertText journal | Throws _ => True end.
Proof.
  intros (_ & Hp & _ & Hm) [Hj Hs] H. unfold Durable.loadAlertStrings, getState, mbind, task_bind in H.
  rewrite Hp, Hm in H. destruct (onDisk _ s) as [[encoded|e] s1] eqn:E.
  - destruct Hs as [[-> Hnone]|Hh].
    + apply onDisk_read in E as [Hsame E]; [|done]. destruct encoded as [text|]; [destruct E; congruence|].
      by injection H as <- <-.
    + pose proof (holds_read _ _ _ _ _ _ _ Hh eq_refl E) as [Hsame ->]. rewrite parse_journalText in H by done. by injection H as <- <-.
  - injection H as <- <-. split; [|done]. by destruct Hs as [[-> Hnone]|Hh]; [apply onDisk_read in E as [Hsame _]|pose proof (holds_read _ _ _ _ _ _ _ Hh eq_refl E) as [Hsame _]].
Qed.

Lemma listAlerts_cases journal s o s' :
  StoreIn s -> ShowsJournal ALERTS_NAME MAX_ALERT_BYTES (storeFiles s) journal ->
  Durable.listAlerts os sha256 numberText s = (o, s') ->
  SameStore (fun _ => False) s s' /\ match o with Returns alerts => alerts = journal | Throws _ => True end.
Proof.
  intros Hin Hs H. unfold Durable.listAlerts, mbind, task_bind in H.
  destruct (Durable.loadAlertStrings _ _ _ s) as [[texts|e] s1] eqn:E; apply (loadAlertStrings_cases journal) in E as [Hsame E]; try done.
  - subst texts. unfold evaluate in H. rewrite decode_journal in H by apply Hs. by injection H as <- <-.
  - by injection H as <- <-.
Qed.
(** ** Replacing a file under its lock *)

(** The names that a replacement of a file may touch. *)
Definition Locked (name other : string) : Prop := Written os name other \/ other = name ⧺ ".lock".

Lemma createdMode_private : Z.land (createdMode os) 63 = 0.
Proof.
  unfold createdMode. apply Z.bits_inj'. intros n Hn. rewrite Z.land_spec, Z.ldiff_spec, Z.bits_0.
  assert (E : Z.testbit (Z.land 384 63) n = false) by (change (Z.land 384 63) with 0; apply Z.bits_0).
  rewrite Z.land_spec in E. destruct (Z.testbit 384 n), (Z.testbit 63 n), (Z.testbit (Os.umask os) n); done.
Qed.

Lemma onDisk_write name text s o s' limit :
  isSegment name = true -> utf8Length text <= limit ->
  onDisk (writeFileAtomically os (inside name) text) s = (o, s') ->
  SameStore (Written os name) s s'
  /\ match o with
     | Returns _ => Holds segments (storeFiles s') name text limit
     | Throws _ => storeFiles s' !! inside name = storeFiles s !! inside name
     end.
Proof.
  intros Hn Hl H. apply onDisk_inv in H as (d' & E & -> & D). apply write_cases in E as [[HU HL] Hd]; [|done..].
  split; [by apply sameStore_setDisk|]. unfold storeFiles. change (Fs.disk (setDisk d' s)) with (diskOf (setDisk d' s)).
  rewrite D. destruct o as [u|e]; [|exact HL]. exists (createdMode os). split; [exact HL|]. split; [apply createdMode_private|].
  split; [done|]. apply Hd. by exists u.
Qed.

Lemma locked_name name : Locked name name.
Proof. left. by left. Qed.

(** A task that ran under the lock of a file: the file is what the task made of it. *)
Lemma locked_cases {T} name (operation : Task Fs.FileIndexerStore T) s o s' :
  isSegment name = true -> isSegment (name ⧺ ".lock") = true ->
  withExclusiveFileLock os (inside name ⧺ ".lock") operation s = (o, s') ->
  (exists e, o = Throws e /\ SameStore (fun other => other = name ⧺ ".lock") s s')
  \/ exists s1 s2, SameStore (fun other => other = name ⧺ ".lock") s s1 /\ operation s1 = (o, s2)
       /\ SameStore (fun other => other = name ⧺ ".lock") s2 s'.
Proof.
  intros Hn Hl H. rewrite inside_suffix in H.
  set (L := fun other => other = name ⧺ ".lock") in *.
  apply (lock_cases segments os Hsegments (SameStore L) L (sameStore_setDisk L) (name ⧺ ".lock") Hl eq_refl) in H.
  destruct H as [(e & -> & H)|(s1 & s2 & H1 & _ & _ & H2 & H3)]; [left; by exists e|]. right. by exists s1, s2.
Qed.

Lemma name_not_lock name : name <> name ⧺ ".lock".
Proof. intros E%(f_equal String.length). rewrite Numerals.length_append in E. cbn in E. lia. Qed.
Lemma sameStore_lock name s s' : SameStore (fun other => other = name ⧺ ".lock") s s' -> SameStore (Locked name) s s'.
Proof. apply sameStore_weaken. intros other ->. by right. Qed.

Lemma sameStore_written name s s' : SameStore (Written os name) s s' -> SameStore (Locked name) s s'.
Proof. apply sameStore_weaken. by left. Qed.

Lemma sameStore_nothing P s s' : SameStore (fun _ => False) s s' -> SameStore P s s'.
Proof. by apply sameStore_weaken. Qed.

(** A relation that only a name unlike [name] can break. *)
Lemma lock_keeps name s s' :
  name <> "" -> SameStore (fun other => other = name ⧺ ".lock") s s' ->
  storeFiles s' !! inside name = storeFiles s !! inside name.
Proof. intros Hn [_ [H _]]. apply H; [done|apply name_not_lock]. Qed.

(** ** [saveSnapshot] *)

(** The candidate may follow what is stored. *)
Definition Follows (latest : option Snap.IndexerSnapshot) (candidate : Snap.IndexerSnapshot) : Prop :=
  match latest with
  | Some existing => assertMonotonicSnapshot sha256 numberText existing candidate = Returns tt
  | None => True
  end.

Definition SaveOutcome (snapshot : Snap.IndexerSnapshot) (lease : Lease) (base : option string)
    (latest : option Snap.IndexerSnapshot) (s : Fs.FileIndexerStore) (o : Outcome unit) (s' : Fs.FileIndexerStore) : Prop :=
  SameStore (Locked SNAPSHOT_NAME) s s'
  /\ match o with
     | Returns _ => exists saved, decodeSnapshot sha256 numberText (encodeSnapshot snapshot) = Returns saved
         /\ s.(Fs.activeLease) = Some lease /\ Snap.id <$> latest = base /\ Follows latest saved
         /\ ShowsSnapshot (storeFiles s') (Some saved)
     | Throws _ => ShowsSnapshot (storeFiles s') latest
     end.

(** The part of the operation that runs under the lock. *)
Lemma save_locked snapshot saved lease base latest s o s' :
  StoreIn s -> ShowsSnapshot (storeFiles s) latest ->
  decodeSnapshot sha256 numberText (encodeSnapshot snapshot) = Returns saved ->
  utf8Length (snapshotText sha256 manifest (encodeSnapshot snapshot)) <= MAX_SNAPSHOT_BYTES ->
  (Durable.assertActiveLease lease ;;
   existing ← Durable.loadLatestSnapshot os sha256 numberText;
   unlessThrow (bool_decide (Snap.id <$> existing = base))
     (StaleIndexerSnapshotError "durable base changed after this indexer restored its state") ;;
   evaluate (match existing with
             | Some existing => assertMonotonicSnapshot sha256 numberText existing saved
             | None => Returns tt
             end) ;;
   Durable.assertActiveLease lease ;;
   onDisk (writeFileAtomically os (inside SNAPSHOT_NAME) (snapshotText sha256 manifest (encodeSnapshot snapshot)))) s = (o, s') ->
  SaveOutcome snapshot lease base latest s o s'.
Proof.
  intros Hin Hs Hd Hl H.
  assert (Hquiet : forall e s1, SameStore (fun _ => False) s s1 -> SaveOutcome snapshot lease base latest s (Throws e) s1).
  { intros e s1 H1. split; [by apply sameStore_nothing|]. eapply showsSnapshot_same; [|done]. eapply untouched_same; [apply H1|done|by intros []]. }
  apply task_bind_cases in H as [(u1 & s1 & E & H)|(e & -> & E)];
    [|apply assertActiveLease_state in E as ->; by apply Hquiet].
  apply assertActiveLease_returns in E as [-> Hlease].
  apply task_bind_cases in H as [(existing & s2 & E & H)|(e & -> & E)];
    apply (load_cases latest) in E as [Hsame E]; try done; [|by apply Hquiet]. subst existing.
  apply task_bind_cases in H as [(u2 & s3 & E & H)|(e & -> & E)]; apply unlessThrow_inv in E as [-> Hbase]; [|by apply Hquiet].
  specialize (Hbase ltac:(by exists u2)). apply bool_decide_eq_true in Hbase.
  apply task_bind_cases in H as [(u3 & s4 & E & H)|(e & -> & E)]; apply evaluate_inv in E as [E ->]; [|by apply Hquiet].
  apply task_bind_cases in H as [(u4 & s5 & E' & H)|(e & -> & E')];
    [|apply assertActiveLease_state in E' as ->; by apply Hquiet].
  apply assertActiveLease_returns in E' as [-> _].
  apply (onDisk_write _ _ _ _ _ MAX_SNAPSHOT_BYTES) in H as [Hw H]; [|done..].
  split; [etransitivity; [by apply sameStore_nothing|by apply sameStore_written]|].
  destruct o as [[]|e].
  - exists saved. split; [done|]. split; [done|]. split; [done|]. split; [destruct latest; destruct u3; done|].
    by exists (encodeSnapshot snapshot).
  - eapply showsSnapshot_same; [|done]. destruct Hsame as [_ [Hk Wk]], Hw as [_ [_ Ww]]. split.
    + rewrite H. apply Hk; [done|by intros []].
    + by etransitivity.
Qed.
(** The end of the lock changes nothing that is shown. *)
Lemma same_after_lock name s s' :
  name <> "" -> SameStore (fun other => other = name ⧺ ".lock") s s' -> SameAt segments name (storeFiles s) (storeFiles s').
Proof. intros Hn H. split; [by apply lock_keeps|]. apply H. Qed.

Lemma same_track name P s s' : SameStore P s s' -> storeFiles s' = storeFiles s -> SameAt segments name (storeFiles s) (storeFiles s').
Proof. intros [_ [_ H]] E. split; [by rewrite E|done]. Qed.

Lemma saveOutcome_around snapshot lease base latest s s1 o s2 s' :
  SameStore (fun other => other = SNAPSHOT_NAME ⧺ ".lock") s s1 -> SaveOutcome snapshot lease base latest s1 o s2 ->
  SameStore (fun other => other = SNAPSHOT_NAME ⧺ ".lock") s2 s' -> SaveOutcome snapshot lease base latest s o s'.
Proof.
  intros H1 [H2 Ho] H3. split.
  - etransitivity; [by apply sameStore_lock|]. etransitivity; [exact H2|by apply sameStore_lock].
  - apply (same_after_lock SNAPSHOT_NAME) in H3; [|done]. destruct o as [u|e]; [|by eapply showsSnapshot_same].
    destruct Ho as (saved & Hd & Hlease & Hbase & Hf & Hs). exists saved. split; [done|].
    split; [by rewrite <- (sameStore_lease _ _ _ H1)|]. do 2 (split; [done|]). by eapply showsSnapshot_same.
Qed.

(** Whatever fails: the snapshot file shows the new snapshot, checked against the old one, or the old one. *)
Lemma save_cases snapshot lease base latest s o s' :
  StoreIn s -> ShowsSnapshot (storeFiles s) latest ->
  Durable.saveSnapshot os sha256 numberText snapshot lease base s = (o, s') ->
  SaveOutcome snapshot lease base latest s o s'.
Proof.
  intros Hin Hs H. unfold Durable.saveSnapshot in H.
  assert (Hquiet : forall e, SaveOutcome snapshot lease base latest s (Throws e) s) by by intros e; split; [reflexivity|].
  apply task_bind_cases in H as [(u & s1 & E & H)|(e & -> & E)]; [|by apply assertActiveLease_state in E as ->].
  apply assertActiveLease_returns in E as [-> _]. apply (track_inv (Locked SNAPSHOT_NAME)) in H as (s1 & H & Ht & Hf).
  assert (Hout : SaveOutcome snapshot lease base latest s o s1).
  { unfold Durable.saveSnapshotUnderLease, getState in H. unfold mbind at 1, task_bind at 1 in H. cbv beta iota in H.
    destruct Hin as (Hp & Ha & Hw & Hm). rewrite Hp, Hm in H. fold (snapshotText sha256 manifest (encodeSnapshot snapshot)) in H.
    apply task_bind_cases in H as [(u1 & s2 & E & H)|(e & -> & E)]; apply unlessThrow_inv in E as [-> _]; [|by apply Hquiet].
    apply task_bind_cases in H as [(saved & s2 & E & H)|(e & -> & E)]; apply evaluate_inv in E as [Hd ->]; [|by apply Hquiet].
    apply task_bind_cases in H as [(u2 & s2 & E & H)|(e & -> & E)]; apply unlessThrow_inv in E as [-> Hl]; [|by apply Hquiet].
    specialize (Hl ltac:(by exists u2)). apply bool_decide_eq_true in Hl. apply locked_cases in H as [(e & -> & H)|(s2 & s3 & H1 & H2 & H3)]; [| |done..].
    - split; [by apply sameStore_lock|]. eapply showsSnapshot_same; [|exact Hs]. by apply same_after_lock.
    - eapply saveOutcome_around; [exact H1| |exact H3]. eapply save_locked; [|..|exact H2]; [|..|done|done].
      + by eapply sameStore_in.
      + eapply showsSnapshot_same; [|exact Hs]. by apply same_after_lock. }
  destruct Hout as [Hsame Hout]. split; [by etransitivity|]. pose proof (same_track SNAPSHOT_NAME _ _ _ Ht Hf) as Hat.
  destruct o as [u1|e]; [|by eapply showsSnapshot_same].
  destruct Hout as (saved & Hd & Hlease & Hbase & Hfol & Hshow). exists saved. do 4 (split; [done|]).
  by eapply showsSnapshot_same.
Qed.

(** ** [appendAlerts] *)

Definition REUSED : string := "Critical alert ID was reused with different content: ".

Definition AppendOutcome (alerts : list Alert.CriticalAlert) (lease : Lease) (journal : list Alert.CriticalAlert)
    (s : Fs.FileIndexerStore) (o : Outcome unit) (s' : Fs.FileIndexerStore) : Prop :=
  SameStore (Locked ALERTS_NAME) s s'
  /\ match o with
     | Returns _ => s.(Fs.activeLease) = Some lease /\ Forall Persistable alerts
         /\ exists recorded, recordAlerts REUSED alerts journal = Returns recorded
             /\ ShowsJournal ALERTS_NAME MAX_ALERT_BYTES (storeFiles s') recorded
     | Throws _ => ShowsJournal ALERTS_NAME MAX_ALERT_BYTES (storeFiles s') journal
     end.

(** Alerts whose cursors hold numbers JSON can carry. *)
Definition IndexesSafe (alerts : list Alert.CriticalAlert) : Prop :=
  Forall (fun alert => forall cursor, alert.(Alert.cursor) = Some cursor -> isSafeInteger cursor.(Cursor.eventIndex) = true) alerts.

Lemma jsValues_entries journal : jsValues (journalEntries journal) = map alertText journal.
Proof. unfold jsValues, journalEntries. by rewrite map_map. Qed.

Lemma jsFromEntries_journal journal : JournalOk journal -> jsFromEntries (journalEntries journal) = journalEntries journal.
Proof.
  intros [_ Hn]. change (jsFromEntries (journalEntries journal)) with (jsCopy (journalEntries journal)). apply jsCopy_wf.
  unfold jsWf, jsKeys, journalEntries. by rewrite map_map.
Qed.

(** The entries that [appendAlertsUnderLease] makes of the strings it loads. *)
Lemma entries_of journal :
  JournalOk journal ->
  mapM (fun entry => decoded ← decodeCriticalAlert numberText entry; Returns (decoded.(Alert.id), entry)) (map alertText journal)
  = Returns (journalEntries journal).
Proof.
  intros [Hp _]. unfold journalEntries. induction Hp as [|alert journal Ha Hp IH]; [done|]. cbn [map mapM].
  rewrite decode_alertText by done. cbn [mbind outcome_bind]. unfold mapM in *. by rewrite IH.
Qed.

Lemma incoming_of alerts incoming :
  IndexesSafe alerts ->
  mapM (fun alert => encoded ← encodeCriticalAlert numberText alert; Returns (alert, encoded)) alerts = Returns incoming ->
  Forall Persistable alerts /\ incoming = map (fun alert => (alert, alertText alert)) alerts.
Proof.
  intros Hs H. apply mapM_outcome_inv in H. revert Hs. induction H as [|alert pair alerts incoming Hp _ IH]; intros Hs; [done|].
  inversion Hs as [|?? Ha Hrest]; subst. destruct (IH Hrest) as [Hps ->].
  apply outcome_bind_inv in Hp as (text & Hp & [= <-]). apply encodeCriticalAlert_returns in Hp as [Hp ->]; [|done].
  split; [by constructor|done].
Qed.
(** The part of the operation that runs under the lock. *)
Lemma append_locked alerts lease journal s o s' :
  StoreIn s -> ShowsJournal ALERTS_NAME MAX_ALERT_BYTES (storeFiles s) journal -> Forall Persistable alerts ->
  (Durable.assertActiveLease lease ;;
   existing ← Durable.loadAlertStrings os sha256 numberText;
   entries ← evaluate (mapM (fun entry => decoded ← decodeCriticalAlert numberText entry;
                                          Returns (decoded.(Alert.id), entry)) existing);
   byId ← evaluate (mergeAlerts numberText (map (fun alert => (alert, alertText alert)) alerts) (jsFromEntries entries));
   unlessThrow (bool_decide (utf8Length (jsonLine (alertEnvelope manifest (sha256 (stringify (jsonStrings (jsValues byId))))
                                                    (jsValues byId))) <= MAX_ALERT_BYTES))
     (RangeError "Critical-alert envelope exceeds its durable file limit") ;;
   Durable.assertActiveLease lease ;;
   onDisk (writeFileAtomically os (inside ALERTS_NAME)
     (jsonLine (alertEnvelope manifest (sha256 (stringify (jsonStrings (jsValues byId)))) (jsValues byId))))) s = (o, s') ->
  AppendOutcome alerts lease journal s o s'.
Proof.
  intros Hin Hs Hp H. pose proof Hs as [Hj _].
  assert (Hquiet : forall e s1, SameStore (fun _ => False) s s1 -> AppendOutcome alerts lease journal s (Throws e) s1).
  { intros e s1 H1. split; [by apply sameStore_nothing|]. eapply showsJournal_same; [|done].
    eapply untouched_same; [apply H1|done|by intros []]. }
  apply task_bind_cases in H as [(u1 & s1 & E & H)|(e & -> & E)];
    [|apply assertActiveLease_state in E as ->; by apply Hquiet].
  apply assertActiveLease_returns in E as [-> Hlease].
  apply task_bind_cases in H as [(existing & s2 & E & H)|(e & -> & E)];
    apply (loadAlertStrings_cases journal) in E as [Hsame E]; try done; [|by apply Hquiet]. subst existing.
  apply task_bind_cases in H as [(entries & s3 & E & H)|(e & -> & E)]; apply evaluate_inv in E as [E ->]; [|by apply Hquiet].
  rewrite entries_of in E by done. injection E as <-. rewrite jsFromEntries_journal in H by done.
  apply task_bind_cases in H as [(byId & s4 & E & H)|(e & -> & E)]; apply evaluate_inv in E as [E ->]; [|by apply Hquiet].
  rewrite mergeAlerts_record in E by done. apply outcome_bind_inv in E as (recorded & E & [= <-]).
  rewrite jsValues_entries in H. pose proof (recordAlerts_extends _ _ _ _ Hj Hp E) as [Hrec _].
  apply task_bind_cases in H as [(u2 & s5 & E' & H)|(e & -> & E')]; apply unlessThrow_inv in E' as [-> Hl]; [|by apply Hquiet].
  specialize (Hl ltac:(by exists u2)). apply bool_decide_eq_true in Hl.
  apply task_bind_cases in H as [(u4 & s6 & E' & H)|(e & -> & E')];
    [|apply assertActiveLease_state in E' as ->; by apply Hquiet].
  apply assertActiveLease_returns in E' as [-> _].
  apply (onDisk_write _ _ _ _ _ MAX_ALERT_BYTES) in H as [Hw H]; [|done..].
  split; [etransitivity; [by apply sameStore_nothing|by apply sameStore_written]|].
  destruct o as [[]|e].
  - split; [done|]. split; [done|]. exists recorded. split; [done|]. split; [done|]. by right.
  - eapply showsJournal_same; [|done]. destruct Hsame as [_ [Hk Wk]], Hw as [_ [_ Ww]]. split; [|by etransitivity].
    rewrite H. apply Hk; [done|by intros []].
Qed.

Lemma appendOutcome_around alerts lease journal s s1 o s2 s' :
  SameStore (fun other => other = ALERTS_NAME ⧺ ".lock") s s1 -> AppendOutcome alerts lease journal s1 o s2 ->
  SameStore (fun other => other = ALERTS_NAME ⧺ ".lock") s2 s' -> AppendOutcome alerts lease journal s o s'.
Proof.
  intros H1 [H2 Ho] H3. split.
  - etransitivity; [by apply sameStore_lock|]. etransitivity; [exact H2|by apply sameStore_lock].
  - apply (same_after_lock ALERTS_NAME) in H3; [|done]. destruct o as [u|e]; [|by eapply showsJournal_same].
    destruct Ho as (Hlease & Hp & recorded & Hr & Hs). rewrite (sameStore_lease _ _ _ H1) in Hlease.
    do 2 (split; [done|]). exists recorded. split; [done|]. by eapply showsJournal_same.
Qed.

(** Whatever fails: the journal shows the alerts recorded, all of them, or what it showed. *)
Lemma append_cases alerts lease journal s o s' :
  StoreIn s -> IndexesSafe alerts -> ShowsJournal ALERTS_NAME MAX_ALERT_BYTES (storeFiles s) journal ->
  Durable.appendAlerts os sha256 numberText alerts lease s = (o, s') ->
  AppendOutcome alerts lease journal s o s'.
Proof.
  intros Hin Hsafe Hs H. unfold Durable.appendAlerts in H.
  assert (Hquiet : forall e, AppendOutcome alerts lease journal s (Throws e) s) by by intros e; split; [reflexivity|].
  apply task_bind_cases in H as [(u & s1 & E & H)|(e & -> & E)]; [|by apply assertActiveLease_state in E as ->].
  apply assertActiveLease_returns in E as [-> Hlease].
  destruct alerts as [|alert rest]; [|set (alerts := alert :: rest) in *].
  { injection H as <- <-. split; [reflexivity|]. split; [done|]. split; [constructor|]. by exists journal. }
  apply (track_inv (Locked ALERTS_NAME)) in H as (s1 & H & Ht & Hf).
  assert (Hout : AppendOutcome alerts lease journal s o s1).
  { unfold Durable.appendAlertsUnderLease, getState in H. unfold mbind at 1, task_bind at 1 in H. cbv beta iota zeta in H.
    destruct Hin as (Hp & Ha & Hw & Hm). rewrite Ha, Hm in H.
    apply task_bind_cases in H as [(incoming & s2 & E & H)|(e & -> & E)]; apply evaluate_inv in E as [E ->]; [|by apply Hquiet].
    apply incoming_of in E as [Hpers ->]; [|done].
    apply locked_cases in H as [(e & -> & H)|(s2 & s3 & H1 & H2 & H3)]; [| |done..].
    - split; [by apply sameStore_lock|]. eapply showsJournal_same; [|exact Hs]. by apply same_after_lock.
    - eapply appendOutcome_around; [exact H1| |exact H3]. eapply append_locked; [|..|exact H2]; [|..|done].
      + by eapply sameStore_in.
      + eapply showsJournal_same; [|exact Hs]. by apply same_after_lock. }
  destruct Hout as [Hsame Hout]. split; [by etransitivity|]. pose proof (same_track ALERTS_NAME _ _ _ Ht Hf) as Hat.
  destruct o as [u1|e]; [|by eapply showsJournal_same].
  destruct Hout as (Hl & Hp & recorded & Hr & Hshow). do 2 (split; [done|]). exists recorded. split; [done|].
  by eapply showsJournal_same.
Qed.
(** ** [withExclusiveWriter] *)

Definition WriterLock (other : string) : Prop := other = WRITER_LOCK_NAME.

(** The callback runs between the two halves of the lock, under a new lease that ends with it. *)
Lemma writer_cases {T} (operation : Lease -> Task Fs.FileIndexerStore T) s o s' :
  StoreIn s -> Durable.withExclusiveWriter os operation s = (o, s') ->
  (exists e, o = Throws e /\ SameStore WriterLock s s')
  \/ exists s1 o1 s2,
       StoreIn s1 /\ Untouched WriterLock (storeFiles s) (storeFiles s1) /\ s1.(Fs.activeLease) = Some s.(Fs.issued)
       /\ storeFiles s !! inside WRITER_LOCK_NAME = None /\ is_Some (storeFiles s1 !! inside WRITER_LOCK_NAME)
       /\ operation s.(Fs.issued) s1 = (o1, s2)
       /\ Untouched WriterLock (storeFiles s2) (storeFiles s') /\ s'.(Fs.activeLease) = None
       /\ match o1 with Throws e => o = Throws e | Returns a => o = Returns a \/ exists e, o = Throws e end.
Proof.
  intros Hin H. unfold Durable.withExclusiveWriter in H. rewrite (task_bind_eq getState _ s s s eq_refl) in H.
  pose proof Hin as (_ & _ & Hw & _). rewrite Hw in H.
  apply (lock_cases segments os Hsegments (SameStore WriterLock) WriterLock (sameStore_setDisk WriterLock) WRITER_LOCK_NAME eq_refl eq_refl) in H.
  destruct H as [H|(s1 & s2 & H1 & Hfree & Hlock & H2 & H3)]; [by left|right].
  rewrite (task_bind_eq Durable.issueLease _ s1 s1.(Fs.issued) _ eq_refl) in H2.
  rewrite (task_bind_eq (modifyState _) _ _ tt _ eq_refl) in H2.
  set (s3 := (s1 <| Fs.issued := S s1.(Fs.issued) |>) <| Fs.activeLease := Some s1.(Fs.issued) |> <| Fs.leaseMutationFailures := [] |>) in H2.
  assert (Hissued : s1.(Fs.issued) = s.(Fs.issued)) by (destruct H1 as [-> _]; done). rewrite Hissued in H2.
  destruct (operation s.(Fs.issued) s3) as [o1 s4] eqn:Hop. exists s3, o1, s4.
  split; [exact (sameStore_in _ _ _ H1 Hin)|]. split; [apply H1|]. split; [by rewrite <- Hissued|]. split; [exact Hfree|].
  split; [exact Hlock|]. split; [exact Hop|].
  erewrite task_bind_eq in H2 by (rewrite Hop; reflexivity). rewrite (task_bind_eq (modifyState _) _ _ tt _ eq_refl) in H2.
  rewrite (task_bind_eq getState _ _ _ _ eq_refl) in H2. rewrite (task_bind_eq (modifyState _) _ _ tt _ eq_refl) in H2.
  set (s5 := s4 <| Fs.activeLease := None |> <| Fs.leaseMutationFailures := [] |>) in H2.
  assert (Hend : s2 = s5 /\ match o1 with Throws e => o = Throws e | Returns a => o = Returns a \/ exists e, o = Throws e end).
  { unfold evaluate, mbind, task_bind in H2. destruct o1 as [a|e]; [|by injection H2 as <- <-].
    destruct (Fs.leaseMutationFailures _) as [|e rest]; injection H2 as <- <-; (split; [done|]); [by left|right; by exists e]. }
  destruct Hend as [-> Ho]. destruct H3 as [E3 U3]. split; [exact U3|]. split; [by rewrite E3|exact Ho].
Qed.
End Store.

(** ** The sink of delivered alerts under any faults

    [FileCriticalAlertSink] keeps the journal of the alerts it delivered in one
    file; a delivery records one alert, as [recordAlerts] does. *)

Definition REDELIVERED : string := "Delivered critical alert ID was reused with different content: ".

Lemma isSegment_lock name : isSegment name = true -> isSegment (name ⧺ ".lock") = true.
Proof.
  intros H. pose proof (isSegment_noSlash _ H) as Hn. unfold isSegment, noSlash in *. rewrite Numerals.allChars_append, Hn.
  assert (Hl : forall short, (String.length short < 5)%nat -> name ⧺ ".lock" <> short).
  { intros short Hs E. apply (f_equal String.length) in E. rewrite Numerals.length_append in E. cbn in E. lia. }
  rewrite !bool_decide_false by (apply Hl; cbn; lia). done.
Qed.

Section Sink.
Context (segments : list string) (Hsegments : Segments segments) (os : Os.OperatingSystem).
Context (sha256 : string -> string) (numberText : Z -> Z -> string) (manifest : string).
Context (Hhonest : HonestFaults os) (Hsha : Digests sha256).
Context (name : string) (Hname : isSegment name = true).
#[local] Abbreviation Shows := (ShowsJournal segments sha256 manifest name MAX_DELIVERED_ALERT_BYTES).

(** The sink of that file. *)
Definition sinkIn : Sink.FileCriticalAlertSink := Sink.mk (inside segments name) manifest.

Lemma sink_load_cases journal d o d' :
  Shows d.(Dsk.files) journal -> Sink.load os sha256 numberText sinkIn d = (o, d') ->
  d'.(Dsk.files) = d.(Dsk.files) /\ match o with Returns loaded => loaded = journal | Throws _ => True end.
Proof.
  intros [Hj Hs] H. unfold Sink.load in H. cbn [Sink.path sinkIn] in H.
  apply task_bind_cases in H as [(encoded & d1 & E & H)|(e & -> & E)]; apply read_cases in E as [Ef E]; try done.
  destruct Hs as [[-> Hnone]|(mode & Hfile & _ & _ & [dir Hd])].
  - destruct encoded as [text|]; [destruct E; congruence|]. by injection H as <- <-.
  - destruct encoded as [text|]; [|destruct E; congruence]. destruct E as [mode' E]. rewrite Hfile in E. injection E as <- <-.
    apply evaluate_inv in H as [H ->]. unfold sinkIn in H. rewrite parse_delivered in H by done. by subst o.
Qed.

Definition DeliverOutcome (alert : Alert.CriticalAlert) (journal : list Alert.CriticalAlert) (d : Dsk.Disk)
    (o : Outcome unit) (d' : Dsk.Disk) : Prop :=
  OnFiles (Untouched segments (Locked os name)) d d'
  /\ match o with
     | Returns _ => Persistable alert
         /\ exists recorded, recordAlerts REDELIVERED [alert] journal = Returns recorded /\ Shows d'.(Dsk.files) recorded
     | Throws _ => Shows d'.(Dsk.files) journal
     end.

Lemma deliver_written alert journal recorded text d o d' :
  Shows d.(Dsk.files) journal -> Persistable alert -> recordAlerts REDELIVERED [alert] journal = Returns recorded ->
  text = journalText sha256 manifest recorded -> utf8Length text <= MAX_DELIVERED_ALERT_BYTES ->
  writeFileAtomically os (inside segments name) text d = (o, d') -> DeliverOutcome alert journal d o d'.
Proof.
  intros Hs Hp Hr -> Hl H. apply write_cases in H as [[HU HL] Hd]; [|done..]. split.
  { eapply untouched_weaken; [|exact HU]. by left. }
  pose proof Hs as [Hj _]. destruct (recordAlerts_extends _ [alert] _ _ Hj ltac:(by constructor; [|constructor]) Hr) as [Hrec _].
  destruct o as [u|e].
  - split; [done|]. exists recorded. split; [done|]. split; [done|]. right. exists (createdMode os).
    split; [exact HL|]. split; [apply createdMode_private|]. split; [done|]. apply Hd. by exists u.
  - eapply showsJournal_same; [|exact Hs]. split; [exact HL|apply HU].
Qed.

(** What [deliver] does under the lock of the file. *)
Lemma deliver_locked alert journal d o d' :
  Shows d.(Dsk.files) journal -> Persistable alert ->
  (existing ← Sink.load os sha256 numberText sinkIn;
   match arrayFind (fun entry => bool_decide (entry.(Alert.id) = alert.(Alert.id))) existing with
   | Some prior =>
       unlessThrow (equivalentCriticalAlert prior alert)
         (TypeError ("Delivered critical alert ID was reused with different content: " ⧺ alert.(Alert.id)))
   | None =>
       encodedExisting ← evaluate (mapM (encodeCriticalAlert numberText) existing);
       let encoded := encodedExisting ++ [alertText alert] in
       let payload := stringify (jsonStrings encoded) in
       let output := jsonLine (alertEnvelope manifest (sha256 payload) encoded) in
       unlessThrow (bool_decide (utf8Length output <= MAX_DELIVERED_ALERT_BYTES))
         (RangeError "Delivered critical-alert file exceeds its durable file limit") ;;
       writeFileAtomically os (inside segments name) output
   end) d = (o, d') ->
  DeliverOutcome alert journal d o d'.
Proof.
  intros Hs Hp H. pose proof Hs as [Hj _].
  assert (Hquiet : forall e d1, d1.(Dsk.files) = d.(Dsk.files) -> DeliverOutcome alert journal d (Throws e) d1).
  { intros e d1 E. split; [unfold OnFiles; rewrite E; reflexivity|by rewrite E]. }
  apply task_bind_cases in H as [(existing & d1 & E & H)|(e & -> & E)]; apply (sink_load_cases journal) in E as [Ef E]; try done;
    [|by apply Hquiet]. subst existing.
  destruct (arrayFind _ journal) as [prior|] eqn:Efind.
  - apply unlessThrow_inv in H as [-> Heq]. destruct o as [u|e]; [|by apply Hquiet].
    specialize (Heq ltac:(by exists u)). split; [unfold OnFiles; rewrite Ef; reflexivity|]. split; [done|].
    exists journal. cbn [recordAlerts]. rewrite Efind, Heq, Ef. done.
  - apply task_bind_cases in H as [(texts & d2 & E & H)|(e & -> & E)]; apply evaluate_inv in E as [E ->]; [|by apply Hquiet].
    rewrite encode_journal in E by done. injection E as <-. cbv zeta in H.
    apply task_bind_cases in H as [(u & d3 & E & H)|(e & -> & E)]; apply unlessThrow_inv in E as [-> Hl]; [|by apply Hquiet].
    specialize (Hl ltac:(by exists u)). apply bool_decide_eq_true in Hl.
    assert (Hd : DeliverOutcome alert journal d1 o d').
    { eapply (deliver_written alert journal (journal ++ [alert])); [by rewrite Ef|done| | |exact Hl|exact H].
      - cbn [recordAlerts]. by rewrite Efind.
      - unfold journalText. by rewrite map_app. }
    destruct Hd as [HU Hd]. split; [|done]. unfold OnFiles in *. by rewrite Ef in HU.
Qed.

(** Whatever fails: the file shows the alert delivered, once, or what it showed. *)
Lemma deliver_cases alert journal d o d' :
  IndexesSafe [alert] -> Shows d.(Dsk.files) journal -> Sink.deliver os sha256 numberText sinkIn alert d = (o, d') ->
  DeliverOutcome alert journal d o d'.
Proof.
  intros Hsafe Hs H. unfold Sink.deliver in H. cbn [Sink.path Sink.manifestSha256 sinkIn] in H.
  apply task_bind_cases in H as [(next & d1 & E & H)|(e & -> & E)]; apply evaluate_inv in E as [E ->];
    [|split; [reflexivity|done]].
  assert (Hsafe' : forall cursor, alert.(Alert.cursor) = Some cursor -> isSafeInteger cursor.(Cursor.eventIndex) = true) by by inversion Hsafe.
  apply encodeCriticalAlert_returns in E as [Hp ->]; [|done]. rewrite inside_suffix in H.
  set (L := fun other => other = name ⧺ ".lock") in *.
  assert (Hlift : forall s d', Untouched segments L (diskOf s).(Dsk.files) d'.(Dsk.files) -> OnFiles (Untouched segments L) s (setDisk d' s)) by done.
  apply (lock_cases segments os Hsegments (OnFiles (Untouched segments L)) L Hlift (name ⧺ ".lock") (isSegment_lock _ Hname) eq_refl) in H.
  assert (Hsame : forall d1 d2, OnFiles (Untouched segments L) d1 d2 -> SameAt segments name d1.(Dsk.files) d2.(Dsk.files)).
  { intros d1 d2 HU. eapply untouched_same; [exact HU|by apply isSegment_nonempty|apply name_not_lock]. }
  assert (Hweak : forall d1 d2, OnFiles (Untouched segments L) d1 d2 -> OnFiles (Untouched segments (Locked os name)) d1 d2).
  { intros d1 d2. apply untouched_weaken. intros other ->. by right. }
  destruct H as [(e & -> & H)|(d1 & d2 & H1 & _ & _ & H2 & H3)].
  - split; [by apply Hweak|]. eapply showsJournal_same; [by apply Hsame|done].
  - apply (deliver_locked alert journal) in H2 as [HU Ho]; [|eapply showsJournal_same; [by apply Hsame|done]|done].
    split; [etransitivity; [by apply Hweak|etransitivity; [exact HU|by apply Hweak]]|]. apply Hsame in H3.
    destruct o as [u|e]; [|by eapply showsJournal_same]. destruct Ho as (_ & recorded & Hr & Hshow). split; [done|].
    exists recorded. split; [done|]. by eapply showsJournal_same.
Qed.
End Sink.
