(* ===== verification/DurableHistory.v ===== *)
(** * Histories of the durable store

    Processes come and go over one directory: each makes a store object, runs a
    program of its operations under its own faults, and leaves the files it
    leaves.  What the files show only advances. *)
From stdpp Require Import gmap.
From S2P Require Import Prelude JsMap Types MoveDomains JsValue Json Snapshot SnapshotDecode AlertCodec Store SnapshotRoundTrip.
From S2P Require Import AlertCodecSpec Disk FileStore DiskSpec FileStoreSpec.

(** ** The order of snapshots *)

Lemma compareSnapshotCursor_trans a b c :
  0 <= compareSnapshotCursor b a -> 0 <= compareSnapshotCursor c b ->
  0 <= compareSnapshotCursor c a
  /\ (compareSnapshotCursor c a = 0 -> compareSnapshotCursor b a = 0 /\ compareSnapshotCursor c b = 0).
Proof.
  unfold compareSnapshotCursor. destruct a as [[]|], b as [[]|], c as [[]|]; cbn; try lia.
  repeat case_bool_decide; lia.
Qed.

Section Advance.
Context (sha256 : string -> string) (numberText : Z -> Z -> string).

(** A later cursor, or the same state at the same cursor. *)
Definition Precedes (a b : Snap.IndexerSnapshot) : Prop :=
  0 <= compareSnapshotCursor b.(Snap.cursor) a.(Snap.cursor)
  /\ (compareSnapshotCursor b.(Snap.cursor) a.(Snap.cursor) = 0 ->
      snapshotStateDigest sha256 numberText a = snapshotStateDigest sha256 numberText b).

Definition Advances (latest latest' : option Snap.IndexerSnapshot) : Prop :=
  match latest, latest' with
  | None, _ => True
  | Some a, Some b => Precedes a b
  | Some _, None => False
  end.

Lemma compareSnapshotCursor_refl a : compareSnapshotCursor a a = 0.
Proof. destruct a as [[]|]; cbn; [|done]. rewrite bool_decide_false by tauto. lia. Qed.

#[export] Instance advances_preorder : PreOrder Advances.
Proof.
  split.
  - intros [a|]; [|exact I]. split; [by rewrite compareSnapshotCursor_refl|reflexivity].
  - intros [a|] y z; [|intros _ _; exact I]. destruct y as [b|]; [|intros []]. destruct z as [c|]; [|intros _ []].
    intros [H1 D1] [H2 D2].
    destruct (compareSnapshotCursor_trans _ _ _ H1 H2) as [H3 Hzero]. split; [exact H3|].
    intros E. destruct (Hzero E) as [E1 E2]. by rewrite (D1 E1), (D2 E2).
Qed.

Lemma follows_advances latest saved : Follows sha256 numberText latest saved -> Advances latest (Some saved).
Proof.
  destruct latest as [existing|]; [|intros _; exact I]. unfold Follows, assertMonotonicSnapshot. cbv zeta.
  case_bool_decide as Hlt; [discriminate|]. case_bool_decide as Heq; intros H; split; try lia; intros E; try lia.
  apply outcome_bind_inv in H as (x & -> & H). apply outcome_bind_inv in H as (y & -> & H).
  case_bool_decide as Hxy; [by rewrite Hxy|discriminate].
Qed.
End Advance.

(** ** Programs *)

Section Program.
Context (os : Os.OperatingSystem) (sha256 : string -> string) (numberText : Z -> Z -> string).

(** What a process can make of the operations of the class. *)
Inductive Program : forall {T : Type}, Task Fs.FileIndexerStore T -> Prop :=
| program_value {T} (o : Outcome T) : Program (evaluate o)
| program_bind {T U} (m : Task Fs.FileIndexerStore T) (k : T -> Task Fs.FileIndexerStore U) :
    Program m -> (forall a, Program (k a)) -> Program (m ≫= k)
| program_try {T} (m : Task Fs.FileIndexerStore T) (h : JsError -> Task Fs.FileIndexerStore T) :
    Program m -> (forall e, Program (h e)) -> Program (tryCatch m h)
| program_load : Program (Durable.loadLatestSnapshot os sha256 numberText)
| program_list : Program (Durable.listAlerts os sha256 numberText)
| program_save snapshot lease base : Program (Durable.saveSnapshot os sha256 numberText snapshot lease base)
| program_append alerts lease : IndexesSafe alerts -> Program (Durable.appendAlerts os sha256 numberText alerts lease)
| program_writer {T} (operation : Lease -> Task Fs.FileIndexerStore T) :
    (forall lease, Program (operation lease)) -> Program (Durable.withExclusiveWriter os operation).
End Program.

(** ** What a program makes of the files *)

Section Evolution.
Context (segments : list string) (Hsegments : Segments segments).
Context (sha256 : string -> string) (numberText : Z -> Z -> string) (manifest : string) (Hsha : Digests sha256).

(** Both files of the store. *)
Definition Shows (files : Files) (latest : option Snap.IndexerSnapshot) (journal : list Alert.CriticalAlert) : Prop :=
  ShowsSnapshot segments sha256 numberText manifest files latest
  /\ ShowsJournal segments sha256 manifest ALERTS_NAME MAX_ALERT_BYTES files journal.

(** What the files show advances: the snapshot in the order, the journal by alerts at its end. *)
Definition FilesEvolve (files files' : Files) : Prop :=
  forall latest journal, Shows files latest journal ->
    exists latest' journal', Shows files' latest' journal' /\ Advances sha256 numberText latest latest'
      /\ journal `prefix_of` journal'.

Definition Evolves (s s' : Fs.FileIndexerStore) : Prop :=
  StoreIn segments manifest s -> forall latest journal, Shows (storeFiles s) latest journal ->
    StoreIn segments manifest s'
    /\ exists latest' journal', Shows (storeFiles s') latest' journal' /\ Advances sha256 numberText latest latest'
         /\ journal `prefix_of` journal'.

#[export] Instance filesEvolve_preorder : PreOrder FilesEvolve.
Proof.
  split.
  - intros files latest journal H. exists latest, journal. split; [exact H|]. split; reflexivity.
  - intros f1 f2 f3 H1 H2 latest journal H. destruct (H1 _ _ H) as (l2 & j2 & S2 & A2 & P2).
    destruct (H2 _ _ S2) as (l3 & j3 & S3 & A3 & P3). exists l3, j3. split; [exact S3|]. split; by etransitivity.
Qed.

#[export] Instance evolves_preorder : PreOrder Evolves.
Proof.
  split.
  - intros s Hin latest journal H. split; [exact Hin|]. exists latest, journal. split; [exact H|]. split; reflexivity.
  - intros s1 s2 s3 H1 H2 Hin latest journal H. destruct (H1 Hin _ _ H) as (I2 & l2 & j2 & S2 & A2 & P2).
    destruct (H2 I2 _ _ S2) as (I3 & l3 & j3 & S3 & A3 & P3). split; [exact I3|]. exists l3, j3. split; [exact S3|].
    split; by etransitivity.
Qed.

Lemma same_evolves files files' :
  SameAt segments SNAPSHOT_NAME files files' -> SameAt segments ALERTS_NAME files files' -> FilesEvolve files files'.
Proof.
  intros H1 H2 latest journal [Hs Hj]. exists latest, journal. split; [|by split; reflexivity].
  split; [by eapply showsSnapshot_same|by eapply showsJournal_same].
Qed.

(** Neither file is among the names. *)
Lemma sameStore_evolves (P : string -> Prop) s s' :
  ~ P SNAPSHOT_NAME -> ~ P ALERTS_NAME -> SameStore segments P s s' -> Evolves s s'.
Proof.
  intros H1 H2 H Hin latest journal Hs. split; [by eapply sameStore_in|]. destruct H as [_ H].
  revert latest journal Hs. apply same_evolves; by eapply untouched_same.
Qed.

(** Only the fields of the object change. *)
Lemma fields_evolve s s' :
  s'.(Fs.disk) = s.(Fs.disk) -> s'.(Fs.snapshotPath) = s.(Fs.snapshotPath) -> s'.(Fs.alertsPath) = s.(Fs.alertsPath) ->
  s'.(Fs.writerLeasePath) = s.(Fs.writerLeasePath) -> s'.(Fs.manifestSha256) = s.(Fs.manifestSha256) -> Evolves s s'.
Proof.
  intros Hd Hp Ha Hw Hm Hin latest journal Hs. unfold StoreIn, storeFiles. rewrite Hd, Hp, Ha, Hw, Hm.
  split; [exact Hin|]. exists latest, journal. split; [exact Hs|]. split; reflexivity.
Qed.

Context (os : Os.OperatingSystem) (Hhonest : HonestFaults os).

Lemma alerts_not_locked : ~ Locked os SNAPSHOT_NAME ALERTS_NAME.
Proof. intros [[E|[call E]]|E]; discriminate E. Qed.

Lemma snapshot_not_locked : ~ Locked os ALERTS_NAME SNAPSHOT_NAME.
Proof. intros [[E|[call E]]|E]; discriminate E. Qed.

Lemma save_evolves snapshot lease base : Frames Evolves (Durable.saveSnapshot os sha256 numberText snapshot lease base).
Proof.
  intros s Hin latest journal [Hs Hj].
  destruct (Durable.saveSnapshot os sha256 numberText snapshot lease base s) as [o s'] eqn:E. cbn [snd].
  destruct (save_cases segments Hsegments os sha256 numberText manifest Hhonest Hsha
              snapshot lease base latest s o s' Hin Hs E) as [Hsame Ho].
  split; [by eapply sameStore_in|].
  assert (Hj' : ShowsJournal segments sha256 manifest ALERTS_NAME MAX_ALERT_BYTES (storeFiles s') journal).
  { eapply showsJournal_same; [|exact Hj]. eapply untouched_same; [apply Hsame|done|apply alerts_not_locked]. }
  destruct o as [u|e].
  - destruct Ho as (saved & _ & _ & _ & Hf & Hshow). exists (Some saved), journal. split; [by split|].
    split; [by apply follows_advances|reflexivity].
  - exists latest, journal. split; [by split|]. split; reflexivity.
Qed.

Lemma append_evolves alerts lease :
  IndexesSafe alerts -> Frames Evolves (Durable.appendAlerts os sha256 numberText alerts lease).
Proof.
  intros Hsafe s Hin latest journal [Hs Hj].
  destruct (Durable.appendAlerts os sha256 numberText alerts lease s) as [o s'] eqn:E. cbn [snd].
  destruct (append_cases segments Hsegments os sha256 numberText manifest Hhonest Hsha
              alerts lease journal s o s' Hin Hsafe Hj E) as [Hsame Ho].
  split; [by eapply sameStore_in|].
  assert (Hs' : ShowsSnapshot segments sha256 numberText manifest (storeFiles s') latest).
  { eapply showsSnapshot_same; [|exact Hs]. eapply untouched_same; [apply Hsame|done|apply snapshot_not_locked]. }
  exists latest. destruct o as [u|e].
  - destruct Ho as (_ & Hp & recorded & Hr & Hshow). exists recorded. split; [by split|]. split; [reflexivity|].
    destruct (recordAlerts_extends _ _ _ _ (proj1 Hj) Hp Hr) as (_ & fresh & -> & _). by exists fresh.
  - exists journal. split; [by split|]. split; reflexivity.
Qed.

Lemma load_evolves : Frames Evolves (Durable.loadLatestSnapshot os sha256 numberText).
Proof.
  intros s Hin latest journal [Hs Hj]. destruct (Durable.loadLatestSnapshot os sha256 numberText s) as [o s'] eqn:E. cbn [snd].
  apply (load_cases segments Hsegments os sha256 numberText manifest Hhonest Hsha latest) in E as [Hsame _]; [|done..].
  apply sameStore_evolves in Hsame; [|by intros []..]. by apply Hsame.
Qed.

Lemma list_evolves : Frames Evolves (Durable.listAlerts os sha256 numberText).
Proof.
  intros s Hin latest journal [Hs Hj]. destruct (Durable.listAlerts os sha256 numberText s) as [o s'] eqn:E. cbn [snd].
  apply (listAlerts_cases segments Hsegments os sha256 numberText manifest Hhonest Hsha journal) in E as [Hsame _]; [|done..].
  apply sameStore_evolves in Hsame; [|by intros []..]. by apply Hsame.
Qed.
(** What [withExclusiveWriter] runs under the lock. *)
Lemma bracket_evolves {T} (operation : Lease -> Task Fs.FileIndexerStore T) :
  (forall lease, Frames Evolves (operation lease)) ->
  Frames Evolves
    (lease ← Durable.issueLease;
     modifyState (fun s => s <| Fs.activeLease := Some lease |> <| Fs.leaseMutationFailures := [] |>) ;;
     callback ← (fun s => let '(result, s') := operation lease s in (Returns result, s'));
     modifyState (fun s => s <| Fs.activeLease := None |>) ;;
     s ← getState;
     modifyState (fun s => s <| Fs.leaseMutationFailures := [] |>) ;;
     evaluate callback ≫= fun result =>
     match s.(Fs.leaseMutationFailures) with
     | mutationFailure :: _ => throwing mutationFailure
     | [] => mret result
     end).
Proof.
  intros Hop.
  apply bind_frames; [apply _|intros s; by apply fields_evolve|intros lease].
  apply bind_frames; [apply _|intros s; by apply fields_evolve|intros _].
  apply bind_frames; [apply _|intros s; specialize (Hop lease s); by destruct (operation lease s)|intros callback].
  apply bind_frames; [apply _|intros s; by apply fields_evolve|intros _].
  apply bind_frames; [apply _|by apply frames_getState; apply _|intros s0].
  apply bind_frames; [apply _|intros s; by apply fields_evolve|intros _]. frames.
Qed.

Lemma writer_evolves {T} (operation : Lease -> Task Fs.FileIndexerStore T) :
  (forall lease, Frames Evolves (operation lease)) -> Frames Evolves (Durable.withExclusiveWriter os operation).
Proof.
  intros Hop s Hin. pose proof (bracket_evolves _ Hop) as Hbody.
  destruct (Durable.withExclusiveWriter os operation s) as [o s'] eqn:E. cbn [snd].
  unfold Durable.withExclusiveWriter, getState in E. unfold mbind at 1, task_bind at 1 in E. cbv beta iota in E.
  destruct Hin as (Hp & Ha & Hw & Hm). assert (Hin : StoreIn segments manifest s) by by repeat split. rewrite Hw in E.
  set (L := fun other => other = WRITER_LOCK_NAME).
  apply (lock_cases segments os Hsegments (SameStore segments L) L (sameStore_setDisk segments L) WRITER_LOCK_NAME eq_refl eq_refl) in E.
  assert (Hlock : forall s1 s2, SameStore segments L s1 s2 -> Evolves s1 s2) by by intros s1 s2; apply sameStore_evolves.
  assert (Hall : Evolves s s'); [|by apply Hall].
  destruct E as [(e & _ & H)|(s1 & s2 & H1 & _ & _ & H2 & H3)]; [by apply Hlock|].
  etransitivity; [by apply Hlock|]. etransitivity; [|by apply Hlock]. by apply (frames_at _ _ _ _ _ Hbody) in H2.
Qed.

Lemma program_evolves {T} (m : Task Fs.FileIndexerStore T) :
  Program os sha256 numberText m -> Frames Evolves m.
Proof.
  induction 1; [by apply frames_evaluate; apply _|by apply bind_frames; [apply _|..]|by apply frames_tryCatch; [apply _|..]
    |apply load_evolves|apply list_evolves|apply save_evolves|by apply append_evolves|by apply writer_evolves].
Qed.

Lemma newFileIndexerStore_in dir manifestSha256 d s :
  resolve os dir = render segments -> Durable.newFileIndexerStore os dir manifestSha256 d = Returns s ->
  s.(Fs.disk) = d /\ s.(Fs.manifestSha256) = manifestSha256 /\ StoreIn segments manifestSha256 s /\ isSha256Digest manifestSha256 = true.
Proof.
  intros Hroot. unfold Durable.newFileIndexerStore, assertSha256Digest. cbv zeta. rewrite Hroot.
  destruct (isSha256Digest manifestSha256); [|done]. cbn [mbind outcome_bind]. intros [= <-]. split; [done|].
  split; [done|]. split; [|done]. unfold StoreIn. cbn [Fs.snapshotPath Fs.alertsPath Fs.writerLeasePath Fs.manifestSha256].
  unfold resolve. by rewrite !resolve_child.
Qed.
End Evolution.

(** ** Histories *)

Section History.
Context (segments : list string) (Hsegments : Segments segments).
Context (sha256 : string -> string) (numberText : Z -> Z -> string) (manifest : string) (Hsha : Digests sha256).

(** Lives of processes over one disk, and whatever else happens to other files. *)
Inductive StoreHistory : Dsk.Disk -> Dsk.Disk -> Prop :=
| store_now d : StoreHistory d d
| store_process (os : Os.OperatingSystem) dir {T} (program : Task Fs.FileIndexerStore T) d s o s' d' :
    HonestFaults os -> resolve os dir = render segments -> Program os sha256 numberText program ->
    Durable.newFileIndexerStore os dir manifest d = Returns s -> program s = (o, s') ->
    StoreHistory s'.(Fs.disk) d' -> StoreHistory d d'
| store_others d d1 d' :
    SameAt segments SNAPSHOT_NAME d.(Dsk.files) d1.(Dsk.files) -> SameAt segments ALERTS_NAME d.(Dsk.files) d1.(Dsk.files) ->
    StoreHistory d1 d' -> StoreHistory d d'.

Lemma storeHistory_evolves d d' :
  StoreHistory d d' -> FilesEvolve segments sha256 numberText manifest d.(Dsk.files) d'.(Dsk.files).
Proof.
  induction 1 as [d|os dir T program d s o s' d' Hhonest Hroot Hprog Hnew Hrun _ IH|d d1 d' H1 H2 _ IH].
  - reflexivity.
  - intros latest journal Hs. apply (newFileIndexerStore_in segments) in Hnew as (Hd & _ & Hin & _); [|done..].
    pose proof (program_evolves segments Hsegments sha256 numberText manifest Hsha os Hhonest program Hprog s) as Hev.
    rewrite Hrun in Hev. cbn [snd] in Hev. destruct (Hev Hin latest journal) as (_ & l2 & j2 & S2 & A2 & P2).
    { unfold storeFiles. by rewrite Hd. }
    destruct (IH _ _ S2) as (l3 & j3 & S3 & A3 & P3). exists l3, j3. split; [exact S3|]. split; by etransitivity.
  - etransitivity; [by apply same_evolves|done].
Qed.
End History.
