(* ===== verification/DurableProgress.v ===== *)
(** * The durable store on a system without faults

    When no system call fails, the directory can be made and the names an
    operation needs are free, the operations return. *)
From stdpp Require Import gmap.
From S2P Require Import Prelude JsMap Types MoveDomains JsValue Json Snapshot SnapshotDecode AlertCodec Store SnapshotRoundTrip.
From S2P Require Import JsonRoundTrip AlertCodecSpec Disk FileStore DiskSpec Numerals CursorRoundTrip FileStoreSpec DurableHistory.

Section Progress.
Context (segments : list string) (Hsegments : Segments segments) (os : Os.OperatingSystem).
#[local] Abbreviation inside := (inside segments).
#[local] Abbreviation directory := (directory segments).

(** No call fails, and no component of the directory is a symbolic link. *)
Definition FaultFree : Prop :=
  (forall call, os.(Os.fault) call = None)
  /\ (os.(Os.win32) = true \/ forall files, os.(Os.realpath) files directory = directory).

Context (Hos : FaultFree).

Definition Walkable (entry : Entry) : bool := isDirectory entry || isSymbolicLink entry.

(** The directory is there, and private. *)
Definition Present (files : Files) : Prop :=
  (forall above, above `prefix_of` segments -> above <> [] -> exists entry, files !! render above = Some entry /\ Walkable entry = true)
  /\ exists mode, files !! directory = Some (Folder mode) /\ Z.land mode 63 = 0.

(** The directory is there, or can be made. *)
Definition Creatable (files : Files) : Prop :=
  (forall above entry, above `prefix_of` segments -> above <> [] -> files !! render above = Some entry -> Walkable entry = true)
  /\ ((files !! directory = None /\ segments <> []) \/ exists mode, files !! directory = Some (Folder mode) /\ Z.land mode 63 = 0).

Lemma present_creatable files : Present files -> Creatable files.
Proof.
  intros [Hw Hd]. split; [|by right]. intros above entry Ha Hn E. destruct (Hw above Ha Hn) as (entry' & E' & H). by simplify_eq.
Qed.

Lemma present_keeps files files' : KeepsWay segments files files' -> Present files -> Present files'.
Proof.
  intros W [Hw (mode & Hd & Hm)]. split.
  - intros above Ha Hn. destruct (Hw above Ha Hn) as (entry & E & He). destruct (W above entry Ha E) as (m & E' & _).
    exists (withMode m entry). split; [done|]. by destruct entry.
  - destruct (W segments (Folder mode)) as (m & E & Hp); [done|exact Hd|]. exists m. split; [exact E|]. by apply Hp.
Qed.

(** ** The calls *)

Lemma systemCall_run {A} (effect : Files -> Outcome A * Files) d :
  systemCall os effect d = let '(o, files) := effect d.(Dsk.files) in (o, Dsk.mk files (S d.(Dsk.calls))).
Proof. unfold systemCall. rewrite (proj1 Hos). by destruct (effect (Dsk.files d)). Qed.

Lemma looks_run {A} (answer : Files -> Outcome A) d :
  looks os answer d = (answer d.(Dsk.files), Dsk.mk d.(Dsk.files) (S d.(Dsk.calls))).
Proof. unfold looks. by rewrite systemCall_run. Qed.

Lemma present_run call path entry d :
  d.(Dsk.files) !! path = Some entry ->
  looks os (present call path) d = (Returns entry, Dsk.mk d.(Dsk.files) (S d.(Dsk.calls))).
Proof. intros E. rewrite looks_run. unfold present. by rewrite E. Qed.

Lemma newFolder_private : Z.land (Z.ldiff 448 os.(Os.umask)) 63 = 0.
Proof.
  apply Z.bits_inj'. intros n Hn. rewrite Z.land_spec, Z.ldiff_spec, Z.bits_0.
  assert (E : Z.testbit (Z.land 448 63) n = false) by (change (Z.land 448 63) with 0; apply Z.bits_0).
  rewrite Z.land_spec in E. destruct (Z.testbit 448 n), (Z.testbit 63 n), (Z.testbit (Os.umask os) n); done.
Qed.

Lemma prefix_snoc (a above : list string) s : a `prefix_of` above ++ [s] -> a `prefix_of` above \/ a = above ++ [s].
Proof.
  intros [k E]. destruct k as [|x k _] using rev_ind; [right; by rewrite app_nil_r in E|]. left.
  rewrite app_assoc in E. apply app_inj_tail in E as [-> _]. by exists k.
Qed.

Lemma creatable_insert path mode files :
  Z.land mode 63 = 0 -> Creatable files -> Creatable (<[path := Folder mode]> files).
Proof.
  intros Hm [Hw Hd]. split.
  - intros above entry Ha Hn E. destruct (decide (path = render above)) as [->|Hne].
    + rewrite lookup_insert_eq in E. by injection E as <-.
    + rewrite lookup_insert_ne in E by done. by apply (Hw above).
  - destruct (decide (path = directory)) as [->|Hne]; [right; exists mode; by rewrite lookup_insert_eq|].
    rewrite lookup_insert_ne by done. exact Hd.
Qed.

Lemma makeDirectories_run mode above rest files :
  above ++ rest = segments -> Z.land mode 63 = 0 ->
  (forall a, a `prefix_of` above -> a <> [] -> exists entry, files !! render a = Some entry /\ Walkable entry = true) ->
  Creatable files -> (rest = [] -> is_Some (files !! directory)) ->
  exists files', makeDirectories mode above rest files = (Returns tt, files') /\ Present files'.
Proof.
  revert above files. induction rest as [|s rest IH]; intros above files E Hm Habove Hc Hdir; cbn [makeDirectories].
  - exists files. split; [done|]. rewrite app_nil_r in E. subst above. split; [done|].
    destruct Hc as [_ [[Hnone _]|Hd]]; [|done]. destruct (Hdir eq_refl) as [x Hx]. congruence.
  - assert (E' : (above ++ [s]) ++ rest = segments) by by rewrite <- app_assoc.
    assert (Hpre : (above ++ [s]) `prefix_of` segments) by (exists rest; done).
    assert (Hne : above ++ [s] <> []) by by destruct above.
    destruct (files !! render (above ++ [s])) as [entry|] eqn:El.
    + pose proof (proj1 Hc _ _ Hpre Hne El) as Hw.
      assert (Hgo : exists files', makeDirectories mode (above ++ [s]) rest files = (Returns tt, files') /\ Present files').
      { apply IH; [done|done| |done|].
        - intros a Ha Hn. apply prefix_snoc in Ha as [Ha| ->]; [by apply Habove|by exists entry].
        - intros ->. rewrite app_nil_r in E'. unfold DiskSpec.directory. rewrite <- E'. by exists entry. }
      destruct entry; cbn in Hw; try discriminate Hw; exact Hgo.
    + apply IH; [done|done| |by apply creatable_insert|].
      * intros a Ha Hn. apply prefix_snoc in Ha as [Ha| ->]; [|exists (Folder mode); by rewrite lookup_insert_eq].
        destruct (decide (render (above ++ [s]) = render a)) as [Eq|Hne'].
        -- exists (Folder mode). by rewrite Eq, lookup_insert_eq.
        -- rewrite lookup_insert_ne by done. by apply Habove.
      * intros ->. rewrite app_nil_r in E'. unfold DiskSpec.directory. rewrite <- E', lookup_insert_eq. by exists (Folder mode).
Qed.

(** ** [validateSecureDirectory] *)

Lemma mkdir_run d :
  Creatable d.(Dsk.files) -> (segments = [] -> is_Some (d.(Dsk.files) !! directory)) ->
  exists d', mkdir os directory 448 d = (Returns tt, d') /\ Present d'.(Dsk.files).
Proof.
  intros Hc Hroot. unfold mkdir. rewrite systemCall_run. unfold DiskSpec.directory at 1. rewrite segmentsOf_render by done.
  destruct (makeDirectories_run (Z.ldiff 448 os.(Os.umask)) [] segments d.(Dsk.files)) as (files' & -> & Hp);
    [done|apply newFolder_private| |done|done|by eexists].
  intros a Ha Hn. by apply prefix_nil_inv in Ha.
Qed.

Lemma realpath_run d : os.(Os.win32) = false -> exists d', realpath os directory d = (Returns directory, d') /\ d'.(Dsk.files) = d.(Dsk.files).
Proof.
  intros Hw. destruct (proj2 Hos) as [H|H]; [congruence|]. unfold realpath. rewrite looks_run, H. by eexists.
Qed.

Lemma chmod_run mode d :
  Z.land mode 63 = 0 -> Present d.(Dsk.files) ->
  exists d', chmod os directory mode d = (Returns tt, d') /\ Present d'.(Dsk.files).
Proof.
  intros Hm Hp. pose proof (keeps_chmod segments os (fun _ => False) mode Hm d) as [_ W].
  assert (E : exists d', chmod os directory mode d = (Returns tt, d')).
  { destruct Hp as [_ (m & Hd & _)]. unfold chmod. rewrite systemCall_run, Hd. by eexists. }
  destruct E as [d' E]. exists d'. split; [exact E|]. rewrite E in W. by eapply present_keeps.
Qed.

(** The look at the directory after it was made, for both uses. *)
Lemma validate_looks d mode (k : Task Dsk.Disk bool) :
  exists d1, d1.(Dsk.files) = d.(Dsk.files)
    /\ (unlessThrow (isDirectory (Folder mode) && negb (isSymbolicLink (Folder mode)))
           (TypeError ("Durable indexer path is not a real directory: " ⧺ directory)) ;;
         (if os.(Os.win32) then mret tt
          else real ← realpath os directory;
               unlessThrow (bool_decide (real = directory))
                 (TypeError ("Durable indexer directory contains a symbolic-link component: " ⧺ directory))) ;;
         k) d = k d1.
Proof.
  rewrite unlessThrow_true by done. destruct (os.(Os.win32)) eqn:Hw; [by exists d|].
  destruct (realpath_run d Hw) as (d1 & E & Hf). exists d1. split; [exact Hf|].
  unfold mbind at 1, task_bind at 1. rewrite (task_bind_eq _ _ _ _ _ E). unfold unlessThrow. by rewrite bool_decide_true.
Qed.

Lemma validate_create_run d :
  Creatable d.(Dsk.files) ->
  exists d', validateSecureDirectory os directory true d = (Returns true, d') /\ Present d'.(Dsk.files).
Proof.
  intros Hc. destruct (mkdir_run d Hc) as (d1 & E1 & Hp).
  { intros Hnil. destruct Hc as [_ [[_ Hne]|(mode & Hd & _)]]; [done|by exists (Folder mode)]. }
  unfold validateSecureDirectory. cbv zeta. rewrite !resolve_directory by done. rewrite (task_bind_eq _ _ _ _ _ E1).
  pose proof Hp as [_ (mode & Hd & Hm)].
  assert (E2 : lstat os directory d1 = (Returns (Folder mode), Dsk.mk d1.(Dsk.files) (S d1.(Dsk.calls)))) by by apply present_run.
  unfold mbind at 1, task_bind at 1, tryCatch. rewrite (task_bind_eq _ _ _ _ _ E2). cbn [mret task_ret].
  set (d2 := Dsk.mk d1.(Dsk.files) (S d1.(Dsk.calls))).
  edestruct (validate_looks d2 mode) as (d3 & Hf & ->).
  assert (Hp3 : Present d3.(Dsk.files)) by (rewrite Hf; exact Hp).
  destruct (os.(Os.win32)); [by exists d3|]. destruct (chmod_run 448 d3 eq_refl Hp3) as (d4 & E4 & Hp4).
  exists d4. by rewrite (task_bind_eq _ _ _ _ _ E4).
Qed.

(** A directory that may be missing. *)
Lemma validate_read_run d :
  Creatable d.(Dsk.files) -> exists b d', validateSecureDirectory os directory false d = (Returns b, d').
Proof.
  intros Hc. unfold validateSecureDirectory. cbv zeta. rewrite !resolve_directory by done.
  rewrite (task_bind_eq _ _ d tt d eq_refl).
  assert (Hdir : d.(Dsk.files) !! directory = None \/ exists mode, d.(Dsk.files) !! directory = Some (Folder mode) /\ Z.land mode 63 = 0)
    by (destruct Hc as [_ [[H _]|H]]; auto).
  destruct Hdir as [Hnone|(mode & Hd & Hm)].
  - assert (E : exists e, lstat os directory d = (Throws e, Dsk.mk d.(Dsk.files) (S d.(Dsk.calls))) /\ hasCode "ENOENT" e = true).
    { exists (systemError "ENOENT" "lstat" directory). unfold lstat. rewrite looks_run. unfold present. by rewrite Hnone. }
    destruct E as (e & E & Hcode). unfold mbind at 1, task_bind at 1, tryCatch.
    rewrite (task_bind_throws _ _ _ _ _ E), Hcode. cbn. by eexists _, _.
  - set (d1 := Dsk.mk d.(Dsk.files) (S d.(Dsk.calls))).
    assert (E : lstat os directory d = (Returns (Folder mode), d1)) by by apply present_run.
    unfold mbind at 1, task_bind at 1, tryCatch. rewrite (task_bind_eq _ _ _ _ _ E). cbn [mret task_ret].
    edestruct (validate_looks d1 mode) as (d3 & Hf & ->). destruct (os.(Os.win32)); [by eexists _, _|].
    rewrite unlessThrow_true by by apply bool_decide_eq_true. by eexists _, _.
Qed.
(** ** Reading, writing, locking *)

Lemma read_run name maximum d :
  isSegment name = true -> Creatable d.(Dsk.files) -> isSafeInteger maximum = true -> 0 < maximum ->
  (d.(Dsk.files) !! inside name = None
   \/ exists text mode, d.(Dsk.files) !! inside name = Some (RegularFile text mode) /\ Z.land mode 63 = 0
        /\ utf8Length text <= maximum) ->
  exists answer d', readFileSecurely os (inside name) maximum d = (Returns answer, d').
Proof.
  intros Hname Hc Hsafe Hpos Hfile. unfold readFileSecurely. rewrite dirname_inside by done.
  destruct (validate_read_run d Hc) as (b & d1 & E1).
  pose proof (frames_at _ _ _ _ _ (keeps_validate_files segments os) E1) as F1. unfold OnFiles in F1.
  rewrite (task_bind_eq _ _ _ _ _ E1). destruct b; cbn [negb]; [|by eexists _, _]. rewrite F1 in Hfile.
  destruct Hfile as [Hnone|(text & mode & Hfile & Hm & Hl)].
  - assert (E2 : exists e d2, (openRead os (inside name) ;; mret true) d1 = (Throws e, d2) /\ hasCode "ENOENT" e = true).
    { exists (systemError "ENOENT" "open" (inside name)). unfold openRead, mbind at 1, task_bind. rewrite looks_run. cbv beta. unfold present.
      rewrite Hnone. by eexists. }
    destruct E2 as (e & d2 & E2 & Hcode). unfold mbind at 1, task_bind at 1, tryCatch. rewrite E2, Hcode. cbn. by eexists _, _.
  - set (d2 := Dsk.mk d1.(Dsk.files) (S d1.(Dsk.calls))).
    assert (E2 : (openRead os (inside name) ;; mret true) d1 = (Returns true, d2)).
    { unfold openRead, mbind at 1, task_bind. rewrite looks_run. cbv beta. unfold present. by rewrite Hfile. }
    unfold mbind at 1, task_bind at 1, tryCatch. rewrite E2. cbn [negb].
    unfold finallyDo. erewrite task_bind_eq by by apply present_run. rewrite !unlessThrow_true.
    + unfold handleReadFile, handleClose, mbind, task_bind. rewrite looks_run. unfold d2. cbn [Dsk.files].
      rewrite Hfile. cbn. rewrite looks_run.
      by eexists _, _.
    + apply orb_true_iff. right. by apply bool_decide_eq_true.
    + rewrite Hsafe. cbn [andb entrySize]. by rewrite !bool_decide_true.
    + done.
Qed.

(** The name of the lock or of a temporary file is free. *)
Lemma openExclusive_run name mode d :
  d.(Dsk.files) !! inside name = None -> is_Some (d.(Dsk.files) !! dirname (inside name)) ->
  exists d', openExclusive os (inside name) mode d = (Returns tt, d').
Proof.
  intros Hnone [entry Hd]. unfold openExclusive. rewrite systemCall_run, Hnone, Hd. by eexists.
Qed.

Lemma handleWriteFile_run path value d : exists d', handleWriteFile os path value d = (Returns tt, d').
Proof. unfold handleWriteFile. rewrite (proj1 Hos). by eexists. Qed.

Lemma looks_ok d : exists d', looks os (fun _ => Returns tt) d = (Returns tt, d').
Proof. rewrite looks_run. by eexists. Qed.

Lemma orElse_run {A} (m : Task Dsk.Disk A) c d a d' : m d = (Returns a, d') -> orElse m c d = (Returns a, d').
Proof. unfold orElse, tryCatch. by intros ->. Qed.

Lemma write_run name value d :
  isSegment name = true -> Present d.(Dsk.files) ->
  (forall call, d.(Dsk.files) !! inside (temporaryOf os name call) = None /\ dirname (inside (temporaryOf os name call)) = directory) ->
  (forall mode, d.(Dsk.files) !! inside name <> Some (Folder mode)) ->
  exists d', writeFileAtomically os (inside name) value d = (Returns tt, d').
Proof.
  intros Hname Hp Htmp Hfolder. destruct (validate_create_run d (present_creatable _ Hp)) as (d1 & E1 & Hp1).
  pose proof (frames_at _ _ _ _ _ (keeps_validate segments os Hsegments (fun _ => False) true) E1) as [F1 _].
  unfold writeFileAtomically. cbv zeta. rewrite !dirname_inside by done. rewrite (task_bind_eq _ _ _ _ _ E1).
  rewrite (task_bind_eq getState _ d1 d1 d1 eq_refl). rewrite !temporaryName_inside. set (call := Dsk.calls d1).
  destruct (Htmp call) as [Hnone Hdirname].
  assert (H1 : d1.(Dsk.files) !! inside (temporaryOf os name call) = None).
  { rewrite F1; [done|apply temporary_nonempty|by intros []]. }
  destruct (openExclusive_run (temporaryOf os name call) 384 d1 H1) as (d2 & E2).
  { rewrite Hdirname. destruct Hp1 as [_ (mode & Hd & _)]. by exists (Folder mode). }
  rewrite (task_bind_eq _ _ _ _ _ E2). apply openExclusive_returns in E2 as [_ F2].
  destruct (handleWriteFile_run (inside (temporaryOf os name call)) value d2) as [d3 E3]. pose proof E3 as F3%handleWriteFile_returns.
  destruct (looks_ok d3) as [d4 E4]. pose proof E4 as [_ F4]%looks_returns.
  erewrite task_bind_eq by (apply orElse_run; erewrite task_bind_eq by exact E3; exact E4).
  destruct (looks_ok d4) as [d5 E5]. pose proof E5 as [_ F5]%looks_returns.
  erewrite task_bind_eq by (apply orElse_run; exact E5).
  rewrite F4, F3, F2, alter_insert_eq in F5. cbn [setContent] in F5.
  assert (E6 : exists d6, rename os (inside (temporaryOf os name call)) (inside name) d5 = (Returns tt, d6)).
  { unfold rename. rewrite systemCall_run, F5, lookup_insert_eq.
    rewrite lookup_insert_ne by (intros E%inside_inj; by apply (temporary_ne os name call)).
    assert (Hf1 : forall mode, d1.(Dsk.files) !! inside name <> Some (Folder mode)).
    { intros mode. rewrite F1; [apply Hfolder|by apply isSegment_nonempty|by intros []]. }
    destruct (d1.(Dsk.files) !! inside name) as [[]|] eqn:E; try (by eexists). by destruct (Hf1 mode). }
  destruct E6 as [d6 E6]. erewrite task_bind_eq by (apply orElse_run; exact E6).
  pose proof (attempt_returns (openDirectory os directory ;; finallyDo (handleSync os directory) (handleClose os directory)) d6) as E7.
  destruct (attempt _ d6) as [o d7]. cbn in E7. subst o. by eexists.
Qed.
Lemma onDisk_run {S A} `{HasDisk S} (m : Task Dsk.Disk A) (s : S) a d' :
  m (diskOf s) = (Returns a, d') -> onDisk m s = (Returns a, setDisk d' s).
Proof. unfold onDisk. by intros ->. Qed.

(** The lock is free: the operation runs, and its answer is that of the whole. *)
Lemma lock_run {S T} `{HasDisk S} name (operation : Task S T) (s : S) :
  isSegment name = true -> Creatable (diskOf s).(Dsk.files) -> (diskOf s).(Dsk.files) !! inside name = None ->
  exists d1 d2 d3, let s1 := setDisk d3 (setDisk d2 (setDisk d1 s)) in
    Present d3.(Dsk.files) /\ Untouched segments (fun other => other = name) (diskOf s).(Dsk.files) d3.(Dsk.files)
    /\ (withExclusiveFileLock os (inside name) operation s).1 = (operation s1).1.
Proof.
  intros Hname Hc Hnone. assert (Hne : name <> "") by by apply isSegment_nonempty.
  unfold withExclusiveFileLock. cbv zeta. rewrite resolve_inside, dirname_inside by done.
  destruct (validate_create_run _ Hc) as (d1 & E1 & Hp1).
  pose proof (frames_at _ _ _ _ _ (keeps_validate segments os Hsegments (fun other => other = name) true) E1) as F1.
  pose proof (validate_kept segments os Hsegments name Hname true _ _ _ E1) as Hk1. rewrite Hnone in Hk1.
  assert (E2 : exists d2, takeLock os (inside name) d1 = (Returns tt, d2)).
  { destruct (openExclusive_run name 384 d1 Hk1) as [d2 E2].
    - rewrite dirname_inside by done. destruct Hp1 as [_ (mode & Hd & _)]. by exists (Folder mode).
    - exists d2. unfold takeLock, tryCatch. by rewrite E2. }
  destruct E2 as [d2 E2]. pose proof E2 as F2. apply takeLock_inv in F2 as [_ F2].
  assert (U2 : Untouched segments (fun other => other = name) d1.(Dsk.files) d2.(Dsk.files)).
  { rewrite F2. apply (untouched_name segments _ name); [done..|]. intros path Hpath. by rewrite lookup_insert_ne. }
  destruct (handleWriteFile_run (inside name) (lockText os (Dsk.calls d2)) d2) as [d3 E3]. pose proof E3 as F3%handleWriteFile_returns.
  assert (U3 : Untouched segments (fun other => other = name) d2.(Dsk.files) d3.(Dsk.files)).
  { rewrite F3. apply (untouched_name segments _ name); [done..|]. intros path Hpath. by rewrite lookup_alter_ne. }
  destruct (looks_ok d3) as [d4 E4]. pose proof E4 as [_ F4]%looks_returns.
  assert (U : Untouched segments (fun other => other = name) (diskOf s).(Dsk.files) d4.(Dsk.files)).
  { rewrite F4. etransitivity; [exact F1|]. by etransitivity. }
  exists d1, d2, d4. cbv zeta. split; [|split; [exact U|]].
  - rewrite F4. eapply present_keeps; [apply U3|]. eapply present_keeps; [apply U2|done].
  - erewrite task_bind_eq by (apply onDisk_run; exact E1).
    erewrite task_bind_eq by (apply onDisk_run; rewrite diskOf_setDisk; exact E2).
    unfold finallyDo. erewrite task_bind_eq.
    2:{ apply onDisk_run. rewrite diskOf_setDisk. rewrite (task_bind_eq getState _ d2 d2 d2 eq_refl).
        erewrite task_bind_eq by exact E3. exact E4. }
    destruct (operation _) as [o s2]. pose proof (releaseLock_returns os (inside name) s2) as Hr.
    destruct (onDisk _ s2) as [or s3]. cbn in Hr. by subst or.
Qed.

(** The lock is held: the error names it. *)
Lemma lock_taken_error {S} `{HasDisk S} name (s : S) e s' :
  isSegment name = true -> Creatable (diskOf s).(Dsk.files) -> is_Some ((diskOf s).(Dsk.files) !! inside name) ->
  withExclusiveFileLock os (inside name) (mret tt : Task S unit) s = (Throws e, s') -> e = ConcurrentDurableWriterError (inside name).
Proof.
  intros Hname Hc [entry He] Hrun. unfold withExclusiveFileLock in Hrun. cbv zeta in Hrun.
  rewrite resolve_inside, dirname_inside in Hrun by done. destruct (validate_create_run _ Hc) as (d1 & E1 & _).
  pose proof (validate_kept segments os Hsegments name Hname true _ _ _ E1) as Hk1. rewrite He in Hk1.
  erewrite task_bind_eq in Hrun by (apply onDisk_run; exact E1).
  assert (E2 : exists d2, takeLock os (inside name) d1 = (Throws (ConcurrentDurableWriterError (inside name)), d2)).
  { unfold takeLock, tryCatch, openExclusive. rewrite systemCall_run, Hk1. by eexists. }
  destruct E2 as [d2 E2].
  erewrite task_bind_throws in Hrun by (unfold onDisk; rewrite diskOf_setDisk, E2; reflexivity).
  by injection Hrun as <- _.
Qed.

(** ** The store *)

Context (sha256 : string -> string) (numberText : Z -> Z -> string) (manifest : string) (Hsha : Digests sha256).
#[local] Abbreviation ShowsSnapshot := (ShowsSnapshot segments sha256 numberText manifest).

Lemma honest : HonestFaults os.
Proof. intros call e E. by rewrite (proj1 Hos) in E. Qed.

(** The names that saving a snapshot takes are free. *)
Definition Free (files : Files) : Prop :=
  files !! inside (SNAPSHOT_NAME ⧺ ".lock") = None
  /\ forall call, files !! inside (temporaryOf os SNAPSHOT_NAME call) = None
       /\ dirname (inside (temporaryOf os SNAPSHOT_NAME call)) = directory.

Lemma store_lock_run {T} name (operation : Task Fs.FileIndexerStore T) (s : Fs.FileIndexerStore) :
  isSegment name = true -> Creatable (storeFiles s) -> storeFiles s !! inside name = None ->
  exists d1 d2 d3, let s1 : Fs.FileIndexerStore := setDisk d3 (setDisk d2 (setDisk d1 s)) in
    Present d3.(Dsk.files) /\ Untouched segments (fun other => other = name) (storeFiles s) d3.(Dsk.files)
    /\ (withExclusiveFileLock os (inside name) operation s).1 = (operation s1).1.
Proof. exact (lock_run name operation s). Qed.

Lemma load_run latest s :
  StoreIn segments manifest s -> Creatable (storeFiles s) -> ShowsSnapshot (storeFiles s) latest ->
  exists s', Durable.loadLatestSnapshot os sha256 numberText s = (Returns latest, s') /\ SameStore segments (fun _ => False) s s'.
Proof.
  intros Hin Hc Hs. destruct (Durable.loadLatestSnapshot os sha256 numberText s) as [o s'] eqn:E.
  pose proof (load_cases segments Hsegments os sha256 numberText manifest honest Hsha latest s o s' Hin Hs E) as [Hsame Ho].
  exists s'. split; [|done]. destruct o as [loaded|e]; [by rewrite Ho|]. exfalso. clear Ho.
  pose proof Hin as (Hp & _ & _ & Hm). unfold Durable.loadLatestSnapshot in E. rewrite (task_bind_eq getState _ s s s eq_refl), Hp, Hm in E.
  assert (Hread : exists answer d', readFileSecurely os (inside SNAPSHOT_NAME) MAX_SNAPSHOT_BYTES (diskOf s) = (Returns answer, d')).
  { apply read_run; [done|done|done|done|]. destruct latest as [snapshot|]; [|by left]. right.
    destruct Hs as (payload & _ & mode & Hf & Hmode & Hl & _). by exists (snapshotText sha256 manifest payload), mode. }
  destruct Hread as (answer & d' & Hread). pose proof Hread as Hr. apply (onDisk_run (S := Fs.FileIndexerStore)) in Hr.
  rewrite (task_bind_eq _ _ _ _ _ Hr) in E. destruct answer as [text|]; [|discriminate E].
  apply (read_cases segments os Hsegments) in Hread as [_ [mode Hread]]; [|apply honest|done].
  destruct latest as [snapshot|].
  - destruct Hs as (payload & Hd & mode' & Hf & _). change (Dsk.files (diskOf s)) with (storeFiles s) in Hread.
    assert (text = snapshotText sha256 manifest payload) as -> by congruence. unfold snapshotText in E.
    rewrite parse_snapshotEnvelope in E by done. unfold mbind, task_bind, evaluate, outcome_bind in E. rewrite Hd in E. discriminate E.
  - change (storeFiles s !! inside SNAPSHOT_NAME = None) in Hs. change (Dsk.files (diskOf s)) with (storeFiles s) in Hread. congruence.
Qed.

Lemma assertActiveLease_run lease s : s.(Fs.activeLease) = Some lease -> Durable.assertActiveLease lease s = (Returns tt, s).
Proof. intros E. unfold Durable.assertActiveLease, getState, unlessThrow, mbind, task_bind. by rewrite bool_decide_true. Qed.
Lemma decodeSnapshot_id text snapshot :
  decodeSnapshot sha256 numberText text = Returns snapshot -> isSnapshotId snapshot.(Snap.id) = true.
Proof.
  unfold decodeSnapshot. intros (parsed & _ & H)%outcome_bind_inv. destruct (readSnapshot parsed) as [read|] eqn:E; [|discriminate].
  assert (Hid : isSnapshotId read.(Snap.id) = true).
  { unfold readSnapshot in E. do 5 apply bind_Some in E as (? & _ & E). destruct (_ && _ && _ && _ && _) eqn:Hall; [|discriminate].
    injection E as <-. by bools. }
  case_bool_decide; [by injection H as <-|discriminate].
Qed.

Lemma latest_base latest files :
  ShowsSnapshot files latest -> from_option isSnapshotId true (Snap.id <$> latest) = true.
Proof. destruct latest as [snapshot|]; [|done]. intros (payload & Hd & _). by apply decodeSnapshot_id in Hd. Qed.

Lemma follows_run latest saved s :
  Follows sha256 numberText latest saved ->
  evaluate (match latest with
            | Some existing => assertMonotonicSnapshot sha256 numberText existing saved
            | None => Returns tt
            end) s = (Returns tt, s : Fs.FileIndexerStore).
Proof. unfold Follows, evaluate. destruct latest; [by intros ->|done]. Qed.

Lemma write_store_run text s :
  Present (storeFiles s) ->
  (forall call, storeFiles s !! inside (temporaryOf os SNAPSHOT_NAME call) = None
     /\ dirname (inside (temporaryOf os SNAPSHOT_NAME call)) = directory) ->
  (forall mode, storeFiles s !! inside SNAPSHOT_NAME <> Some (Folder mode)) ->
  exists s', onDisk (writeFileAtomically os (inside SNAPSHOT_NAME) text) s = (Returns tt, s').
Proof.
  intros Hp Hfree Hfolder. destruct (write_run SNAPSHOT_NAME text s.(Fs.disk)) as [d' E];
    [done..|]. eexists. by apply onDisk_run.
Qed.

Lemma shows_no_folder latest files mode :
  ShowsSnapshot files latest -> files !! inside SNAPSHOT_NAME <> Some (Folder mode).
Proof.
  destruct latest as [snapshot|].
  - intros (payload & _ & m & -> & _). discriminate.
  - intros E. change (files !! inside SNAPSHOT_NAME = None) in E. by rewrite E.
Qed.

Lemma temporary_not_lock call : temporaryOf os SNAPSHOT_NAME call <> SNAPSHOT_NAME ⧺ ".lock".
Proof.
  unfold temporaryOf. intros E%append_inj. injection E as E. destruct (show_head os.(Os.pid)) as (c & r & Eh & Hc).
  rewrite Eh in E. injection E as -> _. destruct Hc; discriminate.
Qed.

(** The body of [saveSnapshotUnderLease] returns. *)
Lemma save_body_run latest saved lease base text s :
  StoreIn segments manifest s -> Present (storeFiles s) -> ShowsSnapshot (storeFiles s) latest ->
  (forall call, storeFiles s !! inside (temporaryOf os SNAPSHOT_NAME call) = None
       /\ dirname (inside (temporaryOf os SNAPSHOT_NAME call)) = directory) ->
  s.(Fs.activeLease) = Some lease -> Snap.id <$> latest = base -> Follows sha256 numberText latest saved ->
  ((Durable.assertActiveLease lease ;;
   existing ← Durable.loadLatestSnapshot os sha256 numberText;
   unlessThrow (bool_decide (Snap.id <$> existing = base))
     (StaleIndexerSnapshotError "durable base changed after this indexer restored its state") ;;
   evaluate (match existing with
             | Some existing => assertMonotonicSnapshot sha256 numberText existing saved
             | None => Returns tt
             end) ;;
   Durable.assertActiveLease lease ;;
   onDisk (writeFileAtomically os (inside SNAPSHOT_NAME) text)) s).1 = Returns tt.
Proof.
  intros Hin Hp Hs Htmp Hlease Hbase Hf. rewrite (task_bind_eq _ _ _ _ _ (assertActiveLease_run _ _ Hlease)).
  destruct (load_run latest s Hin (present_creatable _ Hp) Hs) as (s1 & E1 & Hsame). rewrite (task_bind_eq _ _ _ _ _ E1).
  rewrite unlessThrow_true by by apply bool_decide_eq_true. rewrite (task_bind_eq _ _ _ _ _ (follows_run _ _ s1 Hf)).
  pose proof (sameStore_lease _ _ _ _ Hsame) as Hl1. rewrite Hlease in Hl1.
  rewrite (task_bind_eq _ _ _ _ _ (assertActiveLease_run _ _ Hl1)). destruct Hsame as [_ [Hk W]].
  destruct (write_store_run text s1) as [s2 ->]; [by eapply present_keeps| | |done].
  - intros call. rewrite Hk; [done|apply temporary_nonempty|by intros []].
  - intros mode. rewrite Hk; [by eapply shows_no_folder|done|by intros []].
Qed.
Lemma track_run m s : (m s).1 = Returns tt -> (Durable.trackLeaseMutation m s).1 = Returns tt.
Proof. unfold Durable.trackLeaseMutation, tryCatch. destruct (m s) as [[[]|e] s']; [done|discriminate]. Qed.

(** The lock of the snapshot file does not take the names of the temporary files. *)
Lemma free_under_lock files files' :
  Untouched segments (fun other => other = SNAPSHOT_NAME ⧺ ".lock") files files' -> Free files ->
  forall call, files' !! inside (temporaryOf os SNAPSHOT_NAME call) = None
    /\ dirname (inside (temporaryOf os SNAPSHOT_NAME call)) = directory.
Proof.
  intros [H _] [_ Hfree] call. destruct (Hfree call) as [Hnone Hdir]. split; [|done].
  rewrite H; [done|apply temporary_nonempty|apply temporary_not_lock].
Qed.

Lemma save_run snapshot saved lease latest s :
  StoreIn segments manifest s -> Creatable (storeFiles s) -> ShowsSnapshot (storeFiles s) latest -> Free (storeFiles s) ->
  s.(Fs.activeLease) = Some lease -> decodeSnapshot sha256 numberText (encodeSnapshot snapshot) = Returns saved ->
  utf8Length (snapshotText sha256 manifest (encodeSnapshot snapshot)) <= MAX_SNAPSHOT_BYTES -> Follows sha256 numberText latest saved ->
  (Durable.saveSnapshot os sha256 numberText snapshot lease (Snap.id <$> latest) s).1 = Returns tt.
Proof.
  intros Hin Hc Hs Hfree Hlease Hd Hl Hf. unfold Durable.saveSnapshot.
  rewrite (task_bind_eq _ _ _ _ _ (assertActiveLease_run _ _ Hlease)). apply track_run.
  unfold Durable.saveSnapshotUnderLease. rewrite (task_bind_eq getState _ s s s eq_refl).
  pose proof Hin as (Hp & Ha & Hw & Hm). rewrite Hp, Hm. cbv zeta.
  fold (snapshotText sha256 manifest (encodeSnapshot snapshot)).
  rewrite unlessThrow_true by by eapply latest_base.
  erewrite task_bind_eq by (unfold evaluate; rewrite Hd; reflexivity).
  rewrite unlessThrow_true by by apply bool_decide_eq_true. rewrite inside_suffix.
  destruct (store_lock_run (SNAPSHOT_NAME ⧺ ".lock")
    (Durable.assertActiveLease lease ;;
     existing ← Durable.loadLatestSnapshot os sha256 numberText;
     unlessThrow (bool_decide (Snap.id <$> existing = Snap.id <$> latest))
       (StaleIndexerSnapshotError "durable base changed after this indexer restored its state") ;;
     evaluate (match existing with
               | Some existing => assertMonotonicSnapshot sha256 numberText existing saved
               | None => Returns tt
               end) ;;
     Durable.assertActiveLease lease ;;
     onDisk (writeFileAtomically os (inside SNAPSHOT_NAME) (snapshotText sha256 manifest (encodeSnapshot snapshot)))) s eq_refl Hc (proj1 Hfree))
    as (d1 & d2 & d3 & Hp3 & HU & ->).
  apply (save_body_run latest); [done|exact Hp3| | |done|done|done].
  - eapply showsSnapshot_same; [|exact Hs]. eapply untouched_same; [exact HU|done|apply name_not_lock].
  - eapply free_under_lock; [exact HU|done].
Qed.

(** A mutation that returns leaves no failure behind. *)
Definition SameFailures (s s' : Fs.FileIndexerStore) : Prop := s'.(Fs.leaseMutationFailures) = s.(Fs.leaseMutationFailures).

#[local] Instance sameFailures_preorder : PreOrder SameFailures.
Proof. split; [done|]. intros s1 s2 s3 H1 H2. unfold SameFailures in *. congruence. Qed.

Lemma onDisk_failures {A} (m : Task Dsk.Disk A) : Frames SameFailures (onDisk m).
Proof. intros s. unfold onDisk. by destruct (m (diskOf s)). Qed.

Lemma assertActiveLease_failures lease : Frames SameFailures (Durable.assertActiveLease lease).
Proof. unfold Durable.assertActiveLease. frames. Qed.

Lemma load_failures : Frames SameFailures (Durable.loadLatestSnapshot os sha256 numberText).
Proof.
  unfold Durable.loadLatestSnapshot. apply bind_frames; [apply _|by apply frames_getState; apply _|intros s].
  pose proof (onDisk_failures (readFileSecurely os s.(Fs.snapshotPath) MAX_SNAPSHOT_BYTES)). frames.
Qed.

Lemma lock_failures {T} path (operation : Task Fs.FileIndexerStore T) :
  Frames SameFailures operation -> Frames SameFailures (withExclusiveFileLock os path operation).
Proof. intros Hop. unfold withExclusiveFileLock. cbv zeta. pose proof @onDisk_failures. frames. Qed.

Lemma save_failures snapshot lease base s u s' :
  Durable.saveSnapshot os sha256 numberText snapshot lease base s = (Returns u, s') -> SameFailures s s'.
Proof.
  intros (u1 & s1 & E & H)%task_bind_inv. apply assertActiveLease_returns in E as [-> _].
  unfold Durable.trackLeaseMutation, tryCatch in H.
  destruct (Durable.saveSnapshotUnderLease _ _ _ _ _ _ s) as [[x|e] s2] eqn:E; [|discriminate]. injection H as <- <-.
  refine (frames_at SameFailures _ _ _ _ _ E). unfold Durable.saveSnapshotUnderLease.
  pose proof assertActiveLease_failures. pose proof load_failures. pose proof @onDisk_failures. pose proof @lock_failures.
  apply bind_frames; [apply _|by apply frames_getState; apply _|intros s1]. cbv zeta.
  apply bind_frames; [apply _|by apply frames_unlessThrow; apply _|intros _].
  apply bind_frames; [apply _|by apply frames_evaluate; apply _|intros validated].
  apply bind_frames; [apply _|by apply frames_unlessThrow; apply _|intros _]. apply lock_failures. frames.
Qed.

(** A whole writer that saves one snapshot. *)
Lemma cycle_run snapshot saved latest s :
  StoreIn segments manifest s -> Creatable (storeFiles s) -> ShowsSnapshot (storeFiles s) latest -> Free (storeFiles s) ->
  storeFiles s !! inside WRITER_LOCK_NAME = None ->
  decodeSnapshot sha256 numberText (encodeSnapshot snapshot) = Returns saved ->
  utf8Length (snapshotText sha256 manifest (encodeSnapshot snapshot)) <= MAX_SNAPSHOT_BYTES -> Follows sha256 numberText latest saved ->
  (Durable.withExclusiveWriter os (fun lease =>
     Durable.saveSnapshot os sha256 numberText snapshot lease (Snap.id <$> latest)) s).1 = Returns tt.
Proof.
  intros Hin Hc Hs Hfree Hlock Hd Hl Hf. unfold Durable.withExclusiveWriter. rewrite (task_bind_eq getState _ s s s eq_refl).
  pose proof Hin as (_ & _ & Hw & _). rewrite Hw.
  match goal with |- context [withExclusiveFileLock _ _ ?body] =>
    destruct (store_lock_run WRITER_LOCK_NAME body s eq_refl Hc Hlock) as (d1 & d2 & d3 & Hp3 & HU & ->) end.
  set (s3 := setDisk d3 (setDisk d2 (setDisk d1 s))).
  set (s4 := s3 <| Fs.issued := S (Fs.issued s3) |> <| Fs.activeLease := Some (Fs.issued s3) |> <| Fs.leaseMutationFailures := [] |>).
  assert (Hrun : (Durable.saveSnapshot os sha256 numberText snapshot (Fs.issued s3) (Snap.id <$> latest) s4).1 = Returns tt).
  { apply (save_run snapshot saved); [done|by apply present_creatable| | |done|done|done|done].
    - eapply showsSnapshot_same; [|exact Hs]. by eapply untouched_same; [exact HU|..].
    - destruct HU as [HU _], Hfree as [Hf1 Hf2]. split.
      + change (storeFiles s4) with d3.(Dsk.files). rewrite HU; [done|done|discriminate].
      + intros call. destruct (Hf2 call) as [Hn Hdir]. split; [|done].
        change (storeFiles s4) with d3.(Dsk.files). rewrite HU; [done|apply temporary_nonempty|].
        intros E. apply (f_equal (String.get 9)) in E. discriminate E. }
  destruct (Durable.saveSnapshot _ _ _ snapshot (Fs.issued s3) _ s4) as [o s5] eqn:E. cbn [fst] in Hrun. subst o.
  apply save_failures in E as Hfail. unfold SameFailures in Hfail. change (Fs.leaseMutationFailures s4) with (@nil JsError) in Hfail.
  rewrite (task_bind_eq Durable.issueLease _ s3 (Fs.issued s3) _ eq_refl).
  erewrite task_bind_eq by reflexivity. fold s4.
  erewrite task_bind_eq by (rewrite E; reflexivity). erewrite task_bind_eq by reflexivity.
  erewrite task_bind_eq by reflexivity. erewrite task_bind_eq by reflexivity.
  erewrite task_bind_eq by reflexivity. change (Fs.leaseMutationFailures (s5 <| Fs.activeLease := None |>)) with (Fs.leaseMutationFailures s5).
  by rewrite Hfail.
Qed.
End Progress.
