(* ===== verification/LedgerInvariant.v ===== *)
(** * Every handler keeps the ledger

    The event loop of the reducer, handler by handler: whatever alerts it
    raises, a handler that returns leaves every book balanced. *)
From S2P Require Import Prelude JsMap Types MoveDomains Accounting RewardBook Replay Group.
From S2P Require Import WalletHandlers LpHandlers PoolHandlers ConfigHandlers Ledger GroupChecks Reducer.

(** ** Binds that remember what the first part returned *)

Lemma keeps_lift_bind {A B} (o : Outcome A) (k : A -> Replay B) :
  (forall a, o = Returns a -> Keeps (k a)) -> Keeps (lift o ≫= k).
Proof. intros Hk c b c' H Hok. replay_inv. by eapply (Hk _ eq_refl). Qed.

Lemma keeps_throwIf_bind {B} cond e (k : unit -> Replay B) :
  (cond = false -> Keeps (k tt)) -> Keeps (throwIf cond e ≫= k).
Proof. intros Hk c b c' H Hok. replay_inv. by eapply (Hk eq_refl). Qed.

(** Reading the projection: what follows runs on a ledger in order. *)
Lemma keeps_getNext_bind {B} (k : Proj.ProtocolProjection -> Replay B) :
  (forall p c b c', c.(Ctx.next) = p -> LedgerOk p -> k p c = (Returns b, c') -> LedgerOk c'.(Ctx.next)) ->
  Keeps (getNext ≫= k).
Proof. intros Hk c b c' H Hok. handler_inv. by eapply Hk. Qed.

Lemma keeps_withEpoch b i (k : LpEpoch.IndexedLpEpoch -> Replay unit) :
  (forall e, EpochOk e -> Keeps (k e)) ->
  Keeps (requireEpoch b i ≫= fun found => match found with None => mret tt | Some e => k e end).
Proof.
  intros Hk c u c' H Hok. replay_step. apply requireEpoch_returns in E as (-> & E & _).
  destruct (jsGet i _) as [e|] eqn:Eg.
  - eapply Hk; [|done|by rewrite E]. by eapply ledger_epoch.
  - handler_inv. by rewrite E.
Qed.

Lemma keeps_updateEpoch e : EpochOk e -> Keeps (updateEpoch e).
Proof. intros He. apply keeps_modifyNext. intros p H. by apply ledger_updateEpoch. Qed.

(** [solve_keeps] that remembers what lifted computations returned. *)
Ltac epoch_keeps :=
  repeat (intros;
    lazymatch goal with
    | |- Keeps (requireEpoch _ _ ≫= _) => apply keeps_withEpoch
    | |- Keeps (lift _ ≫= _) => apply keeps_lift_bind
    | |- Keeps (throwIf _ _ ≫= _) => apply keeps_throwIf_bind
    | |- Keeps (_ ≫= _) => apply keeps_bind
    | |- Keeps (modifyNext _) => apply keeps_modifyNext; ledger_frame
    | |- Keeps (updateEpoch _) => apply keeps_updateEpoch
    | |- Keeps (match _ with _ => _ end) => case_match
    | |- Keeps _ => apply _
    end).

(** An epoch whose book is untouched. *)
Ltac epoch_frame := match goal with H : EpochOk ?e |- EpochOk _ => exact H end.

(** ** Configuration *)

#[export] Instance keeps_config_init b e : Keeps (onProtocolInitialized b e).
Proof. unfold onProtocolInitialized. solve_keeps. Qed.
#[export] Instance keeps_config_token b e : Keeps (onTokenCreated b e).
Proof. unfold onTokenCreated. solve_keeps. Qed.
#[export] Instance keeps_config_sealed b e : Keeps (onLaunchSealed b e).
Proof. unfold onLaunchSealed. solve_keeps. Qed.
#[export] Instance keeps_config_closed b e : Keeps (onPoolClosed b e).
Proof. unfold onPoolClosed. solve_keeps. Qed.
#[export] Instance keeps_config_excluded b e : Keeps (onProtocolPrimaryStoreExcluded b e).
Proof. unfold onProtocolPrimaryStoreExcluded. solve_keeps. Qed.
#[export] Instance keeps_config_operational b e : Keeps (onOperationalPrimaryStoreExcluded b e).
Proof. unfold onOperationalPrimaryStoreExcluded. solve_keeps. Qed.
#[export] Instance keeps_config_faucet b e : Keeps (onFaucetConfigured b e).
Proof. unfold onFaucetConfigured. solve_keeps. Qed.
#[export] Instance keeps_config_reserve b e : Keeps (onPoolReserveBound b e).
Proof. unfold onPoolReserveBound. solve_keeps. Qed.
#[export] Instance keeps_rejectInV02 b m : Keeps (rejectInV02 b m).
Proof. unfold rejectInV02. solve_keeps. Qed.
#[export] Instance keeps_config_fee b e : Keeps (onFeeConfigurationChanged b e).
Proof. unfold onFeeConfigurationChanged. solve_keeps. Qed.
#[export] Instance keeps_config_faucetPause b e : Keeps (onFaucetPauseChanged b e).
Proof. unfold onFaucetPauseChanged. solve_keeps. Qed.
#[export] Instance keeps_config_swapLimits b e : Keeps (onSwapLimitsChanged b e).
Proof. unfold onSwapLimitsChanged. solve_keeps. Qed.
#[export] Instance keeps_config_liquidityLimits b e : Keeps (onLiquidityLimitsChanged b e).
Proof. unfold onLiquidityLimitsChanged. solve_keeps. Qed.
#[export] Instance keeps_config_pause b e : Keeps (onPauseStateChanged b e).
Proof. unfold onPauseStateChanged. solve_keeps. Qed.
#[export] Instance keeps_config_poolPause b e : Keeps (onPoolPauseChanged b e).
Proof. unfold onPoolPauseChanged. solve_keeps. Qed.
#[export] Instance keeps_config_admin b e : Keeps (onOperationalAdminChanged b e).
Proof. unfold onOperationalAdminChanged. solve_keeps. Qed.
#[export] Instance keeps_unknown b t : Keeps (onUnknownEvent b t).
Proof. unfold onUnknownEvent. solve_keeps. Qed.

(** ** Wallets *)

#[export] Instance keeps_registered b e : Keeps (onWalletRegistered b e).
Proof. unfold onWalletRegistered. solve_keeps. Qed.

#[export] Instance keeps_position b e : Keeps (onPositionCreated b e).
Proof.
  unfold onPositionCreated. intros c u c' H Hok. handler_inv.
  eapply (ledger_setPosition (Ctx.next c)); [done|reflexivity|by apply ledger_account|cbn; try lia; try done..].
  apply flows_position, Hok.
Qed.

#[export] Instance keeps_faucetGrant b e : Keeps (onFaucetGrant b e).
Proof. unfold onFaucetGrant. solve_keeps. Qed.
#[export] Instance keeps_transfer g b e : Keeps (onWalletTransfer g b e).
Proof. unfold onWalletTransfer. solve_keeps. Qed.
#[export] Instance keeps_debited b e : Keeps (onEligibleBalanceDebited b e).
Proof. unfold onEligibleBalanceDebited. solve_keeps. Qed.
#[export] Instance keeps_credited b e : Keeps (onEligibleBalanceCredited b e).
Proof. unfold onEligibleBalanceCredited. solve_keeps. Qed.

#[export] Instance keeps_claimed b e : Keeps (onRewardsClaimed b e).
Proof.
  unfold onRewardsClaimed. intros c u c' H Hok. handler_inv.
  eapply (ledger_setPosition (Ctx.next c)); [done|reflexivity|by apply ledger_account|cbn; try lia; try done..].
  apply flows_position, Hok.
Qed.

(** ** Materialization: weight first, then the claim *)

Lemma materializeWallet_returns b e u c c' :
  materializeWallet b e c = (Returns u, c') ->
  0 < e.(RewardsMaterialized.amount)
  /\ c'.(Ctx.next) = settleWallet e.(RewardsMaterialized.account) e.(RewardsMaterialized.amount)
       (weighWallet e.(RewardsMaterialized.account) e.(RewardsMaterialized.amount) c.(Ctx.next)).
Proof.
  unfold materializeWallet. intros H. replay_inv.
  match goal with H : adjustWalletAsset _ _ _ _ _ = _ |- _ => apply adjustWalletAsset_returns in H as [-> _] end.
  cbn in *. checked_inv. bools. split; [lia|done].
Qed.

#[export] Instance keeps_materialize b e : Keeps (materializeWallet b e).
Proof.
  intros c u c' [_ ->]%materializeWallet_returns H. by apply ledger_settleWallet, ledger_weighWallet.
Qed.

(** ** Fees, custody and the pool *)

#[export] Instance keeps_adapter b e : Keeps (onCustodyAdapterRegistered b e).
Proof.
  unfold onCustodyAdapterRegistered. intros c u c' H Hok. handler_inv.
  apply (ledger_setCustody (Ctx.next c)); [done|cbn; try lia; try done..]. apply Hok.
Qed.

#[export] Instance keeps_routeOpened b e : Keeps (onCustodyEpochRouteOpened b e).
Proof.
  unfold onCustodyEpochRouteOpened. intros c u c' H Hok. handler_inv.
  apply (ledger_setCustody (Ctx.next c)); [done|cbn; try lia; try done..]. apply Hok.
Qed.

#[export] Instance keeps_debitSell b e : Keeps (debitSellOnce b e).
Proof. unfold debitSellOnce. solve_keeps. Qed.

#[export] Instance keeps_fee g b e : Keeps (onReflectionFeeCollected g b e).
Proof.
  unfold onReflectionFeeCollected. apply keeps_bind; [solve_keeps|].
  intros _ c u c' H Hok. handler_inv.
  apply (ledger_ext (Ctx.next c)); [reflexivity..|cbn; lia| | | | | | |exact Hok]; done.
Qed.

#[export] Instance keeps_index b e : Keeps (onReflectionIndexAdvanced b e).
Proof. unfold onReflectionIndexAdvanced. solve_keeps. Qed.

#[export] Instance keeps_custodyShares b e : Keeps (onCustodySharesChanged b e).
Proof.
  unfold onCustodySharesChanged. intros c u c' H Hok. handler_inv.
  apply (ledger_setCustody (Ctx.next c)); [done|cbn; try lia; try done..]. apply Hok.
Qed.

#[export] Instance keeps_routed b e : Keeps (onCustodyRewardsRouted b e).
Proof.
  unfold onCustodyRewardsRouted. apply keeps_bind; [apply _|]. intros found c u c' H Hok.
  replay_cases; handler_inv;
    (apply (ledger_setCustody (Ctx.next c)); [done|cbn; try lia; try done..]; apply Hok).
Qed.

#[export] Instance keeps_swap b e : Keeps (onSwapExecuted b e).
Proof. unfold onSwapExecuted. solve_keeps. Qed.

#[export] Instance keeps_liquidity g b e : Keeps (onLiquidity g b e).
Proof. unfold onLiquidity. solve_keeps. Qed.

(** ** LP epochs *)

(** Closes [EpochOk] for an epoch with the position of [owner] rewritten. *)
Ltac epoch_position owner :=
  match goal with
  | H : EpochOk ?e |- EpochOk _ =>
      eapply (epoch_setPosition e _ owner);
        [done|reflexivity|first [by apply epoch_owner
          |match goal with Hg : jsGet owner _ = Some ?w |- _ => exact (epoch_found_owner owner e w H Hg) end]|cbn..]
  end.

Ltac lifted_values :=
  checked_inv;
  repeat match goal with
  | H : (if ?up then checkedMoveSignedU256AddUnsigned _ _ _ else _) = Returns _ |- _ =>
      apply addOrSubtract_value in H; subst
  | H : (if ?up then checkedMoveSignedU256SubtractUnsigned _ _ _ else _) = Returns _ |- _ =>
      apply subtractOrAdd_value in H; subst
  end.

#[export] Instance keeps_lpShares b e : Keeps (adjustLpShares b e).
Proof.
  unfold adjustLpShares. epoch_keeps.
  epoch_position e.(LpSharesChanged.owner); lifted_values; try destruct (LpSharesChanged.added e); lia.
Qed.

#[export] Instance keeps_opened b e : Keeps (onLpEpochOpened b e).
Proof.
  unfold onLpEpochOpened. epoch_keeps. split; [split; [apply jsWf_empty|constructor]|]. by apply balanced_epoch.
Qed.

#[export] Instance keeps_status b e : Keeps (onLpEpochStatusChanged b e).
Proof. unfold onLpEpochStatusChanged. epoch_keeps; epoch_frame. Qed.

#[export] Instance keeps_residue g b e : Keeps (onLpFractionalResidueRetired g b e).
Proof.
  unfold onLpFractionalResidueRetired. epoch_keeps.
  epoch_position e.(LpFractionalResidueRetired.owner); lifted_values;
    unfold lpPositionOrEmpty; simplify_option_eq; lia.
Qed.

#[export] Instance keeps_terminal b e : Keeps (onLpEpochTerminalDustClassified b e).
Proof. unfold onLpEpochTerminalDustClassified. epoch_keeps; epoch_frame. Qed.

#[export] Instance keeps_lpIndex g b e : Keeps (onLpRewardIndexAdvanced g b e).
Proof. unfold onLpRewardIndexAdvanced. epoch_keeps; epoch_frame. Qed.

#[export] Instance keeps_quarantine g b e : Keeps (onLpRewardQuarantined g b e).
Proof. unfold onLpRewardQuarantined. epoch_keeps; epoch_frame. Qed.

#[export] Instance keeps_lpClaimed b e : Keeps (onLpRewardsClaimed b e).
Proof.
  unfold onLpRewardsClaimed. epoch_keeps.
  epoch_position e.(LpRewardsClaimed.owner); lifted_values; lia.
Qed.

(** A transfer is a burn at the sender and a mint at the recipient. *)
Lemma epoch_transfer e e' from to wf wt :
  EpochOk e -> from <> to ->
  let sender := lpPositionOrEmpty from e.(LpEpoch.positions) in
  let recipient := lpPositionOrEmpty to e.(LpEpoch.positions) in
  e'.(LpEpoch.positions) = jsSet to wt (jsSet from wf (jsCopy e.(LpEpoch.positions))) ->
  wf.(LpPos.owner) = from -> wt.(LpPos.owner) = to ->
  wf.(LpPos.shares) + wt.(LpPos.shares) = sender.(LpPos.shares) + recipient.(LpPos.shares) ->
  wf.(LpPos.correction) + wt.(LpPos.correction) = sender.(LpPos.correction) + recipient.(LpPos.correction) ->
  wf.(LpPos.claimed) + wt.(LpPos.claimed) = sender.(LpPos.claimed) + recipient.(LpPos.claimed) ->
  e'.(LpEpoch.totalShares) = e.(LpEpoch.totalShares) ->
  e'.(LpEpoch.aggregateCorrection) = e.(LpEpoch.aggregateCorrection) ->
  e'.(LpEpoch.lifetimeClaimed) = e.(LpEpoch.lifetimeClaimed) -> EpochOk e'.
Proof.
  intros [Hmap Hb] Hne sender recipient E1 Hf Ht E2 E3 E4 E5 E6 E7. pose proof (proj1 Hmap) as Hwf.
  rewrite (jsCopy_wf _ Hwf) in E1. split; [rewrite E1; by repeat apply lpMap_set|].
  assert (Hr : lpPositionOrEmpty to (jsSet from wf e.(LpEpoch.positions)) = recipient).
  { unfold recipient, lpPositionOrEmpty. by rewrite jsGet_set_ne. }
  apply balanced_epoch in Hb. apply balanced_epoch.
  rewrite E1, !sumZ_setLpPosition, Hr by done. fold sender. lia.
Qed.

#[export] Instance keeps_lpTransfer b e : Keeps (onLpSharesTransferred b e).
Proof.
  unfold onLpSharesTransferred. epoch_keeps. bools. lifted_values.
  match goal with H : EpochOk ?e0 |- _ => eapply (epoch_transfer e0) end;
    [done|done|reflexivity|by apply epoch_owner|by apply epoch_owner|cbn; lia..].
Qed.

(** ** The event loop *)

#[export] Instance keeps_applyEvent g event : Keeps (applyEvent g event).
Proof. unfold applyEvent. destruct (body event); apply _. Qed.
