(* ===== verification/ReducerCorrect.v ===== *)
(** * The reducer is correct: ledgers, backing, domains

    What a whole group does to a projection, from the handler lemmas: books stay
    balanced whatever the outcome, a group that is not rolled back leaves every
    vault backed and every field in its Move width, and a clean group leaves a
    coherent projection. *)
From S2P Require Import Prelude JsMap Types MoveDomains Domains Accounting RewardBook Replay Group.
From S2P Require Import WalletHandlers LpHandlers PoolHandlers ConfigHandlers GroupChecks.
From S2P Require Import LiquidityMath Reducer Ledger LedgerInvariant.

(** ** What a projection must satisfy *)

(** The core vault is exactly liability, unallocated fees and rounding; and every
    LP vault covers its liability and its quarantined rewards. *)
Definition CoreBacked (p : Proj.ProtocolProjection) : Prop :=
  exists liability,
    coreIndexedLiability p = Returns liability
    /\ 0 <= liability /\ 0 <= p.(Proj.roundingReserve)
    /\ expectedCoreVaultBalance p
       = Returns (liability + p.(Proj.unallocatedFees) + p.(Proj.roundingReserve)).

Definition EpochBacked (e : LpEpoch.IndexedLpEpoch) : Prop :=
  exists liability rounding,
    lpIndexedLiability e = Returns liability
    /\ 0 <= liability /\ 0 <= rounding
    /\ expectedLpVaultBalance e = Returns (liability + e.(LpEpoch.unallocatedRewards) + rounding).

(** The state between groups. *)
Definition Sound (p : Proj.ProtocolProjection) : Prop :=
  LedgerOk p /\ CoreBacked p /\ Forall EpochBacked (jsValues p.(Proj.lpEpochs)) /\ ProjectionDomains p.

(** ** Programs that do not touch the projection *)

Class Reads {A} (m : Replay A) : Prop :=
  reads : forall c a c', m c = (Returns a, c') -> c'.(Ctx.next) = c.(Ctx.next).

#[export] Instance reads_ret {A} (a : A) : Reads (mret a : Replay A).
Proof. intros c a' c' H. by handler_inv. Qed.
#[export] Instance reads_bind {A B} (m : Replay A) (k : A -> Replay B) :
  Reads m -> (forall a, Reads (k a)) -> Reads (m ≫= k).
Proof.
  intros Hm Hk c b c' H. apply bind_returns in H as (a & c1 & H1 & H2).
  etrans; [by eapply Hk|by eapply Hm].
Qed.
#[export] Instance reads_getNext : Reads getNext.
Proof. intros c a' c' H. by handler_inv. Qed.
#[export] Instance reads_getContext : Reads getContext.
Proof. intros c a' c' H. by handler_inv. Qed.
#[export] Instance reads_lift {A} (o : Outcome A) : Reads (lift o).
Proof. intros c a' c' H. by handler_inv. Qed.
#[export] Instance reads_alertIf b ev code msg e o : Reads (alertIf b ev code msg e o).
Proof. intros c a' c' H. by handler_inv. Qed.
#[export] Instance reads_alert ev code msg e o : Reads (alert ev code msg e o).
Proof. apply reads_alertIf. Qed.
#[export] Instance reads_forEach {A} (body : A -> Replay unit) xs :
  (forall x, Reads (body x)) -> Reads (forEach body xs).
Proof. intros Hb. induction xs; cbn; apply _. Qed.
#[export] Instance reads_sumLpPositions first e s1 s2 l : Reads (sumLpPositions first e s1 s2 l).
Proof. revert s1 s2. induction l; intros; cbn; apply _. Qed.
#[export] Instance reads_checkLpEpoch first e : Reads (checkLpEpoch first e).
Proof. unfold checkLpEpoch. apply _. Qed.
#[export] Instance reads_checkLpEpochs first : Reads (checkLpEpochs first).
Proof. unfold checkLpEpochs. apply _. Qed.

(** A reading loop ran each body from the same projection. *)
Lemma forEach_reads {A} (body : A -> Replay unit) xs c c' :
  (forall x, Reads (body x)) -> forEach body xs c = (Returns tt, c') ->
  Forall (fun x => exists c1 c2, c1.(Ctx.next) = c.(Ctx.next) /\ body x c1 = (Returns tt, c2)) xs.
Proof.
  intros Hb. revert c. induction xs as [|x xs IH]; intros c H; [constructor|]. cbn in H.
  replay_step. destruct v. constructor; [eauto|].
  rewrite <- (reads _ _ _ E). by apply IH.
Qed.

(** ** The whole [try] block *)

#[export] Instance keeps_settlePendingFees : Keeps settlePendingFees.
Proof. unfold settlePendingFees. solve_keeps. Qed.
#[export] Instance keeps_reads {A} (m : Replay A) : Reads m -> Keeps m | 100.
Proof. intros Hr c a c' H Hok. by rewrite (Hr _ _ _ H). Qed.
#[export] Instance keeps_settleCoreRounding : Keeps settleCoreRounding.
Proof. unfold settleCoreRounding. solve_keeps. Qed.
#[export] Instance reads_checkRoutesConsumed events : Reads (checkRoutesConsumed events).
Proof. unfold checkRoutesConsumed. apply _. Qed.
#[export] Instance reads_checkLiquidityShares events : Reads (checkLiquidityShares events).
Proof. unfold checkLiquidityShares. repeat case_match; apply _. Qed.
#[export] Instance reads_checkRegistrations first : Reads (checkRegistrations first).
Proof. unfold checkRegistrations. apply _. Qed.
#[export] Instance reads_checkCoreTotals first : Reads (checkCoreTotals first).
Proof. unfold checkCoreTotals. apply _. Qed.
#[export] Instance reads_checkRouteBinding first : Reads (checkRouteBinding first).
Proof. unfold checkRouteBinding. apply _. Qed.
#[export] Instance reads_checkResultDomains : Reads checkResultDomains.
Proof. unfold checkResultDomains. apply _. Qed.

#[export] Instance keeps_replayGroup g first : Keeps (replayGroup g first).
Proof. unfold replayGroup. apply _. Qed.

(** ** Backing *)

Lemma checkedVaultRemainder_inv vault liability unallocated label r :
  checkedVaultRemainder vault liability unallocated label = Returns r ->
  vault = liability + unallocated + r /\ 0 <= r.
Proof. unfold checkedVaultRemainder. intros H. outcome_inv. checked_inv. unfold fitsUnsigned in *. lia. Qed.

Lemma lpRounding_backed e label r :
  lpRounding e e.(LpEpoch.unallocatedRewards) label = Returns r -> EpochBacked e.
Proof.
  unfold lpRounding. intros H. outcome_inv.
  apply checkedVaultRemainder_inv in H as [-> Hr].
  pose proof (lpIndexedLiability_inv _ _ E0) as [_ Hl]. by exists a0, r.
Qed.

Lemma checkLpEpoch_backed first e c u c' : checkLpEpoch first e c = (Returns u, c') -> EpochBacked e.
Proof. unfold checkLpEpoch. intros H. replay_inv. by eapply lpRounding_backed. Qed.

Lemma settleCoreRounding_backed c u c' :
  settleCoreRounding c = (Returns u, c') -> CoreBacked c'.(Ctx.next).
Proof.
  unfold settleCoreRounding. intros H. replay_inv.
  match goal with H : checkedVaultRemainder _ _ _ _ = _ |- _ =>
    apply checkedVaultRemainder_inv in H as [-> Hr] end.
  match goal with H : coreIndexedLiability _ = Returns ?l |- _ => exists l;
    pose proof (coreIndexedLiability_inv _ _ H) as [_ Hl] end.
  by split; [done|split; [done|split]].
Qed.

(** Everything a returning [try] block establishes. *)
Lemma replayGroup_sound g first c u c' :
  LedgerOk c.(Ctx.next) -> replayGroup g first c = (Returns u, c') -> Sound c'.(Ctx.next).
Proof.
  intros Hok H. pose proof (keeps _ _ _ H Hok) as Hl. unfold replayGroup in H.
  repeat match type of H with (_ ≫= _) _ = _ =>
    let c1 := fresh "c" in let v := fresh "v" in let E := fresh "E" in
    apply bind_returns in H as (v & c1 & E & H); destruct v
  end.
  assert (Hd : ProjectionDomains c'.(Ctx.next)) by (unfold checkResultDomains in H; replay_inv; by apply assertProjectionMoveDomains_domains).
  pose proof (reads _ _ _ H) as Er.
  match goal with E : checkLpEpochs _ _ = _ |- _ => pose proof (reads _ _ _ E) as Ep; rename E into Echeck end.
  match goal with E : settleCoreRounding _ = _ |- _ => apply settleCoreRounding_backed in E as Hc end.
  rewrite <- Ep, <- Er in Hc. split; [done|split; [done|split; [|done]]].
  unfold checkLpEpochs in Echeck. replay_step. replay_step.
  rewrite Er, Ep. eapply Forall_impl; [|exact (forEach_reads (checkLpEpoch first) _ _ _ _ Echeck)].
  intros e (c9 & c10 & _ & Hc2). by eapply checkLpEpoch_backed.
Qed.

(** ** Cloning *)

Lemma clone_id p : LedgerOk p -> cloneProjection p = p.
Proof.
  intros ((M1 & M2 & M3 & M4 & M5 & M6 & M7) & _ & _ & He & _).
  assert (Ee : map (fun entry => (entry.1, entry.2 <| LpEpoch.positions := jsCopy entry.2.(LpEpoch.positions) |>))
                 p.(Proj.lpEpochs) = p.(Proj.lpEpochs)).
  { clear -He. unfold jsValues in He. induction p.(Proj.lpEpochs) as [|[i e] l IH]; [done|].
    cbn in *. inversion He as [|?? [Hwf _] Hl]; subst. rewrite IH by done. do 2 f_equal.
    rewrite (jsCopy_wf _ (proj1 Hwf)). by destruct e. }
  unfold cloneProjection. rewrite Ee. change (jsFromEntries (Proj.lpEpochs p)) with (jsCopy (Proj.lpEpochs p)).
  rewrite !jsCopy_wf by done. by destruct p.
Qed.

(** ** The header loop *)

Definition EventDomains (events : list ProtocolEvent) : Prop :=
  Forall (fun event => assertProtocolEventMoveDomains event = Returns tt) events.

Lemma hasEventData_app a b : hasEventData (a ++ b) = hasEventData a || hasEventData b.
Proof. unfold hasEventData. by rewrite existsb_app. Qed.

(** The alerts of one round of the header loop. *)
Definition headerAlerts (prior : Proj.ProtocolProjection) (first : ProtocolEvent)
    (previousEventIndex : Z) (groupIds : list EventId) (event : ProtocolEvent) : list Alert.CriticalAlert :=
  let b := event.(base) in
  match assertProtocolEventMoveDomains event with
  | Throws error => [problem b EVENT_DATA error.(err_message) None None]
  | Returns _ => []
  end
  ++ raisedIf (bool_decide (evLedger event <> evLedger first)
               || bool_decide (b.(Base.txHash) <> first.(base).(Base.txHash)))
       (problem b TRANSACTION_GROUP "One atomic event group contains more than one transaction identity." None None)
  ++ raisedIf (bool_decide (evIndex event <= previousEventIndex))
       (problem b EVENT_ORDER "Event indices inside a transaction must be strictly increasing." None None)
  ++ raisedIf (bool_decide (jsGet (evId event) prior.(Proj.seenEventIds) <> None) || includes (evId event) groupIds)
       (problem b IDENTIFIER_REUSE "An event identifier was reused for a different replay position."
          (Some (default "unique in transaction" (jsGet (evId event) prior.(Proj.seenEventIds))))
          (Some (cursorText b))).

Fixpoint headersAlerts (prior : Proj.ProtocolProjection) (first : ProtocolEvent)
    (previousEventIndex : Z) (groupIds : list EventId) (events : list ProtocolEvent) : list Alert.CriticalAlert :=
  match events with
  | [] => []
  | event :: rest => headerAlerts prior first previousEventIndex groupIds event
                     ++ headersAlerts prior first (evIndex event) (groupIds ++ [evId event]) rest
  end.

Lemma checkEventHeader_emits prior first previous ids event :
  Emits (checkEventHeader prior first previous ids event) (headerAlerts prior first previous ids event).
Proof.
  unfold checkEventHeader, headerAlerts. apply emits_bind; [|apply _].
  destruct (assertProtocolEventMoveDomains event); apply _.
Qed.

Lemma checkEventHeaders_emits prior first previous ids events :
  Emits (checkEventHeaders prior first previous ids events) (headersAlerts prior first previous ids events).
Proof.
  revert previous ids. induction events as [|event events IH]; intros previous ids; cbn; [apply _|].
  apply emits_bind; [apply checkEventHeader_emits|apply IH].
Qed.

(** No [EVENT_DATA] means every event is in its Move domain. *)
Lemma headersAlerts_domains prior first previous ids events :
  hasEventData (headersAlerts prior first previous ids events) = false -> EventDomains events.
Proof.
  revert previous ids. induction events as [|event events IH]; intros previous ids H; [constructor|].
  cbn [headersAlerts] in H. rewrite hasEventData_app in H. apply orb_false_elim in H as [H1 H2].
  constructor; [|by eapply IH]. unfold headerAlerts in H1. rewrite hasEventData_app in H1.
  destruct (assertProtocolEventMoveDomains event) as [[]|error]; [done|].
  cbn in H1. discriminate.
Qed.

(** ** No exception leaves the reducer

    The checks outside the source's [try] can only throw on operands wider than
    Move's; the domain checks that precede them rule those out. *)

(** A program that returns from every context. *)
Class Returning {A} (m : Replay A) : Prop :=
  returning : forall c, exists a c', m c = (Returns a, c').

#[export] Instance returning_ret {A} (a : A) : Returning (mret a : Replay A).
Proof. intros c. by exists a, c. Qed.

#[export] Instance returning_bind {A B} (m : Replay A) (k : A -> Replay B) :
  Returning m -> (forall a, Returning (k a)) -> Returning (m ≫= k).
Proof.
  intros Hm Hk c. destruct (Hm c) as (a & c1 & E). destruct (Hk a c1) as (b & c2 & E2).
  exists b, c2. unfold mbind, replay_bind. by rewrite E.
Qed.

#[export] Instance returning_emits m raised : Emits m raised -> Returning m | 10.
Proof. intros H c. eexists _, _. apply H. Qed.

Lemma returning_lift {A} (o : Outcome A) : returns o -> Returning (lift o).
Proof. intros [a ->] c. by exists a, c. Qed.

#[export] Instance returning_forEach {A} (body : A -> Replay unit) xs :
  (forall x, Returning (body x)) -> Returning (forEach body xs).
Proof. intros Hb. induction xs; cbn; apply _. Qed.

#[export] Instance returning_when b m : Returning m -> Returning (when b m).
Proof. destruct b; cbn; [done|intros; apply _]. Qed.

(** ** Operands narrow enough to multiply *)

Lemma fits_mul w1 w2 a b :
  fitsUnsigned w1 a -> fitsUnsigned w2 b -> widthBits w1 + widthBits w2 <= 256 -> fitsUnsigned U256 (a * b).
Proof.
  unfold fitsUnsigned. cbn [widthBits]. intros [Ha Ha'] [Hb Hb'] Hw.
  assert (0 <= widthBits w1 /\ 0 <= widthBits w2) by (destruct w1, w2; cbn; lia).
  assert (a * b < 2 ^ (widthBits w1 + widthBits w2)) by (rewrite Z.pow_add_r by lia; nia).
  pose proof (Z.pow_le_mono_r 2 _ _ ltac:(lia) Hw). nia.
Qed.

Lemma fits_wider w a : fitsUnsigned w a -> fitsUnsigned U256 a.
Proof.
  unfold fitsUnsigned. cbn [widthBits]. intros [Ha Hb]. split; [done|].
  eapply Z.lt_le_trans; [done|]. apply Z.pow_le_mono_r; [lia|]. destruct w; cbn; lia.
Qed.

Lemma multiply_returns w1 w2 a b label :
  fitsUnsigned w1 a -> fitsUnsigned w2 b -> widthBits w1 + widthBits w2 <= 256 ->
  checkedMoveU256Multiply a b label = Returns (a * b).
Proof.
  intros Ha Hb Hw. apply checkedMoveU256Multiply_iff.
  split; [by eapply fits_wider|split; [by eapply fits_wider|split; [by eapply fits_mul|done]]].
Qed.

(** A liquidity receipt in its domain. *)
Definition ReceiptDomains (r : Liq.LiquidityReceipt) : Prop :=
  fitsUnsigned U64 r.(Liq.trflAmount) /\ fitsUnsigned U64 r.(Liq.tusdAmount)
  /\ fitsUnsigned U128 r.(Liq.lpShares).

Lemma pick_liquidity_domains events b r :
  EventDomains events -> (b, r) ∈ pick asLiquidity events -> ReceiptDomains r.
Proof.
  intros Hd Hin. unfold pick in Hin. apply list_elem_of_omap in Hin as (event & Hin & E).
  apply list_elem_of_In in Hin.
  unfold EventDomains in Hd. rewrite List.Forall_forall in Hd. specialize (Hd _ Hin).
  unfold assertProtocolEventMoveDomains in Hd.
  destruct (body event); try discriminate E; injection E as <- <-;
    repeat (apply outcome_bind_unit in Hd as [? Hd]); autorewrite with domains in *; unfold ReceiptDomains; cbn; tauto.
Qed.

(** ** The liquidity checks return *)

Section LiquidityChecks.
Context (prior : Proj.ProtocolProjection) (events : list ProtocolEvent) (b : Base.EventBase)
  (r : Liq.LiquidityReceipt).
Context (Hprior : ProjectionDomains prior) (Hreceipt : ReceiptDomains r).

Lemma checkLiquidityAdded_returning e :
  fitsUnsigned U128 e.(LpEpoch.totalShares) -> Returning (checkLiquidityAdded prior.(Proj.pool) e b r).
Proof.
  intros He. destruct Hreceipt as (_ & _ & Hs). destruct (domains_pool _ Hprior) as (Hr & Hu & _).
  unfold checkLiquidityAdded. case_match; [apply _|]. bools.
  rewrite !(multiply_returns U128 U64) by done. unfold fitsUnsigned in *.
  apply returning_bind; [apply returning_lift; by eexists|intros n1].
  apply returning_bind; [|intros q1].
  { apply returning_lift. unfold ceilDiv. rewrite bool_decide_false by lia. by eexists. }
  apply returning_bind; [apply returning_lift; by eexists|intros n2].
  apply returning_bind; [|intros q2; apply _].
  apply returning_lift. unfold ceilDiv. rewrite bool_decide_false by lia. by eexists.
Qed.

Lemma withdrawalAmount_returns total reserve label :
  fitsUnsigned U64 reserve -> 0 < total -> returns (withdrawalAmount r.(Liq.lpShares) total reserve label).
Proof.
  intros Hr Ht. destruct Hreceipt as (_ & _ & Hs). unfold withdrawalAmount. case_bool_decide; [by eexists|].
  rewrite (multiply_returns U128 U64) by done. cbn. unfold bigintDivide. rewrite decide_False by lia. by eexists.
Qed.

Lemma checkLiquidityRemoved_returning e :
  fitsUnsigned U128 e.(LpEpoch.totalShares) -> Returning (checkLiquidityRemoved prior events e b r).
Proof.
  intros He. destruct (domains_pool _ Hprior) as (Hr & Hu & Hm). destruct Hreceipt as (_ & _ & Hs).
  unfold checkLiquidityRemoved. case_match; [apply _|]. bools.
  apply returning_bind; [apply returning_lift, withdrawalAmount_returns; [done|lia]|intros rfl].
  apply returning_bind; [apply returning_lift, withdrawalAmount_returns; [done|lia]|intros usd].
  apply returning_bind; [apply _|intros _].
  apply returning_bind; [|intros _; case_match; apply _].
  apply returning_when.
  rewrite (multiply_returns U128 U64), (multiply_returns U128 U64) by done.
  apply returning_bind; [apply returning_lift; by eexists|intros request].
  apply returning_bind; [apply returning_lift; by eexists|intros allowance; apply _].
Qed.

Lemma checkLiquidityReceipt_returning : Returning (checkLiquidityReceipt prior events b r).
Proof.
  unfold checkLiquidityReceipt. case_match; [apply _|]. destruct Hreceipt as (Ht & Hu & _).
  assert (Hepoch : forall e, jsGet r.(Liq.epoch) prior.(Proj.lpEpochs) = Some e ->
    fitsUnsigned U128 e.(LpEpoch.totalShares)) by (intros e Hg; apply (domains_epoch _ _ _ Hprior Hg)).
  destruct (Liq.kind r), (jsGet (Liq.epoch r) (Proj.lpEpochs prior)) as [e|];
    try apply _; try by (apply checkLiquidityAdded_returning || apply checkLiquidityRemoved_returning); eauto.
  all: apply returning_bind; [apply returning_lift|intros; apply _].
  all: unfold fitsUnsigned in *; rewrite integerSqrt_eq by nia; by eexists.
Qed.
End LiquidityChecks.

(** ** The whole group *)

#[export] Instance returning_registrations events : Returning (checkRegistrationOrder events).
Proof. unfold checkRegistrationOrder. apply returning_forEach. intros r. case_match; apply _. Qed.

#[export] Instance returning_custody first events : Returning (checkExpectedCustody first events).
Proof. unfold checkExpectedCustody. destruct (expectedCustody events) as [[]|]; apply _. Qed.

Lemma checkLiquidity_returning prior events :
  ProjectionDomains prior -> EventDomains events -> Returning (checkLiquidity prior events).
Proof.
  intros Hp He. unfold checkLiquidity. destruct (pick asLiquidity events) as [|[b r] [|]] eqn:E; try apply _.
  apply checkLiquidityReceipt_returning; [done|]. apply (pick_liquidity_domains events b); [done|].
  rewrite E. by left.
Qed.

Lemma checkGroup_returning prior first events :
  ProjectionDomains prior -> EventDomains events -> Returning (checkGroup prior first events).
Proof.
  intros Hp He. pose proof (checkLiquidity_returning prior events Hp He).
  unfold checkGroup, checkTerminalReceipts, checkRouteCount, checkEpochOpenings, checkRouteOpenings,
    checkTerminalTransitions, checkTerminalClassifications, checkResidues, checkExplicitClaims. apply _.
Qed.
