(* ===== verification/ReducerSpec.v ===== *)
(** * The outcomes of a group

    [Reduced] lists what [reduceEventGroup] can do with a group: nothing, reject
    it unchanged, roll it back, or apply it.  The function always returns one of
    these, and everything between groups is derived from the relation. *)
From stdpp Require Import sets.
From S2P Require Import Prelude JsMap Types MoveDomains Domains Accounting RewardBook Replay Group.
From S2P Require Import WalletHandlers LpHandlers PoolHandlers ConfigHandlers GroupChecks Reducer.
From S2P Require Import Ledger Numerals CursorRoundTrip LedgerInvariant ReducerCorrect.

(** The context the header loop starts from. *)
Definition freshContext (prior : Proj.ProtocolProjection) (first : ProtocolEvent)
    (alerts : list Alert.CriticalAlert) : Ctx.MutableContext :=
  Ctx.mk (cloneProjection prior) alerts first [] [] false.

Inductive Reduced (prior : Proj.ProtocolProjection) : list ProtocolEvent -> Result.ReduceResult -> Prop :=
| Reduced_empty : Reduced prior [] (Result.mk prior [])
| Reduced_rejected first rest alerts :
    hasEventData alerts = true -> Reduced prior (first :: rest) (Result.mk prior alerts)
| Reduced_rolledBack first rest alerts error :
    let events := first :: rest in
    ProjectionDomains prior -> EventDomains events ->
    Reduced prior events
      (Result.mk (markSeen events (cloneProjection prior))
        (alerts ++ [problem first.(base) EVENT_DATA error None None]))
| Reduced_applied first rest checked applied :
    let events := first :: rest in
    let headers := headersAlerts prior first (-1) [] events in
    ProjectionDomains prior -> EventDomains events -> hasEventData headers = false ->
    checkGroup prior first events (freshContext prior first headers) = (Returns tt, checked) ->
    replayGroup (Group.mk prior events) first checked = (Returns tt, applied) ->
    Reduced prior events (Result.mk (markSeen events applied.(Ctx.next)) applied.(Ctx.alerts)).

(** ** Every call has one of these outcomes *)

Lemma sortByIndex_nil events : sortByIndex events = [] -> events = [].
Proof.
  destruct events as [|e l]; [done|]. change (insertByIndex e (sortByIndex l) = [] -> e :: l = []).
  destruct (sortByIndex l); cbn; [done|]. by case_bool_decide.
Qed.

Lemma reduceEventGroup_reduced prior unsorted :
  exists r, reduceEventGroup prior unsorted = Returns r /\ Reduced prior (sortByIndex unsorted) r.
Proof.
  unfold reduceEventGroup. destruct (sortByIndex unsorted) as [|first rest]; [eexists; by split; [|constructor]|].
  destruct (assertProjectionMoveDomains prior) as [[]|error] eqn:Ep;
    [|eexists; split; [done|by constructor]].
  apply assertProjectionMoveDomains_domains in Ep.
  set (events := first :: rest). cbv zeta.
  rewrite (checkEventHeaders_emits prior first (-1) [] events). cbn [Ctx.alerts].
  change (_ <| Ctx.alerts := _ |>) with (freshContext prior first (headersAlerts prior first (-1) [] events)).
  cbn [Ctx.alerts freshContext].
  destruct (hasEventData _) eqn:Eh; [eexists; split; [done|by constructor]|].
  pose proof (headersAlerts_domains _ _ _ _ _ Eh) as He.
  destruct (checkGroup_returning prior first events Ep He
    (freshContext prior first (headersAlerts prior first (-1) [] events))) as ([] & checked & Ec).
  rewrite Ec. eexists. split; [done|]. unfold commitGroup.
  destruct (replayGroup _ first checked) as [[[]|error] applied] eqn:Er.
  - by eapply Reduced_applied.
  - by apply Reduced_rolledBack.
Qed.

Lemma reduceEventGroup_inv prior unsorted r :
  reduceEventGroup prior unsorted = Returns r -> Reduced prior (sortByIndex unsorted) r.
Proof. destruct (reduceEventGroup_reduced prior unsorted) as (r' & -> & H). by intros [= ->]. Qed.

(** ** The checks outside the [try] leave the projection alone *)

#[export] Instance reads_emits m raised : Emits m raised -> Reads m | 10.
Proof. intros H c a c'. rewrite (H c). by intros [= <- <-]. Qed.

#[export] Instance reads_when b m : Reads m -> Reads (when b m).
Proof. destruct b; cbn; [done|intros; apply _]. Qed.

#[export] Instance reads_registrationOrder events : Reads (checkRegistrationOrder events).
Proof. unfold checkRegistrationOrder. apply reads_forEach. intros r. case_match; apply _. Qed.
#[export] Instance reads_custody first events : Reads (checkExpectedCustody first events).
Proof. unfold checkExpectedCustody. destruct (expectedCustody events) as [[]|]; apply _. Qed.
#[export] Instance reads_liquidity prior events : Reads (checkLiquidity prior events).
Proof.
  unfold checkLiquidity, checkLiquidityReceipt, checkLiquidityAdded, checkLiquidityRemoved.
  repeat (intros; lazymatch goal with
    | |- Reads (_ ≫= _) => apply reads_bind
    | |- Reads (match _ with _ => _ end) => case_match
    | |- Reads _ => apply _ end).
Qed.
#[export] Instance reads_checkGroup prior first events : Reads (checkGroup prior first events).
Proof.
  unfold checkGroup, checkTerminalReceipts, checkRouteCount, checkEpochOpenings, checkRouteOpenings,
    checkTerminalTransitions, checkTerminalClassifications, checkResidues, checkExplicitClaims. apply _.
Qed.

(** ** Seen identifiers *)

Lemma markSeen_other (P : Proj.ProtocolProjection -> Prop) events p :
  (forall seen, P (p <| Proj.seenEventIds := seen |>)) -> P (markSeen events p).
Proof. intros H. apply H. Qed.

Lemma seen_wf events seen :
  jsWf seen -> jsWf (foldl (fun seen event => jsSet (evId event) (cursorText event.(base)) seen) seen events).
Proof. revert seen. induction events; cbn; auto with jsmap. Qed.

Lemma seen_cursors events seen :
  EventDomains events ->
  Forall SeenCursor (jsValues seen) ->
  Forall SeenCursor
    (jsValues (foldl (fun seen event => jsSet (evId event) (cursorText event.(base)) seen) seen events)).
Proof.
  intros He. revert seen. induction He as [|event events Hd He IH]; intros seen Hs; [done|].
  apply IH, jsValues_set_Forall; [done|]. apply seenCursor_base.
  unfold assertProtocolEventMoveDomains in Hd. by apply outcome_bind_unit in Hd as [Hb _].
Qed.

Lemma markSeen_ledger events p : LedgerOk p -> LedgerOk (markSeen events p).
Proof. intros H. apply (ledger_ext p); try reflexivity; [..|exact H]; try done. apply seen_wf. Qed.

Lemma markSeen_domains events p :
  EventDomains events -> ProjectionDomains p -> ProjectionDomains (markSeen events p).
Proof.
  intros He Hp. apply domains_seen; [done|]. apply seen_cursors; [done|].
  unfold ProjectionDomains in Hp. by decompose [and] Hp.
Qed.

Lemma markSeen_sound events p : EventDomains events -> Sound p -> Sound (markSeen events p).
Proof.
  intros He (Hl & Hc & Hb & Hd). split; [by apply markSeen_ledger|split; [exact Hc|split; [exact Hb|]]].
  by apply markSeen_domains.
Qed.

(** ** Soundness between groups *)

Lemma reduced_ledger prior events r :
  Reduced prior events r -> LedgerOk prior -> LedgerOk r.(Result.projection).
Proof.
  intros H Hok. destruct H; cbn; try done.
  - apply markSeen_ledger. by rewrite clone_id.
  - apply markSeen_ledger. eapply keeps; [done|]. rewrite (reads _ _ _ H2). cbn. by rewrite clone_id.
Qed.

Lemma reduced_sound prior events r :
  Reduced prior events r -> Sound prior -> Sound r.(Result.projection).
Proof.
  intros H Hok. destruct H; cbn; try done.
  - apply markSeen_sound; [done|]. rewrite clone_id; [done|apply Hok].
  - apply markSeen_sound; [done|]. eapply replayGroup_sound; [|done].
    rewrite (reads _ _ _ H2). cbn. rewrite clone_id; apply Hok.
Qed.

(** ** Groups without alerts

    Alerts only accumulate, so a group that ends without one met every
    condition on the way: the ordering and identity of its events, and the
    coherence of the projection it leaves. *)

(** What the final checks of a clean group establish across modules. *)
Definition Coherent (p : Proj.ProtocolProjection) : Prop :=
  (* the registry: the count, and only registered, non-excluded accounts *)
  p.(Proj.registeredWalletCount) = jsSize p.(Proj.registeredWallets)
  /\ NoDup (jsValues p.(Proj.registeredWallets))
  /\ Forall (fun entry => registrationConflict p entry = false) p.(Proj.registeredWallets)
  /\ Forall (fun account => jsHas account p.(Proj.registeredWallets) = true) (jsKeys p.(Proj.positions))
  (* the pool: its reserve is exactly the custody position *)
  /\ p.(Proj.pool).(Pool.trflReserve) = p.(Proj.custody).(Custody.shares)
  (* the active custody route is bound to its epoch's vault *)
  /\ (p.(Proj.custody).(Custody.adapterId) <> None -> routeBound p = true)
  (* every epoch: registered holders, exact rounding, terminal classification *)
  /\ Forall (fun e =>
       Forall (fun position => 0 < position.(LpPos.shares) ->
           jsHas position.(LpPos.owner) p.(Proj.registeredWallets) = true) (jsValues e.(LpEpoch.positions))
       /\ lpTerminalStateInvalid e = false
       /\ exists liability, lpIndexedLiability e = Returns liability
            /\ expectedLpVaultBalance e
               = Returns (liability + e.(LpEpoch.unallocatedRewards) + e.(LpEpoch.roundingReserve)))
     (jsValues p.(Proj.lpEpochs)).

(** Strictly increasing indices, from above [previous]. *)
Fixpoint IncreasingFrom (previous : Z) (events : list ProtocolEvent) : Prop :=
  match events with
  | [] => True
  | event :: rest => previous < evIndex event /\ IncreasingFrom (evIndex event) rest
  end.

(** ** Every handler is monotone in the alerts *)

Ltac solve_mono :=
  repeat (intros;
    lazymatch goal with
    | |- Monotone (_ ≫= _) => apply monotone_bind
    | |- Monotone (forEach _ _) => apply monotone_forEach
    | |- Monotone (match _ with _ => _ end) => case_match
    | |- Monotone _ => apply _
    end).

#[export] Instance monotone_emits m raised : Emits m raised -> Monotone m | 10.
Proof. intros H c o c'. rewrite (H c). intros [= <- <-]. by eexists. Qed.

#[export] Instance monotone_adjust a s d b : Monotone (adjustWalletAsset a s d b).
Proof. unfold adjustWalletAsset. solve_mono. Qed.
#[export] Instance monotone_materialize b e : Monotone (materializeWallet b e).
Proof. unfold materializeWallet. solve_mono. Qed.
#[export] Instance monotone_debitSell b e : Monotone (debitSellOnce b e).
Proof. unfold debitSellOnce. solve_mono. Qed.
#[export] Instance monotone_consume b m r : Monotone (consumeRoute b m r).
Proof. unfold consumeRoute. solve_mono. Qed.
#[export] Instance monotone_rejectInV02 b m : Monotone (rejectInV02 b m).
Proof. unfold rejectInV02. solve_mono. Qed.

#[export] Instance monotone_applyEvent g event : Monotone (applyEvent g event).
Proof.
  unfold applyEvent. destruct (body event); try apply _;
  unfold onProtocolInitialized, onTokenCreated, onLaunchSealed, onPoolClosed,
    onProtocolPrimaryStoreExcluded, onOperationalPrimaryStoreExcluded, onPositionCreated,
    onWalletRegistered, onFaucetGrant, onFaucetConfigured, onPoolReserveBound, onWalletTransfer,
    onEligibleBalanceDebited, onEligibleBalanceCredited, onSwapExecuted, onReflectionFeeCollected,
    onReflectionIndexAdvanced, onRewardsClaimed, onCustodySharesChanged, onCustodyAdapterRegistered,
    onCustodyEpochRouteOpened, onCustodyRewardsRouted, onFeeConfigurationChanged, onSwapLimitsChanged,
    onLiquidityLimitsChanged, onPauseStateChanged, onFaucetPauseChanged, onPoolPauseChanged,
    onOperationalAdminChanged, onLiquidity, onLpEpochOpened, onLpEpochStatusChanged, adjustLpShares,
    onLpSharesTransferred, onLpRewardIndexAdvanced, onLpRewardsClaimed, onLpRewardQuarantined,
    onLpFractionalResidueRetired, onLpEpochTerminalDustClassified, onUnknownEvent; solve_mono.
Qed.

#[export] Instance monotone_sumLp first e a b l : Monotone (sumLpPositions first e a b l).
Proof. revert a b. induction l; intros; cbn; solve_mono. Qed.
#[export] Instance monotone_checkLpEpoch first e : Monotone (checkLpEpoch first e).
Proof. unfold checkLpEpoch. solve_mono. Qed.
#[export] Instance monotone_checkLpEpochs first : Monotone (checkLpEpochs first).
Proof. unfold checkLpEpochs. solve_mono. Qed.
#[export] Instance monotone_settlePending : Monotone settlePendingFees.
Proof. unfold settlePendingFees. solve_mono. Qed.
#[export] Instance monotone_routesConsumed events : Monotone (checkRoutesConsumed events).
Proof. unfold checkRoutesConsumed. solve_mono. Qed.
#[export] Instance monotone_liquidityShares events : Monotone (checkLiquidityShares events).
Proof. unfold checkLiquidityShares. solve_mono. Qed.
#[export] Instance monotone_checkRegistrations first : Monotone (checkRegistrations first).
Proof. unfold checkRegistrations. solve_mono. Qed.
#[export] Instance monotone_coreTotals first : Monotone (checkCoreTotals first).
Proof. unfold checkCoreTotals. solve_mono. Qed.
#[export] Instance monotone_routeBinding first : Monotone (checkRouteBinding first).
Proof. unfold checkRouteBinding. solve_mono. Qed.
#[export] Instance monotone_coreRounding : Monotone settleCoreRounding.
Proof. unfold settleCoreRounding. solve_mono. Qed.
#[export] Instance monotone_resultDomains : Monotone checkResultDomains.
Proof. unfold checkResultDomains. solve_mono. Qed.
#[export] Instance monotone_replayGroup g first : Monotone (replayGroup g first).
Proof. unfold replayGroup. apply _. Qed.

#[export] Instance monotone_registrationOrder events : Monotone (checkRegistrationOrder events).
Proof. unfold checkRegistrationOrder. solve_mono. Qed.
#[export] Instance monotone_terminalReceipts first events : Monotone (checkTerminalReceipts first events).
Proof. unfold checkTerminalReceipts. solve_mono. Qed.
#[export] Instance monotone_expectedCustody first events : Monotone (checkExpectedCustody first events).
Proof. unfold checkExpectedCustody. solve_mono. Qed.
#[export] Instance monotone_routeCount first events : Monotone (checkRouteCount first events).
Proof. unfold checkRouteCount. solve_mono. Qed.
#[export] Instance monotone_epochOpenings prior events : Monotone (checkEpochOpenings prior events).
Proof. unfold checkEpochOpenings. solve_mono. Qed.
#[export] Instance monotone_routeOpenings events : Monotone (checkRouteOpenings events).
Proof. unfold checkRouteOpenings. solve_mono. Qed.
#[export] Instance monotone_terminalTransitions events : Monotone (checkTerminalTransitions events).
Proof. unfold checkTerminalTransitions. solve_mono. Qed.
#[export] Instance monotone_terminalClassifications events : Monotone (checkTerminalClassifications events).
Proof. unfold checkTerminalClassifications. solve_mono. Qed.
#[export] Instance monotone_residues events : Monotone (checkResidues events).
Proof. unfold checkResidues. solve_mono. Qed.
#[export] Instance monotone_liquidity prior events : Monotone (checkLiquidity prior events).
Proof. unfold checkLiquidity, checkLiquidityReceipt, checkLiquidityAdded, checkLiquidityRemoved. solve_mono. Qed.
#[export] Instance monotone_explicitClaims events : Monotone (checkExplicitClaims events).
Proof. unfold checkExplicitClaims. solve_mono. Qed.
#[export] Instance monotone_checkGroup prior first events : Monotone (checkGroup prior first events).
Proof. unfold checkGroup. apply _. Qed.

(** ** Symbolic execution of a clean run *)

Lemma bind_clean {A B} (m : Replay A) (k : A -> Replay B) c b c' :
  (m ≫= k) c = (Returns b, c') -> c'.(Ctx.alerts) = [] -> (forall a, Monotone (k a)) ->
  exists a c1, m c = (Returns a, c1) /\ c1.(Ctx.alerts) = [] /\ k a c1 = (Returns b, c').
Proof.
  intros H Hn Hk. apply bind_returns in H as (a & c1 & E & H). exists a, c1.
  split; [done|split; [by eapply monotone_nil|done]].
Qed.

Lemma alertIf_clean_same cond b code msg e o u c c' :
  alertIf cond b code msg e o c = (Returns u, c') -> c'.(Ctx.alerts) = [] -> cond = false /\ c' = c.
Proof.
  intros H Hn. pose proof (alertIf_clean _ _ _ _ _ _ _ _ _ H Hn) as ->. split; [done|].
  apply alertIf_returns in H as ->. rewrite app_nil_r. by destruct c.
Qed.

Lemma forEach_clean {A} (body : A -> Replay unit) xs : forall c c',
  (forall x, Reads (body x)) -> (forall x, Monotone (body x)) ->
  forEach body xs c = (Returns tt, c') -> c'.(Ctx.alerts) = [] ->
  Forall (fun x => exists c1 c2, c1.(Ctx.next) = c.(Ctx.next) /\ c2.(Ctx.alerts) = []
                     /\ body x c1 = (Returns tt, c2)) xs.
Proof.
  induction xs as [|x xs IH]; intros c c' Hr Hm H Hn; [constructor|].
  change ((body x ;; forEach body xs) c = (Returns tt, c')) in H.
  apply bind_clean in H as ([] & c1 & E & Hn1 & H); [|done|intros; apply _].
  constructor; [eauto|]. rewrite <- (Hr _ _ _ _ E). by eapply IH.
Qed.

(** One step of a clean run: both the equations and the conditions that held. *)
Ltac clean_step :=
  match goal with
  | H : (_ ≫= _) _ = (Returns _, ?c'), Hn : Ctx.alerts ?c' = [] |- _ =>
      let a := fresh "v" in let c1 := fresh "c" in let E := fresh "E" in let Hn1 := fresh "Hn" in
      apply bind_clean in H; [destruct H as (a & c1 & E & Hn1 & H)|exact Hn|intros; solve_mono]
  | H : alertIf _ _ _ _ _ _ _ = (Returns _, ?c'), Hn : Ctx.alerts ?c' = [] |- _ =>
      apply alertIf_clean_same in H; [destruct H; subst|exact Hn]
  | H : alert _ _ _ _ _ _ = (Returns _, ?c'), Hn : Ctx.alerts ?c' = [] |- _ =>
      apply alertIf_clean_same in H; [destruct H; discriminate|exact Hn]
  | H : (match ?x with _ => _ end) _ = (Returns _, _) |- _ => destruct x eqn:?
  | _ => replay_step
  end.
Ltac clean_inv := repeat clean_step; bools.

(** ** The final checks *)

Lemma sumLpPositions_clean first e positions : forall a b c s c',
  sumLpPositions first e a b positions c = (Returns s, c') -> c'.(Ctx.alerts) = [] ->
  Forall (fun position => 0 < position.(LpPos.shares) ->
    jsHas position.(LpPos.owner) c.(Ctx.next).(Proj.registeredWallets) = true) positions.
Proof.
  induction positions as [|position positions IH]; intros a b c s c' H Hn; [constructor|].
  cbn [sumLpPositions] in H. repeat clean_step. constructor; [|by eapply IH].
  intros Hp. match goal with H : _ && negb _ = false |- _ =>
    rewrite bool_decide_true in H by lia; by apply negb_false_iff in H end.
Qed.

Lemma checkLpEpoch_clean first e c u c' :
  checkLpEpoch first e c = (Returns u, c') -> c'.(Ctx.alerts) = [] ->
  Forall (fun position => 0 < position.(LpPos.shares) ->
    jsHas position.(LpPos.owner) c.(Ctx.next).(Proj.registeredWallets) = true) (jsValues e.(LpEpoch.positions))
  /\ lpTerminalStateInvalid e = false
  /\ exists liability, lpIndexedLiability e = Returns liability
       /\ expectedLpVaultBalance e
          = Returns (liability + e.(LpEpoch.unallocatedRewards) + e.(LpEpoch.roundingReserve)).
Proof.
  unfold checkLpEpoch. intros H Hn. repeat clean_step.
  match goal with E : sumLpPositions _ _ _ _ _ _ = _ |- _ => apply sumLpPositions_clean in E; [|done] end.
  split; [done|split; [done|]]. bools.
  match goal with E : lpRounding _ _ _ = _ |- _ => unfold lpRounding in E end. outcome_inv.
  match goal with E : checkedVaultRemainder _ _ _ _ = _ |- _ => apply checkedVaultRemainder_inv in E as [-> _] end.
  match goal with H : ~ (?v <> e.(LpEpoch.roundingReserve)) |- _ => apply dec_stable in H; subst v end.
  by eexists.
Qed.

Lemma remove_dups_length {A} `{EqDecision A} (l : list A) : (length (remove_dups l) <= length l)%nat.
Proof. induction l as [|x l IH]; cbn; [lia|]. destruct (decide_rel _ x l); cbn; lia. Qed.

(** A [Set] as large as the list it was made from: no duplicates. *)
Lemma setSize_nodup {A} `{EqDecision A} (l : list A) : setSize l = Z.of_nat (length l) -> NoDup l.
Proof.
  unfold setSize. intros E%Nat2Z.inj. induction l as [|x l IH]; [constructor|].
  cbn in E. pose proof (remove_dups_length l). destruct (decide_rel _ x l) as [|Hx]; cbn in E; [lia|].
  constructor; [done|]. apply IH. lia.
Qed.

Lemma checkRegistrations_clean first c u c' :
  checkRegistrations first c = (Returns u, c') -> c'.(Ctx.alerts) = [] ->
  let p := c.(Ctx.next) in
  p.(Proj.registeredWalletCount) = jsSize p.(Proj.registeredWallets)
  /\ NoDup (jsValues p.(Proj.registeredWallets))
  /\ Forall (fun entry => registrationConflict p entry = false) p.(Proj.registeredWallets)
  /\ Forall (fun account => jsHas account p.(Proj.registeredWallets) = true) (jsKeys p.(Proj.positions)).
Proof.
  unfold checkRegistrations. intros H Hn. repeat clean_step. cbv zeta. bools.
  apply forEach_clean in H; [|apply _|apply _|done].
  repeat match goal with H : ~ (_ <> _) |- _ => apply dec_stable in H end.
  split; [done|]. split; [|split].
  - apply setSize_nodup. etrans; [done|]. unfold jsSize, jsValues. by rewrite length_map.
  - apply List.Forall_forall. intros entry Hin.
    destruct (registrationConflict (Ctx.next c) entry) eqn:E; [|done].
    match goal with H : existsb _ _ = false |- _ => rewrite <- H; symmetry end. apply existsb_exists. eauto.
  - eapply Forall_impl; [|exact H]. intros account (c1 & c2 & _ & Hn2 & E). cbv beta in E.
    apply alertIf_clean_same in E as [E _]; [|done]. by apply negb_false_iff.
Qed.

Lemma checkCoreTotals_clean first c u c' :
  checkCoreTotals first c = (Returns u, c') -> c'.(Ctx.alerts) = [] ->
  c.(Ctx.next).(Proj.pool).(Pool.trflReserve) = c.(Ctx.next).(Proj.custody).(Custody.shares).
Proof. unfold checkCoreTotals. intros H Hn. repeat clean_step. bools. by apply dec_stable. Qed.

Lemma checkRouteBinding_clean first c u c' :
  checkRouteBinding first c = (Returns u, c') -> c'.(Ctx.alerts) = [] ->
  c.(Ctx.next).(Proj.custody).(Custody.adapterId) <> None -> routeBound c.(Ctx.next) = true.
Proof.
  unfold checkRouteBinding. intros H Hn Hid. repeat clean_step.
  match goal with H : _ && negb _ = false |- _ =>
    rewrite bool_decide_true in H by done; by apply negb_false_iff in H end.
Qed.

Lemma settleCoreRounding_next c u c' :
  settleCoreRounding c = (Returns u, c') ->
  exists r, c'.(Ctx.next) = c.(Ctx.next) <| Proj.roundingReserve := r |>.
Proof. unfold settleCoreRounding. intros H. replay_inv. by eexists. Qed.

(** A clean [try] block leaves a coherent projection. *)
Lemma replayGroup_coherent g first c c' :
  replayGroup g first c = (Returns tt, c') -> c'.(Ctx.alerts) = [] -> Coherent c'.(Ctx.next).
Proof.
  unfold replayGroup. intros H Hn.
  repeat match type of H with (_ ≫= _) _ = _ =>
    let c1 := fresh "c" in let v := fresh "v" in let E := fresh "E" in let Hn := fresh "Hn" in
    apply bind_clean in H as (v & c1 & E & Hn & H); [destruct v|assumption|intros; apply _]
  end.
  pose proof (reads _ _ _ E3) as R3. pose proof (reads _ _ _ E4) as R4.
  pose proof (reads _ _ _ E5) as R5. pose proof (reads _ _ _ E7) as R7. pose proof (reads _ _ _ H) as R8.
  apply checkRegistrations_clean in E3 as (P1 & P2 & P3 & P4); [|done].
  apply checkCoreTotals_clean in E4; [|done]. pose proof (checkRouteBinding_clean _ _ _ _ E5 Hn6) as P6.
  apply settleCoreRounding_next in E6 as [r E6].
  unfold checkLpEpochs in E7. repeat clean_step.
  apply forEach_clean in E7; [|apply _|apply _|done].
  rewrite R8, R7, E6, R5, R4, R3 in *.
  split; [exact P1|split; [exact P2|split; [exact P3|split; [exact P4|split; [exact E4|split; [exact P6|]]]]]].
  eapply Forall_impl; [|exact E7]. intros e (c9 & c10 & En & Hn' & Hc).
  apply checkLpEpoch_clean in Hc; [|done]. rewrite En in Hc. exact Hc.
Qed.

(** ** Clean headers *)

Lemma raisedIf_nil b a : raisedIf b a = [] -> b = false.
Proof. by destruct b. Qed.

(** What a group must look like for its header checks to be silent. *)
Definition HeadersValid (prior : Proj.ProtocolProjection) (first : ProtocolEvent)
    (previous : Z) (ids : list EventId) (events : list ProtocolEvent) : Prop :=
  EventDomains events
  /\ Forall (fun event => evLedger event = evLedger first
                          /\ event.(base).(Base.txHash) = first.(base).(Base.txHash)) events
  /\ IncreasingFrom previous events
  /\ Forall (fun event => jsGet (evId event) prior.(Proj.seenEventIds) = None) events
  /\ NoDup (map evId events) /\ Forall (fun event => evId event ∉ ids) events.

Lemma headersAlerts_nil prior first previous ids events :
  headersAlerts prior first previous ids events = [] -> HeadersValid prior first previous ids events.
Proof.
  revert previous ids. induction events as [|event events IH]; intros previous ids H.
  { repeat split; constructor. }
  cbn [headersAlerts] in H. apply app_nil in H as [H1 H2].
  destruct (IH _ _ H2) as (D & T & I & F & N & O). unfold headerAlerts in H1.
  apply app_nil in H1 as [Hd H1]. apply app_nil in H1 as [Ht H1]. apply app_nil in H1 as [Ho Hi].
  apply raisedIf_nil in Ht, Ho, Hi. bools. unfold includes in *. bools.
  destruct (assertProtocolEventMoveDomains event) as [[]|] eqn:Ed; [|done].
  repeat match goal with H : ~ (_ <> _) |- _ => apply dec_stable in H end.
  split; [by constructor|split; [by constructor|split; [split; [lia|done]|split; [by constructor|split]]]].
  - cbn. constructor; [|done]. intros (event' & E & Hin)%list_elem_of_fmap.
    rewrite Forall_forall in O || rewrite List.Forall_forall in O.
    apply list_elem_of_In in Hin. apply (O _ Hin). rewrite E. set_solver.
  - constructor; [done|]. eapply Forall_impl; [|exact O]. cbn. intros e He. set_solver.
Qed.

(** ** A clean group was applied *)

Lemma monotone_at {A} (m : Replay A) c a c' :
  Monotone m -> m c = (Returns a, c') -> c'.(Ctx.alerts) = [] -> c.(Ctx.alerts) = [].
Proof. intros Hm H Hn. by eapply monotone_nil. Qed.

Lemma reduced_clean prior events p :
  Reduced prior events (Result.mk p []) -> events <> [] ->
  exists first rest checked applied,
    events = first :: rest
    /\ ProjectionDomains prior
    /\ HeadersValid prior first (-1) [] events
    /\ checkGroup prior first events (freshContext prior first []) = (Returns tt, checked)
    /\ checked.(Ctx.alerts) = []
    /\ replayGroup (Group.mk prior events) first checked = (Returns tt, applied)
    /\ applied.(Ctx.alerts) = []
    /\ p = markSeen events applied.(Ctx.next).
Proof.
  intros H Hne. remember (Result.mk p []) as r eqn:Er. destruct H as
    [|first rest alerts Hd|first rest alerts error events Hd|first rest checked applied events headers Hd He Hh Hc Hr].
  - done.
  - by injection Er as _ ->.
  - injection Er as _ [_ [=]]%app_nil.
  - injection Er as <- Hal. pose proof (monotone_at _ _ _ _ _ Hr Hal) as Hal'.
    pose proof (monotone_at _ _ _ _ _ Hc Hal') as Hal''.
    change (headers = []) in Hal''. rewrite Hal'' in Hc.
    exists first, rest, checked, applied. split; [done|split; [done|split; [by apply headersAlerts_nil|]]]. done.
Qed.

(** A group that reuses an identifier, or is out of order, is not clean. *)
Lemma clean_headers prior unsorted p :
  reduceEventGroup prior unsorted = Returns (Result.mk p []) -> unsorted <> [] ->
  exists first rest, sortByIndex unsorted = first :: rest
    /\ HeadersValid prior first (-1) [] (sortByIndex unsorted).
Proof.
  intros H%reduceEventGroup_inv Hne.
  destruct (reduced_clean _ _ _ H) as (first & rest & _ & _ & E & _ & Hv & _); [|by exists first, rest].
  by intros ?%sortByIndex_nil.
Qed.
