(* ===== verification/Frames.v ===== *)
(** * What the handlers leave alone

    [Frames f m]: the part [f] of the projection survives [m].  Seen identifiers
    are written by no handler; the deployment's version, shutdown mode and
    administrators only by the handlers named here. *)
From S2P Require Import Prelude JsMap Types MoveDomains Domains Accounting RewardBook Replay Group.
From S2P Require Import WalletHandlers LpHandlers PoolHandlers ConfigHandlers Ledger GroupChecks Reducer.
From S2P Require Import LedgerInvariant Numerals CursorRoundTrip ReducerCorrect ReducerSpec.

Class Frames {T A} (f : Proj.ProtocolProjection -> T) (m : Replay A) : Prop :=
  frames : forall c a c', m c = (Returns a, c') -> f c'.(Ctx.next) = f c.(Ctx.next).

(** The deployment facts the second generation fixes at creation. *)
Definition deployment (p : Proj.ProtocolProjection) : string * bool * Admins.OperationalAdmins :=
  (p.(Proj.packageVersion), p.(Proj.pool).(Pool.shutdownMode), p.(Proj.operationalAdmins)).

Definition NO_ADMINS : Admins.OperationalAdmins := Admins.mk None None None.

(** A v0.2 deployment that is not shut down and has no administrators. *)
Definition V02Deployment (p : Proj.ProtocolProjection) : Prop := deployment p = (V02, false, NO_ADMINS).

(** The events that may write [deployment]. *)
Definition writesDeployment (b : EventBody) : bool :=
  match b with
  | EvProtocolInitialized _ | EvTokenCreated _ | EvPoolPauseChanged _ | EvOperationalAdminChanged _
  | EvLiquiditySeeded _ | EvLiquidityAdded _ | EvLiquidityRemoved _ => true
  | _ => false
  end.

(** ** The calculus *)

Section Frames.
Context {T : Type} (f : Proj.ProtocolProjection -> T).

#[export] Instance frames_reads {A} (m : Replay A) : Reads m -> Frames f m.
Proof. intros Hr c a c' H. by rewrite (Hr _ _ _ H). Qed.

Lemma frames_bind {A B} (m : Replay A) (k : A -> Replay B) :
  Frames f m -> (forall a, Frames f (k a)) -> Frames f (m ≫= k).
Proof.
  intros Hm Hk c b c' H. apply bind_returns in H as (a & c1 & H1 & H2).
  etrans; [by eapply Hk|by eapply Hm].
Qed.

Lemma frames_modifyNext g : (forall p, f (g p) = f p) -> Frames f (modifyNext g).
Proof. intros Hg c a c' H. handler_inv. apply Hg. Qed.

Lemma frames_forEach {A} (body : A -> Replay unit) xs :
  (forall x, Frames f (body x)) -> Frames f (forEach body xs).
Proof.
  intros Hb. induction xs as [|x xs IH]; cbn [forEach]; [apply _|by apply frames_bind].
Qed.

Lemma frames_when b m : Frames f m -> Frames f (when b m).
Proof. destruct b; cbn; [done|intros; apply _]. Qed.
End Frames.

#[export] Instance reads_requireEpoch b i : Reads (requireEpoch b i).
Proof. intros c a c' (_ & E & _)%requireEpoch_returns. done. Qed.
#[export] Instance reads_addConsumedRoute id : Reads (addConsumedRoute id).
Proof. intros c a c' H. by handler_inv. Qed.
#[export] Instance reads_setPendingCoreFees fees : Reads (setPendingCoreFees fees).
Proof. intros c a c' H. by handler_inv. Qed.
#[export] Instance reads_setSellWalletDebited : Reads setSellWalletDebited.
Proof. intros c a c' H. by handler_inv. Qed.
#[export] Instance reads_throwIf b e : Reads (throwIf b e).
Proof. apply reads_lift. Qed.
#[export] Instance reads_consumeRoute b m r : Reads (consumeRoute b m r).
Proof. destruct r; cbn; apply _. Qed.
#[export] Instance reads_rejectInV02 b m : Reads (rejectInV02 b m).
Proof. unfold rejectInV02. apply _. Qed.

(** Writes are checked by computation: the written fields are not in [f]. *)
Ltac solve_frames :=
  repeat (intros;
    lazymatch goal with
    | |- Frames _ (_ ≫= _) => apply frames_bind
    | |- Frames _ (forEach _ _) => apply frames_forEach
    | |- Frames _ (when _ _) => apply frames_when
    | |- Frames _ (modifyNext _) => apply frames_modifyNext; intros; reflexivity
    | |- Frames _ (setPosition _ _) => apply frames_modifyNext; intros; reflexivity
    | |- Frames _ (updateEpoch _) => apply frames_modifyNext; intros; reflexivity
    | |- Frames _ (adjustWalletAsset _ _ _ _) => unfold adjustWalletAsset
    | |- Frames _ (debitSellOnce _ _) => unfold debitSellOnce
    | |- Frames _ (match _ with _ => _ end) => case_match
    | |- Frames _ _ => apply _
    end).

Ltac unfold_handlers :=
  unfold materializeWallet, onProtocolInitialized, onTokenCreated, onLaunchSealed, onPoolClosed,
    onProtocolPrimaryStoreExcluded, onOperationalPrimaryStoreExcluded, onPositionCreated,
    onWalletRegistered, onFaucetGrant, onFaucetConfigured, onPoolReserveBound, onWalletTransfer,
    onEligibleBalanceDebited, onEligibleBalanceCredited, onSwapExecuted, onReflectionFeeCollected,
    onReflectionIndexAdvanced, onRewardsClaimed, onCustodySharesChanged, onCustodyAdapterRegistered,
    onCustodyEpochRouteOpened, onCustodyRewardsRouted, onFeeConfigurationChanged, onSwapLimitsChanged,
    onLiquidityLimitsChanged, onPauseStateChanged, onFaucetPauseChanged, onPoolPauseChanged,
    onOperationalAdminChanged, onLiquidity, onLpEpochOpened, onLpEpochStatusChanged, adjustLpShares,
    onLpSharesTransferred, onLpRewardIndexAdvanced, onLpRewardsClaimed, onLpRewardQuarantined,
    onLpFractionalResidueRetired, onLpEpochTerminalDustClassified, onUnknownEvent.

(** ** Seen identifiers *)

#[export] Instance seen_applyEvent g event : Frames Proj.seenEventIds (applyEvent g event).
Proof. unfold applyEvent. destruct (body event); unfold_handlers; solve_frames. Qed.

Lemma replayGroup_seen g first c u c' :
  replayGroup g first c = (Returns u, c') ->
  c'.(Ctx.next).(Proj.seenEventIds) = c.(Ctx.next).(Proj.seenEventIds).
Proof.
  revert c u c'. change (Frames Proj.seenEventIds (replayGroup g first)).
  unfold replayGroup, settlePendingFees, settleCoreRounding. solve_frames.
Qed.

(** ** The deployment *)

Lemma deployment_applyEvent g event :
  writesDeployment event.(body) = false -> Frames deployment (applyEvent g event).
Proof. unfold applyEvent. destruct (body event); try discriminate; intros _; unfold_handlers; solve_frames. Qed.

(** ** v0.2: a clean run never leaves [V02Deployment] *)

Lemma v02_version p : V02Deployment p -> p.(Proj.packageVersion) = V02.
Proof. by intros [= -> _ _]. Qed.

Lemma rejectInV02_unclean b m c u c' :
  V02Deployment c.(Ctx.next) -> rejectInV02 b m c = (Returns u, c') -> c'.(Ctx.alerts) <> [].
Proof.
  unfold rejectInV02. intros Hv H Hn. repeat clean_step. bools. by rewrite (v02_version _ Hv) in *.
Qed.

(** Programs that leave the deployment a v0.2 one. *)
Definition KeepsV02 {A} (m : Replay A) : Prop :=
  forall c a c', m c = (Returns a, c') -> V02Deployment c.(Ctx.next) -> V02Deployment c'.(Ctx.next).

Lemma keepsV02_frames {A} (m : Replay A) : Frames deployment m -> KeepsV02 m.
Proof. intros Hf c a c' H Hv. unfold V02Deployment. by rewrite (Hf _ _ _ H). Qed.

Lemma keepsV02_bind {A B} (m : Replay A) (k : A -> Replay B) :
  KeepsV02 m -> (forall a, KeepsV02 (k a)) -> KeepsV02 (m ≫= k).
Proof.
  intros Hm Hk c b c' H Hv. apply bind_returns in H as (a & c1 & H1 & H2).
  eapply Hk; [done|]. by eapply Hm.
Qed.

Lemma keepsV02_liquidity g b e : KeepsV02 (onLiquidity g b e).
Proof.
  unfold onLiquidity.
  repeat (intros; match goal with
    | |- KeepsV02 (getNext ≫= _) => apply keepsV02_bind; [apply keepsV02_frames, _|]
    | |- KeepsV02 (alertIf _ _ _ _ _ _ ≫= _) => apply keepsV02_bind; [apply keepsV02_frames, _|]
    | |- KeepsV02 (_ ≫= _) => apply keepsV02_bind; [apply keepsV02_frames; solve_frames|]
    end).
  intros ? c u c' H Hv. handler_inv. unfold V02Deployment, deployment in *. cbn.
  injection Hv as -> -> ->. by destruct (bool_decide _ && _).
Qed.

(** An event replayed without an alert leaves a v0.2 deployment one. *)
Lemma v02_applyEvent g event c u c' :
  V02Deployment c.(Ctx.next) -> applyEvent g event c = (Returns u, c') -> c'.(Ctx.alerts) = [] ->
  V02Deployment c'.(Ctx.next).
Proof.
  intros Hv H Hn. destruct (writesDeployment event.(body)) eqn:Ew.
  - unfold applyEvent in H. destruct (body event); try discriminate Ew.
    + unfold onProtocolInitialized in H. exfalso. clean_inv.
      match goal with H : ~ _ <> UNINITIALIZED |- _ => apply H; by rewrite (v02_version _ Hv) end.
    + unfold onTokenCreated in H. exfalso. clean_inv.
      match goal with H : ~ _ <> UNINITIALIZED |- _ => apply H; by rewrite (v02_version _ Hv) end.
    + exfalso. unfold onPoolPauseChanged in H. apply bind_clean in H as (? & c1 & E & Hn1 & _); [|done|intros; apply _].
      by eapply rejectInV02_unclean.
    + exfalso. unfold onOperationalAdminChanged in H.
      apply bind_clean in H as (? & c1 & E & Hn1 & _); [|done|intros; solve_mono]. by eapply rejectInV02_unclean.
    + by eapply keepsV02_liquidity.
    + by eapply keepsV02_liquidity.
    + by eapply keepsV02_liquidity.
  - unfold V02Deployment. by rewrite (deployment_applyEvent g event Ew _ _ _ H).
Qed.

Lemma v02_loop g events : forall c u c',
  V02Deployment c.(Ctx.next) -> forEach (applyEvent g) events c = (Returns u, c') ->
  c'.(Ctx.alerts) = [] -> V02Deployment c'.(Ctx.next).
Proof.
  induction events as [|event events IH]; intros c u c' Hv H Hn; cbn [forEach] in H; [by replay_inv|].
  apply bind_clean in H as (? & c1 & E & Hn1 & H); [|done|intros; apply _].
  eapply IH; [|done|done]. by eapply v02_applyEvent.
Qed.

Lemma v02_replayGroup g first c u c' :
  V02Deployment c.(Ctx.next) -> replayGroup g first c = (Returns u, c') -> c'.(Ctx.alerts) = [] ->
  V02Deployment c'.(Ctx.next).
Proof.
  intros Hv H Hn. unfold replayGroup in H.
  apply bind_clean in H as (? & c1 & E & Hn1 & H); [|done|intros; apply _].
  pose proof (v02_loop _ _ _ _ _ Hv E Hn1) as Hv1.
  unfold V02Deployment. rewrite <- Hv1. revert H. generalize c1 u c'. clear.
  assert (Hf : Frames deployment (settlePendingFees ;; checkRoutesConsumed g.(Group.events) ;;
    checkLiquidityShares g.(Group.events) ;; checkRegistrations first ;; checkCoreTotals first ;;
    checkRouteBinding first ;; settleCoreRounding ;; checkLpEpochs first ;; checkResultDomains)).
  { unfold settlePendingFees, settleCoreRounding. solve_frames. }
  intros c1 u c' H. exact (Hf _ _ _ H).
Qed.
