(* ===== verification/LiquidityChecks.v ===== *)
(** * What a clean liquidity receipt satisfies

    The group checks of a clean group, read back: at most one terminal receipt,
    and the proportional arithmetic of the liquidity receipt it may carry. *)
From S2P Require Import Prelude JsMap Types MoveDomains Domains Accounting RewardBook Replay Group.
From S2P Require Import WalletHandlers LpHandlers PoolHandlers ConfigHandlers Ledger GroupChecks.
From S2P Require Import LiquidityMath Reducer LedgerInvariant Numerals CursorRoundTrip ReducerCorrect.
From S2P Require Import ReducerSpec.

(** The receipt names the active epoch of [prior]. *)
Definition TargetsActive (prior : Proj.ProtocolProjection) (r : Liq.LiquidityReceipt)
    (e : LpEpoch.IndexedLpEpoch) : Prop :=
  jsGet r.(Liq.epoch) prior.(Proj.lpEpochs) = Some e /\ prior.(Proj.activeLpEpoch) = Some r.(Liq.epoch).

(** The amounts a mint of [shares] pays, each the least covering its proportion. *)
Definition MintAmount (shares total reserve amount : Z) : Prop :=
  (amount - 1) * total < shares * reserve <= amount * total.

(** The amounts a burn of [shares] pays out, each the greatest within its proportion. *)
Definition BurnAmount (shares total reserve amount : Z) : Prop :=
  amount * total <= shares * reserve < (amount + 1) * total.

(** ** Inversion *)

Lemma arrayLength_1 {A} (l : list A) x : x ∈ l -> arrayLength l <= 1 -> l = [x].
Proof.
  unfold arrayLength. destruct l as [|a [|b l]]; cbn; [inversion 1| |lia].
  intros Hin _. by apply list_elem_of_singleton in Hin as ->.
Qed.

Lemma checkGroup_clean prior first events c u c' :
  checkGroup prior first events c = (Returns u, c') -> c'.(Ctx.alerts) = [] ->
  arrayLength (pick asSwapExecuted events) <= 1 /\ arrayLength (pick asLiquidity events) <= 1
  /\ exists c1 c2, checkLiquidity prior events c1 = (Returns tt, c2) /\ c2.(Ctx.alerts) = [].
Proof.
  unfold checkGroup. intros H Hn.
  apply bind_clean in H as (? & c1 & _ & _ & H); [|done|intros; solve_mono].
  apply bind_clean in H as (? & c2 & E & Hn2 & H); [|done|intros; solve_mono].
  unfold checkTerminalReceipts in E. repeat clean_step. bools.
  split; [lia|split; [lia|]]. eauto.
Qed.

(** The clean receipt of a clean group went through [checkLiquidityReceipt]. *)
Lemma clean_receipt prior unsorted p b r :
  reduceEventGroup prior unsorted = Returns (Result.mk p []) ->
  (b, r) ∈ pick asLiquidity unsorted ->
  ProjectionDomains prior /\ ReceiptDomains r
  /\ exists c1 c2, checkLiquidityReceipt prior (sortByIndex unsorted) b r c1 = (Returns tt, c2)
       /\ c2.(Ctx.alerts) = [].
Proof.
  intros H%reduceEventGroup_inv Hin.
  assert (Hs : (b, r) ∈ pick asLiquidity (sortByIndex unsorted)).
  { unfold pick in *. apply list_elem_of_omap in Hin as (event & Hin & E). apply list_elem_of_omap.
    exists event. by rewrite sortByIndex_perm. }
  destruct (reduced_clean _ _ _ H) as (first & rest & checked & applied & E & Hd & Hv & Hc & Hn & _ & _ & _).
  { intros E. rewrite E in Hs. inversion Hs. }
  split; [done|split; [eapply pick_liquidity_domains; [apply Hv|done]|]].
  apply checkGroup_clean in Hc as (_ & Hl & c1 & c2 & Hc & Hn2); [|done].
  exists c1, c2. split; [|done]. unfold checkLiquidity in Hc. by rewrite (arrayLength_1 _ _ Hs Hl) in Hc.
Qed.

Lemma jsHas_None {K V} `{EqDecision K} (k : K) (m : JsMap K V) : jsGet k m = None -> jsHas k m = false.
Proof. unfold jsHas. by intros ->. Qed.

Lemma checkLiquidityReceipt_active prior events b r c c' :
  checkLiquidityReceipt prior events b r c = (Returns tt, c') -> c'.(Ctx.alerts) = [] ->
  r.(Liq.kind) <> Seeded ->
  exists e, TargetsActive prior r e /\
    match r.(Liq.kind) with
    | Added => checkLiquidityAdded prior.(Proj.pool) e b r c = (Returns tt, c')
    | _ => checkLiquidityRemoved prior events e b r c = (Returns tt, c')
    end.
Proof.
  unfold checkLiquidityReceipt. intros H Hn Hk. rewrite (bool_decide_false _ Hk) in H. cbn [negb andb] in H.
  destruct (jsHas _ _) eqn:Eh; cbn [negb orb] in H; [|by repeat clean_step].
  case_bool_decide as Ea; [by repeat clean_step|].
  unfold jsHas in Eh. destruct (jsGet _ _) as [e|] eqn:Eg; [|done].
  exists e. split; [done|]. by destruct (Liq.kind r).
Qed.

(** ** The three receipts *)

Lemma checkLiquidityAdded_clean pool e b r c c' :
  checkLiquidityAdded pool e b r c = (Returns tt, c') -> c'.(Ctx.alerts) = [] ->
  0 <= r.(Liq.lpShares) ->
  0 < e.(LpEpoch.totalShares)
  /\ MintAmount r.(Liq.lpShares) e.(LpEpoch.totalShares) pool.(Pool.trflReserve) r.(Liq.trflAmount)
  /\ MintAmount r.(Liq.lpShares) e.(LpEpoch.totalShares) pool.(Pool.tusdReserve) r.(Liq.tusdAmount).
Proof.
  unfold checkLiquidityAdded. intros H Hn Hs. repeat clean_step. bools. checked_inv.
  repeat match goal with H : ~ (_ <> _) |- _ => apply dec_stable in H; subst end.
  repeat match goal with H : ceilDiv _ _ = Returns _ |- _ => apply ceilDiv_iff in H; [|nia|lia] end.
  split; [lia|]. unfold MintAmount. split; lia.
Qed.

Lemma withdrawalAmount_inv shares total reserve label amount :
  withdrawalAmount shares total reserve label = Returns amount ->
  0 < total -> BurnAmount shares total reserve amount.
Proof.
  unfold withdrawalAmount, BurnAmount. case_bool_decide as E.
  - intros [= <-] Ht. subst. nia.
  - intros H Ht. outcome_inv. checked_inv. unfold bigintDivide in H. rewrite decide_False in H by lia.
    injection H as <-. unfold fitsUnsigned in *. rewrite Z.quot_div_nonneg by lia.
    pose proof (Z.div_mod (shares * reserve) total ltac:(lia)).
    pose proof (Z.mod_pos_bound (shares * reserve) total Ht). nia.
Qed.

Lemma checkLiquidityRemoved_clean prior events e b r c c' :
  checkLiquidityRemoved prior events e b r c = (Returns tt, c') -> c'.(Ctx.alerts) = [] ->
  let pool := prior.(Proj.pool) in
  0 < e.(LpEpoch.totalShares) /\ r.(Liq.lpShares) <= e.(LpEpoch.totalShares)
  /\ BurnAmount r.(Liq.lpShares) e.(LpEpoch.totalShares) pool.(Pool.trflReserve) r.(Liq.trflAmount)
  /\ BurnAmount r.(Liq.lpShares) e.(LpEpoch.totalShares) pool.(Pool.tusdReserve) r.(Liq.tusdAmount)
  /\ r.(Liq.finalExit) = bool_decide (r.(Liq.lpShares) = e.(LpEpoch.totalShares))
  /\ (r.(Liq.finalExit) = true -> pool.(Pool.shutdownMode) = true /\ finalExitOrdered events b r = true)
  /\ (r.(Liq.finalExit) = false -> pool.(Pool.shutdownMode) = false ->
      r.(Liq.lpShares) * BPS_DENOMINATOR
        <= e.(LpEpoch.totalShares) * pool.(Pool.maximumNonFinalWithdrawalShareBps)).
Proof.
  unfold checkLiquidityRemoved. intros H Hn. cbv zeta in H.
  destruct (bool_decide (_ <= 0) || _) eqn:Eg; [by repeat clean_step|].
  repeat match type of H with (_ ≫= _) _ = _ =>
    let c1 := fresh "c" in let v := fresh "v" in let E := fresh "E" in let Hn := fresh "Hn" in
    apply bind_clean in H as (v & c1 & E & Hn & H); [|assumption|intros; solve_mono]
  end.
  apply lift_returns in E as [E ->], E0 as [E0 ->]. apply alertIf_clean_same in E1 as [E1 ->]; [|done].
  bools. repeat match goal with H : ~ (_ <> _) |- _ => apply dec_stable in H; subst end.
  apply withdrawalAmount_inv in E, E0; [|lia..].
  split; [lia|split; [lia|split; [done|split; [done|]]]].
  match goal with Hf : r.(Liq.finalExit) = _ |- _ => rewrite Hf in * end.
  split; [done|]. destruct (bool_decide (Liq.lpShares r = _)); cbn [negb andb] in *.
  - apply alertIf_clean_same in H as [H ->]; [|done]. bools. done.
  - split; [done|]. intros _ Hsd. rewrite Hsd in E2. cbn [negb when] in E2.
    repeat clean_step. bools. checked_inv. lia.
Qed.
