(* ===== verification/Fixtures.v ===== *)
(** * Concrete transactions

    The bootstrap and sell transactions of [tests/indexer.test.ts], as events of
    the model, with the route, claim and wallet transactions that continue them.
    The witnesses evaluate the replay on these. *)
From S2P Require Import Prelude JsMap Types MoveDomains Accounting Replay Group WalletHandlers.
From S2P Require Import LpHandlers PoolHandlers ConfigHandlers GroupChecks Reducer.

Definition TEST_ACCOUNT : Address := "0xa11ce".
Definition ALICE_PRIMARY_STORE : Address := "0xa1101".
Definition CUSTODY_RESERVE : Address := "0x2001".
Definition USD_RESERVE : Address := "0x2002".
Definition LP_REWARD_VAULT : Address := "0x3001".
Definition LP_STATE_1 : Address := "0x4001".
Definition CORE_REWARD_VAULT : Address := "0x1001".
Definition DISTRIBUTION_VAULT : Address := "0x1002".
Definition TOKEN_METADATA : Address := "0x1000".

Definition at_ (txHash : string) (ledgerVersion eventIndex : Z) (id : EventId) (b : EventBody)
    : ProtocolEvent :=
  mkEvent {| Base.id := id; Base.txHash := txHash; Base.ledgerVersion := ledgerVersion;
             Base.eventIndex := eventIndex;
             Base.timestampUnixMilliseconds := 1700000000000 + ledgerVersion;
             Base.source := fixture |} b.

Definition initEvents : list ProtocolEvent :=
  [ at_ "0xinit" 1 0 "init" (EvProtocolInitialized
      {| ProtocolInitialized.deploymentId := "reflection-pilot-001";
         ProtocolInitialized.networkLabel := "cedra-testnet";
         ProtocolInitialized.tokenMetadata := TOKEN_METADATA;
         ProtocolInitialized.automaticMaterialization := false;
         ProtocolInitialized.feeBps := 100;
         ProtocolInitialized.initialIndex := 0;
         ProtocolInitialized.packageVersion := "testnet-v0.1.0";
         ProtocolInitialized.rewardVault := CORE_REWARD_VAULT;
         ProtocolInitialized.distributionVault := DISTRIBUTION_VAULT;
         ProtocolInitialized.protocolExclusionSlots := 2 |});
    at_ "0xinit" 1 1 "core-operator-init"
      (EvOperationalAdminChanged (OperationalAdminChanged.mk reflection_core "0x0" "0xcafe"));
    at_ "0xinit" 1 2 "assets-operator-init"
      (EvOperationalAdminChanged (OperationalAdminChanged.mk test_assets "0x0" "0xbabe"));
    at_ "0xinit" 1 3 "amm-operator-init"
      (EvOperationalAdminChanged (OperationalAdminChanged.mk test_amm "0x0" "0xdead")) ].

Definition ammInitEvents : list ProtocolEvent :=
  [ at_ "0xamm-init" 2 0 "adapter-1"
      (EvCustodyAdapterRegistered (CustodyAdapterRegistered.mk 1 CUSTODY_RESERVE 1 LP_REWARD_VAULT));
    at_ "0xamm-init" 2 1 "epoch-1" (EvLpEpochOpened (LpEpochOpened.mk 1 LP_STATE_1 LP_REWARD_VAULT));
    at_ "0xamm-init" 2 2 "usd-reserve-1" (EvPoolReserveBound (PoolReserveBound.mk USD_RESERVE "0xdead")) ].

Definition faucetEvents : list ProtocolEvent :=
  [ at_ "0xfaucet" 3 0 "alice-registration"
      (EvWalletRegistered (WalletRegistered.mk TEST_ACCOUNT ALICE_PRIMARY_STORE 1));
    at_ "0xfaucet" 3 1 "alice-position" (EvPositionCreated (PositionCreated.mk TEST_ACCOUNT));
    at_ "0xfaucet" 3 2 "alice-grant" (EvFaucetGrant (FaucetGrant.mk TEST_ACCOUNT tRFL 2000000)) ].

Definition seedEvents : list ProtocolEvent :=
  [ at_ "0xseed" 4 0 "seed-custody"
      (EvCustodySharesChanged (CustodySharesChanged.mk true 1000000 1000000 3000000));
    at_ "0xseed" 4 1 "seed-lp"
      (EvLpSharesChanged (LpSharesChanged.mk 1 TEST_ACCOUNT true 1000000 1000000 1000000));
    at_ "0xseed" 4 2 "seed-receipt"
      (EvLiquiditySeeded (LiquiditySeeded.mk 1 TEST_ACCOUNT 1000000 1000000 1000000 1000000 1000000)) ].

Definition sellIndex : Z := 10 * REFLECTION_MAGNITUDE / 2999000.
Definition sellRemainder : Z := 10 * REFLECTION_MAGNITUDE mod 2999000.

Definition sellReceipt : SwapExecuted.SwapExecutedEvent :=
  SwapExecuted.mk TEST_ACCOUNT sell 1000 10 3 990 986 986 1000990 999014.

Definition validSellEvents : list ProtocolEvent :=
  [ at_ "0xsell" 5 0 "sell-fee" (EvReflectionFeeCollected (ReflectionFeeCollected.mk "0xsell" 1000 10 100));
    at_ "0xsell" 5 1 "sell-index"
      (EvReflectionIndexAdvanced (ReflectionIndexAdvanced.mk 0 sellIndex sellRemainder 10 2999000));
    at_ "0xsell" 5 2 "sell-custody"
      (EvCustodySharesChanged (CustodySharesChanged.mk true 990 1000990 2999990));
    at_ "0xsell" 5 3 "sell-receipt" (EvSwapExecuted sellReceipt) ].

(** The core pays the three whole units pending for custody to the LP epoch. *)
Definition routeEvents : list ProtocolEvent :=
  [ at_ "0xroute-6" 6 0 "route-6"
      (EvCustodyRewardsRouted (CustodyRewardsRouted.mk CUSTODY_RESERVE LP_REWARD_VAULT 1 3 3));
    at_ "0xroute-6" 6 1 "lp-index-6"
      (EvLpRewardIndexAdvanced (LpRewardIndexAdvanced.mk 1 0 3000000000000000000 0 3 1000000 0)) ].

(** The wallet claims two of its units, the LP position its three. *)
Definition claimEvents : list ProtocolEvent :=
  [ at_ "0xclaim-7" 7 0 "claim-7-materialized"
      (EvRewardsMaterialized (RewardsMaterialized.mk TEST_ACCOUNT 2 2 None));
    at_ "0xclaim-7" 7 1 "claim-7"
      (EvRewardsClaimed (RewardsClaimed.mk TEST_ACCOUNT 2 2)) ].

Definition lpClaimEvents : list ProtocolEvent :=
  [ at_ "0xlp-claim-8" 8 0 "lp-claim-8" (EvLpRewardsClaimed (LpRewardsClaimed.mk 1 TEST_ACCOUNT 3 3)) ].

(** [cleanReplay]: the projection after the groups, if none raises an alert. *)
Fixpoint cleanReplay (prior : Proj.ProtocolProjection) (groups : list (list ProtocolEvent))
    : option Proj.ProtocolProjection :=
  match groups with
  | [] => Some prior
  | group :: rest =>
      match reduceEventGroup prior group with
      | Returns (Result.mk projection []) => cleanReplay projection rest
      | _ => None
      end
  end.

Definition bootstrapGroups : list (list ProtocolEvent) :=
  [initEvents; ammInitEvents; faucetEvents; seedEvents].
Definition allGroups : list (list ProtocolEvent) :=
  bootstrapGroups ++ [validSellEvents; routeEvents; claimEvents; lpClaimEvents].

Definition projectionAfter (groups : list (list ProtocolEvent)) : Proj.ProtocolProjection :=
  default createEmptyProjection (cleanReplay createEmptyProjection groups).

Definition seededProjection : Proj.ProtocolProjection := projectionAfter bootstrapGroups.
Definition soldProjection : Proj.ProtocolProjection := projectionAfter (bootstrapGroups ++ [validSellEvents]).
