(* ===== verification/ReducerTheorems.v ===== *)
(** * Properties of [reduceEventGroup] as a whole *)
From S2P Require Import Prelude JsMap Types MoveDomains Domains Accounting RewardBook Replay Group.
From S2P Require Import WalletHandlers LpHandlers PoolHandlers ConfigHandlers GroupChecks Reducer.
From S2P Require Import Ledger LedgerInvariant ReducerCorrect ReducerSpec.
From S2P Require Import Numerals CursorRoundTrip Frames Fixtures.

(** Projections some sequence of groups leads to, alerts or not. *)
Inductive Reachable : Proj.ProtocolProjection -> Prop :=
| Reachable_empty : Reachable createEmptyProjection
| Reachable_group p events r :
    Reachable p -> reduceEventGroup p events = Returns r -> Reachable r.(Result.projection).

(** ** Helpers *)

Lemma empty_sound : Sound createEmptyProjection.
Proof.
  split; [|split; [|split; [constructor|]]].
  - split; [repeat split; apply jsWf_empty|]. split; [by apply balanced_core|].
    split; [by repeat split|split; [constructor|split; constructor]].
  - exists 0. by vm_compute.
  - by apply assertProjectionMoveDomains_domains.
Qed.

Lemma reachable_is_sound p : Reachable p -> Sound p.
Proof.
  induction 1 as [|p events r Hp IH E]; [apply empty_sound|].
  eapply reduced_sound; [by apply reduceEventGroup_inv|done].
Qed.

(** Groups replayed without an alert lead to reachable projections. *)
Lemma cleanReplay_reachable groups : forall p q,
  Reachable p -> cleanReplay p groups = Some q -> Reachable q.
Proof.
  induction groups as [|g gs IH]; cbn; [by intros p q Hp [= <-]|]. intros p q Hp H.
  destruct (reduceEventGroup p g) as [[p' [|]]|] eqn:E; try discriminate.
  eapply IH; [|done]. exact (Reachable_group p g _ Hp E).
Qed.

Lemma seeded_reachable : Reachable seededProjection.
Proof.
  apply (cleanReplay_reachable bootstrapGroups createEmptyProjection); [constructor|by vm_compute].
Qed.

Lemma sold_reachable : Reachable soldProjection.
Proof.
  apply (cleanReplay_reachable (bootstrapGroups ++ [validSellEvents]) createEmptyProjection);
    [constructor|by vm_compute].
Qed.

(** The pending amounts the code computes are the holders' of the books. *)
Lemma wallet_pendings index ws xs :
  map (fun w => walletPending w index) ws = map Returns xs ->
  sumZ xs = sumZ (map (holderPending index) (map walletHolder ws)).
Proof.
  revert xs. induction ws as [|w ws IH]; intros [|x xs] H; try discriminate; [done|].
  injection H as Hx Hw. apply walletPending_iff in Hx as (_ & _ & _ & _ & ->).
  cbn. rewrite (IH _ Hw). done.
Qed.

Lemma lp_pendings epoch ps xs :
  map (fun position => lpPositionPending position epoch) ps = map Returns xs ->
  sumZ xs = sumZ (map (holderPending epoch.(LpEpoch.index)) (map lpHolder ps)).
Proof.
  revert xs. induction ps as [|p ps IH]; intros [|x xs] H; try discriminate; [done|].
  injection H as Hx Hw. apply lpPositionPending_iff in Hx as (_ & _ & _ & _ & ->).
  cbn. rewrite (IH _ Hw). done.
Qed.

(** ** Totality *)

(** C4. [reduceEventGroup] always returns a result: no exception leaves it,
    whatever the prior projection and whatever the events, although its
    group-level checks run outside the [try] block. *)
Theorem reduceEventGroup_total prior events :
  exists r, reduceEventGroup prior events = Returns r.
Proof. destruct (reduceEventGroup_reduced prior events) as (r & E & _). by exists r. Qed.

(** ** The books *)

(** C5. Double entry survives every group: from a projection whose books
    balance, the result's books balance too, whether the group was clean, raised
    alerts, or was rolled back.  In particular the global shares are the wallets'
    plus custody's, every LP epoch's totals are its positions', and the vault's
    payouts are what wallets materialized plus what custody routed. *)
Theorem reduceEventGroup_ledger prior events r :
  LedgerOk prior -> reduceEventGroup prior events = Returns r -> LedgerOk r.(Result.projection).
Proof. intros Hok H. by eapply reduced_ledger; [apply reduceEventGroup_inv|]. Qed.

Lemma reduceEventGroup_ledger_witness :
  exists r, reduceEventGroup seededProjection validSellEvents = Returns r /\ LedgerOk r.(Result.projection).
Proof.
  eexists. split; [vm_compute; reflexivity|].
  apply (reduceEventGroup_ledger seededProjection validSellEvents).
  - exact (proj1 (reachable_is_sound _ seeded_reachable)).
  - vm_compute; reflexivity.
Defined.

(** C3. Every projection a sequence of groups can lead to, with or without
    alerts, is sound: its books balance, the core vault is exactly liability plus
    unallocated fees plus a non-negative rounding reserve, every LP vault covers
    its liability and quarantine, and every field fits its Move width. *)
Theorem reachable_sound p : Reachable p -> Sound p.
Proof. apply reachable_is_sound. Qed.

Lemma reachable_sound_witness : Sound soldProjection.
Proof. apply reachable_sound. exact sold_reachable. Defined.

(** ** Solvency *)

(** C1. Core solvency: in a reachable projection, what every wallet and custody
    can still claim, together with the unallocated fees and the rounding reserve,
    is covered by the expected vault balance. *)
Theorem core_solvency p pendings custody vault :
  Reachable p ->
  map (fun w => walletPending w p.(Proj.currentIndex)) (jsValues p.(Proj.positions)) = map Returns pendings ->
  custodyPending p = Returns custody ->
  expectedCoreVaultBalance p = Returns vault ->
  sumZ pendings + custody + p.(Proj.unallocatedFees) + p.(Proj.roundingReserve) <= vault.
Proof.
  intros ((_ & Hb & _) & (liability & El & _ & _ & Ev) & _)%reachable_is_sound Hw Hc Hv.
  rewrite Ev in Hv. injection Hv as <-. apply coreIndexedLiability_book in El. subst.
  pose proof (balanced_solvent p Hb) as Hs.
  change (bookPending p) with
    (holderPending p.(Proj.currentIndex) (custodyHolder p.(Proj.custody))
     + sumZ (map (holderPending p.(Proj.currentIndex)) (map walletHolder (jsValues p.(Proj.positions))))) in Hs.
  rewrite <- (wallet_pendings _ _ _ Hw) in Hs.
  unfold custodyPending in Hc. outcome_inv. apply magnifiedEntitlement_iff in E as [_ ->]. checked_inv.
  unfold holderPending in Hs. cbn in Hs. lia.
Qed.

Lemma core_solvency_witness :
  sumZ [6] + 3 + soldProjection.(Proj.unallocatedFees) + soldProjection.(Proj.roundingReserve) <= 10.
Proof.
  apply (core_solvency soldProjection [6] 3 10).
  - exact sold_reachable.
  - vm_compute. reflexivity.
  - vm_compute. reflexivity.
  - vm_compute. reflexivity.
Defined.

(** C2. LP solvency: in every epoch of a reachable projection, what the
    positions can still claim and the quarantined rewards are covered by the
    epoch's expected vault balance. *)
Theorem lp_solvency p id epoch pendings vault :
  Reachable p -> jsGet id p.(Proj.lpEpochs) = Some epoch ->
  map (fun position => lpPositionPending position epoch) (jsValues epoch.(LpEpoch.positions))
    = map Returns pendings ->
  expectedLpVaultBalance epoch = Returns vault ->
  sumZ pendings + epoch.(LpEpoch.unallocatedRewards) <= vault.
Proof.
  intros (Hl & _ & He & _)%reachable_is_sound Hg Hw Hv.
  pose proof (ledger_epoch _ _ _ Hl Hg) as [[_ Hb] _].
  destruct (jsGet_Forall _ _ _ _ He Hg) as (liability & rounding & El & _ & Hr & Ev).
  rewrite Ev in Hv. injection Hv as <-. apply lpIndexedLiability_book in El. subst.
  pose proof (balanced_solvent epoch Hb) as Hs.
  change (bookPending epoch) with
    (sumZ (map (holderPending epoch.(LpEpoch.index)) (map lpHolder (jsValues epoch.(LpEpoch.positions))))) in Hs.
  rewrite <- (lp_pendings _ _ _ Hw) in Hs. lia.
Qed.

Lemma lp_solvency_witness :
  exists epoch, jsGet 1 soldProjection.(Proj.lpEpochs) = Some epoch
    /\ sumZ [0] + epoch.(LpEpoch.unallocatedRewards) <= 0.
Proof.
  eexists. split; [vm_compute; reflexivity|].
  eapply (lp_solvency soldProjection 1 _ [0] 0).
  - exact sold_reachable.
  - vm_compute; reflexivity.
  - vm_compute. reflexivity.
  - vm_compute; reflexivity.
Defined.

(** ** Clean groups *)

(** A clean group leaves a coherent projection: the registry's count, its
    distinct stores and its exclusion of protocol accounts; a registration behind
    every position and every positive LP position; the pool's tRFL reserve equal
    to custody's shares; the active route bound to its epoch's vault; and every
    LP epoch's vault exactly liability, quarantine and rounding, with a terminal
    classification precisely when it is claim-only. *)
Theorem clean_group_coherent prior events p :
  reduceEventGroup prior events = Returns (Result.mk p []) -> events <> [] -> Coherent p.
Proof.
  intros H%reduceEventGroup_inv Hne.
  destruct (reduced_clean _ _ _ H) as (first & rest & checked & applied & _ & _ & _ & _ & _ & Hr & Hn & ->);
    [by intros ?%sortByIndex_nil|].
  exact (replayGroup_coherent _ _ _ _ Hr Hn).
Qed.

Lemma clean_group_coherent_witness : Coherent soldProjection.
Proof.
  apply (clean_group_coherent seededProjection validSellEvents); [vm_compute; reflexivity|discriminate].
Defined.

(** What a clean group looks like: every event in its Move domain, one
    ledger version and one transaction hash, indices strictly increasing,
    identifiers distinct and none of them seen before. *)
Theorem clean_group_headers prior events p :
  reduceEventGroup prior events = Returns (Result.mk p []) -> events <> [] ->
  EventDomains events
  /\ (forall e e', e ∈ events -> e' ∈ events ->
        evLedger e = evLedger e' /\ e.(base).(Base.txHash) = e'.(base).(Base.txHash))
  /\ IncreasingFrom (-1) (sortByIndex events)
  /\ NoDup (map evId events)
  /\ Forall (fun e => jsHas (evId e) prior.(Proj.seenEventIds) = false) events.
Proof.
  intros H Hne. destruct (clean_headers _ _ _ H Hne) as (first & rest & E & D & T & I & F & N & _).
  unfold EventDomains in *. rewrite sortByIndex_perm in D, T, F, N.
  split; [done|split; [|split; [done|split; [done|]]]].
  - intros e e' He He'. rewrite Forall_forall in T || rewrite List.Forall_forall in T.
    apply list_elem_of_In in He, He'. destruct (T e He) as [-> ->]. by destruct (T e' He') as [-> ->].
  - eapply Forall_impl; [|exact F]. intros e He. unfold jsHas. cbv beta in He. by rewrite He.
Qed.

Lemma clean_group_headers_witness : NoDup (map evId validSellEvents).
Proof.
  apply (clean_group_headers seededProjection validSellEvents soldProjection);
    [vm_compute; reflexivity|discriminate].
Defined.

(** Replay protection: a group that contains an event already replayed
    raises an alert. *)
Theorem replayed_event_rejected prior events r event :
  reduceEventGroup prior events = Returns r -> event ∈ events ->
  jsHas (evId event) prior.(Proj.seenEventIds) = true -> r.(Result.alerts) <> [].
Proof.
  intros H Hin Hseen Hr. destruct r as [p alerts]. cbn in Hr. subst.
  destruct (clean_headers _ _ _ H) as (first & rest & _ & _ & _ & _ & F & _).
  { intros ->. inversion Hin. }
  rewrite sortByIndex_perm in F. rewrite List.Forall_forall in F.
  apply list_elem_of_In in Hin. specialize (F _ Hin). cbv beta in F.
  unfold jsHas in Hseen. by rewrite F in Hseen.
Qed.

Lemma replayed_event_rejected_witness :
  exists r, reduceEventGroup soldProjection validSellEvents = Returns r /\ r.(Result.alerts) <> [].
Proof.
  eexists. split; [vm_compute; reflexivity|].
  eapply (replayed_event_rejected soldProjection validSellEvents).
  - vm_compute; reflexivity.
  - left.
  - vm_compute; reflexivity.
Defined.

(** C36. Delivery order does not matter: two deliveries of the same events, with
    distinct event indices, reduce to the same projection and the same alerts. *)
Theorem delivery_order_irrelevant prior events events' :
  events ≡ₚ events' -> NoDup (map evIndex events) ->
  reduceEventGroup prior events = reduceEventGroup prior events'.
Proof. intros Hp Hn. unfold reduceEventGroup. by rewrite (sortByIndex_arrival _ _ Hp Hn). Qed.

Lemma delivery_order_irrelevant_witness :
  reduceEventGroup seededProjection validSellEvents = reduceEventGroup seededProjection (rev validSellEvents).
Proof.
  apply delivery_order_irrelevant; [apply Permutation_rev|].
  vm_compute. repeat (constructor; [rewrite ?not_elem_of_cons, ?elem_of_nil; naive_solver|]). constructor.
Defined.

(** ** Seen identifiers and rollback *)

#[local] Arguments cloneProjection _ : simpl never.

Lemma foldl_seen_keys events : forall seen,
  NoDup (map evId events) -> Forall (fun e => jsGet (evId e) seen = None) events ->
  foldl (fun seen event => jsSet (evId event) (cursorText event.(base)) seen) seen events
  = seen ++ map (fun event => (evId event, cursorText event.(base))) events.
Proof.
  induction events as [|e events IH]; intros seen Hn Hf; [by rewrite app_nil_r|].
  inversion Hn as [|?? Hx Hn']; inversion Hf as [|?? He Hf']; subst. cbn [foldl map].
  assert (Hnin : evId e ∉ jsKeys seen).
  { apply jsHas_false. unfold jsHas. by rewrite He. }
  rewrite IH; [|done|].
  - rewrite (jsSet_append _ _ _ Hnin), <- app_assoc. done.
  - apply List.Forall_forall. intros e' Hin. rewrite List.Forall_forall in Hf'.
    rewrite jsGet_set_ne; [by apply Hf'|]. intros E. apply Hx. rewrite E.
    apply list_elem_of_fmap. exists e'. by rewrite list_elem_of_In.
Qed.

(** A clean group extends the seen identifiers by exactly its events, in
    replay order, each with its [ledger:index] cursor; the handlers never touch
    the earlier entries. *)
Theorem clean_group_seen prior events p :
  LedgerOk prior -> reduceEventGroup prior events = Returns (Result.mk p []) ->
  p.(Proj.seenEventIds)
  = prior.(Proj.seenEventIds)
    ++ map (fun event => (evId event, cursorText event.(base))) (sortByIndex events).
Proof.
  intros Hl H. destruct (decide (events = [])) as [->|Hne].
  { injection H as <-. by rewrite app_nil_r. }
  apply reduceEventGroup_inv in H.
  destruct (reduced_clean _ _ _ H) as (first & rest & checked & applied & E & _ & Hv & Hc & _ & Hr & _ & ->);
    [by intros ?%sortByIndex_nil|].
  cbn. rewrite (replayGroup_seen _ _ _ _ _ Hr), (reads _ _ _ Hc). cbn. rewrite (clone_id _ Hl).
  destruct Hv as (_ & _ & _ & Hs & Hn & _). by apply foldl_seen_keys.
Qed.

Lemma clean_group_seen_witness :
  map fst (drop (length seededProjection.(Proj.seenEventIds)) soldProjection.(Proj.seenEventIds))
  = ["sell-fee"; "sell-index"; "sell-custody"; "sell-receipt"].
Proof.
  rewrite (clean_group_seen seededProjection validSellEvents soldProjection).
  - vm_compute. reflexivity.
  - exact (proj1 (reachable_is_sound _ seeded_reachable)).
  - vm_compute. reflexivity.
Defined.

(** C34. A group is atomic.  Either it changes nothing and says why; or an
    exception in its replay takes every write back, the seen identifiers alone
    remembering the attempt, under a final [EVENT_DATA] alert; or all of it was
    replayed to the end. *)
Theorem group_atomic prior events r :
  LedgerOk prior -> reduceEventGroup prior events = Returns r ->
  r.(Result.projection) = prior /\ (events = [] \/ r.(Result.alerts) <> [])
  \/ r.(Result.projection) = markSeen (sortByIndex events) prior
     /\ (exists alerts a, r.(Result.alerts) = alerts ++ [a] /\ a.(Alert.code) = EVENT_DATA)
  \/ exists first checked applied,
       head (sortByIndex events) = Some first /\ checked.(Ctx.next) = prior
       /\ replayGroup (Group.mk prior (sortByIndex events)) first checked = (Returns tt, applied)
       /\ r = Result.mk (markSeen (sortByIndex events) applied.(Ctx.next)) applied.(Ctx.alerts).
Proof.
  intros Hl H%reduceEventGroup_inv. remember (sortByIndex events) as sorted eqn:Es.
  destruct H as [|first rest alerts Hd|first rest alerts error|first rest checked applied events' headers _ _ _ Hc Hr]; cbn.
  - left. split; [done|left]. by apply sortByIndex_nil.
  - left. split; [done|right]. by destruct alerts.
  - right; left. rewrite (clone_id _ Hl). split; [done|]. by eexists _, _.
  - right; right. exists first, checked, applied. split; [done|split; [|done]].
    rewrite (reads _ _ _ Hc). cbn. by rewrite clone_id.
Qed.

(** Two units more than the wallet holds are debited: the replay throws. *)
Definition overdraftEvents : list ProtocolEvent :=
  [ at_ "0xover" 6 0 "overdraft" (EvEligibleBalanceDebited (EligibleBalanceDebited.mk TEST_ACCOUNT 1999002)) ].

Lemma group_atomic_witness :
  exists r, reduceEventGroup soldProjection overdraftEvents = Returns r
    /\ exists alerts a, r.(Result.alerts) = alerts ++ [a] /\ a.(Alert.code) = EVENT_DATA.
Proof.
  eexists. assert (H : reduceEventGroup soldProjection overdraftEvents = Returns ?[r]) by (vm_compute; reflexivity).
  split; [exact H|].
  destruct (group_atomic soldProjection overdraftEvents _
    (proj1 (reachable_is_sound _ sold_reachable)) H) as [[_ [[=]|_]]|[[_ Hlast]|_]];
    [eexists [], _; split; reflexivity|exact Hlast|eexists [], _; split; reflexivity].
Defined.

(** ** Properties of the Move domains and of the seen-event cursors *)

(** The checked operations are exact integer arithmetic with Move's aborts:
    each returns the mathematical result, and it returns at all exactly when the
    operands and that result fit their Move type. *)
Theorem checked_arithmetic_exact left right label x :
  (checkedMoveU256Add left right label = Returns x
     <-> x = left + right /\ fitsUnsigned U256 left /\ fitsUnsigned U256 right /\ fitsUnsigned U256 x)
  /\ (checkedMoveU256Subtract left right label = Returns x
     <-> x = left - right /\ fitsUnsigned U256 left /\ fitsUnsigned U256 right /\ fitsUnsigned U256 x)
  /\ (checkedMoveU256Multiply left right label = Returns x
     <-> x = left * right /\ fitsUnsigned U256 left /\ fitsUnsigned U256 right /\ fitsUnsigned U256 x)
  /\ (applyMoveSignedU256 left right label = Returns x
     <-> x = left + right /\ fitsUnsigned U256 left /\ fitsSignedU256 right /\ fitsUnsigned U256 x).
Proof.
  rewrite checkedMoveU256Add_iff, checkedMoveU256Subtract_iff, checkedMoveU256Multiply_iff,
    applyMoveSignedU256_iff.
  split; [|split; [|split]]; naive_solver.
Qed.

(** The cursor a replayed event leaves behind reads back: whenever an event
    passes the base checks, the [ledger:index] text written for it parses to its
    ledger version and index, and the projection check accepts it.  So two events
    with the same text are at the same position. *)
Theorem seen_cursor_roundtrip b b' :
  assertBase b = Returns tt -> assertBase b' = Returns tt ->
  parseSeenCursor (cursorText b) = Some (b.(Base.ledgerVersion), b.(Base.eventIndex))
  /\ assertSeenCursor (cursorText b) = Returns tt
  /\ (cursorText b = cursorText b' ->
      b.(Base.ledgerVersion) = b'.(Base.ledgerVersion) /\ b.(Base.eventIndex) = b'.(Base.eventIndex)).
Proof.
  assert (Hparse : forall e, assertBase e = Returns tt ->
    parseSeenCursor (cursorText e) = Some (e.(Base.ledgerVersion), e.(Base.eventIndex))).
  { intros e He. apply assertBase_ordinals in He as [Hl Hi]. unfold cursorText. unfold fitsUnsigned in *. cbn in *.
    apply parseSeenCursor_show; unfold MAX_SAFE_INTEGER in *; lia. }
  intros Hb Hb'. split; [by apply Hparse|split; [by apply assertSeenCursor_iff, seenCursor_base|]].
  intros E. pose proof (Hparse b Hb) as P. rewrite E, (Hparse b' Hb') in P. by injection P as -> ->.
Qed.

Lemma seen_cursor_roundtrip_witness :
  parseSeenCursor "5:3" = Some (5, 3) /\ assertSeenCursor "5:3" = Returns tt.
Proof.
  destruct (seen_cursor_roundtrip (at_ "0xsell" 5 3 "sell-receipt" (EvSwapExecuted sellReceipt)).(base)
    (at_ "0xsell" 5 3 "sell-receipt" (EvSwapExecuted sellReceipt)).(base)) as (Hp & Ha & _).
  - vm_compute. reflexivity.
  - vm_compute. reflexivity.
  - split; [exact Hp|exact Ha].
Defined.
