(* ===== verification/WalletTheorems.v ===== *)
(** * Properties of the wallet handlers *)
From S2P Require Import Prelude JsMap Types MoveDomains Domains Accounting RewardBook Replay Group.
From S2P Require Import WalletHandlers LpHandlers PoolHandlers ConfigHandlers Ledger GroupChecks Reducer.
From S2P Require Import LedgerInvariant ReducerCorrect ReducerSpec Fixtures.

(** What an account has accrued at the current index, claims included. *)
Definition accruedOf (account : Address) (p : Proj.ProtocolProjection) : Z :=
  walletAccrued p.(Proj.currentIndex) (positionOrEmpty account p.(Proj.positions)).

(** Raw balance plus what is still pending. *)
Definition effectiveBalance (account : Address) (p : Proj.ProtocolProjection) : Z :=
  let w := positionOrEmpty account p.(Proj.positions) in
  w.(Wallet.rawTrfl) + (accruedOf account p - w.(Wallet.claimed)).

Lemma positionOrEmpty_set a b w m :
  positionOrEmpty a (jsSet b w m) = if decide (a = b) then w else positionOrEmpty a m.
Proof.
  unfold positionOrEmpty. case_decide as E; [by rewrite E, jsGet_set_eq|by rewrite jsGet_set_ne].
Qed.

Lemma reweighed_accrued delta index w : walletAccrued index (reweighed delta index w) = walletAccrued index w.
Proof. unfold walletAccrued. apply accrued_weight_change. Qed.

(** [adjustWalletAsset], when it returns, performs exactly the abstract
    transition: the tUSD balance alone, or the tRFL weight with the correction,
    the global shares and the aggregate correction moved together.  It raises no
    alert, moves nobody's accrued reward, leaves every other wallet alone, and
    never makes the balance it changes negative. *)
Theorem adjustWalletAsset_refines account asset delta b c c' :
  adjustWalletAsset account asset delta b c = (Returns tt, c') ->
  let p := c.(Ctx.next) in
  let p' := c'.(Ctx.next) in
  c' = c <| Ctx.next := adjusted account asset delta p |>
  /\ (forall a, accruedOf a p' = accruedOf a p)
  /\ (forall a, a <> account ->
        positionOrEmpty a p'.(Proj.positions) = positionOrEmpty a p.(Proj.positions))
  /\ 0 <= match asset with
          | tRFL => (positionOrEmpty account p'.(Proj.positions)).(Wallet.rawTrfl)
          | tUSD => (positionOrEmpty account p'.(Proj.positions)).(Wallet.rawTusd)
          end.
Proof.
  intros [-> Hn]%adjustWalletAsset_returns. cbv zeta.
  change (Ctx.next (c <| Ctx.next := ?x |>)) with x.
  split; [done|split; [|split]].
  - intros a. unfold accruedOf. destruct asset; unfold adjusted, weighWallet, depositUsd; cbn;
      rewrite positionOrEmpty_set; case_decide; subst; [by rewrite reweighed_accrued|done..].
  - intros a Ha. destruct asset; unfold adjusted, weighWallet, depositUsd; cbn;
      rewrite positionOrEmpty_set; by rewrite decide_False.
  - destruct asset; unfold adjusted, weighWallet, depositUsd; cbn;
      rewrite positionOrEmpty_set, decide_True by done; done.
Qed.

Definition soldContext : Ctx.MutableContext :=
  Ctx.mk soldProjection [] (at_ "0x1" 6 0 "probe" (EvUnknown "probe")) [] [] false.

Lemma adjustWalletAsset_refines_witness :
  exists c', adjustWalletAsset TEST_ACCOUNT tRFL (-500) soldContext.(Ctx.first).(base) soldContext = (Returns tt, c')
    /\ accruedOf TEST_ACCOUNT c'.(Ctx.next) = accruedOf TEST_ACCOUNT soldContext.(Ctx.next).
Proof.
  eexists. assert (H : adjustWalletAsset TEST_ACCOUNT tRFL (-500) soldContext.(Ctx.first).(base) soldContext
    = (Returns tt, ?[c'])) by (vm_compute; reflexivity).
  split; [exact H|]. destruct (adjustWalletAsset_refines _ _ _ _ _ _ H) as (_ & Ha & _).
  exact (Ha TEST_ACCOUNT).
Defined.

Lemma materializeWallet_clean b e c c' :
  materializeWallet b e c = (Returns tt, c') -> c'.(Ctx.alerts) = [] ->
  let account := e.(RewardsMaterialized.account) in
  let amount := e.(RewardsMaterialized.amount) in
  let before := positionOrEmpty account c.(Ctx.next).(Proj.positions) in
  amount <= accruedOf account c.(Ctx.next) - before.(Wallet.claimed)
  /\ before.(Wallet.claimed) + amount = e.(RewardsMaterialized.totalClaimed).
Proof.
  unfold materializeWallet. intros H Hn. repeat clean_step. bools.
  match goal with E : walletPending _ _ = Returns _ |- _ => apply walletPending_iff in E as (_ & _ & _ & _ & ->) end.
  match goal with E : adjustWalletAsset _ _ _ _ _ = _ |- _ => apply adjustWalletAsset_returns in E as [-> _] end.
  cbn in *. checked_inv. cbv zeta. unfold accruedOf. rewrite positionOrEmpty_set, decide_True in * by done.
  cbn in *. lia.
Qed.

(** The position a materialization leaves. *)
Lemma settled_position account amount p :
  positionOrEmpty account (settleWallet account amount (weighWallet account amount p)).(Proj.positions)
  = let w := reweighed amount p.(Proj.currentIndex) (positionOrEmpty account p.(Proj.positions)) in
    w <| Wallet.claimed := w.(Wallet.claimed) + amount |>
      <| Wallet.lifetimeMaterialized := w.(Wallet.lifetimeMaterialized) + amount |>.
Proof. unfold settleWallet, weighWallet. cbn. by rewrite !positionOrEmpty_set, !decide_True by done. Qed.

Lemma settled_accrued account amount p :
  accruedOf account (settleWallet account amount (weighWallet account amount p)) = accruedOf account p.
Proof. unfold accruedOf. rewrite settled_position. exact (reweighed_accrued amount _ _). Qed.

(** Materializing a reward without an alert converts pending reward into
    raw balance one for one: the account's effective balance is unchanged, the
    amount is positive and was pending, every other wallet is untouched, and the
    vault's payouts and the lifetime total grow by exactly the amount. *)
Theorem materializeWallet_effective b e c c' :
  materializeWallet b e c = (Returns tt, c') -> c'.(Ctx.alerts) = [] ->
  let account := e.(RewardsMaterialized.account) in
  let amount := e.(RewardsMaterialized.amount) in
  let p := c.(Ctx.next) in
  let p' := c'.(Ctx.next) in
  0 < amount
  /\ amount <= accruedOf account p - (positionOrEmpty account p.(Proj.positions)).(Wallet.claimed)
  /\ effectiveBalance account p' = effectiveBalance account p
  /\ (positionOrEmpty account p'.(Proj.positions)).(Wallet.rawTrfl)
     = (positionOrEmpty account p.(Proj.positions)).(Wallet.rawTrfl) + amount
  /\ (positionOrEmpty account p'.(Proj.positions)).(Wallet.claimed) = e.(RewardsMaterialized.totalClaimed)
  /\ (forall a, a <> account ->
        positionOrEmpty a p'.(Proj.positions) = positionOrEmpty a p.(Proj.positions))
  /\ p'.(Proj.rewardVaultPayouts) = p.(Proj.rewardVaultPayouts) + amount
  /\ p'.(Proj.lifetimeMaterialized) = p.(Proj.lifetimeMaterialized) + amount.
Proof.
  intros H Hn. pose proof (materializeWallet_returns _ _ _ _ _ H) as [Hpos Ep].
  pose proof (materializeWallet_clean _ _ _ _ H Hn) as [Hle Htotal].
  cbv zeta in *. rewrite Ep. unfold effectiveBalance. rewrite settled_accrued, settled_position. cbn.
  repeat split; [lia..|]. intros a Ha. by rewrite !positionOrEmpty_set, !decide_False.
Qed.

Lemma materializeWallet_effective_witness :
  exists c', materializeWallet soldContext.(Ctx.first).(base) (RewardsMaterialized.mk TEST_ACCOUNT 2 2 None) soldContext
      = (Returns tt, c')
    /\ effectiveBalance TEST_ACCOUNT c'.(Ctx.next) = effectiveBalance TEST_ACCOUNT soldContext.(Ctx.next).
Proof.
  eexists. assert (H : materializeWallet soldContext.(Ctx.first).(base)
    (RewardsMaterialized.mk TEST_ACCOUNT 2 2 None) soldContext = (Returns tt, ?[c'])) by (vm_compute; reflexivity).
  split; [exact H|].
  destruct (materializeWallet_effective _ _ _ _ H) as (_ & _ & Ha & _); [reflexivity|]. exact Ha.
Defined.
