(* ===== verification/PoolTheorems.v ===== *)
(** * Properties of the pool handlers: swaps, fees, indices, routes, liquidity *)
From S2P Require Import Prelude JsMap Types MoveDomains Domains Accounting RewardBook Replay Group.
From S2P Require Import WalletHandlers LpHandlers PoolHandlers ConfigHandlers Ledger GroupChecks.
From S2P Require Import LiquidityMath Reducer SdkTypes QuoteSpec LedgerInvariant Numerals CursorRoundTrip ReducerCorrect.
From S2P Require Import ReducerSpec LiquidityChecks Frames Fixtures ReducerTheorems.
From S2P Require Import WalletTheorems.

(** The product of the reserves. *)
Definition poolProduct (p : Pool.IndexedPool) : Z := p.(Pool.trflReserve) * p.(Pool.tusdReserve).

#[local] Arguments bigintDivide _ _ : simpl never.
#[local] Arguments bpsOf _ _ : simpl never.

(** ** Helpers *)

(** Integer division conserves: quotient times divisor plus remainder. *)
Lemma divide_step numerator shares index :
  0 <= numerator -> 0 < shares ->
  numerator = (index + numerator / shares - index) * shares + numerator mod shares
  /\ 0 <= numerator mod shares < shares /\ index <= index + numerator / shares.
Proof.
  intros Hn Hs. pose proof (Z.div_mod numerator shares ltac:(lia)).
  pose proof (Z.mod_pos_bound numerator shares Hs). pose proof (Z.div_pos numerator shares Hn Hs). lia.
Qed.

(** Settling wallets leaves the pool and the fee alone. *)
Definition poolAndFee (p : Proj.ProtocolProjection) : Pool.IndexedPool * Z :=
  (p.(Proj.pool), p.(Proj.feeBps)).

Lemma poolAndFee_inv p q : poolAndFee p = poolAndFee q ->
  p.(Proj.pool) = q.(Proj.pool) /\ p.(Proj.feeBps) = q.(Proj.feeBps).
Proof. by intros [= -> ->]. Qed.

Lemma debit_poolAndFee b e c u c' :
  debitSellOnce b e c = (Returns u, c') -> poolAndFee c'.(Ctx.next) = poolAndFee c.(Ctx.next).
Proof. revert c u c'. change (Frames poolAndFee (debitSellOnce b e)). solve_frames. Qed.

Lemma settle_poolAndFee b (isSell : bool) account d1 d2 d3 c u c' :
  (if isSell then adjustWalletAsset account tUSD d1 b
   else adjustWalletAsset account tUSD d2 b ;; adjustWalletAsset account tRFL d3 b) c = (Returns u, c') ->
  poolAndFee c'.(Ctx.next) = poolAndFee c.(Ctx.next).
Proof.
  revert c u c'. change (Frames poolAndFee (if isSell then adjustWalletAsset account tUSD d1 b
   else adjustWalletAsset account tUSD d2 b ;; adjustWalletAsset account tRFL d3 b)). solve_frames.
Qed.

(** ** Swaps *)

(** The movements of the wallet in [onSwapExecuted]. *)
Definition settleWallet (b : Base.EventBase) (e : SwapExecuted.SwapExecutedEvent) : Replay unit :=
  debitSellOnce b e ;;
  if bool_decide (e.(SwapExecuted.direction) = sell)
  then adjustWalletAsset e.(SwapExecuted.account) tUSD e.(SwapExecuted.netUserReceipt) b
  else adjustWalletAsset e.(SwapExecuted.account) tUSD (- e.(SwapExecuted.grossAmount)) b ;;
       adjustWalletAsset e.(SwapExecuted.account) tRFL e.(SwapExecuted.netUserReceipt) b.

(** The terms a receipt reports, against the pool and the fee it is replayed on. *)
Definition reportedTerms (p : Proj.ProtocolProjection) (e : SwapExecuted.SwapExecutedEvent) : Terms.SwapTerms :=
  let pool := p.(Proj.pool) in
  let '(input, output) := match e.(SwapExecuted.direction) with
                          | sell => (pool.(Pool.trflReserve), pool.(Pool.tusdReserve))
                          | buy => (pool.(Pool.tusdReserve), pool.(Pool.trflReserve))
                          end in
  Terms.mk p.(Proj.feeBps) pool.(Pool.ammFeeBps) input output e.(SwapExecuted.grossAmount) e.(SwapExecuted.reflectionFee)
    e.(SwapExecuted.ammFee) e.(SwapExecuted.netReserveInput) e.(SwapExecuted.grossPoolOutput) e.(SwapExecuted.netUserReceipt).

(** The net input went in and the gross output came out. *)
Definition ReservesMoved (pool : Pool.IndexedPool) (e : SwapExecuted.SwapExecutedEvent) : Prop :=
  match e.(SwapExecuted.direction) with
  | sell => e.(SwapExecuted.trflReserveAfter) = pool.(Pool.trflReserve) + e.(SwapExecuted.netReserveInput)
            /\ e.(SwapExecuted.tusdReserveAfter) = pool.(Pool.tusdReserve) - e.(SwapExecuted.grossPoolOutput)
  | buy => e.(SwapExecuted.tusdReserveAfter) = pool.(Pool.tusdReserve) + e.(SwapExecuted.netReserveInput)
           /\ e.(SwapExecuted.trflReserveAfter) = pool.(Pool.trflReserve) - e.(SwapExecuted.grossPoolOutput)
  end.

(** The reserves are those of the receipt. *)
Definition swapped (e : SwapExecuted.SwapExecutedEvent) (c : Ctx.MutableContext) : Ctx.MutableContext :=
  c <| Ctx.next := c.(Ctx.next) <| Proj.pool := c.(Ctx.next).(Proj.pool)
    <| Pool.trflReserve := e.(SwapExecuted.trflReserveAfter) |>
    <| Pool.tusdReserve := e.(SwapExecuted.tusdReserveAfter) |> |> |>.

(** What the receipt is compared with. *)
Definition QuotedAs (e : SwapExecuted.SwapExecutedEvent) (quote : Quote.SwapQuote) : Prop :=
  e.(SwapExecuted.reflectionFee) = quote.(Quote.expectedReflectionFee)
  /\ e.(SwapExecuted.netReserveInput) = quote.(Quote.expectedReserveInput)
  /\ e.(SwapExecuted.ammFee) = quote.(Quote.expectedAmmFee)
  /\ e.(SwapExecuted.grossPoolOutput) = quote.(Quote.expectedGrossOutput)
  /\ e.(SwapExecuted.netUserReceipt) = quote.(Quote.expectedNetReceipt)
  /\ e.(SwapExecuted.trflReserveAfter) = quote.(Quote.expectedTrflReserve)
  /\ e.(SwapExecuted.tusdReserveAfter) = quote.(Quote.expectedTusdReserve).

Lemma settleWallet_poolAndFee b e c u c1 :
  settleWallet b e c = (Returns u, c1) -> poolAndFee c1.(Ctx.next) = poolAndFee c.(Ctx.next).
Proof. intros (u' & c2 & E1%debit_poolAndFee & E2%settle_poolAndFee)%bind_returns. congruence. Qed.

(** A receipt is accepted when the wallets settle and it is as quoted. *)
Lemma onSwapExecuted_clean b e c c' :
  onSwapExecuted b e c = (Returns tt, c') /\ c'.(Ctx.alerts) = []
  <-> exists c1 quote, settleWallet b e c = (Returns tt, c1) /\ c1.(Ctx.alerts) = []
        /\ quoteSwapReceipt c1.(Ctx.next) e = Returns quote /\ QuotedAs e quote /\ c' = swapped e c1.
Proof.
  split.
  - intros [H Hn]. unfold onSwapExecuted in H.
    apply bind_clean in H as ([] & c1 & E1 & Hn1 & H); [|done|intros; solve_mono].
    apply bind_clean in H as ([] & c2 & E2 & Hn2 & H); [|done|intros; solve_mono].
    assert (Hw : settleWallet b e c = (Returns tt, c2)) by (unfold settleWallet, mbind, replay_bind in *; by rewrite E1).
    clear E1 E2. exists c2. clean_inv. repeat match goal with H : ~ (_ <> _) |- _ => apply dec_stable in H end.
    eexists. do 3 (split; [done|]). by repeat split.
  - intros (c1 & quote & Hw & Hn & Hq & (E1 & E2 & E3 & E4 & E5 & E6 & E7) & ->). split; [|exact Hn].
    unfold settleWallet, onSwapExecuted in *. apply bind_returns in Hw as ([] & c2 & Ed & Es). unfold mbind, replay_bind in *. rewrite Ed.
    rewrite Es. cbn. rewrite Hq, E1, E2, E3, E4, E5, E6, E7. rewrite !bool_decide_false by (by intros []). cbn. rewrite !app_nil_r.
    unfold swapped. by rewrite E6, E7.
Qed.

(** As quoted is on the curve, with the reserves moved. *)
Lemma quoted_on_curve p e :
  InRange (reportedTerms p e) ->
  (exists quote, quoteSwapReceipt p e = Returns quote /\ QuotedAs e quote)
  <-> OnCurve e.(SwapExecuted.direction) (reportedTerms p e) /\ ReservesMoved p.(Proj.pool) e.
Proof.
  intros Hr. rewrite onCurve_settle by done. unfold QuotedAs, ReservesMoved, quoteSwapReceipt, settleSwap.
  destruct e as [account dir gross rf af net out receipt trfl tusd]. unfold InRange, reportedTerms in *. cbn in *.
  destruct p as [], pool as []. destruct dir; cbn in *; destruct Hr as (Hf & Ha & Hx & Hy & Hg).
  - rewrite (bool_decide_false (buy = sell)) by done. pose proof (bpsOf_le gross (BPS_DENOMINATOR - ammFeeBps) Hg ltac:(lia)) as Ht.
    rewrite bigintDivide_pos by lia. cbn. split.
    + intros (quote & [= <-] & H). cbn in H. destruct H as (-> & -> & -> & -> & -> & -> & ->). done.
    + intros [[= -> -> -> -> ->] [-> ->]]. eexists. split; [reflexivity|]. cbn. repeat split; done || lia.
  - rewrite (bool_decide_true (sell = sell)) by done. pose proof (bpsOf_le gross feeBps Hg Hf) as Hfee.
    pose proof (bpsOf_le (gross - bpsOf gross feeBps) (BPS_DENOMINATOR - ammFeeBps) ltac:(lia) ltac:(lia)) as Ht. split.
    + intros (quote & Hq & H). destruct (bigintDivide _ _) as [q|] eqn:Eq; [|done]. injection Hq as <-. cbn in H.
      destruct H as (-> & -> & -> & -> & -> & -> & ->). rewrite bigintDivide_pos in Eq by lia. injection Eq as <-. done.
    + intros [[= -> -> -> -> ->] [-> ->]]. rewrite bigintDivide_pos by lia. eexists. split; [reflexivity|]. cbn. repeat split; done || lia.
Qed.

(** The product of the reserves does not fall, and no more is paid than there is. *)
Lemma onCurve_conserves direction t :
  InRange t -> OnCurve direction t ->
  0 <= t.(Terms.grossPoolOutput) <= t.(Terms.outputReserve)
  /\ t.(Terms.inputReserve) * t.(Terms.outputReserve)
     <= (t.(Terms.inputReserve) + t.(Terms.netReserveInput)) * (t.(Terms.outputReserve) - t.(Terms.grossPoolOutput)).
Proof.
  intros Hr H. pose proof H as E. rewrite onCurve_settle in E by done. destruct Hr as (Hf & Ha & Hx & Hy & Hg).
  destruct (settle_traded direction _ _ t.(Terms.inputReserve) t.(Terms.outputReserve) _ Hf Ha Hg) as [Ht _]. rewrite <- E in Ht.
  destruct H as [_ [Hlow Hhigh] _]. set (traded := Terms.netReserveInput t - Terms.ammFee t) in *.
  set (x := Terms.inputReserve t) in *. set (y := Terms.outputReserve t) in *. set (out := Terms.grossPoolOutput t) in *.
  assert (0 <= y - out) by nia. assert (0 <= out) by nia. split; [lia|].
  assert ((x + traded) * (y - out) <= (x + Terms.netReserveInput t) * (y - out)) by (apply Z.mul_le_mono_nonneg_r; lia). lia.
Qed.

(** C37. A swap receipt replays without an alert exactly when the wallets settle
    without one, the receipt is on the constant-product curve and the reserves
    moved by its net input and gross output.  On the curve: the AMM fee leaves the
    floor of its complement to be traded, the output is the greatest that does not
    let the product of the reserves fall, the reflection fee is the floor of its
    share of the tRFL leg, a sell's gross amount is that fee and the net input, and
    a buy's output is that fee and what the account receives.  So the reserves never
    lose: the product does not fall, and no more is paid than there is. *)
Theorem swap_settles_on_curve b e c c' :
  let p := c.(Ctx.next) in
  let terms := reportedTerms p e in
  InRange terms ->
  (onSwapExecuted b e c = (Returns tt, c') /\ c'.(Ctx.alerts) = []
   <-> OnCurve e.(SwapExecuted.direction) terms /\ ReservesMoved p.(Proj.pool) e
       /\ exists c1, settleWallet b e c = (Returns tt, c1) /\ c1.(Ctx.alerts) = [] /\ c' = swapped e c1)
  /\ (onSwapExecuted b e c = (Returns tt, c') -> c'.(Ctx.alerts) = [] ->
      poolProduct p.(Proj.pool) <= poolProduct c'.(Ctx.next).(Proj.pool)
      /\ 0 <= e.(SwapExecuted.grossPoolOutput) <= terms.(Terms.outputReserve)).
Proof.
  cbv zeta. intros Hr. assert (Hexact : onSwapExecuted b e c = (Returns tt, c') /\ c'.(Ctx.alerts) = []
    <-> OnCurve e.(SwapExecuted.direction) (reportedTerms c.(Ctx.next) e) /\ ReservesMoved c.(Ctx.next).(Proj.pool) e
        /\ exists c1, settleWallet b e c = (Returns tt, c1) /\ c1.(Ctx.alerts) = [] /\ c' = swapped e c1).
  { assert (Hquote : forall c1, settleWallet b e c = (Returns tt, c1) ->
      quoteSwapReceipt c1.(Ctx.next) e = quoteSwapReceipt c.(Ctx.next) e).
    { intros c1 [Ep Ef]%settleWallet_poolAndFee%poolAndFee_inv. unfold quoteSwapReceipt. by rewrite Ep, Ef. }
    rewrite onSwapExecuted_clean, assoc, <- quoted_on_curve by done || apply _. split.
    - intros (c1 & quote & Hw & Hn & Hq & Hs & ->). rewrite Hquote in Hq by done. split; [by exists quote|by exists c1].
    - intros [(quote & Hq & Hs) (c1 & Hw & Hn & ->)]. exists c1, quote. by rewrite Hquote. }
  split; [exact Hexact|]. intros H Hn. destruct (proj1 Hexact (conj H Hn)) as (Hcurve & Hmoved & c1 & _ & _ & ->).
  apply onCurve_conserves in Hcurve as [Ho Hk]; [|done]. unfold poolProduct, swapped, ReservesMoved, reportedTerms in *. cbn.
  destruct (SwapExecuted.direction e); cbn in *; destruct Hmoved as [-> ->]; split; done || lia.
Qed.

Definition seededContext : Ctx.MutableContext :=
  Ctx.mk seededProjection [] (at_ "0x1" 5 0 "probe" (EvUnknown "probe")) [] [] false.

Lemma swap_settles_on_curve_witness :
  exists c', onSwapExecuted seededContext.(Ctx.first).(base) sellReceipt seededContext = (Returns tt, c')
    /\ OnCurve sell (reportedTerms seededContext.(Ctx.next) sellReceipt)
    /\ poolProduct seededContext.(Ctx.next).(Proj.pool) <= poolProduct c'.(Ctx.next).(Proj.pool).
Proof.
  eexists. assert (H : onSwapExecuted seededContext.(Ctx.first).(base) sellReceipt seededContext
    = (Returns tt, ?[c'])) by (vm_compute; reflexivity).
  split; [exact H|]. assert (Hr : InRange (reportedTerms seededContext.(Ctx.next) sellReceipt)) by (vm_compute; repeat split; intros [=]).
  match type of H with _ = (_, ?c') =>
    destruct (swap_settles_on_curve seededContext.(Ctx.first).(base) sellReceipt seededContext c' Hr) as [Hexact Hsafe]
  end.
  split; [exact (proj1 (proj1 Hexact (conj H eq_refl)))|exact (proj1 (Hsafe H eq_refl))].
Defined.

(** ** The reflection index *)

(** The fee the index advance consumes. *)
Definition oldestFee (c : Ctx.MutableContext) : option (Z * Z) :=
  match c.(Ctx.pendingCoreFees) with
  | [] => None
  | pending :: _ => Some (pending.(pcf_event).(ReflectionFeeCollected.feeAmount), pending.(sharesAtCollection))
  end.

(** An index advance without an alert distributes exactly the oldest pending
    fee: over the shares of that moment, [fee * M] plus the old remainder equals
    the index increase times the shares plus the new remainder, which is smaller
    than the shares.  Nothing is created or lost by the rounding, the index never
    falls, and the fee leaves the queue. *)
Theorem index_advance_conserves b e c c' :
  onReflectionIndexAdvanced b e c = (Returns tt, c') -> c'.(Ctx.alerts) = [] ->
  let p := c.(Ctx.next) in
  let p' := c'.(Ctx.next) in
  exists fee shares,
    oldestFee c = Some (fee, shares)
    /\ c'.(Ctx.pendingCoreFees) = tail c.(Ctx.pendingCoreFees)
    /\ 0 < shares /\ p.(Proj.eligibleSupply) = shares
    /\ fee * REFLECTION_MAGNITUDE + p.(Proj.indexRemainder)
       = (p'.(Proj.currentIndex) - p.(Proj.currentIndex)) * shares + p'.(Proj.indexRemainder)
    /\ 0 <= p'.(Proj.indexRemainder) < shares
    /\ p.(Proj.currentIndex) <= p'.(Proj.currentIndex).
Proof.
  unfold onReflectionIndexAdvanced. intros H Hn. cbv zeta. unfold oldestFee. clean_inv. cbn in *. checked_inv.
  repeat match goal with H : ~ (_ <> _) |- _ => apply dec_stable in H end.
  unfold bigintDivide, bigintRemainder in *. rewrite decide_False in * by lia.
  repeat match goal with H : Returns _ = Returns _ |- _ => injection H as H end. subst.
  unfold fitsUnsigned in *. rewrite Z.quot_div_nonneg in * by lia. rewrite Z.rem_mod_nonneg in * by lia.
  match goal with E : Ctx.pendingCoreFees c = _ |- _ => rewrite E end.
  eexists _, _. split; [done|split; [done|split; [lia|split; [congruence|]]]].
  match goal with H : ReflectionIndexAdvanced.newIndex e = _ |- _ => rewrite H end.
  match goal with H : ReflectionIndexAdvanced.indexRemainder e = _ |- _ => rewrite H end.
  apply divide_step; lia.
Qed.

(** The queue holds the ten-unit fee of the sell. *)
Definition feeContext : Ctx.MutableContext :=
  match forEach (applyEvent (Group.mk seededProjection validSellEvents)) (take 1 validSellEvents) seededContext with
  | (_, c) => c
  end.

Definition indexReceipt : ReflectionIndexAdvanced.ReflectionIndexAdvancedEvent :=
  ReflectionIndexAdvanced.mk 0 sellIndex sellRemainder 10 2999000.

Lemma index_advance_conserves_witness :
  exists c', onReflectionIndexAdvanced feeContext.(Ctx.first).(base) indexReceipt feeContext = (Returns tt, c')
    /\ exists fee shares, oldestFee feeContext = Some (fee, shares) /\ 0 < shares.
Proof.
  eexists. assert (H : onReflectionIndexAdvanced feeContext.(Ctx.first).(base) indexReceipt feeContext
    = (Returns tt, ?[c'])) by (vm_compute; reflexivity).
  split; [exact H|].
  destruct (index_advance_conserves _ _ _ _ H) as (fee & shares & Hf & _ & Hs & _); [reflexivity|].
  exact (ex_intro _ fee (ex_intro _ shares (conj Hf Hs))).
Defined.

Lemma requireEpoch_some b i epoch c r :
  jsGet i c.(Ctx.next).(Proj.lpEpochs) = Some epoch ->
  forall c', requireEpoch b i c = (Returns r, c') -> r = Some epoch /\ c' = c.
Proof. intros Hg c' H. unfold requireEpoch in H. replay_inv. rewrite Hg in H. by replay_inv. Qed.

Lemma consumeRoute_clean b message r c u c' :
  consumeRoute b message r c = (Returns u, c') -> c'.(Ctx.alerts) = [] ->
  exists route, r = Some route /\ c' = c <| Ctx.consumedRoutes := c.(Ctx.consumedRoutes) ++ [route.1.(Base.id)] |>.
Proof. unfold consumeRoute. intros H Hn. repeat clean_step. by eexists. Qed.

Lemma findRoute_spec g consumed b epoch amount vault route :
  findRoute g consumed b epoch amount vault = Some route ->
  route ∈ routesOf g /\ (route.1.(Base.id) ∉ consumed)
  /\ route.2.(CustodyRewardsRouted.amount) = amount
  /\ route.2.(CustodyRewardsRouted.lpRewardVault) = vault
  /\ route.1.(Base.eventIndex) < b.(Base.eventIndex).
Proof.
  unfold findRoute, arrayFind. intros H.
  assert (Hin : In route (List.filter (fun candidate =>
    negb (includes candidate.1.(Base.id) consumed)
    && bool_decide (candidate.2.(CustodyRewardsRouted.epoch) = epoch)
    && bool_decide (candidate.2.(CustodyRewardsRouted.amount) = amount)
    && bool_decide (candidate.2.(CustodyRewardsRouted.lpRewardVault) = vault)
    && bool_decide (candidate.1.(Base.eventIndex) < b.(Base.eventIndex))) (routesOf g))).
  { destruct (List.filter _ _); [done|]. injection H as ->. by left. }
  apply filter_In in Hin as [Hin Ht]. bools. unfold includes in *. bools.
  split; [by apply list_elem_of_In|done].
Qed.

Lemma lpRounding_exact e label r :
  lpRounding e e.(LpEpoch.unallocatedRewards) label = Returns r ->
  expectedLpVaultBalance e = Returns (bookLiability e + e.(LpEpoch.unallocatedRewards) + r).
Proof.
  unfold lpRounding. intros H. outcome_inv. apply checkedVaultRemainder_inv in H as [-> _].
  apply lpIndexedLiability_book in E0 as ->. done.
Qed.

(** The same conservation for an LP epoch: an LP index advance without an
    alert distributes exactly the amount received over the epoch's shares, the
    remainder carried, adds it to the lifetime received, leaves the vault exactly
    liability, quarantine and rounding, and consumes one earlier custody route of
    the same amount to the epoch's vault that no other receipt has consumed. *)
Theorem lp_index_advance_conserves g b e epoch c c' :
  onLpRewardIndexAdvanced g b e c = (Returns tt, c') -> c'.(Ctx.alerts) = [] ->
  LedgerOk c.(Ctx.next) ->
  jsGet e.(LpRewardIndexAdvanced.epoch) c.(Ctx.next).(Proj.lpEpochs) = Some epoch ->
  exists epoch',
    jsGet e.(LpRewardIndexAdvanced.epoch) c'.(Ctx.next).(Proj.lpEpochs) = Some epoch'
    /\ 0 < epoch.(LpEpoch.totalShares)
    /\ e.(LpRewardIndexAdvanced.received) * REFLECTION_MAGNITUDE + epoch.(LpEpoch.indexRemainder)
       = (epoch'.(LpEpoch.index) - epoch.(LpEpoch.index)) * epoch.(LpEpoch.totalShares)
         + epoch'.(LpEpoch.indexRemainder)
    /\ 0 <= epoch'.(LpEpoch.indexRemainder) < epoch.(LpEpoch.totalShares)
    /\ epoch.(LpEpoch.index) <= epoch'.(LpEpoch.index)
    /\ epoch'.(LpEpoch.lifetimeReceived) = epoch.(LpEpoch.lifetimeReceived) + e.(LpRewardIndexAdvanced.received)
    /\ expectedLpVaultBalance epoch'
       = Returns (bookLiability epoch' + epoch'.(LpEpoch.unallocatedRewards) + epoch'.(LpEpoch.roundingReserve))
    /\ exists route,
        route ∈ routesOf g /\ (route.1.(Base.id) ∉ c.(Ctx.consumedRoutes))
        /\ c'.(Ctx.consumedRoutes) = c.(Ctx.consumedRoutes) ++ [route.1.(Base.id)]
        /\ route.2.(CustodyRewardsRouted.amount) = e.(LpRewardIndexAdvanced.received)
        /\ route.2.(CustodyRewardsRouted.lpRewardVault) = epoch.(LpEpoch.rewardVault)
        /\ route.1.(Base.eventIndex) < b.(Base.eventIndex).
Proof.
  unfold onLpRewardIndexAdvanced. intros H Hn Hok Hg. pose proof (ledger_epoch _ _ _ Hok Hg) as [_ Hk].
  cbv zeta in H. apply bind_clean in H as (found & c1 & E & Hn1 & H); [|done|intros; solve_mono].
  pose proof (requireEpoch_some _ _ _ _ _ Hg _ E) as [-> ->]. clean_inv.
  match goal with E : consumeRoute _ _ _ _ = _ |- _ => apply consumeRoute_clean in E as (route & Hroute & ->); [|done] end.
  match goal with E : lpRounding _ _ _ = _ |- _ => apply lpRounding_exact in E end.
  cbn in *. rewrite Hk. eexists. split; [apply jsGet_set_eq|]. cbn. checked_inv.
  repeat match goal with H : ~ (_ <> _) |- _ => apply dec_stable in H end.
  unfold bigintDivide, bigintRemainder in *. rewrite decide_False in * by lia.
  repeat match goal with H : Returns _ = Returns _ |- _ => injection H as H end. subst.
  unfold fitsUnsigned in *. rewrite Z.quot_div_nonneg in * by lia. rewrite Z.rem_mod_nonneg in * by lia.
  match goal with H : LpRewardIndexAdvanced.newIndex e = _ |- _ => rewrite H in * end.
  match goal with H : LpRewardIndexAdvanced.indexRemainder e = _ |- _ => rewrite H in * end.
  match goal with |- _ /\ ?eq /\ ?bounds /\ ?mono /\ _ => assert (eq /\ bounds /\ mono) by (apply divide_step; lia) end.
  split; [lia|]. destruct_and!. repeat split; try lia.
  - match goal with H : expectedLpVaultBalance _ = _ |- _ => exact H end.
  - apply findRoute_spec in Hroute. exists route. naive_solver.
Qed.

(** The LP epoch has just been routed the custody rewards of the sell. *)
Definition routeStart : Ctx.MutableContext :=
  Ctx.mk soldProjection [] (at_ "0x1" 7 0 "probe" (EvUnknown "probe")) [] [] false.

Definition routedContext : Ctx.MutableContext :=
  (forEach (applyEvent (Group.mk soldProjection routeEvents)) (take 1 routeEvents) routeStart).2.

Lemma routed_ledger : LedgerOk soldProjection -> LedgerOk routedContext.(Ctx.next).
Proof.
  intros Hok.
  assert (H : forEach (applyEvent (Group.mk soldProjection routeEvents)) (take 1 routeEvents) routeStart
    = (Returns tt, routedContext)) by (vm_compute; reflexivity).
  apply (keeps (Keeps := keeps_forEach _ _ (fun event => keeps_applyEvent _ event)) _ _ _ H). exact Hok.
Qed.

Lemma sold_ledger : LedgerOk soldProjection.
Proof. exact (proj1 (reachable_is_sound _ sold_reachable)). Qed.

Definition lpIndexReceipt : LpRewardIndexAdvanced.LpRewardIndexAdvancedEvent :=
  LpRewardIndexAdvanced.mk 1 0 3000000000000000000 0 3 1000000 0.

Lemma lp_index_advance_conserves_witness :
  exists c' epoch epoch',
    onLpRewardIndexAdvanced (Group.mk soldProjection routeEvents)
      (Base.mk "lp-index-6" "0xroute-6" 6 1 1700000000006 fixture) lpIndexReceipt routedContext = (Returns tt, c')
    /\ jsGet 1 routedContext.(Ctx.next).(Proj.lpEpochs) = Some epoch
    /\ jsGet 1 c'.(Ctx.next).(Proj.lpEpochs) = Some epoch'
    /\ epoch'.(LpEpoch.lifetimeReceived) = epoch.(LpEpoch.lifetimeReceived) + 3.
Proof.
  eexists _, _.
  assert (H : onLpRewardIndexAdvanced (Group.mk soldProjection routeEvents)
    (Base.mk "lp-index-6" "0xroute-6" 6 1 1700000000006 fixture) lpIndexReceipt routedContext = (Returns tt, ?[c']))
    by (vm_compute; reflexivity).
  assert (Hg : jsGet 1 routedContext.(Ctx.next).(Proj.lpEpochs) = Some ?[epoch]) by (vm_compute; reflexivity).
  destruct (lp_index_advance_conserves _ _ _ _ _ _ H ltac:(reflexivity) (routed_ledger sold_ledger) Hg)
    as (epoch' & Hg' & _ & _ & _ & _ & Hr & _).
  exists epoch'. split; [exact H|split; [exact Hg|split; [exact Hg'|exact Hr]]].
Defined.

(** ** Custody routing *)

(** Claiming the whole pending amount leaves nothing pending. *)
Lemma custodyPending_settled p p' amount :
  custodyPending p = Returns amount ->
  p'.(Proj.currentIndex) = p.(Proj.currentIndex) ->
  p'.(Proj.custody).(Custody.shares) = p.(Proj.custody).(Custody.shares) ->
  p'.(Proj.custody).(Custody.correction) = p.(Proj.custody).(Custody.correction) ->
  p'.(Proj.custody).(Custody.claimed) = p.(Proj.custody).(Custody.claimed) + amount ->
  custodyPending p' = Returns 0.
Proof.
  unfold custodyPending. intros H -> -> -> ->. outcome_inv. rewrite E. cbn. checked_inv.
  replace 0 with (a - (p.(Proj.custody).(Custody.claimed) + (a - p.(Proj.custody).(Custody.claimed)))) by lia.
  apply checkedMoveU256Subtract_iff. unfold fitsUnsigned in *. split; [lia|]. split; [lia|]. split; lia.
Qed.

(** A custody route without an alert pays the LP side in full: it settles
    exactly the whole pending amount of custody, which is positive and zero
    afterwards, to the vault the active epoch is bound to, and the same amount
    is booked as custody's claim, as the vault's payout and as lifetime routed. *)
Theorem custody_route_settles b e epoch c c' :
  onCustodyRewardsRouted b e c = (Returns tt, c') -> c'.(Ctx.alerts) = [] ->
  LedgerOk c.(Ctx.next) ->
  jsGet e.(CustodyRewardsRouted.epoch) c.(Ctx.next).(Proj.lpEpochs) = Some epoch ->
  let p := c.(Ctx.next) in
  let p' := c'.(Ctx.next) in
  let amount := e.(CustodyRewardsRouted.amount) in
  0 < amount /\ custodyPending p = Returns amount /\ custodyPending p' = Returns 0
  /\ p.(Proj.activeLpEpoch) = Some e.(CustodyRewardsRouted.epoch)
  /\ p.(Proj.custody).(Custody.activeRouteEpoch) = Some e.(CustodyRewardsRouted.epoch)
  /\ e.(CustodyRewardsRouted.lpRewardVault) = epoch.(LpEpoch.rewardVault)
  /\ p'.(Proj.custody).(Custody.claimed) = p.(Proj.custody).(Custody.claimed) + amount
  /\ p'.(Proj.custody).(Custody.lifetimeRouted) = p'.(Proj.custody).(Custody.claimed)
  /\ p'.(Proj.rewardVaultPayouts) = p.(Proj.rewardVaultPayouts) + amount
  /\ p'.(Proj.lifetimeCustodyRouted) = p.(Proj.lifetimeCustodyRouted) + amount.
Proof.
  unfold onCustodyRewardsRouted. intros H Hn Hok Hg. cbv zeta in *.
  destruct Hok as (_ & _ & (_ & _ & _ & Hl & _) & _).
  apply bind_clean in H as (found & c1 & E & Hn1 & H); [|done|intros; solve_mono].
  pose proof (requireEpoch_some _ _ _ _ _ Hg _ E) as [-> ->]. clean_inv.
  all: repeat match goal with H : ~ (_ <> _) |- _ => apply dec_stable in H end.
  all: match goal with H : custodyPending _ = Returns _ |- _ => rename H into Hp end; checked_inv; cbn in *.
  all: match goal with H : CustodyRewardsRouted.amount _ = _ |- _ => rewrite <- H in Hp end.
  all: split; [lia|split; [exact Hp|split; [by eapply (custodyPending_settled (Ctx.next c))|]]].
  all: repeat split; lia || congruence.
Qed.

(** The route of the sell's custody rewards. *)
Definition routeReceipt : CustodyRewardsRouted.CustodyRewardsRoutedEvent :=
  CustodyRewardsRouted.mk CUSTODY_RESERVE LP_REWARD_VAULT 1 3 3.

Lemma custody_route_settles_witness :
  exists c', onCustodyRewardsRouted routeStart.(Ctx.first).(base) routeReceipt routeStart = (Returns tt, c')
    /\ custodyPending c'.(Ctx.next) = Returns 0.
Proof.
  eexists.
  assert (H : onCustodyRewardsRouted routeStart.(Ctx.first).(base) routeReceipt routeStart = (Returns tt, ?[c']))
    by (vm_compute; reflexivity).
  assert (Hg : jsGet 1 routeStart.(Ctx.next).(Proj.lpEpochs) = Some ?[epoch]) by (vm_compute; reflexivity).
  destruct (custody_route_settles _ _ _ _ _ H ltac:(reflexivity) sold_ledger Hg) as (_ & _ & Hz & _).
  split; [exact H|exact Hz].
Defined.
