(* ===== verification/SdkTheorems.v ===== *)
(** * Properties of the client SDK

    The client's verification of quotes and drafts, what can reach the writer in
    any use of one client, and that a swap submitted at a verified quote replays
    without an alert. *)
From stdpp Require Import gmap.
From S2P Require Import Prelude JsMap Types MoveDomains JsValue Json SdkTypes Accounting Replay Group WalletHandlers.
From S2P Require Import LpHandlers PoolHandlers LiquidityMath DraftEncoder SafeClient QuoteSpec DraftSpec Ledger.
From S2P Require Import Numerals CursorRoundTrip JsonRoundTrip ClientSpec Fixtures PoolTheorems.

#[local] Arguments bigintDivide _ _ : simpl never.
#[local] Arguments bpsOf _ _ : simpl never.

(** ** An example *)

Definition exampleContext : SwapContext.SwapQuoteContext :=
  SwapContext.mk 2 7 "pilot" "testnet-v0.2.0" 1000000 1000000 100 30 100000 1000.

(** The sale of [Fixtures.sellReceipt], quoted. *)
Definition exampleQuote : Swap.SwapQuote :=
  Swap.mk sell 1000 50 10 3 990 986 986 981 9 2000 exampleContext.

Definition exampleRequest : Request.QuoteRequest := Request.mk sell 1000 50 2000.

Definition exampleInput : JsValue := JsObject [
  ("direction", JsString "sell"); ("grossAmount", JsBigint 1000); ("slippageBps", JsBigint 50);
  ("deadlineUnixSeconds", JsBigint 2000)].

Definition silent (_ : JsValue) : string := "".

Lemma exampleQuote_accepted now : 0 <= now < 2000 -> assertSwapQuote (quoteValue exampleQuote) now = Returns exampleQuote.
Proof.
  intros Hnow. apply assertSwapQuote_value; [split; [apply carries_own|apply carries_own]|].
  assert (assertSwapQuote (quoteValue exampleQuote) 0 = Returns exampleQuote) as E by (vm_compute; reflexivity).
  apply assertSwapQuote_returns in E as [_ [? ? ? ? ?]]. split; try done. cbn. lia.
Defined.

(** ** Quotes *)

(** C13. The client accepts an untyped value as a swap quote exactly when the
    value carries a quote that settles on the constant-product curve: fees,
    minimum receipt and price impact are the floors of their exact ratios, the
    output is the greatest that does not lower the product of the reserves, gross
    amount and reserve share are within the limits it was read with, every amount
    fits its width, the provenance is of Cedra Testnet and the deadline is
    ahead. *)
Theorem swap_quote_exact v now q :
  assertSwapQuote v now = Returns q <-> CarriesQuote v q /\ Verified now q.
Proof. split; [apply assertSwapQuote_returns|]. intros []. by apply assertSwapQuote_value. Qed.

(** ** Drafts *)

(** The client accepts an untyped value as a draft exactly when it carries a
    row of the table of entry functions: one of the eleven functions under its
    kind, each argument in the domain of its Move type, amounts the entry needs
    positive, the deadline of a swap or of liquidity equal to the expiration, no
    secondary signer, a positive u64 expiration and a notice. *)
Theorem draft_accepted_exact describe v d :
  assertCedraTransactionDraft describe v = Returns d <-> CarriesDraft v d /\ DraftOk d.
Proof. apply assertDraft_exact. Qed.

(** The package a function id names, where it is published. *)
Definition PublishedAs (modules : Modules.ProtocolModuleAddresses) (functionId onChain : string) : Prop :=
  exists package publisher entry,
    In (package, publisher) [("reflection_core", modules.(Modules.reflectionCore));
                             ("test_assets", modules.(Modules.testAssets)); ("test_amm", modules.(Modules.testAmm))]
    /\ functionId = package ⧺ "::" ⧺ entry /\ onChain = publisher ⧺ "::" ⧺ entry.

(** Three accounts, none of them zero, all different: as numbers, however they are spelled. *)
Definition PublishersOk (modules : Modules.ProtocolModuleAddresses) : Prop :=
  exists core assets amm,
    HexAddress core modules.(Modules.reflectionCore) /\ HexAddress assets modules.(Modules.testAssets)
    /\ HexAddress amm modules.(Modules.testAmm) /\ NoDup [0; core; assets; amm].

Lemma assertModuleAddresses_keys describe modules :
  assertModuleAddresses describe modules = Returns tt <->
  exists core assets amm,
    canonicalAddressKey describe (JsString modules.(Modules.reflectionCore)) = Returns core
    /\ canonicalAddressKey describe (JsString modules.(Modules.testAssets)) = Returns assets
    /\ canonicalAddressKey describe (JsString modules.(Modules.testAmm)) = Returns amm
    /\ NoDup [core; assets; amm].
Proof.
  unfold assertModuleAddresses. rewrite outcome_bind_iff. split.
  - intros (core & E1 & E). apply outcome_bind_iff in E as (assets & E2 & E). apply outcome_bind_iff in E as (amm & E3 & E).
    case_bool_decide; [|done]. by exists core, assets, amm.
  - intros (core & assets & amm & E1 & E2 & E3 & E). exists core. rewrite E1, E2, E3. split; [done|].
    cbn [mbind outcome_bind]. by rewrite bool_decide_true.
Qed.

Lemma NoDup_triple {A} (x y z : A) : NoDup [x; y; z] <-> x <> y /\ x <> z /\ y <> z.
Proof.
  rewrite !list.NoDup_cons, !not_elem_of_cons. split; [tauto|]. intros (? & ? & ?). repeat split; try done; try apply not_elem_of_nil. apply NoDup_nil_2.
Qed.

Lemma NoDup_nonzero (x y z : Z) : NoDup [0; x; y; z] <-> NoDup [x; y; z] /\ x <> 0 /\ y <> 0 /\ z <> 0.
Proof. rewrite (list.NoDup_cons 0), !not_elem_of_cons. pose proof (not_elem_of_nil (A := Z) 0). naive_solver. Qed.

Lemma assertModuleAddresses_returns describe modules :
  assertModuleAddresses describe modules = Returns tt <-> PublishersOk modules.
Proof.
  rewrite assertModuleAddresses_keys. setoid_rewrite canonicalAddressKey_returns. unfold PublishersOk, HexAddress. split.
  - intros (? & ? & ? & (n1 & d1 & E1 & H1 & Hn1 & ->) & (n2 & d2 & E2 & H2 & Hn2 & ->) & (n3 & d3 & E3 & H3 & Hn3 & ->) & Hd).
    exists n1, n2, n3. do 3 (split; [by eexists|]). apply NoDup_nonzero. split; [|done].
    rewrite NoDup_triple in Hd. rewrite NoDup_triple. by rewrite (plainDigits_same n1 n2), (plainDigits_same n1 n3), (plainDigits_same n2 n3) in Hd.
  - intros (n1 & n2 & n3 & (d1 & E1 & H1) & (d2 & E2 & H2) & (d3 & E3 & H3) & [Hd (Hn1 & Hn2 & Hn3)]%NoDup_nonzero).
    exists (plainDigits d1), (plainDigits d2), (plainDigits d3). do 3 (split; [by eexists _, _|]).
    rewrite NoDup_triple in Hd. rewrite NoDup_triple. by rewrite (plainDigits_same n1 n2), (plainDigits_same n1 n3), (plainDigits_same n2 n3).
Qed.

(** What the official SDK is given for an argument: an integer as its decimal numeral. *)
Inductive WrittenAs : EntryArgument -> EntryArgument -> Prop :=
| written_text s : WrittenAs (ArgString s) (ArgString s)
| written_integer n s : DecimalOf n s -> WrittenAs (ArgBigint n) (ArgString s)
| written_flag b : WrittenAs (ArgBoolean b) (ArgBoolean b).

Definition NaturalArgument (argument : EntryArgument) : Prop := match argument with ArgBigint n => 0 <= n | _ => True end.

Lemma known_naturals k f args expiration : KnownDraft k f args expiration -> 0 <= expiration -> Forall NaturalArgument args.
Proof. unfold Positive, Unsigned. destruct 1; intros He; repeat constructor; unfold Positive, Unsigned in *; cbn; lia. Qed.

Lemma writtenAs_decimal args written :
  Forall NaturalArgument args -> Forall2 WrittenAs args written <-> written = map decimalArgument args.
Proof.
  intros Hn. split.
  - induction 1 as [|argument text args written Hw Hws IH]; [done|]. apply Forall_cons_iff in Hn as [_ Hn]. cbn [map]. rewrite <- IH by done.
    f_equal. destruct Hw as [s|n s [_ ->]%decimal_iff|b]; done.
  - intros ->. induction Hn as [|argument args Ha Hn IH]; [constructor|]. constructor; [|done].
    destruct argument; constructor. by apply decimal_show.
Qed.

(** An entry of the table names a module of one of the packages. *)
Lemma known_split k f args expiration :
  KnownDraft k f args expiration ->
  exists package moduleName functionName,
    splitDoubleColon f = [package; moduleName; functionName]
    /\ (package = "reflection_core" \/ package = "test_assets" \/ package = "test_amm")
    /\ f = package ⧺ "::" ⧺ moduleName ⧺ "::" ⧺ functionName.
Proof. destruct 1; eexists _, _, _; (split; [reflexivity|]); (split; [auto|reflexivity]). Qed.

(** The package is the text before the first colons. *)
Lemma package_prefix package package' entry entry' :
  (package = "reflection_core" \/ package = "test_assets" \/ package = "test_amm") ->
  (package' = "reflection_core" \/ package' = "test_assets" \/ package' = "test_amm") ->
  package ⧺ "::" ⧺ entry = package' ⧺ "::" ⧺ entry' -> package = package' /\ entry = entry'.
Proof. intros [->|[->| ->]] [->|[->| ->]] E; try discriminate E; by injection E. Qed.

Lemma publisherForFunction_returns describe modules functionId package moduleName functionName publisher :
  assertModuleAddresses describe modules = Returns tt -> splitDoubleColon functionId = [package; moduleName; functionName] ->
  (package = "reflection_core" \/ package = "test_assets" \/ package = "test_amm") ->
  publisherForFunction describe functionId modules = Returns publisher
  <-> In (package, publisher) [("reflection_core", modules.(Modules.reflectionCore));
                               ("test_assets", modules.(Modules.testAssets)); ("test_amm", modules.(Modules.testAmm))].
Proof.
  intros (core & assets & amm & E1 & E2 & E3 & _)%assertModuleAddresses_keys Es Hp. unfold publisherForFunction. rewrite Es.
  destruct Hp as [->|[->| ->]]; cbn [default head from_option id]; decide_closed; cbn [mbind outcome_bind].
  - rewrite E1. cbn. split; [intros [= <-]; auto|]. by intros [[= <-]|[[=]|[[=]|[]]]].
  - rewrite E2. cbn. split; [intros [= <-]; auto|]. by intros [[=]|[[= <-]|[[=]|[]]]].
  - rewrite E3. cbn. split; [intros [= <-]; auto|]. by intros [[=]|[[=]|[[= <-]|[]]]].
Qed.

(** An entry of the table is published as the payload names it. *)
Lemma encodePayload_known describe d modules p :
  DraftOk d ->
  encodePayload describe d modules = Returns p
  <-> PublishersOk modules /\ PublishedAs modules d.(Draft.functionId) p.(Payload.function)
      /\ Forall2 WrittenAs d.(Draft.arguments) p.(Payload.functionArguments).
Proof.
  intros [Hk _ He _]. rewrite writtenAs_decimal by (eapply known_naturals; [exact Hk|unfold Positive in He; lia]).
  rewrite <- (assertModuleAddresses_returns describe). destruct (known_split _ _ _ _ Hk) as (package & moduleName & functionName & Es & Hp & Ef).
  unfold encodePayload. rewrite Es, outcome_bind_iff. unfold PublishedAs. split.
  - intros ([] & Em & E). apply outcome_bind_iff in E as (publisher & Ep & [= <-]).
    eapply publisherForFunction_returns in Ep; [|done..]. split; [done|]. split; [|done]. by eexists _, _, _.
  - intros (Hm & (package' & publisher & entry & Hin & Ef' & Eo) & Ea). exists tt. split; [done|].
    rewrite Ef in Ef'. apply package_prefix in Ef' as [<- <-]; [|done|cbn in Hin; intuition congruence].
    apply outcome_bind_iff. exists publisher. split; [by eapply publisherForFunction_returns|]. destruct p. cbn in *. by subst.
Qed.

(** C17. The encoder gives the official SDK a payload exactly for a value that
    carries a known draft and for three publishers whose addresses are different
    numbers other than zero, whatever the case and leading zeros they are spelled
    with: the function under the address its package is published at, and the
    arguments, each integer as its decimal numeral, digit by digit. *)
Theorem encode_exact describe v modules p :
  encodeCedraEntryFunction describe v modules = Returns p
  <-> exists d, CarriesDraft v d /\ DraftOk d /\ PublishersOk modules
        /\ PublishedAs modules d.(Draft.functionId) p.(Payload.function)
        /\ Forall2 WrittenAs d.(Draft.arguments) p.(Payload.functionArguments).
Proof.
  assert (Hsingle : forall d, DraftOk d -> bool_decide (arrayLength d.(Draft.secondarySignerAddresses) > 0) = false).
  { intros d Hd. by rewrite (draft_single d Hd). }
  assert (Htyped : forall d, (exists shape, knownEntryShape describe v = Returns (shape, d)) <-> CarriesDraft v d /\ DraftOk d).
  { intros d. rewrite <- (assertDraft_exact describe). unfold assertCedraTransactionDraft. rewrite outcome_bind_iff. split.
    - intros [shape ->]. by exists (shape, d).
    - intros ([shape d'] & E & [= ->]). by exists shape. }
  unfold encodeCedraEntryFunction. rewrite outcome_bind_iff. split.
  - intros ([shape d] & E & Ep). destruct (proj1 (Htyped d) (ex_intro _ shape E)) as [Hc Hd].
    rewrite (Hsingle d Hd) in Ep. exists d. by apply encodePayload_known in Ep.
  - intros (d & Hc & Hd & Hp). destruct (proj2 (Htyped d) (conj Hc Hd)) as [shape E]. exists (shape, d). split; [done|].
    rewrite (Hsingle d Hd). by apply encodePayload_known.
Qed.

(** ** One client *)

Lemma verified_later now now' q : Verified now q -> now' < q.(Swap.deadlineUnixSeconds) -> Verified now' q.
Proof. intros [? ? ? ? ?] ?. by split. Qed.

(** C12. In any use of one client, quotes in flight and altered objects included,
    a submission either throws and leaves the client as it was, or hands the
    writer a known draft; and when the draft is a swap, it is the one of a quote
    that the reader answered to this client's request, unchanged, whose arithmetic
    still holds and whose deadline has not passed at that moment. *)
Theorem submitted_swap_certified describe writer trace c draft clock o c'
    (Hhistory : History describe writer trace c) (Hsubmit : submit describe writer draft clock c = (o, c')) :
  ((exists e, o = Throws e) /\ c' = c)
  \/ exists d write, writer = Some write /\ o = write d
       /\ c'.(Client.sent) = (draft.(Handle.identity), d) :: c.(Client.sent)
       /\ CarriesDraft draft.(Handle.contents) d /\ DraftOk d
       /\ (d.(Draft.kind) = swap ->
            exists request q now, clock = JsBigint now /\ (request, q) ∈ trace /\ Answers request q
              /\ d = swapDraftOf q /\ Verified now q).
Proof.
  pose proof (ok_client_history describe writer trace c Hhistory) as Hc.
  apply submit_cases in Hsubmit as [(e & -> & ->)|(d & write & -> & Hcarry & Hd & Hswap & -> & ->)].
  - left. split; [by exists e|done].
  - right. exists d, write. repeat (split; [done|]). intros Hk. destruct (Hswap Hk) as [Hl (now & -> & Hnow)].
    destruct (known_draft _ _ _ _ Hc Hd Hl) as (request & q & Hin & ->). pose proof (client_trace _ _ Hc _ _ Hin) as Ha.
    exists request, q, now. repeat (split; [done|]). destruct Ha as (_ & _ & _ & _ & now' & _ & Hq).
    eapply verified_later; [exact Hq|]. cbn in Hnow. lia.
Qed.

(** A client that was answered [exampleQuote] and made its draft. *)
Definition exampleReader : Reader.CedraReadAdapter :=
  Reader.mk (fun _ => Returns JsNull) (Returns JsNull) (Returns JsNull) (fun _ => Returns JsNull)
    (fun _ _ => Returns JsNull) (fun _ => Returns (quoteValue exampleQuote)).

Definition accept (_ : Draft.TransactionDraft) : Outcome Submitted.SubmittedTransaction := Returns (Submitted.mk "0x1" 5).

Definition quotedClient : Client.ReflectionPilotClient :=
  snd (quoteSwap exampleReader exampleInput (JsBigint 10) (JsBigint 11) newClient).
Definition draftedClient : Client.ReflectionPilotClient :=
  snd (createSwapDraft silent (Handle.mk 0 (quoteValue exampleQuote)) (JsBigint 12) quotedClient).

Lemma draftedClient_history :
  History silent (Some accept) [(exampleRequest, exampleQuote)] draftedClient.
Proof.
  eapply (History_swapDraft _ _ _ quotedClient (Handle.mk 0 (quoteValue exampleQuote)) (JsBigint 12));
    [|vm_compute; reflexivity].
  eapply (History_quote _ _ [] newClient exampleInput (JsBigint 10) exampleRequest (Returns (quoteValue exampleQuote)) (JsBigint 11)
    (Returns (0%nat, exampleQuote))); [constructor| |]; vm_compute; reflexivity.
Defined.

Lemma submitted_swap_certified_witness :
  exists d, (exists c', submit silent (Some accept) (Handle.mk 1 (draftValue (swapDraftOf exampleQuote))) (JsBigint 13) draftedClient
      = (Returns (Submitted.mk "0x1" 5), c') /\ c'.(Client.sent) = [(1%nat, d)])
    /\ d.(Draft.kind) = swap /\ d = swapDraftOf exampleQuote.
Proof.
  destruct (submit silent (Some accept) (Handle.mk 1 (draftValue (swapDraftOf exampleQuote))) (JsBigint 13) draftedClient)
    as [o c'] eqn:E.
  assert (Ho : o = Returns (Submitted.mk "0x1" 5)) by (revert E; vm_compute; by intros [= <- _]).
  destruct (submitted_swap_certified silent (Some accept) [(exampleRequest, exampleQuote)] draftedClient
    (Handle.mk 1 (draftValue (swapDraftOf exampleQuote))) (JsBigint 13) o c' draftedClient_history E)
    as [[[e He] _]|(d & write & _ & Hw & Hs & Hcarry & _ & _)]; [by subst|].
  exists d. split; [exists c'; split; [by subst|]|].
  - rewrite Hs. f_equal.
  - apply draftValue_unique in Hcarry as <-. by split.
Defined.

(** C15. A reader that answers a well-formed request with a value carrying a
    verified quote for it leads to the chain: the quote is returned, its object
    makes the draft of that very quote, and submitting that draft before the
    deadline hands it to the writer, whose answer is returned. *)
Theorem quoted_swap_submits describe write reader input request v q t0 t1 t2 t3 c
    (Hrequest : quoteSwapRequest input (JsBigint t0) = Returns request)
    (Hanswer : reader.(Reader.quoteSwap) request = Returns v) (Hcarry : CarriesQuote v q)
    (Hverified : Verified t1 q)
    (Hinputs : Request.mk q.(Swap.direction) q.(Swap.grossAmount) q.(Swap.slippageBps) q.(Swap.deadlineUnixSeconds) = request)
    (Htime : 0 <= t1 <= t2 /\ t2 <= t3 < q.(Swap.deadlineUnixSeconds)) :
  exists quoteObject draftObject c1 c2 c3,
    quoteSwap reader input (JsBigint t0) (JsBigint t1) c = (Returns (quoteObject, q), c1)
    /\ createSwapDraft describe (Handle.mk quoteObject (quoteValue q)) (JsBigint t2) c1
         = (Returns (draftObject, swapDraftOf q), c2)
    /\ submit describe (Some write) (Handle.mk draftObject (draftValue (swapDraftOf q))) (JsBigint t3) c2
         = (write (swapDraftOf q), c3)
    /\ c3.(Client.sent) = (draftObject, swapDraftOf q) :: c.(Client.sent).
Proof.
  pose proof (verified_width _ _ Hverified) as Hw. unfold Unsigned in Hw.
  assert (Hclock : forall t, 0 <= t < q.(Swap.deadlineUnixSeconds) -> currentTime (JsBigint t) = Returns t).
  { intros t Ht. apply currentTime_returns. split; [done|]. unfold Unsigned. lia. }
  assert (Hown : CarriesQuote (quoteValue q) q) by (split; apply carries_own).
  exists c.(Client.allocated), (Datatypes.S c.(Client.allocated)), (remembered q c), (issued q (remembered q c)).
  exists (issued q (remembered q c) <| Client.sent := (Datatypes.S c.(Client.allocated), swapDraftOf q) :: c.(Client.sent) |>).
  split_and!.
  - unfold quoteSwap. rewrite Hrequest. erewrite task_bind_eq by reflexivity. rewrite Hanswer. unfold quoteSwapAnswer.
    erewrite task_bind_eq by reflexivity. rewrite Hclock by lia. erewrite task_bind_eq by reflexivity.
    rewrite (assertSwapQuote_value v t1 q Hcarry Hverified). erewrite task_bind_eq by reflexivity.
    subst request. rewrite unlessThrow_true; [reflexivity|]. by rewrite !bool_decide_true.
  - unfold createSwapDraft. erewrite task_bind_eq by reflexivity. cbn [Handle.identity Handle.contents].
    replace (Client.verifiedSwapQuotes (remembered q c) !! _) with (Some (swapQuoteFingerprint q)) by (symmetry; apply lookup_insert_eq).
    rewrite Hclock by lia. erewrite task_bind_eq by reflexivity.
    pose proof (verified_later t1 t2 q Hverified ltac:(lia)) as H2.
    rewrite (assertSwapQuote_value (quoteValue q) t2 q Hown H2).
    erewrite task_bind_eq by reflexivity. rewrite unlessThrow_true by (by rewrite bool_decide_true).
    rewrite (createDraft_swap describe t2 q (JsBigint t2)) by (done || lia). reflexivity.
  - unfold submit. pose proof (swapDraft_ok t1 q ltac:(lia) Hverified) as Hd. cbn [Handle.contents].
    rewrite (assertDraft_value describe _ Hd). erewrite task_bind_eq by reflexivity. erewrite task_bind_eq by reflexivity.
    cbn [Handle.identity]. replace (Client.verifiedSwapDrafts (issued q _) !! _)
      with (Some (transactionDraftFingerprint (swapDraftOf q))) by (symmetry; apply lookup_insert_eq).
    rewrite (bool_decide_true (_ = swap)) by done. unfold mbind, task_bind, unlessThrow, evaluate.
    rewrite bool_decide_true by done. rewrite Hclock by lia. rewrite bool_decide_true by (cbn; lia). reflexivity.
  - reflexivity.
Qed.

Lemma quoted_swap_submits_witness :
  0 <= 11 <= 12 /\ exists quoteObject draftObject c1 c2 c3,
    quoteSwap exampleReader exampleInput (JsBigint 10) (JsBigint 11) newClient = (Returns (quoteObject, exampleQuote), c1)
    /\ createSwapDraft silent (Handle.mk quoteObject (quoteValue exampleQuote)) (JsBigint 12) c1
         = (Returns (draftObject, swapDraftOf exampleQuote), c2)
    /\ submit silent (Some accept) (Handle.mk draftObject (draftValue (swapDraftOf exampleQuote))) (JsBigint 13) c2
         = (Returns (Submitted.mk "0x1" 5), c3)
    /\ c3.(Client.sent) = [(draftObject, swapDraftOf exampleQuote)].
Proof.
  split; [lia|]. destruct (proj1 (assertSwapQuote_returns _ _ _ (exampleQuote_accepted 11 ltac:(lia))),
    proj2 (assertSwapQuote_returns _ _ _ (exampleQuote_accepted 11 ltac:(lia)))) as [Hcarry Hverified].
  apply (quoted_swap_submits silent accept exampleReader exampleInput exampleRequest (quoteValue exampleQuote) exampleQuote
    10 11 12 13 newClient); first [reflexivity|done|cbn; lia].
Defined.

(** ** From the quote to the replay *)

(** The projection's pool and fee are those the quote was read with. *)
Definition QuotedAt (q : Swap.SwapQuote) (p : Proj.ProtocolProjection) : Prop :=
  let context := q.(Swap.context) in
  p.(Proj.feeBps) = context.(SwapContext.reflectionFeeBps)
  /\ p.(Proj.pool).(Pool.ammFeeBps) = context.(SwapContext.ammFeeBps)
  /\ match q.(Swap.direction) with
     | sell => p.(Proj.pool).(Pool.trflReserve) = context.(SwapContext.inputReserve)
               /\ p.(Proj.pool).(Pool.tusdReserve) = context.(SwapContext.outputReserve)
     | buy => p.(Proj.pool).(Pool.tusdReserve) = context.(SwapContext.inputReserve)
              /\ p.(Proj.pool).(Pool.trflReserve) = context.(SwapContext.outputReserve)
     end.

(** The receipt of a swap that settles at the quote. *)
Definition receiptOf (account : Address) (q : Swap.SwapQuote) : SwapExecuted.SwapExecutedEvent :=
  let received := q.(Swap.context).(SwapContext.inputReserve) + q.(Swap.netReserveInput) in
  let paid := q.(Swap.context).(SwapContext.outputReserve) - q.(Swap.grossPoolOutput) in
  SwapExecuted.mk account q.(Swap.direction) q.(Swap.grossAmount) q.(Swap.reflectionFee) q.(Swap.ammFee)
    q.(Swap.netReserveInput) q.(Swap.grossPoolOutput) q.(Swap.netUserReceipt)
    match q.(Swap.direction) with sell => received | buy => paid end
    match q.(Swap.direction) with sell => paid | buy => received end.

(** The reducer expects of the receipt what the client verified of the quote. *)
Lemma quoteSwapReceipt_verified account now q p :
  Verified now q -> QuotedAt q p ->
  let e := receiptOf account q in
  quoteSwapReceipt p e = Returns (Quote.mk q.(Swap.reflectionFee) q.(Swap.netReserveInput)
    e.(SwapExecuted.trflReserveAfter) e.(SwapExecuted.tusdReserveAfter) q.(Swap.ammFee) q.(Swap.grossPoolOutput)
    q.(Swap.netUserReceipt)).
Proof.
  intros Hq (Hf & Hamm & Hr). pose proof (verified_settles now q Hq) as (Hx & Ht & En & Et & Eo & Er & Eu). cbv zeta in *.
  unfold quoteSwapReceipt, receiptOf. rewrite Hf, Hamm. cbn [SwapExecuted.direction SwapExecuted.grossAmount
    SwapExecuted.reflectionFee SwapExecuted.netReserveInput SwapExecuted.grossPoolOutput].
  destruct (Swap.direction q); destruct Hr as [-> ->];
    [rewrite bool_decide_false by done|rewrite bool_decide_true by done]; cbv iota in *; rewrite <- ?En, <- Et, <- Er;
    rewrite bigintDivide_pos by lia; rewrite <- Eo; cbn; do 2 f_equal; lia.
Qed.

(** On the curve, with the fee left in the pool, the product does not fall. *)
Lemma verified_product now q :
  Verified now q ->
  let context := q.(Swap.context) in
  context.(SwapContext.inputReserve) * context.(SwapContext.outputReserve)
  <= (context.(SwapContext.inputReserve) + q.(Swap.netReserveInput))
     * (context.(SwapContext.outputReserve) - q.(Swap.grossPoolOutput)).
Proof.
  intros [_ _ Hc Ha Hp]. pose proof (curve_output _ _ (priced_curve _ Hp)) as [_ Hk]. cbn in *.
  pose proof (amounts_amm _ Ha) as Hamm. pose proof (amounts_net _ Ha) as Hn. pose proof (amounts_gross _ Ha) as Hg.
  pose proof (context_input _ Hc) as Hx. pose proof (context_output _ Hc) as Hy.
  pose proof (curve_amm_fee _ _ (priced_curve _ Hp)) as [Hlow Hhigh]. cbn in *.
  pose proof (context_amm _ Hc) as Hbps. unfold Positive, Unsigned, BPS_DENOMINATOR in *.
  set (x := SwapContext.inputReserve _) in *. set (y := SwapContext.outputReserve _) in *.
  set (traded := Swap.netReserveInput q - Swap.ammFee q) in *.
  assert (0 <= traded) by nia. assert (0 < y - Swap.grossPoolOutput q) by nia. nia.
Qed.

(** C14. What the client verifies is what the reducer checks.  When a swap
    executes at a quote the client verified, on the pool and fee it was read
    with, its receipt raises no alert of the fee formula or of the reserves: the
    replay of the receipt has exactly the alerts of the wallet's movements, and
    leaves the reserves one swap further on the quote's curve. *)
Theorem verified_quote_replays b account v now q c c'
    (Haccepted : assertSwapQuote v now = Returns q) (Hstate : QuotedAt q c.(Ctx.next))
    (Hreplay : onSwapExecuted b (receiptOf account q) c = (Returns tt, c')) :
  (exists c1, settleWallet b (receiptOf account q) c = (Returns tt, c1) /\ c'.(Ctx.alerts) = c1.(Ctx.alerts))
  /\ c'.(Ctx.next).(Proj.pool).(Pool.trflReserve) = (receiptOf account q).(SwapExecuted.trflReserveAfter)
  /\ c'.(Ctx.next).(Proj.pool).(Pool.tusdReserve) = (receiptOf account q).(SwapExecuted.tusdReserveAfter)
  /\ poolProduct c.(Ctx.next).(Proj.pool) <= poolProduct c'.(Ctx.next).(Proj.pool).
Proof.
  apply assertSwapQuote_returns in Haccepted as [_ Hverified].
  set (e := receiptOf account q) in *. unfold onSwapExecuted in Hreplay.
  apply bind_returns in Hreplay as ([] & c1 & E1 & H). apply bind_returns in H as ([] & c2 & E2 & H).
  assert (Hsame : poolAndFee c2.(Ctx.next) = poolAndFee c.(Ctx.next)).
  { rewrite (settle_poolAndFee _ _ _ _ _ _ _ _ _ E2). by eapply debit_poolAndFee. }
  apply poolAndFee_inv in Hsame as [Ep Ef]. pose proof Hstate as (Hfee & Hamm & Hr).
  assert (Hstate2 : QuotedAt q c2.(Ctx.next)) by (unfold QuotedAt; by rewrite Ep, Ef).
  pose proof (quoteSwapReceipt_verified account now q _ Hverified Hstate2) as Hquote. fold e in Hquote.
  apply bind_returns in H as (next & c3 & [-> ->]%getNext_returns & H).
  apply bind_returns in H as (quote & c3 & [Eq ->]%lift_returns & H). rewrite Hquote in Eq. injection Eq as <-.
  apply bind_returns in H as ([] & c3 & E3 & H). apply bind_returns in H as ([] & c4 & E4 & H).
  apply alertIf_returns in E3, E4. apply modifyNext_returns in H. subst c3 c4 c'. cbn. rewrite !bool_decide_false by (by intros []).
  cbn. rewrite !app_nil_r. split; [|split; [done|split; [done|]]].
  - exists c2. split; [|done]. unfold settleWallet, mbind, replay_bind in *. by rewrite E1.
  - unfold poolProduct. cbn. pose proof (verified_product now q Hverified) as Hk. cbv zeta in Hk.
    unfold e, receiptOf. cbn. destruct (Swap.direction q); destruct Hr as [-> ->]; lia.
Qed.

Lemma verified_quote_replays_witness :
  exists c', onSwapExecuted seededContext.(Ctx.first).(base) (receiptOf TEST_ACCOUNT exampleQuote) seededContext = (Returns tt, c')
    /\ c'.(Ctx.next).(Proj.pool).(Pool.tusdReserve) = 999014.
Proof.
  eexists. assert (H : onSwapExecuted seededContext.(Ctx.first).(base) (receiptOf TEST_ACCOUNT exampleQuote) seededContext
    = (Returns tt, ?[c'])) by (vm_compute; reflexivity).
  split; [exact H|]. assert (Hstate : QuotedAt exampleQuote seededContext.(Ctx.next)) by (vm_compute; split_and!; reflexivity).
  destruct (verified_quote_replays _ TEST_ACCOUNT (quoteValue exampleQuote) 11 exampleQuote _ _
    (exampleQuote_accepted 11 ltac:(lia)) Hstate H) as (_ & _ & Hu & _). exact Hu.
Defined.
