(* ===== verification/AdapterTheorems.v ===== *)
(** * Properties of the read adapters

    What the production adapter returns was read at one version of a deployment
    the chain confirms; its quotes pass the client's verification, and are the
    ones the development adapter makes of the same pool. *)
From S2P Require Import Prelude JsMap Types MoveDomains JsValue SdkTypes Accounting Replay Group WalletHandlers.
From S2P Require Import LpHandlers PoolHandlers LiquidityMath DraftEncoder SafeClient QuoteSpec ClientSpec.
From S2P Require Import FinalizedAdapter FinalizedSpec MockAdapter SdkTheorems.

#[local] Arguments bigintDivide _ _ : simpl never.
#[local] Arguments bpsOf _ _ : simpl never.

(** ** An example deployment *)

Definition exampleManifest : Manifest.FinalizedProtocolManifest :=
  Manifest.mk "cedra-testnet" 2 "pilot" "testnet-v0.2.0" 5 (Modules.mk "0xc0" "0xa0" "0xb0")
    (Addresses.mk "0x1" "0x2" "0x3" "0x4" "0xb0" "0x5" "0x6").

Definition exampleHeader : Outcome JsValue := Returns (JsObject [
  ("chain_id", JsNumber (Some 2)); ("ledger_version", JsString "7"); ("ledger_timestamp", JsString "1000000000")]).

(** ASCII, as a stand-in for the platform's decoder. *)
Definition decodeAscii (bytes : list Z) : option string :=
  Some (String.string_of_list_ascii (map (fun b => ascii_of_nat (Z.to_nat b)) bytes)).

Definition bytesOf (s : string) : JsValue :=
  JsArray (map (fun c => JsNumber (Some (Z.of_nat (nat_of_ascii c)))) (String.list_ascii_of_string s)).

(** The views of a pool with a million units on each side, at version 7. *)
Definition exampleViews (request : ViewRequest.ViewRequest) : Outcome (list JsValue) :=
  let answers : list (string * list JsValue) := [
    ("0xc0::reflection_registry::state_object", [JsString "0xc0"]);
    ("0xc0::reflection_registry::deployment_id", [bytesOf "pilot"]);
    ("0xc0::reflection_registry::network_label", [bytesOf "cedra-testnet"]);
    ("0xc0::reflection_registry::release_version", [JsString "0"; JsString "2"; JsString "0"]);
    ("0xc0::reflection_token::metadata", [JsObject [("inner", JsString "0x01")]]);
    ("0xc0::reflection_token::reward_vault", [JsObject [("inner", JsString "0x3")]]);
    ("0xc0::reflection_token::distribution_vault", [JsString "0x4"]);
    ("0xa0::mock_usd::metadata", [JsString "0x2"]);
    ("0xb0::pool::rfl_reserve_store", [JsString "0x5"]);
    ("0xb0::pool::usd_reserve_store", [JsString "0x6"]);
    ("0xa0::mock_usd::pool_reserve", [JsString "0x6"]);
    ("0xb0::pool::quote_sell", [JsString "986"; JsString "10"; JsString "3"]);
    ("0xb0::pool::reserves_view", [JsString "1000000"; JsString "1000000"]);
    ("0xb0::pool::limits", [JsString "30"; JsString "1000"; JsString "100000"]);
    ("0xc0::reflection_token::reflection_fee_bps", [JsString "100"])] in
  from_option Returns (Throws (mkError "Error" "view")) (jsGet request.(ViewRequest.function) answers).

Definition firstError (errors : list JsError) : JsError := default (mkError "Error" "") (head errors).

(** The sale of 1,000 units. *)
Definition exampleSale : Request.QuoteRequest := Request.mk sell 1000 50 2000.

Definition exampleAdapterQuote : Outcome Swap.SwapQuote * list ViewRequest.ViewRequest :=
  Finalized.quoteSwap decodeAscii firstError exampleHeader exampleViews exampleManifest exampleSale [].

(** ** One version *)

(** C16. Whatever the operation and its outcome, every view it asks for is pinned
    at one ledger version: that of the single header it read, of the manifest's
    chain and not older than the manifest.  And what it returns was read at that
    version and says so, of a deployment whose eleven identity views the chain
    answered there in agreement with the manifest. *)
Theorem adapter_reads_pinned decodeUtf8 race getLedgerInfo viewJson manifest A (H : ObservedAt A)
    (m : Task (list ViewRequest.ViewRequest) A) log o log'
    (Hop : Operation decodeUtf8 race getLedgerInfo viewJson manifest A H m) (Hrun : m log = (o, log')) :
  exists issued, log' = log ++ issued
    /\ ((issued = [] /\ exists e, o = Throws e)
        \/ exists header version, getLedgerInfo = Returns header
             /\ Finalized.unsigned (member header "chain_id") U64 "ledger_info::chain_id" = Returns manifest.(Manifest.chainId)
             /\ Finalized.unsigned (member header "ledger_version") U64 "ledger_info::ledger_version" = Returns version
             /\ manifest.(Manifest.finalizedLedgerVersion) <= version
             /\ Forall (fun r => r.(ViewRequest.ledgerVersion) = version) issued
             /\ forall a, o = Returns a -> Confirmed decodeUtf8 viewJson manifest version /\ observedAt version a).
Proof.
  apply operation_anchored in Hop. destruct (Hop _ _ _ Hrun) as [(issued & -> & Hi) Ha]. exists issued. split; [done|].
  assert (Hpinned : (exists pinned, Finalized.pinLedger getLedgerInfo manifest = Returns pinned
      /\ Forall (fun r => r.(ViewRequest.ledgerVersion) = pinned.(Pinned.version)) issued)
    \/ (issued = [] /\ exists e, o = Throws e)).
  { destruct Hi as [->|Hi]; [|by left]. destruct o as [a|e]; [|right; eauto].
    destruct (Ha a eq_refl) as (pinned & Hp & _). left. by exists pinned. }
  destruct Hpinned as [(pinned & Hp & Hf)|]; [|by left]. right.
  destruct (pinLedger_returns _ _ _ Hp) as (Hv & _ & header & Eh & Ec & Ev).
  exists header, pinned.(Pinned.version). repeat (split; [done || lia|]). intros a Ea.
  destruct (Ha a Ea) as (pinned' & Hp' & Hconfirmed). rewrite Hp in Hp'. by injection Hp' as <-.
Qed.

Lemma adapter_reads_pinned_witness :
  exists q issued, exampleAdapterQuote = (Returns q, issued) /\ length issued = 15%nat
    /\ Forall (fun r => r.(ViewRequest.ledgerVersion) = 7) issued
    /\ Confirmed decodeAscii exampleViews exampleManifest 7.
Proof.
  destruct exampleAdapterQuote as [o issued] eqn:E.
  assert (Ho : exists q, o = Returns q) by (revert E; vm_compute; intros [= <- _]; by eexists).
  assert (Hl : length issued = 15%nat) by (revert E; vm_compute; by intros [= _ <-]).
  destruct Ho as [q ->]. exists q, issued. split; [done|split; [done|]].
  destruct (adapter_reads_pinned decodeAscii firstError exampleHeader exampleViews exampleManifest _ _ _ [] (Returns q) issued
    (Op_quoteSwap _ _ _ _ _ exampleSale) E) as (issued' & -> & [[_ [e He]]|(header & version & Eh & _ & Ev & _ & Hf & Ha)]); [done|].
  injection Eh as <-. injection Ev as <-. split; [exact Hf|]. by destruct (Ha q eq_refl).
Defined.

(** ** From the adapter to the client *)

(** The client accepts and remembers what the adapter quotes, exactly while
    the deadline is ahead on the client's clock and the deployment id is not
    longer than the client allows: no other check of the client can refuse a
    quote of the adapter.  (The adapter itself takes a manifest with an id of any
    length; with more than 512 code units every quote of it is refused.) *)
Theorem adapter_quote_accepted decodeUtf8 race getLedgerInfo viewJson raw manifest input log q log' t c
    (Hmanifest : Finalized.newAdapter raw = Returns manifest)
    (Hquote : Finalized.quoteSwap decodeUtf8 race getLedgerInfo viewJson manifest input log = (Returns q, log'))
    (Ht : Unsigned U64_MAX t) :
  quoteSwapAnswer input (Returns (quoteValue q)) (JsBigint t) c = (Returns (c.(Client.allocated), q), remembered q c)
  <-> t < input.(Request.deadlineUnixSeconds) /\ jsLength manifest.(Manifest.deploymentId) <= 512.
Proof.
  destruct (quoteSwap_verified _ _ _ _ _ _ _ _ _ _ t Hmanifest Hquote) as (Hi & Hd & Hq). split.
  - intros E. apply quoteSwapAnswer_cases in E as [(e & He & _)|(v & now & q' & _ & [= <-] & _ & Ha & [= <-] & _)]; [done|].
    destruct Ha as (_ & _ & _ & Hdl & _ & Hv). split; [rewrite <- Hdl; apply Hv|]. rewrite <- Hd. apply Hv.
  - intros [Hnow Hlong]. specialize (Hq Hnow Hlong). unfold quoteSwapAnswer. erewrite task_bind_eq by reflexivity.
    rewrite (proj2 (currentTime_returns _ _) (conj eq_refl Ht)). erewrite task_bind_eq by reflexivity.
    rewrite (assertSwapQuote_value (quoteValue q) t q); [|split; apply carries_own|done].
    erewrite task_bind_eq by reflexivity. rewrite <- Hi. rewrite unlessThrow_true by (by rewrite !bool_decide_true).
    reflexivity.
Qed.

Lemma adapter_quote_accepted_witness :
  exists q issued c', exampleAdapterQuote = (Returns q, issued)
    /\ quoteSwapAnswer exampleSale (Returns (quoteValue q)) (JsBigint 1500) newClient = (Returns (0%nat, q), c').
Proof.
  destruct exampleAdapterQuote as [o issued] eqn:E.
  assert (Ho : exists q, o = Returns q) by (revert E; vm_compute; intros [= <- _]; by eexists). destruct Ho as [q ->].
  exists q, issued, (remembered q newClient). split; [done|].
  assert (Hm : Finalized.newAdapter exampleManifest = Returns exampleManifest) by (vm_compute; reflexivity).
  assert (Ht : Unsigned U64_MAX 1500) by (split; [done|by vm_compute]).
  apply (adapter_quote_accepted decodeAscii firstError exampleHeader exampleViews exampleManifest exampleManifest exampleSale
    [] q issued 1500 newClient Hm E Ht). split; [done|by vm_compute].
Defined.

(** ** The development adapter *)

(** The mock's state shows the pool and the fee a quote was read with. *)
Definition ShownBy (state : MockState.MockReadState) (q : Swap.SwapQuote) : Prop :=
  let pool := state.(MockState.protocol).(Protocol.pool) in
  let c := q.(Swap.context) in
  default 100 state.(MockState.protocol).(Protocol.reflectionFeeBps) = c.(SwapContext.reflectionFeeBps)
  /\ c.(SwapContext.ammFeeBps) = 30
  /\ match q.(Swap.direction) with
     | sell => pool.(PoolView.trflReserve) = c.(SwapContext.inputReserve) /\ pool.(PoolView.tusdReserve) = c.(SwapContext.outputReserve)
     | buy => pool.(PoolView.tusdReserve) = c.(SwapContext.inputReserve) /\ pool.(PoolView.trflReserve) = c.(SwapContext.outputReserve)
     end.

(** The provenance of a quote of the mock. *)
Definition mockContext (state : MockState.MockReadState) (c : SwapContext.SwapQuoteContext) : SwapContext.SwapQuoteContext :=
  let protocol := state.(MockState.protocol) in
  let pool := protocol.(Protocol.pool) in
  SwapContext.mk CEDRA_TESTNET_CHAIN_ID pool.(PoolView.ledgerVersion) "mock-reflection-pilot" protocol.(Protocol.packageVersion)
    c.(SwapContext.inputReserve) c.(SwapContext.outputReserve) c.(SwapContext.reflectionFeeBps) 30
    pool.(PoolView.maximumGrossSwap) pool.(PoolView.maximumReserveBps).

Lemma reflectionFee_value gross bps :
  Unsigned U64_MAX gross -> Unsigned MAX_REFLECTION_FEE_BPS bps -> reflectionFee gross bps = Returns (bpsOf gross bps).
Proof. unfold Unsigned, reflectionFee. intros Hg Hb. by rewrite !bool_decide_false by lia. Qed.

(** The development adapter stands in faithfully for the chain: for a quote
    that passes the client's verification, of a pool with an AMM fee of 30 basis
    points that the mock's state shows, the mock answers the same request with
    the same amounts, minimum and price impact, under its own provenance. *)
Theorem mock_quote_agrees state v now q (Haccepted : assertSwapQuote v now = Returns q) (Hstate : ShownBy state q) :
  Mock.quoteSwap state
    (Request.mk q.(Swap.direction) q.(Swap.grossAmount) q.(Swap.slippageBps) q.(Swap.deadlineUnixSeconds))
  = Returns (Swap.mk q.(Swap.direction) q.(Swap.grossAmount) q.(Swap.slippageBps) q.(Swap.reflectionFee) q.(Swap.ammFee)
      q.(Swap.netReserveInput) q.(Swap.grossPoolOutput) q.(Swap.netUserReceipt) q.(Swap.minimumNetUserReceipt)
      q.(Swap.priceImpactBps) q.(Swap.deadlineUnixSeconds) (mockContext state q.(Swap.context))).
Proof.
  apply assertSwapQuote_returns in Haccepted as [_ Hq].
  pose proof (verified_settles now q Hq) as (Hx & Ht & En & Et & Eo & Er & Eu). cbv zeta in *.
  destruct Hq as [_ _ Hc Ha Hp]. destruct Hstate as (Hf & Hamm & Hr).
  pose proof (priced_minimum _ Hp) as Hmin. pose proof (priced_impact _ Hp) as Himpact. cbv zeta in Himpact.
  assert (Hgross : Unsigned U64_MAX (Swap.grossAmount q)) by (pose proof (amounts_gross _ Ha); unfold Positive, Unsigned in *; lia).
  assert (Hout : Unsigned U64_MAX (Swap.grossPoolOutput q)) by (pose proof (amounts_output _ Ha); unfold Positive, Unsigned in *; lia).
  pose proof (context_reflection _ Hc) as Hfee. pose proof (amounts_slippage _ Ha) as Hslip. pose proof (amounts_receipt _ Ha) as Hrec.
  assert (Emin : Z.quot (Swap.netUserReceipt q * (10000 - Swap.slippageBps q)) 10000 = Swap.minimumNetUserReceipt q).
  { apply quot_floor; unfold Unsigned, Positive, BPS_DENOMINATOR in *; [nia|lia|exact Hmin]. }
  assert (Eimpact : Z.quot ((Swap.netReserveInput q - Swap.ammFee q) * 10000)
      (SwapContext.inputReserve (Swap.context q) + (Swap.netReserveInput q - Swap.ammFee q)) = Swap.priceImpactBps q).
  { apply quot_floor; [lia|lia|exact Himpact]. }
  assert (Et' : Z.quot (Swap.netReserveInput q * (10000 - 30)) 10000 = Swap.netReserveInput q - Swap.ammFee q) by (by rewrite Et, Hamm).
  unfold Mock.quoteSwap. cbn [Request.direction Request.grossAmount Request.slippageBps Request.deadlineUnixSeconds].
  rewrite Hf. destruct (Swap.direction q) eqn:Ed; destruct Hr as [Hr1 Hr2];
    [rewrite !(bool_decide_false (buy = sell)), !(bool_decide_true (buy = buy)) by done
    |rewrite !(bool_decide_true (sell = sell)), !(bool_decide_false (sell = buy)) by done]; cbv iota in *.
  - cbn [mbind outcome_bind]. rewrite Z.sub_0_r, <- En, Et', Hr1, Hr2. rewrite !bigintDivide_pos by lia.
    rewrite (Z.mul_comm (_ - _) (SwapContext.outputReserve _)), <- Eo. cbn [mbind outcome_bind].
    rewrite (reflectionFee_value _ _ Hout Hfee), <- Er. cbn [mbind outcome_bind]. rewrite <- Eu, Emin.
    rewrite bool_decide_false by lia. rewrite Eimpact. cbn [mbind outcome_bind].
    unfold mockContext. do 2 f_equal. lia.
  - rewrite (reflectionFee_value _ _ Hgross Hfee), <- Er. cbn [mbind outcome_bind]. rewrite <- En, Et', Hr1, Hr2.
    rewrite !bigintDivide_pos by lia. rewrite (Z.mul_comm (_ - _) (SwapContext.outputReserve _)), <- Eo.
    cbn [mbind outcome_bind]. rewrite <- Eu, Emin. rewrite bool_decide_false by lia.
    rewrite Eimpact. cbn [mbind outcome_bind]. unfold mockContext. do 2 f_equal. lia.
Qed.

(** A mock that shows a million units on each side. *)
Definition exampleState : MockState.MockReadState :=
  let pool := PoolView.mk 1000000 1000000 (Some LIVE) false 100000 1000 100000 100000 10000 9 in
  let faucet asset := Faucet.mk asset "0xa11ce" 1000 0 true in
  MockState.mk (Portfolio.mk "0xa11ce" 0 0 0 0 0 0 9)
    (Protocol.mk (Some LIVE) None false 0 0 0 0 0 0 0 0 pool false false "testnet-v0.2.0" 9)
    (faucet tRFL) (faucet tUSD) None.

Lemma mock_quote_agrees_witness :
  exists q, Mock.quoteSwap exampleState exampleRequest = Returns q /\ q.(Swap.minimumNetUserReceipt) = 981.
Proof.
  eexists. split; [apply (mock_quote_agrees exampleState _ 11 exampleQuote (exampleQuote_accepted 11 ltac:(lia))); vm_compute; split_and!; reflexivity|].
  reflexivity.
Defined.
