(* ===== verification/LiquidityTheorems.v ===== *)
(** * Properties of liquidity receipts, and of the second package generation *)
From S2P Require Import Prelude JsMap Types MoveDomains Domains Accounting RewardBook Replay Group.
From S2P Require Import WalletHandlers LpHandlers PoolHandlers ConfigHandlers Ledger GroupChecks.
From S2P Require Import LiquidityMath Reducer LedgerInvariant Numerals CursorRoundTrip ReducerCorrect.
From S2P Require Import ReducerSpec LiquidityChecks Frames Fixtures ReducerTheorems.

#[local] Arguments cloneProjection _ : simpl never.

(** ** Fixtures *)

(** An addition of 500 shares to the pool after the sell: both amounts round up. *)
Definition addEvents : list ProtocolEvent :=
  [ at_ "0xadd" 6 0 "add-custody" (EvCustodySharesChanged (CustodySharesChanged.mk true 501 1001491 3000491));
    at_ "0xadd" 6 1 "add-lp"
      (EvLpSharesChanged (LpSharesChanged.mk 1 TEST_ACCOUNT true 500 1000500 1000500));
    at_ "0xadd" 6 2 "add-receipt"
      (EvLiquidityAdded (LiquidityAdded.mk 1 TEST_ACCOUNT 501 500 500 1001491 999514)) ].

(** A removal of 1000 shares from it: both amounts round down. *)
Definition removeEvents : list ProtocolEvent :=
  [ at_ "0xrm" 6 0 "rm-custody" (EvCustodySharesChanged (CustodySharesChanged.mk false 1000 999990 2998990));
    at_ "0xrm" 6 1 "rm-lp"
      (EvLpSharesChanged (LpSharesChanged.mk 1 TEST_ACCOUNT false 1000 999000 999000));
    at_ "0xrm" 6 2 "rm-receipt"
      (EvLiquidityRemoved (LiquidityRemoved.mk 1 TEST_ACCOUNT 1000 999 1000 false 999990 998015)) ].

(** The creation group of a v0.2 deployment. *)
Definition v02Events : list ProtocolEvent :=
  [ at_ "0xinit" 1 0 "init" (EvTokenCreated
      {| TokenCreated.eventSchema := "v0.2";
         TokenCreated.deploymentId := "reflection-pilot-002";
         TokenCreated.networkLabel := "cedra-testnet";
         TokenCreated.tokenMetadata := TOKEN_METADATA;
         TokenCreated.rewardVault := CORE_REWARD_VAULT;
         TokenCreated.distributionVault := DISTRIBUTION_VAULT;
         TokenCreated.reflectionFeeBps := 100;
         TokenCreated.totalSupply := 1000000000000000;
         TokenCreated.decimals := 6;
         TokenCreated.packageVersion := V02 |}) ].

Definition v02Projection : Proj.ProtocolProjection := projectionAfter [v02Events].

(** A provider leaves with every share. *)
Definition finalExitEvents : list ProtocolEvent :=
  [ at_ "0xexit" 6 0 "exit"
      (EvLiquidityRemoved (LiquidityRemoved.mk 1 TEST_ACCOUNT 1000 1000 1000 true 0 0)) ].

(** Projections a run of clean groups leads to from [prior]. *)
Inductive CleanRun (prior : Proj.ProtocolProjection) : Proj.ProtocolProjection -> Prop :=
| CleanRun_nil : CleanRun prior prior
| CleanRun_group p events p' :
    CleanRun prior p -> reduceEventGroup p events = Returns (Result.mk p' []) -> CleanRun prior p'.

(** ** Arithmetic *)

(** [integerSqrt] terminates with the floor of the square root on every
    non-negative input: its Newton loop needs no more rounds than the input has
    bits, plus three. *)
Theorem integerSqrt_floor value :
  0 <= value -> exists root, integerSqrt value = Returns root
    /\ 0 <= root /\ root * root <= value < (root + 1) * (root + 1).
Proof.
  intros Hv. exists (Z.sqrt value). split; [by apply integerSqrt_eq|].
  pose proof (Z.sqrt_spec value Hv) as [Hl Hu]. pose proof (Z.sqrt_nonneg value). unfold Z.succ in Hu. lia.
Qed.

Lemma integerSqrt_floor_witness :
  exists root, integerSqrt 1000001 = Returns root /\ root * root <= 1000001.
Proof.
  destruct (integerSqrt_floor 1000001 ltac:(lia)) as (root & E & _ & Hr & _).
  exists root. split; [exact E|exact Hr].
Defined.

(** [ceilDiv] returns the least quotient that covers the numerator, and
    rejects a denominator that is not positive. *)
Theorem ceilDiv_least numerator denominator :
  0 <= numerator ->
  (denominator <= 0 ->
     ceilDiv numerator denominator = Throws (RangeError "division denominator must be positive"))
  /\ (0 < denominator -> exists q, ceilDiv numerator denominator = Returns q
        /\ numerator <= q * denominator
        /\ forall q', numerator <= q' * denominator -> q <= q').
Proof.
  intros Hn. split; intros Hd; [unfold ceilDiv; by rewrite (bool_decide_true (denominator <= 0) Hd)|].
  exists (- (- numerator / denominator)). pose proof (ceilDiv_eq numerator denominator Hn Hd) as E.
  split; [exact E|]. apply ceilDiv_iff in E; [|done..]. split; [lia|]. intros q' Hq'. nia.
Qed.

Lemma ceilDiv_least_witness : exists q, ceilDiv 7 2 = Returns q /\ 7 <= q * 2.
Proof.
  destruct (ceilDiv_least 7 2 ltac:(lia)) as [_ H]. destruct (H ltac:(lia)) as (q & E & Hq & _).
  exists q. split; [exact E|exact Hq].
Defined.

(** ** Liquidity receipts *)

(** C38. A liquidity addition in a clean group targets the active epoch, and pays
    in of each asset the least whole amount that covers its share of the reserve:
    existing providers are never diluted, and the overpayment is below one unit. *)
Theorem liquidity_added_fair prior events p b r :
  reduceEventGroup prior events = Returns (Result.mk p []) ->
  (b, r) ∈ pick asLiquidity events -> r.(Liq.kind) = Added ->
  exists epoch, TargetsActive prior r epoch /\ 0 < epoch.(LpEpoch.totalShares)
    /\ MintAmount r.(Liq.lpShares) epoch.(LpEpoch.totalShares) prior.(Proj.pool).(Pool.trflReserve) r.(Liq.trflAmount)
    /\ MintAmount r.(Liq.lpShares) epoch.(LpEpoch.totalShares) prior.(Proj.pool).(Pool.tusdReserve) r.(Liq.tusdAmount).
Proof.
  intros H Hin Hk. destruct (clean_receipt _ _ _ _ _ H Hin) as (_ & Hd & c1 & c2 & Hc & Hn).
  destruct (checkLiquidityReceipt_active _ _ _ _ _ _ Hc Hn) as (epoch & Ht & Ha); [by rewrite Hk|].
  rewrite Hk in Ha. exists epoch. split; [done|]. eapply checkLiquidityAdded_clean; [done..|].
  unfold ReceiptDomains, fitsUnsigned in Hd. lia.
Qed.

Lemma liquidity_added_fair_witness :
  exists p epoch, reduceEventGroup soldProjection addEvents = Returns (Result.mk p [])
    /\ MintAmount 500 epoch.(LpEpoch.totalShares) 1000990 501.
Proof.
  eexists. assert (H : reduceEventGroup soldProjection addEvents = Returns (Result.mk ?[p] []))
    by (vm_compute; reflexivity).
  destruct (liquidity_added_fair soldProjection addEvents _ _
    (addedReceipt (LiquidityAdded.mk 1 TEST_ACCOUNT 501 500 500 1001491 999514)) H
    ltac:(left) ltac:(reflexivity)) as (epoch & _ & _ & Hm & _).
  exists epoch. split; [exact H|exact Hm].
Defined.

(** C39. A liquidity removal in a clean group targets the active epoch and takes
    no more than its shares; it is paid of each asset the greatest whole amount
    within its proportion; it is marked final exactly when it takes every share,
    which needs a pool already shut down and the ordered terminal sequence; and a
    non-final one before shutdown stays under the configured share limit. *)
Theorem liquidity_removed_fair prior events p b r :
  reduceEventGroup prior events = Returns (Result.mk p []) ->
  (b, r) ∈ pick asLiquidity events -> r.(Liq.kind) = Removed ->
  let pool := prior.(Proj.pool) in
  exists epoch, TargetsActive prior r epoch
    /\ 0 < epoch.(LpEpoch.totalShares) /\ r.(Liq.lpShares) <= epoch.(LpEpoch.totalShares)
    /\ BurnAmount r.(Liq.lpShares) epoch.(LpEpoch.totalShares) pool.(Pool.trflReserve) r.(Liq.trflAmount)
    /\ BurnAmount r.(Liq.lpShares) epoch.(LpEpoch.totalShares) pool.(Pool.tusdReserve) r.(Liq.tusdAmount)
    /\ r.(Liq.finalExit) = bool_decide (r.(Liq.lpShares) = epoch.(LpEpoch.totalShares))
    /\ (r.(Liq.finalExit) = true ->
          pool.(Pool.shutdownMode) = true /\ finalExitOrdered (sortByIndex events) b r = true)
    /\ (r.(Liq.finalExit) = false -> pool.(Pool.shutdownMode) = false ->
        r.(Liq.lpShares) * BPS_DENOMINATOR
          <= epoch.(LpEpoch.totalShares) * pool.(Pool.maximumNonFinalWithdrawalShareBps)).
Proof.
  intros H Hin Hk. destruct (clean_receipt _ _ _ _ _ H Hin) as (_ & _ & c1 & c2 & Hc & Hn).
  destruct (checkLiquidityReceipt_active _ _ _ _ _ _ Hc Hn) as (epoch & Ht & Ha); [by rewrite Hk|].
  rewrite Hk in Ha. exists epoch. split; [done|]. by eapply checkLiquidityRemoved_clean.
Qed.

Lemma liquidity_removed_fair_witness :
  exists p epoch, reduceEventGroup soldProjection removeEvents = Returns (Result.mk p [])
    /\ BurnAmount 1000 epoch.(LpEpoch.totalShares) 999014 999.
Proof.
  eexists. assert (H : reduceEventGroup soldProjection removeEvents = Returns (Result.mk ?[p] []))
    by (vm_compute; reflexivity).
  destruct (liquidity_removed_fair soldProjection removeEvents _ _
    (removedReceipt (LiquidityRemoved.mk 1 TEST_ACCOUNT 1000 999 1000 false 999990 998015)) H
    ltac:(left) ltac:(reflexivity)) as (epoch & _ & _ & _ & Hb & Hb' & _).
  exists epoch. split; [exact H|]. exact Hb'.
Defined.

(** ** The second package generation *)

Lemma v02_group prior events p :
  LedgerOk prior -> V02Deployment prior ->
  reduceEventGroup prior events = Returns (Result.mk p []) -> V02Deployment p.
Proof.
  intros Hl Hv H. destruct (decide (events = [])) as [->|Hne]; [by injection H as <-|].
  apply reduceEventGroup_inv in H.
  destruct (reduced_clean _ _ _ H) as (first & rest & checked & applied & E & _ & _ & Hc & _ & Hr & Hn & ->);
    [by intros ?%sortByIndex_nil|].
  refine (v02_replayGroup _ _ _ _ _ _ Hr Hn). rewrite (reads _ _ _ Hc). cbn. by rewrite clone_id.
Qed.

Lemma v02_run prior p :
  LedgerOk prior -> V02Deployment prior -> CleanRun prior p -> LedgerOk p /\ V02Deployment p.
Proof.
  intros Hl Hv. induction 1 as [|p events p' _ [Hlp Hvp] E]; [done|].
  split; [|by eapply v02_group].
  eapply (reduced_ledger _ _ (Result.mk p' [])); [by apply reduceEventGroup_inv|done].
Qed.

(** Once a deployment is of the second generation, clean groups keep it one:
    however many are replayed, its package version stays v0.2, its pool is never
    in shutdown, and it never has any operational administrator. *)
Theorem v02_deployment_kept prior p :
  LedgerOk prior -> V02Deployment prior -> CleanRun prior p -> V02Deployment p.
Proof. intros Hl Hv Hr. by apply (v02_run prior p). Qed.

Lemma v02_ledger : LedgerOk v02Projection.
Proof.
  refine (proj1 (reachable_is_sound _ (cleanReplay_reachable [v02Events] createEmptyProjection _ _ _))).
  - constructor.
  - vm_compute. reflexivity.
Qed.

Lemma v02_deployment_kept_witness : V02Deployment (projectionAfter [v02Events; ammInitEvents]).
Proof.
  apply (v02_deployment_kept v02Projection).
  - exact v02_ledger.
  - vm_compute. reflexivity.
  - eapply (CleanRun_group _ v02Projection ammInitEvents); [constructor|vm_compute; reflexivity].
Defined.

(** In a v0.2 deployment the final exit of the last provider can never be
    replayed: whatever clean groups came before, a group with a removal marked
    final, or with a removal of all the active epoch's shares, raises an alert. *)
Theorem v02_final_exit_rejected prior p events r b receipt :
  LedgerOk prior -> V02Deployment prior -> CleanRun prior p ->
  reduceEventGroup p events = Returns r ->
  (b, receipt) ∈ pick asLiquidity events -> receipt.(Liq.kind) = Removed ->
  receipt.(Liq.finalExit) = true
    \/ from_option LpEpoch.totalShares 0 (jsGet receipt.(Liq.epoch) p.(Proj.lpEpochs)) = receipt.(Liq.lpShares) ->
  r.(Result.alerts) <> [].
Proof.
  intros Hl Hv Hrun H Hin Hk Hfinal Hn. destruct r as [q alerts]. cbn in Hn. subst.
  destruct (v02_run _ _ Hl Hv Hrun) as [_ Hvp].
  destruct (clean_receipt _ _ _ _ _ H Hin) as (_ & _ & c1 & c2 & Hc & Hn).
  destruct (checkLiquidityReceipt_active _ _ _ _ _ _ Hc Hn) as (epoch & [Hg _] & Ha); [by rewrite Hk|].
  rewrite Hk in Ha. rewrite Hg in Hfinal. cbn in Hfinal.
  apply checkLiquidityRemoved_clean in Ha as (_ & _ & _ & _ & Hf & Hs & _); [|done].
  assert (receipt.(Liq.finalExit) = true) as Ht.
  { destruct Hfinal as [?|E]; [done|]. by rewrite Hf, bool_decide_true. }
  destruct (Hs Ht) as [Hsd _]. unfold V02Deployment, deployment in Hvp. injection Hvp as _ Hsd' _.
  by rewrite Hsd in Hsd'.
Qed.

Lemma v02_final_exit_rejected_witness :
  exists r, reduceEventGroup v02Projection finalExitEvents = Returns r /\ r.(Result.alerts) <> [].
Proof.
  eexists. assert (H : reduceEventGroup v02Projection finalExitEvents = Returns ?[r]) by (vm_compute; reflexivity).
  split; [exact H|].
  eapply (v02_final_exit_rejected v02Projection v02Projection finalExitEvents _ _
    (removedReceipt (LiquidityRemoved.mk 1 TEST_ACCOUNT 1000 1000 1000 true 0 0)) v02_ledger).
  - vm_compute. reflexivity.
  - constructor.
  - exact H.
  - left.
  - reflexivity.
  - left. reflexivity.
Defined.
