(* ===== verification/ReconcilerTheorems.v ===== *)
(** * A reconciliation without alerts certifies agreement, and only agreement *)
From S2P Require Import Prelude JsMap Types MoveDomains Domains Accounting RewardBook Replay Group.
From S2P Require Import WalletHandlers LpHandlers PoolHandlers ConfigHandlers Ledger GroupChecks Reducer.
From S2P Require Import LedgerInvariant Numerals CursorRoundTrip ReducerCorrect ReducerSpec.
From S2P Require Import Frames Fixtures ReducerTheorems Reconciler ReconcilerSpec.

#[local] Arguments includes : simpl never.

(** ** Helpers *)

Lemma some_differs {A} `{EqDecision A} (x : A) o : bool_decide (Some x <> o) = false <-> o = Some x.
Proof. rewrite differs_false. split; congruence. Qed.

Lemma is_None_false {A} (o : option A) `{Decision (o = None)} : bool_decide (o = None) = false <-> is_Some o.
Proof. rewrite bool_decide_eq_false, <- not_eq_None_Some. done. Qed.

#[local] Hint Rewrite @some_differs @is_None_false negb_false_iff : agrees.

Lemma setSize_permutation {A} `{EqDecision A} (keys l : list A) :
  NoDup keys ->
  arrayLength l = setSize l /\ setSize l = arrayLength keys /\ Forall (fun k => k ∈ l) keys <-> keys ≡ₚ l.
Proof.
  intros Hk. split.
  - intros (Hl & Hs & Hf). apply submseteq_length_Permutation.
    + apply NoDup_submseteq; [done|]. intros k Hin. rewrite Forall_forall in Hf. apply Hf. by apply list_elem_of_In.
    + unfold arrayLength in *. lia.
  - intros E. assert (Hn : NoDup l) by (by rewrite <- E).
    assert (Hs : arrayLength l = setSize l).
    { unfold arrayLength, setSize. f_equal. clear -Hn. induction Hn as [|x l Hx Hn IH]; [done|]. cbn.
      destruct (decide_rel _ _ _); [done|]. cbn. by rewrite IH. }
    split; [done|split].
    + rewrite <- Hs. unfold arrayLength. by rewrite E.
    + apply List.Forall_forall. intros k Hin%list_elem_of_In. by rewrite <- E.
Qed.

(** ** The parts *)

Section Parts.
Context (clock : nat -> Z) (cursor : option Cursor.EventCursor).

Lemma clears_identity p o : Clears (compareIdentity clock cursor p o) (IdentityAgrees p o).
Proof.
  eapply clears_iff; [|apply clears_raiseIf]. unfold IdentityAgrees. autorewrite with agrees. unfold is_Some. naive_solver.
Qed.

Lemma registrationsMatch_iff p o :
  jsWf p.(Proj.registeredWallets) -> registrationsMatch p o = true <-> RegistrationsAgree p o.
Proof.
  intros Hwf. unfold registrationsMatch, RegistrationsAgree.
  rewrite !andb_true_iff, !bool_decide_eq_true, forallb_forall, <- (setSize_permutation _ _ Hwf).
  assert (E : jsSize p.(Proj.registeredWallets) = arrayLength (jsKeys p.(Proj.registeredWallets))).
  { unfold jsSize, arrayLength, jsKeys. by rewrite length_map. }
  rewrite E. setoid_rewrite bool_decide_eq_true. rewrite List.Forall_forall. naive_solver.
Qed.

Lemma clears_registrations p o :
  jsWf p.(Proj.registeredWallets) -> Clears (compareRegistrations clock cursor p o) (RegistrationsAgree p o).
Proof.
  intros Hwf. eapply clears_iff; [|apply clears_raiseIf]. by rewrite negb_false_iff, registrationsMatch_iff.
Qed.

Lemma clears_admin key expected observed :
  Clears (compareAdmin clock cursor key expected observed) (is_Some expected /\ observed = expected).
Proof.
  destruct expected as [a|]; (eapply clears_iff; [|apply clears_raiseIf]).
  - rewrite differs_false. unfold is_Some. naive_solver.
  - unfold is_Some. naive_solver.
Qed.

Lemma adminsComplete_iff admins :
  adminsComplete admins = true <-> is_Some admins.(Admins.reflectionCore)
    /\ is_Some admins.(Admins.testAssets) /\ is_Some admins.(Admins.testAmm).
Proof.
  unfold adminsComplete. rewrite !andb_true_iff, !bool_decide_eq_true, !not_eq_None_Some. naive_solver.
Qed.

Lemma clears_authorities p o : Clears (compareAuthorities clock cursor p o) (AuthoritiesAgree p o).
Proof.
  unfold compareAuthorities, AuthoritiesAgree. cbv zeta. destruct (isV02 p); cbn [negb].
  - eapply clears_iff; [|apply clears_raiseIf]. autorewrite with agrees. by rewrite bool_decide_eq_false.
  - eapply clears_iff; [|repeat (intros; first [apply clears_bind|apply clears_admin|apply clears_raiseIf])].
    autorewrite with agrees. destruct (adminsComplete _) eqn:E.
    + apply adminsComplete_iff in E. naive_solver.
    + split; [|by intros (_ & ? & _)]. intros (_ & _ & _ & H1 & H2). congruence.
Qed.

Lemma clears_vault p o vault liability :
  expectedCoreVaultBalance p = Returns vault -> coreIndexedLiability p = Returns liability ->
  Clears (compareVault clock cursor p o vault liability) (VaultAgrees p o).
Proof.
  intros Hv Hl. unfold compareVault, VaultAgrees. rewrite Hv, Hl. eapply clears_iff.
  2:{ apply clears_bind; [apply _|intros _]. apply clears_bind; [apply _|intros _].
      apply clears_bind; [apply _|intros _].
      apply (clears_computing _ _ (o.(Obs.rewardVaultBalance) = o.(Obs.reflectionLiability) + o.(Obs.unallocatedFees) + o.(Obs.roundingReserve))).
      intros sum1 E1. apply clears_computing. intros sum2 E2. checked_inv.
      eapply clears_iff; [|apply clears_raiseIf]. by rewrite differs_false. }
  autorewrite with agrees. unfold is_Some. naive_solver.
Qed.

Lemma clears_totals p o : Clears (compareTotals clock cursor p o) (TotalsAgree p o).
Proof.
  unfold compareTotals, TotalsAgree.
  eapply clears_iff; [|repeat (intros; first [apply clears_bind|apply clears_raiseIf])].
  autorewrite with agrees. naive_solver.
Qed.

Lemma clears_custody p o pending :
  custodyPending p = Returns pending -> Clears (compareCustody clock cursor p o pending) (CustodyAgrees p o).
Proof.
  intros Hp. unfold compareCustody, CustodyAgrees. cbv zeta. rewrite Hp.
  eapply clears_iff; [|repeat (intros; first [apply clears_bind|apply clears_raiseIf])].
  rewrite andb_false_iff. autorewrite with agrees. unfold is_Some. 
  split; [intros H; destruct_and!; repeat split; congruence|].
  intros H; destruct_and!. repeat split; try congruence; eauto; right; congruence.
Qed.

Lemma clears_pool pool o : Clears (comparePool clock cursor pool o) (PoolAgrees pool o).
Proof.
  unfold comparePool, PoolAgrees.
  eapply clears_iff; [|repeat (intros; first [apply clears_bind|apply clears_raiseIf])].
  autorewrite with agrees. naive_solver.
Qed.

(** Whatever the loop left over is alerted one by one. *)
Lemma clears_leftover {W} (n : JsMap Address W) (code : AlertCode) (message : string) (scope : Address -> string) :
  Clears (audit_forEach (fun account => raiseIf clock cursor true code message (scope account) "absent" account) (jsKeys n))
    (jsKeys n = []).
Proof.
  eapply clears_iff; [|apply clears_forEach; intros; apply clears_raiseIf].
  destruct (jsKeys n); [by split; constructor|]. split; [by inversion 1|done].
Qed.

Lemma clears_positions p o :
  jsWf p.(Proj.positions) -> Clears (comparePositions clock cursor p o) (PositionsAgree p o).
Proof.
  intros Hwf. unfold comparePositions, PositionsAgree. cbv zeta.
  rewrite <- (maps_agree _ _ (observedWallets o) Hwf (jsWf_fromEntries _)). eapply clears_iff.
  2:{ apply clears_bind; [apply _|intros _]. eapply clears_bind_value;
      [apply compareWallets_leftover|by apply clears_compareWallets|intros a ->; apply clears_leftover]. }
  autorewrite with agrees. done.
Qed.

Lemma clears_epoch p o registered :
  (forall i e, jsGet i p.(Proj.lpEpochs) = Some e -> jsWf e.(LpEpoch.positions)) ->
  Clears (compareLpEpoch clock cursor p o (jsKeys p.(Proj.registeredWallets)) registered)
    (EpochAgrees p registered o).
Proof.
  intros Hwf. unfold compareLpEpoch, EpochAgrees. cbv zeta.
  destruct (jsGet (ObsLpEpoch.epoch o) (Proj.lpEpochs p)) as [e|] eqn:Eg.
  2:{ eapply clears_iff; [|apply clears_bind; [apply clears_raiseIf|intros; apply clears_ret]].
      split; [by intros []|by intros (? & [=] & _)]. }
  apply clears_computing. intros liability El. apply clears_computing. intros vault Ev.
  eapply clears_iff.
  2:{ repeat (apply clears_bind; [apply clears_raiseIf|intros _]).
      apply (clears_computing _ _ (o.(ObsLpEpoch.rewardVaultBalance)
          = o.(ObsLpEpoch.indexedLiability) + o.(ObsLpEpoch.unallocatedRewards) + o.(ObsLpEpoch.roundingReserve)
        /\ LpFieldsAgree e o
        /\ MapsAgree LpPositionAgrees e.(LpEpoch.positions) (observedLpPositions o)
        /\ Forall (fun entry => 0 < entry.2.(LpPos.shares) -> entry.1 ∈ jsKeys p.(Proj.registeredWallets)) e.(LpEpoch.positions)
        /\ Forall (fun position => 0 < position.(ObsLpPos.shares) -> position.(ObsLpPos.owner) ∈ registered)
             o.(ObsLpEpoch.positions))).
      intros sum1 E1. apply clears_computing. intros sum2 E2. checked_inv.
      rewrite <- (maps_agree _ _ (observedLpPositions o) (Hwf _ _ Eg) (jsWf_fromEntries _)). eapply clears_iff.
      2:{ apply clears_bind; [apply clears_raiseIf|intros _]. apply clears_bind; [apply clears_raiseIf|intros _].
          eapply clears_bind_value; [apply compareLpPositions_leftover
            |by apply clears_compareLpPositions, (Hwf _ _ Eg)|intros a ->].
          apply clears_bind; [apply clears_forEach; intros; apply clears_raiseIf|intros _].
          apply clears_bind; [apply clears_leftover|intros _; apply clears_ret]. }
      unfold lpFieldsDiffer, LpFieldsAgree. autorewrite with agrees. setoid_rewrite registered_guard. naive_solver. }
  autorewrite with agrees. split.
  - intros H. destruct_and!. exists e. rewrite El, Ev. split_and!; try assumption; congruence.
  - intros (e' & [= <-] & H). rewrite El, Ev in H. destruct_and!. split_and!; try assumption; congruence.
Qed.

Lemma clears_epochList p registered epochs :
  (forall i e, jsGet i p.(Proj.lpEpochs) = Some e -> jsWf e.(LpEpoch.positions)) ->
  Clears (compareLpEpochs clock cursor p epochs (jsKeys p.(Proj.registeredWallets)) registered)
    (Forall (EpochAgrees p registered) epochs).
Proof.
  intros Hwf. induction epochs as [|e epochs IH]; cbn [compareLpEpochs].
  - apply (clears_iff _ True); [by split; constructor|apply _].
  - eapply clears_iff; [|apply clears_bind; [by apply clears_epoch|intros; apply clears_bind; [apply IH|intros; apply clears_ret]]].
    split; [intros (? & ? & _); by constructor|by inversion 1].
Qed.

Lemma clears_epochs p o :
  (forall i e, jsGet i p.(Proj.lpEpochs) = Some e -> jsWf e.(LpEpoch.positions)) ->
  Clears (compareEpochs clock cursor p o) (EpochsAgree p o).
Proof.
  intros Hwf. unfold compareEpochs, EpochsAgree. eapply clears_iff.
  2:{ apply clears_bind; [apply clears_raiseIf|intros _].
      apply clears_bind; [apply clears_forEach; intros; apply clears_raiseIf|intros _]. by apply clears_epochList. }
  autorewrite with agrees. unfold includes. setoid_rewrite negb_false_iff. setoid_rewrite bool_decide_eq_true. done.
Qed.

Lemma clears_deployment p o : Clears (compareDeployment clock cursor p o) (DeploymentAgrees p o).
Proof.
  unfold compareDeployment, DeploymentAgrees. cbv zeta.
  eapply clears_iff; [|repeat (intros; first [apply clears_bind|apply clears_raiseIf])].
  destruct (isV02 p); cbn [negb andb]; autorewrite with agrees; naive_solver.
Qed.

Lemma clears_snapshot p o vault liability pending :
  LedgerOk p -> expectedCoreVaultBalance p = Returns vault -> coreIndexedLiability p = Returns liability ->
  custodyPending p = Returns pending ->
  Clears (compareSnapshot clock cursor p o vault liability pending) (Agrees p o).
Proof.
  intros Hok Hv Hl Hc. pose proof (fun i e Hg => proj1 (proj1 (proj1 (ledger_epoch p i e Hok Hg)))) as Hwf.
  destruct Hok as ((W1 & W2 & W3 & W4 & W5 & W6 & W7) & _). eapply clears_iff.
  2:{ unfold compareSnapshot.
      apply clears_bind; [apply clears_identity|intros _].
      apply clears_bind; [by apply clears_registrations|intros _].
      apply clears_bind; [apply clears_authorities|intros _].
      apply clears_bind; [by apply clears_vault|intros _].
      apply clears_bind; [apply clears_totals|intros _].
      apply clears_bind; [by apply clears_custody|intros _].
      apply clears_bind; [apply clears_pool|intros _].
      apply clears_bind; [by apply clears_positions|intros _].
      apply clears_bind; [by apply clears_epochs|intros results].
      apply clears_bind; [apply clears_deployment|intros _]. apply clears_ret. }
  unfold Agrees. naive_solver.
Qed.
End Parts.

(** ** The report *)

(** The projection and the snapshot hold the same books at the cursor. *)
Definition AgreesAt (p : Proj.ProtocolProjection) (o : Obs.ObservedAccountingSnapshot)
    (cursor : option Cursor.EventCursor) : Prop :=
  (exists c, cursor = Some c /\ o.(Obs.ledgerVersion) = c.(Cursor.ledgerVersion)) /\ Agrees p o.

Lemma reconcile_iff clock cursor p o report :
  LedgerOk p -> reconcile clock cursor p o = Returns report ->
  report.(Report.reconciled) = true <-> AgreesAt p o cursor.
Proof.
  intros Hok H. unfold reconcile in H. cbv zeta in H. outcome_inv. unfold AgreesAt.
  destruct (match cursor with None => false | Some c => _ end) eqn:Ep; cbn [negb] in H.
  - destruct cursor as [c|]; [|done]. bools.
    apply outcome_bind_inv in H as ([results alerts] & Es & [= <-]). cbn.
    destruct (clears_snapshot clock (Some c) p o _ _ _ Hok E E0 E1 _ _ _ Es) as [_ Hi].
    rewrite bool_decide_eq_true, length_zero_iff_nil, Hi. naive_solver.
  - apply outcome_bind_inv in H as ([[] alerts] & _ & [= <-]). cbn. split; [done|].
    intros [(c & -> & Hc) _]. by rewrite bool_decide_true in Ep.
Qed.

(** ** The comparisons run to the end *)

Section Completion.
Context (clock : nat -> Z) (cursor : option Cursor.EventCursor).

#[local] Instance completes_wallets replayed : forall remaining,
  Completes (compareWallets clock cursor replayed remaining).
Proof. induction replayed as [|[]]; intros; cbn [compareWallets]; apply _. Qed.

#[local] Instance completes_lpPositions scope registered replayed : forall remaining,
  Completes (compareLpPositions clock cursor scope registered replayed remaining).
Proof. induction replayed as [|[]]; intros; cbn [compareLpPositions]; apply _. Qed.

Lemma completes_buckets {A} l u r label1 label2 (k : Z -> Audit A) :
  BucketsFit l u r -> (forall sum, Completes (k sum)) ->
  Completes (sum1 ← computing (checkedMoveU256Add l u label1);
             sum2 ← computing (checkedMoveU256Add sum1 r label2); k sum2).
Proof.
  intros [E1 E2]%(buckets_sum l u r label1 label2) Hk. apply completes_computing; [by eexists|].
  intros a. rewrite E1. intros [= <-]. apply completes_computing; [by eexists|]. intros. apply Hk.
Qed.

Lemma completes_epochs p epochs replayed observed :
  Forall EpochBacked (jsValues p.(Proj.lpEpochs)) ->
  Forall (fun e => BucketsFit e.(ObsLpEpoch.indexedLiability) e.(ObsLpEpoch.unallocatedRewards)
                     e.(ObsLpEpoch.roundingReserve)) epochs ->
  Completes (compareLpEpochs clock cursor p epochs replayed observed).
Proof.
  intros Hb. induction 1 as [|o epochs Ho Hf IH]; cbn [compareLpEpochs]; [apply _|].
  apply completes_bind; [|intros; apply _]. unfold compareLpEpoch. cbv zeta.
  destruct (jsGet (ObsLpEpoch.epoch o) (Proj.lpEpochs p)) as [e|] eqn:Eg; [|apply _].
  destruct (jsGet_Forall _ _ _ _ Hb Eg) as (liability & rounding & El & _ & _ & Ev).
  apply completes_computing; [by eexists|intros ? ?]. apply completes_computing; [by eexists|intros ? ?].
  repeat (apply completes_bind; [apply _|intros _]).
  apply (completes_buckets _ _ _ _ _ (fun _ => _) Ho). intros. apply _.
Qed.

Lemma reconcile_completes p o :
  Sound p -> ObservedFits o -> returns (custodyPending p) -> returns (reconcile clock cursor p o).
Proof.
  intros (_ & (liability & El & _ & _ & Ev) & Hb & _) [Hc He] [pending Ep].
  unfold reconcile. rewrite Ev, El, Ep. cbn [mbind outcome_bind]. cbv zeta.
  destruct (negb _); [by eexists|]. unfold returns.
  enough (Hs : Completes (compareSnapshot clock cursor p o
    (liability + Proj.unallocatedFees p + Proj.roundingReserve p) liability pending)).
  { destruct (Hs []) as (results & alerts & E). rewrite E. by eexists. }
  unfold compareSnapshot, compareIdentity, compareRegistrations, compareAuthorities, compareAdmin, compareTotals,
    compareCustody, comparePool, comparePositions, compareEpochs, compareDeployment.
  assert (Hv : forall vault, Completes (compareVault clock cursor p o vault liability)).
  { intros vault. unfold compareVault. repeat (apply completes_bind; [apply _|intros _]).
    apply (completes_buckets _ _ _ _ _ (fun _ => _) Hc). intros. apply _. }
  repeat (intros; lazymatch goal with
    | |- Completes (compareLpEpochs _ _ _ _ _ _) => by apply completes_epochs
    | |- Completes (compareVault _ _ _ _ _ _) => apply Hv
    | |- Completes (match _ with _ => _ end) => case_match
    | |- Completes (_ ≫= _) => apply completes_bind
    | |- Completes _ => apply _ end).
Qed.
End Completion.

(** C6. A reconciliation succeeds exactly when the replay and the chain agree.
    Against an observed snapshot whose buckets fit a Move [u256] it runs to the
    end, and the report says [reconciled] if and only if the snapshot is pinned
    to the cursor's ledger version and the projection and the snapshot hold the
    same identity, registry, authorities, vault backing, totals, custody, pool,
    wallet and LP positions, epochs and configuration. *)
Theorem reconcile_exact clock cursor p o :
  Reachable p -> ObservedFits o -> returns (custodyPending p) ->
  exists report, reconcile clock cursor p o = Returns report
    /\ (report.(Report.reconciled) = true <-> AgreesAt p o cursor).
Proof.
  intros Hs%reachable_is_sound Ho Hc.
  destruct (reconcile_completes clock cursor p o Hs Ho Hc) as [report E].
  exists report. split; [exact E|]. by apply (reconcile_iff clock cursor p o report (proj1 Hs)).
Qed.

(** The honest views of a chain in the state of [p]. *)
Definition viewEpoch (e : LpEpoch.IndexedLpEpoch) : ObsLpEpoch.ObservedLpEpoch :=
  let valueOf o := match o with Returns x => x | Throws _ => 0 end in
  ObsLpEpoch.mk e.(LpEpoch.epoch) e.(LpEpoch.stateId) e.(LpEpoch.status) e.(LpEpoch.rewardVault)
    (valueOf (expectedLpVaultBalance e)) e.(LpEpoch.index) e.(LpEpoch.indexRemainder) e.(LpEpoch.totalShares)
    e.(LpEpoch.aggregateCorrection) e.(LpEpoch.unallocatedRewards) e.(LpEpoch.roundingReserve)
    (default 0 e.(LpEpoch.terminalRoundingBaseUnits)) e.(LpEpoch.retiredResidueMagnified)
    e.(LpEpoch.lifetimeReceived) e.(LpEpoch.lifetimeClaimed) e.(LpEpoch.quarantined)
    (valueOf (lpIndexedLiability e))
    (map (fun p => ObsLpPos.mk p.(LpPos.owner) p.(LpPos.shares) p.(LpPos.correction) p.(LpPos.claimed))
       (jsValues e.(LpEpoch.positions))).

Definition viewOf (p : Proj.ProtocolProjection) (ledgerVersion : Z) : Obs.ObservedAccountingSnapshot :=
  let valueOf o := match o with Returns x => x | Throws _ => 0 end in
  let custody := p.(Proj.custody) in
  let pool := p.(Proj.pool) in
  let admins := p.(Proj.operationalAdmins) in
  Obs.mk p.(Proj.chainId) ledgerVersion p.(Proj.deploymentId) p.(Proj.networkLabel)
    (default "" p.(Proj.tokenMetadata)) p.(Proj.protocolExclusionsRemaining) p.(Proj.registeredWalletCount)
    (jsKeys p.(Proj.registeredWallets)) p.(Proj.automaticMaterialization) p.(Proj.lifecycle) (Some p.(Proj.feeBps))
    (default "" p.(Proj.rewardVault)) (valueOf (expectedCoreVaultBalance p)) (valueOf (coreIndexedLiability p))
    p.(Proj.currentIndex) p.(Proj.indexRemainder) p.(Proj.eligibleSupply) p.(Proj.aggregateCorrection)
    p.(Proj.unallocatedFees) p.(Proj.roundingReserve) p.(Proj.lifetimeSwapFees) p.(Proj.lifetimeMaterialized)
    p.(Proj.lifetimeCustodyRouted) (default 0 custody.(Custody.adapterId)) (default "" custody.(Custody.reserveStore))
    (default "" custody.(Custody.reserveStore)) (default "" p.(Proj.mockUsdPoolReserve))
    (default "" p.(Proj.mockUsdPoolReserve)) custody.(Custody.shares) custody.(Custody.shares)
    custody.(Custody.correction) custody.(Custody.claimed) (valueOf (custodyPending p))
    (default 0 custody.(Custody.activeRouteEpoch)) (default "" custody.(Custody.activeLpRewardVault))
    pool.(Pool.trflReserve) pool.(Pool.tusdReserve) pool.(Pool.ammFeeBps) pool.(Pool.maximumGrossSwap)
    pool.(Pool.maximumReserveBps) pool.(Pool.maximumRflContribution) pool.(Pool.maximumTusdContribution)
    pool.(Pool.maximumNonFinalWithdrawalShareBps) p.(Proj.activeLpEpoch)
    (map viewEpoch (jsValues p.(Proj.lpEpochs)))
    (map (fun w => ObsPos.mk w.(Wallet.account) w.(Wallet.rawTrfl) w.(Wallet.correction) w.(Wallet.claimed))
       (jsValues p.(Proj.positions)))
    p.(Proj.packageVersion) p.(Proj.swapsPaused) p.(Proj.claimsPaused) p.(Proj.faucetPaused)
    p.(Proj.faucetTrflGrant) p.(Proj.faucetTusdGrant) p.(Proj.faucetCooldownSeconds) pool.(Pool.poolPaused)
    pool.(Pool.liquidityPaused) pool.(Pool.lpClaimsPaused) pool.(Pool.shutdownMode) pool.(Pool.seeded)
    admins.(Admins.reflectionCore) admins.(Admins.testAssets) admins.(Admins.testAmm).

Lemma reconcile_exact_witness :
  exists report, reconcile (fun _ => 1700000000005) (Some (Cursor.mk 5 3)) soldProjection (viewOf soldProjection 5)
      = Returns report
    /\ AgreesAt soldProjection (viewOf soldProjection 5) (Some (Cursor.mk 5 3)).
Proof.
  destruct (reconcile_exact (fun _ => 1700000000005) (Some (Cursor.mk 5 3)) soldProjection (viewOf soldProjection 5)
    sold_reachable) as (report & E & Hr).
  - unfold ObservedFits, BucketsFit. apply (bool_decide_unpack _). vm_compute. exact I.
  - eexists. vm_compute. reflexivity.
  - exists report. split; [exact E|]. apply Hr.
    assert (Hb : match reconcile (fun _ => 1700000000005) (Some (Cursor.mk 5 3)) soldProjection (viewOf soldProjection 5) with
                 | Returns r => r.(Report.reconciled) | Throws _ => false end = true) by (vm_compute; reflexivity).
    rewrite E in Hb. exact Hb.
Defined.
