(* ===== verification/IndexerInvariant.v ===== *)
(** * The indexer between calls

    [IndexerOk], the invariant that holds between the calls and inside each: one
    owner, one lease, a projection that is a run of clean groups from nothing or
    from a checkpoint, an authorization to checkpoint that is certified, and a
    store that only holds certified checkpoints.  A method is shown to keep it
    step by step ([Preserves]), on every branch, with a lease of its own or with
    the one of a writer cycle; then any sequence of calls and cycles does. *)
From Stdlib Require Import Sorting.Sorted.
From S2P Require Import Prelude JsMap Types MoveDomains Accounting Replay Group WalletHandlers.
From S2P Require Import LpHandlers PoolHandlers ConfigHandlers GroupChecks Reducer Reconciler.
From S2P Require Import Snapshot SnapshotDecode Store EventIndexer WriterCycle Ledger ReconcilerSpec.
From S2P Require Import SnapshotRoundTrip ReducerCorrect ReducerSpec Frames ReducerTheorems.
From S2P Require Import LiquidityTheorems ReconcilerTheorems.

(** ** What the indexer commits

    [Advance]: a run of clean groups and the cursor it leaves.  [process] is
    shown to advance over a prefix of its page's groups and to stop at the first
    group that raises an alert, and the order of cursors makes the prefix the
    same whatever the order of the page. *)

#[local] Arguments reduceEventGroup : simpl never.
#[local] Arguments reconcile : simpl never.
#[local] Arguments createEmptyProjection : simpl never.

(** What the indexer has replayed: a projection and its cursor. *)
Definition Replayed : Type := Proj.ProtocolProjection * option Cursor.EventCursor.

Inductive Advance : Replayed -> list (list ProtocolEvent) -> Replayed -> Prop :=
| Advance_nil r : Advance r [] r
| Advance_group p c first rest p' groups r :
    notAfter first c = false ->
    reduceEventGroup p (first :: rest) = Returns (Result.mk p' []) ->
    Advance (p', Some (eventCursor (List.last (first :: rest) first))) groups r ->
    Advance (p, c) ((first :: rest) :: groups) r.

(** The group that stopped a page, and why. *)
Definition Stopped (r : Replayed) (group : list ProtocolEvent) (alerts : list Alert.CriticalAlert) : Prop :=
  alerts <> [] /\
  exists first rest, group = first :: rest /\
    ((notAfter first r.2 = true /\ alerts = [eventOrderAlert first r.2])
     \/ (notAfter first r.2 = false
         /\ exists result, reduceEventGroup r.1 group = Returns result /\ result.(Result.alerts) = alerts)).

(** How a page ended: every group committed, or stopped at the next one. *)
Definition Ended (r : Replayed) (left : list (list ProtocolEvent)) (rejected : Z)
    (alerts : list Alert.CriticalAlert) : Prop :=
  match left with
  | [] => alerts = [] /\ rejected = 0
  | group :: _ => Stopped r group alerts /\ rejected = arrayLength group
  end.

Definition freshEvents (c : option Cursor.EventCursor) (events : list ProtocolEvent) : list ProtocolEvent :=
  List.filter (fun event => negb (notAfter event c)) (sortByCursor events).

Definition skippedEventsOf (c : option Cursor.EventCursor) (events : list ProtocolEvent) : list ProtocolEvent :=
  List.filter (fun event => notAfter event c) (sortByCursor events).

(** The ownership check of the owner. *)
Lemma assertStateOwner_eq {S} owner (s : Idx.EventIndexer S) :
  s.(Idx.activeStateOwner) = Some owner -> assertStateOwner owner s = (Returns tt, s).
Proof.
  intros Ho. unfold assertStateOwner. erewrite task_bind_eq by reflexivity. unfold unlessThrow.
  by rewrite bool_decide_true.
Qed.

(** ** The group loop *)

Section Loop.
Context {S : Type} `{IndexerStore S}.

Definition replayedOf (s : Idx.EventIndexer S) : Replayed := (s.(Idx.projection).(Ref.value), s.(Idx.cursor)).

(** What the group loop leaves alone; a projection it commits is a new object. *)
Record SameBut (s s' : Idx.EventIndexer S) : Prop := {
  same_store : s'.(Idx.store) = s.(Idx.store);
  same_owner : s'.(Idx.activeStateOwner) = s.(Idx.activeStateOwner);
  same_base : s'.(Idx.durableBaseSnapshotId) = s.(Idx.durableBaseSnapshotId);
  same_reconciled : s'.(Idx.reconciledProjection) = s.(Idx.reconciledProjection);
  same_reconciledCursor : s'.(Idx.reconciledCursor) = s.(Idx.reconciledCursor);
  same_identity : s'.(Idx.reconciledStateIdentity) = s.(Idx.reconciledStateIdentity);
  more_allocated : (s.(Idx.allocated) <= s'.(Idx.allocated))%nat;
  own_object : s'.(Idx.projection) = s.(Idx.projection)
    \/ (s.(Idx.allocated) <= s'.(Idx.projection).(Ref.object) < s'.(Idx.allocated))%nat
}.

Lemma same_refl s : SameBut s s.
Proof. split; auto. Qed.

Lemma same_trans s1 s2 s3 : SameBut s1 s2 -> SameBut s2 s3 -> SameBut s1 s3.
Proof.
  intros [] []. split; try congruence; [lia|].
  destruct own_object0 as [E0|E0], own_object1 as [E1|E1]; [left; congruence|right; lia| |right; lia].
  right. rewrite E1. lia.
Qed.

(** One round of the loop. *)
Definition commit (s : Idx.EventIndexer S) (p : Proj.ProtocolProjection) (c : Cursor.EventCursor) : Idx.EventIndexer S :=
  s <| Idx.allocated := Datatypes.S s.(Idx.allocated) |> <| Idx.projection := Ref.mk s.(Idx.allocated) p |>
    <| Idx.cursor := Some c |>.

Lemma processGroups_cons first rest groups n (s : Idx.EventIndexer S) :
  processGroups ((first :: rest) :: groups) n s =
    if notAfter first s.(Idx.cursor)
    then (Returns (n, arrayLength (first :: rest), [eventOrderAlert first s.(Idx.cursor)]), s)
    else match reduceEventGroup s.(Idx.projection).(Ref.value) (first :: rest) with
         | Throws e => (Throws e, s)
         | Returns (Result.mk p []) =>
             processGroups groups (n + arrayLength (first :: rest))
               (commit s p (eventCursor (List.last (first :: rest) first)))
         | Returns (Result.mk p alerts) => (Returns (n, arrayLength (first :: rest), alerts), s)
         end.
Proof.
  cbn [processGroups]. unfold mbind at 1, task_bind at 1. cbn [getState].
  destruct (notAfter first _); [done|]. unfold mbind at 1, task_bind at 1, evaluate.
  by destruct (reduceEventGroup _ _) as [[p [|]]|].
Qed.

Lemma processGroups_spec groups : forall n (s : Idx.EventIndexer S),
  Forall (fun group => group <> []) groups ->
  exists processed rejected alerts s' committed left,
    processGroups groups n s = (Returns (n + processed, rejected, alerts), s')
    /\ groups = committed ++ left
    /\ Advance (replayedOf s) committed (replayedOf s')
    /\ processed = arrayLength (concat committed)
    /\ Ended (replayedOf s') left rejected alerts
    /\ SameBut s s'.
Proof.
  induction groups as [|[|first rest] groups IH]; intros n s Hne.
  - exists 0, 0, [], s, [], []. rewrite Z.add_0_r.
    split; [done|]. split; [done|]. split; [constructor|]. split; [done|]. split; [done|apply same_refl].
  - inversion Hne; done.
  - inversion Hne as [|?? _ Hne']; subst. rewrite processGroups_cons.
    destruct (notAfter first (Idx.cursor s)) eqn:Ea.
    { exists 0, (arrayLength (first :: rest)), [eventOrderAlert first (Idx.cursor s)], s, [], ((first :: rest) :: groups).
      rewrite Z.add_0_r. split; [done|]. split; [done|]. split; [constructor|]. split; [done|].
      split; [|apply same_refl]. split; [|done]. split; [done|]. exists first, rest. split; [done|]. by left. }
    destruct (reduceEventGroup_reduced (Ref.value (Idx.projection s)) (first :: rest)) as ([p' alerts] & Er & _).
    rewrite Er. destruct alerts as [|a alerts].
    + set (next := commit s p' _).
      destruct (IH (n + arrayLength (first :: rest)) next Hne')
        as (processed & rejected & alerts & s' & committed & left & E & -> & Ha & Hp & He & Hs).
      exists (arrayLength (first :: rest) + processed), rejected, alerts, s', ((first :: rest) :: committed), left.
      rewrite Z.add_assoc. split; [exact E|]. split; [done|].
      split; [by eapply Advance_group|]. split.
      { rewrite Hp. unfold arrayLength. cbn [concat]. rewrite length_app. lia. }
      split; [done|]. refine (same_trans s next s' _ Hs).
      split; try reflexivity; [cbn; lia|]. right. cbn. lia.
    + exists 0, (arrayLength (first :: rest)), (a :: alerts), s, [], ((first :: rest) :: groups).
      rewrite Z.add_0_r. split; [done|]. split; [done|]. split; [constructor|]. split; [done|].
      split; [|apply same_refl]. split; [|done]. split; [done|]. exists first, rest. split; [done|]. right.
      split; [done|]. by eexists.
Qed.
End Loop.

(** Taking the lock when nobody holds it. *)
Lemma acquireOwner_eq {S} owner (s : Idx.EventIndexer S) :
  s.(Idx.activeStateOwner) = None ->
  acquireOwner owner s = (Returns tt, s <| Idx.activeStateOwner := Some owner |>).
Proof.
  intros Hn. unfold acquireOwner. erewrite task_bind_eq by reflexivity. rewrite unlessThrow_true by (by rewrite Hn).
  reflexivity.
Qed.

(** A public method runs its operation as the sole owner, and releases it. *)
Lemma withDirect_eq {S A} (operation : nat -> Task (Idx.EventIndexer S) A) (s : Idx.EventIndexer S) :
  s.(Idx.activeStateOwner) = None ->
  withDirectStateOperation operation s =
    let '(o, s1) := operation s.(Idx.allocated)
        (s <| Idx.allocated := Datatypes.S s.(Idx.allocated) |> <| Idx.activeStateOwner := Some s.(Idx.allocated) |>) in
    (o, releaseOwner s.(Idx.allocated) s1).
Proof.
  intros Hn. unfold withDirectStateOperation. erewrite task_bind_eq by reflexivity. unfold withStateOwner.
  erewrite task_bind_eq by (by apply acquireOwner_eq). reflexivity.
Qed.

Lemma groupByLedger_nonempty fresh : Forall (fun group => group <> []) (groupByLedger fresh).
Proof.
  induction fresh as [|event fresh IH]; [constructor|]. cbn.
  destruct (groupByLedger fresh) as [|[|next more] groups]; [by repeat constructor|by constructor|].
  inversion IH; subst. case_bool_decide; by repeat constructor.
Qed.

Lemma groupByLedger_concat fresh : concat (groupByLedger fresh) = fresh.
Proof.
  induction fresh as [|event fresh IH]; [done|]. cbn.
  destruct (groupByLedger fresh) as [|[|next more] groups]; cbn in *; [by rewrite IH|by rewrite IH|].
  case_bool_decide; cbn; by rewrite <- IH.
Qed.

(** A run of groups is a run of clean groups of the reducer. *)
Lemma advance_cleanRun prior r groups r' : CleanRun prior r.1 -> Advance r groups r' -> CleanRun prior r'.1.
Proof. intros Hc. induction 1; [done|]. apply IHAdvance. by eapply CleanRun_group. Qed.

Lemma advance_app r groups1 groups2 r' r'' :
  Advance r groups1 r' -> Advance r' groups2 r'' -> Advance r (groups1 ++ groups2) r''.
Proof. induction 1; [done|]. intros. econstructor; eauto. Qed.

(** ** [process] against any store that keeps the contract *)

Section Store.
Context {S : Type} `{StoreLaws S}.
Implicit Types s : Idx.EventIndexer S.

(** The store can be written: through the given lease, or an implicit one. *)
Definition Writable (writerLease : option Lease) (st : S) : Prop :=
  storeOk st /\ holds st = writerLease
  /\ (writerLease = None -> permitsImplicitWriterLease (S := S) = true).

Lemma persistAlerts_spec alerts writerLease s :
  Writable writerLease s.(Idx.store) ->
  exists st, persistAlerts alerts writerLease s = (Returns tt, s <| Idx.store := st |>)
    /\ Writable writerLease st /\ latestOf st = latestOf s.(Idx.store)
    /\ alertsOf st = alertsOf s.(Idx.store) ++ alerts.
Proof.
  intros (Hok & Hh & Hi). unfold persistAlerts. destruct alerts as [|a alerts].
  { exists s.(Idx.store). rewrite app_nil_r. split; [by destruct s|done]. }
  unfold withStoreWriter. destruct writerLease as [lease|].
  - pose proof (store_append _ (a :: alerts) lease Hok) as Ha. rewrite decide_True in Ha by done.
    destruct Ha as (st & E & Hok' & Hh' & Hl & Hal). exists st. unfold onStore. rewrite E.
    split; [done|]. unfold Writable. rewrite Hh'. done.
  - specialize (Hi eq_refl). pose proof (store_begin _ Hok) as Hb. rewrite Hh in Hb.
    destruct Hb as (lease & st & E & Hok1 & Hh1 & Hl1 & Ha1).
    pose proof (store_append _ (a :: alerts) lease Hok1) as Ha. rewrite decide_True in Ha by done.
    destruct Ha as (st' & E' & Hok' & Hh' & Hl' & Hal'). destruct (store_end _ Hok') as (Hok2 & Hh2 & Hl2 & Ha2).
    exists (endWriter st'). erewrite task_bind_eq by (unfold unlessThrow; rewrite Hi; reflexivity).
    erewrite task_bind_eq by (unfold onStore; rewrite E; reflexivity).
    unfold finally, onStore. cbn. rewrite E'. split; [by destruct s|].
    split; [done|]. split; congruence.
Qed.

(** The loop and its record, between the ownership checks. *)
Lemma processOwned_spec events owner writerLease s :
  s.(Idx.activeStateOwner) = Some owner -> Writable writerLease s.(Idx.store) ->
  exists result s' committed left,
    processOwned events owner writerLease s = (Returns result, s')
    /\ groupByLedger (freshEvents s.(Idx.cursor) events) = committed ++ left
    /\ Advance (replayedOf s) committed (replayedOf s')
    /\ Ended (replayedOf s') left result.(Processed.rejectedEvents) result.(Processed.alerts)
    /\ result.(Processed.processedEvents) = arrayLength (concat committed)
    /\ result.(Processed.skippedEvents) = arrayLength (skippedEventsOf s.(Idx.cursor) events)
    /\ result.(Processed.cursor) = s'.(Idx.cursor)
    /\ s'.(Idx.activeStateOwner) = Some owner /\ Writable writerLease s'.(Idx.store)
    /\ latestOf s'.(Idx.store) = latestOf s.(Idx.store)
    /\ alertsOf s'.(Idx.store) = alertsOf s.(Idx.store) ++ result.(Processed.alerts)
    /\ s'.(Idx.reconciledProjection) = None
    /\ s'.(Idx.durableBaseSnapshotId) = s.(Idx.durableBaseSnapshotId)
    /\ (s.(Idx.allocated) <= s'.(Idx.allocated))%nat
    /\ (s'.(Idx.projection) = s.(Idx.projection)
        \/ (s.(Idx.allocated) <= s'.(Idx.projection).(Ref.object) < s'.(Idx.allocated))%nat).
Proof.
  intros Ho Hw. unfold processOwned.
  set (s0 := s <| Idx.reconciledProjection := None |> <| Idx.reconciledCursor := None |> <| Idx.reconciledStateIdentity := None |>).
  destruct (processGroups_spec (groupByLedger (freshEvents s.(Idx.cursor) events)) 0 s0 (groupByLedger_nonempty _))
    as (processed & rejected & alerts & s1 & committed & left & E & Eg & Ha & Hp & He & Hs).
  destruct Hs as [Est Eow Eb Er Erc Ei Hal Hobj].
  assert (Hw1 : Writable writerLease s1.(Idx.store)) by (rewrite Est; exact Hw).
  destruct (persistAlerts_spec alerts writerLease s1 Hw1) as (st & Ep & Hw2 & Hl2 & Ha2).
  assert (Etail : (match alerts with [] => mret tt | _ => persistAlerts alerts writerLease ;; assertStateOwner owner end : Task (Idx.EventIndexer S) unit) s1
                  = (Returns tt, s1 <| Idx.store := st |>)).
  { destruct alerts as [|a alerts]; [exact Ep|]. erewrite task_bind_eq by exact Ep.
    apply assertStateOwner_eq. cbn. by rewrite Eow. }
  exists (Processed.mk processed (arrayLength (skippedEventsOf s.(Idx.cursor) events)) rejected s1.(Idx.cursor) alerts),
    (s1 <| Idx.store := st |>), committed, left.
  split.
  { erewrite task_bind_eq by (by apply assertStateOwner_eq).
    erewrite task_bind_eq by reflexivity. erewrite task_bind_eq by reflexivity. fold s0. cbv zeta.
    erewrite task_bind_eq by exact E. cbv beta iota. erewrite task_bind_eq by exact Etail.
    erewrite task_bind_eq by reflexivity. by rewrite Z.add_0_l. }
  split; [exact Eg|]. split; [exact Ha|]. split; [exact He|]. split; [exact Hp|]. split; [done|]. split; [done|].
  split; [cbn; by rewrite Eow|]. split; [exact Hw2|].
  cbn. rewrite Hl2, Ha2, Est, Er, Eb. done.
Qed.
End Store.

(** ** The order of cursors *)

Lemma compareCursor_le a b :
  compareCursor a b <= 0 <->
  a.(Cursor.ledgerVersion) < b.(Cursor.ledgerVersion)
  \/ (a.(Cursor.ledgerVersion) = b.(Cursor.ledgerVersion) /\ a.(Cursor.eventIndex) <= b.(Cursor.eventIndex)).
Proof. unfold compareCursor. repeat case_bool_decide; lia. Qed.

Lemma compareCursor_zero a b : compareCursor a b = 0 <-> a = b.
Proof.
  destruct a as [l i], b as [l' i']. unfold compareCursor. cbn. repeat case_bool_decide; split; try lia.
  - intros [= ]. done.
  - intros [= ]. done.
  - intros. f_equal; lia.
  - intros [= -> ->]. lia.
Qed.

(** [event] is at or before the cursor [c]. *)
Definition Before (c : option Cursor.EventCursor) (event : ProtocolEvent) : Prop := notAfter event c = true.

Lemma before_trans c c' event :
  Before (Some c) event -> compareCursor c c' <= 0 -> Before (Some c') event.
Proof.
  unfold Before, notAfter. rewrite !bool_decide_eq_true, !compareCursor_le. cbn. lia.
Qed.

Lemma insertByCursor_perm event l : insertByCursor event l ≡ₚ event :: l.
Proof.
  induction l as [|x l IH]; [done|]. cbn. case_bool_decide; [done|]. rewrite IH. apply Permutation_swap.
Qed.

Lemma sortByCursor_perm events : sortByCursor events ≡ₚ events.
Proof. induction events as [|e l IH]; [done|]. cbn. by rewrite insertByCursor_perm, IH. Qed.

(** Increasing cursors, and a run of groups in that order ends at the greatest. *)
Definition Ascending (events : list ProtocolEvent) : Prop :=
  StronglySorted (fun e e' => compareCursor (eventCursor e) (eventCursor e') <= 0) events.

Lemma insert_ascending event l : Ascending l -> Ascending (insertByCursor event l).
Proof.
  unfold Ascending. induction 1 as [|x l Hs IH Hx]; cbn; [by repeat constructor|].
  case_bool_decide as E.
  - constructor; [by constructor|]. constructor; [done|]. eapply Forall_impl; [|exact Hx].
    intros y Hy. cbv beta in Hy. rewrite compareCursor_le in *. cbn in *. lia.
  - constructor; [exact IH|]. rewrite insertByCursor_perm. constructor; [|done].
    rewrite compareCursor_le in *. cbn in *. lia.
Qed.

Lemma sort_ascending events : Ascending (sortByCursor events).
Proof. induction events; cbn; [constructor|by apply insert_ascending]. Qed.

Lemma ascending_filter f events : Ascending events -> Ascending (List.filter f events).
Proof.
  unfold Ascending. induction 1 as [|x l Hs IH Hx]; cbn; [constructor|].
  destruct (f x); [|done]. constructor; [done|]. apply List.Forall_forall. intros y [Hy _]%filter_In.
  rewrite List.Forall_forall in Hx. by apply Hx.
Qed.

Lemma ascending_app l1 l2 : Ascending (l1 ++ l2) -> Ascending l1 /\ Ascending l2
  /\ Forall (fun e => Forall (fun e' => compareCursor (eventCursor e) (eventCursor e') <= 0) l2) l1.
Proof.
  unfold Ascending. induction l1 as [|x l1 IH]; cbn.
  - intros H. split; [constructor|split; [done|constructor]].
  - intros H. inversion H as [|?? H1 H2]; subst. destruct (IH H1) as (Ha & Hb & Hc).
    apply List.Forall_app in H2 as [H2 H3]. split; [by constructor|]. split; [done|]. by constructor.
Qed.

Lemma ascending_last first rest :
  Ascending (first :: rest) ->
  Forall (Before (Some (eventCursor (List.last (first :: rest) first)))) (first :: rest).
Proof.
  revert first. induction rest as [|x rest IH]; intros first H.
  - constructor; [|constructor]. unfold Before, notAfter. cbn [List.last]. rewrite bool_decide_eq_true, compareCursor_le. lia.
  - inversion H as [|?? H1 H2]; subst.
    assert (E : List.last (first :: x :: rest) first = List.last (x :: rest) x).
    { clear. cbn [List.last]. revert x. induction rest as [|y rest IH]; intros x; [done|]. cbn. destruct rest; [done|]. apply IH. }
    rewrite E. specialize (IH x H1). constructor; [|exact IH].
    generalize dependent (List.last (x :: rest) x). intros final IH _.
    inversion IH as [|?? Hx _]; subst. inversion H2 as [|?? Hc _]; subst. clear -Hx Hc.
    unfold Before, notAfter in *. rewrite bool_decide_eq_true, !compareCursor_le in *. cbn in *. lia.
Qed.

(** The cursor never falls, and ends at or after everything committed. *)
Lemma advance_before r groups r' :
  Advance r groups r' -> Ascending (concat groups) ->
  Forall (Before r'.2) (concat groups) /\ (forall event, Before r.2 event -> Before r'.2 event).
Proof.
  induction 1 as [r|p c first rest p' groups r Hn Hr Ha IH]; intros Hs; [split; [constructor|done]|].
  cbn [concat] in *. apply ascending_app in Hs as (H1 & H2 & H3). destruct (IH H2) as [Hb Hm]. cbn [snd] in *.
  assert (Hlast : Forall (Before r.2) (first :: rest)).
  { eapply Forall_impl; [|by apply ascending_last]. intros e He. by apply Hm. }
  split; [by apply List.Forall_app|]. intros event Hb'. apply Hm. destruct c as [c|]; [|done].
  eapply before_trans; [exact Hb'|]. pose proof (ascending_last _ _ H1) as Hl. inversion Hl as [|?? Hf _]; subst.
  unfold Before, notAfter in Hf, Hn. rewrite bool_decide_eq_true in Hf. rewrite bool_decide_eq_false in Hn.
  rewrite compareCursor_le in *. cbn in *. lia.
Qed.

(** Two ascending deliveries of events with distinct cursors are the same. *)
Lemma ascending_unique l1 : forall l2,
  Ascending l1 -> Ascending l2 -> l1 ≡ₚ l2 -> NoDup (map eventCursor l1) -> l1 = l2.
Proof.
  unfold Ascending. induction l1 as [|x l1 IH]; intros l2 H1 H2 Hp Hn; [by apply Permutation_nil in Hp as ->|].
  destruct l2 as [|y l2]; [by apply Permutation_sym, Permutation_nil in Hp|].
  inversion H1 as [|?? H1' Hx]; inversion H2 as [|?? H2' Hy]; subst. inversion Hn as [|?? Hnx Hn']; subst.
  assert (x = y) as ->.
  { destruct (decide (eventCursor x = eventCursor y)) as [E|Hne].
    - assert (Hin : y ∈ x :: l1) by (rewrite Hp; left). apply elem_of_cons in Hin as [->|Hin]; [done|].
      exfalso. apply Hnx, list_elem_of_fmap. by exists y.
    - exfalso. assert (Hy' : y ∈ l1).
      { assert (Hin : y ∈ x :: l1) by (rewrite Hp; left). apply elem_of_cons in Hin as [->|]; done. }
      assert (Hx' : x ∈ l2).
      { assert (Hin : x ∈ y :: l2) by (rewrite <- Hp; left). apply elem_of_cons in Hin as [->|]; done. }
      rewrite List.Forall_forall in Hx, Hy. specialize (Hx y ltac:(by apply list_elem_of_In)).
      specialize (Hy x ltac:(by apply list_elem_of_In)). apply Hne. apply compareCursor_zero.
      rewrite compareCursor_le in *. unfold compareCursor. case_bool_decide; lia. }
  f_equal. apply IH; [done|done|by apply Permutation_cons_inv in Hp|done].
Qed.

#[local] Arguments reduceEventGroup : simpl never.
#[local] Arguments reconcile : simpl never.
#[local] Arguments createEmptyProjection : simpl never.

(** ** Certificates *)

(** A reconciliation among [calls] found the chain, at the cursor [c], in
    agreement with [p]. *)
Definition Certified (calls : list Call) (p : Proj.ProtocolProjection) (c : Cursor.EventCursor) : Prop :=
  exists source observed,
    CallReconcile source ∈ calls
    /\ source.(Source.getAccountingSnapshot) c.(Cursor.ledgerVersion) = Returns observed
    /\ AgreesAt p observed (Some c)
    /\ p.(Proj.deploymentReady) = true /\ adminsComplete p.(Proj.operationalAdmins) = true.

(** What an indexer may start from: nothing, or the checkpoint its store held at first. *)
Inductive Origin (base : option Snap.IndexerSnapshot) : Proj.ProtocolProjection -> Prop :=
| Origin_empty : Origin base createEmptyProjection
| Origin_base snap : base = Some snap -> Origin base snap.(Snap.projection).

Definition Replays (base : option Snap.IndexerSnapshot) (p : Proj.ProtocolProjection) : Prop :=
  exists p0, Origin base p0 /\ CleanRun p0 p.

(** That checkpoint was taken of a sound projection. *)
Definition BaseOk (sha256 : string -> string) (base : option Snap.IndexerSnapshot) : Prop :=
  forall snap, base = Some snap -> Taken sha256 snap /\ Sound snap.(Snap.projection).

Lemma cleanRun_sound p0 p : Sound p0 -> CleanRun p0 p -> Sound p.
Proof.
  intros Hs. induction 1 as [|p events p' _ IH E]; [done|].
  change p' with (Result.mk p' []).(Result.projection). eapply reduced_sound; [by apply reduceEventGroup_inv|done].
Qed.

Lemma replays_sound sha256 base p : BaseOk sha256 base -> Replays base p -> Sound p.
Proof.
  intros Hb (p0 & Ho & Hr). eapply cleanRun_sound; [|exact Hr]. destruct Ho as [|snap E]; [apply empty_sound|].
  by apply Hb in E as [_ ?].
Qed.

Section Calls.
Context {S : Type} `{StoreLaws S}.
Context (clock : nat -> Z) (sha256 : string -> string) (numberText : Z -> Z -> string).
Implicit Types s : Idx.EventIndexer S.

(** The authorization to checkpoint is for the current object, or stale. *)
Definition Authorized (calls : list Call) s : Prop :=
  match s.(Idx.reconciledProjection) with
  | None => True
  | Some object =>
      (object < s.(Idx.allocated))%nat
      /\ (object = s.(Idx.projection).(Ref.object) ->
          exists c, s.(Idx.cursor) = Some c /\ s.(Idx.reconciledCursor) = Some c
            /\ Certified calls s.(Idx.projection).(Ref.value) c)
  end.

(** The store holds what it held at first, or a certified checkpoint. *)
Definition Durable (base : option Snap.IndexerSnapshot) (calls : list Call) s : Prop :=
  latestOf s.(Idx.store) = base
  \/ exists snap c, latestOf s.(Idx.store) = Some snap /\ snap.(Snap.cursor) = Some c
      /\ Certified calls snap.(Snap.projection) c /\ Taken sha256 snap /\ Replays base snap.(Snap.projection).

(** The base the indexer saves over is the one the store holds. *)
Definition Based (base : option Snap.IndexerSnapshot) s : Prop :=
  match s.(Idx.durableBaseSnapshotId) with
  | None => latestOf s.(Idx.store) = base
  | Some known => known = Snap.id <$> latestOf s.(Idx.store)
  end.

(** Between any two steps of a call: [owner] runs, and holds [lease]. *)
Record IndexerOk (base : option Snap.IndexerSnapshot) (calls : list Call) (owner : option nat)
    (lease : option Lease) s : Prop := {
  ok_owner : s.(Idx.activeStateOwner) = owner;
  ok_store : storeOk s.(Idx.store);
  ok_lease : holds s.(Idx.store) = lease;
  ok_clean : Replays base s.(Idx.projection).(Ref.value);
  ok_object : (s.(Idx.projection).(Ref.object) < s.(Idx.allocated))%nat;
  ok_authorized : Authorized calls s;
  ok_durable : Durable base calls s;
  ok_based : Based base s
}.

Lemma certified_mono calls call p c : Certified calls p c -> Certified (call :: calls) p c.
Proof. intros (source & o & Hin & H'). exists source, o. split; [by right|done]. Qed.

Lemma ok_mono base calls call owner lease s :
  IndexerOk base calls owner lease s -> IndexerOk base (call :: calls) owner lease s.
Proof.
  intros [? ? ? ? ? Ha Hd]. split; try done.
  - unfold Authorized in *. destruct (Idx.reconciledProjection s); [|done]. destruct Ha as [Hlt Ha]. split; [done|].
    intros Ho. destruct (Ha Ho) as (c & ? & ? & ?). exists c. eauto using certified_mono.
  - destruct Hd as [|(snap & c & ? & ? & ? & ?)]; [by left|]. right. exists snap, c. eauto using certified_mono.
Qed.

Lemma ok_sound base calls owner lease s :
  BaseOk sha256 base -> IndexerOk base calls owner lease s -> Sound s.(Idx.projection).(Ref.value).
Proof. intros Hb Hok. eapply replays_sound; [exact Hb|apply Hok]. Qed.

(** [m] keeps [P], whether it returns or throws. *)
Definition Preserves {A} (P : Idx.EventIndexer S -> Prop) (m : Task (Idx.EventIndexer S) A) : Prop :=
  forall s o s', P s -> m s = (o, s') -> P s'.

Lemma preserves_bind {A B} P (m : Task (Idx.EventIndexer S) A) (k : A -> Task (Idx.EventIndexer S) B) :
  Preserves P m -> (forall a, Preserves P (k a)) -> Preserves P (m ≫= k).
Proof.
  intros Hm Hk s o s' Hs E. unfold mbind, task_bind in E. destruct (m s) as [[a|e] s1] eqn:Em.
  - eapply Hk; [|exact E]. by eapply Hm.
  - injection E as _ <-. by eapply Hm.
Qed.

(** As [preserves_bind], for a step that leaves the state and answers as [Q] says. *)
Lemma preserves_read {A B} (Q : A -> Prop) P (m : Task (Idx.EventIndexer S) A) (k : A -> Task (Idx.EventIndexer S) B) :
  (forall s o s', P s -> m s = (o, s') -> s' = s /\ forall a, o = Returns a -> Q a) ->
  (forall a, Q a -> Preserves P (k a)) -> Preserves P (m ≫= k).
Proof.
  intros Hm Hk s o s' Hs E. unfold mbind, task_bind in E. destruct (m s) as [[a|e] s1] eqn:Em.
  - destruct (Hm _ _ _ Hs Em) as [-> Ha]. by eapply (Hk a (Ha a eq_refl)).
  - destruct (Hm _ _ _ Hs Em) as [-> _]. by injection E as _ <-.
Qed.

Lemma preserves_pure {A} P (o : Outcome A) : Preserves P (evaluate o).
Proof. by intros s o' s' Hs [= _ <-]. Qed.

Lemma preserves_ret {A} P (a : A) : Preserves P (mret a).
Proof. by intros s o' s' Hs [= _ <-]. Qed.

Lemma preserves_throwing {A} P e : Preserves P (throwing (A := A) e).
Proof. by intros s o' s' Hs [= _ <-]. Qed.

Lemma preserves_unlessThrow P b e : Preserves P (unlessThrow b e).
Proof. by intros s o' s' Hs [= _ <-]. Qed.

Lemma preserves_assertStateOwner P owner : Preserves P (assertStateOwner owner).
Proof. by intros s o' s' Hs [= _ <-]. Qed.

Lemma preserves_modify P f : (forall s, P s -> P (f s)) -> Preserves P (modifyState f).
Proof. intros Hf s o s' Hs [= _ <-]. by apply Hf. Qed.

(** An evaluation and a guard, with what their success says. *)
Lemma preserves_evaluate {A B} P (o : Outcome A) (k : A -> Task (Idx.EventIndexer S) B) :
  (forall a, o = Returns a -> Preserves P (k a)) -> Preserves P (evaluate o ≫= k).
Proof.
  intros Hk. apply (preserves_read (fun a => o = Returns a)); [|done]. by intros s o' s' _ [= <- <-].
Qed.

Lemma preserves_guard {B} P b e (k : unit -> Task (Idx.EventIndexer S) B) :
  (b = true -> Preserves P (k tt)) -> Preserves P (unlessThrow b e ≫= k).
Proof.
  intros Hk. apply (preserves_read (fun _ => b = true)); [|by intros []].
  intros s o' s' _ [= <- <-]. split; [done|]. by destruct b.
Qed.


(** Reading the state: what follows may use that it satisfies [P]. *)
Lemma preserves_get {B} P (k : Idx.EventIndexer S -> Task (Idx.EventIndexer S) B) :
  (forall now, P now -> Preserves P (k now)) -> Preserves P (getState ≫= k).
Proof. intros Hk s o s' Hs E. by eapply (Hk s Hs). Qed.

Lemma ok_store_change base calls owner lease lease' s st :
  IndexerOk base calls owner lease s -> storeOk st -> holds st = lease' ->
  latestOf st = latestOf s.(Idx.store) -> IndexerOk base calls owner lease' (s <| Idx.store := st |>).
Proof.
  intros [] Hok Hh Hl. split; try done; unfold Durable, Based in *; cbn; by rewrite Hl.
Qed.

(** A property of the indexer that its store has no part in. *)
Definition Storeless (R : Idx.EventIndexer S -> Prop) : Prop := forall s st, R s -> R (s <| Idx.store := st |>).

(** An operation under a lease keeps the rest; the bracket takes it and gives it back. *)
Lemma ok_withStoreWriter {A} base calls owner writerLease R (operation : Lease -> Task (Idx.EventIndexer S) A) :
  Storeless R ->
  (forall lease, Preserves (fun s => IndexerOk base calls owner (Some lease) s /\ R s) (operation lease)) ->
  Preserves (fun s => IndexerOk base calls owner writerLease s /\ R s) (withStoreWriter writerLease operation).
Proof.
  intros HR Hop. unfold withStoreWriter. destruct writerLease as [given|]; [apply Hop|].
  apply preserves_guard. intros _ s o s' [Hs Hr] E.
  unfold mbind, task_bind, onStore in E.
  pose proof (store_begin _ (ok_store _ _ _ _ _ Hs)) as Hb. rewrite (ok_lease _ _ _ _ _ Hs) in Hb.
  destruct Hb as (lease & st & Eb & Hok1 & Hh1 & Hl1 & _). rewrite Eb in E. unfold finally in E.
  destruct (operation lease _) as [o1 s1] eqn:Eo. injection E as _ <-.
  apply Hop in Eo as [Eo Hr1]; [|split; [by eapply ok_store_change|by apply HR]].
  destruct (store_end _ (ok_store _ _ _ _ _ Eo)) as (Hok3 & Hh3 & Hl3 & _).
  split; [by eapply ok_store_change|by apply HR].
Qed.

Lemma ok_persistAlerts base calls owner writerLease R alerts :
  Storeless R ->
  Preserves (fun s => IndexerOk base calls owner writerLease s /\ R s) (persistAlerts alerts writerLease).
Proof.
  intros HR. unfold persistAlerts. destruct alerts as [|a alerts]; [apply preserves_ret|].
  apply ok_withStoreWriter; [exact HR|]. intros lease s o s' [Hs Hr] E. unfold onStore in E.
  pose proof (store_append _ (a :: alerts) lease (ok_store _ _ _ _ _ Hs)) as Ha.
  rewrite decide_True in Ha by apply Hs. destruct Ha as (st & Ea & Hok & Hh & Hl & _). rewrite Ea in E.
  injection E as _ <-. split; [|by apply HR]. eapply ok_store_change; [exact Hs|done|by rewrite Hh; apply Hs|done].
Qed.

Section Kept.
Context (base : option Snap.IndexerSnapshot) (calls : list Call) (owner : nat) (writerLease : option Lease).
Context (base_ok : BaseOk sha256 base).

#[local] Abbreviation Ok := (IndexerOk base calls (Some owner) writerLease).

(** The operations keep [Ok]; some of their parts keep more. *)
Lemma preserves_ok {A} (m : Task (Idx.EventIndexer S) A) :
  Preserves (fun s => Ok s /\ True) m -> Preserves Ok m.
Proof. intros Hm s o s' Hs E. by apply (Hm s o s' (conj Hs I)). Qed.

Lemma ok_invalidate : Preserves Ok invalidateReconciliation.
Proof. apply preserves_modify. intros s Hs. by destruct Hs. Qed.

(** The group loop only advances the projection, to new objects. *)
Lemma ok_processGroups groups n :
  Forall (fun group => group <> []) groups -> forall s o s', Ok s -> s.(Idx.reconciledProjection) = None ->
  processGroups groups n s = (o, s') -> Ok s'.
Proof.
  intros Hne s o s' Hs Hr E.
  destruct (processGroups_spec groups n s Hne) as (? & ? & ? & s1 & committed & left & E' & _ & Ha & _ & _ & Hsame).
  rewrite E' in E. injection E as _ <-. destruct Hsame as [E1 E2 E3 E4 E5 E6 Hle Hobj]. destruct Hs as [H1 H2 H3 Hc Ho H6 H7 H8].
  split.
  - by rewrite E2.
  - by rewrite E1.
  - by rewrite E1.
  - destruct Hc as (p0 & Horigin & Hrun). exists p0. split; [done|].
    exact (advance_cleanRun p0 (replayedOf s) _ (replayedOf s1) Hrun Ha).
  - destruct Hobj as [->|]; lia.
  - unfold Authorized. by rewrite E4, Hr.
  - unfold Durable. by rewrite E1.
  - unfold Based. by rewrite E1, E3.
Qed.

Lemma ok_processOwned events : Preserves Ok (processOwned events owner writerLease).
Proof.
  unfold processOwned. apply preserves_bind; [apply preserves_assertStateOwner|intros _].
  intros s o s' Hs E. erewrite task_bind_eq in E by reflexivity. erewrite task_bind_eq in E by reflexivity.
  set (s0 := s <| Idx.reconciledProjection := None |> <| Idx.reconciledCursor := None |>
               <| Idx.reconciledStateIdentity := None |>) in *.
  assert (Hs0 : Ok s0) by by destruct Hs. cbv zeta in E.
  match type of E with (processGroups ?groups 0 ≫= _) _ = _ => set (g := groups) in * end.
  destruct (processGroups g 0 s0) as [[[[processed rejected] alerts]|e] s1] eqn:Eg.
  2:{ erewrite task_bind_throws in E by exact Eg. injection E as _ <-.
      eapply ok_processGroups; [apply groupByLedger_nonempty|exact Hs0|reflexivity|exact Eg]. }
  erewrite task_bind_eq in E by exact Eg.
  eapply ok_processGroups in Eg; [|apply groupByLedger_nonempty|exact Hs0|reflexivity].
  revert s1 o s' Eg E. apply preserves_bind; [|intros _; apply preserves_get; intros now _; apply preserves_ret].
  assert (Hpersist : Preserves Ok (persistAlerts alerts writerLease)).
  { apply preserves_ok, ok_persistAlerts. by intros ? ? []. }
  destruct alerts; [apply preserves_ret|].
  apply preserves_bind; [exact Hpersist|intros _; apply preserves_assertStateOwner].
Qed.

Lemma ok_pollOnceOwned source limit : Preserves Ok (pollOnceOwned source limit owner writerLease).
Proof.
  unfold pollOnceOwned. apply preserves_bind; [apply preserves_assertStateOwner|intros _].
  apply preserves_guard. intros _. apply preserves_get. intros now _. apply preserves_evaluate. intros page _.
  apply preserves_bind; [apply preserves_assertStateOwner|intros _]. apply preserves_guard. intros _.
  apply ok_processOwned.
Qed.

Lemma ok_reconcileOwned source :
  CallReconcile source ∈ calls -> Preserves Ok (reconcileOwned clock sha256 source owner writerLease).
Proof.
  intros Hin. unfold reconcileOwned. apply preserves_bind; [apply preserves_assertStateOwner|intros _].
  intros s o s' Hs E. erewrite task_bind_eq in E by reflexivity.
  destruct (Idx.cursor s) as [cursor|] eqn:Ec; [|by injection E as _ <-].
  set (P := fun s1 => Ok s1 /\ s1.(Idx.projection) = s.(Idx.projection) /\ s1.(Idx.cursor) = Some cursor).
  match type of E with ?m s = _ => enough (Preserves P m) as Hp by exact (proj1 (Hp s o s' (conj Hs (conj eq_refl Ec)) E)) end.
  clear o s' E. apply preserves_bind.
  { apply preserves_modify. intros s1 (Hok & Hrest). split; [|exact Hrest]. by destruct Hok. }
  intros _. apply preserves_evaluate. intros identity _. apply preserves_evaluate. intros observed Eo.
  apply preserves_bind; [apply preserves_assertStateOwner|intros _]. apply preserves_evaluate. intros report Er.
  apply preserves_bind.
  { assert (Hpersist : Preserves P (persistAlerts report.(Report.alerts) writerLease)).
    { apply (ok_persistAlerts base calls (Some owner) writerLease
        (fun s1 => s1.(Idx.projection) = s.(Idx.projection) /\ s1.(Idx.cursor) = Some cursor)). by intros ? ? ?. }
    destruct (Report.alerts report); [exact Hpersist|].
    apply preserves_bind; [exact Hpersist|intros _; apply preserves_assertStateOwner]. }
  intros _. apply preserves_get. intros now (_ & Enow & Ecn).
  apply preserves_bind; [|intros _; apply preserves_ret]. rewrite Ecn.
  destruct (_ && bool_decide (compareCursor cursor cursor = 0)) eqn:Eg; [|apply preserves_ret].
  rewrite !andb_true_iff in Eg. destruct Eg as [[[[[[Erec _] _] Eready] Eadmins] _] _].
  apply preserves_evaluate. intros identity' _. case_bool_decide; [|apply preserves_ret].
  apply preserves_modify. intros s1 (Hok & Ep & Ec1). split; [|done].
  apply (reconcile_iff _ _ _ _ _ (proj1 (ok_sound _ _ _ _ _ base_ok Hs)) Er) in Erec.
  destruct Hok as [? ? ? ? Hobj ? ?]. split; try done. unfold Authorized. cbn. rewrite Ep in *.
  split; [exact Hobj|]. intros _. exists cursor. split; [done|]. split; [done|]. by exists source, observed.
Qed.

(** The three guards of a checkpoint. *)
Lemma authorization_inv s p cursor refused o s1 (now : Idx.EventIndexer S) :
  (match now.(Idx.reconciledCursor) with
   | Some reconciledCursor =>
       unlessThrow (bool_decide (now.(Idx.reconciledProjection) = Some now.(Idx.projection).(Ref.object))
                    && bool_decide (compareCursor reconciledCursor cursor = 0)) refused ;;
       identity ← evaluate (checkpointStateIdentity sha256 p cursor);
       unlessThrow (bool_decide (now.(Idx.reconciledStateIdentity) = Some identity)) refused
   | None => throwing refused
   end : Task (Idx.EventIndexer S) unit) s = (o, s1) ->
  s1 = s /\ forall a, o = Returns a -> now.(Idx.reconciledProjection) = Some now.(Idx.projection).(Ref.object).
Proof.
  destruct (Idx.reconciledCursor now); [|by intros [= <- <-]].
  unfold mbind, task_bind, unlessThrow, evaluate. case_bool_decide as Ep; cbn; [|by intros [= <- <-]].
  destruct (bool_decide (compareCursor _ _ = 0)); [|by intros [= <- <-]].
  destruct (checkpointStateIdentity _ _ _); by intros [= <- <-].
Qed.

Lemma authorized_certified s :
  Ok s -> s.(Idx.reconciledProjection) = Some s.(Idx.projection).(Ref.object) ->
  exists c, s.(Idx.cursor) = Some c /\ Certified calls s.(Idx.projection).(Ref.value) c.
Proof.
  intros Hs Hr. pose proof (ok_authorized _ _ _ _ _ Hs) as Ha. unfold Authorized in Ha. rewrite Hr in Ha.
  destruct Ha as [_ Ha]. destruct (Ha eq_refl) as (c & ? & _ & ?). by exists c.
Qed.

(** A certified checkpoint is saved over the base the indexer knows, and becomes it. *)
Definition saveOver (snap : Snap.IndexerSnapshot) (lease : Lease) : Task (Idx.EventIndexer S) Snap.IndexerSnapshot :=
  based ← getState;
  onStore (saveSnapshot snap lease (default None based.(Idx.durableBaseSnapshotId))) ;;
  assertStateOwner owner ;;
  modifyState (fun s => s <| Idx.durableBaseSnapshotId := Some (Some snap.(Snap.id)) |>) ;;
  mret snap.

(** The save happens when the store holds what the indexer knows; otherwise nothing does. *)
Lemma saveOver_spec snap lease s :
  s.(Idx.activeStateOwner) = Some owner -> storeOk s.(Idx.store) -> holds s.(Idx.store) = Some lease ->
  if decide (Snap.id <$> latestOf s.(Idx.store) = default None s.(Idx.durableBaseSnapshotId))
  then exists st, saveOver snap lease s =
         (Returns snap, s <| Idx.store := st |> <| Idx.durableBaseSnapshotId := Some (Some snap.(Snap.id)) |>)
       /\ storeOk st /\ holds st = Some lease /\ latestOf st = Some snap
  else exists e, saveOver snap lease s = (Throws e, s).
Proof.
  intros Ho Hok Hh. pose proof (store_save _ snap lease (default None s.(Idx.durableBaseSnapshotId)) Hok) as Hs.
  unfold saveOver. erewrite task_bind_eq by reflexivity.
  destruct (decide (Snap.id <$> latestOf s.(Idx.store) = default None s.(Idx.durableBaseSnapshotId))) as [E|E].
  - rewrite decide_True in Hs by done. destruct Hs as (st & Es & Hok' & Hh' & Hl & _). exists st. split.
    + erewrite task_bind_eq by (unfold onStore; rewrite Es; reflexivity).
      erewrite task_bind_eq by (by apply assertStateOwner_eq).
      by erewrite task_bind_eq by reflexivity.
    + split; [done|]. split; [congruence|done].
  - rewrite decide_False in Hs by (intros [_ E']; exact (E E')). destruct Hs as (e & Es). exists e.
    erewrite task_bind_throws; [done|]. unfold onStore. rewrite Es. by destruct s.
Qed.

Lemma ok_saveOver snap c lease :
  snap.(Snap.cursor) = Some c -> Certified calls snap.(Snap.projection) c ->
  Taken sha256 snap -> Replays base snap.(Snap.projection) ->
  Preserves (IndexerOk base calls (Some owner) (Some lease)) (saveOver snap lease).
Proof.
  intros Hc Hcert Htaken Hreplays s o s' Hs E. pose proof (saveOver_spec snap lease s (ok_owner _ _ _ _ _ Hs)
    (ok_store _ _ _ _ _ Hs) (ok_lease _ _ _ _ _ Hs)) as Hspec. case_decide.
  - destruct Hspec as (st & Es & Hok & Hh & Hl). rewrite Es in E. injection E as _ <-.
    destruct Hs. split; try done.
    + right. by exists snap, c.
    + unfold Based. cbn. by rewrite Hl.
  - destruct Hspec as (e & Es). rewrite Es in E. by injection E as _ <-.
Qed.

(** Settling the durable base reads the store only. *)
Lemma ok_resolveDurableBase lease :
  Preserves (IndexerOk base calls (Some owner) lease) (resolveDurableBase owner).
Proof.
  intros s o s' Hs E. unfold resolveDurableBase in E. erewrite task_bind_eq in E by reflexivity.
  destruct (Idx.durableBaseSnapshotId s) eqn:Eb; [by injection E as _ <-|].
  unfold onStore in E. unfold mbind at 1, task_bind at 1 in E. rewrite (store_load _ (ok_store _ _ _ _ _ Hs)) in E.
  replace (s <| Idx.store := _ |>) with s in E by (by destruct s).
  erewrite task_bind_eq in E by (apply assertStateOwner_eq, Hs).
  destruct (latestOf (Idx.store s)) eqn:El; injection E as _ <-; [exact Hs|].
  destruct Hs. split; try done. unfold Based. cbn. by rewrite El.
Qed.

Lemma ok_snapshotOwned takenAt : Preserves Ok (snapshotOwned sha256 takenAt owner writerLease).
Proof.
  unfold snapshotOwned. apply preserves_bind; [apply preserves_assertStateOwner|intros _].
  apply preserves_guard. intros _. apply preserves_get. intros now Hnow.
  destruct (Idx.cursor now) as [cursor|] eqn:Ec; [|apply preserves_throwing]. cbv zeta.
  apply preserves_guard. intros _.
  eapply (preserves_read (fun _ => _)); [intros s o s1 _; apply authorization_inv|]. intros _ Hr.
  destruct (authorized_certified _ Hnow Hr) as (c & Ec' & Hcert). rewrite Ec in Ec'. injection Ec' as <-.
  apply preserves_evaluate. intros snap Et. pose proof (takeSnapshot_taken _ _ _ _ _ Et) as Htaken.
  apply takeSnapshot_returns in Et as (_ & _ & _ & ->).
  apply preserves_ok, ok_withStoreWriter; [by intros ? ? []|]. intros lease.
  intros s o s' [Hs _] E. split; [|done]. revert s o s' Hs E.
  apply preserves_bind; [apply preserves_assertStateOwner|intros _].
  apply preserves_bind; [apply ok_resolveDurableBase|]. intros _.
  apply (ok_saveOver _ cursor); [done|exact Hcert|exact Htaken|]. cbn. apply Hnow.
Qed.

(** The store's checkpoint, when it has one, can be read back and started from. *)
Lemma ok_latest lease s snap :
  IndexerOk base calls (Some owner) lease s -> latestOf s.(Idx.store) = Some snap ->
  Taken sha256 snap /\ Replays base snap.(Snap.projection).
Proof.
  intros Hs E. destruct (ok_durable _ _ _ _ _ Hs) as [Hd|(snap' & c & El & _ & _ & Ht & Hr)].
  - rewrite E in Hd. destruct (base_ok snap (eq_sym Hd)) as [Ht _]. split; [exact Ht|].
    exists snap.(Snap.projection). split; [by constructor|constructor].
  - rewrite E in El. by injection El as ->.
Qed.

(** The state a restore leaves: the checkpoint, or a fresh start. *)
Definition restored (latest : option Snap.IndexerSnapshot) s : Idx.EventIndexer S :=
  s <| Idx.reconciledProjection := None |> <| Idx.reconciledCursor := None |> <| Idx.reconciledStateIdentity := None |>
    <| Idx.allocated := Datatypes.S s.(Idx.allocated) |>
    <| Idx.projection := Ref.mk s.(Idx.allocated) (from_option Snap.projection createEmptyProjection latest) |>
    <| Idx.cursor := latest ≫= Snap.cursor |>
    <| Idx.durableBaseSnapshotId := Some (Snap.id <$> latest) |>.

(** A restore throws, having changed nothing but the authorization, or leaves that state. *)
Lemma restore_cases s :
  Ok s ->
  (exists e, restoreLatestSnapshotOwned sha256 numberText owner s
     = (Throws e, s <| Idx.reconciledProjection := None |> <| Idx.reconciledCursor := None |>
                    <| Idx.reconciledStateIdentity := None |>)
     /\ latestOf s.(Idx.store) <> None /\ ~ Digests sha256)
  \/ restoreLatestSnapshotOwned sha256 numberText owner s
     = (Returns (latestOf s.(Idx.store)), restored (latestOf s.(Idx.store)) s).
Proof.
  intros Hs. unfold restoreLatestSnapshotOwned.
  erewrite task_bind_eq by (apply assertStateOwner_eq, Hs). erewrite task_bind_eq by reflexivity.
  set (s0 := s <| Idx.reconciledProjection := None |> <| Idx.reconciledCursor := None |>
               <| Idx.reconciledStateIdentity := None |>).
  erewrite task_bind_eq.
  2:{ unfold onStore. rewrite (store_load s0.(Idx.store)) by apply Hs.
      replace (s0 <| Idx.store := s0.(Idx.store) |>) with s0 by reflexivity. reflexivity. }
  erewrite task_bind_eq by (apply assertStateOwner_eq, Hs).
  change (latestOf s0.(Idx.store)) with (latestOf s.(Idx.store)).
  destruct (latestOf s.(Idx.store)) as [snap|] eqn:El; [|by right].
  destruct (ok_latest _ _ _ Hs El) as [Ht Hr].
  assert (Hk : MapsKeyed snap.(Snap.projection)) by (apply ledger_keyed; by eapply replays_sound).
  destruct (decodeSnapshot sha256 numberText (encodeSnapshot snap)) as [snap'|e] eqn:Ed.
  - right. pose proof Ed as ->%decode_encode_returns; [|done|done].
    erewrite task_bind_eq by reflexivity. reflexivity.
  - left. exists e. split; [|split; [done|]].
    + by erewrite task_bind_throws by reflexivity.
    + intros Hd. by rewrite decode_encode in Ed.
Qed.

Lemma ok_restored s : Ok s -> Ok (restored (latestOf s.(Idx.store)) s).
Proof.
  intros Hs. assert (Hr : Replays base (from_option Snap.projection createEmptyProjection (latestOf s.(Idx.store)))).
  { destruct (latestOf s.(Idx.store)) eqn:El; [by eapply ok_latest|]. exists createEmptyProjection.
    split; [constructor|constructor]. }
  destruct Hs. split; try done. cbn. lia.
Qed.

Lemma ok_restoreOwned : Preserves Ok (restoreLatestSnapshotOwned sha256 numberText owner).
Proof.
  intros s o s' Hs E. destruct (restore_cases s Hs) as [(e & E' & _)|E']; rewrite E' in E; injection E as _ <-.
  - by destruct Hs.
  - by apply ok_restored.
Qed.

Lemma ok_invokeOwned call :
  call ∈ calls -> Preserves Ok (invokeOwned clock sha256 numberText call owner writerLease).
Proof.
  intros Hin. destruct call; cbn [invokeOwned].
  - apply ok_restoreOwned.
  - apply ok_processOwned.
  - apply ok_pollOnceOwned.
  - by apply ok_reconcileOwned.
  - apply ok_snapshotOwned.
Qed.
End Kept.

(** ** Public methods *)

Lemma run_inv call s o s' :
  s.(Idx.activeStateOwner) = None -> run clock sha256 numberText call s = (o, s') ->
  exists s1, invokeOwned clock sha256 numberText call s.(Idx.allocated) None
      (s <| Idx.allocated := Datatypes.S s.(Idx.allocated) |> <| Idx.activeStateOwner := Some s.(Idx.allocated) |>) = (o, s1)
    /\ s' = releaseOwner s.(Idx.allocated) s1.
Proof.
  intros Hn. unfold run. rewrite withDirect_eq by done.
  destruct (invokeOwned _ _ _ _ _ _) as [o1 s1] eqn:E. intros [= -> <-]. by exists s1.
Qed.

(** Where an operation starts, the owner registered. *)
Lemma ok_start base calls lease s :
  IndexerOk base calls None lease s ->
  IndexerOk base calls (Some s.(Idx.allocated)) lease
    (s <| Idx.allocated := Datatypes.S s.(Idx.allocated) |> <| Idx.activeStateOwner := Some s.(Idx.allocated) |>).
Proof.
  intros [? ? ? ? Hobj Ha ?]. split; try done; [cbn; lia|]. unfold Authorized in *. cbn.
  destruct (Idx.reconciledProjection s); [|done]. destruct Ha as [? Ha]. split; [lia|exact Ha].
Qed.

(** Where it ends, the owner released. *)
Lemma ok_finish base calls owner lease s :
  IndexerOk base calls (Some owner) lease s -> IndexerOk base calls None lease (releaseOwner owner s).
Proof. intros Hs. unfold releaseOwner. rewrite bool_decide_true by apply Hs. by destruct Hs. Qed.

Lemma ok_run base calls call s o s' :
  BaseOk sha256 base ->
  IndexerOk base calls None None s -> run clock sha256 numberText call s = (o, s') ->
  IndexerOk base (call :: calls) None None s'.
Proof.
  intros Hb Hs E. apply run_inv in E as (s1 & E & ->); [|apply Hs].
  apply (ok_mono _ _ call) in Hs.
  apply (ok_invokeOwned base (call :: calls) s.(Idx.allocated) None Hb call) in E; [|by left|by apply ok_start].
  by apply ok_finish.
Qed.
End Calls.
