(* ===== verification/IndexerHistory.v ===== *)
(** * Any sequence of calls and cycles

    The invariant of IndexerInvariant.v is kept by every callback of a writer
    cycle, whatever it invokes next and whatever the sink answers, and so by
    every history of an indexer over a store. *)
From S2P Require Import Prelude JsMap Types MoveDomains Accounting Replay Group WalletHandlers.
From S2P Require Import LpHandlers PoolHandlers ConfigHandlers GroupChecks Reducer Reconciler.
From S2P Require Import Snapshot SnapshotDecode Store EventIndexer WriterCycle Ledger ReconcilerSpec.
From S2P Require Import SnapshotRoundTrip ReducerCorrect ReducerSpec Frames LiquidityTheorems.
From S2P Require Import ReducerTheorems ReconcilerTheorems IndexerInvariant.

#[local] Arguments reduceEventGroup : simpl never.
#[local] Arguments reconcile : simpl never.
#[local] Arguments createEmptyProjection : simpl never.

Section History.
Context {S K : Type} `{StoreLaws S} `{CriticalAlertSink K}.
Context (clock : nat -> Z) (sha256 : string -> string) (numberText : Z -> Z -> string).
Implicit Types s : Idx.EventIndexer S.

#[local] Abbreviation cycleMethod := (cycleMethod clock sha256 numberText).
#[local] Abbreviation interpret := (interpret clock sha256 numberText).
#[local] Abbreviation withExclusiveStoreWriter := (withExclusiveStoreWriter clock sha256 numberText).

(** What a callback invokes, the latest first. *)
Fixpoint invocations {A} (owner : nat) (lease : Lease) (program : CycleProgram A) (s : Idx.EventIndexer S * K)
    : list Call :=
  match program with
  | Done _ => []
  | Invoke call continue =>
      let '(o, indexer) := cycleMethod call owner lease s.1 in
      invocations owner lease (continue o) (indexer, s.2) ++ [call]
  | Deliver alert continue =>
      let '(o, sink) := deliver alert s.2 in invocations owner lease (continue o) (s.1, sink)
  end.

(** Where the callback of a cycle starts. *)
Definition cycleStart (st : S) s : Idx.EventIndexer S :=
  s <| Idx.store := st |> <| Idx.allocated := Datatypes.S s.(Idx.allocated) |>
    <| Idx.activeStateOwner := Some s.(Idx.allocated) |>.

Definition cycleCalls {A} (program : CycleProgram A) (s : Idx.EventIndexer S) (k : K) : list Call :=
  match beginWriter s.(Idx.store) with
  | (Returns lease, st) => invocations s.(Idx.allocated) lease program (cycleStart st s, k)
  | (Throws _, _) => []
  end.

(** The states of an indexer over [st], with what was called so far, the latest first. *)
Inductive History (st : S) : list Call -> Idx.EventIndexer S -> Prop :=
| History_new : History st [] (newEventIndexer st)
| History_call calls s call o s' :
    History st calls s -> run clock sha256 numberText call s = (o, s') -> History st (call :: calls) s'
| History_cycle calls s A (program : CycleProgram A) k o s' k' :
    History st calls s -> withExclusiveStoreWriter program (s, k) = (o, (s', k')) ->
    History st (cycleCalls program s k ++ calls) s'.

(** ** Cycles keep the invariant *)

Context (base : option Snap.IndexerSnapshot) (base_ok : BaseOk sha256 base).

Lemma ok_interpret {A} owner lease (program : CycleProgram A) : forall failures calls (s s' : Idx.EventIndexer S * K) o,
  IndexerOk sha256 base calls (Some owner) (Some lease) s.1 ->
  interpret owner lease program failures s = (o, s') ->
  IndexerOk sha256 base (invocations owner lease program s ++ calls) (Some owner) (Some lease) s'.1.
Proof.
  induction program as [[a|e]|call continue IH|alert continue IH]; intros failures calls s s' o Hs E; cbn in *.
  - by injection E as _ <-.
  - by injection E as _ <-.
  - destruct (cycleMethod call owner lease s.1) as [o1 indexer] eqn:Ec.
    rewrite <- app_assoc. eapply IH; [|exact E]. cbn [fst].
    apply (ok_mono _ _ _ call) in Hs. revert Ec. cbn [app].
    eapply preserves_bind; [apply preserves_assertStateOwner| |exact Hs].
    intros _. apply ok_invokeOwned; [exact base_ok|by left].
  - destruct (deliver alert s.2) as [o1 sink]. by eapply IH.
Qed.

(** A cycle on a free indexer, step by step. *)
Lemma cycle_eq {A} (program : CycleProgram A) calls s k :
  IndexerOk sha256 base calls None None s ->
  exists lease st, beginWriter s.(Idx.store) = (Returns lease, st)
    /\ IndexerOk sha256 base calls (Some s.(Idx.allocated)) (Some lease) (cycleStart st s)
    /\ latestOf st = latestOf s.(Idx.store)
    /\ withExclusiveStoreWriter program (s, k) =
       let '(o, (s1, k1)) := interpret s.(Idx.allocated) lease program [] (cycleStart st s, k) in
       let s2 := releaseOwner s.(Idx.allocated) s1 in
       (o, (s2 <| Idx.store := endWriter s2.(Idx.store) |>, k1)).
Proof.
  intros Hs. pose proof (store_begin _ (ok_store _ _ _ _ _ _ Hs)) as Hb. rewrite (ok_lease _ _ _ _ _ _ Hs) in Hb.
  destruct Hb as (lease & st & Eb & Hok & Hh & Hl & _). exists lease, st. split; [exact Eb|].
  assert (Hs1 : IndexerOk sha256 base calls None (Some lease) (s <| Idx.store := st |>)).
  { by eapply ok_store_change. }
  split; [exact (ok_start _ _ _ _ _ Hs1)|]. split; [done|].
  unfold WriterCycle.withExclusiveStoreWriter. erewrite task_bind_eq.
  2:{ unfold onIndexer, onStore. cbn [fst]. rewrite Eb. reflexivity. }
  unfold finally at 1. erewrite (task_bind_eq (onIndexer allocate)) by reflexivity.
  erewrite task_bind_eq.
  2:{ unfold onIndexer. rewrite acquireOwner_eq by apply Hs. reflexivity. }
  unfold finally. cbn [fst snd]. fold (cycleStart st s).
  change (Idx.allocated (s <|Idx.store := st|>)) with (Idx.allocated s).
  match goal with |- (let '(_, _) := let '(_, _) := ?m in _ in _) = _ => change m with
    (interpret s.(Idx.allocated) lease program [] (cycleStart st s, k)) end.
  by destruct (interpret _ _ _ _ _) as [o [s1 k1]].
Qed.

Lemma ok_cycle {A} (program : CycleProgram A) calls s k o s' k' :
  IndexerOk sha256 base calls None None s -> withExclusiveStoreWriter program (s, k) = (o, (s', k')) ->
  IndexerOk sha256 base (cycleCalls program s k ++ calls) None None s'.
Proof.
  intros Hs E. destruct (cycle_eq program calls s k Hs) as (lease & st & Eb & Hs1 & _ & Ec).
  rewrite Ec in E. unfold cycleCalls. rewrite Eb.
  destruct (interpret _ lease program [] _) as [o1 [s1 k1]] eqn:Ei.
  eapply ok_interpret in Ei; [|exact Hs1]. cbn [fst] in Ei. injection E as _ <- _.
  apply ok_finish in Ei. destruct (store_end _ (ok_store _ _ _ _ _ _ Ei)) as (Hok & Hh & Hl & _).
  by eapply ok_store_change.
Qed.
End History.

(** Whatever is called, the invariant holds between the calls. *)
Lemma ok_history {S K} `{StoreLaws S} `{CriticalAlertSink K} clock sha256 numberText (st : S) calls s :
  BaseOk sha256 (latestOf st) -> storeOk st -> holds st = None ->
  History (K := K) clock sha256 numberText st calls s -> IndexerOk sha256 (latestOf st) calls None None s.
Proof.
  intros Hb Hok Hh. induction 1 as [|calls s call o s' _ IH E|calls s A program k o s' k' _ IH E].
  - split; try done; [|cbn; lia|by left]. exists createEmptyProjection. split; constructor.
  - by eapply ok_run.
  - by eapply ok_cycle.
Qed.

(** What a store holds after any history, a new indexer can start from. *)
Lemma history_base {S K} `{StoreLaws S} `{CriticalAlertSink K} clock sha256 numberText (st : S) calls s :
  BaseOk sha256 (latestOf st) -> storeOk st -> holds st = None ->
  History (K := K) clock sha256 numberText st calls s ->
  storeOk s.(Idx.store) /\ holds s.(Idx.store) = None /\ BaseOk sha256 (latestOf s.(Idx.store)).
Proof.
  intros Hb Hok Hh Hist. pose proof (ok_history _ _ _ _ _ _ Hb Hok Hh Hist) as Hs.
  split; [apply Hs|]. split; [apply Hs|]. intros snap El.
  destruct (ok_latest _ _ _ _ Hb _ _ _ (ok_start _ _ _ _ _ Hs) El) as [Ht Hr]. split; [exact Ht|].
  by eapply replays_sound.
Qed.

(** ** From a confirmed reconciliation to a checkpoint

    When the indexer knows the checkpoint it builds on, or its store was empty at
    first, a reconciliation that reports [reconciled] leaves it able to
    checkpoint: each step of [snapshot] then succeeds. *)

#[local] Arguments reduceEventGroup : simpl never.
#[local] Arguments reconcile : simpl never.
#[local] Arguments createEmptyProjection : simpl never.

Section Liveness.
Context {S : Type} `{StoreLaws S}.
Context (clock : nat -> Z) (sha256 : string -> string).
Context (base : option Snap.IndexerSnapshot) (calls : list Call) (owner : nat) (writerLease : option Lease).
Context (base_ok : BaseOk sha256 base).
Context (granted : writerLease = None -> permitsImplicitWriterLease (S := S) = true).
Implicit Types s : Idx.EventIndexer S.

#[local] Abbreviation Ok := (IndexerOk sha256 base calls (Some owner) writerLease).

(** The indexer restored or saved a checkpoint, or there never was one. *)
Definition KnowsBase s : Prop := base = None \/ s.(Idx.durableBaseSnapshotId) <> None.

Lemma reconcile_reconciled c p o report :
  reconcile clock c p o = Returns report -> report.(Report.reconciled) = true -> report.(Report.alerts) = [].
Proof.
  intros H' Hr. unfold reconcile in H'. cbv zeta in H'. outcome_inv.
  destruct (negb _).
  - apply outcome_bind_inv in H' as ([? alerts] & _ & [= <-]). done.
  - apply outcome_bind_inv in H' as ([? alerts] & _ & [= <-]). cbn in *.
    by apply bool_decide_eq_true, length_zero_iff_nil in Hr.
Qed.

(** Settling the base then succeeds. *)
Lemma resolveDurableBase_runs lease s :
  KnowsBase s -> IndexerOk sha256 base calls (Some owner) lease s ->
  exists s1, resolveDurableBase owner s = (Returns tt, s1) /\ IndexerOk sha256 base calls (Some owner) lease s1
    /\ Snap.id <$> latestOf s1.(Idx.store) = default None s1.(Idx.durableBaseSnapshotId).
Proof.
  intros Hbase Hs. destruct (resolveDurableBase owner s) as [o s1] eqn:E.
  pose proof (ok_resolveDurableBase sha256 base calls owner lease _ _ _ Hs E) as Hs1.
  pose proof (ok_based _ _ _ _ _ _ Hs) as Hb. unfold Based in Hb.
  unfold resolveDurableBase in E. erewrite task_bind_eq in E by reflexivity.
  destruct (Idx.durableBaseSnapshotId s) eqn:Ed.
  - injection E as <- <-. exists s. split; [done|]. split; [done|]. by rewrite Ed.
  - destruct Hbase as [Hbase|Hbase]; [|by rewrite Ed in Hbase].
    unfold onStore in E. unfold mbind at 1, task_bind at 1 in E. rewrite (store_load _ (ok_store _ _ _ _ _ _ Hs)) in E.
    replace (s <| Idx.store := _ |>) with s in E by (by destruct s). rewrite Hb, Hbase in E.
    erewrite task_bind_eq in E by (apply assertStateOwner_eq, Hs). injection E as <- <-.
    eexists. split; [done|]. split; [exact Hs1|]. cbn. by rewrite Hb, Hbase.
Qed.

(** After a confirmed reconciliation of a first-generation deployment. *)
Lemma reconcileOwned_reconciled source s report s' :
  Ok s -> isV02 s.(Idx.projection).(Ref.value) = false ->
  reconcileOwned clock sha256 source owner writerLease s = (Returns report, s') -> report.(Report.reconciled) = true ->
  exists c identity, s.(Idx.cursor) = Some c
    /\ checkpointStateIdentity sha256 s.(Idx.projection).(Ref.value) c = Returns identity
    /\ s.(Idx.projection).(Ref.value).(Proj.chainId) = CEDRA_TESTNET_CHAIN_ID
    /\ s.(Idx.projection).(Ref.value).(Proj.deploymentReady) = true
    /\ adminsComplete s.(Idx.projection).(Ref.value).(Proj.operationalAdmins) = true
    /\ s' = s <| Idx.reconciledProjection := Some s.(Idx.projection).(Ref.object) |>
              <| Idx.reconciledCursor := Some c |> <| Idx.reconciledStateIdentity := Some identity |>.
Proof.
  intros Hs Hv E Hrec. unfold reconcileOwned in E. erewrite task_bind_eq in E by (apply assertStateOwner_eq, Hs).
  erewrite task_bind_eq in E by reflexivity. destruct (Idx.cursor s) as [c|] eqn:Ec; [|done].
  erewrite task_bind_eq in E by reflexivity. cbv zeta in E.
  apply task_bind_inv in E as (identity & s1 & [= Ei <-] & E).
  apply task_bind_inv in E as (observed & s1 & [= Eo <-] & E).
  erewrite task_bind_eq in E by (apply assertStateOwner_eq, Hs).
  apply task_bind_inv in E as (r & s1 & [= Er <-] & E).
  assert (r = report) as ->.
  { apply task_bind_inv in E as (? & ? & _ & E). apply task_bind_inv in E as (? & ? & _ & E).
    apply task_bind_inv in E as (? & ? & _ & E). by injection E. }
  pose proof (reconcile_reconciled _ _ _ _ Er Hrec) as Ea. rewrite Ea in E.
  apply (reconcile_iff _ _ _ _ _ (proj1 (ok_sound _ _ _ _ _ _ base_ok Hs)) Er) in Hrec as Hagree.
  destruct Hagree as [_ ((Echain & Eochain & _) & _ & (Eready & Eadmins) & _)]. rewrite Hv in Eadmins.
  destruct Eadmins as (Eadmins & _). erewrite task_bind_eq in E by reflexivity.
  erewrite task_bind_eq in E by reflexivity. cbv zeta in E. cbn [Idx.cursor Idx.projection] in E. cbn in E.
  rewrite Ec, Hrec, Eochain, Echain, Eready, Eadmins, !bool_decide_true in E
    by first [done|by apply compareCursor_zero]. cbn in E.
  erewrite task_bind_eq in E.
  2:{ erewrite task_bind_eq by (unfold evaluate; rewrite Ei; reflexivity). rewrite bool_decide_true by done. reflexivity. }
  injection E as <-. exists c, identity. split; [done|]. split; [exact Ei|]. do 3 (split; [done|]). by destruct s.
Qed.

(** The guards of [snapshot] under an authorization for the present state. *)
Lemma snapshotOwned_runs takenAt s c identity :
  KnowsBase s -> Ok s -> s.(Idx.cursor) = Some c -> isMoveUnsigned takenAt U64 = true ->
  s.(Idx.projection).(Ref.value).(Proj.chainId) = CEDRA_TESTNET_CHAIN_ID ->
  s.(Idx.projection).(Ref.value).(Proj.deploymentReady) = true ->
  adminsComplete s.(Idx.projection).(Ref.value).(Proj.operationalAdmins) = true ->
  checkpointStateIdentity sha256 s.(Idx.projection).(Ref.value) c = Returns identity ->
  s.(Idx.reconciledProjection) = Some s.(Idx.projection).(Ref.object) -> s.(Idx.reconciledCursor) = Some c ->
  s.(Idx.reconciledStateIdentity) = Some identity ->
  exists snap s', snapshotOwned sha256 takenAt owner writerLease s = (Returns snap, s').
Proof.
  intros Hbase Hs Hc Ht Hchain Hready Hadmins Hid Hrp Hrc Hri. unfold snapshotOwned.
  erewrite task_bind_eq by (apply assertStateOwner_eq, Hs).
  rewrite unlessThrow_true by (apply isMoveUnsigned_iff in Ht as [? _]; by apply bool_decide_true).
  erewrite task_bind_eq by reflexivity. rewrite Hc. cbv zeta.
  rewrite unlessThrow_true by (by rewrite Hchain, Hready, Hadmins).
  erewrite task_bind_eq.
  2:{ rewrite Hrc, Hrp, Hri. rewrite unlessThrow_true by (rewrite !bool_decide_true; [done|by apply compareCursor_zero|done]).
      erewrite task_bind_eq by (unfold evaluate; rewrite Hid; reflexivity). unfold unlessThrow.
      rewrite bool_decide_true by done. reflexivity. }
  assert (Hsnap : exists snap, takeSnapshot sha256 s.(Idx.projection).(Ref.value) (Some c) takenAt = Returns snap).
  { unfold checkpointStateIdentity in Hid. apply outcome_bind_inv in Hid as (snap & Hid & _).
    unfold takeSnapshot in *. rewrite Ht. change (isMoveUnsigned 0 U64) with true in Hid. cbn [negb] in *.
    destruct (isCursor _), (isProjection _); try done. cbn. by eexists. }
  destruct Hsnap as [snap Esnap]. erewrite task_bind_eq by (unfold evaluate; rewrite Esnap; reflexivity).
  assert (Hbody : forall lease s1, IndexerOk sha256 base calls (Some owner) (Some lease) s1 -> KnowsBase s1 ->
    exists s2, (assertStateOwner owner ;; resolveDurableBase owner ;; saveOver owner snap lease) s1 = (Returns snap, s2)).
  { intros lease s1 Hs1 Hk1. destruct (resolveDurableBase_runs _ _ Hk1 Hs1) as (s2 & Er & Hs2 & Hknown).
    pose proof (saveOver_spec owner snap lease s2 (ok_owner _ _ _ _ _ _ Hs2) (ok_store _ _ _ _ _ _ Hs2)
      (ok_lease _ _ _ _ _ _ Hs2)) as Hsave. rewrite decide_True in Hsave by exact Hknown.
    destruct Hsave as (st' & Esave & _). eexists.
    erewrite task_bind_eq by (apply assertStateOwner_eq, Hs1). erewrite task_bind_eq by exact Er. exact Esave. }
  exists snap. unfold withStoreWriter. destruct writerLease as [given|]; [by eapply Hbody|].
  rewrite unlessThrow_true by by apply granted.
  pose proof (store_begin _ (ok_store _ _ _ _ _ _ Hs)) as Hb. rewrite (ok_lease _ _ _ _ _ _ Hs) in Hb.
  destruct Hb as (lease & st & Eb & Hst & Hh & Hl & _).
  erewrite task_bind_eq by (unfold onStore; rewrite Eb; reflexivity).
  destruct (Hbody lease (s <| Idx.store := st |>)) as [s2 E2]; [by eapply ok_store_change|exact Hbase|].
  unfold finally. fold (saveOver (S := S) owner snap lease). rewrite E2. by eexists.
Qed.
End Liveness.
