(* ===== verification/IndexerTheorems.v ===== *)
(** * Properties of the event indexer and of its store

    What [process] commits, what a checkpoint certifies, and what the lock of
    the indexer and the leases of the in-memory store exclude. *)
From S2P Require Import Prelude JsMap Types MoveDomains Json Accounting Replay Group WalletHandlers LpHandlers.
From S2P Require Import PoolHandlers ConfigHandlers GroupChecks Reducer Ledger ReducerCorrect ReducerSpec.
From S2P Require Import Frames Fixtures ReducerTheorems LiquidityTheorems Reconciler ReconcilerSpec ReconcilerTheorems.
From S2P Require Import Snapshot SnapshotDecode SnapshotRoundTrip Store EventIndexer WriterCycle.
From S2P Require Import IndexerInvariant IndexerHistory.

#[local] Arguments reduceEventGroup : simpl never.
#[local] Arguments reconcile : simpl never.
#[local] Arguments createEmptyProjection : simpl never.
#[local] Arguments takeSnapshot : simpl never.
#[local] Arguments processOwned : simpl never.

(** ** Pages *)

Section Pages.
Context {S : Type} `{StoreLaws S}.
Implicit Types s : Idx.EventIndexer S.

(** What [process] promises: the state [s'] after the page [events]. *)
Record PageCommitted (events : list ProtocolEvent) s (result : Processed.ProcessResult) s'
    (committed left : list (list ProtocolEvent)) : Prop := {
  page_groups : groupByLedger (freshEvents s.(Idx.cursor) events) = committed ++ left;
  page_advance : Advance (replayedOf s) committed (replayedOf s');
  page_ended : Ended (replayedOf s') left result.(Processed.rejectedEvents) result.(Processed.alerts);
  page_before : Forall (Before s'.(Idx.cursor)) (concat committed);
  page_monotone : forall event, Before s.(Idx.cursor) event -> Before s'.(Idx.cursor) event;
  page_processed : result.(Processed.processedEvents) = arrayLength (concat committed);
  page_skipped : result.(Processed.skippedEvents) = arrayLength (skippedEventsOf s.(Idx.cursor) events);
  page_cursor : result.(Processed.cursor) = s'.(Idx.cursor);
  page_alerts : alertsOf s'.(Idx.store) = alertsOf s.(Idx.store) ++ result.(Processed.alerts);
  page_latest : latestOf s'.(Idx.store) = latestOf s.(Idx.store);
  page_unauthorized : s'.(Idx.reconciledProjection) = None;
  page_unlocked : s'.(Idx.activeStateOwner) = None /\ Writable None s'.(Idx.store)
}.

Lemma process_spec events s :
  s.(Idx.activeStateOwner) = None -> Writable None s.(Idx.store) ->
  exists result s' committed left,
    process events s = (Returns result, s') /\ PageCommitted events s result s' committed left.
Proof.
  intros Hn Hw. unfold process. rewrite withDirect_eq by done.
  set (s0 := s <| Idx.allocated := _ |> <| Idx.activeStateOwner := _ |>).
  destruct (processOwned_spec events s.(Idx.allocated) None s0 eq_refl Hw)
    as (result & s1 & committed & left & Ep & Eg & Ha & He & Hp & Hs & Hc & Ho & Hw1 & Hl & Hal & Hr & _).
  rewrite Ep. cbv beta iota zeta. unfold releaseOwner. rewrite bool_decide_true by exact Ho.
  exists result, (s1 <| Idx.activeStateOwner := None |>), committed, left. split; [done|].
  assert (Hasc : Ascending (concat committed)).
  { assert (Hf : Ascending (concat (committed ++ left))).
    { rewrite <- Eg, groupByLedger_concat. apply ascending_filter, sort_ascending. }
    rewrite concat_app in Hf. exact (proj1 (ascending_app _ _ Hf)). }
  destruct (advance_before _ _ _ Ha Hasc) as [Hb Hm].
  by split.
Qed.

(** Everything was committed: delivering the page again finds nothing fresh. *)
Lemma filter_none {A} (f : A -> bool) l : Forall (fun x => f x = false) l -> List.filter f l = [].
Proof. induction 1 as [|x l Hx _ IH]; [done|]. cbn. by rewrite Hx. Qed.

Lemma filter_all {A} (f : A -> bool) l : Forall (fun x => f x = true) l -> List.filter f l = l.
Proof. induction 1 as [|x l Hx _ IH]; [done|]. cbn. by rewrite Hx, IH. Qed.

Lemma page_all_before events s result s' committed :
  PageCommitted events s result s' committed [] -> Forall (Before s'.(Idx.cursor)) (sortByCursor events).
Proof.
  intros [Eg _ _ Hb Hm _ _ _ _ _ _ _]. rewrite app_nil_r in Eg. rewrite <- Eg, groupByLedger_concat in Hb.
  unfold freshEvents in Hb. apply List.Forall_forall. intros event Hin.
  destruct (notAfter event (Idx.cursor s)) eqn:E; [by apply Hm|]. rewrite List.Forall_forall in Hb.
  apply Hb, filter_In. by rewrite E.
Qed.
End Pages.

(** C21. [process] commits a prefix of its page and fails closed: the fresh events,
    sorted and grouped by ledger version, split into a committed part, every
    group of which the reducer replayed without an alert onto the projection
    before it, and the rest, of which nothing is applied: it is empty, or its
    first group is out of order or raised the alerts of the result.  The counts
    of the result are those of the two parts, its alerts are appended to the
    store, the cursor never falls and covers all that was committed, the
    authorization to checkpoint is withdrawn, and lock and lease are released. *)
Theorem process_commits_prefix {S} `{StoreLaws S} events (s : Idx.EventIndexer S) :
  s.(Idx.activeStateOwner) = None -> Writable None s.(Idx.store) ->
  exists result s' committed left,
    process events s = (Returns result, s') /\ PageCommitted events s result s' committed left.
Proof. apply process_spec. Qed.

Lemma memory_new_writable : Writable None newMemoryStore.
Proof. by repeat split. Qed.

Lemma memory_new_base sha256 : BaseOk sha256 (latestOf newMemoryStore).
Proof. discriminate. Qed.

Lemma memory_implicit : permitsImplicitWriterLease (S := Mem.InMemoryIndexerStore) = true.
Proof. reflexivity. Qed.

Lemma process_commits_prefix_witness :
  exists result s' committed left,
    process (List.rev initEvents) (newEventIndexer newMemoryStore) = (Returns result, s')
    /\ PageCommitted (List.rev initEvents) (newEventIndexer newMemoryStore) result s' committed left.
Proof. apply process_commits_prefix; [reflexivity|exact memory_new_writable]. Defined.

(** Delivery at least once is harmless: when a page was committed whole,
    delivering it again processes nothing, skips every event, raises no alert
    and leaves the projection, the cursor and the store as they are. *)
Theorem process_idempotent {S} `{StoreLaws S} events (s s' : Idx.EventIndexer S) result :
  s.(Idx.activeStateOwner) = None -> Writable None s.(Idx.store) ->
  process events s = (Returns result, s') -> result.(Processed.alerts) = [] ->
  exists s'', process events s' = (Returns (Processed.mk 0 (arrayLength events) 0 s'.(Idx.cursor) []), s'')
    /\ replayedOf s'' = replayedOf s' /\ alertsOf s''.(Idx.store) = alertsOf s'.(Idx.store)
    /\ latestOf s''.(Idx.store) = latestOf s'.(Idx.store).
Proof.
  intros Hn Hw E Ha. destruct (process_spec events s Hn Hw) as (r & s1 & committed & left & Ep & Hpage).
  rewrite Ep in E. injection E as -> ->.
  assert (left = []) as ->.
  { destruct left as [|g l]; [done|]. destruct (page_ended _ _ _ _ _ _ Hpage) as [[Hne _] _]. by rewrite Ha in Hne. }
  pose proof (page_all_before _ _ _ _ _ Hpage) as Hall.
  destruct (page_unlocked _ _ _ _ _ _ Hpage) as [Hn' Hw'].
  destruct (process_spec events s' Hn' Hw') as ([pe sk re c al] & s2 & committed2 & left2 & Ep2 & [Eg Had Hen _ _ Hp Hs Hc Hal Hl _ _]).
  assert (freshEvents s'.(Idx.cursor) events = []) as Ef.
  { apply filter_none. eapply Forall_impl; [|exact Hall]. intros e He. cbn. by rewrite He. }
  rewrite Ef in Eg. cbn in Eg. symmetry in Eg. apply app_eq_nil in Eg as [-> ->]. cbn in *. destruct Hen as [-> ->].
  assert (Hrep : replayedOf s2 = replayedOf s') by (unfold replayedOf; inversion Had; congruence).
  subst. exists s2.
  rewrite app_nil_r in Hal. split; [|by rewrite Hrep].
  rewrite Ep2. unfold skippedEventsOf. rewrite filter_all by exact Hall. unfold arrayLength.
  rewrite (Permutation_length (sortByCursor_perm events)). apply (f_equal snd) in Hrep. cbn in Hrep. by rewrite Hrep.
Qed.

(** The state of an indexer over a new in-memory store after the given pages. *)
Definition indexed (pages : list (list ProtocolEvent)) : Idx.EventIndexer Mem.InMemoryIndexerStore :=
  foldl (fun s page => (process page s).2) (newEventIndexer newMemoryStore) pages.

Lemma process_idempotent_witness :
  exists s'', process initEvents (indexed [initEvents])
      = (Returns (Processed.mk 0 (arrayLength initEvents) 0 (indexed [initEvents]).(Idx.cursor) []), s'')
    /\ replayedOf s'' = replayedOf (indexed [initEvents])
    /\ alertsOf s''.(Idx.store) = alertsOf (indexed [initEvents]).(Idx.store)
    /\ latestOf s''.(Idx.store) = latestOf (indexed [initEvents]).(Idx.store).
Proof.
  eapply (process_idempotent initEvents (newEventIndexer newMemoryStore));
    [reflexivity|exact memory_new_writable|vm_compute; reflexivity|reflexivity].
Defined.

(** The order of a page does not matter: two deliveries of the same events,
    with distinct cursors, have the same result and leave the same state. *)
Theorem page_order_irrelevant {S} `{StoreLaws S} events events' (s : Idx.EventIndexer S) :
  events ≡ₚ events' -> NoDup (map eventCursor events) -> process events s = process events' s.
Proof.
  intros Hp Hn. assert (E : sortByCursor events = sortByCursor events').
  { apply ascending_unique; [apply sort_ascending|apply sort_ascending| |].
    - by rewrite !sortByCursor_perm.
    - by rewrite sortByCursor_perm. }
  unfold process, withDirectStateOperation, processOwned. by rewrite E.
Qed.

Lemma page_order_irrelevant_witness :
  process initEvents (newEventIndexer newMemoryStore) = process (List.rev initEvents) (newEventIndexer newMemoryStore).
Proof.
  apply page_order_irrelevant.
  - by rewrite <- Permutation_rev.
  - apply (bool_decide_unpack _). vm_compute. exact I.
Defined.

(** ** Checkpoints *)

Section Checkpoints.
Context {S : Type} `{StoreLaws S}.
Context (clock : nat -> Z) (sha256 : string -> string).
Context (base : option Snap.IndexerSnapshot) (calls : list Call) (owner : nat) (writerLease : option Lease).
Implicit Types s : Idx.EventIndexer S.

(** What the store holds after a save under its lease. *)
Lemma saved_latest s snap expected lease s' :
  storeOk s.(Idx.store) -> onStore (saveSnapshot snap lease expected) s = (Returns tt, s') ->
  storeOk s'.(Idx.store) /\ latestOf s'.(Idx.store) = Some snap.
Proof.
  intros Hok E. unfold onStore in E. pose proof (store_save _ snap lease expected Hok) as Hs. case_decide.
  - destruct Hs as (st & Es & Hok' & _ & Hl & _). rewrite Es in E. by injection E as <-.
  - destruct Hs as (e & Es). by rewrite Es in E.
Qed.

(** The save under a lease, from the ownership check on. *)
Lemma saveUnder_returns lease snap s shot s' :
  IndexerOk sha256 base calls (Some owner) (Some lease) s ->
  (assertStateOwner owner ;; resolveDurableBase owner ;; saveOver owner snap lease) s = (Returns shot, s') ->
  shot = snap /\ storeOk s'.(Idx.store) /\ latestOf s'.(Idx.store) = Some snap.
Proof.
  intros Hok1 Eo.
  apply task_bind_inv in Eo as ([] & s3 & [= _ <-] & Eo). apply task_bind_inv in Eo as ([] & s3 & Ebase & Eo).
  assert (Hok3 : storeOk s3.(Idx.store)) by (eapply ok_store, ok_resolveDurableBase; [exact Hok1|exact Ebase]).
  unfold saveOver in Eo.
  apply task_bind_inv in Eo as (? & s4 & [= <- <-] & Eo). apply task_bind_inv in Eo as ([] & s4 & Esave & Eo).
  destruct (saved_latest _ _ _ _ _ Hok3 Esave) as [Hok4 Hl4].
  apply task_bind_inv in Eo as ([] & s5 & [= _ <-] & Eo). apply task_bind_inv in Eo as ([] & s5 & [= <-] & Eo).
  injection Eo as <- <-. done.
Qed.

Lemma snapshotOwned_returns takenAt s snap s' :
  IndexerOk sha256 base calls (Some owner) writerLease s ->
  snapshotOwned sha256 takenAt owner writerLease s = (Returns snap, s') ->
  snap.(Snap.projection) = s.(Idx.projection).(Ref.value) /\ snap.(Snap.cursor) = s.(Idx.cursor)
  /\ snap.(Snap.takenAtUnixMilliseconds) = takenAt
  /\ (exists c, s.(Idx.cursor) = Some c /\ Certified calls snap.(Snap.projection) c)
  /\ latestOf s'.(Idx.store) = Some snap.
Proof.
  intros Hs E. unfold snapshotOwned in E.
  apply task_bind_inv in E as ([] & s1 & [= _ <-] & E).
  apply task_bind_inv in E as ([] & s1 & [= _ <-] & E).
  apply task_bind_inv in E as (? & s1 & [= <- <-] & E).
  destruct (Idx.cursor s) as [cursor|] eqn:Ec; [|done]. cbv zeta in E.
  apply task_bind_inv in E as ([] & s1 & [= _ <-] & E).
  apply task_bind_inv in E as ([] & s1 & Ea & E).
  apply (authorization_inv sha256) in Ea as [-> Hr]. specialize (Hr _ eq_refl).
  destruct (authorized_certified sha256 base calls owner _ _ Hs Hr) as (c & Ec' & Hcert).
  apply task_bind_inv in E as (shot & s1 & [= Et <-] & E).
  apply takeSnapshot_returns in Et as (_ & _ & _ & Eshot).
  assert (Hfinal : snap = shot -> latestOf s'.(Idx.store) = Some shot ->
    snap.(Snap.projection) = s.(Idx.projection).(Ref.value) /\ snap.(Snap.cursor) = Some cursor
    /\ snap.(Snap.takenAtUnixMilliseconds) = takenAt
    /\ (exists c, Some cursor = Some c /\ Certified calls snap.(Snap.projection) c)
    /\ latestOf s'.(Idx.store) = Some snap).
  { intros -> Hl. rewrite Hl, Eshot. cbn. rewrite Ec' in Ec. injection Ec as ->. eauto 10. }
  unfold withStoreWriter in E. destruct writerLease as [given|].
  { destruct (saveUnder_returns _ _ _ _ _ Hs E) as (-> & _ & Hl). by apply Hfinal. }
  apply task_bind_inv in E as ([] & s1 & [= _ <-] & E).
  apply task_bind_inv in E as (lease & s1 & Eb & E). unfold finally in E.
  match type of E with (let '(_, _) := ?m in _) = _ => destruct m as [o s2] eqn:Eo end. injection E as -> <-.
  assert (Hok1 : IndexerOk sha256 base calls (Some owner) (Some lease) s1).
  { unfold onStore in Eb. pose proof (store_begin _ (ok_store _ _ _ _ _ _ Hs)) as Hb.
    rewrite (ok_lease _ _ _ _ _ _ Hs) in Hb. destruct Hb as (l & st & Eb' & Hok & Hh & Hl & _). rewrite Eb' in Eb.
    injection Eb as <- <-. by eapply ok_store_change. }
  destruct (saveUnder_returns _ _ _ _ _ Hok1 Eo) as (-> & Hok2 & Hl2).
  apply Hfinal; [done|]. cbn. destruct (store_end _ Hok2) as (_ & _ & Hl & _). by rewrite Hl.
Qed.
End Checkpoints.

(** C8. A checkpoint is a certificate: after any calls and writer cycles, when
    [snapshot] returns, the stored checkpoint is the returned one, it holds the
    current projection and cursor, and some call of [reconcile] read the chain at
    exactly the ledger version of that cursor and found every balance, vault,
    position and epoch of this very projection confirmed there. *)
Theorem checkpoint_certified {S K} `{StoreLaws S} `{CriticalAlertSink K} clock sha256 numberText (st : S) calls s
    takenAt snap s' :
  BaseOk sha256 (latestOf st) -> storeOk st -> holds st = None ->
  History (K := K) clock sha256 numberText st calls s -> snapshot sha256 takenAt s = (Returns snap, s') ->
  latestOf s'.(Idx.store) = Some snap
  /\ snap.(Snap.projection) = s.(Idx.projection).(Ref.value) /\ snap.(Snap.cursor) = s.(Idx.cursor)
  /\ Sound snap.(Snap.projection)
  /\ exists c, s.(Idx.cursor) = Some c /\ Certified calls snap.(Snap.projection) c.
Proof.
  intros Hb Hok Hh Hist E. pose proof (ok_history _ _ _ _ _ _ Hb Hok Hh Hist) as Hs.
  unfold snapshot in E. rewrite withDirect_eq in E by apply Hs.
  destruct (snapshotOwned _ _ _ _ _) as [o s1] eqn:Eo. injection E as -> <-.
  eapply (snapshotOwned_returns _ (latestOf st) calls) in Eo as (Hp & Hc & _ & Hcert & Hl); [|by apply ok_start].
  split; [unfold releaseOwner; by case_bool_decide|]. split; [exact Hp|]. split; [exact Hc|]. split; [|exact Hcert].
  rewrite Hp. exact (ok_sound _ _ _ _ _ _ Hb Hs).
Qed.

(** An honest chain whose state is [p] at every ledger version. *)
Definition honestSource (p : Proj.ProtocolProjection) : Source.ProtocolEventSource :=
  Source.mk (fun _ _ => Throws (mkError "Error" "no page")) (fun ledgerVersion => Returns (viewOf p ledgerVersion)).

Definition sampleClock (_ : nat) : Z := 1700000000005.
Definition sampleNumberText (_ _ : Z) : string := "null".

(** Some digest: 63 zeros and the length of the text modulo 16. *)
Definition sampleSha256 (text : string) : string :=
  "000000000000000000000000000000000000000000000000000000000000000"
  ⧺ String (hexDigit (Nat.modulo (String.length text) 16)) "".

(** A sink that keeps what it is given. *)
#[export] Instance recordingSink : CriticalAlertSink (list Alert.CriticalAlert) :=
  {| deliver := fun alert delivered => (Returns tt, delivered ++ [alert]) |}.

#[local] Abbreviation SampleHistory :=
  (History (K := list Alert.CriticalAlert) sampleClock sampleSha256 sampleNumberText newMemoryStore).
Definition sampleCalls : list Call :=
  [CallReconcile (honestSource soldProjection); CallProcess (concat (bootstrapGroups ++ [validSellEvents]))].

(** The state after a list of calls, the latest first. *)
Definition stateAfter (calls : list Call) : Idx.EventIndexer Mem.InMemoryIndexerStore :=
  foldr (fun call s => (run sampleClock sampleSha256 sampleNumberText call s).2) (newEventIndexer newMemoryStore) calls.

Lemma stateAfter_history calls : SampleHistory calls (stateAfter calls).
Proof.
  induction calls as [|call calls IH]; [constructor|]. cbn.
  destruct (run _ _ _ call _) as [o s'] eqn:E. by eapply History_call.
Qed.

Lemma checkpoint_certified_witness :
  exists snap s', snapshot sampleSha256 1700000000009 (stateAfter sampleCalls) = (Returns snap, s')
    /\ latestOf s'.(Idx.store) = Some snap /\ snap.(Snap.cursor) = Some (Cursor.mk 5 3)
    /\ exists c, Certified sampleCalls snap.(Snap.projection) c.
Proof.
  destruct (snapshot sampleSha256 1700000000009 (stateAfter sampleCalls)) as [o s'] eqn:E.
  assert (Ho : exists snap, o = Returns snap).
  { apply (f_equal fst) in E. cbn [fst] in E. rewrite <- E. clear E. vm_compute. by eexists. }
  destruct Ho as [snap ->]. exists snap, s'. split; [done|].
  destruct (checkpoint_certified sampleClock sampleSha256 sampleNumberText newMemoryStore sampleCalls
    (stateAfter sampleCalls) 1700000000009 snap s' (memory_new_base _) (proj1 memory_new_writable) eq_refl
    (stateAfter_history _) E) as (Hl & _ & Hc & _ & c & _ & Hcert).
  split; [done|]. split; [rewrite Hc; vm_compute; reflexivity|by exists c].
Defined.

(** C7. Whatever the calls and writer cycles, their order, their pages and what the
    chain answers, whether they return or throw: the replayed projection stays
    sound, so every claim is covered by the vaults, the store only ever holds the
    checkpoint it started with or a certified one, neither the operation lock nor
    the writer lease is left taken, and the next indexer over this store starts
    from a checkpoint as good as the first. *)
Theorem indexer_safe {S K} `{StoreLaws S} `{CriticalAlertSink K} clock sha256 numberText (st : S) calls s :
  BaseOk sha256 (latestOf st) -> storeOk st -> holds st = None ->
  History (K := K) clock sha256 numberText st calls s ->
  Sound s.(Idx.projection).(Ref.value)
  /\ Durable sha256 (latestOf st) calls s
  /\ s.(Idx.activeStateOwner) = None
  /\ storeOk s.(Idx.store) /\ holds s.(Idx.store) = None /\ BaseOk sha256 (latestOf s.(Idx.store)).
Proof.
  intros Hb Hok Hh Hist. pose proof (ok_history _ _ _ _ _ _ Hb Hok Hh Hist) as Hs.
  split; [exact (ok_sound _ _ _ _ _ _ Hb Hs)|]. split; [by apply Hs|]. split; [by apply Hs|].
  exact (history_base _ _ _ _ _ _ Hb Hok Hh Hist).
Qed.

Lemma indexer_safe_witness :
  Sound (stateAfter sampleCalls).(Idx.projection).(Ref.value)
  /\ Durable sampleSha256 None sampleCalls (stateAfter sampleCalls)
  /\ (stateAfter sampleCalls).(Idx.activeStateOwner) = None
  /\ storeOk (stateAfter sampleCalls).(Idx.store) /\ holds (stateAfter sampleCalls).(Idx.store) = None
  /\ BaseOk sampleSha256 (latestOf (stateAfter sampleCalls).(Idx.store)).
Proof.
  exact (indexer_safe sampleClock sampleSha256 sampleNumberText newMemoryStore sampleCalls (stateAfter sampleCalls)
    (memory_new_base _) (proj1 memory_new_writable) eq_refl (stateAfter_history _)).
Defined.

(** C23. A v0.2 deployment can never be checkpointed.  Its clean groups keep it
    without administrators, and [snapshot] asks for all three of them, so however
    far the replay went and whatever was reconciled, the checkpoint is refused
    and the store is left as it was. *)
Theorem v02_never_checkpointed {S} `{IndexerStore S} sha256 (s : Idx.EventIndexer S) prior takenAt :
  LedgerOk prior -> V02Deployment prior -> CleanRun prior s.(Idx.projection).(Ref.value) ->
  s.(Idx.activeStateOwner) = None -> s.(Idx.cursor) <> None -> 0 <= takenAt ->
  exists s', snapshot sha256 takenAt s =
      (Throws (UnreconciledCheckpointError
        "Cedra Testnet identity and complete core, faucet, and AMM authority histories are required"), s')
    /\ s'.(Idx.store) = s.(Idx.store) /\ s'.(Idx.activeStateOwner) = None.
Proof.
  intros Hl Hv Hrun Hn Hc Ht. destruct (v02_run _ _ Hl Hv Hrun) as [_ Hv'].
  assert (Ha : adminsComplete s.(Idx.projection).(Ref.value).(Proj.operationalAdmins) = false).
  { unfold V02Deployment, deployment in Hv'. by injection Hv' as _ _ ->. }
  unfold snapshot. rewrite withDirect_eq by done. unfold snapshotOwned.
  erewrite task_bind_eq by (by apply assertStateOwner_eq). rewrite unlessThrow_true by (by apply bool_decide_true).
  erewrite task_bind_eq by reflexivity. cbn [Idx.cursor Idx.projection].
  destruct (Idx.cursor s) eqn:Ec; [|done]. cbn. rewrite Ec. erewrite task_bind_throws.
  2:{ unfold unlessThrow. cbn. rewrite Ha, andb_false_r. reflexivity. }
  eexists. split; [reflexivity|]. unfold releaseOwner. cbn. by rewrite bool_decide_true.
Qed.

Definition v02Pages : list (list ProtocolEvent) := [v02Events; ammInitEvents].

Lemma v02_never_checkpointed_witness :
  exists s', snapshot sampleSha256 0 (indexed v02Pages) =
      (Throws (UnreconciledCheckpointError
        "Cedra Testnet identity and complete core, faucet, and AMM authority histories are required"), s')
    /\ s'.(Idx.store) = (indexed v02Pages).(Idx.store) /\ s'.(Idx.activeStateOwner) = None.
Proof.
  apply (v02_never_checkpointed sampleSha256 (indexed v02Pages) v02Projection).
  - exact v02_ledger.
  - vm_compute. reflexivity.
  - eapply (CleanRun_group _ v02Projection ammInitEvents); [constructor|vm_compute; reflexivity].
  - vm_compute. reflexivity.
  - vm_compute. discriminate.
  - lia.
Defined.

(** Operations exclude each other: while one runs, any call is refused before
    it reads or changes anything, and the running operation still owns the state. *)
Theorem calls_exclusive {S} `{IndexerStore S} clock sha256 numberText (s : Idx.EventIndexer S) owner call :
  s.(Idx.activeStateOwner) = Some owner ->
  exists s', run clock sha256 numberText call s = (Throws ConcurrentIndexerOperationError, s')
    /\ s' = s <| Idx.allocated := Datatypes.S s.(Idx.allocated) |>.
Proof.
  intros Ho. unfold run, withDirectStateOperation. erewrite task_bind_eq by reflexivity. unfold withStateOwner.
  eexists. split; [|reflexivity]. apply task_bind_throws. unfold acquireOwner.
  erewrite task_bind_eq by reflexivity. apply task_bind_throws. unfold unlessThrow. cbn. by rewrite Ho.
Qed.

(** C22. Progress: after any calls and cycles, when the indexer knows the
    checkpoint it builds on (it restored or saved it, or there was none) and
    [reconcile] reports a first-generation deployment reconciled, the next
    [snapshot] returns, at any time within the Move [u64]: no base is stale, no
    lease is taken and no guard refuses. *)
Theorem reconciled_then_checkpoint {S K} `{StoreLaws S} `{CriticalAlertSink K} clock sha256 numberText (st : S) calls
    s source report s1 takenAt :
  permitsImplicitWriterLease (S := S) = true -> BaseOk sha256 (latestOf st) -> storeOk st -> holds st = None ->
  History (K := K) clock sha256 numberText st calls s -> KnowsBase (latestOf st) s ->
  isV02 s.(Idx.projection).(Ref.value) = false ->
  reconcileWith clock sha256 source s = (Returns report, s1) -> report.(Report.reconciled) = true ->
  isMoveUnsigned takenAt U64 = true ->
  exists snap s2, snapshot sha256 takenAt s1 = (Returns snap, s2).
Proof.
  intros Hi Hb Hok Hh Hist Hk Hv E Hr Ht. pose proof (ok_history _ _ _ _ _ _ Hb Hok Hh Hist) as Hs.
  unfold reconcileWith in E. rewrite withDirect_eq in E by apply Hs.
  destruct (reconcileOwned _ _ _ _ _ _) as [o s0] eqn:Eo. injection E as -> <-.
  apply (ok_mono _ _ _ (CallReconcile source)) in Hs.
  pose proof (ok_reconcileOwned clock sha256 _ _ _ None Hb source ltac:(by left) _ _ _ (ok_start _ _ _ _ _ Hs) Eo) as Hs0.
  destruct (reconcileOwned_reconciled clock sha256 _ _ _ None Hb source _ _ _ (ok_start _ _ _ _ _ Hs) Hv Eo Hr)
    as (c & identity & Hc & Hid & Hchain & Hready & Hadmins & ->).
  apply ok_finish in Hs0. revert Hs0. unfold releaseOwner. cbn. rewrite bool_decide_true by done. intros Hs1.
  unfold snapshot. rewrite withDirect_eq by done.
  pose proof (fun known => snapshotOwned_runs sha256 _ _ _ None (fun _ => Hi) takenAt _ c identity known
    (ok_start _ _ _ _ _ Hs1) Hc Ht Hchain Hready Hadmins Hid eq_refl eq_refl eq_refl) as Hruns.
  destruct (Hruns Hk) as (snap & s2 & Es).
  rewrite Es. by eexists _, _.
Qed.

Lemma reconciled_then_checkpoint_witness :
  exists snap s2, snapshot sampleSha256 1700000000009
    (reconcileWith sampleClock sampleSha256 (honestSource soldProjection) (stateAfter sampleCalls)).2
    = (Returns snap, s2).
Proof.
  destruct (reconcileWith sampleClock sampleSha256 (honestSource soldProjection) (stateAfter sampleCalls))
    as [o s1] eqn:E.
  assert (Ho : exists report, o = Returns report /\ report.(Report.reconciled) = true).
  { apply (f_equal fst) in E. cbn [fst] in E. rewrite <- E. clear E. vm_compute. by eexists. }
  destruct Ho as (report & -> & Hr). cbn [snd].
  apply (reconciled_then_checkpoint sampleClock sampleSha256 sampleNumberText newMemoryStore sampleCalls
    (stateAfter sampleCalls) (honestSource soldProjection) report).
  - exact memory_implicit.
  - apply memory_new_base.
  - exact (proj1 memory_new_writable).
  - reflexivity.
  - apply stateAfter_history.
  - by left.
  - vm_compute. reflexivity.
  - exact E.
  - exact Hr.
  - reflexivity.
Defined.

Lemma calls_exclusive_witness :
  exists s', run sampleClock sampleSha256 sampleNumberText (CallProcess initEvents)
      ((newEventIndexer newMemoryStore) <| Idx.activeStateOwner := Some 7%nat |>)
      = (Throws ConcurrentIndexerOperationError, s')
    /\ s' = (newEventIndexer newMemoryStore) <| Idx.activeStateOwner := Some 7%nat |> <| Idx.allocated := 2%nat |>.
Proof.
  exact (calls_exclusive sampleClock sampleSha256 sampleNumberText
    ((newEventIndexer newMemoryStore) <| Idx.activeStateOwner := Some 7%nat |>) 7 (CallProcess initEvents) eq_refl).
Defined.

(** ** Leases of the in-memory store *)

(** Anything its users can do to the store, with any lease. *)
Inductive StoreCall :=
| CallBegin
| CallEnd
| CallSave (snapshot : Snap.IndexerSnapshot) (lease : Lease) (expected : option string)
| CallAppend (alerts : list Alert.CriticalAlert) (lease : Lease).

Definition storeStep (s : Mem.InMemoryIndexerStore) (call : StoreCall) : Mem.InMemoryIndexerStore :=
  match call with
  | CallBegin => (memoryBeginWriter s).2
  | CallEnd => memoryEndWriter s
  | CallSave snapshot lease expected => (memorySaveSnapshot snapshot lease expected s).2
  | CallAppend alerts lease => (memoryAppendAlerts alerts lease s).2
  end.

(** A lease that was issued and is not active: it never becomes active again. *)
Definition Dead (lease : Lease) (s : Mem.InMemoryIndexerStore) : Prop :=
  (lease < s.(Mem.issued))%nat /\ s.(Mem.activeLease) <> Some lease.

Lemma memorySave_keeps snap l expected s :
  let s' := (memorySaveSnapshot snap l expected s).2 in
  s'.(Mem.issued) = s.(Mem.issued) /\ s'.(Mem.activeLease) = s.(Mem.activeLease).
Proof.
  unfold memorySaveSnapshot, assertActiveLease, mbind, task_bind, unlessThrow. cbn.
  destruct (bool_decide (_ = Some l)); [|done]. cbn. by destruct (bool_decide _).
Qed.

Lemma memoryAppend_keeps alerts l s :
  let s' := (memoryAppendAlerts alerts l s).2 in
  s'.(Mem.issued) = s.(Mem.issued) /\ s'.(Mem.activeLease) = s.(Mem.activeLease).
Proof. unfold memoryAppendAlerts, assertActiveLease, mbind, task_bind. cbn. by destruct (bool_decide _). Qed.

Lemma dead_step lease s call : Dead lease s -> Dead lease (storeStep s call).
Proof.
  unfold Dead. intros [Hi Ha]. destruct call; cbn [storeStep].
  - unfold memoryBeginWriter. destruct (Mem.writerActive s); [done|]. cbn. split; [lia|]. intros [= ?]. lia.
  - done.
  - destruct (memorySave_keeps snapshot lease0 expected s) as [-> ->]. done.
  - destruct (memoryAppend_keeps alerts lease0 s) as [-> ->]. done.
Qed.

Lemma dead_steps lease calls s : Dead lease s -> Dead lease (foldl storeStep s calls).
Proof. revert s. induction calls as [|call calls IH]; [done|]. intros s Hd. by apply IH, dead_step. Qed.

(** The next lease only grows. *)
Lemma issued_steps calls s : (s.(Mem.issued) <= (foldl storeStep s calls).(Mem.issued))%nat.
Proof.
  revert s. induction calls as [|call calls IH]; [done|]. intros s. etransitivity; [|apply IH].
  destruct call; cbn [storeStep].
  - unfold memoryBeginWriter. destruct (Mem.writerActive s); cbn; lia.
  - done.
  - by destruct (memorySave_keeps snapshot lease expected s) as [-> _].
  - by destruct (memoryAppend_keeps alerts lease s) as [-> _].
Qed.

(** A lease outlives its bracket only as a dead key: once the writer it was
    issued to has ended, whatever is done with the store before and after, with
    whatever leases, it never saves a snapshot or appends an alert again, and
    trying changes nothing. *)
Theorem stale_lease_refused s lease s1 before after snap expected alerts :
  memoryBeginWriter s = (Returns lease, s1) ->
  let now := foldl storeStep (memoryEndWriter (foldl storeStep s1 before)) after in
  memorySaveSnapshot snap lease expected now = (Throws InvalidIndexerWriterLeaseError, now)
  /\ memoryAppendAlerts alerts lease now = (Throws InvalidIndexerWriterLeaseError, now).
Proof.
  intros E now. assert (Hd : Dead lease now).
  { apply dead_steps. split; [|done]. cbn. eapply Nat.lt_le_trans; [|apply issued_steps].
    unfold memoryBeginWriter in E. destruct (Mem.writerActive s); [done|]. injection E as <- <-. cbn. lia. }
  destruct Hd as [_ Hd]. unfold memorySaveSnapshot, memoryAppendAlerts, assertActiveLease, mbind, task_bind.
  by rewrite bool_decide_false.
Qed.

Lemma stale_lease_refused_witness :
  let now := foldl storeStep (memoryEndWriter (memoryBeginWriter newMemoryStore).2) [CallBegin] in
  memoryAppendAlerts [] 0%nat now = (Throws InvalidIndexerWriterLeaseError, now).
Proof.
  exact (proj2 (stale_lease_refused newMemoryStore 0%nat (memoryBeginWriter newMemoryStore).2 [] [CallBegin]
    (Snap.mk 1 "" 0 None createEmptyProjection) None [] eq_refl)).
Defined.
