(* ===== verification/WorkerTheorems.v ===== *)
(** * Properties of checkpoints across restarts, and of the worker

    A checkpoint that was saved is what the next process starts from, and a
    worker run extends the durable checkpoint by what it replayed and confirmed,
    or leaves it alone. *)
From S2P Require Import Prelude JsMap Types MoveDomains JsValue Json Accounting Replay Group WalletHandlers LpHandlers.
From S2P Require Import PoolHandlers ConfigHandlers GroupChecks Reducer Ledger ReducerCorrect ReducerSpec.
From S2P Require Import Frames Fixtures ReducerTheorems LiquidityTheorems Reconciler ReconcilerSpec ReconcilerTheorems.
From S2P Require Import Snapshot SnapshotDecode SnapshotRoundTrip Store EventIndexer WriterCycle.
From S2P Require Import IndexerInvariant IndexerHistory IndexerTheorems.

#[local] Arguments reduceEventGroup : simpl never.
#[local] Arguments reconcile : simpl never.
#[local] Arguments createEmptyProjection : simpl never.
#[local] Arguments takeSnapshot : simpl never.
#[local] Arguments processOwned : simpl never.
#[local] Arguments decodeSnapshot : simpl never.
#[local] Arguments encodeSnapshot : simpl never.

(** ** Snapshots as text *)

(** C20. A snapshot survives its text: what [takeSnapshot] makes of any projection
    that groups of events can lead to, [encodeSnapshot] prints and
    [decodeSnapshot] reads back unchanged, every bigint, map and entry order
    included, and the identifier is accepted. *)
Theorem snapshot_roundtrip sha256 numberText p cursor takenAt snap :
  Digests sha256 -> Reachable p -> takeSnapshot sha256 p cursor takenAt = Returns snap ->
  decodeSnapshot sha256 numberText (encodeSnapshot snap) = Returns snap.
Proof.
  intros Hd Hp E. apply decode_encode; [done|by eapply takeSnapshot_taken|].
  apply takeSnapshot_returns in E as (_ & _ & _ & ->). apply ledger_keyed, reachable_is_sound, Hp.
Qed.

Lemma sampleSha256_digests : Digests sampleSha256.
Proof.
  intros text. unfold sampleSha256. pose proof (Nat.mod_upper_bound (String.length text) 16 ltac:(lia)) as H.
  set (k := Nat.modulo _ _) in *. clearbody k.
  do 16 (destruct k as [|k]; [split; vm_compute; reflexivity|]). lia.
Qed.

Definition sampleSnapshot : Snap.IndexerSnapshot :=
  Snap.mk 1 (snapshotId sampleSha256 (snapshotIdentityEncoding 7 None soldProjection)) 7 None soldProjection.

Lemma snapshot_roundtrip_witness :
  takeSnapshot sampleSha256 soldProjection None 7 = Returns sampleSnapshot
  /\ decodeSnapshot sampleSha256 sampleNumberText (encodeSnapshot sampleSnapshot) = Returns sampleSnapshot.
Proof.
  assert (E : takeSnapshot sampleSha256 soldProjection None 7 = Returns sampleSnapshot) by (vm_compute; reflexivity).
  split; [exact E|]. apply (snapshot_roundtrip _ _ soldProjection None 7); [exact sampleSha256_digests|exact sold_reachable|exact E].
Defined.

(** ** Restarts *)

Lemma restore_new {S} `{StoreLaws S} (clock : nat -> Z) sha256 numberText (st : S) :
  Digests sha256 -> BaseOk sha256 (latestOf st) -> storeOk st -> holds st = None ->
  exists s, restoreLatestSnapshot sha256 numberText (newEventIndexer st) = (Returns (latestOf st), s)
    /\ replayedOf s = (from_option Snap.projection createEmptyProjection (latestOf st), latestOf st ≫= Snap.cursor)
    /\ s.(Idx.store) = st.
Proof.
  intros Hd Hb Hok Hh.
  pose proof (ok_history (K := list Alert.CriticalAlert) clock sha256 numberText st [] _ Hb Hok Hh (History_new _ _ _ _)) as Hs.
  unfold restoreLatestSnapshot. rewrite withDirect_eq by done.
  destruct (restore_cases sha256 numberText _ _ _ None Hb _ (ok_start _ _ _ _ _ Hs)) as [(e & _ & _ & Hnd)|E]; [done|].
  rewrite E. by eexists.
Qed.

(** C19. A crash loses nothing that was checkpointed: after any calls and cycles,
    when [snapshot] returns, a new process over the same store restores exactly
    that snapshot, and with it the projection and the cursor the old one had. *)
Theorem restart_resumes {S K} `{StoreLaws S} `{CriticalAlertSink K} clock sha256 numberText (st : S) calls s takenAt snap s' :
  Digests sha256 -> BaseOk sha256 (latestOf st) -> storeOk st -> holds st = None ->
  History (K := K) clock sha256 numberText st calls s -> snapshot sha256 takenAt s = (Returns snap, s') ->
  exists s'', restoreLatestSnapshot sha256 numberText (newEventIndexer s'.(Idx.store)) = (Returns (Some snap), s'')
    /\ replayedOf s'' = replayedOf s /\ s''.(Idx.store) = s'.(Idx.store).
Proof.
  intros Hd Hb Hok Hh Hist E.
  pose proof (History_call _ _ _ st _ _ (CallSnapshot takenAt) _ _ Hist E) as Hist'.
  destruct (history_base _ _ _ _ _ _ Hb Hok Hh Hist') as (Hok' & Hh' & Hb').
  pose proof (ok_history _ _ _ _ _ _ Hb Hok Hh Hist) as Hs.
  unfold snapshot in E. rewrite withDirect_eq in E by apply Hs.
  destruct (snapshotOwned _ _ _ _ _) as [o s1] eqn:Eo. injection E as -> <-.
  eapply (snapshotOwned_returns _ (latestOf st) calls) in Eo as (Hp & Hc & _ & _ & Hl); [|by apply ok_start].
  assert (El : latestOf (releaseOwner s.(Idx.allocated) s1).(Idx.store) = Some snap).
  { unfold releaseOwner. by case_bool_decide. }
  destruct (restore_new clock sha256 numberText _ Hd Hb' Hok' Hh') as (s2 & E2 & Hr & Hst). rewrite El in E2, Hr.
  exists s2. split; [exact E2|]. split; [|exact Hst]. rewrite Hr. unfold replayedOf. cbn. by rewrite Hp, Hc.
Qed.

Lemma restart_resumes_witness :
  exists snap s' s'', snapshot sampleSha256 1700000000009 (stateAfter sampleCalls) = (Returns snap, s')
    /\ restoreLatestSnapshot sampleSha256 sampleNumberText (newEventIndexer s'.(Idx.store)) = (Returns (Some snap), s'')
    /\ replayedOf s'' = replayedOf (stateAfter sampleCalls) /\ s''.(Idx.store) = s'.(Idx.store).
Proof.
  destruct (snapshot sampleSha256 1700000000009 (stateAfter sampleCalls)) as [o s'] eqn:E.
  assert (Ho : exists snap, o = Returns snap).
  { apply (f_equal fst) in E. cbn [fst] in E. rewrite <- E. clear E. vm_compute. by eexists. }
  destruct Ho as [snap ->]. exists snap, s'.
  destruct (restart_resumes sampleClock sampleSha256 sampleNumberText newMemoryStore sampleCalls (stateAfter sampleCalls)
    1700000000009 snap s' sampleSha256_digests (memory_new_base _) (proj1 memory_new_writable) eq_refl
    (stateAfter_history _) E) as (s'' & H). exists s''. split; [done|exact H].
Defined.

(** ** The worker *)

Section Worker.
Context {S K : Type} `{StoreLaws S} `{CriticalAlertSink K}.
Context (clock : nat -> Z) (sha256 : string -> string) (numberText : Z -> Z -> string).
Implicit Types s : Idx.EventIndexer S.

#[local] Abbreviation interpret := (interpret clock sha256 numberText).
#[local] Abbreviation cycleMethod := (cycleMethod clock sha256 numberText).

(** A callback that returns got past its first call: the call returned. *)
Lemma interpret_invoke {A} owner lease call (k : answer call -> CycleProgram A) (s s' : Idx.EventIndexer S * K) r :
  interpret owner lease (invoke call ≫= k) [] s = (Returns r, s') ->
  exists a indexer, invokeOwned clock sha256 numberText call owner (Some lease) s.1 = (Returns a, indexer)
    /\ interpret owner lease (k a) [] (indexer, s.2) = (Returns r, s').
Proof.
  change (interpret owner lease (invoke call ≫= k) [] s)
    with (let '(o, indexer) := cycleMethod call owner lease s.1 in
          interpret owner lease (match o with Returns a => k a | Throws e => Done (Throws e) end)
            ([] ++ failureOf o) (indexer, s.2)).
  destruct (cycleMethod call owner lease s.1) as [[a|e] indexer] eqn:E; [|done].
  intros Hr. exists a, indexer. split; [|exact Hr]. by apply task_bind_inv in E as ([] & ? & [= _ <-] & E).
Qed.

(** Handing alerts to the sink leaves the indexer alone. *)
Lemma interpret_deliver {A} owner lease alerts : forall ids (k : list string -> CycleProgram A) (s s' : Idx.EventIndexer S * K) r,
  interpret owner lease (deliverAlerts alerts ids ≫= k) [] s = (Returns r, s') ->
  exists ids' sink, interpret owner lease (k ids') [] (s.1, sink) = (Returns r, s').
Proof.
  induction alerts as [|alert alerts IH]; intros ids k s s' r E.
  - exists ids, s.2. by destruct s.
  - change (interpret owner lease (deliverAlerts (alert :: alerts) ids ≫= k) [] s)
      with (let '(o, sink) := deliver alert s.2 in
            interpret owner lease ((match o with
              | Returns _ => deliverAlerts alerts (ids ++ [alert.(Alert.id)]) | Throws e => Done (Throws e) end) ≫= k)
              [] (s.1, sink)) in E.
    destruct (deliver alert s.2) as [[[]|e] sink]; [|done]. by apply IH in E.
Qed.

(** A reconciliation keeps what was replayed and what is stored. *)
Lemma reconcileOwned_keeps source owner writerLease s o s' :
  Writable writerLease s.(Idx.store) -> reconcileOwned clock sha256 source owner writerLease s = (o, s') ->
  replayedOf s' = replayedOf s /\ latestOf s'.(Idx.store) = latestOf s.(Idx.store).
Proof.
  intros Hw. set (P := fun s1 => Writable writerLease s1.(Idx.store) /\ replayedOf s1 = replayedOf s
    /\ latestOf s1.(Idx.store) = latestOf s.(Idx.store)).
  enough (Hp : Preserves P (reconcileOwned clock sha256 source owner writerLease)).
  { intros E. apply (Hp s o s') in E as (_ & ? & ?); [done|]. by split. }
  clear o s'. unfold reconcileOwned. apply preserves_bind; [apply preserves_assertStateOwner|intros _].
  apply preserves_get. intros before _. destruct (Idx.cursor before); [|apply preserves_throwing].
  apply preserves_bind; [apply preserves_modify; by intros s1|intros _].
  apply preserves_evaluate. intros identity _. apply preserves_evaluate. intros observed _.
  apply preserves_bind; [apply preserves_assertStateOwner|intros _]. apply preserves_evaluate. intros report _.
  apply preserves_bind.
  { assert (Hpersist : Preserves P (persistAlerts report.(Report.alerts) writerLease)).
    { intros s1 o s2 (Hw1 & Hr1 & Hl1) E. destruct (persistAlerts_spec report.(Report.alerts) writerLease s1 Hw1)
        as (st & Ep & Hw2 & Hl2 & _). rewrite Ep in E. injection E as _ <-.
      split; [exact Hw2|]. split; [exact Hr1|]. cbn. by rewrite Hl2. }
    destruct (Report.alerts report); [exact Hpersist|].
    apply preserves_bind; [exact Hpersist|intros _; apply preserves_assertStateOwner]. }
  intros _. apply preserves_get. intros now _. apply preserves_bind; [|intros _; apply preserves_ret].
  destruct (Idx.cursor now); [|apply preserves_ret]. destruct (_ && _); [|apply preserves_ret].
  apply preserves_evaluate. intros identity' _. case_bool_decide; [|apply preserves_ret].
  apply preserves_modify. by intros s1.
Qed.

(** What one run of the worker did, from the checkpoint [before]. *)
Record WorkerStep (source : Source.ProtocolEventSource) (limit now : Z) (before : option Snap.IndexerSnapshot)
    (result : WorkerRun.WorkerRunResult) (page : Page.EventPage) (committed left : list (list ProtocolEvent)) s' : Prop := {
  step_page : source.(Source.listEvents) (before ≫= Snap.cursor) limit = Returns page;
  step_groups : groupByLedger (freshEvents (before ≫= Snap.cursor) page.(Page.events)) = committed ++ left;
  step_advance : Advance (from_option Snap.projection createEmptyProjection before, before ≫= Snap.cursor)
                   committed (replayedOf s');
  step_alerts : Ended (replayedOf s') left result.(WorkerRun.processing).(Processed.rejectedEvents)
                  result.(WorkerRun.processing).(Processed.alerts);
  step_checkpoint :
    match result.(WorkerRun.snapshot) with
    | None => latestOf s'.(Idx.store) = before
    | Some snap =>
        latestOf s'.(Idx.store) = Some snap /\ left = []
        /\ (snap.(Snap.projection), snap.(Snap.cursor)) = replayedOf s' /\ snap.(Snap.takenAtUnixMilliseconds) = now
        /\ exists c, s'.(Idx.cursor) = Some c /\ Certified [CallReconcile source] snap.(Snap.projection) c
    end
}.

(** A step on the store leaves what was replayed. *)
Lemma preserves_onStore {A} r (m : Task S A) : Preserves (fun s1 => replayedOf s1 = r) (onStore m).
Proof. intros s1 o s2 Hr E. unfold onStore in E. destruct (m _) as [o1 st]. by injection E as _ <-. Qed.

Lemma snapshotOwned_keeps takenAt owner lease s o s' :
  snapshotOwned sha256 takenAt owner (Some lease) s = (o, s') -> replayedOf s' = replayedOf s.
Proof.
  enough (Hp : Preserves (fun s1 => replayedOf s1 = replayedOf s) (snapshotOwned sha256 takenAt owner (Some lease))).
  { by apply Hp. }
  unfold snapshotOwned. apply preserves_bind; [apply preserves_assertStateOwner|intros _].
  apply preserves_guard. intros _. apply preserves_get. intros now _.
  destruct (Idx.cursor now) as [cursor|]; [|apply preserves_throwing]. cbv zeta.
  apply preserves_guard. intros _.
  eapply (preserves_read (fun _ => _)); [intros s1 o1 s2 _; apply (authorization_inv sha256)|]. intros _ _.
  apply preserves_evaluate. intros snap _. unfold withStoreWriter.
  apply preserves_bind; [apply preserves_assertStateOwner|intros _]. apply preserves_bind.
  { unfold resolveDurableBase. apply preserves_get. intros current _.
    destruct (Idx.durableBaseSnapshotId current); [apply preserves_ret|].
    apply preserves_bind; [apply preserves_onStore|intros existing].
    apply preserves_bind; [apply preserves_assertStateOwner|intros _].
    destruct existing; [apply preserves_throwing|]. by apply preserves_modify. }
  intros _. apply preserves_get. intros based _. apply preserves_bind; [apply preserves_onStore|intros _].
  apply preserves_bind; [apply preserves_assertStateOwner|intros _].
  apply preserves_bind; [by apply preserves_modify|intros _; apply preserves_ret].
Qed.

(** What a poll that returned went through. *)
Lemma pollOnceOwned_returns source limit owner writerLease s result s' :
  pollOnceOwned source limit owner writerLease s = (Returns result, s') ->
  exists page, source.(Source.listEvents) s.(Idx.cursor) limit = Returns page
    /\ processOwned page.(Page.events) owner writerLease s = (Returns result, s').
Proof.
  intros E. unfold pollOnceOwned in E.
  apply task_bind_inv in E as ([] & s1 & [= _ <-] & E). apply task_bind_inv in E as ([] & s1 & [= _ <-] & E).
  apply task_bind_inv in E as (? & s1 & [= <- <-] & E). apply task_bind_inv in E as (page & s1 & [= Ep <-] & E).
  apply task_bind_inv in E as ([] & s1 & [= _ <-] & E). apply task_bind_inv in E as ([] & s1 & [= _ <-] & E).
  by exists page.
Qed.

(** After a restore that returned, the checkpoint is the base of all that follows. *)
Lemma restore_rebases base calls source owner lease s before s' :
  BaseOk sha256 base -> IndexerOk sha256 base calls (Some owner) (Some lease) s ->
  restoreLatestSnapshotOwned sha256 numberText owner s = (Returns before, s') ->
  before = latestOf s.(Idx.store) /\ BaseOk sha256 before
  /\ IndexerOk sha256 before [CallReconcile source] (Some owner) (Some lease) s'
  /\ latestOf s'.(Idx.store) = before
  /\ replayedOf s' = (from_option Snap.projection createEmptyProjection before, before ≫= Snap.cursor).
Proof.
  intros Hb Hs E. destruct (restore_cases sha256 numberText base calls owner (Some lease) Hb s Hs) as [(e & E' & _)|E'];
    rewrite E' in E; [done|]. injection E as <- <-. split; [done|]. split.
  { intros snap El. destruct (ok_latest _ _ _ _ Hb _ _ _ Hs El) as [Ht Hr]. split; [done|]. by eapply replays_sound. }
  split; [|done]. destruct Hs. split; try done; [|cbn; lia|by left].
  exists (from_option Snap.projection createEmptyProjection (latestOf s.(Idx.store))). split; [|constructor].
  destruct (latestOf s.(Idx.store)) eqn:El; by constructor.
Qed.

Lemma runOnceUnderLease_step base calls source limit now owner lease s k result s' k' :
  BaseOk sha256 base -> IndexerOk sha256 base calls (Some owner) (Some lease) s ->
  interpret owner lease (runOnceUnderLease source limit now) [] (s, k) = (Returns result, (s', k')) ->
  storeOk s'.(Idx.store) /\ s'.(Idx.activeStateOwner) = Some owner
  /\ exists page committed left,
       WorkerStep source limit now (latestOf s.(Idx.store)) result page committed left s'.
Proof.
  intros Hb Hs E. unfold runOnceUnderLease in E.
  apply interpret_invoke in E as (before & s1 & E1 & E).
  destruct (restore_rebases base calls source owner lease s before s1 Hb Hs E1) as (<- & Hb1 & Hs1 & Hl1 & Hr1).
  apply interpret_invoke in E as (processing & s2 & E2 & E). cbn [snd fst] in E2, E.
  pose proof (ok_pollOnceOwned sha256 before [CallReconcile source] owner (Some lease) source limit s1 _ s2 Hs1 E2) as Hs2.
  apply pollOnceOwned_returns in E2 as (page & Epage & E2).
  assert (Hw1 : Writable (Some lease) s1.(Idx.store)) by (split; [apply Hs1|split; [apply Hs1|done]]).
  destruct (processOwned_spec page.(Page.events) owner (Some lease) s1 (ok_owner _ _ _ _ _ _ Hs1) Hw1)
    as (r & s2' & committed & left & E2' & Eg & Ha & He & _ & _ & Hcur & _ & Hw2 & Hl2 & _).
  rewrite E2' in E2. injection E2 as -> ->.
  assert (Ec1 : s1.(Idx.cursor) = before ≫= Snap.cursor) by exact (f_equal snd Hr1).
  rewrite Ec1 in Epage, Eg. rewrite Hr1 in Ha. rewrite Hl1 in Hl2.
  apply interpret_deliver in E as (delivered & k2 & E). cbn [fst] in E.
  destruct (_ || _) eqn:Estop.
  { injection E as <- <- <-. split; [apply Hs2|]. split; [apply Hs2|]. by exists page, committed, left. }
  apply orb_false_iff in Estop as [Estop _]. apply bool_decide_eq_false in Estop.
  assert (left = []) as ->.
  { destruct left; [done|]. destruct He as [[Hne _] _]. unfold arrayLength in Estop.
    destruct processing.(Processed.alerts); [done|cbn in Estop; lia]. }
  apply interpret_invoke in E as (report & s3 & E3 & E). cbn [snd fst] in E3, E.
  pose proof (ok_reconcileOwned clock sha256 before [CallReconcile source] owner (Some lease) Hb1 source
    ltac:(by left) s2 _ s3 Hs2 E3) as Hs3.
  apply reconcileOwned_keeps in E3 as [Hr3 Hl3]; [|exact Hw2]. rewrite Hl2 in Hl3. rewrite <- Hr3 in Ha, He.
  apply interpret_deliver in E as (delivered' & k3 & E). cbn [fst] in E.
  destruct (negb report.(Report.reconciled)).
  { injection E as <- <- <-. split; [apply Hs3|]. split; [apply Hs3|]. by exists page, committed, []. }
  apply interpret_invoke in E as (snap & s4 & E4 & E). cbn [snd fst] in E4, E. injection E as <- <- <-.
  pose proof (ok_snapshotOwned sha256 before [CallReconcile source] owner (Some lease) now s3 _ s4 Hs3 E4) as Hs4.
  pose proof (snapshotOwned_keeps _ _ _ _ _ _ E4) as Hr4. rewrite <- Hr4 in Ha, He.
  apply (snapshotOwned_returns sha256 before [CallReconcile source] owner (Some lease)) in E4
    as (Hp & Hc & Ht & (c & Ec & Hcert) & Hl); [|exact Hs3].
  split; [apply Hs4|]. split; [apply Hs4|]. exists page, committed, []. split; try done. cbn.
  split; [exact Hl|]. split; [done|]. split; [rewrite Hp, Hc, Hr4; done|]. split; [exact Ht|].
  exists c. split; [|exact Hcert]. rewrite <- Ec. exact (f_equal snd Hr4).
Qed.
End Worker.

(** C18. The worker, end to end: whatever calls and cycles went before, a run that
    returns has started from the stored checkpoint, asked the source for a page
    after its cursor, and replayed a prefix of the fresh groups of that page onto
    its projection.  The checkpoint stays as it was, or all of the page was
    replayed, a reconciliation with the chain at exactly the new cursor agreed
    with the new projection, and the stored checkpoint is that projection, that
    cursor and the time of the run. *)
Theorem worker_checkpoints {S K} `{StoreLaws S} `{CriticalAlertSink K} clock sha256 numberText (st : S) calls s k
    source limit now result s' k' :
  BaseOk sha256 (latestOf st) -> storeOk st -> holds st = None ->
  History (K := K) clock sha256 numberText st calls s ->
  runOnce clock sha256 numberText source limit now (s, k) = (Returns result, (s', k')) ->
  exists page committed left,
    WorkerStep source limit now (latestOf s.(Idx.store)) result page committed left s'.
Proof.
  intros Hb Hok Hh Hist E. pose proof (ok_history _ _ _ _ _ _ Hb Hok Hh Hist) as Hs.
  destruct (cycle_eq clock sha256 numberText (latestOf st) (runOnceUnderLease source limit now) calls s k Hs)
    as (lease & st1 & _ & Hs1 & Hl1 & Ec).
  unfold runOnce in E. rewrite Ec in E. destruct (interpret _ _ _ _ _ _ _ _) as [o [s2 k2]] eqn:Ei.
  injection E as -> <- <-.
  apply (runOnceUnderLease_step clock sha256 numberText (latestOf st) calls) in Ei
    as (Hok2 & Ho2 & page & committed & left & Hstep); [|exact Hb|exact Hs1].
  change (Idx.store (cycleStart st1 s)) with st1 in Hstep. rewrite Hl1 in Hstep.
  exists page, committed, left. destruct (store_end _ Hok2) as (_ & _ & Hl & _).
  unfold releaseOwner. rewrite bool_decide_true by exact Ho2.
  destruct Hstep as [? ? ? ? Hc]. split; try done. cbn. by rewrite Hl.
Qed.

(** A source with all the events of the sale in one page, and the chain as they leave it. *)
Definition sellSource : Source.ProtocolEventSource :=
  Source.mk (fun _ _ => Returns (Page.mk CEDRA_TESTNET_CHAIN_ID (concat (bootstrapGroups ++ [validSellEvents])) None))
    (fun ledgerVersion => Returns (viewOf soldProjection ledgerVersion)).

Lemma worker_checkpoints_witness :
  exists result s' k' page committed left,
    runOnce sampleClock sampleSha256 sampleNumberText sellSource 100 1700000000009 (stateAfter sampleCalls, [])
      = (Returns result, (s', k'))
    /\ result.(WorkerRun.snapshot) <> None
    /\ WorkerStep sellSource 100 1700000000009 (latestOf (stateAfter sampleCalls).(Idx.store)) result page committed left s'.
Proof.
  destruct (runOnce sampleClock sampleSha256 sampleNumberText sellSource 100 1700000000009 (stateAfter sampleCalls, []))
    as [o [s' k']] eqn:E.
  assert (Ho : match o with Returns result => bool_decide (result.(WorkerRun.snapshot) <> None) | Throws _ => false end = true).
  { apply (f_equal fst) in E. cbn [fst] in E. rewrite <- E. clear E. vm_compute. reflexivity. }
  destruct o as [result|]; [|discriminate]. apply bool_decide_eq_true in Ho.
  destruct (worker_checkpoints sampleClock sampleSha256 sampleNumberText newMemoryStore sampleCalls (stateAfter sampleCalls)
    [] sellSource 100 1700000000009 result s' k' (memory_new_base _) (proj1 memory_new_writable) eq_refl
    (stateAfter_history _) E) as (page & committed & left & H).
  exists result, s', k', page, committed, left. split; [reflexivity|]. split; [exact Ho|exact H].
Defined.
