(* ===== verification/Normalizer.v ===== *)
(** * The Cedra event normalizer: [packages/indexer/src/cedra-normalizer.ts]

    From a concrete Move event, untyped data under a type tag, to a
    [ProtocolEvent].  A decoder per event reads its fields in the order of the
    source; [normalize] is the chain of type tests.  [TextDecoder] is the
    platform's: [decodeUtf8] is what it makes of a byte vector, [None] when it
    throws. *)
From S2P Require Import Prelude JsMap Types MoveDomains JsValue.

Definition MAX_IDENTITY_BYTES : Z := 512.

(** [MATERIALIZATION_TRIGGERS]: its values. *)
Definition MATERIALIZATION_TRIGGERS : list Z := [0; 1; 2; 3; 4; 5; 6; 7; 8; 9; 10].

Module Envelope.
Record CedraChainEventEnvelope := mk {
  typeTag : string;
  data : JsValue;
  txHash : string;
  ledgerVersion : Z;
  eventIndex : Z;
  timestampUnixMilliseconds : Z
}.
End Envelope.

Module Packages.
Record PackageAddresses := mk {
  reflectionCore : Address;
  testAssets : Address;
  testAmm : Address
}.
End Packages.

(** ** Fields *)

Definition fieldError (key problem : string) : JsError :=
  TypeError ("Cedra event field " ⧺ key ⧺ " " ⧺ problem).

Definition asRecord (value : JsValue) : Outcome DataRecord :=
  match value with
  | JsObject fields => Returns fields
  | _ => Throws (TypeError "Cedra event data must be an object")
  end.

Definition canonicalAddress (address : string) : Outcome Address :=
  match afterHexPrefix address with
  | Some digits =>
      if bool_decide (1 <= jsLength digits) && bool_decide (jsLength digits <= 64) && allChars isHexDigit digits
      then
        let stripped := mapChars lowerChar (stripZeros digits) in
        Returns ("0x" ⧺ (if bool_decide (stripped = "") then "0" else stripped))
      else Throws (TypeError ("Invalid Cedra package address: " ⧺ address))
  | None => Throws (TypeError ("Invalid Cedra package address: " ⧺ address))
  end.

Definition requiredString (data : DataRecord) (key : string) : Outcome string :=
  match property data key with
  | JsString value => Returns value
  | _ => Throws (fieldError key "must be a string")
  end.

Definition requiredAddress (data : DataRecord) (key : string) : Outcome Address :=
  match requiredString data key ≫= canonicalAddress with
  | Returns address => Returns address
  | Throws _ => Throws (fieldError key "must be a hexadecimal address")
  end.

Definition requiredBigint (data : DataRecord) (key : string) : Outcome Z :=
  let invalid := Throws (fieldError key "must be a non-negative integer") in
  parsed ← match property data key with
           | JsBigint value => Returns value
           | JsString value => from_option Returns invalid (parseDecimal 78 value)
           | JsNumber (Some value) =>
               if isSafeInteger value && bool_decide (0 <= value) then Returns value else invalid
           | _ => invalid
           end;
  if bool_decide (parsed < 0) || bool_decide (parsed > MOVE_U256_MAX)
  then Throws (fieldError key "exceeds the Move u256 domain")
  else Returns parsed.

Definition requiredUnsigned (data : DataRecord) (key : string) (bits : MoveWidth) : Outcome Z :=
  parsed ← requiredBigint data key;
  if bool_decide (parsed > widthMax bits)
  then Throws (fieldError key ("exceeds the Move u" ⧺ show (widthBits bits) ⧺ " domain"))
  else Returns parsed.

Definition requiredBoolean (data : DataRecord) (key : string) : Outcome bool :=
  match property data key with
  | JsBoolean value => Returns value
  | _ => Throws (fieldError key "must be a boolean")
  end.

Definition materializationTrigger (data : DataRecord) : Outcome MaterializationTrigger :=
  value ← requiredUnsigned data "trigger" U8;
  if includes value MATERIALIZATION_TRIGGERS then Returns value
  else Throws (fieldError "trigger" ("has unsupported v0.2 code " ⧺ show value)).

Definition lpStatus (value : Z) (key : string) : Outcome LpEpochStatus :=
  if bool_decide (value = 1) then Returns active
  else if bool_decide (value = 2) then Returns claim_only
  else Throws (fieldError key "must be LP status 1 or 2").

Section Decoding.
Context (decodeUtf8 : list Z -> option string).

Definition requiredUtf8Vector (data : DataRecord) (key : string) : Outcome string :=
  bytes ← from_option Returns (Throws (fieldError key "must be a hexadecimal byte vector"))
    match property data key with
    | JsString value => digits ← afterHexPrefix value; hexBytes digits
    | JsArray items => byteArray items
    | _ => None
    end;
  if bool_decide (arrayLength bytes = 0) || bool_decide (arrayLength bytes > MAX_IDENTITY_BYTES)
  then Throws (fieldError key ("must contain 1 to " ⧺ show MAX_IDENTITY_BYTES ⧺ " bytes"))
  else
    match decodeUtf8 bytes with
    | Some decoded =>
        if bool_decide (jsLength decoded = 0) then Throws (fieldError key "must contain valid non-empty UTF-8")
        else Returns decoded
    | None => Throws (fieldError key "must contain valid non-empty UTF-8")
    end.

(** ** One decoder per event *)

Definition releaseName (major minor patch : Z) : string :=
  "testnet-v" ⧺ show major ⧺ "." ⧺ show minor ⧺ "." ⧺ show patch.

Definition decodeProtocolInitialized (data : DataRecord) : Outcome EventBody :=
  schemaVersion ← requiredUnsigned data "version" U64;
  if bool_decide (schemaVersion <> 1)
  then Throws (TypeError ("Unsupported reflection event schema version: " ⧺ show schemaVersion))
  else
    releaseMajor ← requiredUnsigned data "release_major" U64;
    releaseMinor ← requiredUnsigned data "release_minor" U64;
    releasePatch ← requiredUnsigned data "release_patch" U64;
    deploymentId ← requiredUtf8Vector data "deployment_id";
    networkLabel ← requiredUtf8Vector data "network_label";
    tokenMetadata ← requiredAddress data "metadata";
    automaticMaterialization ← requiredBoolean data "automatic_materialization";
    feeBps ← requiredUnsigned data "initial_fee_bps" U64;
    rewardVault ← requiredAddress data "reward_vault";
    distributionVault ← requiredAddress data "distribution_vault";
    protocolExclusionSlots ← requiredUnsigned data "protocol_exclusion_slots" U64;
    Returns (EvProtocolInitialized {|
      ProtocolInitialized.deploymentId := deploymentId;
      ProtocolInitialized.networkLabel := networkLabel;
      ProtocolInitialized.tokenMetadata := tokenMetadata;
      ProtocolInitialized.automaticMaterialization := automaticMaterialization;
      ProtocolInitialized.feeBps := feeBps;
      ProtocolInitialized.initialIndex := 0;
      ProtocolInitialized.packageVersion := releaseName releaseMajor releaseMinor releasePatch;
      ProtocolInitialized.rewardVault := rewardVault;
      ProtocolInitialized.distributionVault := distributionVault;
      ProtocolInitialized.protocolExclusionSlots := protocolExclusionSlots |}).

Definition decodeTokenCreated (data : DataRecord) : Outcome EventBody :=
  schemaVersion ← requiredUnsigned data "version" U64;
  if bool_decide (schemaVersion <> 2)
  then Throws (TypeError ("Unsupported TokenCreated schema version: " ⧺ show schemaVersion))
  else
    releaseMajor ← requiredUnsigned data "release_major" U64;
    releaseMinor ← requiredUnsigned data "release_minor" U64;
    releasePatch ← requiredUnsigned data "release_patch" U64;
    deploymentId ← requiredUtf8Vector data "deployment_id";
    networkLabel ← requiredUtf8Vector data "network_label";
    tokenMetadata ← requiredAddress data "metadata";
    rewardVault ← requiredAddress data "reward_vault";
    distributionVault ← requiredAddress data "distribution_vault";
    reflectionFeeBps ← requiredUnsigned data "reflection_fee_bps" U64;
    totalSupply ← requiredUnsigned data "total_supply" U64;
    decimals ← requiredUnsigned data "decimals" U8;
    Returns (EvTokenCreated {|
      TokenCreated.eventSchema := "v0.2";
      TokenCreated.deploymentId := deploymentId;
      TokenCreated.networkLabel := networkLabel;
      TokenCreated.tokenMetadata := tokenMetadata;
      TokenCreated.rewardVault := rewardVault;
      TokenCreated.distributionVault := distributionVault;
      TokenCreated.reflectionFeeBps := reflectionFeeBps;
      TokenCreated.totalSupply := totalSupply;
      TokenCreated.decimals := decimals;
      TokenCreated.packageVersion := releaseName releaseMajor releaseMinor releasePatch |}).

Definition decodeProtocolPrimaryStoreExcluded (data : DataRecord) : Outcome EventBody :=
  account ← requiredAddress data "account";
  store ← requiredAddress data "store";
  remainingSlots ← requiredUnsigned data "remaining_slots" U64;
  Returns (EvProtocolPrimaryStoreExcluded {|
    ProtocolPrimaryStoreExcluded.account := account;
    ProtocolPrimaryStoreExcluded.store := store;
    ProtocolPrimaryStoreExcluded.remainingSlots := remainingSlots |}).

Definition decodeOperationalPrimaryStoreExcluded (data : DataRecord) : Outcome EventBody :=
  account ← requiredAddress data "account";
  store ← requiredAddress data "store";
  Returns (EvOperationalPrimaryStoreExcluded {|
    OperationalPrimaryStoreExcluded.account := account;
    OperationalPrimaryStoreExcluded.store := store |}).

Definition decodePositionCreated (data : DataRecord) : Outcome EventBody :=
  account ← requiredAddress data "account";
  Returns (EvPositionCreated {|
    PositionCreated.account := account |}).

Definition decodeWalletRegistered (data : DataRecord) : Outcome EventBody :=
  account ← requiredAddress data "account";
  primaryStore ← requiredAddress data "primary_store";
  registeredWalletCount ← requiredUnsigned data "registered_wallet_count" U64;
  Returns (EvWalletRegistered {|
    WalletRegistered.account := account;
    WalletRegistered.primaryStore := primaryStore;
    WalletRegistered.registeredWalletCount := registeredWalletCount |}).

Definition decodeFaucetGrant (asset : Asset) (data : DataRecord) : Outcome EventBody :=
  account ← requiredAddress data "recipient";
  amount ← requiredUnsigned data "amount" U64;
  Returns (EvFaucetGrant {|
    FaucetGrant.account := account;
    FaucetGrant.asset := asset;
    FaucetGrant.amount := amount |}).

Definition decodeFaucetConfigured (data : DataRecord) : Outcome EventBody :=
  trflGrant ← requiredUnsigned data "trfl_grant" U64;
  tusdGrant ← requiredUnsigned data "tusd_grant" U64;
  cooldownSeconds ← requiredUnsigned data "cooldown_seconds" U64;
  Returns (EvFaucetConfigured {|
    FaucetConfigured.trflGrant := trflGrant;
    FaucetConfigured.tusdGrant := tusdGrant;
    FaucetConfigured.cooldownSeconds := cooldownSeconds |}).

Definition decodePoolReserveBound (data : DataRecord) : Outcome EventBody :=
  reserveStore ← requiredAddress data "reserve_store";
  custodian ← requiredAddress data "custodian";
  Returns (EvPoolReserveBound {|
    PoolReserveBound.reserveStore := reserveStore;
    PoolReserveBound.custodian := custodian |}).

Definition decodeWalletTransfer (data : DataRecord) : Outcome EventBody :=
  from ← requiredAddress data "from";
  to ← requiredAddress data "to";
  amount ← requiredUnsigned data "amount" U64;
  Returns (EvWalletTransfer {|
    WalletTransfer.from := from;
    WalletTransfer.to := to;
    WalletTransfer.asset := tRFL;
    WalletTransfer.amount := amount |}).

Definition decodeEligibleBalanceDebited (data : DataRecord) : Outcome EventBody :=
  account ← requiredAddress data "account";
  amount ← requiredUnsigned data "amount" U64;
  Returns (EvEligibleBalanceDebited {|
    EligibleBalanceDebited.account := account;
    EligibleBalanceDebited.amount := amount |}).

Definition decodeEligibleBalanceCredited (data : DataRecord) : Outcome EventBody :=
  account ← requiredAddress data "account";
  amount ← requiredUnsigned data "amount" U64;
  Returns (EvEligibleBalanceCredited {|
    EligibleBalanceCredited.account := account;
    EligibleBalanceCredited.amount := amount |}).

Definition decodeReflectionFeeCollected (txHash : string) (data : DataRecord) : Outcome EventBody :=
  grossAmount ← requiredUnsigned data "gross_amount" U64;
  feeAmount ← requiredUnsigned data "fee_amount" U64;
  feeBps ← requiredUnsigned data "fee_bps" U64;
  Returns (EvReflectionFeeCollected {|
    ReflectionFeeCollected.swapTxHash := txHash;
    ReflectionFeeCollected.grossAmount := grossAmount;
    ReflectionFeeCollected.feeAmount := feeAmount;
    ReflectionFeeCollected.feeBps := feeBps |}).

Definition decodeReflectionIndexAdvanced (data : DataRecord) : Outcome EventBody :=
  previousIndex ← requiredUnsigned data "old_index" U256;
  newIndex ← requiredUnsigned data "new_index" U256;
  indexRemainder ← requiredUnsigned data "remainder" U256;
  feeAmount ← requiredUnsigned data "fee_amount" U64;
  eligibleSupply ← requiredUnsigned data "eligible_supply" U128;
  Returns (EvReflectionIndexAdvanced {|
    ReflectionIndexAdvanced.previousIndex := previousIndex;
    ReflectionIndexAdvanced.newIndex := newIndex;
    ReflectionIndexAdvanced.indexRemainder := indexRemainder;
    ReflectionIndexAdvanced.feeAmount := feeAmount;
    ReflectionIndexAdvanced.eligibleSupply := eligibleSupply |}).

Definition decodeRewardsMaterialized (data : DataRecord) : Outcome EventBody :=
  account ← requiredAddress data "account";
  amount ← requiredUnsigned data "amount" U64;
  totalClaimed ← requiredUnsigned data "total_claimed" U256;
  trigger ← materializationTrigger data;
  Returns (EvRewardsMaterialized {|
    RewardsMaterialized.account := account;
    RewardsMaterialized.amount := amount;
    RewardsMaterialized.totalClaimed := totalClaimed;
    RewardsMaterialized.trigger := Some trigger |}).

Definition decodeRewardsClaimed (data : DataRecord) : Outcome EventBody :=
  account ← requiredAddress data "account";
  amount ← requiredUnsigned data "amount" U64;
  totalClaimed ← requiredUnsigned data "total_claimed" U256;
  Returns (EvRewardsClaimed {|
    RewardsClaimed.account := account;
    RewardsClaimed.amount := amount;
    RewardsClaimed.totalClaimed := totalClaimed |}).

Definition decodeCustodyAdapterRegistered (data : DataRecord) : Outcome EventBody :=
  adapterId ← requiredUnsigned data "adapter_id" U64;
  reserveStore ← requiredAddress data "reserve_store";
  firstEpoch ← requiredUnsigned data "first_epoch" U64;
  lpRewardVault ← requiredAddress data "lp_reward_vault";
  Returns (EvCustodyAdapterRegistered {|
    CustodyAdapterRegistered.adapterId := adapterId;
    CustodyAdapterRegistered.reserveStore := reserveStore;
    CustodyAdapterRegistered.firstEpoch := firstEpoch;
    CustodyAdapterRegistered.lpRewardVault := lpRewardVault |}).

Definition decodeCustodyEpochRouteOpened (data : DataRecord) : Outcome EventBody :=
  adapterId ← requiredUnsigned data "adapter_id" U64;
  epoch ← requiredUnsigned data "epoch" U64;
  reserveStore ← requiredAddress data "reserve_store";
  lpRewardVault ← requiredAddress data "lp_reward_vault";
  retiredResidueMagnified ← requiredUnsigned data "retired_residue_magnified" U256;
  Returns (EvCustodyEpochRouteOpened {|
    CustodyEpochRouteOpened.adapterId := adapterId;
    CustodyEpochRouteOpened.epoch := epoch;
    CustodyEpochRouteOpened.reserveStore := reserveStore;
    CustodyEpochRouteOpened.lpRewardVault := lpRewardVault;
    CustodyEpochRouteOpened.retiredResidueMagnified := retiredResidueMagnified |}).

Definition decodeCustodySharesChanged (data : DataRecord) : Outcome EventBody :=
  added ← requiredBoolean data "added";
  amount ← requiredUnsigned data "amount" U64;
  custodyShares ← requiredUnsigned data "custody_shares" U128;
  globalShares ← requiredUnsigned data "global_shares" U128;
  Returns (EvCustodySharesChanged {|
    CustodySharesChanged.added := added;
    CustodySharesChanged.amount := amount;
    CustodySharesChanged.custodyShares := custodyShares;
    CustodySharesChanged.globalShares := globalShares |}).

Definition decodeCustodyRewardsRouted (data : DataRecord) : Outcome EventBody :=
  reserveStore ← requiredAddress data "reserve_store";
  lpRewardVault ← requiredAddress data "lp_reward_vault";
  epoch ← requiredUnsigned data "epoch" U64;
  amount ← requiredUnsigned data "amount" U64;
  totalRouted ← requiredUnsigned data "total_routed" U256;
  Returns (EvCustodyRewardsRouted {|
    CustodyRewardsRouted.reserveStore := reserveStore;
    CustodyRewardsRouted.lpRewardVault := lpRewardVault;
    CustodyRewardsRouted.epoch := epoch;
    CustodyRewardsRouted.amount := amount;
    CustodyRewardsRouted.totalRouted := totalRouted |}).

Definition decodeFeeConfigurationChanged (data : DataRecord) : Outcome EventBody :=
  newFeeBps ← requiredUnsigned data "new_fee_bps" U64;
  oldFeeBps ← requiredUnsigned data "old_fee_bps" U64;
  Returns (EvFeeConfigurationChanged {|
    FeeConfigurationChanged.newFeeBps := newFeeBps;
    FeeConfigurationChanged.oldFeeBps := oldFeeBps |}).

Definition decodePauseStateChanged (data : DataRecord) : Outcome EventBody :=
  swapsPaused ← requiredBoolean data "swaps_paused";
  claimsPaused ← requiredBoolean data "claims_paused";
  Returns (EvPauseStateChanged {|
    PauseStateChanged.swapsPaused := swapsPaused;
    PauseStateChanged.claimsPaused := claimsPaused |}).

Definition decodeFaucetPauseChanged (data : DataRecord) : Outcome EventBody :=
  paused ← requiredBoolean data "paused";
  Returns (EvFaucetPauseChanged {|
    FaucetPauseChanged.paused := paused |}).

Definition decodeOperationalAdminChanged (scope : OperationalAdminScope) (data : DataRecord) : Outcome EventBody :=
  oldOperationalAdmin ← requiredAddress data "old_operational_admin";
  newOperationalAdmin ← requiredAddress data "new_operational_admin";
  Returns (EvOperationalAdminChanged {|
    OperationalAdminChanged.scope := scope;
    OperationalAdminChanged.oldOperationalAdmin := oldOperationalAdmin;
    OperationalAdminChanged.newOperationalAdmin := newOperationalAdmin |}).

Definition decodeLiquiditySeeded (data : DataRecord) : Outcome EventBody :=
  epoch ← requiredUnsigned data "epoch" U64;
  provider ← requiredAddress data "provider";
  trflAmount ← requiredUnsigned data "rfl_amount" U64;
  tusdAmount ← requiredUnsigned data "usd_amount" U64;
  lpShares ← requiredUnsigned data "lp_shares" U128;
  trflReserveAfter ← requiredUnsigned data "reserve_rfl" U64;
  tusdReserveAfter ← requiredUnsigned data "reserve_usd" U64;
  Returns (EvLiquiditySeeded {|
    LiquiditySeeded.epoch := epoch;
    LiquiditySeeded.provider := provider;
    LiquiditySeeded.trflAmount := trflAmount;
    LiquiditySeeded.tusdAmount := tusdAmount;
    LiquiditySeeded.lpShares := lpShares;
    LiquiditySeeded.trflReserveAfter := trflReserveAfter;
    LiquiditySeeded.tusdReserveAfter := tusdReserveAfter |}).

Definition decodeLiquidityAdded (data : DataRecord) : Outcome EventBody :=
  epoch ← requiredUnsigned data "epoch" U64;
  provider ← requiredAddress data "provider";
  trflAmount ← requiredUnsigned data "rfl_amount" U64;
  tusdAmount ← requiredUnsigned data "usd_amount" U64;
  lpShares ← requiredUnsigned data "lp_shares" U128;
  trflReserveAfter ← requiredUnsigned data "reserve_rfl" U64;
  tusdReserveAfter ← requiredUnsigned data "reserve_usd" U64;
  Returns (EvLiquidityAdded {|
    LiquidityAdded.epoch := epoch;
    LiquidityAdded.provider := provider;
    LiquidityAdded.trflAmount := trflAmount;
    LiquidityAdded.tusdAmount := tusdAmount;
    LiquidityAdded.lpShares := lpShares;
    LiquidityAdded.trflReserveAfter := trflReserveAfter;
    LiquidityAdded.tusdReserveAfter := tusdReserveAfter |}).

Definition decodeLiquidityRemoved (data : DataRecord) : Outcome EventBody :=
  epoch ← requiredUnsigned data "epoch" U64;
  provider ← requiredAddress data "provider";
  trflAmount ← requiredUnsigned data "rfl_amount" U64;
  tusdAmount ← requiredUnsigned data "usd_amount" U64;
  lpShares ← requiredUnsigned data "lp_shares" U128;
  finalExit ← requiredBoolean data "final_exit";
  trflReserveAfter ← requiredUnsigned data "reserve_rfl" U64;
  tusdReserveAfter ← requiredUnsigned data "reserve_usd" U64;
  Returns (EvLiquidityRemoved {|
    LiquidityRemoved.epoch := epoch;
    LiquidityRemoved.provider := provider;
    LiquidityRemoved.trflAmount := trflAmount;
    LiquidityRemoved.tusdAmount := tusdAmount;
    LiquidityRemoved.lpShares := lpShares;
    LiquidityRemoved.finalExit := finalExit;
    LiquidityRemoved.trflReserveAfter := trflReserveAfter;
    LiquidityRemoved.tusdReserveAfter := tusdReserveAfter |}).

Definition decodeLaunchSealed (data : DataRecord) : Outcome EventBody :=
  reflectionFeeBps ← requiredUnsigned data "reflection_fee_bps" U64;
  ammFeeBps ← requiredUnsigned data "amm_fee_bps" U64;
  maximumReserveBps ← requiredUnsigned data "max_reserve_bps" U64;
  maximumGrossSwap ← requiredUnsigned data "max_gross_swap" U64;
  maximumRflContribution ← requiredUnsigned data "max_liquidity_rfl" U64;
  maximumTusdContribution ← requiredUnsigned data "max_liquidity_usd" U64;
  maximumNonFinalWithdrawalShareBps ← requiredUnsigned data "max_withdrawal_share_bps" U64;
  faucetTrflGrant ← requiredUnsigned data "faucet_trfl_grant" U64;
  faucetTusdGrant ← requiredUnsigned data "faucet_tusd_grant" U64;
  faucetCooldownSeconds ← requiredUnsigned data "faucet_cooldown_seconds" U64;
  bootstrap ← requiredAddress data "bootstrap";
  rflReserve ← requiredAddress data "rfl_reserve";
  usdReserve ← requiredAddress data "usd_reserve";
  lpRewardVault ← requiredAddress data "lp_reward_vault";
  seedRfl ← requiredUnsigned data "seed_rfl" U64;
  seedUsd ← requiredUnsigned data "seed_usd" U64;
  initialLpShares ← requiredUnsigned data "initial_lp_shares" U128;
  Returns (EvLaunchSealed {|
    LaunchSealed.eventSchema := "v0.2";
    LaunchSealed.reflectionFeeBps := reflectionFeeBps;
    LaunchSealed.ammFeeBps := ammFeeBps;
    LaunchSealed.maximumReserveBps := maximumReserveBps;
    LaunchSealed.maximumGrossSwap := maximumGrossSwap;
    LaunchSealed.maximumRflContribution := maximumRflContribution;
    LaunchSealed.maximumTusdContribution := maximumTusdContribution;
    LaunchSealed.maximumNonFinalWithdrawalShareBps := maximumNonFinalWithdrawalShareBps;
    LaunchSealed.faucetTrflGrant := faucetTrflGrant;
    LaunchSealed.faucetTusdGrant := faucetTusdGrant;
    LaunchSealed.faucetCooldownSeconds := faucetCooldownSeconds;
    LaunchSealed.bootstrap := bootstrap;
    LaunchSealed.rflReserve := rflReserve;
    LaunchSealed.usdReserve := usdReserve;
    LaunchSealed.lpRewardVault := lpRewardVault;
    LaunchSealed.seedRfl := seedRfl;
    LaunchSealed.seedUsd := seedUsd;
    LaunchSealed.initialLpShares := initialLpShares |}).

Definition decodePoolClosed (data : DataRecord) : Outcome EventBody :=
  provider ← requiredAddress data "provider";
  epoch ← requiredUnsigned data "epoch" U64;
  lpShares ← requiredUnsigned data "lp_shares" U128;
  rflOutput ← requiredUnsigned data "rfl_output" U64;
  usdOutput ← requiredUnsigned data "usd_output" U64;
  rflReserveAfter ← requiredUnsigned data "reserve_rfl" U64;
  usdReserveAfter ← requiredUnsigned data "reserve_usd" U64;
  Returns (EvPoolClosed {|
    PoolClosed.eventSchema := "v0.2";
    PoolClosed.provider := provider;
    PoolClosed.epoch := epoch;
    PoolClosed.lpShares := lpShares;
    PoolClosed.rflOutput := rflOutput;
    PoolClosed.usdOutput := usdOutput;
    PoolClosed.rflReserveAfter := rflReserveAfter;
    PoolClosed.usdReserveAfter := usdReserveAfter |}).

Definition decodeSwapExecuted (data : DataRecord) : Outcome EventBody :=
  grossAmount ← requiredUnsigned data "gross_input" U64;
  reflectionFee ← requiredUnsigned data "reflection_fee" U64;
  isSell ← requiredBoolean data "is_sell";
  let direction := if isSell : bool then sell else buy in
  grossPoolOutput ← requiredUnsigned data "gross_output" U64;
  account ← requiredAddress data "trader";
  ammFee ← requiredUnsigned data "amm_fee" U64;
  let netReserveInput := if bool_decide (direction = sell) then grossAmount - reflectionFee else grossAmount in
  netUserReceipt ← requiredUnsigned data "net_output" U64;
  trflReserveAfter ← requiredUnsigned data "reserve_rfl" U64;
  tusdReserveAfter ← requiredUnsigned data "reserve_usd" U64;
  Returns (EvSwapExecuted {|
    SwapExecuted.account := account;
    SwapExecuted.direction := direction;
    SwapExecuted.grossAmount := grossAmount;
    SwapExecuted.reflectionFee := reflectionFee;
    SwapExecuted.ammFee := ammFee;
    SwapExecuted.netReserveInput := netReserveInput;
    SwapExecuted.grossPoolOutput := grossPoolOutput;
    SwapExecuted.netUserReceipt := netUserReceipt;
    SwapExecuted.trflReserveAfter := trflReserveAfter;
    SwapExecuted.tusdReserveAfter := tusdReserveAfter |}).

Definition decodeSwapLimitsChanged (data : DataRecord) : Outcome EventBody :=
  ammFeeBps ← requiredUnsigned data "amm_fee_bps" U64;
  maximumReserveBps ← requiredUnsigned data "max_reserve_bps" U64;
  maximumGrossSwap ← requiredUnsigned data "max_gross_swap" U64;
  Returns (EvSwapLimitsChanged {|
    SwapLimitsChanged.ammFeeBps := ammFeeBps;
    SwapLimitsChanged.maximumReserveBps := maximumReserveBps;
    SwapLimitsChanged.maximumGrossSwap := maximumGrossSwap |}).

Definition decodeLiquidityLimitsChanged (data : DataRecord) : Outcome EventBody :=
  maximumRflContribution ← requiredUnsigned data "max_rfl_contribution" U64;
  maximumTusdContribution ← requiredUnsigned data "max_usd_contribution" U64;
  maximumNonFinalWithdrawalShareBps ← requiredUnsigned data "max_withdrawal_share_bps" U64;
  Returns (EvLiquidityLimitsChanged {|
    LiquidityLimitsChanged.maximumRflContribution := maximumRflContribution;
    LiquidityLimitsChanged.maximumTusdContribution := maximumTusdContribution;
    LiquidityLimitsChanged.maximumNonFinalWithdrawalShareBps := maximumNonFinalWithdrawalShareBps |}).

Definition decodePoolPauseChanged (data : DataRecord) : Outcome EventBody :=
  poolPaused ← requiredBoolean data "pool_paused";
  liquidityPaused ← requiredBoolean data "liquidity_paused";
  lpClaimsPaused ← requiredBoolean data "lp_claims_paused";
  shutdownMode ← requiredBoolean data "shutdown_mode";
  Returns (EvPoolPauseChanged {|
    PoolPauseChanged.poolPaused := poolPaused;
    PoolPauseChanged.liquidityPaused := liquidityPaused;
    PoolPauseChanged.lpClaimsPaused := lpClaimsPaused;
    PoolPauseChanged.shutdownMode := shutdownMode |}).

Definition decodeLpEpochOpened (data : DataRecord) : Outcome EventBody :=
  epoch ← requiredUnsigned data "epoch" U64;
  stateId ← requiredAddress data "state_id";
  rewardVault ← requiredAddress data "reward_vault";
  Returns (EvLpEpochOpened {|
    LpEpochOpened.epoch := epoch;
    LpEpochOpened.stateId := stateId;
    LpEpochOpened.rewardVault := rewardVault |}).

Definition decodeLpEpochStatusChanged (data : DataRecord) : Outcome EventBody :=
  epoch ← requiredUnsigned data "epoch" U64;
  oldStatus ← (code ← requiredUnsigned data "old_status" U8; lpStatus code "old_status");
  newStatus ← (code ← requiredUnsigned data "new_status" U8; lpStatus code "new_status");
  Returns (EvLpEpochStatusChanged {|
    LpEpochStatusChanged.epoch := epoch;
    LpEpochStatusChanged.oldStatus := oldStatus;
    LpEpochStatusChanged.newStatus := newStatus |}).

Definition decodeLpSharesChanged (data : DataRecord) : Outcome EventBody :=
  epoch ← requiredUnsigned data "epoch" U64;
  owner ← requiredAddress data "owner";
  added ← requiredBoolean data "added";
  amount ← requiredUnsigned data "amount" U128;
  ownerShares ← requiredUnsigned data "owner_shares" U128;
  totalShares ← requiredUnsigned data "total_shares" U128;
  Returns (EvLpSharesChanged {|
    LpSharesChanged.epoch := epoch;
    LpSharesChanged.owner := owner;
    LpSharesChanged.added := added;
    LpSharesChanged.amount := amount;
    LpSharesChanged.ownerShares := ownerShares;
    LpSharesChanged.totalShares := totalShares |}).

Definition decodeLpSharesTransferred (data : DataRecord) : Outcome EventBody :=
  epoch ← requiredUnsigned data "epoch" U64;
  sender ← requiredAddress data "sender";
  recipient ← requiredAddress data "recipient";
  amount ← requiredUnsigned data "amount" U128;
  Returns (EvLpSharesTransferred {|
    LpSharesTransferred.epoch := epoch;
    LpSharesTransferred.sender := sender;
    LpSharesTransferred.recipient := recipient;
    LpSharesTransferred.amount := amount |}).

Definition decodeLpRewardIndexAdvanced (data : DataRecord) : Outcome EventBody :=
  epoch ← requiredUnsigned data "epoch" U64;
  previousIndex ← requiredUnsigned data "old_index" U256;
  newIndex ← requiredUnsigned data "new_index" U256;
  indexRemainder ← requiredUnsigned data "remainder" U256;
  received ← requiredUnsigned data "received" U64;
  totalShares ← requiredUnsigned data "total_shares" U128;
  roundingReserve ← requiredUnsigned data "rounding_reserve" U128;
  Returns (EvLpRewardIndexAdvanced {|
    LpRewardIndexAdvanced.epoch := epoch;
    LpRewardIndexAdvanced.previousIndex := previousIndex;
    LpRewardIndexAdvanced.newIndex := newIndex;
    LpRewardIndexAdvanced.indexRemainder := indexRemainder;
    LpRewardIndexAdvanced.received := received;
    LpRewardIndexAdvanced.totalShares := totalShares;
    LpRewardIndexAdvanced.roundingReserve := roundingReserve |}).

Definition decodeLpRewardsClaimed (data : DataRecord) : Outcome EventBody :=
  epoch ← requiredUnsigned data "epoch" U64;
  owner ← requiredAddress data "owner";
  amount ← requiredUnsigned data "amount" U64;
  totalClaimed ← requiredUnsigned data "total_claimed" U256;
  Returns (EvLpRewardsClaimed {|
    LpRewardsClaimed.epoch := epoch;
    LpRewardsClaimed.owner := owner;
    LpRewardsClaimed.amount := amount;
    LpRewardsClaimed.totalClaimed := totalClaimed |}).

Definition decodeLpRewardQuarantined (data : DataRecord) : Outcome EventBody :=
  epoch ← requiredUnsigned data "epoch" U64;
  amount ← requiredUnsigned data "amount" U64;
  unallocatedRewards ← requiredUnsigned data "unallocated_rewards" U128;
  rewardVault ← requiredAddress data "reward_vault";
  Returns (EvLpRewardQuarantined {|
    LpRewardQuarantined.epoch := epoch;
    LpRewardQuarantined.amount := amount;
    LpRewardQuarantined.unallocatedRewards := unallocatedRewards;
    LpRewardQuarantined.rewardVault := rewardVault |}).

Definition decodeLpFractionalResidueRetired (data : DataRecord) : Outcome EventBody :=
  epoch ← requiredUnsigned data "epoch" U64;
  owner ← requiredAddress data "owner";
  residueMagnified ← requiredUnsigned data "residue_magnified" U256;
  cumulativeRetiredResidueMagnified ← requiredUnsigned data "cumulative_retired_residue_magnified" U256;
  roundingReserveBaseUnits ← requiredUnsigned data "rounding_reserve_base_units" U128;
  Returns (EvLpFractionalResidueRetired {|
    LpFractionalResidueRetired.epoch := epoch;
    LpFractionalResidueRetired.owner := owner;
    LpFractionalResidueRetired.residueMagnified := residueMagnified;
    LpFractionalResidueRetired.cumulativeRetiredResidueMagnified := cumulativeRetiredResidueMagnified;
    LpFractionalResidueRetired.roundingReserveBaseUnits := roundingReserveBaseUnits |}).

Definition decodeLpEpochTerminalDustClassified (data : DataRecord) : Outcome EventBody :=
  epoch ← requiredUnsigned data "epoch" U64;
  rewardVault ← requiredAddress data "reward_vault";
  terminalRoundingBaseUnits ← requiredUnsigned data "terminal_rounding_base_units" U128;
  retiredResidueMagnified ← requiredUnsigned data "retired_residue_magnified" U256;
  lifetimeReceivedBaseUnits ← requiredUnsigned data "lifetime_received_base_units" U256;
  lifetimeClaimedBaseUnits ← requiredUnsigned data "lifetime_claimed_base_units" U256;
  Returns (EvLpEpochTerminalDustClassified {|
    LpEpochTerminalDustClassified.epoch := epoch;
    LpEpochTerminalDustClassified.rewardVault := rewardVault;
    LpEpochTerminalDustClassified.terminalRoundingBaseUnits := terminalRoundingBaseUnits;
    LpEpochTerminalDustClassified.retiredResidueMagnified := retiredResidueMagnified;
    LpEpochTerminalDustClassified.lifetimeReceivedBaseUnits := lifetimeReceivedBaseUnits;
    LpEpochTerminalDustClassified.lifetimeClaimedBaseUnits := lifetimeClaimedBaseUnits |}).


(** ** [normalize] *)

Definition envelopeBase (envelope : Envelope.CedraChainEventEnvelope) : Outcome Base.EventBase :=
  if bool_decide (jsLength envelope.(Envelope.txHash) = 0) || bool_decide (jsLength envelope.(Envelope.txHash) > 512)
     || bool_decide (envelope.(Envelope.ledgerVersion) < 0) || bool_decide (envelope.(Envelope.ledgerVersion) > MOVE_U64_MAX)
     || negb (isSafeInteger envelope.(Envelope.eventIndex)) || bool_decide (envelope.(Envelope.eventIndex) < 0)
     || bool_decide (envelope.(Envelope.timestampUnixMilliseconds) < 0)
     || bool_decide (envelope.(Envelope.timestampUnixMilliseconds) > MOVE_U64_MAX)
  then Throws (TypeError "Cedra event envelope has an invalid transaction identity, cursor, or timestamp")
  else Returns {|
    Base.id := envelope.(Envelope.txHash) ⧺ ":" ⧺ show envelope.(Envelope.eventIndex);
    Base.txHash := envelope.(Envelope.txHash);
    Base.ledgerVersion := envelope.(Envelope.ledgerVersion);
    Base.eventIndex := envelope.(Envelope.eventIndex);
    Base.timestampUnixMilliseconds := envelope.(Envelope.timestampUnixMilliseconds);
    Base.source := chain |}.

Definition isType (typeTag : string) (packageAddress : Address) (moduleName eventName : string) : Outcome bool :=
  match splitDoubleColon typeTag with
  | [package; module; event] =>
      canonical ← canonicalAddress package;
      Returns (bool_decide (canonical = packageAddress) && bool_decide (module = moduleName)
               && bool_decide (event = eventName))
  | _ => Returns false
  end.

(** The chain of [if (test) return ...], ending in [return null]. *)
Fixpoint firstMatch {A} (cases : list (Outcome bool * Outcome A)) : Outcome (option A) :=
  match cases with
  | [] => Returns None
  | (test, result) :: rest =>
      matched ← test;
      if matched : bool then (a ← result; Returns (Some a)) else firstMatch rest
  end.

(** The tests and decoders in the order of the source.  A disjunction of tests
    over one decoder is a row per test. *)
Definition eventCases (packages : Packages.PackageAddresses) (envelope : Envelope.CedraChainEventEnvelope)
    (data : DataRecord) : list (Outcome bool * Outcome EventBody) :=
  let coreType := isType envelope.(Envelope.typeTag) packages.(Packages.reflectionCore) in
  let assetsType := isType envelope.(Envelope.typeTag) packages.(Packages.testAssets) in
  let ammType := isType envelope.(Envelope.typeTag) packages.(Packages.testAmm) in
  [
    (coreType "reflection_events" "ProtocolInitialized", decodeProtocolInitialized data);
    (coreType "reflection_events" "TokenCreated", decodeTokenCreated data);
    (coreType "reflection_events" "ProtocolPrimaryStoreExcluded", decodeProtocolPrimaryStoreExcluded data);
    (coreType "reflection_events" "OperationalPrimaryStoreExcluded", decodeOperationalPrimaryStoreExcluded data);
    (coreType "reflection_events" "PositionCreated", decodePositionCreated data);
    (coreType "reflection_events" "WalletRegistered", decodeWalletRegistered data);
    (coreType "reflection_events" "FaucetGrant", decodeFaucetGrant tRFL data);
    (assetsType "mock_usd" "MockUsdMinted", decodeFaucetGrant tUSD data);
    (assetsType "test_faucet" "FaucetConfigured", decodeFaucetConfigured data);
    (assetsType "mock_usd" "PoolReserveBound", decodePoolReserveBound data);
    (coreType "reflection_events" "WalletTransfer", decodeWalletTransfer data);
    (coreType "reflection_events" "EligibleBalanceDebited", decodeEligibleBalanceDebited data);
    (coreType "reflection_events" "EligibleBalanceCredited", decodeEligibleBalanceCredited data);
    (coreType "reflection_events" "ReflectionFeeCollected", decodeReflectionFeeCollected envelope.(Envelope.txHash) data);
    (coreType "reflection_events" "ReflectionIndexAdvanced", decodeReflectionIndexAdvanced data);
    (coreType "reflection_events" "RewardsMaterialized", decodeRewardsMaterialized data);
    (coreType "reflection_events" "RewardsClaimed", decodeRewardsClaimed data);
    (coreType "reflection_events" "CustodyAdapterRegistered", decodeCustodyAdapterRegistered data);
    (coreType "reflection_events" "CustodyEpochRouteOpened", decodeCustodyEpochRouteOpened data);
    (coreType "reflection_events" "CustodySharesChanged", decodeCustodySharesChanged data);
    (coreType "reflection_events" "CustodyRewardsRouted", decodeCustodyRewardsRouted data);
    (coreType "reflection_events" "FeeConfigurationChanged", decodeFeeConfigurationChanged data);
    (coreType "reflection_events" "PauseStateChanged", decodePauseStateChanged data);
    (assetsType "test_faucet" "FaucetPauseChanged", decodeFaucetPauseChanged data);
    (coreType "reflection_events" "OperationalAdminChanged", decodeOperationalAdminChanged reflection_core data);
    (assetsType "test_faucet" "OperationalAdminChanged", decodeOperationalAdminChanged test_assets data);
    (ammType "pool" "OperationalAdminChanged", decodeOperationalAdminChanged test_amm data);
    (ammType "pool" "LiquiditySeeded", decodeLiquiditySeeded data);
    (ammType "pool" "LiquidityAdded", decodeLiquidityAdded data);
    (ammType "pool" "LiquidityRemoved", decodeLiquidityRemoved data);
    (ammType "pool" "LaunchSealed", decodeLaunchSealed data);
    (ammType "pool" "PoolClosed", decodePoolClosed data);
    (ammType "pool" "SwapExecuted", decodeSwapExecuted data);
    (ammType "pool" "SwapLimitsChanged", decodeSwapLimitsChanged data);
    (ammType "pool" "LiquidityLimitsChanged", decodeLiquidityLimitsChanged data);
    (ammType "pool" "PoolPauseChanged", decodePoolPauseChanged data);
    (ammType "lp_rewards" "LpEpochOpened", decodeLpEpochOpened data);
    (ammType "lp_rewards" "LpEpochStatusChanged", decodeLpEpochStatusChanged data);
    (ammType "lp_rewards" "LpSharesChanged", decodeLpSharesChanged data);
    (ammType "lp_rewards" "LpSharesTransferred", decodeLpSharesTransferred data);
    (ammType "lp_rewards" "LpRewardIndexAdvanced", decodeLpRewardIndexAdvanced data);
    (ammType "lp_rewards" "LpRewardsClaimed", decodeLpRewardsClaimed data);
    (ammType "lp_rewards" "LpRewardQuarantined", decodeLpRewardQuarantined data);
    (ammType "lp_rewards" "LpFractionalResidueRetired", decodeLpFractionalResidueRetired data);
    (ammType "lp_rewards" "LpEpochTerminalDustClassified", decodeLpEpochTerminalDustClassified data)
  ].

Definition normalize (packages : Packages.PackageAddresses) (envelope : Envelope.CedraChainEventEnvelope)
    : Outcome (option ProtocolEvent) :=
  data ← asRecord envelope.(Envelope.data);
  eventBase ← envelopeBase envelope;
  found ← firstMatch (eventCases packages envelope data);
  Returns (option_map (mkEvent eventBase) found).
End Decoding.

(** [new CedraEventNormalizer({ packageAddresses })] *)
Definition newCedraEventNormalizer (options : Packages.PackageAddresses) : Outcome Packages.PackageAddresses :=
  reflectionCore ← canonicalAddress options.(Packages.reflectionCore);
  testAssets ← canonicalAddress options.(Packages.testAssets);
  testAmm ← canonicalAddress options.(Packages.testAmm);
  let addresses := [reflectionCore; testAssets; testAmm] in
  if includes "0x0" addresses
  then Throws (TypeError "Cedra event package addresses must be non-zero")
  else if bool_decide (setSize addresses <> arrayLength addresses)
  then Throws (TypeError "Cedra event package addresses must be canonically distinct")
  else Returns (Packages.mk reflectionCore testAssets testAmm).
