(* ===== verification/NormalizerTheorems.v ===== *)
(** * Properties of the event normalizer

    What it returns is what the reducer accepts, for the event the type tag
    names, whatever spelling the node chose for its fields. *)
From S2P Require Import Prelude JsMap Types MoveDomains JsValue Snapshot Numerals CursorRoundTrip Normalizer.

(** ** What the normalizer lets through

    Every decoder reads its unsigned fields through [requiredUnsigned], so each
    numeric field of a decoded event fits the width its domain check asks for;
    the chain of tests picks the decoder the type tag names. *)

(** ** Fields *)

Lemma requiredBigint_fits data key n : requiredBigint data key = Returns n -> fitsUnsigned U256 n.
Proof.
  unfold requiredBigint. intros H. apply outcome_bind_inv in H as (parsed & _ & H).
  case_bool_decide; [done|]. case_bool_decide; [done|]. cbn in H. injection H as <-.
  apply isMoveUnsigned_iff. unfold isMoveUnsigned. rewrite bool_decide_false by lia.
  apply bool_decide_eq_true. change (widthMax U256) with MOVE_U256_MAX. lia.
Qed.

Lemma requiredUnsigned_fits data key bits n : requiredUnsigned data key bits = Returns n -> fitsUnsigned bits n.
Proof.
  unfold requiredUnsigned. intros H. apply outcome_bind_inv in H as (parsed & E & H).
  apply requiredBigint_fits in E. case_bool_decide; [done|]. injection H as <-.
  apply isMoveUnsigned_iff. unfold isMoveUnsigned. destruct E. rewrite bool_decide_false by lia.
  apply bool_decide_eq_true. lia.
Qed.

Lemma materializationTrigger_fits data n : materializationTrigger data = Returns n -> fitsUnsigned U8 n.
Proof.
  unfold materializationTrigger. intros H. apply outcome_bind_inv in H as (v & E & H).
  destruct (includes _ _); [|done]. injection H as <-. by apply requiredUnsigned_fits in E.
Qed.

Lemma assertMoveUnsigned_ok v bits label : fitsUnsigned bits v -> assertMoveUnsigned v bits label = Returns tt.
Proof. intros H. unfold assertMoveUnsigned. by apply isMoveUnsigned_iff in H as ->. Qed.

Lemma zero_fits bits : fitsUnsigned bits 0.
Proof. by destruct bits. Qed.

Create HintDb normalizer.
#[export] Hint Resolve requiredUnsigned_fits materializationTrigger_fits zero_fits : normalizer.

(** ** Events *)

(** The one field that is computed: a sell's net input must not be negative. *)
Definition FeeWithinInput (b : EventBody) : Prop :=
  match b with
  | EvSwapExecuted e => 0 <= e.(SwapExecuted.netReserveInput)
  | _ => True
  end.

(** A body whose fields are in their domains, whatever its envelope. *)
Definition BodyInDomain (b : EventBody) : Prop :=
  forall eventBase, assertBase eventBase = Returns tt ->
    assertProtocolEventMoveDomains (mkEvent eventBase b) = Returns tt <-> FeeWithinInput b.

Ltac head_symbol t := lazymatch t with ?f _ => head_symbol f | _ => t end.

Ltac decoded :=
  lazymatch goal with H : _ = Returns _ |- BodyInDomain _ =>
    repeat (apply outcome_bind_inv in H as (? & ? & H)); injection H as <-;
    intros eventBase Hbase; unfold assertProtocolEventMoveDomains; cbn [base body]; rewrite Hbase;
    split; [intros _; exact I|intros _]; cbn;
    repeat (rewrite assertMoveUnsigned_ok by eauto with normalizer; cbn); reflexivity
  end.

Section Decoding.
Context (decodeUtf8 : list Z -> option string).

Lemma decodeSwapExecuted_domain data b : decodeSwapExecuted data = Returns b -> BodyInDomain b.
Proof.
  unfold decodeSwapExecuted. intros H. repeat (apply outcome_bind_inv in H as (? & ? & H)). injection H as <-.
  intros eventBase Hbase. unfold assertProtocolEventMoveDomains. cbn [base body]. rewrite Hbase. cbn.
  repeat (rewrite assertMoveUnsigned_ok by eauto with normalizer; cbn).
  rename x into gross, x0 into fee, x1 into isSell.
  assert (Hgross : fitsUnsigned U64 gross) by eauto with normalizer.
  assert (Hfee : fitsUnsigned U64 fee) by eauto with normalizer.
  set (net := if bool_decide _ then gross - fee else gross).
  assert (Hnet : fitsUnsigned U64 net <-> 0 <= net).
  { unfold net, fitsUnsigned in *. case_bool_decide; lia. }
  rewrite <- Hnet, <- (assertMoveUnsigned_iff net U64 "swap net reserve input").
  split; intros E.
  - by outcome_inv.
  - rewrite E. cbn. repeat (rewrite assertMoveUnsigned_ok by eauto with normalizer; cbn). reflexivity.
Qed.

(** A guarded decoder and a plain one. *)
Lemma in_domain_guarded (test : bool) (e : JsError) (result : Outcome EventBody) b :
  (forall b, result = Returns b -> BodyInDomain b) ->
  (if test then Throws e else result) = Returns b -> BodyInDomain b.
Proof. by destruct test; auto. Qed.

Lemma decoders_in_domain packages envelope data :
  Forall (fun row => forall b, row.2 = Returns b -> BodyInDomain b) (eventCases decodeUtf8 packages envelope data).
Proof.
  unfold eventCases. repeat (apply List.Forall_cons; [cbn [snd]; intros b H|]); [..|apply List.Forall_nil].
  all: try (by apply decodeSwapExecuted_domain in H).
  all: match type of H with ?d = _ => let h := head_symbol d in unfold h in H end.
  1, 2: apply outcome_bind_inv in H as (? & ? & H); revert H; apply in_domain_guarded; intros b' H.
  all: decoded.
Qed.
End Decoding.

(** ** The chain of tests *)

(** The fully qualified Move type of an event: package, module and struct. *)
Definition eventTag (packages : Packages.PackageAddresses) (b : EventBody) : option (Address * string * string) :=
  let tag package module event := Some (package, module, event) in
  match b with
  | EvProtocolInitialized _ => tag packages.(Packages.reflectionCore) "reflection_events" "ProtocolInitialized"
  | EvTokenCreated _ => tag packages.(Packages.reflectionCore) "reflection_events" "TokenCreated"
  | EvProtocolPrimaryStoreExcluded _ => tag packages.(Packages.reflectionCore) "reflection_events" "ProtocolPrimaryStoreExcluded"
  | EvOperationalPrimaryStoreExcluded _ => tag packages.(Packages.reflectionCore) "reflection_events" "OperationalPrimaryStoreExcluded"
  | EvPositionCreated _ => tag packages.(Packages.reflectionCore) "reflection_events" "PositionCreated"
  | EvWalletRegistered _ => tag packages.(Packages.reflectionCore) "reflection_events" "WalletRegistered"
  | EvFaucetGrant e =>
      match e.(FaucetGrant.asset) with
      | tRFL => tag packages.(Packages.reflectionCore) "reflection_events" "FaucetGrant"
      | tUSD => tag packages.(Packages.testAssets) "mock_usd" "MockUsdMinted"
      end
  | EvFaucetConfigured _ => tag packages.(Packages.testAssets) "test_faucet" "FaucetConfigured"
  | EvPoolReserveBound _ => tag packages.(Packages.testAssets) "mock_usd" "PoolReserveBound"
  | EvWalletTransfer _ => tag packages.(Packages.reflectionCore) "reflection_events" "WalletTransfer"
  | EvEligibleBalanceDebited _ => tag packages.(Packages.reflectionCore) "reflection_events" "EligibleBalanceDebited"
  | EvEligibleBalanceCredited _ => tag packages.(Packages.reflectionCore) "reflection_events" "EligibleBalanceCredited"
  | EvReflectionFeeCollected _ => tag packages.(Packages.reflectionCore) "reflection_events" "ReflectionFeeCollected"
  | EvReflectionIndexAdvanced _ => tag packages.(Packages.reflectionCore) "reflection_events" "ReflectionIndexAdvanced"
  | EvRewardsMaterialized _ => tag packages.(Packages.reflectionCore) "reflection_events" "RewardsMaterialized"
  | EvRewardsClaimed _ => tag packages.(Packages.reflectionCore) "reflection_events" "RewardsClaimed"
  | EvCustodyAdapterRegistered _ => tag packages.(Packages.reflectionCore) "reflection_events" "CustodyAdapterRegistered"
  | EvCustodyEpochRouteOpened _ => tag packages.(Packages.reflectionCore) "reflection_events" "CustodyEpochRouteOpened"
  | EvCustodySharesChanged _ => tag packages.(Packages.reflectionCore) "reflection_events" "CustodySharesChanged"
  | EvCustodyRewardsRouted _ => tag packages.(Packages.reflectionCore) "reflection_events" "CustodyRewardsRouted"
  | EvFeeConfigurationChanged _ => tag packages.(Packages.reflectionCore) "reflection_events" "FeeConfigurationChanged"
  | EvPauseStateChanged _ => tag packages.(Packages.reflectionCore) "reflection_events" "PauseStateChanged"
  | EvFaucetPauseChanged _ => tag packages.(Packages.testAssets) "test_faucet" "FaucetPauseChanged"
  | EvOperationalAdminChanged e =>
      match e.(OperationalAdminChanged.scope) with
      | reflection_core => tag packages.(Packages.reflectionCore) "reflection_events" "OperationalAdminChanged"
      | test_assets => tag packages.(Packages.testAssets) "test_faucet" "OperationalAdminChanged"
      | test_amm => tag packages.(Packages.testAmm) "pool" "OperationalAdminChanged"
      | OtherScope _ => None
      end
  | EvLiquiditySeeded _ => tag packages.(Packages.testAmm) "pool" "LiquiditySeeded"
  | EvLiquidityAdded _ => tag packages.(Packages.testAmm) "pool" "LiquidityAdded"
  | EvLiquidityRemoved _ => tag packages.(Packages.testAmm) "pool" "LiquidityRemoved"
  | EvLaunchSealed _ => tag packages.(Packages.testAmm) "pool" "LaunchSealed"
  | EvPoolClosed _ => tag packages.(Packages.testAmm) "pool" "PoolClosed"
  | EvSwapExecuted _ => tag packages.(Packages.testAmm) "pool" "SwapExecuted"
  | EvSwapLimitsChanged _ => tag packages.(Packages.testAmm) "pool" "SwapLimitsChanged"
  | EvLiquidityLimitsChanged _ => tag packages.(Packages.testAmm) "pool" "LiquidityLimitsChanged"
  | EvPoolPauseChanged _ => tag packages.(Packages.testAmm) "pool" "PoolPauseChanged"
  | EvLpEpochOpened _ => tag packages.(Packages.testAmm) "lp_rewards" "LpEpochOpened"
  | EvLpEpochStatusChanged _ => tag packages.(Packages.testAmm) "lp_rewards" "LpEpochStatusChanged"
  | EvLpSharesChanged _ => tag packages.(Packages.testAmm) "lp_rewards" "LpSharesChanged"
  | EvLpSharesTransferred _ => tag packages.(Packages.testAmm) "lp_rewards" "LpSharesTransferred"
  | EvLpRewardIndexAdvanced _ => tag packages.(Packages.testAmm) "lp_rewards" "LpRewardIndexAdvanced"
  | EvLpRewardsClaimed _ => tag packages.(Packages.testAmm) "lp_rewards" "LpRewardsClaimed"
  | EvLpRewardQuarantined _ => tag packages.(Packages.testAmm) "lp_rewards" "LpRewardQuarantined"
  | EvLpFractionalResidueRetired _ => tag packages.(Packages.testAmm) "lp_rewards" "LpFractionalResidueRetired"
  | EvLpEpochTerminalDustClassified _ => tag packages.(Packages.testAmm) "lp_rewards" "LpEpochTerminalDustClassified"
  | EvUnknown _ => None
  end.

(** A type tag names a Move type: three parts, the first one spelling of its address. *)
Definition Names (typeTag : string) (type : Address * string * string) : Prop :=
  exists package, splitDoubleColon typeTag = [package; type.1.2; type.2]
    /\ canonicalAddress package = Returns type.1.1.

Lemma isType_true typeTag package module event :
  isType typeTag package module event = Returns true <-> Names typeTag (package, module, event).
Proof.
  unfold isType, Names. cbn. destruct (splitDoubleColon typeTag) as [|p [|m [|e [|]]]]; [naive_solver..| |naive_solver].
  split.
  - intros H. apply outcome_bind_inv in H as (c & Ec & H). injection H as H. bools. subst. by exists p.
  - intros (p' & [= -> -> ->] & Ec). rewrite Ec. cbn. by rewrite !bool_decide_true.
Qed.

Lemma firstMatch_some {A} (cases : list (Outcome bool * Outcome A)) a :
  firstMatch cases = Returns (Some a) -> Exists (fun row => row.1 = Returns true /\ row.2 = Returns a) cases.
Proof.
  induction cases as [|[test result] cases IH]; [done|]. cbn. intros H.
  apply outcome_bind_inv in H as ([] & -> & H); [|by right; apply IH].
  apply outcome_bind_inv in H as (a' & -> & [= ->]). by left.
Qed.

Lemma firstMatch_none {A} (cases : list (Outcome bool * Outcome A)) :
  firstMatch cases = Returns None -> Forall (fun row => row.1 = Returns false) cases.
Proof.
  induction cases as [|[test result] cases IH]; [constructor|]. cbn. intros H.
  apply outcome_bind_inv in H as ([] & -> & H); [by apply outcome_bind_inv in H as (? & _ & ?)|].
  constructor; [done|by apply IH].
Qed.

Lemma exists_forall {A} (P Q : A -> Prop) l : Exists P l -> Forall Q l -> exists x, P x /\ Q x.
Proof. induction 1; inversion 1; eauto. Qed.

Section Dispatch.
Context (decodeUtf8 : list Z -> option string) (packages : Packages.PackageAddresses).

(** The decoder of a row makes the event the row's type tag names. *)
Lemma rows_named envelope data :
  Forall (fun row => forall b, row.1 = Returns true -> row.2 = Returns b ->
      exists type, eventTag packages b = Some type /\ Names envelope.(Envelope.typeTag) type)
    (eventCases decodeUtf8 packages envelope data).
Proof.
  unfold eventCases. repeat (apply List.Forall_cons; [cbn [fst snd]; intros b Ht H|]); [..|apply List.Forall_nil].
  all: apply isType_true in Ht.
  all: match type of H with ?d = _ => let h := head_symbol d in unfold h in H end.
  1, 2: apply outcome_bind_inv in H as (? & _ & H); case_bool_decide; [done|].
  all: repeat (apply outcome_bind_inv in H as (? & _ & H)); injection H as <-; eexists; (split; [reflexivity|exact Ht]).
Qed.

(** Every type of an event has its row. *)
Lemma every_tag_tested envelope data b type :
  eventTag packages b = Some type ->
  Forall (fun row => row.1 = Returns false) (eventCases decodeUtf8 packages envelope data) ->
  ~ Names envelope.(Envelope.typeTag) type.
Proof.
  intros Hb Hf Hn. destruct type as [[package module] event]. apply isType_true in Hn.
  assert (Hin : exists result, In (isType envelope.(Envelope.typeTag) package module event, result)
      (eventCases decodeUtf8 packages envelope data)).
  { unfold eventCases. destruct b; cbn in Hb; try done.
    all: try match type of Hb with context [match ?x with _ => _ end] => destruct x; try done end.
    all: injection Hb as <- <- <-; eexists; repeat first [left; reflexivity|right]. }
  destruct Hin as [result Hin]. rewrite List.Forall_forall in Hf. apply Hf in Hin. cbn in Hin. congruence.
Qed.
End Dispatch.

(** ** Addresses *)

(** A spelling of the address that is the number [n]: one to sixty-four hexadecimal
    digits, after ["0x"] or ["0X"]. *)
Definition AddressSpelling (n : Z) (address : string) : Prop :=
  exists x digits, address = String "0" (String x digits) /\ (x = "x"%char \/ x = "X"%char) /\ HexDigits n digits.

(** The one spelling of it that is kept. *)
Definition CanonicalAddress (n : Z) (address : string) : Prop := exists digits, address = "0x" ⧺ digits /\ CanonicalDigits n digits.

Lemma afterHexPrefix_iff address digits :
  afterHexPrefix address = Some digits <-> exists x, address = String "0" (String x digits) /\ (x = "x"%char \/ x = "X"%char).
Proof.
  unfold afterHexPrefix. split.
  - destruct address as [|z [|x rest]]; [done|by destruct z as [[] [] [] [] [] [] [] []]|]. intros E. exists x.
    assert (z = "0"%char) as -> by (destruct z as [[] [] [] [] [] [] [] []]; done).
    destruct (_ || _) eqn:Ex; [|done]. injection E as ->. split; [done|]. apply orb_true_iff in Ex as [Ex|Ex]; apply bool_decide_eq_true in Ex; auto.
  - intros (x & -> & [->| ->]); reflexivity.
Qed.

Lemma canonicalAddress_spelled n x digits :
  (x = "x"%char \/ x = "X"%char) -> HexDigits n digits ->
  canonicalAddress (String "0" (String x digits)) = Returns ("0x" ⧺ plainDigits digits).
Proof.
  intros Hx [Hc Hl _]. unfold canonicalAddress. rewrite (proj2 (afterHexPrefix_iff _ digits)) by by exists x.
  rewrite Hc, !bool_decide_true by lia. reflexivity.
Qed.

Lemma canonicalAddress_iff address c :
  canonicalAddress address = Returns c <-> exists n, AddressSpelling n address /\ CanonicalAddress n c.
Proof.
  split.
  - intros H. destruct (afterHexPrefix address) as [digits|] eqn:E; [|by unfold canonicalAddress in H; rewrite E in H].
    apply afterHexPrefix_iff in E as (x & -> & Hx).
    assert (Hd : HexDigits (valueIn 16 digits) digits).
    { unfold canonicalAddress in H. rewrite (proj2 (afterHexPrefix_iff _ digits)) in H by by exists x.
      destruct (_ && _) eqn:Ed; [|done]. by bools. }
    rewrite (canonicalAddress_spelled _ _ _ Hx Hd) in H. injection H as <-. exists (valueIn 16 digits). split; [by exists x, digits|].
    exists (plainDigits digits). split; [done|]. by apply plainDigits_canonical.
  - intros (n & (x & digits & -> & Hx & Hd) & (plain & -> & Hp)). rewrite (canonicalAddress_spelled _ _ _ Hx Hd).
    by rewrite (canonicalDigits_unique n (plainDigits digits) plain) by (by apply plainDigits_canonical || done).
Qed.

(** Spellings of one address, and only those, have one canonical form. *)
Lemma canonicalAddress_same n n' address address' :
  AddressSpelling n address -> AddressSpelling n' address' -> canonicalAddress address = canonicalAddress address' <-> n = n'.
Proof.
  intros (x & digits & -> & Hx & Hd) (x' & digits' & -> & Hx' & Hd').
  rewrite (canonicalAddress_spelled _ _ _ Hx Hd), (canonicalAddress_spelled _ _ _ Hx' Hd'), <- (plainDigits_same n n' digits digits') by done.
  split; [by intros [= E]|by intros ->].
Qed.

(** The snapshot guards accept exactly the canonical forms. *)
Lemma isAddress_iff c : isAddress c = true <-> exists n, CanonicalAddress n c.
Proof.
  assert (Hstep : forall d rest, d <> "0"%char ->
    isAddress (String "0" (String "x" (String d rest))) = allChars isLowerHex (String d rest) && bool_decide (jsLength (String d rest) <= 64)).
  { intros d rest Hd. destruct d as [[] [] [] [] [] [] [] []]; try done. }
  split.
  - intros H. unfold isAddress in H. destruct c as [|z [|x digits]]; [done|by destruct z as [[] [] [] [] [] [] [] []]|].
    assert (z = "0"%char) as -> by (destruct z as [[] [] [] [] [] [] [] []]; done).
    assert (x = "x"%char) as -> by (destruct x as [[] [] [] [] [] [] [] []]; done).
    fold (isAddress (String "0" (String "x" digits))) in H. destruct digits as [|d rest]; [done|].
    exists (valueIn 16 (String d rest)), (String d rest). split; [done|]. destruct (decide (d = "0"%char)) as [->|Hd].
    + cbn in H. bools. subst rest. split; [split; [done|done|done]|done|by left].
    + rewrite Hstep in H by done. bools. destruct (lower_fixed (String d rest)) as [Hh _]; [done|].
      split; [split; [done|unfold jsLength in *; cbn [String.length] in *; lia|done]|done|right; by apply noLeadingZero_cons].
  - intros (n & digits & -> & [[_ Hl _] Ha Hz]). destruct digits as [|d rest]; [unfold jsLength in Hl; cbn in Hl; lia|].
    destruct (decide (d = "0"%char)) as [->|Hd]; [destruct Hz as [[= ->]|[]]; done|].
    change (isAddress (String "0" (String "x" (String d rest))) = true). rewrite Hstep, Ha by done. by rewrite bool_decide_true by lia.
Qed.

(** ** Unsigned fields *)

Lemma requiredUnsigned_exact data key bits n :
  requiredBigint data key = Returns n ->
  requiredUnsigned data key bits =
    if decide (fitsUnsigned bits n) then Returns n
    else Throws (fieldError key ("exceeds the Move u" ⧺ show (widthBits bits) ⧺ " domain")).
Proof.
  intros E. unfold requiredUnsigned. rewrite E. cbn. apply requiredBigint_fits in E as [Hn _].
  destruct (decide (fitsUnsigned bits n)) as [Hf|Hf].
  - apply isMoveUnsigned_iff in Hf. unfold isMoveUnsigned in Hf. rewrite bool_decide_false in Hf by lia.
    apply bool_decide_eq_true in Hf. by rewrite bool_decide_false by lia.
  - rewrite bool_decide_true; [done|]. apply Znot_le_gt. intros Hle. apply Hf, isMoveUnsigned_iff.
    unfold isMoveUnsigned. rewrite bool_decide_false by lia. by apply bool_decide_true.
Qed.

(** The three spellings of an unsigned integer: a bigint, a decimal numeral, a safe number. *)
Inductive Spells (n : Z) : JsValue -> Prop :=
| spells_bigint : Spells n (JsBigint n)
| spells_decimal s : DecimalOf n s -> Spells n (JsString s)
| spells_number : 0 <= n <= MAX_SAFE_INTEGER -> Spells n (JsNumber (Some n)).

Lemma fitsUnsigned_widest bits n : fitsUnsigned bits n -> fitsUnsigned U256 n.
Proof. unfold fitsUnsigned. intros [? H]. split; [done|]. eapply Z.lt_le_trans; [exact H|]. by destruct bits. Qed.

Lemma u256_test n : bool_decide (n < 0) || bool_decide (n > MOVE_U256_MAX) = false <-> fitsUnsigned U256 n.
Proof.
  rewrite <- isMoveUnsigned_iff. unfold isMoveUnsigned. change (widthMax U256) with MOVE_U256_MAX.
  repeat case_bool_decide; cbn; split; intros; done || lia.
Qed.

Lemma requiredBigint_iff data key n : requiredBigint data key = Returns n <-> Spells n (property data key) /\ fitsUnsigned U256 n.
Proof.
  unfold requiredBigint. rewrite outcome_bind_iff. split.
  - intros (parsed & E & H). destruct (_ || _) eqn:Hu in H; [done|]. injection H as ->. apply u256_test in Hu. split; [|done].
    destruct (property data key) as [| | |[x|]|x|s| |]; try done.
    + unfold isSafeInteger in E. destruct (_ && _) eqn:Es in E; [|done]. injection E as ->. bools. constructor. lia.
    + injection E as ->. constructor.
    + destruct (parseDecimal 78 s) as [x|] eqn:Ex; [|done]. injection E as ->. constructor. by eapply parseDecimal_decimal.
  - intros [Hs Hn]. exists n. rewrite (proj2 (u256_test n)) by done. split; [|done]. destruct Hs as [|s Hd|Hr]; [done|..].
    + apply decimal_iff in Hd as [_ ->]. destruct (parseDecimal_show 78 n) as [E _]; [lia| |].
      { destruct Hn as [? Hn]. split; [done|]. eapply Z.lt_le_trans; [exact Hn|]. vm_compute. discriminate. }
      change (Z.of_nat 78) with 78 in E. by rewrite E.
    + unfold isSafeInteger. unfold MAX_SAFE_INTEGER in *. by rewrite !bool_decide_true by lia.
Qed.

Lemma requiredUnsigned_iff data key bits n :
  requiredUnsigned data key bits = Returns n <-> Spells n (property data key) /\ fitsUnsigned bits n.
Proof.
  split.
  - intros H. pose proof (requiredUnsigned_fits _ _ _ _ H) as Hf. split; [|done]. unfold requiredUnsigned in H.
    apply outcome_bind_iff in H as (parsed & [Hs _]%requiredBigint_iff & H). case_bool_decide; [done|]. by injection H as ->.
  - intros [Hs Hf]. rewrite (requiredUnsigned_exact _ _ _ n) by (apply requiredBigint_iff; split; [done|by eapply fitsUnsigned_widest]).
    by rewrite decide_True.
Qed.

#[local] Arguments eventCases : simpl never.
#[local] Arguments assertProtocolEventMoveDomains : simpl never.

(** The base of an event passes the replay's checks but for the length of its id. *)
Lemma envelopeBase_domain envelope eventBase :
  envelopeBase envelope = Returns eventBase ->
  assertBase eventBase = Returns tt <-> jsLength eventBase.(Base.id) <= 512.
Proof.
  unfold envelopeBase. intros H. destruct (_ || _) eqn:E; [done|]. injection H as <-. bools.
  unfold assertBase. cbn [Base.id Base.txHash Base.ledgerVersion Base.eventIndex Base.timestampUnixMilliseconds].
  set (id := _ ⧺ ":" ⧺ _).
  assert (Hne : bool_decide (jsLength id = 0) = false).
  { apply bool_decide_false. unfold id, jsLength in *. rewrite !length_append. cbn. lia. }
  assert (Hfits : forall n label, ~ n < 0 -> ~ n > MOVE_U64_MAX -> assertMoveUnsigned n U64 label = Returns tt).
  { intros n label Hn Hm. apply assertMoveUnsigned_ok, isMoveUnsigned_iff. unfold isMoveUnsigned.
    rewrite bool_decide_false by done. apply bool_decide_true. change (widthMax U64) with MOVE_U64_MAX. lia. }
  rewrite Hne. cbn [orb]. rewrite (bool_decide_false (jsLength (Envelope.txHash envelope) = 0)) by done.
  rewrite (bool_decide_false (jsLength (Envelope.txHash envelope) > 512)) by done. cbn [orb mbind outcome_bind].
  rewrite (Hfits _ "event ledger version"), (Hfits _ "event timestamp milliseconds") by done.
  match goal with H : isSafeInteger _ = true |- _ => rewrite H; pose proof H as Hsafe end.
  rewrite (bool_decide_false (Envelope.eventIndex envelope < 0)) by done.
  rewrite (bool_decide_false (Envelope.eventIndex envelope > MOVE_U64_MAX)).
  2:{ unfold isSafeInteger in Hsafe. bools.
      assert (MAX_SAFE_INTEGER <= MOVE_U64_MAX) by (vm_compute; discriminate). lia. }
  clear Hne Hfits. case_bool_decide; cbn; split; try done; intros; exfalso; lia.
Qed.

(** C32. The normalizer is as strict as the replay: an event it returns passes every
    domain check of the reducer, with two exceptions it does not test.  A
    transaction hash of up to 512 characters is accepted, but the event's id is
    the hash with its index and may be longer than the 512 the replay allows;
    and the net input of a sell is the difference of two fields, so it is only
    in its domain when the fee is within the input. *)
Theorem normalize_domains decodeUtf8 packages envelope event :
  normalize decodeUtf8 packages envelope = Returns (Some event) ->
  assertProtocolEventMoveDomains event = Returns tt
  <-> jsLength event.(base).(Base.id) <= 512 /\ FeeWithinInput event.(body).
Proof.
  unfold normalize. intros H. apply outcome_bind_inv in H as (data & _ & H).
  apply outcome_bind_inv in H as (eventBase & Hb & H). apply outcome_bind_inv in H as ([b|] & Hf & H); [|done].
  injection H as <-. cbn [base body].
  destruct (exists_forall _ _ _ (firstMatch_some _ _ Hf) (decoders_in_domain decodeUtf8 packages envelope data))
    as (row & [_ Hrow] & Hdomain). specialize (Hdomain b Hrow).
  destruct (envelopeBase_domain _ _ Hb) as [Hb1 Hb2]. split.
  - intros Hok. assert (Hbase : assertBase eventBase = Returns tt).
    { unfold assertProtocolEventMoveDomains in Hok. by apply outcome_bind_inv in Hok as ([] & ? & _). }
    split; [by apply Hb1|]. by apply (Hdomain eventBase Hbase).
  - intros [Hl Hfee]. by apply (Hdomain eventBase (Hb2 Hl)).
Qed.

Definition samplePackages : Packages.PackageAddresses := Packages.mk "0xcafe" "0xbabe" "0xdead".

(** ASCII text, as the platform decodes it. *)
Definition asciiText (bytes : list Z) : option string :=
  Some (foldr (fun byte text => String (ascii_of_nat (Z.to_nat byte)) text) "" bytes).

Definition sellEnvelope : Envelope.CedraChainEventEnvelope :=
  Envelope.mk "0xDEAD::pool::SwapExecuted"
    (JsObject [("trader", JsString "0x0A11ce"); ("is_sell", JsBoolean true); ("gross_input", JsString "1000");
               ("reflection_fee", JsString "10"); ("amm_fee", JsString "3"); ("gross_output", JsNumber (Some 986));
               ("net_output", JsBigint 986); ("reserve_rfl", JsString "1000990"); ("reserve_usd", JsString "999014")])
    "0xsell" 5 3 5000.

Definition decodedSell : ProtocolEvent :=
  mkEvent (Base.mk "0xsell:3" "0xsell" 5 3 5000 chain)
    (EvSwapExecuted (SwapExecuted.mk "0xa11ce" sell 1000 10 3 990 986 986 1000990 999014)).

Lemma normalize_domains_witness :
  normalize asciiText samplePackages sellEnvelope = Returns (Some decodedSell)
  /\ assertProtocolEventMoveDomains decodedSell = Returns tt.
Proof.
  split; [vm_compute; reflexivity|].
  apply (normalize_domains asciiText samplePackages sellEnvelope decodedSell); [vm_compute; reflexivity|].
  split; vm_compute; discriminate.
Defined.

(** The type tag decides.  An event is only ever made from the Move type that
    is its own, named by any spelling of the address of its package; and [null]
    only stands for a type that is no event's.  Nothing is decoded by luck of the
    shape of its data. *)
Theorem normalize_dispatch decodeUtf8 packages envelope found :
  normalize decodeUtf8 packages envelope = Returns found ->
  match found with
  | Some event => exists type, eventTag packages event.(body) = Some type /\ Names envelope.(Envelope.typeTag) type
  | None => forall b type, eventTag packages b = Some type -> ~ Names envelope.(Envelope.typeTag) type
  end.
Proof.
  unfold normalize. intros H. apply outcome_bind_inv in H as (data & _ & H).
  apply outcome_bind_inv in H as (eventBase & _ & H). apply outcome_bind_inv in H as ([b|] & Hf & H); injection H as <-; cbn.
  - destruct (exists_forall _ _ _ (firstMatch_some _ _ Hf) (rows_named decodeUtf8 packages envelope data))
      as (row & [Ht Hrow] & Hnamed). by apply Hnamed.
  - intros b type Hb. by apply (every_tag_tested decodeUtf8 packages envelope data b type), firstMatch_none.
Qed.

Lemma normalize_dispatch_witness :
  exists type, eventTag samplePackages decodedSell.(body) = Some type /\ Names "0xDEAD::pool::SwapExecuted" type.
Proof. apply (normalize_dispatch asciiText samplePackages sellEnvelope (Some decodedSell)). vm_compute. reflexivity. Defined.

(** C33. The spelling of a field does not matter, and its value is kept.  An
    unsigned field decodes to [n] exactly when it is a spelling of [n], as a
    bigint, a decimal numeral or a safe number, and [n] fits the width asked for;
    where it only fits u256 it is refused by name.  An address decodes exactly
    when it is one to sixty-four hexadecimal digits after a prefix, to the
    canonical digits of the same number; so two spellings, in any letter case and
    with any leading zeros, decode alike if and only if they are of one number.
    The canonical forms are exactly what the snapshot guards accept, and decoding
    one again changes nothing. *)
Theorem chain_fields_roundtrip data key bits n address c :
  (requiredUnsigned data key bits = Returns n <-> Spells n (property data key) /\ fitsUnsigned bits n)
  /\ (Spells n (property data key) -> fitsUnsigned U256 n -> ~ fitsUnsigned bits n ->
      requiredUnsigned data key bits = Throws (fieldError key ("exceeds the Move u" ⧺ show (widthBits bits) ⧺ " domain")))
  /\ (canonicalAddress address = Returns c <-> exists v, AddressSpelling v address /\ CanonicalAddress v c)
  /\ (forall v v' address', AddressSpelling v address -> AddressSpelling v' address' ->
      canonicalAddress address = canonicalAddress address' <-> v = v')
  /\ (isAddress c = true <-> exists v, CanonicalAddress v c)
  /\ (isAddress c = true -> canonicalAddress c = Returns c).
Proof.
  split; [apply requiredUnsigned_iff|]. split.
  { intros Hs Hn Hf. rewrite (requiredUnsigned_exact _ _ _ n) by by apply requiredBigint_iff. by rewrite decide_False. }
  split; [apply canonicalAddress_iff|]. split; [intros v v' address'; apply canonicalAddress_same|]. split; [apply isAddress_iff|].
  intros (v & Hc)%isAddress_iff. apply canonicalAddress_iff. exists v. split; [|done]. destruct Hc as (digits & -> & Hd).
  exists "x"%char, digits. split; [done|]. split; [by left|by apply canonical_hex].
Qed.

Lemma chain_fields_roundtrip_witness :
  requiredUnsigned [("amount", JsString "256")] "amount" U64 = Returns 256
  /\ canonicalAddress "0X00A11CE" = canonicalAddress "0xa11ce" /\ canonicalAddress "0xa11ce" = Returns "0xa11ce".
Proof.
  destruct (chain_fields_roundtrip [("amount", JsString "256")] "amount" U64 256 "0X00A11CE" "0xa11ce") as (Hn & _ & _ & Hsame & Hg & Hc).
  split; [|split].
  - apply Hn. split; [constructor; apply decimal_iff; split; [lia|vm_compute; reflexivity]|by vm_compute].
  - apply (Hsame 659918 659918); [exists "X"%char, "00A11CE"|exists "x"%char, "a11ce"|reflexivity];
      (split; [reflexivity|]; split; [auto|split; [vm_compute; reflexivity|vm_compute; split; intros [=]|vm_compute; reflexivity]]).
  - apply Hc. vm_compute. reflexivity.
Defined.

(** The publisher exclusions of a v0.2 launch cannot be normalized.  The contract
    emits [ProtocolPrimaryStoreExcluded] with an account and a store only; the
    normalizer also asks for [remaining_slots], so it throws on every such event. *)
Theorem publisher_exclusion_rejected decodeUtf8 packages envelope data :
  Names envelope.(Envelope.typeTag) (packages.(Packages.reflectionCore), "reflection_events", "ProtocolPrimaryStoreExcluded") ->
  envelope.(Envelope.data) = JsObject data -> jsGet "remaining_slots" data = None ->
  exists e, normalize decodeUtf8 packages envelope = Throws e.
Proof.
  intros Hn Hd Hslots. destruct (normalize decodeUtf8 packages envelope) as [found|e] eqn:E; [|by exists e].
  exfalso. unfold normalize in E. rewrite Hd in E. cbn [asRecord mbind outcome_bind] in E.
  apply outcome_bind_inv in E as (eventBase & _ & E). apply outcome_bind_inv in E as (b & Hf & _).
  destruct Hn as (package & Hs & Hc). cbn in Hs, Hc.
  unfold eventCases, isType in Hf. rewrite Hs, Hc in Hf. cbn in Hf.
  rewrite (bool_decide_true (packages.(Packages.reflectionCore) = packages.(Packages.reflectionCore))) in Hf by done.
  rewrite (bool_decide_true ("reflection_events" = "reflection_events")) in Hf by done.
  rewrite (bool_decide_false (_ = "ProtocolInitialized")), (bool_decide_false (_ = "TokenCreated")),
    (bool_decide_true ("ProtocolPrimaryStoreExcluded" = "ProtocolPrimaryStoreExcluded")) in Hf by done.
  cbn [andb] in Hf. apply outcome_bind_inv in Hf as (a & Ha & _).
  unfold decodeProtocolPrimaryStoreExcluded in Ha. do 2 apply outcome_bind_inv in Ha as (? & _ & Ha).
  apply outcome_bind_inv in Ha as (n & Hn & _). unfold requiredUnsigned, requiredBigint, property in Hn.
  by rewrite Hslots in Hn.
Qed.

(** As the contract emits it. *)
Definition exclusionEnvelope : Envelope.CedraChainEventEnvelope :=
  Envelope.mk "0xcafe::reflection_events::ProtocolPrimaryStoreExcluded"
    (JsObject [("account", JsString "0xbabe"); ("store", JsString "0x77")]) "0xlaunch" 3 2 3000.

Lemma publisher_exclusion_rejected_witness : exists e, normalize asciiText samplePackages exclusionEnvelope = Throws e.
Proof.
  apply (publisher_exclusion_rejected asciiText samplePackages exclusionEnvelope
    [("account", JsString "0xbabe"); ("store", JsString "0x77")]).
  - exists "0xcafe". split; vm_compute; reflexivity.
  - reflexivity.
  - reflexivity.
Defined.
