(* ===== verification/DurableTheorems.v ===== *)
(** * Theorems on the durable store and the sink of alerts *)
From stdpp Require Import gmap.
From S2P Require Import Prelude JsMap Types MoveDomains JsValue Json Replay Reducer Snapshot SnapshotDecode AlertCodec Store LedgerInvariant.
From S2P Require Import SnapshotRoundTrip AlertCodecSpec Disk FileStore DiskSpec FileStoreSpec DurableHistory.
From S2P Require Import DurableProgress ReducerCorrect ReducerSpec Fixtures ReducerTheorems IndexerTheorems WorkerTheorems.

#[local] Arguments decodeSnapshot : simpl never.
#[local] Arguments encodeSnapshot : simpl never.
#[local] Arguments createEmptyProjection : simpl never.

(** Every store object over those files, of any process, when it loads or lists at all. *)
Definition ReadersSee (segments : list string) (sha256 : string -> string) (numberText : Z -> Z -> string) (manifest : string)
    (files : Files) (latest : option Snap.IndexerSnapshot) (journal : list Alert.CriticalAlert) : Prop :=
  forall os s, HonestFaults os -> StoreIn segments manifest s -> storeFiles s = files ->
    (forall r s', Durable.loadLatestSnapshot os sha256 numberText s = (Returns r, s') -> r = latest)
    /\ (forall r s', Durable.listAlerts os sha256 numberText s = (Returns r, s') -> r = journal).

Lemma shows_readers segments sha256 numberText manifest files latest journal :
  Segments segments -> Digests sha256 -> Shows segments sha256 numberText manifest files latest journal ->
  ReadersSee segments sha256 numberText manifest files latest journal.
Proof.
  intros Hseg Hsha [Hs Hj] os s Hh Hin E. subst files. split.
  - intros r s' H. by apply (load_cases segments Hseg os sha256 numberText manifest Hh Hsha latest) in H as [_ H].
  - intros r s' H. by apply (listAlerts_cases segments Hseg os sha256 numberText manifest Hh Hsha journal) in H as [_ H].
Qed.

(** ** Samples *)

Definition sampleOs (fault : nat -> option JsError) : Os.OperatingSystem :=
  Os.mk fault (fun call => call) (fun _ path => path) false 7 "/home" 18 (fun _ => "2026-01-01T00:00:00.000Z") (fun _ => "ab").

(** The call of that number and all later ones fail: the process died there. *)
Definition diesAt (call : nat) (n : nat) : option JsError :=
  if bool_decide (call <= n)%nat then Some (mkError "Error" "EIO: i/o error") else None.

Lemma sampleOs_honest call : HonestFaults (sampleOs (diesAt call)).
Proof. intros n e. unfold sampleOs, diesAt. cbn. case_bool_decide; [by intros [= <-]|discriminate]. Qed.

Definition sampleSegments : list string := ["home"; "data"].
Definition sampleDigest : string := "0123456789abcdef0123456789abcdef0123456789abcdef0123456789abcdef".
Definition alertOf (id : string) : Alert.CriticalAlert := Alert.mk id critical EVENT_ORDER "late" 5 None (Some "1:0") None.
Definition sampleAlert : Alert.CriticalAlert := alertOf "a1".

Lemma sampleSegments_ok : Segments sampleSegments.
Proof. repeat constructor. Qed.

Definition sampleStore (disk : Dsk.Disk) : Fs.FileIndexerStore :=
  Fs.mk "/home/data/indexer-snapshot.json" "/home/data/critical-alerts.json" "/home/data/indexer-writer.lock" sampleDigest
    None [] 0%nat disk.

Lemma sampleStore_in disk : StoreIn sampleSegments sampleDigest (sampleStore disk).
Proof. by repeat split. Qed.

Definition emptyDisk : Dsk.Disk := Dsk.mk ∅ 0.

Lemma emptyDisk_shows : Shows sampleSegments sampleSha256 sampleNumberText sampleDigest emptyDisk.(Dsk.files) None [].
Proof. split; [done|]. split; [apply journalOk_nil|by left]. Qed.

Lemma sampleAlert_persistable : Persistable sampleAlert.
Proof. split; cbn; try done; by intros ? [= <-]. Qed.

Lemma sampleAlert_safe : IndexesSafe [sampleAlert].
Proof. constructor; [discriminate|constructor]. Qed.

(** ** Histories *)

(** C9. Processes come and go over one directory, each running any program of the
    store's operations while any of its system calls fail, dying anywhere, and
    other files change as they like: the snapshot on disk only moves forward in
    its cursor (or stays in the same state), the journal only grows at its end,
    and whoever reads sees exactly these or an error. *)
Theorem durable_history segments sha256 numberText manifest d d' latest journal :
  Segments segments -> Digests sha256 -> StoreHistory segments sha256 numberText manifest d d' ->
  Shows segments sha256 numberText manifest d.(Dsk.files) latest journal ->
  exists latest' journal',
    Advances sha256 numberText latest latest' /\ journal `prefix_of` journal'
    /\ NoDup (map Alert.id journal')
    /\ Shows segments sha256 numberText manifest d'.(Dsk.files) latest' journal'
    /\ ReadersSee segments sha256 numberText manifest d'.(Dsk.files) latest' journal'.
Proof.
  intros Hseg Hsha Hist Hs. destruct (storeHistory_evolves _ Hseg _ _ _ Hsha _ _ Hist _ _ Hs) as (l & j & Hs' & Ha & Hp).
  exists l, j. split; [exact Ha|]. split; [exact Hp|]. split; [apply Hs'|]. split; [exact Hs'|]. by apply shows_readers.
Qed.

(** A process that dies while the second alert is written. *)
Definition sampleProgram (os : Os.OperatingSystem) : Task Fs.FileIndexerStore unit :=
  Durable.withExclusiveWriter os (fun lease =>
    Durable.appendAlerts os sampleSha256 sampleNumberText [sampleAlert] lease ;;
    Durable.appendAlerts os sampleSha256 sampleNumberText [alertOf "a2"] lease).

Definition sampleEnd : Dsk.Disk := (sampleProgram (sampleOs (diesAt 50)) (sampleStore emptyDisk)).2.(Fs.disk).

Lemma sampleEnd_history : StoreHistory sampleSegments sampleSha256 sampleNumberText sampleDigest emptyDisk sampleEnd.
Proof.
  eapply (store_process _ _ _ _ (sampleOs (diesAt 50)) "data" (sampleProgram (sampleOs (diesAt 50))) emptyDisk (sampleStore emptyDisk));
    [apply sampleOs_honest|reflexivity| |reflexivity|apply surjective_pairing|apply store_now].
  apply program_writer. intros lease. apply program_bind.
  - apply program_append, sampleAlert_safe.
  - intros _. apply program_append. constructor; [discriminate|constructor].
Qed.

Lemma durable_history_witness :
  sampleEnd.(Dsk.files) !! "/home/data/indexer-writer.lock" <> None
  /\ exists latest' journal',
       Advances sampleSha256 sampleNumberText None latest' /\ [] `prefix_of` journal' /\ NoDup (map Alert.id journal')
       /\ Shows sampleSegments sampleSha256 sampleNumberText sampleDigest sampleEnd.(Dsk.files) latest' journal'
       /\ ReadersSee sampleSegments sampleSha256 sampleNumberText sampleDigest sampleEnd.(Dsk.files) latest' journal'.
Proof.
  split; [vm_compute; discriminate|].
  exact (durable_history _ _ _ _ _ _ _ _ sampleSegments_ok sampleSha256_digests sampleEnd_history emptyDisk_shows).
Defined.

(** ** One operation *)

(** C10. [saveSnapshot] is all or nothing, whichever system calls fail: when it
    returns, the lease was the active one, the expected base was the stored
    snapshot, the new snapshot is not behind it, and from then on every reader
    sees exactly the new snapshot; when it throws, every reader sees the old one.
    The journal of alerts stays as it is. *)
Theorem save_all_or_nothing segments os sha256 numberText manifest snapshot lease base latest journal s o s' :
  Segments segments -> HonestFaults os -> Digests sha256 -> StoreIn segments manifest s ->
  Shows segments sha256 numberText manifest (storeFiles s) latest journal ->
  Taken sha256 snapshot -> Reachable snapshot.(Snap.projection) ->
  Durable.saveSnapshot os sha256 numberText snapshot lease base s = (o, s') ->
  let stored := match o with Returns _ => Some snapshot | Throws _ => latest end in
  Shows segments sha256 numberText manifest (storeFiles s') stored journal
  /\ ReadersSee segments sha256 numberText manifest (storeFiles s') stored journal
  /\ (returns o -> s.(Fs.activeLease) = Some lease /\ Snap.id <$> latest = base
                  /\ Advances sha256 numberText latest (Some snapshot)).
Proof.
  intros Hseg Hh Hsha Hin [Hs Hj] Ht Hr H stored.
  destruct (save_cases segments Hseg os sha256 numberText manifest Hh Hsha _ _ _ _ _ _ _ Hin Hs H) as [Hsame Ho].
  assert (Hj' : ShowsJournal segments sha256 manifest ALERTS_NAME MAX_ALERT_BYTES (storeFiles s') journal).
  { eapply showsJournal_same; [|exact Hj]. eapply untouched_same; [apply Hsame|done|apply alerts_not_locked]. }
  assert (Hkeyed : MapsKeyed snapshot.(Snap.projection)) by by apply ledger_keyed, reachable_is_sound.
  assert (Hall : Shows segments sha256 numberText manifest (storeFiles s') stored journal
    /\ (returns o -> s.(Fs.activeLease) = Some lease /\ Snap.id <$> latest = base /\ Advances sha256 numberText latest (Some snapshot))).
  { unfold stored. destruct o as [u|e]; [|split; [by split|intros []; discriminate]].
    destruct Ho as (saved & Hd & Hlease & Hbase & Hf & Hshow). apply decode_encode_returns in Hd as ->; [|done..].
    split; [by split|]. intros _. split; [done|]. split; [done|]. by apply follows_advances. }
  destruct Hall as [Hshow Hret]. split; [exact Hshow|]. split; [by apply shows_readers|exact Hret].
Qed.

Definition leasedStore : Fs.FileIndexerStore := (sampleStore emptyDisk) <| Fs.activeLease := Some 3%nat |>.

(** The process dies at the rename, or right after it. *)
Lemma save_all_or_nothing_witness :
  let run call := Durable.saveSnapshot (sampleOs (diesAt call)) sampleSha256 sampleNumberText sampleSnapshot 3%nat None leasedStore in
  let sees call latest := ReadersSee sampleSegments sampleSha256 sampleNumberText sampleDigest (storeFiles (run call).2) latest [] in
  sees 18%nat None /\ sees 19%nat (Some sampleSnapshot).
Proof.
  intros run sees.
  assert (Hgo : forall call o, (run call).1 = o -> sees call (match o with Returns _ => Some sampleSnapshot | Throws _ => None end)).
  { intros call o E.
    refine (proj1 (proj2 (save_all_or_nothing sampleSegments (sampleOs (diesAt call)) sampleSha256 sampleNumberText sampleDigest
      sampleSnapshot 3%nat None None [] leasedStore o (run call).2 sampleSegments_ok (sampleOs_honest call)
      sampleSha256_digests _ emptyDisk_shows _ sold_reachable _))).
    - repeat split.
    - vm_compute. reflexivity.
    - rewrite <- E. apply surjective_pairing. }
  split.
  - exact (Hgo 18%nat (Throws (mkError "Error" "EIO: i/o error")) ltac:(vm_compute; reflexivity)).
  - exact (Hgo 19%nat (Returns tt) ltac:(vm_compute; reflexivity)).
Defined.

(** C11. [appendAlerts] records all of its alerts or none, whichever system calls
    fail: when it returns, the lease was the active one, every alert can be
    persisted, and every reader sees the journal that recording them gives - the
    alerts with new ids at its end, in order; alerts known by their id only
    differ in their time.  When it throws, readers see the journal as it was.
    The snapshot stays as it is. *)
Theorem append_all_or_nothing segments os sha256 numberText manifest alerts lease latest journal s o s' :
  Segments segments -> HonestFaults os -> Digests sha256 -> StoreIn segments manifest s -> IndexesSafe alerts ->
  Shows segments sha256 numberText manifest (storeFiles s) latest journal ->
  Durable.appendAlerts os sha256 numberText alerts lease s = (o, s') ->
  exists recorded,
    match o with
    | Returns _ => s.(Fs.activeLease) = Some lease /\ Forall Persistable alerts
                   /\ recordAlerts REUSED alerts journal = Returns recorded
                   /\ exists fresh, recorded = journal ++ fresh /\ fresh `sublist_of` alerts
    | Throws _ => recorded = journal
    end
    /\ Shows segments sha256 numberText manifest (storeFiles s') latest recorded
    /\ ReadersSee segments sha256 numberText manifest (storeFiles s') latest recorded.
Proof.
  intros Hseg Hh Hsha Hin Hsafe [Hs Hj] H.
  destruct (append_cases segments Hseg os sha256 numberText manifest Hh Hsha _ _ _ _ _ _ Hin Hsafe Hj H) as [Hsame Ho].
  assert (Hs' : ShowsSnapshot segments sha256 numberText manifest (storeFiles s') latest).
  { eapply showsSnapshot_same; [|exact Hs]. eapply untouched_same; [apply Hsame|done|apply snapshot_not_locked]. }
  destruct o as [u|e].
  - destruct Ho as (Hlease & Hp & recorded & Hr & Hshow). exists recorded.
    destruct (recordAlerts_extends _ _ _ _ (proj1 Hj) Hp Hr) as (_ & fresh & -> & Hf).
    split; [do 3 (split; [done|]); by exists fresh|]. split; [by split|]. apply shows_readers; [done..|by split].
  - exists journal. split; [done|]. split; [by split|]. apply shows_readers; [done..|by split].
Qed.

Lemma append_all_or_nothing_witness :
  let s' := (Durable.appendAlerts (sampleOs (diesAt 100)) sampleSha256 sampleNumberText [sampleAlert; sampleAlert] 3%nat leasedStore).2 in
  ReadersSee sampleSegments sampleSha256 sampleNumberText sampleDigest (storeFiles s') None [sampleAlert].
Proof.
  intros s'.
  assert (Hsafe : IndexesSafe [sampleAlert; sampleAlert]) by (do 2 (constructor; [discriminate|]); constructor).
  destruct (append_all_or_nothing sampleSegments (sampleOs (diesAt 100)) sampleSha256 sampleNumberText sampleDigest
    [sampleAlert; sampleAlert] 3%nat None [] leasedStore (Returns tt) s' sampleSegments_ok (sampleOs_honest 100)
    sampleSha256_digests) as (recorded & (_ & _ & Hr & _) & _ & Hread).
  - repeat split.
  - exact Hsafe.
  - exact emptyDisk_shows.
  - vm_compute. reflexivity.
  - assert (E : recordAlerts REUSED [sampleAlert; sampleAlert] [] = Returns [sampleAlert]) by (vm_compute; reflexivity).
    rewrite E in Hr. injection Hr as <-. exact Hread.
Defined.

(** C26. On a system without faults, over a directory that is there or can be
    made and with the lock and temporary names free, a writer that saves a
    snapshot on the stored base returns, when the snapshot fits and is not behind
    it, and every reader sees the snapshot. *)
Theorem save_returns segments os sha256 numberText manifest snapshot latest journal s :
  Segments segments -> FaultFree segments os -> Digests sha256 -> StoreIn segments manifest s ->
  Creatable segments (storeFiles s) -> Free segments os (storeFiles s) ->
  storeFiles s !! inside segments WRITER_LOCK_NAME = None ->
  Shows segments sha256 numberText manifest (storeFiles s) latest journal ->
  Taken sha256 snapshot -> Reachable snapshot.(Snap.projection) ->
  Follows sha256 numberText latest snapshot ->
  utf8Length (snapshotText sha256 manifest (encodeSnapshot snapshot)) <= MAX_SNAPSHOT_BYTES ->
  exists s',
    Durable.withExclusiveWriter os (fun lease =>
      Durable.saveSnapshot os sha256 numberText snapshot lease (Snap.id <$> latest)) s = (Returns tt, s')
    /\ Shows segments sha256 numberText manifest (storeFiles s') (Some snapshot) journal
    /\ ReadersSee segments sha256 numberText manifest (storeFiles s') (Some snapshot) journal.
Proof.
  intros Hseg Hos Hsha Hin Hc Hfree Hlock [Hs Hj] Ht Hr Hf Hl.
  assert (Hkeyed : MapsKeyed snapshot.(Snap.projection)) by by apply ledger_keyed, reachable_is_sound.
  assert (Hd : decodeSnapshot sha256 numberText (encodeSnapshot snapshot) = Returns snapshot) by by apply decode_encode.
  pose proof (cycle_run segments Hseg os Hos sha256 numberText manifest Hsha snapshot snapshot latest s Hin Hc Hs Hfree Hlock Hd Hl Hf) as Hrun.
  destruct (Durable.withExclusiveWriter _ _ s) as [o s'] eqn:E. cbn [fst] in Hrun. subst o. exists s'. split; [done|].
  apply (writer_cases segments Hseg os manifest) in E as [(e & E & _)|(s1 & o1 & s2 & Hin1 & U1 & _ & _ & _ & Hop & U2 & _ & Ho)];
    [discriminate E| |done]. destruct o1 as [u|e]; [|discriminate Ho].
  assert (Hkeep : forall f f', Untouched segments WriterLock f f' -> SameAt segments SNAPSHOT_NAME f f' /\ SameAt segments ALERTS_NAME f f').
  { intros f f' U. split; (eapply untouched_same; [exact U|done|discriminate]). }
  destruct (Hkeep _ _ U1) as [Hs1 Hj1], (Hkeep _ _ U2) as [Hs2 Hj2].
  apply (save_cases segments Hseg os sha256 numberText manifest (honest segments os Hos) Hsha _ _ _ latest) in Hop as [Hsame Hop];
    [|done|by eapply showsSnapshot_same].
  destruct Hop as (saved & Hsaved & _ & _ & _ & Hshow). rewrite Hd in Hsaved. injection Hsaved as <-.
  assert (Hall : Shows segments sha256 numberText manifest (storeFiles s') (Some snapshot) journal).
  { split; [by eapply showsSnapshot_same|]. eapply showsJournal_same; [exact Hj2|].
    eapply showsJournal_same; [|eapply showsJournal_same; [exact Hj1|exact Hj]]. eapply untouched_same; [apply Hsame|done|apply alerts_not_locked]. }
  split; [exact Hall|]. by apply shows_readers.
Qed.

Definition faultless : Os.OperatingSystem := sampleOs (fun _ => None).

Lemma faultless_free : FaultFree sampleSegments faultless.
Proof. split; [done|by right]. Qed.

Lemma emptyDisk_creatable : Creatable sampleSegments (storeFiles (sampleStore emptyDisk)).
Proof. split; [|by left]. intros above entry _ _. change (storeFiles _ !! _) with (@None Entry). discriminate. Qed.

Lemma emptyDisk_free : Free sampleSegments faultless (storeFiles (sampleStore emptyDisk)).
Proof. split; [done|]. intros call. split; [done|]. vm_compute. reflexivity. Qed.

Lemma save_returns_witness :
  exists s',
    Durable.withExclusiveWriter faultless (fun lease =>
      Durable.saveSnapshot faultless sampleSha256 sampleNumberText sampleSnapshot lease None) (sampleStore emptyDisk) = (Returns tt, s')
    /\ Shows sampleSegments sampleSha256 sampleNumberText sampleDigest (storeFiles s') (Some sampleSnapshot) []
    /\ ReadersSee sampleSegments sampleSha256 sampleNumberText sampleDigest (storeFiles s') (Some sampleSnapshot) [].
Proof.
  refine (save_returns sampleSegments faultless sampleSha256 sampleNumberText sampleDigest sampleSnapshot None [] (sampleStore emptyDisk)
    sampleSegments_ok faultless_free sampleSha256_digests (sampleStore_in emptyDisk) emptyDisk_creatable emptyDisk_free eq_refl
    emptyDisk_shows _ sold_reachable I _).
  - vm_compute. reflexivity.
  - apply Z.leb_le. vm_compute. reflexivity.
Defined.

(** ** The lock and the lease *)

(** C24. One writer at a time, and only its writer writes.  While the lock file
    is there, of another process or left by one that died, [withExclusiveWriter]
    throws without running its callback and changes nothing in the directory (on
    a system without faults, with the error that names the lock).  And once
    [withExclusiveWriter] is over, however it ended, no lease lets anything be
    saved or appended. *)
Theorem writer_exclusive segments os sha256 numberText manifest s :
  Segments segments -> StoreIn segments manifest s ->
  (is_Some (storeFiles s !! inside segments WRITER_LOCK_NAME) ->
   exists e s', (forall T (operation : Lease -> Task Fs.FileIndexerStore T),
                   Durable.withExclusiveWriter os operation s = (Throws e, s'))
     /\ SameStore segments (fun _ => False) s s'
     /\ (FaultFree segments os -> Creatable segments (storeFiles s) ->
         e = ConcurrentDurableWriterError (inside segments WRITER_LOCK_NAME)))
  /\ (s.(Fs.activeLease) = None -> forall T (operation : Lease -> Task Fs.FileIndexerStore T) o s',
       Durable.withExclusiveWriter os operation s = (o, s') ->
       forall snapshot alerts base lease,
         Durable.saveSnapshot os sha256 numberText snapshot lease base s' = (Throws InvalidIndexerWriterLeaseError, s')
         /\ Durable.appendAlerts os sha256 numberText alerts lease s' = (Throws InvalidIndexerWriterLeaseError, s')).
Proof.
  intros Hseg Hin. pose proof Hin as (_ & _ & Hw & _). split.
  - intros Hlock. unfold Durable.withExclusiveWriter.
    destruct (lock_taken segments os Hseg (SameStore segments (fun _ => False)) (fun _ => False) (sameStore_setDisk segments _)
                WRITER_LOCK_NAME eq_refl s Hlock) as (e & s' & Hall & Hsame).
    exists e, s'. split; [|split; [exact Hsame|]].
    + intros T operation. rewrite (task_bind_eq getState _ s s s eq_refl), Hw. apply Hall.
    + intros Hos Hc. by eapply lock_taken_error.
  - intros Hidle T operation o s' H.
    assert (Hnone : s'.(Fs.activeLease) = None).
    { apply (writer_cases segments Hseg os manifest) in H as [(e & _ & [-> _])|(s1 & o1 & s2 & H)]; [done| |done]. apply H. }
    intros snapshot alerts base lease. unfold Durable.saveSnapshot, Durable.appendAlerts.
    assert (E : Durable.assertActiveLease lease s' = (Throws InvalidIndexerWriterLeaseError, s')).
    { unfold Durable.assertActiveLease, getState, unlessThrow, mbind, task_bind. by rewrite Hnone. }
    split; by apply task_bind_throws.
Qed.

(** Another process holds the lock. *)
Definition lockedStore : Fs.FileIndexerStore :=
  sampleStore (Dsk.mk {[ "/home" := Folder 493; "/home/data" := Folder 448; "/home/data/indexer-writer.lock" := RegularFile "" 384 ]} 0).

Lemma writer_exclusive_witness :
  let s := lockedStore in
  (exists e s', (forall T (operation : Lease -> Task Fs.FileIndexerStore T),
                   Durable.withExclusiveWriter faultless operation s = (Throws e, s'))
     /\ SameStore sampleSegments (fun _ => False) s s'
     /\ (FaultFree sampleSegments faultless -> Creatable sampleSegments (storeFiles s) ->
         e = ConcurrentDurableWriterError (inside sampleSegments WRITER_LOCK_NAME)))
  /\ Durable.saveSnapshot faultless sampleSha256 sampleNumberText sampleSnapshot 0%nat None
       (Durable.withExclusiveWriter faultless (fun _ => mret tt) (sampleStore emptyDisk)).2
     = (Throws InvalidIndexerWriterLeaseError, (Durable.withExclusiveWriter faultless (fun _ => mret tt) (sampleStore emptyDisk)).2).
Proof.
  split.
  - apply (writer_exclusive sampleSegments faultless sampleSha256 sampleNumberText sampleDigest lockedStore sampleSegments_ok
             (sampleStore_in _)). by eexists.
  - apply (proj2 (writer_exclusive sampleSegments faultless sampleSha256 sampleNumberText sampleDigest (sampleStore emptyDisk)
             sampleSegments_ok (sampleStore_in _)) eq_refl unit (fun _ => mret tt) _ _ (surjective_pairing _) sampleSnapshot [] None 0%nat).
Defined.

(** ** Delivered alerts *)

(** C25. Deliveries are kept once each, whichever system calls fail: when
    [deliver] returns, the file holds one alert of that id, the new one at its
    end or an earlier one that only differs in its time, and everything it held
    before; when it throws, the file holds what it held.  [listDelivered] answers
    exactly that or throws. *)
Theorem delivered_once segments os sha256 numberText manifest name alert journal d o d' :
  Segments segments -> HonestFaults os -> Digests sha256 -> isSegment name = true -> IndexesSafe [alert] ->
  ShowsJournal segments sha256 manifest name MAX_DELIVERED_ALERT_BYTES d.(Dsk.files) journal ->
  Sink.deliver os sha256 numberText (sinkIn segments manifest name) alert d = (o, d') ->
  exists recorded,
    ShowsJournal segments sha256 manifest name MAX_DELIVERED_ALERT_BYTES d'.(Dsk.files) recorded
    /\ NoDup (map Alert.id recorded)
    /\ match o with
       | Returns _ =>
           Persistable alert
           /\ ((recorded = journal ++ [alert] /\ alert.(Alert.id) ∉ map Alert.id journal)
               \/ (recorded = journal /\ exists prior, prior ∈ journal /\ equivalentCriticalAlert prior alert = true))
       | Throws _ => recorded = journal
       end
    /\ forall os2 d2 r d3, HonestFaults os2 -> d2.(Dsk.files) = d'.(Dsk.files) ->
         Sink.listDelivered os2 sha256 numberText (sinkIn segments manifest name) d2 = (Returns r, d3) -> r = recorded.
Proof.
  intros Hseg Hh Hsha Hname Hsafe Hs H.
  destruct (deliver_cases segments Hseg os sha256 numberText manifest Hh Hsha name Hname _ _ _ _ _ Hsafe Hs H) as [_ Ho].
  assert (Hread : forall recorded, ShowsJournal segments sha256 manifest name MAX_DELIVERED_ALERT_BYTES d'.(Dsk.files) recorded ->
    forall os2 d2 r d3, HonestFaults os2 -> d2.(Dsk.files) = d'.(Dsk.files) ->
      Sink.listDelivered os2 sha256 numberText (sinkIn segments manifest name) d2 = (Returns r, d3) -> r = recorded).
  { intros recorded Hr os2 d2 r d3 Hh2 E Hl. rewrite <- E in Hr.
    by apply (sink_load_cases segments Hseg os2 sha256 numberText manifest Hh2 Hsha name Hname recorded) in Hl as [_ Hl]. }
  destruct o as [u|e].
  - destruct Ho as (Hp & recorded & Hr & Hshow). exists recorded. split; [exact Hshow|]. split; [apply Hshow|].
    split; [|by apply Hread]. split; [exact Hp|]. cbn [recordAlerts] in Hr.
    destruct (arrayFind _ journal) as [prior|] eqn:Efind.
    + destruct (equivalentCriticalAlert prior alert) eqn:Heq; [|discriminate]. injection Hr as <-. right. split; [done|].
      exists prior. split; [|done]. by apply arrayFind_some in Efind as [Hin _].
    + injection Hr as <-. left. split; [done|]. by apply find_id_none.
  - exists journal. split; [exact Ho|]. split; [apply Ho|]. split; [done|by apply Hread].
Qed.

Lemma emptyDisk_delivered : ShowsJournal sampleSegments sampleSha256 sampleDigest "delivered.json" MAX_DELIVERED_ALERT_BYTES emptyDisk.(Dsk.files) [].
Proof. split; [apply journalOk_nil|by left]. Qed.

Lemma delivered_once_witness :
  let d' := (Sink.deliver faultless sampleSha256 sampleNumberText (sinkIn sampleSegments sampleDigest "delivered.json") sampleAlert emptyDisk).2 in
  ShowsJournal sampleSegments sampleSha256 sampleDigest "delivered.json" MAX_DELIVERED_ALERT_BYTES d'.(Dsk.files) [sampleAlert].
Proof.
  intros d'.
  destruct (delivered_once sampleSegments faultless sampleSha256 sampleNumberText sampleDigest "delivered.json" sampleAlert [] emptyDisk
    (Returns tt) d' sampleSegments_ok (honest _ _ faultless_free) sampleSha256_digests eq_refl sampleAlert_safe emptyDisk_delivered)
    as (recorded & Hs & _ & (_ & [[-> _]|(_ & prior & Hin & _)]) & _); [vm_compute; reflexivity|exact Hs|].
  by apply elem_of_nil in Hin.
Defined.

(** ** The alert codec *)

(** C27. An alert is written exactly when it can be persisted - a bounded
    non-empty id and message, severity critical, a time and a cursor from zero
    on, bounded values - and what is written reads back as that alert; only such
    alerts are ever read, from any text. *)
Theorem alert_codec_exact numberText alert text :
  IndexesSafe [alert] ->
  (encodeCriticalAlert numberText alert = Returns text <-> Persistable alert /\ text = alertText alert)
  /\ (encodeCriticalAlert numberText alert = Returns text -> decodeCriticalAlert numberText text = Returns alert)
  /\ (forall other decoded, decodeCriticalAlert numberText other = Returns decoded -> Persistable decoded).
Proof.
  intros Hs. assert (Hsafe : forall cursor, alert.(Alert.cursor) = Some cursor -> isSafeInteger cursor.(Cursor.eventIndex) = true)
    by by inversion Hs.
  split; [by apply encodeCriticalAlert_returns|]. split.
  - intros [Hp ->]%encodeCriticalAlert_returns; [|done]. by apply decode_alertText.
  - intros other decoded. apply decode_persistable.
Qed.

Lemma alert_codec_exact_witness :
  decodeCriticalAlert sampleNumberText (alertText sampleAlert) = Returns sampleAlert.
Proof.
  apply (alert_codec_exact sampleNumberText sampleAlert (alertText sampleAlert) sampleAlert_safe). vm_compute. reflexivity.
Defined.
