(* ===== verification/ReleaseClient.v ===== *)
(** * The release client: [packages/protocol-sdk/src/cedra-release-client.ts]

    It builds a transaction through the official SDK from a request that leaves
    nothing to discover, compares what came back with the request, and simulates
    only the transaction that was reviewed.  The SDK is a parameter: its objects
    are types, their methods functions, and a client answers out of a world of
    its own.  A value the code tests at run time ([instanceof], [Array.isArray],
    [typeof ... === "object"]) is an [option]: [None] is anything that fails. *)
From Stdlib Require Import Strings.Byte.
From S2P Require Import Prelude JsMap Types MoveDomains JsValue Json SdkTypes.

Definition MAX_U64 : Z := 2 ^ 64 - 1.

(** ** The official SDK *)

Class SdkObjects := {
  AccountAddress : Type;
  TypeTag : Type;
  SdkArgument : Type;      (* an argument of an entry function *)
  SdkPayload : Type;       (* a payload that is no entry function *)
  PublicKey : Type;
  SimulationResponses : Type
}.

Module Sdk.
Section Objects.
Context `{SdkObjects}.

Record EntryFunction := mkEntry {
  module_address : AccountAddress;      (* [module_name.address] *)
  module_identifier : string;           (* [module_name.name.identifier] *)
  function_identifier : string;         (* [function_name.identifier] *)
  type_args : list TypeTag;
  args : list SdkArgument
}.

Inductive TransactionPayload :=
| TransactionPayloadEntryFunction (entryFunction : EntryFunction)
| OtherPayload (payload : SdkPayload).

Record RawTransaction := mkRaw {
  sender : AccountAddress;
  sequence_number : Z;
  payload : TransactionPayload;
  max_gas_amount : Z;
  gas_unit_price : Z;
  expiration_timestamp_secs : Z;
  chainId : JsValue;                    (* [chain_id.chainId] *)
  fa_address : TypeTag
}.

(** What a build may answer: its declared class, or any other object. *)
Inductive SdkTransaction :=
| SimpleTransaction (rawTransaction : RawTransaction) (feePayerAddress : option AccountAddress)
| MultiAgentTransaction (rawTransaction : RawTransaction) (secondarySignerAddresses : list AccountAddress)
    (feePayerAddress : option AccountAddress)
| OtherTransaction.

Record EntryFunctionABI := mkAbi {
  signers : JsValue;                    (* how many *)
  typeParameters : option (list JsValue);
  parameters : option (list TypeTag)
}.

Inductive TypeArgument :=
| TypeText (text : string)
| TypeObject (tag : option TypeTag).    (* [instanceof TypeTag] *)

Record InputEntryFunctionData := mkData {
  function : JsValue;
  typeArguments : option (option (list TypeArgument));   (* [None] is [undefined] or [null] *)
  functionArguments : option (list SdkArgument);
  abi : option EntryFunctionABI
}.

Record ExplicitReleaseTransactionOptions := mkOptions {
  accountSequenceNumber : JsValue;
  maxGasAmount : JsValue;
  gasUnitPrice : JsValue;
  expireTimestamp : JsValue;
  faAddress : option (option TypeTag)   (* [None] is [undefined] *)
}.
End Objects.
End Sdk.

Module Build.
Record BuildArguments `{SdkObjects} := mk {
  sender : JsValue;
  secondarySignerAddresses : list JsValue;
  data : Sdk.InputEntryFunctionData;
  options : Sdk.ExplicitReleaseTransactionOptions;
  withFeePayer : bool
}.
End Build.
Arguments Build.mk {_}.

Class CedraSdk `{SdkObjects} := {
  accountFromString : string -> option AccountAddress;    (* with [maxMissingChars: 63]; [None] when it throws *)
  isZeroAccount : AccountAddress -> bool;                 (* [equals(AccountAddress.ZERO)] *)
  toStringLong : AccountAddress -> string;
  parseTypeTag : string -> Outcome TypeTag;
  typeTagText : TypeTag -> string;                        (* [toString()] *)
  CEDRA_COIN : string;
  rawBcs : Sdk.RawTransaction -> Outcome (list byte);         (* [bcsToBytes()] *)
  transactionBcs : Sdk.SdkTransaction -> Outcome (list byte);
  payloadBcs : Sdk.TransactionPayload -> Outcome (list byte);
  generateSigningMessageForTransaction : Sdk.SdkTransaction -> Outcome (list byte);
  generateTransactionPayloadWithABI : Sdk.InputEntryFunctionData -> Outcome Sdk.TransactionPayload
}.

(** [Cedra]: the client of the SDK that is injected. *)
Class Cedra (W : Type) `{SdkObjects} := {
  buildMulti : Build.BuildArguments -> Task W Sdk.SdkTransaction;
  buildSimple : Build.BuildArguments -> Task W Sdk.SdkTransaction;
  simulateMulti : Sdk.SdkTransaction -> PublicKey -> list PublicKey -> Task W SimulationResponses;
  simulateSimple : Sdk.SdkTransaction -> PublicKey -> Task W SimulationResponses
}.

(** ** Requests and identities *)

Inductive TransactionType := single_signer | multi_agent.
#[export] Instance transactionType_eq_dec : EqDecision TransactionType.
Proof. solve_decision. Defined.

Module TxIdentity.
Record ReleaseTransactionIdentity := mk {
  transactionType : TransactionType;
  senderAddress : string;
  secondarySignerAddresses : list string;
  feePayerAddress : option string;
  sequenceNumber : string;
  maxGasAmount : string;
  gasUnitPrice : string;
  expirationTimestampSeconds : string;
  chainId : Z;
  fungibleAssetGasType : string;
  rawTransactionBcsHex : string;
  rawTransactionSha256 : string;
  transactionBcsHex : string;
  transactionSha256 : string;
  signingMessageHex : string;
  signingMessageSha256 : string
}.
End TxIdentity.

Module MultiRequest.
Record MultiAgentEntryRequest `{SdkObjects} := mk {
  senderAddress : JsValue;
  secondarySignerAddresses : option (list JsValue);
  data : option Sdk.InputEntryFunctionData;
  options : option Sdk.ExplicitReleaseTransactionOptions
}.
End MultiRequest.

Module SingleRequest.
Record SingleSignerEntryRequest `{SdkObjects} := mk {
  senderAddress : JsValue;
  data : option Sdk.InputEntryFunctionData;
  options : option Sdk.ExplicitReleaseTransactionOptions
}.
End SingleRequest.

Module Simulation.
Record MultiAgentSimulationRequest `{SdkObjects} := mkMulti {
  transaction : Sdk.SdkTransaction;
  expectedIdentity : TxIdentity.ReleaseTransactionIdentity;
  senderPublicKey : PublicKey;
  secondarySignerPublicKeys : list PublicKey
}.
Record SingleSignerSimulationRequest `{SdkObjects} := mkSingle {
  singleTransaction : Sdk.SdkTransaction;
  singleExpectedIdentity : TxIdentity.ReleaseTransactionIdentity;
  singlePublicKey : PublicKey
}.
Record SimulationResult `{SdkObjects} := mkResult {
  identity : TxIdentity.ReleaseTransactionIdentity;
  responses : SimulationResponses
}.
End Simulation.
Arguments Simulation.mkMulti {_}.
Arguments Simulation.mkSingle {_}.
Arguments Simulation.mkResult {_}.

(** ** Bytes *)

Definition hexByte (b : byte) : string :=
  let n := Byte.to_nat b in String (hexDigit (Nat.div n 16)) (String (hexDigit (Nat.modulo n 16)) "").

Fixpoint hexText (bytes : list byte) : string :=
  match bytes with
  | [] => ""
  | b :: rest => hexByte b ⧺ hexText rest
  end.
Definition bytesToHex (bytes : list byte) : string := "0x" ⧺ hexText bytes.

Definition CedraReleaseTransactionMismatchError (detail : string) : JsError :=
  mkError "CedraReleaseTransactionMismatchError"
    ("Cedra SDK returned a transaction that differs from the explicit release request: " ⧺ detail).

Definition signersError (expectedSigners : Z) : JsError :=
  TypeError ("Release ABI must declare exactly " ⧺ show expectedSigners ⧺ " ordered signer(s).").

Definition missingAbi {A} : Outcome A :=
  Throws (TypeError "Release entries require an explicit local ABI; remote ABI discovery is forbidden.").

Section Client.
Context `{Sdk : CedraSdk}.
Context (sha256 : list byte -> string) (describe : JsValue -> string).

Definition CedraReleaseChainIdMismatchError (observed : JsValue) : JsError :=
  mkError "CedraReleaseChainIdMismatchError"
    ("Release transactions must use Cedra Testnet chain " ⧺ show CEDRA_TESTNET_CHAIN_ID ⧺ "; observed " ⧺ describe observed).

(** ** The identity of a transaction *)

Definition isTestnetChain (chainId : JsValue) : bool :=
  match chainId with JsNumber (Some n) => bool_decide (n = CEDRA_TESTNET_CHAIN_ID) | _ => false end.

Definition describeTransaction (transaction : Sdk.SdkTransaction) (raw : Sdk.RawTransaction) (feePayer : option AccountAddress)
    (transactionType : TransactionType) (secondary : list string) : Outcome TxIdentity.ReleaseTransactionIdentity :=
  if isTestnetChain raw.(Sdk.chainId) then
    rawBytes ← rawBcs raw;
    transactionBytes ← transactionBcs transaction;
    signingMessage ← generateSigningMessageForTransaction transaction;
    Returns (TxIdentity.mk transactionType (toStringLong raw.(Sdk.sender)) secondary (toStringLong <$> feePayer)
               (show raw.(Sdk.sequence_number)) (show raw.(Sdk.max_gas_amount)) (show raw.(Sdk.gas_unit_price))
               (show raw.(Sdk.expiration_timestamp_secs)) CEDRA_TESTNET_CHAIN_ID (typeTagText raw.(Sdk.fa_address))
               (bytesToHex rawBytes) (sha256 rawBytes) (bytesToHex transactionBytes) (sha256 transactionBytes)
               (bytesToHex signingMessage) (sha256 signingMessage))
  else Throws (CedraReleaseChainIdMismatchError raw.(Sdk.chainId)).

Definition describeMultiAgentTransaction (transaction : Sdk.SdkTransaction) : Outcome TxIdentity.ReleaseTransactionIdentity :=
  match transaction with
  | Sdk.MultiAgentTransaction raw secondary feePayer =>
      describeTransaction transaction raw feePayer multi_agent (map toStringLong secondary)
  | _ => Throws (TypeError "Expected a Cedra MultiAgentTransaction instance")
  end.

Definition describeSingleSignerTransaction (transaction : Sdk.SdkTransaction) : Outcome TxIdentity.ReleaseTransactionIdentity :=
  match transaction with
  | Sdk.SimpleTransaction raw feePayer => describeTransaction transaction raw feePayer single_signer []
  | _ => Throws (TypeError "Expected a Cedra SimpleTransaction instance")
  end.
Definition identitiesMatch (expected observed : TxIdentity.ReleaseTransactionIdentity) : bool :=
  let same {A} `{EqDecision A} (field : TxIdentity.ReleaseTransactionIdentity -> A) := bool_decide (field expected = field observed) in
  same TxIdentity.transactionType && same TxIdentity.senderAddress && same TxIdentity.secondarySignerAddresses
  && same TxIdentity.feePayerAddress && same TxIdentity.sequenceNumber && same TxIdentity.maxGasAmount
  && same TxIdentity.gasUnitPrice && same TxIdentity.expirationTimestampSeconds && same TxIdentity.chainId
  && same TxIdentity.fungibleAssetGasType && same TxIdentity.rawTransactionBcsHex && same TxIdentity.rawTransactionSha256
  && same TxIdentity.transactionBcsHex && same TxIdentity.transactionSha256 && same TxIdentity.signingMessageHex
  && same TxIdentity.signingMessageSha256.

(** ** Validation of a request *)

Definition canonicalNonzeroAddress (value : JsValue) (label : string) : Outcome string :=
  match value with
  | JsString text =>
      match accountFromString text with
      | Some parsed =>
          if isZeroAccount parsed then Throws (TypeError (label ⧺ " cannot be the zero address."))
          else Returns (toStringLong parsed)
      | None => Throws (TypeError (label ⧺ " must be a valid hexadecimal account address string."))
      end
  | _ => Throws (TypeError (label ⧺ " must be a hexadecimal account address string."))
  end.

(** [secondary.map((address, index) => canonicalNonzeroAddress(...))], counted from [index]. *)
Fixpoint canonicalSecondary (index : Z) (addresses : list JsValue) : Outcome (list string) :=
  match addresses with
  | [] => Returns []
  | address :: rest =>
      canonical ← canonicalNonzeroAddress address ("secondary signer address " ⧺ show index);
      others ← canonicalSecondary (index + 1) rest; Returns (canonical :: others)
  end.

Definition explicitSequenceNumber (value : JsValue) : Outcome Z :=
  match value with
  | JsNumber (Some n) =>
      if isSafeInteger n then Returns n
      else Throws (RangeError "Account sequence number must be an exact unsigned u64 integer.")
  | JsNumber None => Throws (RangeError "Account sequence number must be an exact unsigned u64 integer.")
  | JsBigint n => Returns n
  | _ => Throws (TypeError "Account sequence number must be a bigint or safe integer number.")
  end.

(** [Array.isArray(data.typeArguments ?? [])] *)
Definition typeArgumentList (data : Sdk.InputEntryFunctionData) : option (list Sdk.TypeArgument) :=
  match data.(Sdk.typeArguments) with
  | None => Some []
  | Some items => items
  end.

Definition unorderedArguments : JsError := TypeError "Release entry-function arguments must be ordered arrays.".

(** The data, an object with a local ABI of that many signers and ordered arguments. *)
Definition assertLocalReleaseAbi (data : option Sdk.InputEntryFunctionData) (expectedSigners : Z)
    : Outcome Sdk.InputEntryFunctionData :=
  data ← from_option Returns missingAbi data;
  abi ← from_option Returns missingAbi data.(Sdk.abi);
  match abi.(Sdk.typeParameters), abi.(Sdk.parameters) with
  | Some _, Some _ =>
      (match abi.(Sdk.signers) with
       | JsNumber (Some n) => if isSafeInteger n && bool_decide (n = expectedSigners) then Returns tt else Throws (signersError expectedSigners)
       | _ => Throws (signersError expectedSigners)
       end) ≫= fun _ =>
      match data.(Sdk.functionArguments), typeArgumentList data with
      | Some _, Some _ => Returns data
      | _, _ => Throws unorderedArguments
      end
  | _, _ => missingAbi
  end.

Definition assertDistinctSignerAddresses (sender : JsValue) (secondary : option (list JsValue)) (requireSecondarySigner : bool)
    : Outcome (list JsValue) :=
  secondary ← from_option Returns (Throws (TypeError "Secondary signer addresses must be an ordered array.")) secondary;
  (if requireSecondarySigner && bool_decide (secondary = [])
   then Throws (mkError "Error" "A multi-agent operation requires at least one secondary signer.") else Returns tt) ≫= fun _ =>
  first ← canonicalNonzeroAddress sender "release sender address";
  others ← canonicalSecondary 0 secondary;
  if hasUnique (first :: others) then Returns secondary
  else Throws (mkError "Error" "Every multi-agent signer must have a distinct canonical address.").

(** [!Number.isSafeInteger(value) || value < 1] *)
Definition assertPositiveSafe (label : string) (value : JsValue) : Outcome unit :=
  match value with
  | JsNumber (Some n) =>
      if isSafeInteger n && bool_decide (1 <= n) then Returns tt
      else Throws (RangeError (label ⧺ " must be an explicit safe unsigned integer greater than zero."))
  | _ => Throws (RangeError (label ⧺ " must be an explicit safe unsigned integer greater than zero."))
  end.

(** The options, an object. *)
Definition assertExplicitOptions (options : option Sdk.ExplicitReleaseTransactionOptions)
    : Outcome Sdk.ExplicitReleaseTransactionOptions :=
  options ← from_option Returns (Throws (TypeError "Explicit release transaction options are required.")) options;
  sequenceNumber ← explicitSequenceNumber options.(Sdk.accountSequenceNumber);
  (if bool_decide (sequenceNumber < 0) || bool_decide (sequenceNumber > MAX_U64)
   then Throws (RangeError "Account sequence number must be an unsigned u64 integer.") else Returns tt) ≫= fun _ =>
  assertPositiveSafe "maximum gas amount" options.(Sdk.maxGasAmount) ≫= fun _ =>
  assertPositiveSafe "gas unit price" options.(Sdk.gasUnitPrice) ≫= fun _ =>
  assertPositiveSafe "expiration timestamp" options.(Sdk.expireTimestamp) ≫= fun _ =>
  match options.(Sdk.faAddress) with
  | Some None => Throws (TypeError "Fungible-asset gas type must be an official Cedra TypeTag instance.")
  | _ => Returns options
  end.

(** ** What was built, against the request *)

(** [transaction.rawTransaction]; the description before it has refused any object without one. *)
Definition rawTransaction (transaction : Sdk.SdkTransaction) : option Sdk.RawTransaction :=
  match transaction with
  | Sdk.SimpleTransaction raw _ | Sdk.MultiAgentTransaction raw _ _ => Some raw
  | Sdk.OtherTransaction => None
  end.
Definition withRaw (transaction : Sdk.SdkTransaction) (check : Sdk.RawTransaction -> Outcome unit) : Outcome unit :=
  from_option check (Returns tt) (rawTransaction transaction).

(** The labels of the tests that fail, and the error that lists them. *)
Definition mismatches (tests : list (bool * string)) : list string := map snd (List.filter (fun test => test.1) tests).
Definition assertNoMismatch (tests : list (bool * string)) : Outcome unit :=
  if bool_decide (mismatches tests = []) then Returns tt
  else Throws (CedraReleaseTransactionMismatchError (joinWith ", " (mismatches tests))).

(** [value.toString()] *)
Definition numberToString (value : JsValue) : string :=
  match value with
  | JsNumber (Some n) => if isSafeInteger n then show n else describe value
  | _ => describe value
  end.

Definition assertBuiltTransactionMatchesRequest (identity : TxIdentity.ReleaseTransactionIdentity) (sender : JsValue)
    (secondary : list JsValue) (options : Sdk.ExplicitReleaseTransactionOptions) : Outcome unit :=
  expectedSender ← canonicalNonzeroAddress sender "release sender address";
  expectedSecondary ← canonicalSecondary 0 secondary;
  expectedTag ← match options.(Sdk.faAddress) with
                | Some (Some tag) => Returns tag
                | _ => parseTypeTag CEDRA_COIN
                end;
  sequenceNumber ← explicitSequenceNumber options.(Sdk.accountSequenceNumber);
  assertNoMismatch
    [(bool_decide (identity.(TxIdentity.senderAddress) <> expectedSender), "sender address");
     (bool_decide (identity.(TxIdentity.secondarySignerAddresses) <> expectedSecondary), "ordered secondary signer addresses");
     (bool_decide (identity.(TxIdentity.feePayerAddress) <> None), "unexpected fee payer");
     (bool_decide (identity.(TxIdentity.sequenceNumber) <> show sequenceNumber), "account sequence number");
     (bool_decide (identity.(TxIdentity.maxGasAmount) <> numberToString options.(Sdk.maxGasAmount)), "maximum gas amount");
     (bool_decide (identity.(TxIdentity.gasUnitPrice) <> numberToString options.(Sdk.gasUnitPrice)), "gas unit price");
     (bool_decide (identity.(TxIdentity.expirationTimestampSeconds) <> numberToString options.(Sdk.expireTimestamp)), "expiration timestamp");
     (bool_decide (identity.(TxIdentity.fungibleAssetGasType) <> typeTagText expectedTag), "gas asset type")].

Definition expectedTypeArgument (argument : Sdk.TypeArgument) : Outcome string :=
  match argument with
  | Sdk.TypeText text => tag ← parseTypeTag text; Returns (typeTagText tag)
  | Sdk.TypeObject (Some tag) => Returns (typeTagText tag)
  | Sdk.TypeObject None => Throws (TypeError "Release type arguments must be strings or official Cedra TypeTag instances.")
  end.

(** [address::module::function] *)
Definition entryParts (function : JsValue) : Outcome (string * string * string) :=
  match function with
  | JsString text =>
      match splitDoubleColon text with
      | [address; moduleName; functionName] =>
          if bool_decide (address = "") || bool_decide (moduleName = "") || bool_decide (functionName = "")
          then Throws (TypeError "Release entry function must be address::module::function.")
          else Returns (address, moduleName, functionName)
      | _ => Throws (TypeError "Release entry function must be address::module::function.")
      end
  | _ => Throws (TypeError "Release entry function must be a fully qualified string.")
  end.

Definition assertBuiltPayloadMatchesRequest (raw : Sdk.RawTransaction) (data : Sdk.InputEntryFunctionData) : Outcome unit :=
  match raw.(Sdk.payload) with
  | Sdk.OtherPayload _ => Throws (CedraReleaseTransactionMismatchError "payload is not an entry function")
  | Sdk.TransactionPayloadEntryFunction entry =>
      '(address, moduleName, functionName) ← entryParts data.(Sdk.function);
      moduleAddress ← canonicalNonzeroAddress (JsString address) "entry-function module address";
      match data.(Sdk.functionArguments), typeArgumentList data with
      | Some arguments, Some typeArguments =>
          expectedTypeArguments ← mapM expectedTypeArgument typeArguments;
          expected ← generateTransactionPayloadWithABI data;
          expectedBytes ← payloadBcs expected;
          observedBytes ← payloadBcs raw.(Sdk.payload);
          assertNoMismatch
            [(bool_decide (toStringLong entry.(Sdk.module_address) <> moduleAddress), "entry-function module address");
             (bool_decide (entry.(Sdk.module_identifier) <> moduleName), "entry-function module name");
             (bool_decide (entry.(Sdk.function_identifier) <> functionName), "entry-function name");
             (bool_decide (arrayLength entry.(Sdk.args) <> arrayLength arguments), "entry-function argument count");
             (bool_decide (map typeTagText entry.(Sdk.type_args) <> expectedTypeArguments), "entry-function type arguments");
             (bool_decide (bytesToHex expectedBytes <> bytesToHex observedBytes), "entry-function payload BCS")]
      | _, _ => Throws unorderedArguments
      end
  end.

(** ** [CedraReleaseClient] *)

Context {W : Type} `{!Cedra W}.

Definition buildMultiAgent (request : MultiRequest.MultiAgentEntryRequest) : Task W Sdk.SdkTransaction :=
  secondary ← evaluate (assertDistinctSignerAddresses request.(MultiRequest.senderAddress)
                          request.(MultiRequest.secondarySignerAddresses) true);
  options ← evaluate (assertExplicitOptions request.(MultiRequest.options));
  data ← evaluate (assertLocalReleaseAbi request.(MultiRequest.data) (1 + arrayLength secondary));
  transaction ← buildMulti (Build.mk request.(MultiRequest.senderAddress) secondary data options false);
  identity ← evaluate (describeMultiAgentTransaction transaction);
  evaluate (withRaw transaction (fun raw => assertBuiltPayloadMatchesRequest raw data)) ;;
  evaluate (assertBuiltTransactionMatchesRequest identity request.(MultiRequest.senderAddress) secondary options) ;;
  mret transaction.

Definition buildSingleSigner (request : SingleRequest.SingleSignerEntryRequest) : Task W Sdk.SdkTransaction :=
  evaluate (assertDistinctSignerAddresses request.(SingleRequest.senderAddress) (Some []) false) ;;
  options ← evaluate (assertExplicitOptions request.(SingleRequest.options));
  data ← evaluate (assertLocalReleaseAbi request.(SingleRequest.data) 1);
  transaction ← buildSimple (Build.mk request.(SingleRequest.senderAddress) [] data options false);
  identity ← evaluate (describeSingleSignerTransaction transaction);
  evaluate (withRaw transaction (fun raw => assertBuiltPayloadMatchesRequest raw data)) ;;
  evaluate (assertBuiltTransactionMatchesRequest identity request.(SingleRequest.senderAddress) [] options) ;;
  mret transaction.

Definition simulateMultiAgent (request : Simulation.MultiAgentSimulationRequest) : Task W Simulation.SimulationResult :=
  let transaction := request.(Simulation.transaction) in
  let keys := request.(Simulation.secondarySignerPublicKeys) in
  identity ← evaluate (describeMultiAgentTransaction transaction);
  unlessThrow (identitiesMatch request.(Simulation.expectedIdentity) identity)
    (mkError "Error" "The transaction presented for simulation differs from the reviewed BCS/signing identity.") ;;
  unlessThrow (bool_decide (arrayLength keys = arrayLength identity.(TxIdentity.secondarySignerAddresses)))
    (mkError "Error" "Every ordered secondary signer address requires exactly one matching public key.") ;;
  responses ← simulateMulti transaction request.(Simulation.senderPublicKey) keys;
  mret (Simulation.mkResult identity responses).

Definition simulateSingleSigner (request : Simulation.SingleSignerSimulationRequest) : Task W Simulation.SimulationResult :=
  let transaction := request.(Simulation.singleTransaction) in
  identity ← evaluate (describeSingleSignerTransaction transaction);
  unlessThrow (identitiesMatch request.(Simulation.singleExpectedIdentity) identity)
    (mkError "Error" "The single-signer transaction differs from the reviewed BCS/signing identity.") ;;
  responses ← simulateSimple transaction request.(Simulation.singlePublicKey);
  mret (Simulation.mkResult identity responses).
End Client.
