(* ===== verification/ReleaseSpec.v ===== *)
(** * What the release client accepts

    The code's checks compare strings it derived from the request and from the
    transaction; here the same is said of the request and the transaction
    themselves ([Admissible], [Carries]), and shown to be exactly what the checks
    let through. *)
From Stdlib Require Import Strings.Byte.
From S2P Require Import Prelude JsMap Types MoveDomains JsValue Json SdkTypes Numerals CursorRoundTrip ClientSpec ReleaseClient.

(** ** Hexadecimal text identifies bytes *)

Lemma hexByte_decodes b rest :
  hexBytes (hexByte b ⧺ rest) = (bytes ← hexBytes rest; Some (Z.of_nat (Byte.to_nat b) :: bytes)).
Proof. by destruct b. Qed.

Lemma hexText_decodes bytes : hexBytes (hexText bytes) = Some (map (fun b => Z.of_nat (Byte.to_nat b)) bytes).
Proof. induction bytes as [|b bytes IH]; [done|]. cbn [hexText map]. by rewrite hexByte_decodes, IH. Qed.

Lemma bytesToHex_inj bytes bytes' : bytesToHex bytes = bytesToHex bytes' -> bytes = bytes'.
Proof.
  intros Et. apply (append_inj "0x") in Et.
  apply (f_equal hexBytes) in Et. rewrite !hexText_decodes in Et. injection Et as E.
  apply (list_fmap_eq_inj (fun b => Z.of_nat (Byte.to_nat b))); [|exact E]. intros b b' Hb. assert (Hn : Byte.to_nat b = Byte.to_nat b') by lia.
  apply (f_equal Byte.of_nat) in Hn. rewrite !Byte.of_to_nat in Hn. by injection Hn.
Qed.

(** ** The checks of a request *)

Lemma task_bind_iff {S A B} (m : Task S A) (k : A -> Task S B) s b s' :
  (m ≫= k) s = (Returns b, s') <-> exists a s1, m s = (Returns a, s1) /\ k a s1 = (Returns b, s').
Proof. split; [apply task_bind_inv|]. intros (a & s1 & E & Ek). by rewrite (task_bind_eq _ _ _ _ _ E). Qed.

Lemma evaluate_iff {S A} (o : Outcome A) (s : S) a s' : evaluate o s = (Returns a, s') <-> o = Returns a /\ s' = s.
Proof. unfold evaluate. split; [by intros [= -> ->]|by intros [-> ->]]. Qed.

Section Checks.
Context `{CedraSdk} (sha256 : list byte -> string) (describe : JsValue -> string).

(** A value that spells a non-zero account; [long] is its canonical text. *)
Definition NonzeroAccount (value : JsValue) (long : string) : Prop :=
  exists text account, value = JsString text /\ accountFromString text = Some account
    /\ isZeroAccount account = false /\ long = toStringLong account.

Lemma canonicalNonzeroAddress_returns value label long :
  canonicalNonzeroAddress value label = Returns long <-> NonzeroAccount value long.
Proof.
  unfold canonicalNonzeroAddress, NonzeroAccount. split.
  - destruct value as [| | | | |text| |]; try discriminate. destruct (accountFromString text) as [account|] eqn:E; [|discriminate].
    destruct (isZeroAccount account) eqn:Ez; [discriminate|]. intros [= <-]. by exists text, account.
  - intros (text & account & -> & -> & -> & ->). done.
Qed.

Lemma canonicalSecondary_returns index values longs :
  canonicalSecondary index values = Returns longs <-> Forall2 NonzeroAccount values longs.
Proof.
  revert index longs. induction values as [|value values IH]; intros index longs; cbn [canonicalSecondary].
  - split; [intros [= <-]; constructor|]. by inversion 1.
  - rewrite outcome_bind_iff. setoid_rewrite outcome_bind_iff. split.
    + intros (long & E1%canonicalNonzeroAddress_returns & others & E2%IH & [= <-]). by constructor.
    + inversion 1 as [|? long ? others E1 E2]; subst. exists long. split; [by apply canonicalNonzeroAddress_returns|].
      exists others. split; [by apply IH|done].
Qed.

Lemma nonzeroAccount_unique value long long' : NonzeroAccount value long -> NonzeroAccount value long' -> long = long'.
Proof. intros (text & account & -> & E & _ & ->) (text' & account' & [= <-] & E' & _ & ->). congruence. Qed.

(** An exact integer, as a number or as a bigint. *)
Definition Exact (value : JsValue) (n : Z) : Prop :=
  value = JsBigint n \/ (value = JsNumber (Some n) /\ isSafeInteger n = true).

Lemma explicitSequenceNumber_returns value n : explicitSequenceNumber value = Returns n <-> Exact value n.
Proof.
  unfold explicitSequenceNumber, Exact. split.
  - destruct value as [| | |[m|]|m| | |]; try discriminate; [|intros [= <-]; by left].
    destruct (isSafeInteger m) eqn:E; [|discriminate]. intros [= <-]. by right.
  - by intros [->|[-> ->]].
Qed.

(** A number from 1 on that is exact. *)
Definition PositiveSafe (value : JsValue) (n : Z) : Prop := value = JsNumber (Some n) /\ 1 <= n <= MAX_SAFE_INTEGER.

Lemma positiveSafe_number value n : PositiveSafe value n -> numberToString describe value = show n.
Proof. intros [-> Hn]. cbn. unfold isSafeInteger, MAX_SAFE_INTEGER in *. by rewrite !bool_decide_true by lia. Qed.

Lemma assertPositiveSafe_returns label value : assertPositiveSafe label value = Returns tt <-> exists n, PositiveSafe value n.
Proof.
  unfold assertPositiveSafe, PositiveSafe. split.
  - destruct value as [| | |[n|]| | | |]; try discriminate. destruct (_ && _) eqn:E; [|discriminate]. intros _. exists n.
    unfold isSafeInteger in E. bools. done.
  - intros (n & -> & Hn). unfold isSafeInteger. by rewrite !bool_decide_true by (unfold MAX_SAFE_INTEGER in *; lia).
Qed.

(** ** Admissible requests *)

(** What a transaction of [number] signers may be asked for. *)
Record Admissible (sender : JsValue) (secondary : list JsValue) (options : Sdk.ExplicitReleaseTransactionOptions)
    (data : Sdk.InputEntryFunctionData) : Prop := {
  admissible_signers : exists longs, Forall2 NonzeroAccount (sender :: secondary) longs /\ NoDup longs;
  admissible_sequence : exists n, Exact options.(Sdk.accountSequenceNumber) n /\ 0 <= n <= MAX_U64;
  admissible_gas : exists n, PositiveSafe options.(Sdk.maxGasAmount) n;
  admissible_price : exists n, PositiveSafe options.(Sdk.gasUnitPrice) n;
  admissible_expiry : exists n, PositiveSafe options.(Sdk.expireTimestamp) n;
  admissible_asset : options.(Sdk.faAddress) <> Some None;
  admissible_abi : exists abi, data.(Sdk.abi) = Some abi
    /\ is_Some abi.(Sdk.typeParameters) /\ is_Some abi.(Sdk.parameters)
    /\ abi.(Sdk.signers) = JsNumber (Some (1 + arrayLength secondary))
    /\ isSafeInteger (1 + arrayLength secondary) = true;
  admissible_arguments : is_Some data.(Sdk.functionArguments) /\ is_Some (typeArgumentList data)
}.

Lemma from_option_returns {A} (o : option A) e a : from_option Returns (Throws e) o = Returns a <-> o = Some a.
Proof. destruct o; cbn; [|done]. split; [by intros [= ->]|by intros [= ->]]. Qed.

Lemma assertDistinctSignerAddresses_returns sender secondary required values :
  assertDistinctSignerAddresses sender secondary required = Returns values <->
  secondary = Some values /\ (required = true -> values <> [])
  /\ exists longs, Forall2 NonzeroAccount (sender :: values) longs /\ NoDup longs.
Proof.
  unfold assertDistinctSignerAddresses. rewrite outcome_bind_iff. setoid_rewrite from_option_returns. split.
  - intros (values' & -> & E). apply outcome_bind_iff in E as ([] & Er & E).
    apply outcome_bind_iff in E as (long & E1%canonicalNonzeroAddress_returns & E).
    apply outcome_bind_iff in E as (longs & E2%canonicalSecondary_returns & E).
    unfold hasUnique in E. case_bool_decide as Hnd; [|discriminate]. injection E as <-. split; [done|]. split.
    + intros ->. rewrite andb_true_l in Er. by case_bool_decide.
    + exists (long :: longs). split; [by constructor|done].
  - intros (-> & Hr & longs & Hl & Hnd). exists values. split; [done|]. inversion Hl as [|? long ? others H1 H2]; subst.
    apply outcome_bind_iff. exists tt. split.
    { destruct required; [|done]. rewrite andb_true_l, bool_decide_false; [done|]. by apply Hr. }
    apply outcome_bind_iff. exists long. split; [by apply canonicalNonzeroAddress_returns|].
    apply outcome_bind_iff. exists others. split; [by apply canonicalSecondary_returns|].
    unfold hasUnique. by rewrite bool_decide_true.
Qed.

Lemma assertExplicitOptions_returns given options :
  assertExplicitOptions given = Returns options <->
  given = Some options /\ (exists n, Exact options.(Sdk.accountSequenceNumber) n /\ 0 <= n <= MAX_U64)
  /\ (exists n, PositiveSafe options.(Sdk.maxGasAmount) n) /\ (exists n, PositiveSafe options.(Sdk.gasUnitPrice) n)
  /\ (exists n, PositiveSafe options.(Sdk.expireTimestamp) n) /\ options.(Sdk.faAddress) <> Some None.
Proof.
  unfold assertExplicitOptions. rewrite outcome_bind_iff. setoid_rewrite from_option_returns. split.
  - intros (options' & -> & E). apply outcome_bind_iff in E as (n & En%explicitSequenceNumber_returns & E).
    apply outcome_bind_iff in E as ([] & Er & E). apply check_returns in Er. bools.
    apply outcome_bind_iff in E as ([] & E1%assertPositiveSafe_returns & E).
    apply outcome_bind_iff in E as ([] & E2%assertPositiveSafe_returns & E).
    apply outcome_bind_iff in E as ([] & E3%assertPositiveSafe_returns & E).
    destruct (Sdk.faAddress options') as [[tag|]|] eqn:Ef; [|discriminate|]; injection E as <-; rewrite Ef;
      (split; [done|]; split; [exists n; split; [done|lia]|done]).
  - intros (-> & (n & En & Hn) & E1 & E2 & E3 & Ef). exists options. split; [done|].
    apply outcome_bind_iff. exists n. split; [by apply explicitSequenceNumber_returns|].
    apply outcome_bind_iff. exists tt. split; [rewrite !bool_decide_false by lia; done|].
    do 3 (apply outcome_bind_iff; exists tt; split; [by apply assertPositiveSafe_returns|]).
    by destruct (Sdk.faAddress options) as [[tag|]|].
Qed.

Lemma assertLocalReleaseAbi_returns given signers data :
  assertLocalReleaseAbi given signers = Returns data <->
  given = Some data
  /\ (exists abi, data.(Sdk.abi) = Some abi /\ is_Some abi.(Sdk.typeParameters) /\ is_Some abi.(Sdk.parameters)
        /\ abi.(Sdk.signers) = JsNumber (Some signers) /\ isSafeInteger signers = true)
  /\ is_Some data.(Sdk.functionArguments) /\ is_Some (typeArgumentList data).
Proof.
  unfold assertLocalReleaseAbi. rewrite outcome_bind_iff. setoid_rewrite from_option_returns. split.
  - intros (data' & -> & E). apply outcome_bind_iff in E as (abi & Ea%from_option_returns & E).
    destruct (Sdk.typeParameters abi) eqn:Et; [|discriminate]. destruct (Sdk.parameters abi) eqn:Ep; [|discriminate].
    apply outcome_bind_iff in E as ([] & Es & E).
    destruct (Sdk.signers abi) as [| | |[n|]| | | |] eqn:En; try discriminate. destruct (_ && _) eqn:Eb in Es; [|discriminate].
    bools. subst n. destruct (Sdk.functionArguments data') eqn:E1; [|discriminate]. destruct (typeArgumentList data') eqn:E2; [|discriminate].
    injection E as <-. split; [done|]. rewrite E1, E2. split; [|by split; eexists].
    exists abi. rewrite Et, Ep. split; [done|]. split; [by eexists|]. split; [by eexists|done].
  - intros (-> & (abi & Ea & [tp Et] & [ps Ep] & Es & Hs) & [fa Ef] & [ta Eta]). exists data. split; [done|].
    apply outcome_bind_iff. exists abi. split; [by apply from_option_returns|]. rewrite Et, Ep, Es, Hs, Ef, Eta.
    rewrite bool_decide_true by done. done.
Qed.

(** ** What a transaction carries *)

(** The gas asset of the options. *)
Definition GasAsset (options : Sdk.ExplicitReleaseTransactionOptions) (text : string) : Prop :=
  exists tag, match options.(Sdk.faAddress) with
              | Some (Some given) => tag = given
              | _ => parseTypeTag CEDRA_COIN = Returns tag
              end /\ text = typeTagText tag.

(** The call [data] names, with the bytes its local ABI gives. *)
Definition PayloadOf (data : Sdk.InputEntryFunctionData) (payload : Sdk.TransactionPayload) : Prop :=
  exists entry text address arguments typeArguments,
    payload = Sdk.TransactionPayloadEntryFunction entry
    /\ data.(Sdk.function) = JsString text
    /\ splitDoubleColon text = [address; entry.(Sdk.module_identifier); entry.(Sdk.function_identifier)]
    /\ address <> "" /\ entry.(Sdk.module_identifier) <> "" /\ entry.(Sdk.function_identifier) <> ""
    /\ NonzeroAccount (JsString address) (toStringLong entry.(Sdk.module_address))
    /\ data.(Sdk.functionArguments) = Some arguments /\ length entry.(Sdk.args) = length arguments
    /\ typeArgumentList data = Some typeArguments
    /\ mapM expectedTypeArgument typeArguments = Returns (map typeTagText entry.(Sdk.type_args))
    /\ exists expected bytes, generateTransactionPayloadWithABI data = Returns expected
         /\ payloadBcs expected = Returns bytes /\ payloadBcs payload = Returns bytes.

Lemma assertNoMismatch_returns tests : assertNoMismatch tests = Returns tt <-> Forall (fun test => test.1 = false) tests.
Proof.
  unfold assertNoMismatch. assert (Hiff : mismatches tests = [] <-> Forall (fun test => test.1 = false) tests).
  { unfold mismatches. induction tests as [|[[] label] tests IH]; cbn; rewrite ?Forall_cons_iff; cbn; [split; [constructor|done]| |].
    - split; [discriminate|by intros []].
    - rewrite IH. split; [done|by intros []]. }
  case_bool_decide as E; rewrite Hiff in E; by split.
Qed.

Lemma bool_decide_ne_false {A} `{EqDecision A} (x y : A) : bool_decide (x <> y) = false <-> x = y.
Proof. rewrite bool_decide_eq_false. split; [by intros ?%dec_stable|intros -> Hn; by apply Hn]. Qed.

Lemma entryParts_returns function address moduleName functionName :
  entryParts function = Returns (address, moduleName, functionName) <->
  exists text, function = JsString text /\ splitDoubleColon text = [address; moduleName; functionName]
    /\ address <> "" /\ moduleName <> "" /\ functionName <> "".
Proof.
  unfold entryParts. split.
  - destruct function as [| | | | |text| |]; try discriminate. destruct (splitDoubleColon text) as [|a [|m [|f []]]] eqn:E; try discriminate.
    destruct (_ || _) eqn:Eb; [discriminate|]. bools. intros [= <- <- <-]. by exists text.
  - intros (text & -> & -> & Ha & Hm & Hf). by rewrite !bool_decide_false.
Qed.

Lemma assertBuiltPayloadMatchesRequest_returns raw data :
  assertBuiltPayloadMatchesRequest raw data = Returns tt <-> PayloadOf data raw.(Sdk.payload).
Proof.
  unfold assertBuiltPayloadMatchesRequest, PayloadOf. destruct (Sdk.payload raw) as [entry|other]; [|split; [discriminate|]].
  2: { by intros (? & ? & ? & ? & ? & ? & _). }
  split.
  - intros E. apply outcome_bind_iff in E as ([[address moduleName] functionName] & (text & Ef & Es & Ha & Hm & Hn)%entryParts_returns & E).
    apply outcome_bind_iff in E as (moduleAddress & Em%canonicalNonzeroAddress_returns & E).
    destruct (Sdk.functionArguments data) as [arguments|]; [|discriminate]. destruct (typeArgumentList data) as [typeArguments|]; [|discriminate].
    apply outcome_bind_iff in E as (tags & Et & E). apply outcome_bind_iff in E as (expected & Eg & E).
    apply outcome_bind_iff in E as (b1 & E1 & E). apply outcome_bind_iff in E as (b2 & E2 & E).
    apply assertNoMismatch_returns in E. rewrite !Forall_cons_iff in E. cbn [fst] in E. rewrite !bool_decide_ne_false in E.
    destruct E as (<- & <- & <- & El & <- & <-%bytesToHex_inj & _).
    exists entry, text, address, arguments, typeArguments. do 8 (split; [done|]). split; [unfold arrayLength in El; lia|].
    do 2 (split; [done|]). by exists expected, b1.
  - intros (entry' & text & address & arguments & typeArguments & [= <-] & Ef & Es & Ha & Hm & Hn & Ea & -> & El & -> & Et & expected & bytes & Eg & E1 & E2).
    apply outcome_bind_iff. exists (address, Sdk.module_identifier entry, Sdk.function_identifier entry).
    split; [apply entryParts_returns; by exists text|]. cbn beta iota.
    apply outcome_bind_iff. exists (toStringLong (Sdk.module_address entry)). split; [by apply canonicalNonzeroAddress_returns|].
    rewrite Et, Eg. cbn [mbind outcome_bind]. rewrite E1, E2. cbn [mbind outcome_bind].
    apply assertNoMismatch_returns. rewrite !Forall_cons_iff. cbn [fst]. rewrite !bool_decide_ne_false.
    unfold arrayLength. rewrite El. by repeat split.
Qed.

(** The identity of a transaction with those bytes. *)
Definition identityOf (raw : Sdk.RawTransaction) (feePayer : option AccountAddress) (transactionType : TransactionType)
    (secondary : list string) (rawBytes transactionBytes signingMessage : list byte) : TxIdentity.ReleaseTransactionIdentity :=
  TxIdentity.mk transactionType (toStringLong raw.(Sdk.sender)) secondary (toStringLong <$> feePayer)
    (show raw.(Sdk.sequence_number)) (show raw.(Sdk.max_gas_amount)) (show raw.(Sdk.gas_unit_price))
    (show raw.(Sdk.expiration_timestamp_secs)) CEDRA_TESTNET_CHAIN_ID (typeTagText raw.(Sdk.fa_address))
    (bytesToHex rawBytes) (sha256 rawBytes) (bytesToHex transactionBytes) (sha256 transactionBytes)
    (bytesToHex signingMessage) (sha256 signingMessage).

(** The three texts of a transaction that are reviewed. *)
Definition Encoded (transaction : Sdk.SdkTransaction) (raw : Sdk.RawTransaction) (rawBytes transactionBytes signingMessage : list byte) : Prop :=
  rawBcs raw = Returns rawBytes /\ transactionBcs transaction = Returns transactionBytes
  /\ generateSigningMessageForTransaction transaction = Returns signingMessage.

Lemma isTestnetChain_spec value : isTestnetChain value = true <-> value = JsNumber (Some CEDRA_TESTNET_CHAIN_ID).
Proof.
  split; [|by intros ->]. destruct value as [| | |[n|]| | | |]; try discriminate. cbn. by case_bool_decide as E; [subst n|].
Qed.

Lemma describeTransaction_returns transaction raw feePayer transactionType secondary identity :
  describeTransaction sha256 describe transaction raw feePayer transactionType secondary = Returns identity <->
  raw.(Sdk.chainId) = JsNumber (Some CEDRA_TESTNET_CHAIN_ID)
  /\ exists b1 b2 b3, Encoded transaction raw b1 b2 b3 /\ identity = identityOf raw feePayer transactionType secondary b1 b2 b3.
Proof.
  unfold describeTransaction. rewrite <- isTestnetChain_spec. destruct (isTestnetChain _); [|by split; [|intros []]].
  split.
  - intros (b1 & E1 & E)%outcome_bind_iff. apply outcome_bind_iff in E as (b2 & E2 & E).
    apply outcome_bind_iff in E as (b3 & E3 & [= <-]). split; [done|]. by exists b1, b2, b3.
  - intros (_ & b1 & b2 & b3 & (E1 & E2 & E3) & ->). by rewrite E1, E2, E3.
Qed.

(** The transaction is the one the options, the sender and the ordered secondary signers ask for. *)
Record Carries (sender : JsValue) (secondary : list JsValue) (options : Sdk.ExplicitReleaseTransactionOptions)
    (raw : Sdk.RawTransaction) (cosigners : list AccountAddress) (feePayer : option AccountAddress) : Prop := {
  carries_signers : Forall2 NonzeroAccount (sender :: secondary) (toStringLong raw.(Sdk.sender) :: map toStringLong cosigners);
  carries_feePayer : feePayer = None;
  carries_sequence : Exact options.(Sdk.accountSequenceNumber) raw.(Sdk.sequence_number);
  carries_gas : PositiveSafe options.(Sdk.maxGasAmount) raw.(Sdk.max_gas_amount);
  carries_price : PositiveSafe options.(Sdk.gasUnitPrice) raw.(Sdk.gas_unit_price);
  carries_expiry : PositiveSafe options.(Sdk.expireTimestamp) raw.(Sdk.expiration_timestamp_secs);
  carries_asset : GasAsset options (typeTagText raw.(Sdk.fa_address))
}.

Lemma positiveSafe_shown value n m : PositiveSafe value n -> show m = numberToString describe value <-> PositiveSafe value m.
Proof.
  intros Hn. rewrite (positiveSafe_number _ _ Hn). split; [by intros ->%show_inj|].
  intros [E _]. destruct Hn as [E' _]. congruence.
Qed.

Lemma exact_unique value n m : Exact value n -> Exact value m -> n = m.
Proof. intros [->|[-> _]] [E|[E _]]; congruence. Qed.

Lemma gasAsset_tag options text :
  GasAsset options text <->
  exists tag, match options.(Sdk.faAddress) with Some (Some tag) => Returns tag | _ => parseTypeTag CEDRA_COIN end = Returns tag
    /\ text = typeTagText tag.
Proof.
  unfold GasAsset. split; intros (tag & E & ->); exists tag; (split; [|done]);
    destruct (Sdk.faAddress options) as [[given|]|]; try done; [by subst|by injection E].
Qed.

Lemma assertBuiltTransactionMatchesRequest_returns sender secondary options raw cosigners feePayer transactionType b1 b2 b3 :
  (exists n, PositiveSafe options.(Sdk.maxGasAmount) n) -> (exists n, PositiveSafe options.(Sdk.gasUnitPrice) n) ->
  (exists n, PositiveSafe options.(Sdk.expireTimestamp) n) ->
  assertBuiltTransactionMatchesRequest describe (identityOf raw feePayer transactionType (map toStringLong cosigners) b1 b2 b3)
    sender secondary options = Returns tt
  <-> Carries sender secondary options raw cosigners feePayer.
Proof.
  intros [g Hg] [p Hp] [x Hx]. unfold assertBuiltTransactionMatchesRequest. split.
  - intros (first & E1%canonicalNonzeroAddress_returns & E)%outcome_bind_iff.
    apply outcome_bind_iff in E as (others & E2%canonicalSecondary_returns & E).
    apply outcome_bind_iff in E as (tag & Et & E). apply outcome_bind_iff in E as (n & En%explicitSequenceNumber_returns & E).
    apply assertNoMismatch_returns in E. rewrite !Forall_cons_iff in E. cbn [fst identityOf TxIdentity.senderAddress
      TxIdentity.secondarySignerAddresses TxIdentity.feePayerAddress TxIdentity.sequenceNumber TxIdentity.maxGasAmount
      TxIdentity.gasUnitPrice TxIdentity.expirationTimestampSeconds TxIdentity.fungibleAssetGasType] in E.
    rewrite !bool_decide_ne_false in E. destruct E as (<- & <- & Ef & <-%show_inj & E5 & E6 & E7 & E8 & _).
    split; [by constructor|by destruct feePayer|done| | | |apply gasAsset_tag; by exists tag];
      (eapply positiveSafe_shown; [|eassumption]); eassumption.
  - intros [Hs -> Hn Hg' Hp' Hx' (tag & Et & Ef)%gasAsset_tag]. inversion Hs as [|? ? ? ? H1 H2]; subst.
    apply outcome_bind_iff. eexists. split; [by apply canonicalNonzeroAddress_returns|].
    apply outcome_bind_iff. eexists. split; [by apply canonicalSecondary_returns|].
    apply outcome_bind_iff. eexists. split; [exact Et|].
    apply outcome_bind_iff. eexists. split; [by apply explicitSequenceNumber_returns|].
    apply assertNoMismatch_returns. rewrite !Forall_cons_iff. cbn [fst identityOf TxIdentity.senderAddress
      TxIdentity.secondarySignerAddresses TxIdentity.feePayerAddress TxIdentity.sequenceNumber TxIdentity.maxGasAmount
      TxIdentity.gasUnitPrice TxIdentity.expirationTimestampSeconds TxIdentity.fungibleAssetGasType].
    rewrite !bool_decide_ne_false. repeat split; try done; by eapply positiveSafe_shown.
Qed.
End Checks.
