(* ===== verification/ReleaseTheorems.v ===== *)
(** * Theorems on the release client *)
From Stdlib Require Import Strings.Byte.
From S2P Require Import Prelude JsMap Types MoveDomains JsValue Json SdkTypes Numerals CursorRoundTrip ReleaseClient ReleaseSpec.

Section Release.
Context `{CedraSdk} (sha256 : list byte -> string) (describe : JsValue -> string) {W : Type} `{!Cedra W}.

Lemma identitiesMatch_spec expected observed : identitiesMatch expected observed = true <-> expected = observed.
Proof.
  unfold identitiesMatch. split; [|intros ->; by rewrite !bool_decide_true].
  destruct expected, observed. cbn. intros E. bools. by subst.
Qed.

(** ** What a build returns *)

(** [t], built on chain 2 for those signers, is what the request asks for, and has bytes to review. *)
Definition BuiltAs (sender : JsValue) (secondary : list JsValue) (options : Sdk.ExplicitReleaseTransactionOptions)
    (data : Sdk.InputEntryFunctionData) (t : Sdk.SdkTransaction) (raw : Sdk.RawTransaction) (cosigners : list AccountAddress)
    (feePayer : option AccountAddress) : Prop :=
  raw.(Sdk.chainId) = JsNumber (Some CEDRA_TESTNET_CHAIN_ID)
  /\ Carries sender secondary options raw cosigners feePayer
  /\ PayloadOf data raw.(Sdk.payload)
  /\ exists b1 b2 b3, Encoded t raw b1 b2 b3.

(** The checks after the build. *)
Lemma built_checks t raw cosigners feePayer transactionType sender secondary options data (w w' : W) :
  Admissible sender secondary options data ->
  rawTransaction t = Some raw ->
  (identity ← evaluate (describeTransaction sha256 describe t raw feePayer transactionType (map toStringLong cosigners));
   evaluate (withRaw t (fun raw => assertBuiltPayloadMatchesRequest raw data)) ;;
   evaluate (assertBuiltTransactionMatchesRequest describe identity sender secondary options) ;;
   mret t) w = (Returns t, w')
  <-> w' = w /\ BuiltAs sender secondary options data t raw cosigners feePayer.
Proof.
  intros Ha Hw. rewrite task_bind_iff. setoid_rewrite evaluate_iff. unfold withRaw. rewrite Hw. unfold BuiltAs. cbn [from_option]. split.
  - intros (identity & s & [(Hc & b1 & b2 & b3 & He & ->)%describeTransaction_returns ->] & E).
    apply task_bind_iff in E as ([] & s & [Hp%assertBuiltPayloadMatchesRequest_returns ->]%evaluate_iff & E).
    apply task_bind_iff in E as ([] & s & [Hm ->]%evaluate_iff & [= ->]).
    apply assertBuiltTransactionMatchesRequest_returns in Hm; [|apply Ha..].
    do 4 (split; [done|]). by exists b1, b2, b3.
  - intros (-> & Hc & Hm & Hp & b1 & b2 & b3 & He). eexists _, w. split.
    { split; [|done]. apply describeTransaction_returns. split; [done|]. by exists b1, b2, b3. }
    apply task_bind_iff. exists tt, w. split; [apply evaluate_iff; split; [by apply assertBuiltPayloadMatchesRequest_returns|done]|].
    apply task_bind_iff. exists tt, w. split; [apply evaluate_iff; split; [|done]|done].
    by apply assertBuiltTransactionMatchesRequest_returns; [apply Ha..|].
Qed.

(** The checks before the build. *)
Lemma request_checks {A} sender secondaryGiven required optionsGiven dataGiven (count : list JsValue -> Z)
    (k : list JsValue -> Sdk.ExplicitReleaseTransactionOptions -> Sdk.InputEntryFunctionData -> Task W A) (w : W) a w' :
  (forall secondary, secondaryGiven = Some secondary -> count secondary = 1 + arrayLength secondary) ->
  (secondary ← evaluate (assertDistinctSignerAddresses sender secondaryGiven required);
   options ← evaluate (assertExplicitOptions optionsGiven);
   data ← evaluate (assertLocalReleaseAbi dataGiven (count secondary));
   k secondary options data) w = (Returns a, w')
  <-> exists secondary options data,
        secondaryGiven = Some secondary /\ (required = true -> secondary <> [])
        /\ optionsGiven = Some options /\ dataGiven = Some data
        /\ Admissible sender secondary options data /\ k secondary options data w = (Returns a, w').
Proof.
  intros Hcount. split.
  - intros (secondary & s & [(Es & Hne & Hl)%assertDistinctSignerAddresses_returns ->]%evaluate_iff & E)%task_bind_iff.
    apply task_bind_iff in E as (options & s & [(Eo & Ho)%assertExplicitOptions_returns ->]%evaluate_iff & E).
    apply task_bind_iff in E as (data & s & [(Ed & Hd)%assertLocalReleaseAbi_returns ->]%evaluate_iff & E).
    rewrite (Hcount _ Es) in Hd. exists secondary, options, data. do 4 (split; [done|]). split; [|done].
    split; first [apply Hl|apply Ho|apply Hd].
  - intros (secondary & options & data & Es & Hne & Eo & Ed & Ha & E).
    apply task_bind_iff. exists secondary, w. split.
    { apply evaluate_iff. split; [|done]. apply assertDistinctSignerAddresses_returns. do 2 (split; [done|]). apply Ha. }
    apply task_bind_iff. exists options, w. split.
    { apply evaluate_iff. split; [|done]. apply assertExplicitOptions_returns. split; [done|]. by destruct Ha. }
    apply task_bind_iff. exists data, w. split; [|exact E].
    apply evaluate_iff. split; [|done]. rewrite (Hcount _ Es). apply assertLocalReleaseAbi_returns. split; [done|]. by destruct Ha.
Qed.

(** A check that returns the transaction returns the one that was built. *)
Lemma checked_same {A B} (identity : Outcome A) (k : A -> Outcome B) (k' : A -> Outcome unit) (t t' : Sdk.SdkTransaction) (w w' : W) :
  (i ← evaluate identity; evaluate (k i) ;; evaluate (k' i) ;; mret t') w = (Returns t, w') -> t' = t.
Proof.
  intros (i & ? & _ & E)%task_bind_iff. apply task_bind_iff in E as (? & ? & _ & E).
  by apply task_bind_iff in E as (? & ? & _ & [= <- _]).
Qed.

Lemma buildMultiAgent_returns request (w : W) t w' :
  buildMultiAgent sha256 describe request w = (Returns t, w') <->
  exists secondary options data raw cosigners feePayer,
    let sender := request.(MultiRequest.senderAddress) in
    request.(MultiRequest.secondarySignerAddresses) = Some secondary /\ secondary <> []
    /\ request.(MultiRequest.options) = Some options /\ request.(MultiRequest.data) = Some data
    /\ Admissible sender secondary options data
    /\ buildMulti (Build.mk sender secondary data options false) w = (Returns t, w')
    /\ t = Sdk.MultiAgentTransaction raw cosigners feePayer
    /\ BuiltAs sender secondary options data t raw cosigners feePayer.
Proof.
  unfold buildMultiAgent. rewrite (request_checks _ _ _ _ _ (fun secondary => 1 + arrayLength secondary)) by done. split.
  - intros (secondary & options & data & Es & Hne & Eo & Ed & Ha & E). apply task_bind_iff in E as (t' & s & Eb & E).
    pose proof (checked_same _ (fun _ => _) _ _ _ _ _ E) as ->. destruct t as [| raw cosigners feePayer|].
    1, 3: by apply task_bind_iff in E as (identity & s' & [[=] _]%evaluate_iff & _).
    apply built_checks in E as [-> Hb]; [|done|done]. exists secondary, options, data, raw, cosigners, feePayer.
    cbn zeta. split; [done|]. split; [by apply Hne|done].
  - intros (secondary & options & data & raw & cosigners & feePayer & Es & Hne & Eo & Ed & Ha & Eb & -> & Hb).
    exists secondary, options, data. do 5 (split; [done|]). apply task_bind_iff. eexists _, w'. split; [exact Eb|]. by apply built_checks.
Qed.

Lemma buildSingleSigner_returns request (w : W) t w' :
  buildSingleSigner sha256 describe request w = (Returns t, w') <->
  exists options data raw feePayer,
    let sender := request.(SingleRequest.senderAddress) in
    request.(SingleRequest.options) = Some options /\ request.(SingleRequest.data) = Some data
    /\ Admissible sender [] options data
    /\ buildSimple (Build.mk sender [] data options false) w = (Returns t, w')
    /\ t = Sdk.SimpleTransaction raw feePayer
    /\ BuiltAs sender [] options data t raw [] feePayer.
Proof.
  unfold buildSingleSigner. rewrite (request_checks _ _ _ _ _ (fun _ => 1)) by by intros ? [= <-]. split.
  - intros (secondary & options & data & [= <-] & _ & Eo & Ed & Ha & E). apply task_bind_iff in E as (t' & s & Eb & E).
    pose proof (checked_same _ (fun _ => _) _ _ _ _ _ E) as ->. destruct t as [raw feePayer| |].
    2, 3: by apply task_bind_iff in E as (identity & s' & [[=] _]%evaluate_iff & _).
    apply (built_checks _ raw [] feePayer) in E as [-> Hb]; [|done|done]. by exists options, data, raw, feePayer.
  - intros (options & data & raw & feePayer & Eo & Ed & Ha & Eb & -> & Hb).
    exists [], options, data. do 5 (split; [done|]). apply task_bind_iff. eexists _, w'. split; [exact Eb|].
    by apply (built_checks _ raw [] feePayer).
Qed.

(** C30. The release client returns a transaction exactly when the request leaves
    nothing open - distinct non-zero signers, explicit sequence number, gas and
    expiry within bounds, a local ABI for exactly its signers - and what the SDK
    built is a transaction of the right class on the test network that carries
    all of it: the signers in order, no fee payer, those numbers, the gas asset
    and the named call with the bytes of the local ABI.  For one signer or many. *)
Theorem release_build_exact (w : W) t w' :
  (forall request,
     buildMultiAgent sha256 describe request w = (Returns t, w') <->
     exists secondary options data raw cosigners feePayer,
       let sender := request.(MultiRequest.senderAddress) in
       request.(MultiRequest.secondarySignerAddresses) = Some secondary /\ secondary <> []
       /\ request.(MultiRequest.options) = Some options /\ request.(MultiRequest.data) = Some data
       /\ Admissible sender secondary options data
       /\ buildMulti (Build.mk sender secondary data options false) w = (Returns t, w')
       /\ t = Sdk.MultiAgentTransaction raw cosigners feePayer
       /\ BuiltAs sender secondary options data t raw cosigners feePayer)
  /\ (forall request,
     buildSingleSigner sha256 describe request w = (Returns t, w') <->
     exists options data raw feePayer,
       let sender := request.(SingleRequest.senderAddress) in
       request.(SingleRequest.options) = Some options /\ request.(SingleRequest.data) = Some data
       /\ Admissible sender [] options data
       /\ buildSimple (Build.mk sender [] data options false) w = (Returns t, w')
       /\ t = Sdk.SimpleTransaction raw feePayer
       /\ BuiltAs sender [] options data t raw [] feePayer).
Proof. split; intros request; [apply buildMultiAgent_returns|apply buildSingleSigner_returns]. Qed.

(** ** What a simulation runs on *)

(** The bytes of two transactions of one identity are the same. *)
Lemma identity_bytes raw raw' feePayer feePayer' transactionType transactionType' secondary secondary' b1 b2 b3 b1' b2' b3' :
  identityOf sha256 raw feePayer transactionType secondary b1 b2 b3
  = identityOf sha256 raw' feePayer' transactionType' secondary' b1' b2' b3' -> b1 = b1' /\ b2 = b2' /\ b3 = b3'.
Proof.
  intros E. pose proof (f_equal TxIdentity.rawTransactionBcsHex E) as E1. pose proof (f_equal TxIdentity.transactionBcsHex E) as E2.
  pose proof (f_equal TxIdentity.signingMessageHex E) as E3. split; [|split]; by apply bytesToHex_inj.
Qed.

(** The bytes that were presented for review. *)
Definition Bytes (t : Sdk.SdkTransaction) (b1 b2 b3 : list byte) : Prop :=
  exists raw, rawTransaction t = Some raw /\ Encoded t raw b1 b2 b3.

Lemma described_bytes t identity :
  describeMultiAgentTransaction sha256 describe t = Returns identity \/ describeSingleSignerTransaction sha256 describe t = Returns identity ->
  exists raw feePayer transactionType secondary b1 b2 b3,
    Bytes t b1 b2 b3 /\ identity = identityOf sha256 raw feePayer transactionType secondary b1 b2 b3.
Proof.
  intros E. destruct t as [raw feePayer|raw cosigners feePayer|]; destruct E as [E|E]; try discriminate.
  all: apply describeTransaction_returns in E as (_ & b1 & b2 & b3 & He & ->); do 7 eexists; (split; [by exists raw|done]).
Qed.

(** A simulation that is not refused is the SDK's, of the transaction with the expected identity. *)
Lemma simulateMultiAgent_cases t expected key keys (w : W) o w' :
  simulateMultiAgent sha256 describe (Simulation.mkMulti t expected key keys) w = (o, w') ->
  ((exists e, o = Throws e) /\ w' = w
   /\ (describeMultiAgentTransaction sha256 describe t <> Returns expected
       \/ length keys <> length expected.(TxIdentity.secondarySignerAddresses)))
  \/ (describeMultiAgentTransaction sha256 describe t = Returns expected
      /\ length keys = length expected.(TxIdentity.secondarySignerAddresses)
      /\ (responses ← simulateMulti t key keys; mret (Simulation.mkResult expected responses)) w = (o, w')).
Proof.
  unfold simulateMultiAgent. cbn [Simulation.transaction Simulation.expectedIdentity
    Simulation.senderPublicKey Simulation.secondarySignerPublicKeys].
  destruct (describeMultiAgentTransaction sha256 describe t) as [identity|e] eqn:Ed.
  2: { intros [= <- <-]. left. split; [by eexists|]. split; [done|]. by left. }
  rewrite (task_bind_eq (evaluate (Returns identity)) _ w identity w eq_refl).
  destruct (identitiesMatch expected identity) eqn:Em.
  2: { intros [= <- <-]. left. split; [by eexists|]. split; [done|]. left. intros [= ->].
       assert (Ht : identitiesMatch expected expected = true) by by apply identitiesMatch_spec. congruence. }
  apply identitiesMatch_spec in Em as <-. rewrite unlessThrow_true by done. unfold arrayLength. case_bool_decide as El.
  - rewrite unlessThrow_true by done. intros E. right. split; [done|]. split; [lia|exact E].
  - intros [= <- <-]. left. split; [by eexists|]. split; [done|]. right. lia.
Qed.

Lemma simulateSingleSigner_cases t expected key (w : W) o w' :
  simulateSingleSigner sha256 describe (Simulation.mkSingle t expected key) w = (o, w') ->
  ((exists e, o = Throws e) /\ w' = w /\ describeSingleSignerTransaction sha256 describe t <> Returns expected)
  \/ (describeSingleSignerTransaction sha256 describe t = Returns expected
      /\ (responses ← simulateSimple t key; mret (Simulation.mkResult expected responses)) w = (o, w')).
Proof.
  unfold simulateSingleSigner. cbn [Simulation.singleTransaction Simulation.singleExpectedIdentity Simulation.singlePublicKey].
  destruct (describeSingleSignerTransaction sha256 describe t) as [identity|e] eqn:Ed.
  2: { intros [= <- <-]. left. split; [by eexists|done]. }
  rewrite (task_bind_eq (evaluate (Returns identity)) _ w identity w eq_refl).
  destruct (identitiesMatch expected identity) eqn:Em.
  2: { intros [= <- <-]. left. split; [by eexists|]. split; [done|]. intros [= ->].
       assert (Ht : identitiesMatch expected expected = true) by by apply identitiesMatch_spec. congruence. }
  apply identitiesMatch_spec in Em as <-. rewrite unlessThrow_true by done. intros E. by right.
Qed.

(** C31. The SDK is asked to simulate exactly the transaction that was reviewed:
    when the identity of the one presented is the expected one - and every
    secondary signer has a key - the request goes to the SDK with it, and the
    result is its answer under that identity; otherwise nothing is called and the
    client throws.  And an identity is one transaction's: if it was derived from
    the reviewed transaction, the one simulated has its bytes, its raw bytes and
    its signing message. *)
Theorem simulation_is_reviewed t0 expected :
  describeMultiAgentTransaction sha256 describe t0 = Returns expected \/ describeSingleSignerTransaction sha256 describe t0 = Returns expected ->
  (forall t key keys (w : W) o w',
     simulateMultiAgent sha256 describe (Simulation.mkMulti t expected key keys) w = (o, w') ->
     ((exists e, o = Throws e) /\ w' = w
      /\ (describeMultiAgentTransaction sha256 describe t <> Returns expected
          \/ length keys <> length expected.(TxIdentity.secondarySignerAddresses)))
     \/ (exists b1 b2 b3, Bytes t0 b1 b2 b3 /\ Bytes t b1 b2 b3
          /\ length keys = length expected.(TxIdentity.secondarySignerAddresses)
          /\ (responses ← simulateMulti t key keys; mret (Simulation.mkResult expected responses)) w = (o, w')))
  /\ (forall t key (w : W) o w',
     simulateSingleSigner sha256 describe (Simulation.mkSingle t expected key) w = (o, w') ->
     ((exists e, o = Throws e) /\ w' = w /\ describeSingleSignerTransaction sha256 describe t <> Returns expected)
     \/ (exists b1 b2 b3, Bytes t0 b1 b2 b3 /\ Bytes t b1 b2 b3
          /\ (responses ← simulateSimple t key; mret (Simulation.mkResult expected responses)) w = (o, w'))).
Proof.
  intros (raw0 & fp0 & ty0 & sec0 & b1 & b2 & b3 & Hb & E0)%described_bytes.
  assert (Hsame : forall t, describeMultiAgentTransaction sha256 describe t = Returns expected
      \/ describeSingleSignerTransaction sha256 describe t = Returns expected -> Bytes t b1 b2 b3).
  { intros t (raw & fp & ty & sec & c1 & c2 & c3 & Hc & E)%described_bytes. rewrite E0 in E. by apply identity_bytes in E as (<- & <- & <-). }
  split.
  - intros t key keys w o w' [Hno|(Ed & Hl & E)]%simulateMultiAgent_cases; [by left|right]. exists b1, b2, b3.
    split; [done|]. split; [apply Hsame; by left|done].
  - intros t key w o w' [Hno|(Ed & E)]%simulateSingleSigner_cases; [by left|right]. exists b1, b2, b3.
    split; [done|]. split; [apply Hsame; by right|done].
Qed.
End Release.

(** ** A sample SDK *)

Definition sampleAccount (text : string) : option string :=
  let digits := default text (afterHexPrefix text) in
  if bool_decide (digits <> "") && allChars isHexDigit digits && bool_decide (jsLength digits <= 64)
  then Some (mapChars lowerChar (stripZeros digits)) else None.

Definition padded (digits : string) : string :=
  "0x" ⧺ String.string_of_list_ascii (replicate (64 - String.length digits) "0"%char) ⧺ digits.

#[local] Instance sampleObjects : SdkObjects :=
  {| AccountAddress := string; TypeTag := string; SdkArgument := string; SdkPayload := unit; PublicKey := string;
     SimulationResponses := string |}.

Definition textBytes (text : string) : list byte := map byte_of_ascii (String.list_ascii_of_string text).
Definition samplePayloadText (payload : Sdk.TransactionPayload) : string :=
  match payload with
  | Sdk.TransactionPayloadEntryFunction entry =>
      entry.(Sdk.module_address) ⧺ "." ⧺ entry.(Sdk.module_identifier) ⧺ "." ⧺ entry.(Sdk.function_identifier)
        ⧺ "(" ⧺ joinWith "," entry.(Sdk.args) ⧺ ")"
  | Sdk.OtherPayload _ => ""
  end.

#[local] Instance sampleSdk : CedraSdk :=
  {| accountFromString := sampleAccount;
     isZeroAccount account := bool_decide (account = "");
     toStringLong := padded;
     parseTypeTag text := Returns text;
     typeTagText tag := tag;
     CEDRA_COIN := "0x1::CedraCoin::cedra";
     rawBcs raw := Returns (textBytes (show raw.(Sdk.sequence_number) ⧺ samplePayloadText raw.(Sdk.payload)));
     transactionBcs t := Returns (textBytes (from_option (fun raw : Sdk.RawTransaction => show raw.(Sdk.max_gas_amount)) "" (rawTransaction t)));
     payloadBcs payload := Returns (textBytes (samplePayloadText payload));
     generateSigningMessageForTransaction t := Returns [];
     generateTransactionPayloadWithABI data :=
       match data.(Sdk.function), data.(Sdk.functionArguments) with
       | JsString text, Some args =>
           match splitDoubleColon text with
           | [address; name; function] =>
               Returns (Sdk.TransactionPayloadEntryFunction (Sdk.mkEntry (default "" (sampleAccount address)) name function [] args))
           | _ => Throws (TypeError "function")
           end
       | _, _ => Throws (TypeError "arguments")
       end |}.

(** [pool::launch], as the assembler asks for it. *)
Definition sampleData : Sdk.InputEntryFunctionData :=
  Sdk.mkData (JsString "0xc0de::pool::launch") None (Some []) (Some (Sdk.mkAbi (JsNumber (Some 2)) (Some []) (Some []))).
Definition sampleOptions : Sdk.ExplicitReleaseTransactionOptions :=
  Sdk.mkOptions (JsBigint 7) (JsNumber (Some 8000)) (JsNumber (Some 100)) (JsNumber (Some 1800000000)) None.
Definition sampleRaw : Sdk.RawTransaction :=
  Sdk.mkRaw "cafe" 7 (Sdk.TransactionPayloadEntryFunction (Sdk.mkEntry "c0de" "pool" "launch" [] [])) 8000 100 1800000000
    (JsNumber (Some 2)) "0x1::CedraCoin::cedra".
Definition sampleTransaction : Sdk.SdkTransaction := Sdk.MultiAgentTransaction sampleRaw ["bed"] None.

(** It counts the calls it gets. *)
#[local] Instance sampleCedra : Cedra nat :=
  {| buildMulti _ := fun w => (Returns sampleTransaction, S w);
     buildSimple _ := fun w => (Returns sampleTransaction, S w);
     simulateMulti _ _ _ := fun w => (Returns "executed", S w);
     simulateSimple _ _ := fun w => (Returns "executed", S w) |}.

Definition sampleRequest : MultiRequest.MultiAgentEntryRequest :=
  MultiRequest.mk _ (JsString "0xCAFE") (Some [JsString "0x0bed"]) (Some sampleData) (Some sampleOptions).

Definition sampleDigestOf (bytes : list byte) : string := show (arrayLength bytes).
Definition sampleDescribe (value : JsValue) : string := "".

Lemma release_build_exact_witness :
  exists raw cosigners feePayer,
    BuiltAs (JsString "0xCAFE") [JsString "0x0bed"] sampleOptions sampleData sampleTransaction raw cosigners feePayer.
Proof.
  destruct (proj1 (proj1 (release_build_exact sampleDigestOf sampleDescribe 0%nat sampleTransaction 1%nat) sampleRequest))
    as (secondary & options & data & raw & cosigners & feePayer & E); [vm_compute; reflexivity|].
  destruct E as (E1 & _ & E2 & E3 & _ & _ & _ & Hb). exists raw, cosigners, feePayer.
  assert (E : secondary = [JsString "0x0bed"] /\ options = sampleOptions /\ data = sampleData)
    by (split; [|split]; [injection E1|injection E2|injection E3]; congruence).
  destruct E as (-> & -> & ->). exact Hb.
Defined.

(** Another transaction of the same description goes to the SDK; one with another sequence number does not. *)
Definition sampleIdentity : TxIdentity.ReleaseTransactionIdentity :=
  identityOf sampleDigestOf sampleRaw None multi_agent [padded "bed"] (textBytes "7c0de.pool.launch()") (textBytes "8000") [].

Lemma simulation_is_reviewed_witness :
  (exists b1 b2 b3, Bytes sampleTransaction b1 b2 b3)
  /\ (simulateMultiAgent sampleDigestOf sampleDescribe
        (Simulation.mkMulti (Sdk.MultiAgentTransaction (Sdk.mkRaw "cafe" 8 sampleRaw.(Sdk.payload) 8000 100 1800000000
           (JsNumber (Some 2)) "0x1::CedraCoin::cedra") ["bed"] None) sampleIdentity "k1" ["k2"]) 0%nat).2 = 0%nat.
Proof.
  assert (E : describeMultiAgentTransaction sampleDigestOf sampleDescribe sampleTransaction = Returns sampleIdentity)
    by (vm_compute; reflexivity).
  destruct (simulation_is_reviewed sampleDigestOf sampleDescribe sampleTransaction sampleIdentity (or_introl E)) as [Hmulti _]. clear E.
  split; [|vm_compute; reflexivity].
  destruct (Hmulti sampleTransaction "k1" ["k2"] 0%nat _ _ (surjective_pairing _)) as [([e E] & _)|(b1 & b2 & b3 & Hb & _)].
  - vm_compute in E. discriminate E.
  - by exists b1, b2, b3.
Defined.
