(* ===== verification/ReleaseInputs.v ===== *)
(** * Inputs of a release candidate: [packages/release-candidate-assembler/src]

    The exact-address bundle, the public profiles, the build request and the
    build integrity evidence, all JSON ([index.ts], [build-integrity.ts]), and
    the context in which they agree.  An [unknown] value is the JSON value its
    file holds, [None] where a property is absent.  A property of a literal type
    is not kept once it was compared.  The SDK's keys are parameters. *)
From S2P Require Import Prelude JsMap Types MoveDomains JsValue Json SdkTypes Accounting Replay Group WalletHandlers.
From S2P Require Import LpHandlers PoolHandlers ConfigHandlers GroupChecks Reducer Reconciler Snapshot SnapshotDecode.
From S2P Require Import AlertCodec Store Disk FileStore ReleaseClient.

(** ** Operations and roles *)

Inductive ReleaseOperationKey := core_publish | core_initialize | assets_publish | amm_publish | pool_launch.
Inductive ReleaseRoleKey := core_publisher | assets_publisher | amm_publisher | bootstrap_lp.
Inductive PackageKey := reflection_core | test_assets | test_amm.

#[export] Instance role_eq_dec : EqDecision ReleaseRoleKey.
Proof. solve_decision. Defined.

Definition RELEASE_OPERATION_KEYS : list ReleaseOperationKey :=
  [core_publish; core_initialize; assets_publish; amm_publish; pool_launch].
Definition RELEASE_ROLE_KEYS : list ReleaseRoleKey := [core_publisher; assets_publisher; amm_publisher; bootstrap_lp].
Definition PACKAGE_KEYS : list PackageKey := [reflection_core; test_assets; test_amm].

Definition operationName (key : ReleaseOperationKey) : string :=
  match key with
  | core_publish => "core_publish" | core_initialize => "core_initialize" | assets_publish => "assets_publish"
  | amm_publish => "amm_publish" | pool_launch => "pool_launch"
  end.
Definition roleName (role : ReleaseRoleKey) : string :=
  match role with
  | core_publisher => "core_publisher" | assets_publisher => "assets_publisher"
  | amm_publisher => "amm_publisher" | bootstrap_lp => "bootstrap_lp"
  end.
Definition packageName (key : PackageKey) : string :=
  match key with reflection_core => "reflection_core" | test_assets => "test_assets" | test_amm => "test_amm" end.

(** [Record<ReleaseRoleKey, A>], in the order of the keys. *)
Definition PerRole (A : Type) : Type := ReleaseRoleKey -> A.

(** [for (const role of RELEASE_ROLE_KEYS) { result[role] = ... }] *)
Definition forRoles {A} (f : ReleaseRoleKey -> Outcome A) : Outcome (PerRole A) :=
  a ← f core_publisher; b ← f assets_publisher; c ← f amm_publisher; d ← f bootstrap_lp;
  Returns (fun role => match role with
                       | core_publisher => a | assets_publisher => b | amm_publisher => c | bootstrap_lp => d
                       end).
(** [Object.values(record)] *)
Definition roleValues {A} (record : PerRole A) : list A := map record RELEASE_ROLE_KEYS.

Definition TESTNET_CHAIN_ID : Z := 2.
Definition TESTNET_CHAIN_ID_TEXT : string := "2".
Definition TESTNET_API_URL : string := "https://testnet.cedra.dev/v1".
Definition TESTNET_NETWORK : string := "cedra-testnet".
Definition REVIEWED_SDK_PACKAGE : string := "@cedra-labs/ts-sdk".
Definition REVIEWED_SDK_VERSION : string := "2.2.8".
Definition REVIEWED_SDK_PIN_FILE : string := "ops/evidence/reviewed-cedra-sdk-2.2.8.json".
Definition RELEASE_EXECUTABLE_CLOSURE_FILE : string := "ops/evidence/release-executable-closure.json".
Definition PROFILE_DERIVATION_METHOD : string := "sha3-256(ed25519_public_key_bytes || 0x00)".
Definition PROFILE_DERIVATION_TOOL : string := "OpenSSL dgst -sha3-256".
Definition MAX_U128 : Z := 2 ^ 128 - 1.
Definition PROFILE_NAMES (role : ReleaseRoleKey) : string :=
  match role with
  | core_publisher => "cedra-reflect-core-publisher"
  | assets_publisher => "cedra-reflect-assets-publisher"
  | amm_publisher => "cedra-reflect-amm-publisher"
  | bootstrap_lp => "cedra-reflect-bootstrap-lp"
  end.

(** ** Patterns *)

Definition isDigitChar (c : ascii) : bool := bool_decide (is_Some (digitValue c)).
Definition isLetter (c : ascii) : bool :=
  let n := Z.of_nat (nat_of_ascii c) in
  (bool_decide (65 <= n) && bool_decide (n <= 90)) || (bool_decide (97 <= n) && bool_decide (n <= 122)).
Definition isWordChar (extra : string) (c : ascii) : bool :=
  isDigitChar c || isLetter c || bool_decide (c ∈ String.list_ascii_of_string extra).

(** [/^[0-9a-f]{n}$/] *)
Definition isLowerHexText (n : Z) (s : string) : bool := bool_decide (jsLength s = n) && allChars isLowerHex s.
Definition SHA256_PATTERN : string -> bool := isLowerHexText 64.
Definition COMMIT_PATTERN : string -> bool := isLowerHexText 40.
Definition DEPLOYMENT_PATTERN (s : string) : bool :=
  bool_decide (1 <= jsLength s) && bool_decide (jsLength s <= 80) && allChars (isWordChar "._-") s.
(** [0], or digits that do not start with one *)
Definition DECIMAL_PATTERN : string -> bool := isNumeral.
Definition PUBLIC_KEY_PREFIX : string := "ed25519-pub-".
Definition PUBLIC_KEY_PATTERN (s : string) : bool :=
  match stripPrefix "ed25519-pub-0x" s with Some digits => isLowerHexText 64 digits | None => false end.
(** [/^0x(?:[0-9a-f]{2})+$/] *)
Definition HEX_BYTES_PATTERN (s : string) : bool :=
  match stripPrefix "0x" s with
  | Some digits => bool_decide (digits <> "") && allChars isLowerHex digits && bool_decide (jsLength digits mod 2 = 0)
  | None => false
  end.

(** [/^sha512-[A-Za-z0-9+/]+={0,2}$/] *)
Definition SHA512_INTEGRITY_PATTERN (s : string) : bool :=
  match stripPrefix "sha512-" s with
  | Some digest =>
      let ends := dropWhile (fun c => bool_decide (c = "="%char)) (rev (String.list_ascii_of_string digest)) in
      bool_decide (ends <> []) && forallb (isWordChar "+/") ends
      && bool_decide (String.length digest - length ends <= 2)%nat
  | None => false
  end.
(** [/^[A-Za-z0-9@._+/-]+$/] *)
Definition SAFE_RELATIVE_PATH (s : string) : bool := bool_decide (s <> "") && allChars (isWordChar "@._+/-") s.
(** [/^[A-Za-z0-9][A-Za-z0-9._@+-]{2,127}$/] *)
Definition REVIEWER_PATTERN (s : string) : bool :=
  match s with
  | String c rest => isWordChar "" c && bool_decide (2 <= jsLength rest) && bool_decide (jsLength rest <= 127)
                     && allChars (isWordChar "._@+-") rest
  | EmptyString => false
  end.

(** ** Reading [unknown] values *)

Definition fail {A} (message : string) : Outcome A := Throws (mkError "Error" message).

(** The own properties of an object. *)
Definition JsonFields : Type := list (string * Json).

Definition keysText (keys : list string) : string := stringify (JArray (map JString (sortStrings keys))).

Definition objectValue (value : option Json) (label : string) : Outcome JsonFields :=
  match value with Some (JObject fields) => Returns fields | _ => fail (label ⧺ " must be an object") end.

Definition exactObject (value : option Json) (expectedKeys : list string) (label : string) : Outcome JsonFields :=
  fields ← objectValue value label;
  if bool_decide (keysText (jsKeys fields) <> keysText expectedKeys)
  then fail (label ⧺ " keys mismatch; expected " ⧺ joinWith ", " (sortStrings expectedKeys)) else Returns fields.

Definition stringValue (value : option Json) (label : string) (pattern : string -> bool) : Outcome string :=
  match value with
  | Some (JString text) =>
      if bool_decide (jsLength text = 0) || negb (pattern text) then fail (label ⧺ " has an invalid value") else Returns text
  | _ => fail (label ⧺ " has an invalid value")
  end.
Definition anyText (_ : string) : bool := true.

Definition canonicalAddress (value : option Json) (label : string) : Outcome Address :=
  text ← stringValue value label anyText;
  if isHexAddress text then
    let stripped := stripZeros (mapChars lowerChar (default "" (stripPrefix "0x" text))) in
    if bool_decide (stripped = "") then fail (label ⧺ " must be non-zero") else Returns ("0x" ⧺ stripped)
  else fail (label ⧺ " is not a Cedra address").

(** [BigInt(text)] on decimal digits. *)
Definition bigintOf (text : string) : Z := default 0 (parseDigits 0 text).

Definition decimalValue (value : option Json) (label : string) (maximum : Z) (positive : bool) : Outcome string :=
  text ← stringValue value label DECIMAL_PATTERN;
  let number := bigintOf text in
  if (positive && bool_decide (number = 0)) || bool_decide (number > maximum)
  then fail (label ⧺ " is outside the permitted unsigned range") else Returns text.

(** [Number(value)] rounds to a double, which is a safe integer exactly when the number is one. *)
Definition safeNumber (value label : string) : Outcome Z :=
  if isSafeInteger (bigintOf value) then Returns (bigintOf value)
  else fail (label ⧺ " exceeds the exact integer range supported by Cedra SDK transaction options").

(** [value === text] *)
Definition isText (value : option Json) (text : string) : bool :=
  match value with Some (JString s) => bool_decide (s = text) | _ => false end.
Definition isTrue (value : option Json) : bool := match value with Some (JBool b) => b | _ => false end.
Definition isNumber (value : option Json) (n : Z) : bool := match value with Some (JNumber m) => bool_decide (m = n) | _ => false end.
Definition isNullish (value : option Json) : bool := match value with None | Some JNull => true | _ => false end.

Definition unlessFail (condition : bool) (message : string) : Outcome unit := if condition then Returns tt else fail message.

(** ** Canonical JSON *)

Fixpoint insertField (field : string * Json) (sorted : JsonFields) : JsonFields :=
  match sorted with
  | [] => [field]
  | first :: rest => if String.leb field.1 first.1 then field :: sorted else first :: insertField field rest
  end.
Definition sortFields (fields : JsonFields) : JsonFields := foldr insertField [] fields.

Fixpoint sortedJsonValue (value : Json) : Json :=
  match value with
  | JArray items => JArray (map sortedJsonValue items)
  | JObject fields => objectOf (sortFields (map (fun field => (field.1, sortedJsonValue field.2)) fields))
  | _ => value
  end.

(** The UTF-8 text of [canonicalJsonBytes]. *)
Definition canonicalJsonBytes (value : Json) : string := jsonLine (sortedJsonValue value).

Definition sameJson (left right : Json) : bool :=
  bool_decide (stringify (sortedJsonValue left) = stringify (sortedJsonValue right)).

(** The replacer of [jsonSafe]: a bigint is its digits. *)
Fixpoint bigintText (value : Json) : Json :=
  match value with
  | JBigint n => JString (show n)
  | JArray items => JArray (map bigintText items)
  | JObject fields => JObject (map (fun field => (field.1, bigintText field.2)) fields)
  | _ => value
  end.

Definition rolesJson (roles : PerRole string) : Json := JObject (map (fun role => (roleName role, JString (roles role))) RELEASE_ROLE_KEYS).

(** ** Build integrity: [build-integrity.ts] *)

Definition INTEGRITY_KEYS : list string :=
  ["release_executable_closure_file"; "release_executable_closure_sha256"; "package_lock_file"; "package_lock_sha256";
   "sdk_loaded_entrypoint"; "sdk_loaded_entrypoint_sha256"; "sdk_lock_integrity"; "sdk_package"; "sdk_package_file_count";
   "sdk_package_json_sha256"; "sdk_package_tree_sha256"; "sdk_review_pin_file"; "sdk_review_pin_sha256";
   "sdk_review_attestation_sha256"; "sdk_review_signature_sha256"; "sdk_review_signature_namespace";
   "sdk_review_reviewer_identity"; "sdk_review_trusted_signers_sha256"; "sdk_version"].
Definition INTEGRITY_DIGESTS : list string :=
  ["release_executable_closure_sha256"; "package_lock_sha256"; "sdk_review_pin_sha256"; "sdk_package_json_sha256";
   "sdk_loaded_entrypoint_sha256"; "sdk_package_tree_sha256"; "sdk_review_attestation_sha256";
   "sdk_review_signature_sha256"; "sdk_review_trusted_signers_sha256"].

(** [typeof value === "string" && pattern.test(value)] *)
Definition matches (pattern : string -> bool) (value : option Json) : bool :=
  match value with Some (JString s) => pattern s | _ => false end.

(** [text.includes("../")] *)
Fixpoint hasParentStep (s : string) : bool :=
  match s with
  | EmptyString => false
  | String _ rest => match stripPrefix "../" s with Some _ => true | None => hasParentStep rest end
  end.
Definition isSafeEntrypoint (s : string) : bool := SAFE_RELATIVE_PATH s && negb (isAbsolute s) && negb (hasParentStep s).

(** The evidence as it was given, once it has the exact shape. *)
Definition validateBuildIntegrityEvidence (value : option Json) : Outcome JsonFields :=
  observed ← match value with
             | Some (JObject fields) => Returns fields
             | _ => fail "build integrity evidence must be an object"
             end;
  unlessFail (bool_decide (keysText (jsKeys observed) = keysText INTEGRITY_KEYS))
    "build integrity evidence has missing or extra fields" ≫= fun _ =>
  let property key := jsGet key observed in
  unlessFail (isText (property "package_lock_file") "package-lock.json"
              && isText (property "release_executable_closure_file") RELEASE_EXECUTABLE_CLOSURE_FILE
              && isText (property "sdk_package") REVIEWED_SDK_PACKAGE
              && isText (property "sdk_version") REVIEWED_SDK_VERSION
              && isText (property "sdk_review_pin_file") REVIEWED_SDK_PIN_FILE
              && isText (property "sdk_review_signature_namespace") "cedra-reflect-sdk-review-v1"
              && matches REVIEWER_PATTERN (property "sdk_review_reviewer_identity")
              && matches SHA512_INTEGRITY_PATTERN (property "sdk_lock_integrity")
              && matches isSafeEntrypoint (property "sdk_loaded_entrypoint")
              && match property "sdk_package_file_count" with
                 | Some (JNumber n) => isSafeInteger n && bool_decide (0 < n)
                 | _ => false
                 end)
    "build integrity evidence has an invalid fixed field" ≫= fun _ =>
  outcome_forEach (fun key => unlessFail (matches SHA256_PATTERN (property key))
                                ("build integrity evidence " ⧺ key ⧺ " is not a SHA-256 digest")) INTEGRITY_DIGESTS ≫= fun _ =>
  Returns observed.

Definition assertBuildIntegrityMatches (expected observed : JsonFields) : Outcome unit :=
  unlessFail (bool_decide (stringify (JObject expected) = stringify (JObject observed)))
    "current reviewed lockfile or loaded Cedra SDK artifact differs from the candidate build integrity".

Definition assertRuntimeSdkPackage (value : option Json) (label : string) : Outcome unit :=
  manifest ← objectValue value label;
  unlessFail (isText (jsGet "name" manifest) REVIEWED_SDK_PACKAGE && isText (jsGet "version" manifest) REVIEWED_SDK_VERSION)
    (label ⧺ " must be " ⧺ REVIEWED_SDK_PACKAGE ⧺ " " ⧺ REVIEWED_SDK_VERSION).

(** ** The inputs *)

Definition parseRoles (value : option Json) (label : string) : Outcome (PerRole Address) :=
  object ← exactObject value (map roleName RELEASE_ROLE_KEYS) label;
  result ← forRoles (fun role => canonicalAddress (jsGet (roleName role) object) (label ⧺ "." ⧺ roleName role));
  unlessFail (hasUnique (roleValues result)) (label ⧺ " must contain five distinct addresses") ≫= fun _ =>
  Returns result.

Definition parsePublicKeys (value : option Json) (label : string) : Outcome (PerRole string) :=
  object ← exactObject value (map roleName RELEASE_ROLE_KEYS) label;
  result ← forRoles (fun role => stringValue (jsGet (roleName role) object) (label ⧺ "." ⧺ roleName role) PUBLIC_KEY_PATTERN);
  unlessFail (hasUnique (roleValues result)) (label ⧺ " must contain four distinct Ed25519 public keys") ≫= fun _ =>
  Returns result.

Module Controls.
Record TransactionControls := mk {
  sequence_number : string;
  max_gas_amount : string;
  gas_unit_price : string;
  expiration_timestamp_secs : string
}.
End Controls.

Module Budget.
Record GasBudget := mk {
  approved_max_gas_amount : string;
  approved_max_gas_unit_price : string;
  approved_max_total_fee_base_units : string
}.
End Budget.

Module Request.
Record TransactionBuildRequest := mk {
  deployment_id : string;
  operation_key : ReleaseOperationKey;
  application_commit : string;
  exact_address_artifacts_sha256 : string;
  public_profile_evidence_sha256 : string;
  roles : PerRole Address;
  profile_public_keys : PerRole string;
  transaction_controls : Controls.TransactionControls;
  gas_budget : Budget.GasBudget
}.
End Request.

(** [RELEASE_OPERATION_KEYS.includes(name)]: the operation of that name. *)
Definition operationOf (name : string) : option ReleaseOperationKey :=
  arrayFind (fun key => bool_decide (operationName key = name)) RELEASE_OPERATION_KEYS.

Definition parseControls (value : option Json) : Outcome Controls.TransactionControls :=
  object ← exactObject value ["sequence_number"; "max_gas_amount"; "gas_unit_price"; "expiration_timestamp_secs"] "transaction_controls";
  let decimal key positive := decimalValue (jsGet key object) ("transaction_controls." ⧺ key) MAX_U64 positive in
  sequence ← decimal "sequence_number" false; gas ← decimal "max_gas_amount" true;
  price ← decimal "gas_unit_price" true; expiration ← decimal "expiration_timestamp_secs" true;
  Returns (Controls.mk sequence gas price expiration).

Definition parseBudget (value : option Json) : Outcome Budget.GasBudget :=
  object ← exactObject value ["approved_max_gas_amount"; "approved_max_gas_unit_price"; "approved_max_total_fee_base_units"] "gas_budget";
  let decimal key maximum := decimalValue (jsGet key object) ("gas_budget." ⧺ key) maximum true in
  gas ← decimal "approved_max_gas_amount" MAX_U64; price ← decimal "approved_max_gas_unit_price" MAX_U64;
  total ← decimal "approved_max_total_fee_base_units" MAX_U128;
  Returns (Budget.mk gas price total).

Definition REQUEST_KEYS : list string :=
  ["schema_version"; "evidence_scope"; "network"; "api_url"; "chain_id"; "gas_asset"; "deployment_id"; "operation_key";
   "application_commit"; "exact_address_artifacts_sha256"; "public_profile_evidence_sha256"; "roles"; "profile_public_keys";
   "transaction_controls"; "gas_budget"].

Definition parseBuildRequest (CEDRA_COIN : string) (value : option Json) : Outcome Request.TransactionBuildRequest :=
  request ← exactObject value REQUEST_KEYS "transaction build request";
  let property key := jsGet key request in
  unlessFail (isNumber (property "schema_version") 1 && isText (property "evidence_scope") "testnet-transaction-build-request")
    "transaction build request schema or evidence scope mismatch" ≫= fun _ =>
  unlessFail (isText (property "network") TESTNET_NETWORK && isText (property "api_url") TESTNET_API_URL
              && isText (property "chain_id") TESTNET_CHAIN_ID_TEXT)
    "transaction build request must be pinned to Cedra Testnet chain 2" ≫= fun _ =>
  unlessFail (isText (property "gas_asset") CEDRA_COIN)
    ("transaction build request gas_asset must be the default CED type " ⧺ CEDRA_COIN) ≫= fun _ =>
  operationText ← stringValue (property "operation_key") "operation_key" anyText;
  operation ← from_option Returns (fail ("unsupported release operation_key: " ⧺ operationText)) (operationOf operationText);
  controls ← parseControls (property "transaction_controls");
  safeNumber controls.(Controls.max_gas_amount) "transaction_controls.max_gas_amount" ≫= fun _ =>
  safeNumber controls.(Controls.gas_unit_price) "transaction_controls.gas_unit_price" ≫= fun _ =>
  safeNumber controls.(Controls.expiration_timestamp_secs) "transaction_controls.expiration_timestamp_secs" ≫= fun _ =>
  budget ← parseBudget (property "gas_budget");
  unlessFail (bool_decide (controls.(Controls.max_gas_amount) = budget.(Budget.approved_max_gas_amount))
              && bool_decide (controls.(Controls.gas_unit_price) = budget.(Budget.approved_max_gas_unit_price))
              && bool_decide (bigintOf controls.(Controls.max_gas_amount) * bigintOf controls.(Controls.gas_unit_price)
                              = bigintOf budget.(Budget.approved_max_total_fee_base_units)))
    "approved gas fields must exactly equal the explicit transaction maximums and their worst-case product" ≫= fun _ =>
  deployment ← stringValue (property "deployment_id") "deployment_id" DEPLOYMENT_PATTERN;
  commit ← stringValue (property "application_commit") "application_commit" COMMIT_PATTERN;
  artifacts ← stringValue (property "exact_address_artifacts_sha256") "exact_address_artifacts_sha256" SHA256_PATTERN;
  profiles ← stringValue (property "public_profile_evidence_sha256") "public_profile_evidence_sha256" SHA256_PATTERN;
  roles ← parseRoles (property "roles") "roles";
  keys ← parsePublicKeys (property "profile_public_keys") "profile_public_keys";
  Returns (Request.mk deployment operation commit artifacts profiles roles keys controls budget).

Module PackageBinding.
Record ExactPackageBinding := mk {
  publish_payload_file : string;
  publish_payload_sha256 : string;
  compiled_package_files_manifest_sha256 : string
}.
End PackageBinding.

Module Exact.
Record ExactArtifacts := mk {
  applicationCommit : string;
  applicationTree : string;
  roles : PerRole Address;
  publicRoleCandidateSha256 : string;
  packages : PackageKey -> PackageBinding.ExactPackageBinding
}.
End Exact.

Definition parsePackage (packages : JsonFields) (key : PackageKey) : Outcome PackageBinding.ExactPackageBinding :=
  let name := packageName key in
  binding ← objectValue (jsGet name packages) ("exact-address packages." ⧺ name);
  let text field pattern := stringValue (jsGet field binding) (name ⧺ "." ⧺ field) pattern in
  file ← text "publish_payload_file" anyText; payload ← text "publish_payload_sha256" SHA256_PATTERN;
  manifest ← text "compiled_package_files_manifest_sha256" SHA256_PATTERN;
  Returns (PackageBinding.mk file payload manifest).

Definition parseExactArtifacts (value : option Json) : Outcome Exact.ExactArtifacts :=
  exact ← objectValue value "exact-address artifact bundle";
  let property key := jsGet key exact in
  unlessFail (isNumber (property "schema_version") 3 && isText (property "evidence_scope") "local-exact-address-build-only"
              && isText (property "network") TESTNET_NETWORK)
    "exact-address artifact bundle is not validated v3 Cedra Testnet evidence" ≫= fun _ =>
  unlessFail (isTrue (property "working_tree_clean") && isTrue (property "local_build_eligible_for_human_review"))
    "exact-address artifact bundle must be clean and eligible for human review" ≫= fun _ =>
  unlessFail (negb (isNullish (property "verification_binding")) && negb (isNullish (property "public_role_candidate_binding")))
    "exact-address artifact bundle must bind clean verification and the five-role candidate" ≫= fun _ =>
  roleBinding ← objectValue (property "public_role_candidate_binding") "public_role_candidate_binding";
  packageObject ← objectValue (property "packages") "exact-address packages";
  core ← parsePackage packageObject reflection_core; assets ← parsePackage packageObject test_assets;
  amm ← parsePackage packageObject test_amm;
  commit ← stringValue (property "application_commit") "exact-address application_commit" COMMIT_PATTERN;
  tree ← stringValue (property "application_tree") "exact-address application_tree" COMMIT_PATTERN;
  roles ← parseRoles (property "roles") "exact-address roles";
  candidate ← stringValue (jsGet "sha256" roleBinding) "public_role_candidate_binding.sha256" SHA256_PATTERN;
  Returns (Exact.mk commit tree roles candidate
             (fun key => match key with reflection_core => core | test_assets => assets | test_amm => amm end)).

(** What the assembler uses of the SDK besides the release client. *)
Class AssemblerSdk `{SdkObjects} := {
  newEd25519PublicKey : string -> Outcome PublicKey;
  derivedAddress : PublicKey -> AccountAddress;          (* [authKey().derivedAddress()] *)
  tagU64 : TypeTag;
  tagU8Vector : TypeTag;                                 (* [TypeTagVector.u8()] *)
  tagVector : TypeTag -> TypeTag;
  argumentU64 : Z -> SdkArgument;
  argumentU8Vector : string -> Outcome SdkArgument;      (* [MoveVector.U8(hex)] *)
  argumentVector : list SdkArgument -> SdkArgument;
  responsesJson : SimulationResponses -> Json            (* what [JSON.stringify] sees *)
}.

Module ProfileBinding.
Record ProfileBinding := mk { profile_name : string; address : Address; public_key : string }.
End ProfileBinding.

Module Profiles.
Record ProfileEvidence := mk {
  publicRoleCandidateSha256 : string;
  bindings : PerRole ProfileBinding.ProfileBinding  (* and in them [roles] and [publicKeys] *)
}.
End Profiles.

Module RepositoryState.
Record RepositoryAssemblyState := mk { statusPorcelain : string; headCommit : string; headTree : string }.
End RepositoryState.

Module Inputs.
Record AssemblyInputs := mk {
  exactArtifactsPath : string;
  exactArtifactsSha256 : string;
  exactArtifacts : option Json;
  publicProfileEvidenceSha256 : string;
  publicProfileEvidence : option Json;
  buildRequest : option Json;
  repositoryState : RepositoryState.RepositoryAssemblyState;
  buildIntegrity : option Json;
  now : option Z   (* milliseconds, [None] when the [Date] is invalid *)
}.
End Inputs.

Module Context.
Record ValidatedAssemblyContext `{SdkObjects} := mk {
  exactArtifactsPath : string;
  exactAddressArtifactsSha256 : string;
  applicationCommit : string;
  applicationTree : string;
  buildEnvironment : JsonFields;
  roles : PerRole Address;
  profileEvidenceSha256 : string;
  publicRoleCandidateSha256 : string;
  profileBindings : PerRole ProfileBinding.ProfileBinding;
  publicKeys : PerRole PublicKey;
  packages : PackageKey -> PackageBinding.ExactPackageBinding;
  request : Request.TransactionBuildRequest
}.
End Context.
Arguments Context.mk {_}.

Section Validation.
Context `{CedraSdk, !AssemblerSdk}.

(** [new Ed25519PublicKey(publicKey.slice("ed25519-pub-".length))] *)
Definition sdkPublicKey (publicKey : string) : Outcome PublicKey :=
  newEd25519PublicKey (default publicKey (stripPrefix PUBLIC_KEY_PREFIX publicKey)).

Definition parseProfile (profiles : JsonFields) (role : ReleaseRoleKey) : Outcome ProfileBinding.ProfileBinding :=
  let label := "profiles." ⧺ roleName role in
  profile ← exactObject (jsGet (roleName role) profiles)
    ["profile_name"; "network"; "has_private_key"; "public_key"; "account"; "rest_url"; "faucet_url"] label;
  let property key := jsGet key profile in
  unlessFail (isText (property "profile_name") (PROFILE_NAMES role) && isText (property "network") "Testnet"
              && isTrue (property "has_private_key") && isText (property "rest_url") "https://testnet.cedra.dev"
              && isText (property "faucet_url") "https://faucet-api.cedra.dev")
    (label ⧺ " is not the exact approved public Testnet profile") ≫= fun _ =>
  publicKey ← stringValue (property "public_key") (label ⧺ ".public_key") PUBLIC_KEY_PATTERN;
  account ← stringValue (property "account") (label ⧺ ".account") SHA256_PATTERN;
  address ← canonicalAddress (Some (JString ("0x" ⧺ account))) (label ⧺ ".account");
  key ← sdkPublicKey publicKey;
  derived ← canonicalAddress (Some (JString (toStringLong (derivedAddress key)))) (label ⧺ ".derived_address");
  unlessFail (bool_decide (derived = address))
    (label ⧺ " failed independent @cedra-labs/ts-sdk " ⧺ REVIEWED_SDK_VERSION ⧺ " authentication-key revalidation") ≫= fun _ =>
  Returns (ProfileBinding.mk (PROFILE_NAMES role) address publicKey).

Definition parseProfileEvidence (value : option Json) : Outcome Profiles.ProfileEvidence :=
  evidence ← objectValue value "public profile evidence";
  let property key := jsGet key evidence in
  unlessFail (isNumber (property "schema_version") 1 && isText (property "evidence_scope") "local-public-profile-preflight"
              && isText (property "network_intent") TESTNET_NETWORK)
    "public profile evidence is not the validated Cedra Testnet preflight shape" ≫= fun _ =>
  authentication ← exactObject (property "authentication_key_validation")
    ["all_profile_authentication_keys_match"; "derivation_method"; "derivation_tool"] "authentication_key_validation";
  unlessFail (isText (jsGet "derivation_method" authentication) PROFILE_DERIVATION_METHOD
              && isText (jsGet "derivation_tool" authentication) PROFILE_DERIVATION_TOOL
              && isTrue (jsGet "all_profile_authentication_keys_match" authentication))
    "public profile evidence must bind the OpenSSL SHA3-256 authentication-key derivation" ≫= fun _ =>
  profiles ← exactObject (property "profiles") (map roleName RELEASE_ROLE_KEYS) "profiles";
  bindings ← forRoles (parseProfile profiles);
  unlessFail (hasUnique (map ProfileBinding.address (roleValues bindings))
              && hasUnique (map ProfileBinding.public_key (roleValues bindings)))
    "public profile evidence must contain five distinct accounts and public keys" ≫= fun _ =>
  candidate ← stringValue (property "public_role_candidate_sha256") "public_role_candidate_sha256" SHA256_PATTERN;
  Returns (Profiles.mk candidate bindings).

(** [cwd] is the working directory, which [resolve] starts from. *)
Definition validateAssemblyInputs (cwd : string) (args : Inputs.AssemblyInputs) : Outcome Context.ValidatedAssemblyContext :=
  exactSha ← stringValue (Some (JString args.(Inputs.exactArtifactsSha256))) "observed exact-address artifact digest" SHA256_PATTERN;
  profileSha ← stringValue (Some (JString args.(Inputs.publicProfileEvidenceSha256))) "observed public-profile evidence digest" SHA256_PATTERN;
  exact ← parseExactArtifacts args.(Inputs.exactArtifacts);
  profiles ← parseProfileEvidence args.(Inputs.publicProfileEvidence);
  request ← parseBuildRequest CEDRA_COIN args.(Inputs.buildRequest);
  let profileRoles role := (profiles.(Profiles.bindings) role).(ProfileBinding.address) in
  let profileKeys role := (profiles.(Profiles.bindings) role).(ProfileBinding.public_key) in
  unlessFail (sameJson (rolesJson exact.(Exact.roles)) (rolesJson request.(Request.roles))
              && sameJson (rolesJson exact.(Exact.roles)) (rolesJson profileRoles))
    "all five roles must match across the exact bundle, profile evidence, and build request" ≫= fun _ =>
  unlessFail (sameJson (rolesJson profileKeys) (rolesJson request.(Request.profile_public_keys)))
    "all five public keys must match between profile evidence and the build request" ≫= fun _ =>
  unlessFail (bool_decide (request.(Request.application_commit) = exact.(Exact.applicationCommit)))
    "build-request application commit differs from the exact-address bundle" ≫= fun _ =>
  unlessFail (bool_decide (request.(Request.exact_address_artifacts_sha256) = exactSha))
    "build-request exact-address artifact digest differs from the observed file" ≫= fun _ =>
  unlessFail (bool_decide (request.(Request.public_profile_evidence_sha256) = profileSha))
    "build-request public-profile evidence digest differs from the observed file" ≫= fun _ =>
  unlessFail (bool_decide (profiles.(Profiles.publicRoleCandidateSha256) = exact.(Exact.publicRoleCandidateSha256)))
    "public profile evidence and exact-address bundle bind different five-role candidates" ≫= fun _ =>
  let repository := args.(Inputs.repositoryState) in
  unlessFail (bool_decide (repository.(RepositoryState.statusPorcelain) = ""))
    "candidate assembly requires a completely clean current Git working tree and index, including no untracked files" ≫= fun _ =>
  headCommit ← stringValue (Some (JString repository.(RepositoryState.headCommit))) "current Git HEAD" COMMIT_PATTERN;
  headTree ← stringValue (Some (JString repository.(RepositoryState.headTree))) "current Git HEAD tree" COMMIT_PATTERN;
  unlessFail (bool_decide (headCommit = exact.(Exact.applicationCommit)) && bool_decide (headTree = exact.(Exact.applicationTree)))
    "current clean Git HEAD/tree differs from the exact-address release bundle" ≫= fun _ =>
  integrity ← validateBuildIntegrityEvidence args.(Inputs.buildIntegrity);
  now ← from_option Returns (fail "assembler clock is invalid") args.(Inputs.now);
  unlessFail (bool_decide (now / 1000 < bigintOf request.(Request.transaction_controls).(Controls.expiration_timestamp_secs)))
    "absolute transaction expiry must be in the future at assembly time" ≫= fun _ =>
  sdkKeys ← forRoles (fun role => sdkPublicKey (profileKeys role));
  Returns (Context.mk (resolvePath cwd args.(Inputs.exactArtifactsPath)) exactSha exact.(Exact.applicationCommit)
             exact.(Exact.applicationTree)
             (jsFromEntries ([("repository_head_commit", JString headCommit); ("repository_head_tree", JString headTree)] ++ integrity))
             exact.(Exact.roles) profileSha exact.(Exact.publicRoleCandidateSha256) profiles.(Profiles.bindings) sdkKeys
             exact.(Exact.packages) request).
End Validation.
