(* ===== verification/ReleaseCandidate.v ===== *)
(** * Building and simulating a release candidate: [packages/release-candidate-assembler/src/index.ts]

    One of the five operations, built through the release client from the
    validated context, simulated, and written down with the evidence.  The client
    is an interface, [ReleaseClientPort]; the one of ReleaseClient.v implements
    it.  The payload of a publication is read from the disk. *)
From Stdlib Require Import Strings.Byte.
From S2P Require Import Prelude JsMap Types MoveDomains JsValue Json SdkTypes Accounting Replay Group WalletHandlers.
From S2P Require Import LpHandlers PoolHandlers ConfigHandlers GroupChecks Reducer Reconciler Snapshot SnapshotDecode.
From S2P Require Import AlertCodec Store Disk FileStore ReleaseClient ReleaseInputs.

(** [Pick<CedraReleaseClient, ...>] *)
Class ReleaseClientPort (W : Type) `{SdkObjects} := {
  portBuildMultiAgent : MultiRequest.MultiAgentEntryRequest -> Task W Sdk.SdkTransaction;
  portBuildSingleSigner : SingleRequest.SingleSignerEntryRequest -> Task W Sdk.SdkTransaction;
  portSimulateMultiAgent : Simulation.MultiAgentSimulationRequest -> Task W Simulation.SimulationResult;
  portSimulateSingleSigner : Simulation.SingleSignerSimulationRequest -> Task W Simulation.SimulationResult
}.

Definition releaseClientPort (W : Type) `{Cedra W} `{!CedraSdk} (sha256 : list byte -> string) (describe : JsValue -> string)
    : ReleaseClientPort W :=
  {| portBuildMultiAgent := buildMultiAgent sha256 describe;
     portBuildSingleSigner := buildSingleSigner sha256 describe;
     portSimulateMultiAgent := simulateMultiAgent sha256 describe;
     portSimulateSingleSigner := simulateSingleSigner sha256 describe |}.

Inductive TransactionKind := package_publish | kind_core_initialize | kind_pool_launch.
Definition transactionKindName (kind : TransactionKind) : string :=
  match kind with
  | package_publish => "package_publish" | kind_core_initialize => "core_initialize" | kind_pool_launch => "pool_launch"
  end.

Module PayloadEvidence.
Record TransactionPayloadEvidence := mk { function : string; arguments : list Json }.
End PayloadEvidence.

Module TxEvidence.
Record TransactionEvidence := mk {
  sender : Address;
  secondary_signers : list Address;
  sequence_number : string;
  expiration_timestamp_secs : string;
  max_gas_amount : string;
  gas_unit_price : string;
  payload : PayloadEvidence.TransactionPayloadEvidence
}.
End TxEvidence.

Module Publish.
Record PublishBinding := mk {
  package_key : PackageKey;
  publish_payload_sha256 : string;
  compiled_package_files_manifest_sha256 : string
}.
End Publish.

Module Shape.
Record OperationShape `{SdkObjects} := mk {
  transactionKind : TransactionKind;
  senderRole : ReleaseRoleKey;
  secondarySignerRoles : list ReleaseRoleKey;
  data : Sdk.InputEntryFunctionData;
  payload : PayloadEvidence.TransactionPayloadEvidence;
  abi : Sdk.EntryFunctionABI;
  publishBinding : option Publish.PublishBinding
}.
End Shape.
Arguments Shape.mk {_}.

Module Built.
Record BuiltReleaseCandidate `{SdkObjects} := mk {
  context : Context.ValidatedAssemblyContext;
  transactionKind : TransactionKind;
  transaction : Sdk.SdkTransaction;
  transactionEvidence : TxEvidence.TransactionEvidence;
  transactionIdentity : TxIdentity.ReleaseTransactionIdentity;
  transactionSemanticsSha256 : string;
  publishBinding : option Publish.PublishBinding;
  senderRole : ReleaseRoleKey;
  secondarySignerRoles : list ReleaseRoleKey;
  localAbi : Sdk.EntryFunctionABI
}.
End Built.
Arguments Built.mk {_}.

Module Bundle.
Record CandidateBundle := mk { candidate : Json; simulationResponse : Json }.
End Bundle.

(** ** As JSON *)

Definition strings (texts : list string) : Json := JArray (map JString texts).

Definition transactionTypeName (type : TransactionType) : string :=
  match type with single_signer => "single-signer" | multi_agent => "multi-agent" end.

Definition identityJson (i : TxIdentity.ReleaseTransactionIdentity) : Json :=
  JObject [("transactionType", JString (transactionTypeName i.(TxIdentity.transactionType)));
           ("senderAddress", JString i.(TxIdentity.senderAddress));
           ("secondarySignerAddresses", strings i.(TxIdentity.secondarySignerAddresses));
           ("feePayerAddress", jsonNullable JString i.(TxIdentity.feePayerAddress));
           ("sequenceNumber", JString i.(TxIdentity.sequenceNumber));
           ("maxGasAmount", JString i.(TxIdentity.maxGasAmount));
           ("gasUnitPrice", JString i.(TxIdentity.gasUnitPrice));
           ("expirationTimestampSeconds", JString i.(TxIdentity.expirationTimestampSeconds));
           ("chainId", JNumber i.(TxIdentity.chainId));
           ("fungibleAssetGasType", JString i.(TxIdentity.fungibleAssetGasType));
           ("rawTransactionBcsHex", JString i.(TxIdentity.rawTransactionBcsHex));
           ("rawTransactionSha256", JString i.(TxIdentity.rawTransactionSha256));
           ("transactionBcsHex", JString i.(TxIdentity.transactionBcsHex));
           ("transactionSha256", JString i.(TxIdentity.transactionSha256));
           ("signingMessageHex", JString i.(TxIdentity.signingMessageHex));
           ("signingMessageSha256", JString i.(TxIdentity.signingMessageSha256))].

Definition payloadJson (p : PayloadEvidence.TransactionPayloadEvidence) : Json :=
  JObject [("type", JString "entry_function_payload"); ("function", JString p.(PayloadEvidence.function));
           ("type_arguments", JArray []); ("arguments", JArray p.(PayloadEvidence.arguments))].

Definition evidenceJson (e : TxEvidence.TransactionEvidence) : Json :=
  JObject [("sender", JString e.(TxEvidence.sender)); ("secondary_signers", strings e.(TxEvidence.secondary_signers));
           ("sequence_number", JString e.(TxEvidence.sequence_number));
           ("expiration_timestamp_secs", JString e.(TxEvidence.expiration_timestamp_secs));
           ("max_gas_amount", JString e.(TxEvidence.max_gas_amount)); ("gas_unit_price", JString e.(TxEvidence.gas_unit_price));
           ("payload", payloadJson e.(TxEvidence.payload))].

Definition bindingsJson (bindings : PerRole ProfileBinding.ProfileBinding) : Json :=
  JObject (map (fun role =>
    let b := bindings role in
    (roleName role, JObject [("profile_name", JString b.(ProfileBinding.profile_name));
                             ("address", JString b.(ProfileBinding.address));
                             ("public_key", JString b.(ProfileBinding.public_key))])) RELEASE_ROLE_KEYS).

Definition budgetJson (b : Budget.GasBudget) : Json :=
  JObject [("approved_max_gas_amount", JString b.(Budget.approved_max_gas_amount));
           ("approved_max_gas_unit_price", JString b.(Budget.approved_max_gas_unit_price));
           ("approved_max_total_fee_base_units", JString b.(Budget.approved_max_total_fee_base_units))].

Definition publishJson (p : Publish.PublishBinding) : Json :=
  JObject [("package_key", JString (packageName p.(Publish.package_key)));
           ("publish_payload_sha256", JString p.(Publish.publish_payload_sha256));
           ("compiled_package_files_manifest_sha256", JString p.(Publish.compiled_package_files_manifest_sha256))].

(** [replace(/\.\d{3}Z$/, "Z")] *)
Definition dropMilliseconds (text : string) : string :=
  let kept := (String.length text - 5)%nat in
  match String.substring kept 5 text with
  | String "." (String a (String b (String c "Z"))) =>
      if isDigitChar a && isDigitChar b && isDigitChar c then String.substring 0 kept text ⧺ "Z" else text
  | _ => text
  end.

Definition ZERO_SIMULATION_SIGNATURE : string := "0x" ⧺ String.string_of_list_ascii (replicate 128 "0"%char).

Section Assembler.
Context `{CedraSdk, !AssemblerSdk} {W : Type} `{HasDisk W, !ReleaseClientPort W}.
Context (os : Os.OperatingSystem) (sha256Bytes : list byte -> string) (sha256 : string -> string).
Context (describe : JsValue -> string) (numberText : Z -> Z -> string) (isoString : Z -> string) (describeJson : option Json -> string).

(** [jsonSafe] *)
Definition jsonSafe (value : Json) : Outcome Json := jsonParse numberText (stringify (bigintText value)).

(** ** The operation *)

Definition localAbi (signers : Z) (parameters : list TypeTag) : Sdk.EntryFunctionABI :=
  Sdk.mkAbi (JsNumber (Some signers)) (Some []) (Some parameters).

(** [readFileSync(path)] *)
Definition readFileSync (path : string) : Task Dsk.Disk string := handleReadFile os path.

Definition PUBLISH_FUNCTION : string := "0x1::code::publish_package_txn".

(** The metadata and the modules of a publish payload, as hexadecimal text. *)
Definition parsePublishPayload (name text : string) : Outcome (string * list string) :=
  value ← jsonParse numberText text;
  payload ← exactObject (Some value) ["type"; "function"; "type_arguments"; "arguments"] (name ⧺ " publish payload");
  let wrong := fail (name ⧺ " publish payload has the wrong entry-function shape") in
  unlessFail (isText (jsGet "type" payload) "entry_function_payload" && isText (jsGet "function" payload) PUBLISH_FUNCTION)
    (name ⧺ " publish payload has the wrong entry-function shape") ≫= fun _ =>
  match jsGet "type_arguments" payload, jsGet "arguments" payload with
  | Some (JArray []), Some (JArray [metadata; modules]) =>
      metadataHex ← stringValue (Some metadata) (name ⧺ " metadata bytes") HEX_BYTES_PATTERN;
      match modules with
      | JArray (first :: rest) =>
          moduleHex ← mapM (fun entry => stringValue (Some entry.2) (name ⧺ " module bytes " ⧺ show entry.1) HEX_BYTES_PATTERN)
                        (zip (seqZ 0 (arrayLength (first :: rest))) (first :: rest));
          Returns (metadataHex, moduleHex)
      | _ => fail (name ⧺ " publish payload must contain ordered module byte arrays")
      end
  | _, _ => wrong
  end.

Definition publishOperation (context : Context.ValidatedAssemblyContext) (packageKey : PackageKey) (senderRole : ReleaseRoleKey)
    : Task W Shape.OperationShape :=
  let binding := context.(Context.packages) packageKey in
  let name := packageName packageKey in
  let file := binding.(PackageBinding.publish_payload_file) in
  let digest := binding.(PackageBinding.publish_payload_sha256) in
  evaluate (unlessFail (bool_decide (file = "publish-payload.json"))
              (name ⧺ " publish payload must use the reviewed publish-payload.json filename")) ;;
  let packageDirectory := resolve os (dirname context.(Context.exactArtifactsPath) ⧺ "/" ⧺ name) in
  let payloadPath := resolve os (packageDirectory ⧺ "/" ⧺ file) in
  evaluate (unlessFail (bool_decide (is_Some (stripPrefix (packageDirectory ⧺ "/") payloadPath)))
              (name ⧺ " publish payload escaped its exact-address package directory")) ;;
  stat ← onDisk (lstat os payloadPath);
  evaluate (unlessFail (isFile stat && negb (isSymbolicLink stat)) (name ⧺ " publish payload must be a regular non-symlink file")) ;;
  text ← onDisk (readFileSync payloadPath);
  evaluate (unlessFail (bool_decide (sha256 text = digest)) (name ⧺ " publish payload digest differs from the exact-address bundle")) ;;
  '(metadataHex, moduleHex) ← evaluate (parsePublishPayload name text);
  metadata ← evaluate (argumentU8Vector metadataHex);
  modules ← evaluate (mapM argumentU8Vector moduleHex);
  let abi := localAbi 1 [tagU8Vector; tagVector tagU8Vector] in
  mret (Shape.mk package_publish senderRole []
          (Sdk.mkData (JsString PUBLISH_FUNCTION) (Some (Some [])) (Some [metadata; argumentVector modules]) (Some abi))
          (PayloadEvidence.mk PUBLISH_FUNCTION [JString metadataHex; strings moduleHex]) abi
          (Some (Publish.mk packageKey digest binding.(PackageBinding.compiled_package_files_manifest_sha256)))).

Definition operationShape (context : Context.ValidatedAssemblyContext) : Task W Shape.OperationShape :=
  let roles := context.(Context.roles) in
  match context.(Context.request).(Request.operation_key) with
  | core_publish => publishOperation context reflection_core core_publisher
  | assets_publish => publishOperation context test_assets assets_publisher
  | amm_publish => publishOperation context test_amm amm_publisher
  | core_initialize =>
      let abi := localAbi 1 [tagU64] in
      let functionName := roles core_publisher ⧺ "::reflection_token::initialize" in
      mret (Shape.mk kind_core_initialize core_publisher []
              (Sdk.mkData (JsString functionName) (Some (Some [])) (Some [argumentU64 100]) (Some abi))
              (PayloadEvidence.mk functionName [JString "100"]) abi None)
  | pool_launch =>
      let abi := localAbi 4 [] in
      let functionName := roles amm_publisher ⧺ "::pool::launch" in
      mret (Shape.mk kind_pool_launch core_publisher [assets_publisher; amm_publisher; bootstrap_lp]
              (Sdk.mkData (JsString functionName) (Some (Some [])) (Some []) (Some abi))
              (PayloadEvidence.mk functionName []) abi None)
  end.

Definition buildReleaseCandidate (context : Context.ValidatedAssemblyContext) : Task W Built.BuiltReleaseCandidate :=
  shape ← operationShape context;
  let sender := context.(Context.roles) shape.(Shape.senderRole) in
  let secondarySigners := map context.(Context.roles) shape.(Shape.secondarySignerRoles) in
  evaluate (unlessFail (match shape.(Shape.abi).(Sdk.signers) with
                        | JsNumber (Some n) => bool_decide (n = 1 + arrayLength secondarySigners)
                        | _ => false
                        end)
    (operationName context.(Context.request).(Request.operation_key) ⧺ " local ABI signer count does not match ordered transaction signers")) ;;
  let controls := context.(Context.request).(Request.transaction_controls) in
  maxGas ← evaluate (safeNumber controls.(Controls.max_gas_amount) "max_gas_amount");
  gasPrice ← evaluate (safeNumber controls.(Controls.gas_unit_price) "gas_unit_price");
  expiry ← evaluate (safeNumber controls.(Controls.expiration_timestamp_secs) "expiration_timestamp_secs");
  asset ← evaluate (parseTypeTag CEDRA_COIN);
  let options := Sdk.mkOptions (JsBigint (bigintOf controls.(Controls.sequence_number))) (JsNumber (Some maxGas))
                   (JsNumber (Some gasPrice)) (JsNumber (Some expiry)) (Some (Some asset)) in
  '(transaction, identity) ←
    (match secondarySigners with
     | [] =>
         transaction ← portBuildSingleSigner (SingleRequest.mk _ (JsString sender) (Some shape.(Shape.data)) (Some options));
         identity ← evaluate (describeSingleSignerTransaction sha256Bytes describe transaction);
         mret (transaction, identity)
     | _ =>
         transaction ← portBuildMultiAgent (MultiRequest.mk _ (JsString sender) (Some (map JsString secondarySigners))
                                              (Some shape.(Shape.data)) (Some options));
         identity ← evaluate (describeMultiAgentTransaction sha256Bytes describe transaction);
         mret (transaction, identity)
     end);
  evaluate (unlessFail (bool_decide (identity.(TxIdentity.chainId) = TESTNET_CHAIN_ID)
                        && bool_decide (identity.(TxIdentity.fungibleAssetGasType) = CEDRA_COIN)
                        && bool_decide (identity.(TxIdentity.feePayerAddress) = None))
              "built transaction is not fixed to Testnet chain 2, default CED gas, and no fee payer") ;;
  let transactionEvidence := TxEvidence.mk sender secondarySigners controls.(Controls.sequence_number)
    controls.(Controls.expiration_timestamp_secs) controls.(Controls.max_gas_amount) controls.(Controls.gas_unit_price)
    shape.(Shape.payload) in
  semantics ← evaluate (jsonSafe (evidenceJson transactionEvidence));
  mret (Built.mk context shape.(Shape.transactionKind) transaction transactionEvidence identity
          (sha256 (canonicalJsonBytes semantics)) shape.(Shape.publishBinding) shape.(Shape.senderRole)
          shape.(Shape.secondarySignerRoles) shape.(Shape.abi)).

(** ** The simulation *)

Definition signerPublicKey (built : Built.BuiltReleaseCandidate) (role : ReleaseRoleKey) : PublicKey :=
  built.(Built.context).(Context.publicKeys) role.

Definition expectedRestPublicKey (built : Built.BuiltReleaseCandidate) (role : ReleaseRoleKey) : string :=
  let key := (built.(Built.context).(Context.profileBindings) role).(ProfileBinding.public_key) in
  default key (stripPrefix PUBLIC_KEY_PREFIX key).

Definition assertZeroEd25519SimulationAuthenticator (value : option Json) (expectedPublicKey label : string) : Outcome unit :=
  authenticator ← exactObject value ["type"; "public_key"; "signature"] label;
  unlessFail (isText (jsGet "type" authenticator) "ed25519_signature")
    (label ⧺ " must be an Ed25519 simulation authenticator") ≫= fun _ =>
  unlessFail (isText (jsGet "public_key" authenticator) expectedPublicKey)
    (label ⧺ " public key differs from the requested public profile key") ≫= fun _ =>
  unlessFail (isText (jsGet "signature" authenticator) ZERO_SIMULATION_SIGNATURE)
    (label ⧺ " must contain the SDK's all-zero 64-byte simulation signature").

(** The one response of a simulation. *)
Definition singleResponse (responses : Json) : Outcome JsonFields :=
  match responses with
  | JArray [response] => objectValue (Some response) "Cedra simulation response"
  | _ => fail "Cedra simulation must return exactly one transaction response"
  end.

(** The loop over [secondarySignerRoles.entries()], from [index] on. *)
Fixpoint assertSecondaryAuthenticators (built : Built.BuiltReleaseCandidate) (index : Z) (roles : list ReleaseRoleKey)
    (signers : list Address) (addresses authenticators : list Json) : Outcome unit :=
  match roles with
  | [] => Returns tt
  | role :: roles' =>
      observedAddress ← canonicalAddress (head addresses) ("Cedra simulation secondary signer address " ⧺ show index);
      unlessFail (bool_decide (Some observedAddress = head signers))
        ("Cedra simulation secondary signer address " ⧺ show index ⧺ " differs from the requested signer order") ≫= fun _ =>
      assertZeroEd25519SimulationAuthenticator (head authenticators) (expectedRestPublicKey built role)
        ("Cedra simulation secondary authenticator " ⧺ show index) ≫= fun _ =>
      assertSecondaryAuthenticators built (index + 1) roles' (tail signers) (tail addresses) (tail authenticators)
  end.

Definition assertSimulationAuthenticatorBinding (responses : Json) (built : Built.BuiltReleaseCandidate) : Outcome unit :=
  response ← singleResponse responses;
  let sender := expectedRestPublicKey built built.(Built.senderRole) in
  match built.(Built.secondarySignerRoles) with
  | [] => assertZeroEd25519SimulationAuthenticator (jsGet "signature" response) sender "Cedra simulation sender authenticator"
  | roles =>
      authenticator ← exactObject (jsGet "signature" response)
        ["type"; "sender"; "secondary_signer_addresses"; "secondary_signers"] "Cedra multi-agent simulation authenticator";
      unlessFail (isText (jsGet "type" authenticator) "multi_agent_signature")
        "Cedra multi-agent simulation must return a multi-agent authenticator" ≫= fun _ =>
      assertZeroEd25519SimulationAuthenticator (jsGet "sender" authenticator) sender "Cedra simulation sender authenticator" ≫= fun _ =>
      match jsGet "secondary_signer_addresses" authenticator, jsGet "secondary_signers" authenticator with
      | Some (JArray addresses), Some (JArray authenticators) =>
          unlessFail (bool_decide (length addresses = length roles) && bool_decide (length authenticators = length roles))
            "Cedra simulation secondary authenticator arrays differ from the requested signer set" ≫= fun _ =>
          assertSecondaryAuthenticators built 0 roles built.(Built.transactionEvidence).(TxEvidence.secondary_signers)
            addresses authenticators
      | _, _ => fail "Cedra simulation secondary authenticator arrays differ from the requested signer set"
      end
  end.

(** [String(value)]; [describeJson] is it on anything but text and integers. *)
Definition stringOf (value : option Json) : string :=
  match value with
  | Some (JString text) => text
  | Some (JNumber n) => show n
  | _ => describeJson value
  end.

(** [vmStatus] and [gasUsed] of a simulation that succeeded. *)
Definition simulationSummary (responses : Json) : Outcome (string * string) :=
  response ← singleResponse responses;
  let vmStatus := jsGet "vm_status" response in
  unlessFail (isTrue (jsGet "success" response))
    ("Cedra simulation failed: " ⧺ (if isNullish vmStatus then "missing vm_status" else stringOf vmStatus)) ≫= fun _ =>
  status ← stringValue vmStatus "Cedra simulation vm_status" anyText;
  gasUsed ← decimalValue (Some (JString (stringOf (jsGet "gas_used" response)))) "Cedra simulation gas_used" MAX_U64 false;
  Returns (status, gasUsed).

Definition candidateJson (built : Built.BuiltReleaseCandidate) (captured vmStatus gasUsed responseDigest : string) : Json :=
  let context := built.(Built.context) in
  let request := context.(Context.request) in
  JObject
    [("schema_version", JNumber 2);
     ("evidence_scope", JString "testnet-transaction-candidate");
     ("status", JString "simulated-awaiting-detached-approvals");
     ("network", JString TESTNET_NETWORK);
     ("api_url", JString TESTNET_API_URL);
     ("chain_id", JString TESTNET_CHAIN_ID_TEXT);
     ("deployment_id", JString request.(Request.deployment_id));
     ("application_commit", JString context.(Context.applicationCommit));
     ("exact_address_artifacts_sha256", JString context.(Context.exactAddressArtifactsSha256));
     ("public_profile_binding", JObject
        [("evidence_sha256", JString context.(Context.profileEvidenceSha256));
         ("public_role_candidate_sha256", JString context.(Context.publicRoleCandidateSha256));
         ("derivation_method", JString PROFILE_DERIVATION_METHOD);
         ("derivation_tool", JString PROFILE_DERIVATION_TOOL);
         ("assembler_revalidation_sdk_package", JString REVIEWED_SDK_PACKAGE);
         ("assembler_revalidation_sdk_version", JString REVIEWED_SDK_VERSION);
         ("profiles", bindingsJson context.(Context.profileBindings))]);
     ("build_environment", JObject context.(Context.buildEnvironment));
     ("roles", rolesJson context.(Context.roles));
     ("transaction_kind", JString (transactionKindName built.(Built.transactionKind)));
     ("operation_key", JString (operationName request.(Request.operation_key)));
     ("transaction", evidenceJson built.(Built.transactionEvidence));
     ("transaction_identity", identityJson built.(Built.transactionIdentity));
     ("transaction_semantics_sha256", JString built.(Built.transactionSemanticsSha256));
     ("gas_budget", budgetJson request.(Request.gas_budget));
     ("simulation", JObject
        [("captured_at", JString captured); ("success", JBool true); ("vm_status", JString vmStatus);
         ("gas_used", JString gasUsed); ("raw_response_file", JString "simulation-response.json");
         ("raw_response_sha256", JString responseDigest);
         ("transaction_semantics_sha256", JString built.(Built.transactionSemanticsSha256))]);
     ("publish_binding", jsonNullable publishJson built.(Built.publishBinding))].

(** The request to the client, by the signers of the operation. *)
Definition simulateBuilt (built : Built.BuiltReleaseCandidate) : Task W Simulation.SimulationResult :=
  let key := signerPublicKey built built.(Built.senderRole) in
  match built.(Built.secondarySignerRoles) with
  | [] => portSimulateSingleSigner (Simulation.mkSingle built.(Built.transaction) built.(Built.transactionIdentity) key)
  | roles => portSimulateMultiAgent (Simulation.mkMulti built.(Built.transaction) built.(Built.transactionIdentity) key
                                       (map (signerPublicKey built) roles))
  end.

(** [capturedAt] in milliseconds, [None] when the [Date] is invalid.  [jsonSafe] is the identity on the
    parts of the candidate, which hold no bigints. *)
Definition simulateReleaseCandidate (built : Built.BuiltReleaseCandidate) (capturedAt : option Z) : Task W Bundle.CandidateBundle :=
  capturedAt ← evaluate (from_option Returns (fail "simulation capture time is invalid") capturedAt);
  result ← simulateBuilt built;
  observed ← evaluate (jsonSafe (identityJson result.(Simulation.identity)));
  expected ← evaluate (jsonSafe (identityJson built.(Built.transactionIdentity)));
  evaluate (unlessFail (sameJson observed expected) "Cedra simulation returned a transaction identity different from the built candidate") ;;
  responses ← evaluate (jsonSafe (responsesJson result.(Simulation.responses)));
  evaluate (assertSimulationAuthenticatorBinding responses built) ;;
  '(vmStatus, gasUsed) ← evaluate (simulationSummary responses);
  evaluate (unlessFail (bool_decide (bigintOf gasUsed <= bigintOf built.(Built.transactionEvidence).(TxEvidence.max_gas_amount)))
              "simulated gas exceeds the explicitly requested maximum") ;;
  let simulationResponse := JObject [("identity", expected); ("responses", responses)] in
  let captured := dropMilliseconds (isoString capturedAt) in
  mret (Bundle.mk (candidateJson built captured vmStatus gasUsed (sha256 (canonicalJsonBytes simulationResponse))) simulationResponse).

Definition assembleReleaseCandidate (context : Context.ValidatedAssemblyContext) (capturedAt : option Z) : Task W Bundle.CandidateBundle :=
  built ← buildReleaseCandidate context; simulateReleaseCandidate built capturedAt.

(** The UTF-8 text of both files. *)
Definition candidateBundleBytes (bundle : Bundle.CandidateBundle) : string * string :=
  (canonicalJsonBytes bundle.(Bundle.candidate), canonicalJsonBytes bundle.(Bundle.simulationResponse)).
End Assembler.
