(* ===== verification/CanonicalJson.v ===== *)
(** * Canonical JSON

    [sortedJsonValue] puts the keys of every object in order, so two values have
    one canonical text exactly when they differ in the order of keys only. *)
From Stdlib Require Import Sorting.Sorted.
From stdpp Require Import sorting.
From S2P Require Import Prelude JsMap Types MoveDomains JsValue Json JsonRoundTrip ReleaseInputs.

(** ** Sorting by key *)

Lemma string_leb_cons a s b t :
  String.leb (String a s) (String b t) = true <->
  (N_of_ascii a < N_of_ascii b)%N \/ (a = b /\ String.leb s t = true).
Proof.
  unfold String.leb. cbn [String.compare]. unfold Ascii.compare. destruct (N.compare_spec (N_of_ascii a) (N_of_ascii b)) as [E|E|E].
  - split; [right|intros [Hl|[_ Hs]]; [lia|done]]. split; [|done].
    by rewrite <- (ascii_N_embedding a), E, ascii_N_embedding.
  - split; [by left|done].
  - split; [done|intros [Hl|[-> _]]; lia].
Qed.

Lemma string_leb_trans s t u : String.leb s t = true -> String.leb t u = true -> String.leb s u = true.
Proof.
  revert t u. induction s as [|a s IH]; intros t u; [by destruct u|].
  destruct t as [|b t]; [done|]. destruct u as [|c u]; [done|]. rewrite !string_leb_cons.
  intros [H1|[-> H1]] [H2|[-> H2]]; [left; lia|by left|by left|right; split; [done|by eapply IH]].
Qed.

Definition keyLe (x y : string * Json) : Prop := String.leb x.1 y.1 = true.

Lemma insertField_permutation field l : insertField field l ≡ₚ field :: l.
Proof. induction l as [|x l IH]; cbn; [done|]. destruct (String.leb _ _); [done|]. rewrite IH. constructor. Qed.

Lemma sortFields_permutation l : sortFields l ≡ₚ l.
Proof. induction l as [|x l IH]; cbn; [done|]. by rewrite insertField_permutation, IH. Qed.

Lemma insertField_sorted field l : StronglySorted keyLe l -> StronglySorted keyLe (insertField field l).
Proof.
  induction 1 as [|x l Hl IH Hx]; cbn; [by repeat constructor|]. destruct (String.leb field.1 x.1) eqn:E.
  - constructor; [by constructor|]. constructor; [done|]. eapply Forall_impl; [|exact Hx].
    intros y Hy. unfold keyLe in *. by eapply string_leb_trans.
  - constructor; [done|]. rewrite insertField_permutation. constructor; [|done].
    destruct (String.leb_total field.1 x.1) as [H|H]; [congruence|done].
Qed.

Lemma sortFields_sorted l : StronglySorted keyLe (sortFields l).
Proof. induction l as [|x l IH]; cbn; [constructor|by apply insertField_sorted]. Qed.

Lemma sortFields_unique l l' : NoDup (map fst l) -> l ≡ₚ l' -> sortFields l = sortFields l'.
Proof.
  intros Hnd Hp. eapply StronglySorted_unique_strong; [|apply sortFields_sorted..|by rewrite !sortFields_permutation].
  intros x y Hx Hy Hxy Hyx. rewrite !sortFields_permutation in Hx. rewrite sortFields_permutation, <- Hp in Hy.
  pose proof (String.leb_antisym _ _ Hxy Hyx) as Ek.
  apply list_elem_of_lookup in Hx as [i Hi], Hy as [j Hj].
  assert (i = j) as <-; [|congruence].
  eapply (NoDup_lookup (map fst l)); [done| |]; rewrite list_lookup_fmap; [by rewrite Hi|rewrite Hj; by rewrite Ek].
Qed.

Lemma insertField_map (g : Json -> Json) field l :
  insertField (field.1, g field.2) (map (fun f => (f.1, g f.2)) l) = map (fun f => (f.1, g f.2)) (insertField field l).
Proof. induction l as [|x l IH]; cbn; [done|]. destruct (String.leb _ _); cbn; [done|]. by rewrite <- IH. Qed.

Lemma sortFields_map (g : Json -> Json) l :
  sortFields (map (fun f => (f.1, g f.2)) l) = map (fun f => (f.1, g f.2)) (sortFields l).
Proof. induction l as [|x l IH]; [done|]. unfold sortFields in *. cbn [map foldr]. by rewrite IH, insertField_map. Qed.

(** ** The sorted value *)

Lemma sorted_object fields :
  jsonOk (JObject fields) = true ->
  sortedJsonValue (JObject fields) = JObject (map (fun field => (field.1, sortedJsonValue field.2)) (sortFields fields)).
Proof.
  cbn [jsonOk]. intros Hok. apply andb_prop in Hok as [[Hnd Hidx]%andb_prop _].
  apply bool_decide_eq_true in Hnd. cbn [sortedJsonValue]. rewrite sortFields_map, objectOf_own; [done| |].
  - rewrite map_map. cbn [fst]. eapply NoDup_Permutation_proper; [|exact Hnd]. apply fmap_Permutation, sortFields_permutation.
  - apply Forall_map. rewrite sortFields_permutation. apply forallb_Forall in Hidx. eapply Forall_impl; [|exact Hidx].
    intros field Hf. by apply bool_decide_eq_true in Hf.
Qed.

Lemma jsonOk_fields fields :
  jsonOk (JObject fields) = true -> NoDup (map fst fields) /\ Forall (fun field => arrayIndex field.1 = None) fields
  /\ Forall (fun field => jsonOk field.2 = true) fields.
Proof.
  cbn [jsonOk]. intros Hok. apply andb_prop in Hok as [[Hnd Hidx]%andb_prop Hf]. apply bool_decide_eq_true in Hnd.
  apply forallb_Forall in Hidx, Hf. split; [done|]. split; [|done]. eapply Forall_impl; [|exact Hidx].
  intros field Hi. by apply bool_decide_eq_true in Hi.
Qed.

Lemma jsonOk_object fields :
  NoDup (map fst fields) -> Forall (fun field => arrayIndex field.1 = None) fields ->
  Forall (fun field => jsonOk field.2 = true) fields -> jsonOk (JObject fields) = true.
Proof.
  intros Hnd Hidx Hf. cbn [jsonOk]. rewrite bool_decide_true by done. rewrite andb_true_l. apply andb_true_intro.
  split; apply forallb_Forall; [|done]. eapply Forall_impl; [|exact Hidx]. intros field E. by apply bool_decide_eq_true.
Qed.

Lemma sorted_ok j : jsonOk j = true -> jsonOk (sortedJsonValue j) = true.
Proof.
  induction j using Json_nested_ind; intros Hok; try done.
  - cbn in *. apply forallb_Forall in Hok. apply forallb_Forall, Forall_map.
    eapply Forall_impl; [|exact (Forall_and H Hok)]. intros j [Hi Hj]. by apply Hi.
  - rewrite sorted_object by done. apply jsonOk_fields in Hok as (Hnd & Hidx & Hf). apply jsonOk_object.
    + rewrite map_map. cbn [fst]. eapply NoDup_Permutation_proper; [|exact Hnd]. apply fmap_Permutation, sortFields_permutation.
    + apply Forall_map. by rewrite sortFields_permutation.
    + apply Forall_map. rewrite sortFields_permutation. eapply Forall_impl; [|exact (Forall_and H Hf)]. intros field [Hi Hj]. by apply Hi.
Qed.

(** No bigints: what [JSON.parse] gives. *)
Fixpoint noBigint (j : Json) : bool :=
  match j with
  | JBigint _ => false
  | JArray items => forallb noBigint items
  | JObject fields => forallb (fun field => noBigint field.2) fields
  | _ => true
  end.

Lemma plain_noBigint j : noBigint j = true -> plain j = j.
Proof.
  induction j using Json_nested_ind; intros Hok; try done; cbn in *; apply forallb_Forall in Hok; f_equal.
  - rewrite <- (map_id items) at 2. apply Forall_fmap_ext_1. eapply Forall_impl; [|exact (Forall_and H Hok)]. intros j [Hi Hj]. by apply Hi.
  - rewrite <- (map_id fields) at 2. apply Forall_fmap_ext_1. eapply Forall_impl; [|exact (Forall_and H Hok)].
    intros [k j] [Hi Hj]. cbn in *. by rewrite Hi.
Qed.

Lemma sorted_noBigint j : jsonOk j = true -> noBigint j = true -> noBigint (sortedJsonValue j) = true.
Proof.
  induction j using Json_nested_ind; intros Hok Hn; try done.
  - cbn in *. apply forallb_Forall in Hn, Hok. apply forallb_Forall, Forall_map.
    eapply Forall_impl; [|exact (Forall_and H (Forall_and Hok Hn))]. intros j (Hi & Hj & Hk). by apply Hi.
  - rewrite sorted_object by done. apply jsonOk_fields in Hok as (_ & _ & Hf). cbn in *. apply forallb_Forall in Hn.
    apply forallb_Forall, Forall_map. rewrite sortFields_permutation.
    eapply Forall_impl; [|exact (Forall_and H (Forall_and Hf Hn))]. intros j (Hi & Hj & Hk). by apply Hi.
Qed.

(** ** Equality up to the order of keys *)

Inductive JsonEquiv : Json -> Json -> Prop :=
| equiv_same j : JsonEquiv j j
| equiv_array items items' : Forall2 JsonEquiv items items' -> JsonEquiv (JArray items) (JArray items')
| equiv_object fields reordered fields' :
    fields ≡ₚ reordered ->
    Forall2 (fun field field' => field.1 = field'.1 /\ JsonEquiv field.2 field'.2) reordered fields' ->
    JsonEquiv (JObject fields) (JObject fields').

Lemma equiv_sorted j : jsonOk j = true -> JsonEquiv j (sortedJsonValue j).
Proof.
  induction j using Json_nested_ind; intros Hok; try apply equiv_same.
  - cbn in *. apply forallb_Forall in Hok. apply equiv_array, Forall2_fmap_r, Forall_Forall2_diag.
    eapply Forall_impl; [|exact (Forall_and H Hok)]. intros j [Hi Hj]. by apply Hi.
  - rewrite sorted_object by done. apply jsonOk_fields in Hok as (_ & _ & Hf).
    apply (equiv_object _ (sortFields fields)); [by rewrite sortFields_permutation|].
    apply Forall2_fmap_r, Forall_Forall2_diag. rewrite sortFields_permutation.
    eapply Forall_impl; [|exact (Forall_and H Hf)]. intros field [Hi Hj]. split; [done|]. by apply Hi.
Qed.

Lemma insertField_related (R : string * Json -> string * Json -> Prop) x x' l l' :
  (forall a b, R a b -> a.1 = b.1) -> R x x' -> Forall2 R l l' -> Forall2 R (insertField x l) (insertField x' l').
Proof.
  intros Hkey Hx. induction 1 as [|a b l l' Hab Hl IH]; cbn; [by constructor|].
  rewrite (Hkey _ _ Hx), (Hkey _ _ Hab). destruct (String.leb _ _); by repeat constructor.
Qed.

Lemma sortFields_related (R : string * Json -> string * Json -> Prop) l l' :
  (forall a b, R a b -> a.1 = b.1) -> Forall2 R l l' -> Forall2 R (sortFields l) (sortFields l').
Proof.
  intros Hkey. induction 1 as [|a b l l' Hab Hl IH]; unfold sortFields in *; cbn [foldr]; [constructor|].
  by apply insertField_related.
Qed.

Lemma forall2_map_eq {A B} (f : A -> B) (R : A -> A -> Prop) l l' :
  Forall2 R l l' -> Forall (fun x => forall y, R x y -> f x = f y) l -> map f l = map f l'.
Proof. induction 1 as [|x y l l' Hxy Hl IH]; cbn; [done|]. rewrite Forall_cons_iff. intros [Hx Hf]. f_equal; [by apply Hx|by apply IH]. Qed.

(** Equal up to the order of keys, and so the same when sorted. *)
Lemma sorted_equiv j j' :
  jsonOk j = true -> jsonOk j' = true -> JsonEquiv j j' -> sortedJsonValue j = sortedJsonValue j'.
Proof.
  revert j'. induction j using Json_nested_ind; intros j' Hok Hok' E; inversion E as [|? items' Hi|? reordered fields' Hp Hf]; subst; try done.
  - cbn in *. f_equal. apply forallb_Forall in Hok, Hok'.
    assert (Hall : Forall2 (fun a b => JsonEquiv a b /\ jsonOk b = true) items items').
    { apply Forall2_same_length_lookup. split; [by eapply Forall2_length|]. intros i a b Ha Hb.
      split; [by eapply Forall2_lookup_lr|]. rewrite Forall_lookup in Hok'. by eapply Hok'. }
    apply (forall2_map_eq _ _ _ _ Hall). eapply Forall_impl; [|exact (Forall_and H Hok)]. intros x [Hx Ho] y [Hxy Hy]. by apply Hx.
  - pose proof (jsonOk_fields _ Hok) as (Hnd & _ & Hf1). pose proof (jsonOk_fields _ Hok') as (_ & _ & Hf2).
    rewrite !sorted_object by done. f_equal. rewrite (sortFields_unique fields reordered) by done.
    assert (Hall : Forall2 (fun a b : string * Json => a.1 = b.1 /\ JsonEquiv a.2 b.2 /\ jsonOk b.2 = true) (sortFields reordered) (sortFields fields')).
    { apply sortFields_related; [by intros a b []|]. apply Forall2_same_length_lookup. split; [by eapply Forall2_length|].
      intros i a b Ha Hb. pose proof (Forall2_lookup_lr _ _ _ _ _ _ Hf Ha Hb) as [Hk He].
      split; [done|]. split; [done|]. rewrite Forall_lookup in Hf2. by eapply Hf2. }
    eapply forall2_map_eq; [exact Hall|]. rewrite sortFields_permutation, <- Hp.
    eapply Forall_impl; [|exact (Forall_and H Hf1)]. intros x [Hx Ho] y (Hk & He & Hy). cbn. rewrite Hk. f_equal. by apply Hx.
Qed.

Lemma map_forall2 {A B} (f g : A -> B) (l l' : list A) :
  map f l = map g l' -> Forall2 (fun x y => f x = g y) l l'.
Proof. revert l'. induction l as [|x l IH]; intros [|y l'] E; try discriminate; [constructor|]. injection E as E1 E2. constructor; [done|by apply IH]. Qed.

(** The same when sorted, and so equal up to the order of keys. *)
Lemma same_sorted j j' :
  jsonOk j = true -> jsonOk j' = true -> sortedJsonValue j = sortedJsonValue j' -> JsonEquiv j j'.
Proof.
  revert j'. induction j using Json_nested_ind; intros j' Hok Hok' E.
  7: { destruct j' as [| | | | | |items'|fields']; try discriminate; try by rewrite sorted_object in E.
       injection E as E. apply map_forall2 in E. apply equiv_array, Forall2_same_length_lookup. split; [by eapply Forall2_length|].
       intros i a b Ha Hb. cbn in Hok, Hok'. apply forallb_Forall in Hok, Hok'. rewrite Forall_lookup in H, Hok, Hok'.
       eapply H; [done|by eapply Hok|by eapply Hok'|]. by eapply (Forall2_lookup_lr _ _ _ _ _ _ E). }
  7: { rewrite sorted_object in E by done. destruct j' as [| | | | | |items'|fields']; try discriminate.
       rewrite sorted_object in E by done. injection E as E. apply map_forall2 in E.
       apply jsonOk_fields in Hok as (_ & _ & Hf1). pose proof (jsonOk_fields _ Hok') as (_ & _ & Hf2).
       assert (E' : Forall2 (fun y x : string * Json => (x.1, sortedJsonValue x.2) = (y.1, sortedJsonValue y.2)) (sortFields fields') (sortFields fields))
         by by apply Forall2_flip.
       destruct (Permutation_Forall2 (sortFields_permutation fields') E') as (reordered & Hp & Hr). apply Forall2_flip in Hr.
       assert (Hp' : fields ≡ₚ reordered) by by rewrite <- Hp, sortFields_permutation.
       apply (equiv_object _ reordered); [done|]. apply Forall2_same_length_lookup. split; [by eapply Forall2_length|].
       intros i a b Ha Hb. pose proof (Forall2_lookup_lr _ _ _ _ _ _ Hr Ha Hb) as [= Hk Es]. split; [done|].
       rewrite Hp' in H, Hf1. rewrite Forall_lookup in H, Hf1, Hf2. eapply H; [done|by eapply Hf1|by eapply Hf2|done]. }
  all: destruct j' as [| | | | | |items'|fields']; try discriminate E; try (by rewrite sorted_object in E); first [apply equiv_same|injection E as ->; apply equiv_same].
Qed.

Lemma sameJson_spec j j' :
  jsonOk j = true -> noBigint j = true -> jsonOk j' = true -> noBigint j' = true ->
  sameJson j j' = true <-> JsonEquiv j j'.
Proof.
  intros Hj Hb Hj' Hb'. unfold sameJson. rewrite bool_decide_eq_true. split.
  - intros E%stringify_inj; [|by apply sorted_ok..]. rewrite !plain_noBigint in E by by apply sorted_noBigint. by apply same_sorted.
  - intros E. by rewrite (sorted_equiv j j').
Qed.
