(* ===== verification/AssemblerSpec.v ===== *)
(** * What the readers of the assembler's inputs let through *)
From Stdlib Require Import Strings.Byte.
From S2P Require Import Prelude JsMap Types MoveDomains JsValue Numerals Json SdkTypes Accounting Replay Group WalletHandlers.
From S2P Require Import LpHandlers PoolHandlers ConfigHandlers GroupChecks Reducer Reconciler Snapshot SnapshotDecode.
From S2P Require Import AlertCodec Store CursorRoundTrip JsonRoundTrip Disk FileStore ReleaseClient ReleaseSpec.
From S2P Require Import ReleaseInputs CanonicalJson.

(** ** Readers *)

Lemma unlessFail_returns condition message : unlessFail condition message = Returns tt <-> condition = true.
Proof. by destruct condition. Qed.

Lemma isText_spec value text : isText value text = true <-> value = Some (JString text).
Proof.
  destruct value as [[| | | | |s| |]|]; cbn; try by split. rewrite bool_decide_eq_true. split; [by intros ->|by intros [= ->]].
Qed.

Lemma isTrue_spec value : isTrue value = true <-> value = Some (JBool true).
Proof. destruct value as [[|[]| | | | | |]|]; cbn; by split. Qed.

Lemma stringValue_returns value label pattern text :
  stringValue value label pattern = Returns text <-> value = Some (JString text) /\ text <> "" /\ pattern text = true.
Proof.
  unfold stringValue. split.
  - destruct value as [[| | | | |s| |]|]; try discriminate. destruct (_ || _) eqn:E; [discriminate|]. bools. intros [= <-].
    split; [done|]. split; [by intros ->|done].
  - intros (-> & Ht & ->). rewrite bool_decide_false; [done|]. by destruct text.
Qed.

Lemma parseDigits_nonneg acc s n : 0 <= acc -> parseDigits acc s = Some n -> 0 <= n.
Proof.
  revert acc. induction s as [|c s IH]; intros acc Ha; cbn; [by intros [= <-]|].
  destruct (digitValue c) as [d|] eqn:E; [|discriminate]. apply IH. unfold digitValue in E. destruct (_ && _) eqn:Eb; [|discriminate].
  bools. injection E as <-. lia.
Qed.

Lemma bigintOf_nonneg s : 0 <= bigintOf s.
Proof. unfold bigintOf. destruct (parseDigits 0 s) eqn:E; [|done]. by eapply parseDigits_nonneg in E. Qed.

Lemma decimalValue_returns value label maximum positive text :
  decimalValue value label maximum positive = Returns text <->
  value = Some (JString text) /\ DECIMAL_PATTERN text = true
  /\ bigintOf text <= maximum /\ (positive = true -> 1 <= bigintOf text).
Proof.
  unfold decimalValue. rewrite outcome_bind_iff. pose proof bigintOf_nonneg as Hpos. split.
  - intros (t & (-> & Ht & Hp)%stringValue_returns & E). destruct (_ || _) eqn:Eb in E; [discriminate|]. injection E as ->.
    specialize (Hpos text). bools. split; [done|]. split; [done|]. split; [lia|]. intros ->. cbn in *. bools. lia.
  - intros (-> & Hp & Hm & H1). exists text. split; [apply stringValue_returns; split; [done|]; split; [|done]; by intros ->|].
    rewrite (bool_decide_false (bigintOf text > maximum)) by lia. destruct positive; cbn; [|done].
    rewrite bool_decide_false by (specialize (H1 eq_refl); lia). done.
Qed.

Lemma safeNumber_returns value label n :
  safeNumber value label = Returns n <-> n = bigintOf value /\ bigintOf value <= MAX_SAFE_INTEGER.
Proof.
  unfold safeNumber, isSafeInteger. pose proof (bigintOf_nonneg value). unfold MAX_SAFE_INTEGER in *. split.
  - destruct (_ && _) eqn:E; [|discriminate]. bools. by intros [= <-].
  - intros [-> Hn]. by rewrite !bool_decide_true by lia.
Qed.

Lemma forRoles_returns {A} (f : ReleaseRoleKey -> Outcome A) record :
  forRoles f = Returns record -> forall role, f role = Returns (record role).
Proof. unfold forRoles. intros E. outcome_inv. by intros []. Qed.

Lemma sortedStrings_inj keys keys' : keysText keys = keysText keys' -> sortStrings keys = sortStrings keys'.
Proof.
  unfold keysText. intros E%stringify_inj; [| |].
  - cbn in E. injection E as E. rewrite !map_map in E. cbn in E. revert E. generalize (sortStrings keys) (sortStrings keys').
    induction l as [|x l IH]; intros [|y l'] E; try discriminate; [done|]. injection E as -> E. f_equal. by apply IH.
  - cbn. apply forallb_Forall, Forall_map, Forall_true. done.
  - cbn. apply forallb_Forall, Forall_map, Forall_true. done.
Qed.

Lemma insertString_permutation x l : insertString x l ≡ₚ x :: l.
Proof. induction l as [|y l IH]; cbn; [done|]. destruct (String.leb _ _); [done|]. rewrite IH. constructor. Qed.

Lemma sortStrings_permutation l : sortStrings l ≡ₚ l.
Proof. unfold sortStrings. induction l as [|x l IH]; cbn; [done|]. by rewrite insertString_permutation, IH. Qed.

(** An exact object has exactly those keys, in any order. *)
Lemma exactObject_returns value expectedKeys label fields :
  exactObject value expectedKeys label = Returns fields -> value = Some (JObject fields) /\ jsKeys fields ≡ₚ expectedKeys.
Proof.
  unfold exactObject, objectValue. intros (fields' & E1 & E2)%outcome_bind_iff.
  destruct value as [[| | | | | | |f]|]; try discriminate. injection E1 as ->. case_bool_decide as E; [discriminate|]. injection E2 as ->.
  split; [done|]. apply sortedStrings_inj in E.
  by rewrite <- (sortStrings_permutation (jsKeys fields)), E, sortStrings_permutation.
Qed.

(** ** Roles *)

Lemma sorted_roles roles :
  sortedJsonValue (rolesJson roles) =
  JObject [("amm_publisher", JString (roles amm_publisher)); ("assets_publisher", JString (roles assets_publisher));
           ("bootstrap_lp", JString (roles bootstrap_lp)); ("core_publisher", JString (roles core_publisher))].
Proof. reflexivity. Qed.

Lemma sameRoles_spec roles roles' :
  sameJson (rolesJson roles) (rolesJson roles') = true <-> forall role, roles role = roles' role.
Proof.
  unfold sameJson. rewrite bool_decide_eq_true, !sorted_roles. split.
  - intros E%stringify_inj; [|done..]. cbn in E. injection E as H1 H2 H3 H4. by intros [].
  - intros E. by rewrite !E.
Qed.

(** ** The build request *)

(** The numbers of a request are exact, its fee is the approved worst case, its roles and keys are distinct. *)
Record SoundRequest (request : Request.TransactionBuildRequest) : Prop := {
  sound_sequence : 0 <= bigintOf request.(Request.transaction_controls).(Controls.sequence_number) <= MAX_U64;
  sound_gas : 1 <= bigintOf request.(Request.transaction_controls).(Controls.max_gas_amount) <= MAX_SAFE_INTEGER;
  sound_price : 1 <= bigintOf request.(Request.transaction_controls).(Controls.gas_unit_price) <= MAX_SAFE_INTEGER;
  sound_expiry : 1 <= bigintOf request.(Request.transaction_controls).(Controls.expiration_timestamp_secs) <= MAX_SAFE_INTEGER;
  sound_fee : bigintOf request.(Request.transaction_controls).(Controls.max_gas_amount)
                * bigintOf request.(Request.transaction_controls).(Controls.gas_unit_price)
              = bigintOf request.(Request.gas_budget).(Budget.approved_max_total_fee_base_units);
  sound_total : bigintOf request.(Request.gas_budget).(Budget.approved_max_total_fee_base_units) <= MAX_U128;
  sound_roles : NoDup (roleValues request.(Request.roles));
  sound_keys : NoDup (roleValues request.(Request.profile_public_keys))
}.

(** Peels the binds of a reader that returned; the checks turn into facts. *)
Ltac readers :=
  outcome_inv;
  repeat match goal with
  | H : unlessFail _ _ = Returns ?a |- _ => destruct a; apply unlessFail_returns in H
  | H : from_option Returns (fail _) _ = Returns _ |- _ => apply from_option_returns in H
  | H : stringValue _ _ _ = Returns _ |- _ => apply stringValue_returns in H as (? & ? & ?)
  | H : decimalValue _ _ _ _ = Returns _ |- _ => apply decimalValue_returns in H as (? & ? & ? & ?)
  | H : safeNumber _ _ = Returns _ |- _ => apply safeNumber_returns in H as [? ?]
  end; bools.

Lemma parseControls_sound value controls :
  parseControls value = Returns controls ->
  bigintOf controls.(Controls.sequence_number) <= MAX_U64 /\ 1 <= bigintOf controls.(Controls.max_gas_amount)
  /\ 1 <= bigintOf controls.(Controls.gas_unit_price) /\ 1 <= bigintOf controls.(Controls.expiration_timestamp_secs).
Proof. unfold parseControls. intros E. readers. cbn. repeat split; auto. Qed.

Lemma parseBudget_sound value budget :
  parseBudget value = Returns budget -> bigintOf budget.(Budget.approved_max_total_fee_base_units) <= MAX_U128.
Proof. unfold parseBudget. intros E. readers. cbn. done. Qed.

Lemma parseRoles_distinct value label roles : parseRoles value label = Returns roles -> NoDup (roleValues roles).
Proof. unfold parseRoles, hasUnique. intros E. readers. done. Qed.

Lemma parsePublicKeys_distinct value label keys : parsePublicKeys value label = Returns keys -> NoDup (roleValues keys).
Proof. unfold parsePublicKeys, hasUnique. intros E. readers. done. Qed.

Lemma parseBuildRequest_sound coin value request : parseBuildRequest coin value = Returns request -> SoundRequest request.
Proof.
  unfold parseBuildRequest. intros E. readers.
  repeat match goal with
  | H : parseControls _ = Returns _ |- _ => apply parseControls_sound in H as (? & ? & ? & ?)
  | H : parseBudget _ = Returns _ |- _ => apply parseBudget_sound in H
  | H : parseRoles _ _ = Returns _ |- _ => apply parseRoles_distinct in H
  | H : parsePublicKeys _ _ = Returns _ |- _ => apply parsePublicKeys_distinct in H
  end.
  split; cbn; try done; split; try done; apply bigintOf_nonneg.
Qed.

Lemma parseExactArtifacts_roles value exact : parseExactArtifacts value = Returns exact -> NoDup (roleValues exact.(Exact.roles)).
Proof. unfold parseExactArtifacts. intros E. readers. cbn. by eapply parseRoles_distinct. Qed.

(** ** The profiles *)

Section Profiles.
Context `{CedraSdk, !AssemblerSdk}.

(** The address of a profile is the one the SDK derives from its public key. *)
Definition DerivedProfile (binding : ProfileBinding.ProfileBinding) : Prop :=
  exists key label, sdkPublicKey binding.(ProfileBinding.public_key) = Returns key
    /\ canonicalAddress (Some (JString (toStringLong (derivedAddress key)))) label = Returns binding.(ProfileBinding.address).

Lemma parseProfile_derived profiles role binding : parseProfile profiles role = Returns binding -> DerivedProfile binding.
Proof. unfold parseProfile, DerivedProfile. intros E. readers. cbn. subst. by eexists _, _. Qed.

Lemma parseProfileEvidence_sound value profiles :
  parseProfileEvidence value = Returns profiles ->
  (forall role, DerivedProfile (profiles.(Profiles.bindings) role))
  /\ NoDup (map ProfileBinding.public_key (roleValues profiles.(Profiles.bindings))).
Proof.
  unfold parseProfileEvidence, hasUnique. intros E. readers. cbn. split; [|done]. intros role.
  match goal with H : forRoles _ = Returns _ |- _ => pose proof (forRoles_returns _ _ H role) as Hr end.
  by eapply parseProfile_derived.
Qed.
End Profiles.
