(* ===== verification/CandidateSpec.v ===== *)
(** * What a release candidate was built from and simulated with *)
From stdpp Require Import gmap.
From Stdlib Require Import Strings.Byte.
From S2P Require Import Prelude JsMap Types MoveDomains JsValue Json SdkTypes Accounting Replay Group WalletHandlers.
From S2P Require Import LpHandlers PoolHandlers ConfigHandlers GroupChecks Reducer Reconciler Snapshot SnapshotDecode.
From S2P Require Import AlertCodec Store Numerals CursorRoundTrip JsonRoundTrip Disk FileStore ReleaseClient ReleaseSpec ReleaseTheorems.
From S2P Require Import ReleaseInputs ReleaseCandidate AssemblerSpec.

Section Candidate.
Context `{CedraSdk, !AssemblerSdk} {W : Type} `{HasDisk W, !Cedra W}.
Context (os : Os.OperatingSystem) (sha256Bytes : list byte -> string) (sha256 : string -> string).
Context (describe : JsValue -> string) (numberText : Z -> Z -> string) (isoString : Z -> string) (describeJson : option Json -> string).

#[local] Instance client : ReleaseClientPort W := releaseClientPort W sha256Bytes describe.

(** ** Reading *)

Lemma task_evaluate_iff {S A B} (o : Outcome A) (k : A -> Task S B) (s : S) b s' :
  (evaluate o ≫= k) s = (Returns b, s') <-> exists a, o = Returns a /\ k a s = (Returns b, s').
Proof.
  rewrite task_bind_iff. setoid_rewrite evaluate_iff. split; [by intros (a & s1 & [-> ->] & E); exists a|].
  intros (a & -> & E). by exists a, s.
Qed.

(** A call that only looks gives its answer and leaves the files. *)
Lemma onDisk_looks {A} (answer : Files -> Outcome A) (w : W) a w' :
  onDisk (looks os answer) w = (Returns a, w') ->
  answer (diskOf w).(Dsk.files) = Returns a /\ (diskOf w').(Dsk.files) = (diskOf w).(Dsk.files).
Proof.
  unfold onDisk, looks, systemCall. destruct (Os.fault os _); [discriminate|]. intros [= -> <-]. by rewrite diskOf_setDisk.
Qed.

(** ** The operation *)

Definition packageDirectory (ctx : Context.ValidatedAssemblyContext) (key : PackageKey) : string :=
  resolve os (dirname ctx.(Context.exactArtifactsPath) ⧺ "/" ⧺ packageName key).

(** A publication carries the bytes of the reviewed payload file, by their digest. *)
Definition Published (ctx : Context.ValidatedAssemblyContext) (files : Files) (key : PackageKey) (role : ReleaseRoleKey)
    (shape : Shape.OperationShape) : Prop :=
  let binding := ctx.(Context.packages) key in
  exists text mode metadataHex moduleHex metadata modules,
    files !! resolve os (packageDirectory ctx key ⧺ "/" ⧺ "publish-payload.json") = Some (RegularFile text mode)
    /\ sha256 text = binding.(PackageBinding.publish_payload_sha256)
    /\ parsePublishPayload numberText (packageName key) text = Returns (metadataHex, moduleHex)
    /\ argumentU8Vector metadataHex = Returns metadata /\ mapM argumentU8Vector moduleHex = Returns modules
    /\ shape.(Shape.senderRole) = role /\ shape.(Shape.secondarySignerRoles) = []
    /\ shape.(Shape.data).(Sdk.function) = JsString PUBLISH_FUNCTION
    /\ shape.(Shape.data).(Sdk.functionArguments) = Some [metadata; argumentVector modules]
    /\ shape.(Shape.payload) = PayloadEvidence.mk PUBLISH_FUNCTION [JString metadataHex; strings moduleHex]
    /\ shape.(Shape.publishBinding) = Some (Publish.mk key binding.(PackageBinding.publish_payload_sha256)
                                              binding.(PackageBinding.compiled_package_files_manifest_sha256)).

(** The operation of the request: who signs, which function, which arguments. *)
Definition OperationOf (ctx : Context.ValidatedAssemblyContext) (files : Files) (shape : Shape.OperationShape) : Prop :=
  let calls function arguments :=
    shape.(Shape.data).(Sdk.function) = JsString function /\ shape.(Shape.data).(Sdk.functionArguments) = Some arguments
    /\ shape.(Shape.payload).(PayloadEvidence.function) = function /\ shape.(Shape.publishBinding) = None in
  match ctx.(Context.request).(Request.operation_key) with
  | core_publish => Published ctx files reflection_core core_publisher shape
  | assets_publish => Published ctx files test_assets assets_publisher shape
  | amm_publish => Published ctx files test_amm amm_publisher shape
  | core_initialize =>
      shape.(Shape.senderRole) = core_publisher /\ shape.(Shape.secondarySignerRoles) = []
      /\ calls (ctx.(Context.roles) core_publisher ⧺ "::reflection_token::initialize") [argumentU64 100]
  | pool_launch =>
      shape.(Shape.senderRole) = core_publisher
      /\ shape.(Shape.secondarySignerRoles) = [assets_publisher; amm_publisher; bootstrap_lp]
      /\ calls (ctx.(Context.roles) amm_publisher ⧺ "::pool::launch") []
  end.

Lemma publishOperation_returns ctx key role (w : W) shape w' :
  publishOperation os sha256 numberText ctx key role w = (Returns shape, w') ->
  Published ctx (diskOf w).(Dsk.files) key role shape.
Proof.
  unfold publishOperation. intros ([] & Hf%unlessFail_returns & E)%task_evaluate_iff. bools.
  apply task_evaluate_iff in E as ([] & _ & E). apply task_bind_iff in E as (stat & w1 & [Hstat Hw1]%onDisk_looks & E).
  apply task_evaluate_iff in E as ([] & Hs%unlessFail_returns & E). apply task_bind_iff in E as (text & w2 & [Htext Hw2]%onDisk_looks & E).
  apply task_evaluate_iff in E as ([] & Hd%unlessFail_returns & E). bools.
  apply task_evaluate_iff in E as ([metadataHex moduleHex] & Hp & E). apply task_evaluate_iff in E as (metadata & Hm & E).
  apply task_evaluate_iff in E as (modules & Hms & [= <- <-]). rewrite Hw1 in Htext. rewrite Hf in Hstat, Htext.
  unfold Published, packageDirectory. unfold present in Hstat.
  destruct (Dsk.files (diskOf w) !! _) as [[content mode| | |]|] eqn:El; try discriminate. injection Htext as ->.
  by exists text, mode, metadataHex, moduleHex, metadata, modules.
Qed.

Lemma operationShape_returns ctx (w : W) shape w' :
  operationShape os sha256 numberText ctx w = (Returns shape, w') -> OperationOf ctx (diskOf w).(Dsk.files) shape.
Proof.
  unfold operationShape, OperationOf. destruct (Request.operation_key _).
  1, 3, 4: apply publishOperation_returns.
  all: by intros [= <- _].
Qed.

(** ** The built candidate *)

(** The identity of a transaction by its class. *)
Definition described (secondary : list ReleaseRoleKey) (t : Sdk.SdkTransaction) : Outcome TxIdentity.ReleaseTransactionIdentity :=
  match secondary with
  | [] => describeSingleSignerTransaction sha256Bytes describe t
  | _ => describeMultiAgentTransaction sha256Bytes describe t
  end.

(** The transaction is that of the operation, at the numbers of the request, signed for by its roles in order. *)
Record CandidateOf (ctx : Context.ValidatedAssemblyContext) (files : Files) (shape : Shape.OperationShape)
    (built : Built.BuiltReleaseCandidate) (raw : Sdk.RawTransaction) (cosigners : list AccountAddress) : Prop := {
  candidate_operation : OperationOf ctx files shape;
  candidate_context : built.(Built.context) = ctx;
  candidate_sender : built.(Built.senderRole) = shape.(Shape.senderRole);
  candidate_cosigners : built.(Built.secondarySignerRoles) = shape.(Shape.secondarySignerRoles);
  candidate_binding : built.(Built.publishBinding) = shape.(Shape.publishBinding);
  candidate_raw : rawTransaction built.(Built.transaction) = Some raw;
  candidate_identity : described shape.(Shape.secondarySignerRoles) built.(Built.transaction) = Returns built.(Built.transactionIdentity);
  candidate_chain : raw.(Sdk.chainId) = JsNumber (Some CEDRA_TESTNET_CHAIN_ID);
  candidate_signers : Forall2 NonzeroAccount
    (map (fun role => JsString (ctx.(Context.roles) role)) (shape.(Shape.senderRole) :: shape.(Shape.secondarySignerRoles)))
    (toStringLong raw.(Sdk.sender) :: map toStringLong cosigners);
  candidate_noFeePayer : built.(Built.transactionIdentity).(TxIdentity.feePayerAddress) = None;
  candidate_sequence : raw.(Sdk.sequence_number) = bigintOf ctx.(Context.request).(Request.transaction_controls).(Controls.sequence_number);
  candidate_gas : raw.(Sdk.max_gas_amount) = bigintOf ctx.(Context.request).(Request.transaction_controls).(Controls.max_gas_amount);
  candidate_price : raw.(Sdk.gas_unit_price) = bigintOf ctx.(Context.request).(Request.transaction_controls).(Controls.gas_unit_price);
  candidate_expiry : raw.(Sdk.expiration_timestamp_secs)
    = bigintOf ctx.(Context.request).(Request.transaction_controls).(Controls.expiration_timestamp_secs);
  candidate_asset : typeTagText raw.(Sdk.fa_address) = CEDRA_COIN;
  candidate_payload : PayloadOf shape.(Shape.data) raw.(Sdk.payload);
  candidate_evidence : built.(Built.transactionEvidence) =
    let controls := ctx.(Context.request).(Request.transaction_controls) in
    TxEvidence.mk (ctx.(Context.roles) shape.(Shape.senderRole)) (map ctx.(Context.roles) shape.(Shape.secondarySignerRoles))
      controls.(Controls.sequence_number) controls.(Controls.expiration_timestamp_secs) controls.(Controls.max_gas_amount)
      controls.(Controls.gas_unit_price) shape.(Shape.payload)
}.

Lemma positiveSafe_same n m : PositiveSafe (JsNumber (Some n)) m -> m = n.
Proof. by intros [[= ->] _]. Qed.

Lemma exact_same n m : Exact (JsBigint n) m -> m = n.
Proof. by intros [[= ->]|[[=] _]]. Qed.

(** The part that depends on how many sign. *)
Lemma built_transaction (sender : Address) (secondary : list ReleaseRoleKey) (roles : PerRole Address) data options (w : W) t identity w' :
  (match map roles secondary with
   | [] =>
       transaction ← portBuildSingleSigner (SingleRequest.mk _ (JsString sender) (Some data) (Some options));
       identity ← evaluate (describeSingleSignerTransaction sha256Bytes describe transaction);
       mret (transaction, identity)
   | _ =>
       transaction ← portBuildMultiAgent (MultiRequest.mk _ (JsString sender) (Some (map JsString (map roles secondary)))
                                            (Some data) (Some options));
       identity ← evaluate (describeMultiAgentTransaction sha256Bytes describe transaction);
       mret (transaction, identity)
   end) w = (Returns (t, identity), w') ->
  described secondary t = Returns identity
  /\ exists raw cosigners feePayer, rawTransaction t = Some raw
       /\ BuiltAs (JsString sender) (map JsString (map roles secondary)) options data t raw cosigners feePayer.
Proof.
  destruct secondary as [|role secondary]; cbn [map described].
  - intros (t' & w1 & Hb & E)%task_bind_iff. apply task_evaluate_iff in E as (identity' & Hd & [= <- <- <-]). split; [exact Hd|].
    apply buildSingleSigner_returns in Hb as (options' & data' & raw & feePayer & E). cbn in E.
    destruct E as ([= <-] & [= <-] & _ & _ & -> & Hb). by exists raw, [], feePayer.
  - intros (t' & w1 & Hb & E)%task_bind_iff. apply task_evaluate_iff in E as (identity' & Hd & [= <- <- <-]). split; [exact Hd|].
    apply buildMultiAgent_returns in Hb as (values & options' & data' & raw & cosigners & feePayer & E). cbn in E.
    destruct E as ([= <-] & _ & [= <-] & [= <-] & _ & _ & -> & Hb). by exists raw, cosigners, feePayer.
Qed.

Lemma buildReleaseCandidate_returns ctx (w : W) built w' :
  buildReleaseCandidate os sha256Bytes sha256 describe numberText ctx w = (Returns built, w') ->
  exists shape raw cosigners, CandidateOf ctx (diskOf w).(Dsk.files) shape built raw cosigners.
Proof.
  unfold buildReleaseCandidate. intros (shape & w1 & Hshape%operationShape_returns & E)%task_bind_iff.
  apply task_evaluate_iff in E as ([] & _ & E). apply task_evaluate_iff in E as (maxGas & [-> Hgas]%safeNumber_returns & E).
  apply task_evaluate_iff in E as (price & [-> Hprice]%safeNumber_returns & E).
  apply task_evaluate_iff in E as (expiry & [-> Hexpiry]%safeNumber_returns & E).
  apply task_evaluate_iff in E as (asset & Hasset & E). apply task_bind_iff in E as ([t identity] & w2 & Hb & E).
  apply built_transaction in Hb as (Hd & raw & cosigners & feePayer & Hraw & Hchain & Hc & Hp & _).
  apply task_evaluate_iff in E as ([] & Hfixed%unlessFail_returns & E). apply task_evaluate_iff in E as (semantics & _ & [= <- _]).
  bools. exists shape, raw, cosigners. destruct Hc as [Hs _ Hn Hg Hpr Hx (tag & -> & Ht)].
  split; cbn [Built.context Built.senderRole Built.secondarySignerRoles Built.publishBinding Built.transaction Built.transactionIdentity
    Built.transactionEvidence]; try done.
  - rewrite map_map in Hs. exact Hs.
  - by apply exact_same.
  - by apply positiveSafe_same.
  - by apply positiveSafe_same.
  - by apply positiveSafe_same.
  - assert (Hi : TxIdentity.fungibleAssetGasType identity = typeTagText raw.(Sdk.fa_address)).
    { destruct (Shape.secondarySignerRoles shape), t; try discriminate Hd; injection Hraw as ->;
        apply describeTransaction_returns in Hd as (_ & ? & ? & ? & _ & ->); done. }
    congruence.
Qed.

(** ** The simulation *)

(** An authenticator that signs for nothing: the key and the zero signature. *)
Definition ZeroSigned (value : option Json) (key : string) : Prop :=
  exists fields, value = Some (JObject fields) /\ jsGet "type" fields = Some (JString "ed25519_signature")
    /\ jsGet "public_key" fields = Some (JString key) /\ jsGet "signature" fields = Some (JString ZERO_SIMULATION_SIGNATURE).

Lemma zeroSigned_returns value key label :
  assertZeroEd25519SimulationAuthenticator value key label = Returns tt -> ZeroSigned value key.
Proof.
  unfold assertZeroEd25519SimulationAuthenticator. intros (fields & [-> _]%exactObject_returns & E)%outcome_bind_iff.
  readers. rewrite !isText_spec in *. by exists fields.
Qed.

(** The response authenticates the signers of the operation, in order. *)
Definition Authenticated (built : Built.BuiltReleaseCandidate) (response : JsonFields) : Prop :=
  let sender := expectedRestPublicKey built built.(Built.senderRole) in
  match built.(Built.secondarySignerRoles) with
  | [] => ZeroSigned (jsGet "signature" response) sender
  | roles => exists fields addresses authenticators,
      jsGet "signature" response = Some (JObject fields) /\ ZeroSigned (jsGet "sender" fields) sender
      /\ jsGet "secondary_signer_addresses" fields = Some (JArray addresses)
      /\ jsGet "secondary_signers" fields = Some (JArray authenticators)
      /\ Forall2 (fun address signer => exists label, canonicalAddress (Some address) label = Returns signer)
           addresses built.(Built.transactionEvidence).(TxEvidence.secondary_signers)
      /\ Forall2 (fun authenticator role => ZeroSigned (Some authenticator) (expectedRestPublicKey built role)) authenticators roles
  end.

Lemma secondaryAuthenticators_return built index roles signers addresses authenticators :
  length signers = length roles -> length addresses = length roles -> length authenticators = length roles ->
  assertSecondaryAuthenticators built index roles signers addresses authenticators = Returns tt ->
  Forall2 (fun address signer => exists label, canonicalAddress (Some address) label = Returns signer) addresses signers
  /\ Forall2 (fun authenticator role => ZeroSigned (Some authenticator) (expectedRestPublicKey built role)) authenticators roles.
Proof.
  revert index signers addresses authenticators. induction roles as [|role roles IH]; intros index [|signer signers] [|address addresses]
    [|authenticator authenticators]; cbn [length]; intros L1 L2 L3; try discriminate; [by split; constructor|].
  cbn [assertSecondaryAuthenticators head tail]. intros E.
  apply outcome_bind_iff in E as (observed & Ha & E). apply outcome_bind_iff in E as ([] & Hs%unlessFail_returns & E).
  apply outcome_bind_iff in E as ([] & Hz%zeroSigned_returns & E). bools. injection Hs as ->.
  apply IH in E as [IH1 IH2]; [|lia..]. split; constructor; try done. by eexists.
Qed.

Lemma authenticatorBinding_returns responses built response :
  length built.(Built.transactionEvidence).(TxEvidence.secondary_signers) = length built.(Built.secondarySignerRoles) ->
  singleResponse responses = Returns response ->
  assertSimulationAuthenticatorBinding responses built = Returns tt -> Authenticated built response.
Proof.
  intros Hlen Hr. unfold assertSimulationAuthenticatorBinding, Authenticated. rewrite Hr. cbn [mbind outcome_bind].
  destruct (Built.secondarySignerRoles built) as [|role roles] eqn:Eroles; [by intros E%zeroSigned_returns|].
  intros (fields & [Hf _]%exactObject_returns & E)%outcome_bind_iff.
  apply outcome_bind_iff in E as ([] & _ & E). apply outcome_bind_iff in E as ([] & Hz%zeroSigned_returns & E).
  destruct (jsGet "secondary_signer_addresses" fields) as [[| | | | | |addresses|]|] eqn:Ea; try discriminate.
  destruct (jsGet "secondary_signers" fields) as [[| | | | | |authenticators|]|] eqn:Es; try discriminate.
  apply outcome_bind_iff in E as ([] & Hl%unlessFail_returns & E). bools.
  apply secondaryAuthenticators_return in E as [E1 E2]; [|done..]. by exists fields, addresses, authenticators.
Qed.

(** The SDK simulated this transaction under the keys of its signers. *)
Definition SimulatedBy (built : Built.BuiltReleaseCandidate) (w : W) (responses : SimulationResponses) (w' : W) : Prop :=
  let key := signerPublicKey built in
  match built.(Built.secondarySignerRoles) with
  | [] => simulateSimple built.(Built.transaction) (key built.(Built.senderRole)) w
  | roles => simulateMulti built.(Built.transaction) (key built.(Built.senderRole)) (map key roles) w
  end = (Returns responses, w').

Lemma simulateBuilt_returns built (w : W) result w' :
  simulateBuilt built w = (Returns result, w') ->
  result.(Simulation.identity) = built.(Built.transactionIdentity) /\ SimulatedBy built w result.(Simulation.responses) w'.
Proof.
  unfold simulateBuilt, SimulatedBy. destruct (Built.secondarySignerRoles built) as [|role roles].
  - intros [([e E] & _)|(_ & E)]%simulateSingleSigner_cases; [discriminate|].
    by apply task_bind_iff in E as (responses & w1 & E & [= <- <-]).
  - intros [([e E] & _)|(_ & _ & E)]%simulateMultiAgent_cases; [discriminate|].
    by apply task_bind_iff in E as (responses & w1 & E & [= <- <-]).
Qed.

(** What the candidate says of its simulation. *)
Record EvidenceOf (built : Built.BuiltReleaseCandidate) (responses : SimulationResponses) (bundle : Bundle.CandidateBundle)
    (capturedAt : Z) (json identity : Json) (response : JsonFields) (vmStatus gasUsed : string) : Prop := {
  evidence_json : jsonSafe numberText (responsesJson responses) = Returns json;
  evidence_identity : jsonSafe numberText (identityJson built.(Built.transactionIdentity)) = Returns identity;
  evidence_response : singleResponse json = Returns response;
  evidence_success : jsGet "success" response = Some (JBool true);
  evidence_status : jsGet "vm_status" response = Some (JString vmStatus);
  evidence_gasUsed : gasUsed = stringOf describeJson (jsGet "gas_used" response);
  evidence_decimal : DECIMAL_PATTERN gasUsed = true;
  evidence_gas : bigintOf gasUsed <= bigintOf built.(Built.transactionEvidence).(TxEvidence.max_gas_amount);
  evidence_authenticated : Authenticated built response;
  evidence_file : bundle.(Bundle.simulationResponse) = JObject [("identity", identity); ("responses", json)];
  evidence_candidate : bundle.(Bundle.candidate) =
    candidateJson built (dropMilliseconds (isoString capturedAt)) vmStatus gasUsed (sha256 (candidateBundleBytes bundle).2)
}.

Lemma simulateReleaseCandidate_returns built capturedAt (w : W) bundle w' :
  length built.(Built.transactionEvidence).(TxEvidence.secondary_signers) = length built.(Built.secondarySignerRoles) ->
  simulateReleaseCandidate sha256 numberText isoString describeJson built capturedAt w = (Returns bundle, w') ->
  exists time responses json identity response vmStatus gasUsed,
    capturedAt = Some time /\ SimulatedBy built w responses w'
    /\ EvidenceOf built responses bundle time json identity response vmStatus gasUsed.
Proof.
  intros Hlen. unfold simulateReleaseCandidate. intros (time & Ht%from_option_returns & E)%task_evaluate_iff.
  apply task_bind_iff in E as (result & w1 & [Hi Hs]%simulateBuilt_returns & E).
  apply task_evaluate_iff in E as (observed & _ & E). apply task_evaluate_iff in E as (identity & Hid & E).
  apply task_evaluate_iff in E as ([] & _ & E). apply task_evaluate_iff in E as (json & Hjson & E).
  apply task_evaluate_iff in E as ([] & Hauth & E). apply task_evaluate_iff in E as ([vmStatus gasUsed] & Hsum & E).
  apply task_evaluate_iff in E as ([] & Hgas%unlessFail_returns & [= <- <-]). bools.
  unfold simulationSummary in Hsum. apply outcome_bind_iff in Hsum as (response & Hr & Hsum). readers.
  rewrite isTrue_spec in *. exists time, (Simulation.responses result), json, identity, response, vmStatus, gasUsed.
  split; [done|]. split; [done|]. split; try done; [congruence|]. by eapply authenticatorBinding_returns.
Qed.
End Candidate.
