(* ===== verification/AssemblerTheorems.v ===== *)
(** * Theorems on the release candidate assembler *)
From Stdlib Require Import Strings.Byte.
From stdpp Require Import gmap.
From S2P Require Import Prelude JsMap Types MoveDomains JsValue Json SdkTypes Accounting Replay Group.
From S2P Require Import WalletHandlers LpHandlers PoolHandlers ConfigHandlers GroupChecks Reducer.
From S2P Require Import Reconciler Snapshot SnapshotDecode AlertCodec Store JsonRoundTrip Disk.
From S2P Require Import FileStore Numerals CursorRoundTrip ReleaseClient ReleaseSpec ReleaseTheorems.
From S2P Require Import ReleaseInputs ReleaseCandidate CanonicalJson AssemblerSpec CandidateSpec.

(** ** Canonical JSON *)

(** C35. Canonical JSON is a normal form up to the order of keys: for values as
    [JSON.parse] gives them, [sameJson] holds exactly when one can be turned into
    the other by reordering the keys of objects, at any depth, and so do their
    canonical bytes agree; [sortedJsonValue] itself only reorders. *)
Theorem canonical_json_exact left right :
  jsonOk left = true -> noBigint left = true -> jsonOk right = true -> noBigint right = true ->
  (sameJson left right = true <-> JsonEquiv left right)
  /\ (canonicalJsonBytes left = canonicalJsonBytes right <-> JsonEquiv left right)
  /\ JsonEquiv left (sortedJsonValue left).
Proof.
  intros Hl Hl' Hr Hr'. pose proof (sameJson_spec left right Hl Hl' Hr Hr') as Hsame. split; [exact Hsame|].
  split; [|by apply equiv_sorted]. rewrite <- Hsame. unfold sameJson, canonicalJsonBytes, jsonLine. rewrite bool_decide_eq_true.
  split; [|by intros ->]. intros E. apply (f_equal (fun s => String.length s)) in E as Elen.
  revert E. generalize (stringify (sortedJsonValue left)) (stringify (sortedJsonValue right)).
  induction s as [|c s IH]; intros [|c' s'] E; [done| | |]; cbn in E.
  - injection E as _ E. by destruct s'.
  - injection E as _ E. by destruct s.
  - injection E as -> E. f_equal. by apply IH.
Qed.

Lemma canonical_json_exact_witness :
  canonicalJsonBytes (JObject [("b", JNumber 1); ("a", JArray [JObject [("y", JNull); ("x", JBool true)]])])
  = canonicalJsonBytes (JObject [("a", JArray [JObject [("x", JBool true); ("y", JNull)]]); ("b", JNumber 1)]).
Proof.
  apply (canonical_json_exact (JObject [("b", JNumber 1); ("a", JArray [JObject [("y", JNull); ("x", JBool true)]])])
           (JObject [("a", JArray [JObject [("x", JBool true); ("y", JNull)]]); ("b", JNumber 1)]) eq_refl eq_refl eq_refl eq_refl).
  eapply equiv_object; [apply Permutation_swap|]. constructor; [split; [done|]|constructor; [by split; [|constructor]|constructor]].
  apply equiv_array. constructor; [|constructor]. eapply equiv_object; [apply Permutation_swap|].
  repeat constructor.
Defined.

(** ** The inputs *)

Section Inputs.
Context `{CedraSdk, !AssemblerSdk}.

(** Where the three documents, the checkout and the clock agree. *)
Record Agreed (cwd : string) (args : Inputs.AssemblyInputs) (ctx : Context.ValidatedAssemblyContext)
    (exact : Exact.ExactArtifacts) (profiles : Profiles.ProfileEvidence) : Prop := {
  agreed_exact : parseExactArtifacts args.(Inputs.exactArtifacts) = Returns exact;
  agreed_profiles : parseProfileEvidence args.(Inputs.publicProfileEvidence) = Returns profiles;
  agreed_request : parseBuildRequest CEDRA_COIN args.(Inputs.buildRequest) = Returns ctx.(Context.request);
  agreed_roles : forall role, ctx.(Context.roles) role = exact.(Exact.roles) role
    /\ ctx.(Context.roles) role = ctx.(Context.request).(Request.roles) role
    /\ ctx.(Context.roles) role = (ctx.(Context.profileBindings) role).(ProfileBinding.address);
  agreed_bindings : ctx.(Context.profileBindings) = profiles.(Profiles.bindings);
  agreed_keys : forall role, (ctx.(Context.profileBindings) role).(ProfileBinding.public_key)
    = ctx.(Context.request).(Request.profile_public_keys) role;
  agreed_packages : ctx.(Context.packages) = exact.(Exact.packages);
  agreed_artifacts : ctx.(Context.exactAddressArtifactsSha256) = args.(Inputs.exactArtifactsSha256)
    /\ ctx.(Context.request).(Request.exact_address_artifacts_sha256) = args.(Inputs.exactArtifactsSha256);
  agreed_evidence : ctx.(Context.profileEvidenceSha256) = args.(Inputs.publicProfileEvidenceSha256)
    /\ ctx.(Context.request).(Request.public_profile_evidence_sha256) = args.(Inputs.publicProfileEvidenceSha256);
  agreed_candidate : profiles.(Profiles.publicRoleCandidateSha256) = exact.(Exact.publicRoleCandidateSha256);
  agreed_clean : args.(Inputs.repositoryState).(RepositoryState.statusPorcelain) = "";
  agreed_commit : args.(Inputs.repositoryState).(RepositoryState.headCommit) = exact.(Exact.applicationCommit)
    /\ ctx.(Context.request).(Request.application_commit) = exact.(Exact.applicationCommit)
    /\ ctx.(Context.applicationCommit) = exact.(Exact.applicationCommit);
  agreed_tree : args.(Inputs.repositoryState).(RepositoryState.headTree) = exact.(Exact.applicationTree);
  agreed_integrity : exists integrity, validateBuildIntegrityEvidence args.(Inputs.buildIntegrity) = Returns integrity;
  agreed_future : exists now, args.(Inputs.now) = Some now
    /\ now / 1000 < bigintOf ctx.(Context.request).(Request.transaction_controls).(Controls.expiration_timestamp_secs)
}.

(** C29. A context comes out of the validation only when everything it was given
    agrees: the four roles in the exact-address bundle, the build request and the
    profiles; the public keys; the commit of bundle, request and a clean checkout,
    and its tree; the digests of both files; an expiry that is still ahead.  Then
    the roles are four accounts, each the one the SDK derives from the key that
    will sign for it, four keys; and the fee the transaction can cost at most is
    exactly the approved total, all numbers exact in JavaScript. *)
Theorem assembly_inputs_agree cwd args ctx :
  validateAssemblyInputs cwd args = Returns ctx ->
  exists exact profiles,
    Agreed cwd args ctx exact profiles
    /\ SoundRequest ctx.(Context.request)
    /\ NoDup (roleValues ctx.(Context.roles))
    /\ (forall role, sdkPublicKey (ctx.(Context.profileBindings) role).(ProfileBinding.public_key) = Returns (ctx.(Context.publicKeys) role)
         /\ exists label, canonicalAddress (Some (JString (toStringLong (derivedAddress (ctx.(Context.publicKeys) role))))) label
                          = Returns (ctx.(Context.roles) role)).
Proof.
  unfold validateAssemblyInputs. intros E. readers.
  repeat match goal with H : Some (JString _) = Some (JString _) |- _ => injection H as H end.
  repeat match goal with H : sameJson _ _ = true |- _ => rewrite sameRoles_spec in H end.
  match goal with Ee : parseExactArtifacts _ = Returns ?exact, Ep : parseProfileEvidence _ = Returns ?profiles,
    Er : parseBuildRequest _ _ = Returns _, Ek : forRoles _ = Returns _ |- _ =>
      exists exact, profiles; pose proof (parseExactArtifacts_roles _ _ Ee) as Hdistinct;
      pose proof (parseProfileEvidence_sound _ _ Ep) as [Hderived _]; pose proof (parseBuildRequest_sound _ _ _ Er) as Hsound;
      pose proof (forRoles_returns _ _ Ek) as Hkeys
  end.
  split; [|split; [done|split; [done|]]].
  - split; cbn; try done; [split; congruence|split; congruence|split_and!; congruence|congruence| |]; eexists; [eassumption|by split].
  - intros role. cbn [Context.publicKeys Context.profileBindings Context.roles]. split; [apply Hkeys|]. destruct (Hderived role) as (key & label & Ek & Ea). exists label.
    rewrite Hkeys in Ek. injection Ek as <-. rewrite Ea. by match goal with Hr : forall role, _ = ProfileBinding.address _ |- _ => rewrite Hr end.
Qed.
End Inputs.

(** ** The candidate *)

Section Candidates.
Context `{CedraSdk, !AssemblerSdk} {W : Type} `{HasDisk W, !Cedra W}.
Context (os : Os.OperatingSystem) (sha256Bytes : list byte -> string) (sha256 : string -> string).
Context (describe : JsValue -> string) (numberText : Z -> Z -> string) (isoString : Z -> string) (describeJson : option Json -> string).

#[local] Instance port : ReleaseClientPort W := releaseClientPort W sha256Bytes describe.

(** C28. A candidate comes out of the assembler only for the operation that the
    request names: its transaction is the one the release client built for it -
    the right sender and cosigners in order, no fee payer, the numbers of the
    request, CED gas on chain 2, the bytes of the named call, and for a
    publication those of the payload file with the bound digest.  It is what the
    SDK simulated under the keys of exactly those signers: the one response
    succeeded within the gas limit, is authenticated by those keys with zero
    signatures, and is written down with its digest in the candidate. *)
Theorem candidate_is_simulated ctx capturedAt (w : W) bundle w' :
  assembleReleaseCandidate os sha256Bytes sha256 describe numberText isoString describeJson ctx capturedAt w = (Returns bundle, w') ->
  exists shape built raw cosigners w1 time responses json identity response vmStatus gasUsed,
    capturedAt = Some time
    /\ CandidateOf os sha256Bytes sha256 describe numberText ctx (diskOf w).(Dsk.files) shape built raw cosigners
    /\ SimulatedBy built w1 responses w'
    /\ EvidenceOf sha256 numberText isoString describeJson built responses bundle time json identity response vmStatus gasUsed.
Proof.
  unfold assembleReleaseCandidate. intros (built & w1 & (shape & raw & cosigners & Hc)%buildReleaseCandidate_returns & E)%task_bind_iff.
  apply simulateReleaseCandidate_returns in E as (time & responses & json & identity & response & vmStatus & gasUsed & Et & Es & Ee).
  - by exists shape, built, raw, cosigners, w1, time, responses, json, identity, response, vmStatus, gasUsed.
  - destruct Hc as [_ _ _ -> _ _ _ _ _ _ _ _ _ _ _ _ ->]. cbn. apply length_map.
Qed.
End Candidates.

(** ** A sample assembly: inputs that agree, and an SDK that answers *)

#[local] Existing Instance sampleObjects.
#[local] Existing Instance sampleSdk.

(** ** The SDK *)

Definition repeated (count : nat) (c : ascii) : string := String.string_of_list_ascii (replicate count c).

(** One key per role; an account is its key. *)
Definition sampleDigits (role : ReleaseRoleKey) : string :=
  repeated 64 match role with core_publisher => "a" | assets_publisher => "b" | amm_publisher => "c" | bootstrap_lp => "d" end%char.

Definition sampleAuthenticator (role : ReleaseRoleKey) : Json :=
  JObject [("type", JString "ed25519_signature"); ("public_key", JString ("0x" ⧺ sampleDigits role));
           ("signature", JString ZERO_SIMULATION_SIGNATURE)].

(** What the node answers to the simulated launch of the pool. *)
Definition sampleResponse : Json :=
  let cosigners := [assets_publisher; amm_publisher; bootstrap_lp] in
  JArray [JObject
    [("success", JBool true); ("vm_status", JString "Executed successfully"); ("gas_used", JString "700");
     ("signature", JObject
        [("type", JString "multi_agent_signature"); ("sender", sampleAuthenticator core_publisher);
         ("secondary_signer_addresses", JArray (map (fun role => JString ("0x" ⧺ sampleDigits role)) cosigners));
         ("secondary_signers", JArray (map sampleAuthenticator cosigners))])]].

#[local] Instance sampleAssemblerSdk : AssemblerSdk :=
  {| newEd25519PublicKey text := Returns text;
     derivedAddress key := default "" (sampleAccount key);
     tagU64 := "u64";
     tagU8Vector := "vector<u8>";
     tagVector tag := "vector<" ⧺ tag ⧺ ">";
     argumentU64 n := show n;
     argumentU8Vector text := Returns text;
     argumentVector arguments := joinWith "," arguments;
     responsesJson _ := sampleResponse |}.

(** It builds what it is asked for. *)
Definition sampleBuilt (arguments : Build.BuildArguments) : option Sdk.RawTransaction :=
  let options := arguments.(Build.options) in
  match arguments.(Build.sender), generateTransactionPayloadWithABI arguments.(Build.data), options.(Sdk.accountSequenceNumber),
    options.(Sdk.maxGasAmount), options.(Sdk.gasUnitPrice), options.(Sdk.expireTimestamp) with
  | JsString sender, Returns payload, JsBigint sequence, JsNumber (Some gas), JsNumber (Some price), JsNumber (Some expiry) =>
      Some (Sdk.mkRaw (default "" (sampleAccount sender)) sequence payload gas price expiry (JsNumber (Some 2)) CEDRA_COIN)
  | _, _, _, _, _, _ => None
  end.
Definition sampleCosigner (value : JsValue) : string := match value with JsString text => default "" (sampleAccount text) | _ => "" end.

#[local] Instance sampleNode : Cedra Dsk.Disk :=
  {| buildMulti arguments := mret (from_option (fun raw => Sdk.MultiAgentTransaction raw
       (map sampleCosigner arguments.(Build.secondarySignerAddresses)) None) Sdk.OtherTransaction (sampleBuilt arguments));
     buildSimple arguments := mret (from_option (fun raw => Sdk.SimpleTransaction raw None) Sdk.OtherTransaction (sampleBuilt arguments));
     simulateMulti _ _ _ := mret "executed";
     simulateSimple _ _ := mret "executed" |}.

(** ** The documents *)

Definition sampleDigestText (c : ascii) : Json := JString (repeated 64 c).
Definition sampleCommit : string := repeated 40 "1".
Definition sampleTree : string := repeated 40 "2".

Definition sampleRoles : Json := JObject (map (fun role => (roleName role, JString ("0x" ⧺ sampleDigits role))) RELEASE_ROLE_KEYS).
Definition sampleKeys : Json :=
  JObject (map (fun role => (roleName role, JString ("ed25519-pub-0x" ⧺ sampleDigits role))) RELEASE_ROLE_KEYS).

Definition sampleExact : Json :=
  JObject
    [("schema_version", JNumber 3); ("evidence_scope", JString "local-exact-address-build-only"); ("network", JString "cedra-testnet");
     ("working_tree_clean", JBool true); ("local_build_eligible_for_human_review", JBool true);
     ("verification_binding", JObject []); ("public_role_candidate_binding", JObject [("sha256", sampleDigestText "5")]);
     ("application_commit", JString sampleCommit); ("application_tree", JString sampleTree); ("roles", sampleRoles);
     ("packages", JObject (map (fun key =>
        (packageName key, JObject [("publish_payload_file", JString "publish-payload.json");
                                   ("publish_payload_sha256", sampleDigestText "6");
                                   ("compiled_package_files_manifest_sha256", sampleDigestText "7")])) PACKAGE_KEYS))].

Definition sampleProfile (role : ReleaseRoleKey) : Json :=
  JObject [("profile_name", JString (PROFILE_NAMES role)); ("network", JString "Testnet"); ("has_private_key", JBool true);
           ("public_key", JString ("ed25519-pub-0x" ⧺ sampleDigits role)); ("account", JString (sampleDigits role));
           ("rest_url", JString "https://testnet.cedra.dev"); ("faucet_url", JString "https://faucet-api.cedra.dev")].

Definition sampleEvidence : Json :=
  JObject
    [("schema_version", JNumber 1); ("evidence_scope", JString "local-public-profile-preflight");
     ("network_intent", JString "cedra-testnet");
     ("authentication_key_validation", JObject
        [("all_profile_authentication_keys_match", JBool true); ("derivation_method", JString PROFILE_DERIVATION_METHOD);
         ("derivation_tool", JString PROFILE_DERIVATION_TOOL)]);
     ("profiles", JObject (map (fun role => (roleName role, sampleProfile role)) RELEASE_ROLE_KEYS));
     ("public_role_candidate_sha256", sampleDigestText "5")].

Definition sampleBuildRequest : Json :=
  JObject
    [("schema_version", JNumber 1); ("evidence_scope", JString "testnet-transaction-build-request"); ("network", JString "cedra-testnet");
     ("api_url", JString TESTNET_API_URL); ("chain_id", JString "2"); ("gas_asset", JString "0x1::CedraCoin::cedra");
     ("deployment_id", JString "launch-1"); ("operation_key", JString "pool_launch"); ("application_commit", JString sampleCommit);
     ("exact_address_artifacts_sha256", sampleDigestText "8"); ("public_profile_evidence_sha256", sampleDigestText "9");
     ("roles", sampleRoles); ("profile_public_keys", sampleKeys);
     ("transaction_controls", JObject
        [("sequence_number", JString "7"); ("max_gas_amount", JString "8000"); ("gas_unit_price", JString "100");
         ("expiration_timestamp_secs", JString "1800000000")]);
     ("gas_budget", JObject
        [("approved_max_gas_amount", JString "8000"); ("approved_max_gas_unit_price", JString "100");
         ("approved_max_total_fee_base_units", JString "800000")])].

Definition sampleIntegrity : Json :=
  JObject
    ([("package_lock_file", JString "package-lock.json"); ("release_executable_closure_file", JString RELEASE_EXECUTABLE_CLOSURE_FILE);
      ("sdk_package", JString REVIEWED_SDK_PACKAGE); ("sdk_version", JString REVIEWED_SDK_VERSION);
      ("sdk_review_pin_file", JString REVIEWED_SDK_PIN_FILE);
      ("sdk_review_signature_namespace", JString "cedra-reflect-sdk-review-v1"); ("sdk_review_reviewer_identity", JString "reviewer@team");
      ("sdk_lock_integrity", JString "sha512-abc="); ("sdk_loaded_entrypoint", JString "dist/index.mjs");
      ("sdk_package_file_count", JNumber 12)]
     ++ map (fun key => (key, sampleDigestText "f")) INTEGRITY_DIGESTS).

Definition sampleInputs : Inputs.AssemblyInputs :=
  Inputs.mk "evidence/exact.json" (repeated 64 "8") (Some sampleExact) (repeated 64 "9") (Some sampleEvidence)
    (Some sampleBuildRequest) (RepositoryState.mk "" sampleCommit sampleTree) (Some sampleIntegrity) (Some 1700000000000).

Definition returned {A} (o : Outcome A) : bool := match o with Returns _ => true | Throws _ => false end.

(** ** The run *)

Definition quietOs : Os.OperatingSystem :=
  Os.mk (fun _ => None) (fun call => call) (fun _ path => path) false 7 "/home" 18 (fun _ => "2026-01-01T00:00:00.000Z") (fun _ => "ab").
Definition noDisk : Dsk.Disk := Dsk.mk ∅ 0.
Definition sampleText {A} (_ : A) : string := "".



Lemma assembly_inputs_agree_witness :
  exists ctx exact profiles, Agreed "/work" sampleInputs ctx exact profiles /\ NoDup (roleValues ctx.(Context.roles)).
Proof.
  assert (E : returned (validateAssemblyInputs "/work" sampleInputs) = true) by (vm_compute; reflexivity).
  destruct (validateAssemblyInputs "/work" sampleInputs) as [ctx|] eqn:Ec; [|discriminate E].
  destruct (assembly_inputs_agree "/work" sampleInputs ctx Ec) as (exact & profiles & Ha & _ & Hn & _).
  exists ctx, exact, profiles. split; [exact Ha|exact Hn].
Defined.

(** The launch of the pool, from the documents to the candidate. *)
Definition sampleAssembly : Task Dsk.Disk Bundle.CandidateBundle :=
  ctx ← evaluate (validateAssemblyInputs "/work" sampleInputs);
  @assembleReleaseCandidate _ _ _ _ _ (port sampleDigestOf sampleDescribe) quietOs sampleDigestOf (fun text => show (jsLength text))
    sampleDescribe (fun _ _ => "") sampleText sampleText ctx (Some 1700000000000).

Lemma candidate_is_simulated_witness :
  exists ctx shape built raw cosigners,
    validateAssemblyInputs "/work" sampleInputs = Returns ctx
    /\ CandidateOf quietOs sampleDigestOf (fun text => show (jsLength text)) sampleDescribe (fun _ _ => "") ctx ∅ shape built raw cosigners.
Proof.
  assert (E : returned (sampleAssembly noDisk).1 = true) by (vm_compute; reflexivity).
  unfold sampleAssembly in E. destruct (validateAssemblyInputs "/work" sampleInputs) as [ctx|] eqn:Ec; [|discriminate E].
  rewrite (task_bind_eq (evaluate (Returns ctx)) _ noDisk ctx noDisk eq_refl) in E.
  destruct (@assembleReleaseCandidate _ _ _ _ _ _ _ _ _ _ _ _ _ ctx _ noDisk) as [[bundle|] d] eqn:Ea; [|discriminate E].
  destruct (candidate_is_simulated quietOs _ _ _ _ _ _ ctx _ noDisk bundle d Ea) as (shape & built & raw & cosigners & w1 & rest).
  destruct rest as (time & responses & json & identity & response & vmStatus & gasUsed & _ & Hc & _).
  exists ctx, shape, built, raw, cosigners. split; [reflexivity|exact Hc].
Defined.
