(* ===== verification/AtomicOutput.v ===== *)
(** * The output directory of a candidate: [packages/release-candidate-assembler/src/atomic-output.ts]

    Both files are written into a staging directory beside the output, validated
    there, and published by one rename that never replaces anything.  The helper
    that renames is a Python program the code starts: [spawnSync] is a parameter,
    and [renameNoreplace] models [scripts/rename_noreplace.py].  The validator and
    the sync of a directory are the caller's. *)
From stdpp Require Import gmap.
From S2P Require Import Prelude JsMap Types JsValue Json Store Disk.

(** ** More system calls *)

(** The rest of a path that is [directory] or lies in it. *)
Definition within (directory path : string) : option string :=
  match stripPrefix directory path with
  | Some "" => Some ""
  | Some (String "/" rest) => Some (String "/" rest)
  | _ => None
  end.
Definition below (directory path : string) : bool := bool_decide (is_Some (within directory path)).

(** What is there at and below a path. *)
Definition pathsBelow (directory : string) (files : Files) : list string :=
  filter (fun path => below directory path = true) (map fst (map_to_list files)).

Section Calls.
Context (os : Os.OperatingSystem).

(** [join(directory, name)] of an absolute directory. *)
Definition joinPath (directory name : string) : string := resolve os (directory ⧺ "/" ⧺ name).

(** [stat(path)], which follows links; with the owner of what it finds. *)
Definition stat (ownerOf : Files -> string -> Z) (path : string) : Task Dsk.Disk (Entry * Z) :=
  looks os (fun files =>
    let real := os.(Os.realpath) files path in
    entry ← present "stat" real files; Returns (entry, ownerOf files real)).

(** [existsSync(path)] never throws. *)
Definition existsSync (path : string) : Task Dsk.Disk bool :=
  tryCatch (looks os (fun files => Returns (bool_decide (is_Some (files !! os.(Os.realpath) files path))))) (fun _ => mret false).

(** [mkdtemp(prefix)]: the six characters the system chose depend on the call. *)
Definition mkdtemp (suffix : nat -> string) (prefix : string) : Task Dsk.Disk string := fun d =>
  let path := prefix ⧺ suffix d.(Dsk.calls) in
  systemCall os (fun files =>
    match pathsBelow path files, files !! dirname path with
    | [], Some _ => (Returns path, <[path := Folder (Z.ldiff 448 os.(Os.umask))]> files)
    | [], None => (Throws (systemError "ENOENT" "mkdtemp" path), files)
    | _, _ => (Throws (systemError "EEXIST" "mkdtemp" path), files)
    end) d.

(** [rm(path, { recursive: true, force: true })]: one that fails may have removed a part. *)
Definition removeTree (path : string) : Task Dsk.Disk unit := fun d =>
  let paths := pathsBelow path d.(Dsk.files) in
  let removed := match os.(Os.fault) d.(Dsk.calls) with
                 | Some _ => take (os.(Os.torn) d.(Dsk.calls)) paths
                 | None => paths
                 end in
  (from_option Throws (Returns tt) (os.(Os.fault) d.(Dsk.calls)),
   Dsk.mk (foldr delete d.(Dsk.files) removed) (S d.(Dsk.calls))).
End Calls.

(** ** [renameat2] with [RENAME_NOREPLACE] *)

(** Everything at and below [from] is now at and below [to], where nothing was. *)
Definition swapName (from to path : string) : string :=
  match within from path, within to path with
  | Some rest, _ => to ⧺ rest
  | None, Some rest => from ⧺ rest
  | None, None => path
  end.
Definition moveTree (from to : string) (files : Files) : Files := kmap (swapName from to) files.

(** What [spawnSync] answers. *)
Module Spawn.
Record SpawnResult := mk {
  error : option string;      (* its message *)
  status : option Z;
  stdout : string;
  stderr : string
}.
End Spawn.

(** The exit codes of [scripts/rename_noreplace.py]. *)
Definition exited (code : Z) (message : string) : Spawn.SpawnResult := Spawn.mk None (Some code) "" message.

Definition renameNoreplace (os : Os.OperatingSystem) (source destination : string) : Task Dsk.Disk Spawn.SpawnResult := fun d =>
  let '(o, d') := systemCall os (fun files =>
    let failing code message := (Returns (exited code ("atomic no-replace publish failed: " ⧺ message)), files) in
    if negb (bool_decide (dirname source = dirname destination))
    then failing 65 "source and destination must have the same parent"
    else if negb (bool_decide (os.(Os.realpath) files (dirname source) = dirname source))
    then failing 65 "publish parent must not resolve through a symbolic link"
    else match files !! source with
         | None => failing 66 "cannot inspect source directory"
         | Some (RegularFile _ _) | Some (Folder _) =>
             match pathsBelow destination files with
             | [] => (Returns (exited 0 ""), moveTree source destination files)
             | _ => failing 73 "destination already exists; no file or directory was replaced"
             end
         | Some _ => failing 65 "source must be a real regular file or directory"
         end) d in
  (match o with Returns r => Returns r | Throws e => Returns (exited 74 e.(err_message)) end, d').

(** ** The surroundings *)

Inductive SyncPhase := sync_staging | pre_publish | post_publish | sync_cleanup.

Module Surroundings.
Record ProcessSurroundings := mk {
  euid : option Z;                          (* [process.geteuid?.()] *)
  ownerOf : Files -> string -> Z;
  temporarySuffix : nat -> string;          (* what [mkdtemp] appends *)
  renameHelper : string                     (* [renameNoReplaceHelper], found when the module is loaded *)
}.
End Surroundings.

Module Output.
Record CandidateOutput (W : Type) := mk {
  outputDirectory : string;
  candidateBytes : string;
  simulationBytes : string;
  validate : string -> string -> Task W unit;
  syncDirectory : option (string -> SyncPhase -> Task W unit);
  pythonRuntime : option string;
  renameNoReplaceHelper : option string
}.
#[global] Arguments mk {W}.
#[global] Arguments outputDirectory {W}.
#[global] Arguments candidateBytes {W}.
#[global] Arguments simulationBytes {W}.
#[global] Arguments validate {W}.
#[global] Arguments syncDirectory {W}.
#[global] Arguments pythonRuntime {W}.
#[global] Arguments renameNoReplaceHelper {W}.
End Output.

(** The locals that the [finally] block reads. *)
Module Fin.
Record Finalizing (W : Type) := mk { world : W; stagingDirectory : option string; published : bool }.
#[global] Arguments mk {W}.
#[global] Arguments world {W}.
#[global] Arguments stagingDirectory {W}.
#[global] Arguments published {W}.
End Fin.

#[export] Hint Mode HasDisk ! : typeclass_instances.

#[export] Instance finalizing_hasDisk `{HasDisk W} : HasDisk (Fin.Finalizing W) :=
  {| diskOf := fun s => diskOf s.(Fin.world);
     setDisk := fun d s => Fin.mk (setDisk d s.(Fin.world)) s.(Fin.stagingDirectory) s.(Fin.published);
     diskOf_setDisk d s := diskOf_setDisk d s.(Fin.world) |}.

Definition inWorld {W A} (m : Task W A) : Task (Fin.Finalizing W) A := fun s =>
  let '(o, w) := m s.(Fin.world) in (o, Fin.mk w s.(Fin.stagingDirectory) s.(Fin.published)).
Definition setStaging {W} (path : string) : Task (Fin.Finalizing W) unit := fun s =>
  (Returns tt, Fin.mk s.(Fin.world) (Some path) s.(Fin.published)).
Definition setPublished {W} : Task (Fin.Finalizing W) unit := fun s =>
  (Returns tt, Fin.mk s.(Fin.world) s.(Fin.stagingDirectory) true).

(** [text.trim()] *)
Definition isBlank (c : ascii) : bool :=
  let n := nat_of_ascii c in bool_decide (n = 32%nat) || bool_decide (n = 160%nat) || bool_decide (9 <= n <= 13)%nat.
Definition trimText (text : string) : string :=
  String.string_of_list_ascii (rev (dropWhile isBlank (rev (dropWhile isBlank (String.list_ascii_of_string text))))).

Section Finalize.
Context {W : Type} `{HasDisk W} (os : Os.OperatingSystem) (surroundings : Surroundings.ProcessSurroundings).
Context (spawnSync : string -> list string -> Task W Spawn.SpawnResult).

Definition pythonBinary : Task Dsk.Disk string :=
  usrBin ← existsSync os "/usr/bin/python3";
  usrLocal ← (match usrBin with true => mret false | false => existsSync os "/usr/local/bin/python3" end);
  match usrBin, usrLocal with
  | true, _ => mret "/usr/bin/python3"
  | false, true => mret "/usr/local/bin/python3"
  | false, false =>
      throwing (mkError "Error" "Linux Python 3 is required for kernel-enforced RENAME_NOREPLACE publication")
  end.

Definition succeeded (result : Spawn.SpawnResult) : bool :=
  bool_decide (result.(Spawn.error) = None) && bool_decide (result.(Spawn.status) = Some 0).

Definition renameDirectoryNoReplace (source destination pythonRuntime helperPath : string) : Task W unit :=
  result ← spawnSync pythonRuntime [helperPath; source; destination];
  let details := filter (fun text => text <> "") [default "" result.(Spawn.error); result.(Spawn.stdout); result.(Spawn.stderr)] in
  let detail := trimText (joinWith (String NEWLINE "") details) in
  unlessThrow (succeeded result)
    (mkError "Error" ("kernel-enforced no-replace candidate publication failed" ⧺ (if bool_decide (detail = "") then "" else ": " ⧺ detail))).

Definition writePrivateFile (path bytes : string) : Task Dsk.Disk unit :=
  openExclusive os path 384 ;;  (* 0o600 *)
  finallyDo (handleWriteFile os path bytes ;; handleSync os path) (handleClose os path) ;;
  chmod os path 384.

Definition fsyncDirectory (path : string) (_ : SyncPhase) : Task W unit :=
  onDisk (openDirectory os path ;; finallyDo (handleSync os path) (handleClose os path)).

Section Run.
Context (args : Output.CandidateOutput W).

Definition outputPath : string := resolve os args.(Output.outputDirectory).
Definition parentPath : string := dirname outputPath.
Definition lockPath : string := outputPath ⧺ ".assemble.lock".
Definition sync : string -> SyncPhase -> Task W unit := default fsyncDirectory args.(Output.syncDirectory).

(** Before the lock is taken. *)
Definition checkParent : Task W unit :=
  onDisk (mkdir os parentPath 448) ;;  (* 0o700 *)
  resolvedParent ← onDisk (realpath os parentPath);
  unlessThrow (bool_decide (resolvedParent = parentPath)) (mkError "Error" "output parent must not resolve through a symlink") ;;
  '(parentStat, uid) ← onDisk (stat os surroundings.(Surroundings.ownerOf) parentPath);
  unlessThrow (isDirectory parentStat && bool_decide (surroundings.(Surroundings.euid) = Some uid)
               && bool_decide (Z.land (entryMode parentStat) 18 = 0))  (* 0o022 *)
    (mkError "Error" "output parent must be owned by the current euid and not group/world-writable").

Definition takeOutputLock : Task Dsk.Disk unit :=
  tryCatch (openExclusive os lockPath 384)
    (fun e => throwing (if hasCode "EEXIST" e then mkError "Error" "another assembler owns the exclusive output lock" else e)).

(** The [try] block: the pair is written and validated in its own directory, *)
Definition fillStaging (stagingDirectory : string) : Task (Fin.Finalizing W) unit :=
  setStaging stagingDirectory ;;
  onDisk (chmod os stagingDirectory 448) ;;
  let simulationPath := joinPath os stagingDirectory "simulation-response.json" in
  let candidatePath := joinPath os stagingDirectory "transaction-candidate.json" in
  onDisk (writePrivateFile simulationPath args.(Output.simulationBytes)) ;;
  onDisk (writePrivateFile candidatePath args.(Output.candidateBytes)) ;;
  inWorld (sync stagingDirectory sync_staging) ;;
  inWorld (args.(Output.validate) candidatePath simulationPath) ;;
  inWorld (sync parentPath pre_publish).

(** which then gets its name. *)
Definition publish (stagingDirectory : string) : Task (Fin.Finalizing W) string :=
  python ← (match args.(Output.pythonRuntime) with Some runtime => mret runtime | None => onDisk pythonBinary end);
  inWorld (renameDirectoryNoReplace stagingDirectory outputPath python
             (default surroundings.(Surroundings.renameHelper) args.(Output.renameNoReplaceHelper))) ;;
  setPublished ;;
  tryCatch (inWorld (sync parentPath post_publish))
    (fun e => throwing (mkError "Error" ("candidate was published at " ⧺ outputPath ⧺ ", but directory durability is unknown: "
                                        ⧺ e.(err_message)))) ;;
  mret outputPath.

Definition stageAndPublish : Task (Fin.Finalizing W) string :=
  onDisk (handleWriteFile os lockPath (show os.(Os.pid) ⧺ String NEWLINE "") ;; handleSync os lockPath) ;;
  stagingDirectory ← onDisk (mkdtemp os surroundings.(Surroundings.temporarySuffix) (joinPath os parentPath ".cedra-reflect-candidate-"));
  fillStaging stagingDirectory ;;
  publish stagingDirectory.

(** The [finally] block. *)
Definition finish (operation : Task (Fin.Finalizing W) unit) : Task (Fin.Finalizing W) unit :=
  s ← getState; if s.(Fin.published) then attempt operation else operation.

Definition settleOutput : Task (Fin.Finalizing W) unit :=
  finish (onDisk (handleClose os lockPath)) ;;
  s ← getState;
  (match s.(Fin.published), s.(Fin.stagingDirectory) with
   | false, Some staging =>
       if bool_decide (is_Some (stripPrefix (parentPath ⧺ "/.cedra-reflect-candidate-") staging))
       then onDisk (removeTree os staging) else mret tt
   | _, _ => mret tt
   end) ;;
  finish (onDisk (tryCatch (unlink os lockPath) (fun e => if hasCode "ENOENT" e then mret tt else throwing e))) ;;
  finish (inWorld (sync parentPath sync_cleanup)).

(** The two blocks, from fresh locals. *)
Definition underOutputLock : Task W string := fun w =>
  let '(o, s) := finallyDo stageAndPublish settleOutput (Fin.mk w None false) in (o, s.(Fin.world)).

Definition finalizeCandidateDirectoryAtomically : Task W string :=
  checkParent ;;
  onDisk takeOutputLock ;;
  underOutputLock.
End Run.
End Finalize.
