(* ===== verification/AtomicTheorems.v ===== *)
(** * Theorems on the output directory of a candidate

    Whatever fails, the output is what it was, or the complete pair that was
    validated; nothing is ever replaced. *)
From stdpp Require Import gmap.
From S2P Require Import Prelude JsMap Types JsValue Json Store Numerals CursorRoundTrip JsonRoundTrip Disk DiskSpec ReleaseClient ReleaseSpec AtomicOutput.

(** ** Subtrees *)

(** What a path may add to its directory. *)
Definition Tail (rest : string) : Prop := rest = "" \/ exists more, rest = "/" ⧺ more.

Lemma stripPrefix_inv prefix s rest : stripPrefix prefix s = Some rest -> s = prefix ⧺ rest.
Proof.
  revert s. induction prefix as [|c prefix IH]; intros s; [by intros [= ->]|]. destruct s as [|c' s]; [done|]. cbn [stripPrefix].
  case_bool_decide as E; [|done]. intros ->%IH. by rewrite E, append_String.
Qed.

Lemma within_spec directory path rest : within directory path = Some rest <-> path = directory ⧺ rest /\ Tail rest.
Proof.
  unfold within, Tail. split.
  - destruct (stripPrefix directory path) as [[|c more]|] eqn:E; try discriminate; apply stripPrefix_inv in E as ->.
    + intros [= <-]. split; [done|by left].
    + intros H. destruct c as [[] [] [] [] [] [] [] []]; try discriminate H. injection H as <-. split; [done|]. right. by exists more.
  - intros [-> [->|[more ->]]]; by rewrite stripPrefix_app.
Qed.

Lemma below_spec directory path : below directory path = true <-> exists rest, path = directory ⧺ rest /\ Tail rest.
Proof.
  unfold below. rewrite bool_decide_eq_true. split; intros [rest E]; exists rest; by apply within_spec.
Qed.

Lemma below_tail directory rest : Tail rest -> below directory (directory ⧺ rest) = true.
Proof. intros H. apply below_spec. by exists rest. Qed.

Lemma below_self directory : below directory directory = true.
Proof. apply below_spec. exists "". split; [by rewrite append_empty|by left]. Qed.

(** A name ends where its tail starts. *)
Lemma name_tail a b r r' :
  noSlash a = true -> noSlash b = true -> Tail r -> Tail r' -> a ⧺ r = b ⧺ r' -> a = b /\ r = r'.
Proof.
  intros Ha Hb Hr Hr'. revert b Ha Hb. induction a as [|c a IH]; intros [|c' b] Ha Hb E; [done| | |].
  - exfalso. unfold noSlash in Hb. rewrite append_String in E. cbn in E, Hb. destruct Hr as [->|[more ->]]; [discriminate|].
    cbn in E. injection E as <- _. done.
  - exfalso. unfold noSlash in Ha. rewrite append_String in E. cbn in E, Ha. destruct Hr' as [->|[more ->]]; [discriminate|].
    cbn in E. injection E as -> _. done.
  - rewrite !append_String in E. injection E as -> E. unfold noSlash in Ha, Hb. cbn in Ha, Hb. bools.
    apply IH in E as [-> ->]; [done|by unfold noSlash|by unfold noSlash].
Qed.

Lemma pathsBelow_nil directory (files : Files) :
  pathsBelow directory files = [] <-> forall rest, Tail rest -> files !! (directory ⧺ rest) = None.
Proof.
  unfold pathsBelow. split.
  - intros E rest Hr. apply eq_None_not_Some. intros [entry He%elem_of_map_to_list].
    assert (Hin : directory ⧺ rest ∈ filter (fun path => below directory path = true) (map fst (map_to_list files))).
    { apply list_elem_of_filter. split; [by apply below_tail|]. apply list_elem_of_fmap. by exists (directory ⧺ rest, entry). }
    rewrite E in Hin. by apply not_elem_of_nil in Hin.
  - intros H. destruct (filter _ _) as [|path paths] eqn:E; [done|]. exfalso.
    assert (Hin : path ∈ filter (fun path => below directory path = true) (map fst (map_to_list files))) by (rewrite E; left).
    apply list_elem_of_filter in Hin as [(rest & -> & Hr)%below_spec Hin]. apply list_elem_of_fmap in Hin as ([path entry] & Ep & He).
    apply elem_of_map_to_list in He. cbn in Ep. subst path. by rewrite H in He.
Qed.

(** ** Names beside each other *)

Section Siblings.
Context (segments : list string) (a b : string) (Ha : isSegment a = true) (Hb : isSegment b = true).

Lemma siblings_apart rest rest' : a <> b -> Tail rest -> Tail rest' -> inside segments a ⧺ rest <> inside segments b ⧺ rest'.
Proof.
  intros Hne Hr Hr'. unfold inside. rewrite !render_snoc, !append_assoc. intros E%append_inj. cbn in E. injection E as E.
  apply name_tail in E as [E _]; [done|by apply isSegment_noSlash..|done|done].
Qed.

Lemma below_sibling rest : a <> b -> Tail rest -> below (inside segments a) (inside segments b ⧺ rest) = false.
Proof.
  intros Hne Hr. apply not_true_iff_false. intros (rest' & E & Hr')%below_spec. by apply (siblings_apart rest' rest).
Qed.

Lemma below_way above : above `prefix_of` segments -> below (inside segments a) (render above) = false.
Proof.
  intros Hp. apply not_true_iff_false. intros (rest & E & [->|[more ->]])%below_spec.
  - rewrite append_empty in E. apply (inside_off segments above a); [done|by apply isSegment_nonempty|done].
  - destruct Hp as [under ->]. apply (f_equal String.length) in E. unfold inside in E.
    rewrite !length_append in E. cbn [String.length] in E. pose proof (length_render_prefix above (under ++ [a])) as Hl.
    rewrite app_assoc in Hl. lia.
Qed.
End Siblings.

(** ** What an operation spares *)

Definition Spared (P : string -> Prop) (files files' : Files) : Prop := forall path, P path -> files' !! path = files !! path.

#[export] Instance spared_preorder P : PreOrder (Spared P).
Proof. split; [done|]. intros f1 f2 f3 H1 H2 path HP. by rewrite H2, H1. Qed.

(** A relation on the files of a state. *)
Definition OnState {S} `{HasDisk S} (R : Files -> Files -> Prop) (s s' : S) : Prop :=
  R (diskOf s).(Dsk.files) (diskOf s').(Dsk.files).

#[export] Instance onState_preorder {S} `{HasDisk S} R `{!PreOrder R} : PreOrder (OnState (S := S) R).
Proof. split; unfold OnState; [intros s; reflexivity|intros s1 s2 s3 H1 H2; by etransitivity]. Qed.

Lemma frames_state {S A} `{HasDisk S} R (m : Task Dsk.Disk A) : Frames (OnFiles R) m -> Frames (OnState (S := S) R) (onDisk m).
Proof.
  intros Hm s. unfold onDisk, OnState. specialize (Hm (diskOf s)). destruct (m (diskOf s)) as [o d]. cbn. by rewrite diskOf_setDisk.
Qed.

#[export] Hint Resolve frames_state : frames.

(** A task that changes no file at all. *)
Definition ReadsOnly {S A} `{HasDisk S} (m : Task S A) : Prop := Frames (OnState eq) m.

Lemma readsOnly_frames {S A} `{HasDisk S} R `{!PreOrder R} (m : Task S A) : ReadsOnly m -> Frames (OnState R) m.
Proof. intros Hm s. specialize (Hm s). unfold OnState in *. rewrite Hm. reflexivity. Qed.

Section SparedCalls.
Context (os : Os.OperatingSystem) (P : string -> Prop).
#[local] Abbreviation Spares := (Frames (OnFiles (Spared P))).

(** A change at one path. *)
Lemma spared_path path (files files' : Files) :
  ~ P path -> (forall other, other <> path -> files' !! other = files !! other) -> Spared P files files'.
Proof. intros HP H other Ho. apply H. by intros ->. Qed.

Lemma spares_mkdir path mode :
  (forall above, above `prefix_of` segmentsOf path -> ~ P (render above)) -> Spares (mkdir os path mode).
Proof.
  intros H. apply frames_systemCall; [apply _|]. intros files. generalize (Z.ldiff mode (Os.umask os)) as m. intros m.
  assert (G : forall rest above files, above ++ rest = segmentsOf path -> Spared P files (makeDirectories m above rest files).2).
  { induction rest as [|s rest IH]; intros above fs E; [reflexivity|]. cbn [makeDirectories].
    assert (E' : (above ++ [s]) ++ rest = segmentsOf path) by by rewrite <- app_assoc.
    destruct (fs !! render (above ++ [s])) as [[]|]; cbn; try reflexivity; try by apply IH.
    etransitivity; [|by apply IH]. apply (spared_path (render (above ++ [s]))); [apply H; by exists rest|].
    intros other Ho. by rewrite lookup_insert_ne. }
  by apply G.
Qed.

Context (path : string) (HP : ~ P path).

Lemma spares_openExclusive mode : Spares (openExclusive os path mode).
Proof.
  apply frames_systemCall; [apply _|]. intros files. destruct (files !! path); [reflexivity|].
  destruct (files !! dirname path); [|reflexivity]. cbn. apply (spared_path path); [done|]. intros other Ho. by rewrite lookup_insert_ne.
Qed.

Lemma spares_writeFile value : Spares (handleWriteFile os path value).
Proof.
  intros d. unfold handleWriteFile, OnFiles. cbn. apply (spared_path path); [done|]. intros other Ho. by rewrite lookup_alter_ne.
Qed.

Lemma spares_chmod mode : Spares (chmod os path mode).
Proof.
  apply frames_systemCall; [apply _|]. intros files. destruct (files !! path); [|reflexivity]. cbn.
  apply (spared_path path); [done|]. intros other Ho. by rewrite lookup_insert_ne.
Qed.

Lemma spares_unlink : Spares (unlink os path).
Proof.
  apply frames_systemCall; [apply _|]. intros files. destruct (files !! path) as [[]|]; try reflexivity; cbn;
    (apply (spared_path path); [done|]; intros other Ho; by rewrite lookup_delete_ne).
Qed.

Lemma spares_writePrivateFile bytes : Spares (writePrivateFile os path bytes).
Proof.
  unfold writePrivateFile. pose proof (spares_openExclusive 384). pose proof (spares_writeFile bytes). pose proof (spares_chmod 384).
  frames.
Qed.
End SparedCalls.

Lemma spares_mkdtemp os (P : string -> Prop) suffix prefix :
  (forall call, ~ P (prefix ⧺ suffix call)) -> Frames (OnFiles (Spared P)) (mkdtemp os suffix prefix).
Proof.
  intros HP d. unfold mkdtemp. apply frames_systemCall; [apply _|]. intros files.
  destruct (pathsBelow _ files); [|reflexivity]. destruct (files !! _); [|reflexivity]. cbn.
  apply (spared_path _ (prefix ⧺ suffix d.(Dsk.calls))); [done|]. intros other Ho. by rewrite lookup_insert_ne.
Qed.

Lemma lookup_foldr_delete (paths : list string) (files : Files) path :
  path ∉ paths -> foldr delete files paths !! path = files !! path.
Proof.
  induction paths as [|p paths IH]; [done|]. intros [Hne Hin]%not_elem_of_cons. cbn. rewrite lookup_delete_ne by done. by apply IH.
Qed.

Lemma spares_removeTree os (P : string -> Prop) directory :
  (forall path, P path -> below directory path = false) -> Frames (OnFiles (Spared P)) (removeTree os directory).
Proof.
  intros HP d path Hpath. unfold removeTree. cbn. apply lookup_foldr_delete. intros Hin.
  assert (Hb : path ∈ pathsBelow directory (Dsk.files d)).
  { destruct (Os.fault os _); [|done]. by eapply elem_of_take in Hin as (? & ? & _); eapply list_elem_of_lookup_2. }
  unfold pathsBelow in Hb. apply list_elem_of_filter in Hb as [Hb _]. by rewrite HP in Hb.
Qed.

(** ** Inversion of the calls *)

Section Returns.
Context (os : Os.OperatingSystem).

Lemma mkdtemp_returns suffix prefix d path d' :
  mkdtemp os suffix prefix d = (Returns path, d') ->
  path = prefix ⧺ suffix d.(Dsk.calls) /\ (forall rest, Tail rest -> d.(Dsk.files) !! (path ⧺ rest) = None)
  /\ exists mode, d'.(Dsk.files) = <[path := Folder mode]> d.(Dsk.files).
Proof.
  intros E%systemCall_returns. cbn in E. destruct (pathsBelow _ _) eqn:Eb; [|done].
  destruct (Dsk.files d !! dirname _); [|done]. injection E as <- <-. split; [done|]. split; [by apply pathsBelow_nil|by eexists].
Qed.

Lemma chmod_returns path mode d u d' :
  chmod os path mode d = (Returns u, d') ->
  exists entry, d.(Dsk.files) !! path = Some entry /\ d'.(Dsk.files) = <[path := withMode mode entry]> d.(Dsk.files).
Proof.
  intros E%systemCall_returns. cbn in E. destruct (Dsk.files d !! path) as [entry|]; [|done]. injection E as <- <-. by exists entry.
Qed.

Lemma finallyDo_returns {S A} (m : Task S A) (c : Task S unit) s a s' :
  finallyDo m c s = (Returns a, s') -> exists s1, m s = (Returns a, s1) /\ c s1 = (Returns tt, s').
Proof.
  unfold finallyDo. destruct (m s) as [o s1]. destruct (c s1) as [[[]|e] s2] eqn:E; [|done]. intros [= -> <-]. by exists s1.
Qed.

Lemma writePrivateFile_returns path bytes d u d' :
  writePrivateFile os path bytes d = (Returns u, d') -> d'.(Dsk.files) = <[path := RegularFile bytes 384]> d.(Dsk.files).
Proof.
  unfold writePrivateFile. intros (u1 & d1 & [_ E1]%openExclusive_returns & E)%task_bind_iff.
  apply task_bind_iff in E as (u2 & d2 & (d3 & E2 & [_ E3]%looks_returns)%finallyDo_returns & E).
  apply task_bind_iff in E2 as (u4 & d4 & E4%handleWriteFile_returns & [_ E5]%looks_returns).
  apply chmod_returns in E as (entry & Ee & ->). rewrite E3, E5, E4, E1, alter_insert_eq, insert_insert_eq in *.
  rewrite lookup_insert_eq in Ee. injection Ee as <-. done.
Qed.
End Returns.

(** ** The output *)

Definition SIMULATION_NAME : string := "simulation-response.json".
Definition CANDIDATE_NAME : string := "transaction-candidate.json".
Definition STAGING_NAME : string := ".cedra-reflect-candidate-".

(** A private directory with exactly those entries. *)
Definition Holds (directory : string) (entries : gmap string Entry) (files : Files) : Prop :=
  files !! directory = Some (Folder 448) /\ forall name, files !! (directory ⧺ "/" ⧺ name) = entries !! name.

Lemma holds_spared directory entries files files' :
  Spared (fun path => below directory path = true) files files' -> Holds directory entries files -> Holds directory entries files'.
Proof.
  intros HS [Hd Hn]. split; [rewrite HS; [done|apply below_self]|]. intros name. rewrite HS; [apply Hn|].
  apply below_tail. right. by exists name.
Qed.

(** One rename of everything, onto nothing. *)
Definition Moved (from to : string) (files files' : Files) : Prop :=
  (forall rest, Tail rest -> files !! (to ⧺ rest) = None /\ files' !! (to ⧺ rest) = files !! (from ⧺ rest))
  /\ Spared (fun path => below from path = false /\ below to path = false) files files'.

Lemma holds_moved from to entries files files' : Moved from to files files' -> Holds from entries files -> Holds to entries files'.
Proof.
  intros [HM _] [Hd Hn]. split.
  - destruct (HM "") as [_ E]; [by left|]. by rewrite !append_empty in E; rewrite E.
  - intros name. destruct (HM ("/" ⧺ name)) as [_ ->]; [right; by exists name|apply Hn].
Qed.

Lemma isSegment_app a b : isSegment a = true -> noSlash b = true -> isSegment (a ⧺ b) = true.
Proof.
  intros Ha Hb. pose proof (isSegment_noSlash _ Ha) as Hn. unfold isSegment, noSlash in *. rewrite allChars_append, Hn, Hb.
  bools. rewrite !bool_decide_false; [done|..]; intros E; destruct a as [|c [|c' a]]; try done; cbn in E.
  all: try (injection E as -> E). all: try (injection E as -> E). all: try done.
  all: try (destruct a; [|done]; cbn in E; by subst).
Qed.

(** What is relied on: the caller's functions and [fsync] change no file, the
    helper renames in one step or not at all, as [RENAME_NOREPLACE] does, and the
    names the system chooses are names and not the output's. *)
Record Relied {W} `{HasDisk W} (segments : list string) (name : string) (surroundings : Surroundings.ProcessSurroundings)
    (spawnSync : string -> list string -> Task W Spawn.SpawnResult) (args : Output.CandidateOutput W) : Prop := {
  relied_validate : forall candidate simulation, ReadsOnly (args.(Output.validate) candidate simulation);
  relied_sync : forall f, args.(Output.syncDirectory) = Some f -> forall path phase, ReadsOnly (f path phase);
  relied_suffix : forall call, noSlash (surroundings.(Surroundings.temporarySuffix) call) = true
    /\ STAGING_NAME ⧺ surroundings.(Surroundings.temporarySuffix) call <> name;
  relied_spawn : forall runtime helper staged (w : W) o w',
    isSegment staged = true -> staged <> name ->
    spawnSync runtime [helper; inside segments staged; inside segments name] w = (o, w') ->
    let moved := Moved (inside segments staged) (inside segments name) (diskOf w).(Dsk.files) (diskOf w').(Dsk.files) in
    ((diskOf w').(Dsk.files) = (diskOf w).(Dsk.files) \/ moved)
    /\ (forall result, o = Returns result -> succeeded result = true -> moved)
}.

Section Atomic.
Context {W : Type} `{HasDisk W} (os : Os.OperatingSystem) (surroundings : Surroundings.ProcessSurroundings).
Context (spawnSync : string -> list string -> Task W Spawn.SpawnResult) (args : Output.CandidateOutput W).
Context (segments : list string) (name : string) (Hsegments : Segments segments) (Hname : isSegment name = true).
Context (Houtput : resolve os args.(Output.outputDirectory) = inside segments name).
Context (Hrelied : Relied segments name surroundings spawnSync args).

#[local] Abbreviation output := (inside segments name).
#[local] Abbreviation Out := (fun path => below (inside segments name) path = true).
#[local] Abbreviation stagedName := (fun call => STAGING_NAME ⧺ surroundings.(Surroundings.temporarySuffix) call).

(** The two files. *)
Definition pair : gmap string Entry :=
  {[SIMULATION_NAME := RegularFile args.(Output.simulationBytes) 384; CANDIDATE_NAME := RegularFile args.(Output.candidateBytes) 384]}.

(** The validator accepted exactly the pair, in the staging directory. *)
Definition Validated : Prop :=
  exists staged w1 w2, Holds (inside segments staged) pair (diskOf w1).(Dsk.files)
    /\ args.(Output.validate) (inside segments staged ⧺ "/" ⧺ CANDIDATE_NAME) (inside segments staged ⧺ "/" ⧺ SIMULATION_NAME) w1
       = (Returns tt, w2).

(** Where nothing was, there is the validated pair and nothing else. *)
Definition Published (files files' : Files) : Prop :=
  (forall rest, Tail rest -> files !! (output ⧺ rest) = None) /\ Holds output pair files' /\ Validated.

Lemma published_spared f1 f2 f3 f4 : Spared Out f1 f2 -> Published f2 f3 -> Spared Out f3 f4 -> Published f1 f4.
Proof.
  intros H1 (Hn & Hh & Hv) H3. split; [|split; [by eapply holds_spared|done]]. intros rest Hr. rewrite <- H1; [by apply Hn|].
  by apply below_tail.
Qed.

(** ** Names *)

Lemma outputPath_eq : outputPath os args = output.
Proof. exact Houtput. Qed.

Lemma parentPath_eq : parentPath os args = render segments.
Proof. unfold parentPath. rewrite outputPath_eq. by apply dirname_render. Qed.

Lemma lockPath_eq : lockPath os args = inside segments (name ⧺ ".assemble.lock").
Proof. unfold lockPath. rewrite outputPath_eq. apply inside_suffix. Qed.

Lemma staged_segment call : isSegment (stagedName call) = true.
Proof. apply isSegment_app; [done|]. by apply Hrelied. Qed.

Lemma staging_prefix : joinPath os (parentPath os args) ".cedra-reflect-candidate-" = inside segments STAGING_NAME.
Proof. rewrite parentPath_eq. by apply resolve_child. Qed.

Lemma staged_file call file :
  isSegment file = true -> joinPath os (inside segments (stagedName call)) file = inside segments (stagedName call) ⧺ "/" ⧺ file.
Proof.
  intros Hf. unfold joinPath, resolve, inside. rewrite resolve_child; [|apply Forall_app; split; [done|constructor; [apply staged_segment|done]]|done].
  rewrite (render_snoc (segments ++ [_])). by destruct segments.
Qed.

Lemma out_sibling other rest : isSegment other = true -> other <> name -> Tail rest -> ~ Out (inside segments other ⧺ rest).
Proof. intros Ho Hne Hr E. rewrite below_sibling in E; [done..| |done]. congruence. Qed.

Lemma out_lock : ~ Out (lockPath os args).
Proof.
  rewrite lockPath_eq. intros E. apply (out_sibling (name ⧺ ".assemble.lock") "").
  - by apply isSegment_app.
  - intros El%(f_equal String.length). rewrite length_append in El. cbn in El. lia.
  - by left.
  - by rewrite append_empty.
Qed.

Lemma out_staged call rest : Tail rest -> ~ Out (inside segments (stagedName call) ⧺ rest).
Proof. apply out_sibling; [apply staged_segment|by apply Hrelied]. Qed.

Lemma sync_reads path phase : ReadsOnly (sync os args path phase).
Proof.
  unfold sync. destruct (Output.syncDirectory args) as [f|] eqn:E; [by eapply relied_sync|].
  unfold ReadsOnly, fsyncDirectory. cbn. apply frames_state. frames.
Qed.

(** ** Steps that spare the output *)

Definition LocalOk (s : Fin.Finalizing W) : Prop :=
  forall staged, s.(Fin.stagingDirectory) = Some staged -> exists call, staged = inside segments (stagedName call).

(** From good locals, the output is spared and the locals stay good. *)
Definition Keeps (s s' : Fin.Finalizing W) : Prop := LocalOk s -> OnState (Spared Out) s s' /\ LocalOk s'.

#[local] Instance keeps_preorder : PreOrder Keeps.
Proof.
  split; [intros s Hl; split; [reflexivity|done]|]. intros s1 s2 s3 H1 H2 Hl. destruct (H1 Hl) as [S1 L1]. destruct (H2 L1) as [S2 L2].
  split; [by etransitivity|done].
Qed.

Lemma keeps_onDisk {A} (m : Task Dsk.Disk A) : Frames (OnFiles (Spared Out)) m -> Frames Keeps (onDisk m).
Proof.
  intros Hm s Hl. split; [by apply frames_state|]. unfold onDisk, LocalOk in *. by destruct (m (diskOf s)).
Qed.

Lemma keeps_world {A} (m : Task W A) : ReadsOnly m -> Frames Keeps (inWorld m).
Proof.
  intros Hm s Hl. specialize (Hm s.(Fin.world)). unfold inWorld, LocalOk, OnState in *.
  destruct (m s.(Fin.world)) as [o w]. cbn in *. by rewrite Hm.
Qed.

Lemma keeps_setStaging call : Frames Keeps (setStaging (inside segments (stagedName call))).
Proof. intros s Hl. split; [done|]. intros staged [= <-]. by exists call. Qed.

Lemma keeps_setPublished : Frames Keeps setPublished.
Proof. intros s Hl. split; [done|exact Hl]. Qed.

Lemma keeps_state {A} (k : Fin.Finalizing W -> Task (Fin.Finalizing W) A) :
  (forall s, Keeps s (k s s).2) -> Frames Keeps (s ← getState; k s).
Proof. intros Hk s. exact (Hk s). Qed.

Lemma keeps_finish m : Frames Keeps m -> Frames Keeps (finish m).
Proof. intros Hm. apply keeps_state. intros s. destruct (Fin.published s); [|by apply Hm]. revert s. change (Frames Keeps (attempt m)). frames. Qed.

Lemma keeps_then {A B} (m : Task (Fin.Finalizing W) A) (k : A -> Task (Fin.Finalizing W) B) s :
  Keeps s (m s).2 -> (forall a, Frames Keeps (k a)) -> Keeps s ((m ≫= k) s).2.
Proof.
  intros Hm Hk. unfold mbind, task_bind. destruct (m s) as [[a|e] s1]; [|done]. cbn in Hm. etransitivity; [exact Hm|apply Hk].
Qed.

Lemma keeps_settle : Frames Keeps (settleOutput os args).
Proof.
  unfold settleOutput. pose proof (keeps_world _ (sync_reads (parentPath os args) sync_cleanup)) as Hsync.
  pose proof (spares_unlink os Out _ out_lock) as Hunlink.
  apply bind_frames; [apply _|apply keeps_finish, keeps_onDisk; frames|intros _]. apply keeps_state. intros s. apply keeps_then.
  - intros Hl. destruct (Fin.published s); [done|]. destruct (Fin.stagingDirectory s) as [staged|] eqn:Es; [|done].
    case_bool_decide; [|done]. destruct (Hl _ Es) as [call ->]. revert Hl. apply keeps_onDisk, spares_removeTree.
    intros path Ho. apply not_true_iff_false. intros (rest & -> & Hr)%below_spec. by apply (out_staged call rest).
  - intros _. apply bind_frames; [apply _|apply keeps_finish, keeps_onDisk; frames|intros _]. by apply keeps_finish.
Qed.

(** ** The staging *)

Lemma keeps_fillStaging call : Frames Keeps (fillStaging os args (inside segments (stagedName call))).
Proof.
  unfold fillStaging. rewrite !staged_file by done. pose proof (fun rest => out_staged call rest) as Hout.
  assert (Hfile : forall file, ~ Out (inside segments (stagedName call) ⧺ "/" ⧺ file)) by (intros file; apply Hout; right; by exists file).
  assert (Hdir : ~ Out (inside segments (stagedName call))) by (specialize (Hout ""); rewrite append_empty in Hout; apply Hout; by left).
  pose proof (fun mode => spares_chmod os Out _ Hdir mode). pose proof (fun file bytes => spares_writePrivateFile os Out _ (Hfile file) bytes).
  repeat (apply bind_frames; [apply _| |intros _]); try (apply keeps_onDisk; frames).
  - apply keeps_setStaging.
  - apply keeps_world, sync_reads.
  - by apply keeps_world, Hrelied.
  - apply keeps_world, sync_reads.
Qed.

(** The files after a step on the disk, and after one that only reads. *)
Lemma disk_step {A} (m : Task Dsk.Disk A) (s : Fin.Finalizing W) a s' :
  onDisk m s = (Returns a, s') -> exists d', m (diskOf s) = (Returns a, d') /\ diskOf s' = d'.
Proof. intros (d' & E & _ & Ed)%onDisk_inv. by exists d'. Qed.

Lemma world_step {A} (m : Task W A) (s : Fin.Finalizing W) a s' :
  ReadsOnly m -> inWorld m s = (Returns a, s') ->
  (diskOf s').(Dsk.files) = (diskOf s).(Dsk.files) /\ exists w', m s.(Fin.world) = (Returns a, w').
Proof.
  intros Hm. specialize (Hm s.(Fin.world)). unfold inWorld, OnState in *. destruct (m s.(Fin.world)) as [o w]. intros [= -> <-].
  split; [done|by exists w].
Qed.

Lemma holds_pair directory (files : Files) :
  files !! directory = Some (Folder 448) -> (forall file, files !! (directory ⧺ "/" ⧺ file) = None) ->
  Holds directory pair
    (<[directory ⧺ "/" ⧺ CANDIDATE_NAME := RegularFile args.(Output.candidateBytes) 384]>
       (<[directory ⧺ "/" ⧺ SIMULATION_NAME := RegularFile args.(Output.simulationBytes) 384]> files)).
Proof.
  intros Hd Hn. split.
  - rewrite !lookup_insert_ne; [done|..]; intros E%(f_equal String.length); rewrite !length_append in E; cbn in E; lia.
  - intros file. unfold pair. destruct (decide (file = CANDIDATE_NAME)) as [->|Hc]; [by rewrite lookup_insert_eq|].
    rewrite lookup_insert_ne by (intros E%append_inj%append_inj; congruence).
    destruct (decide (file = SIMULATION_NAME)) as [->|Hs]; [by rewrite lookup_insert_eq|].
    rewrite lookup_insert_ne by (intros E%append_inj%append_inj; congruence).
    rewrite Hn, lookup_insert_ne, lookup_singleton_ne by congruence. done.
Qed.

Lemma fill_returns call mode s u s' :
  (diskOf s).(Dsk.files) !! inside segments (stagedName call) = Some (Folder mode) ->
  (forall file, (diskOf s).(Dsk.files) !! (inside segments (stagedName call) ⧺ "/" ⧺ file) = None) ->
  fillStaging os args (inside segments (stagedName call)) s = (Returns u, s') ->
  Holds (inside segments (stagedName call)) pair (diskOf s').(Dsk.files) /\ Validated.
Proof.
  intros Hd Hn. unfold fillStaging. rewrite !staged_file by done. intros (u1 & s1 & [= _ <-] & E)%task_bind_iff.
  apply task_bind_iff in E as (u2 & s2 & (d2 & (entry & Ee & E2)%chmod_returns & <-)%disk_step & E).
  apply task_bind_iff in E as (u3 & s3 & (d3 & E3%writePrivateFile_returns & <-)%disk_step & E).
  apply task_bind_iff in E as (u4 & s4 & (d4 & E4%writePrivateFile_returns & <-)%disk_step & E).
  apply task_bind_iff in E as (u5 & s5 & [E5 _]%world_step & E); [|apply sync_reads].
  apply task_bind_iff in E as (u6 & s6 & [E6 [w6 Hv]]%world_step & E); [|by apply Hrelied].
  apply world_step in E as [E7 _]; [|apply sync_reads].
  assert (Hh : Holds (inside segments (stagedName call)) pair (diskOf s5).(Dsk.files)).
  { rewrite E5, E4, E3, E2. change (diskOf _) with (diskOf s) in Ee. rewrite Hd in Ee. injection Ee as <-.
    apply holds_pair; [by rewrite lookup_insert_eq|]. intros file. rewrite lookup_insert_ne; [apply Hn|].
    intros El%(f_equal String.length). rewrite !length_append in El. cbn in El. lia. }
  split; [by rewrite E7, E6|]. exists (stagedName call), s5.(Fin.world), w6. split; [exact Hh|]. destruct u6. exact Hv.
Qed.

(** ** The publication *)

Lemma frames_python {R : Fin.Finalizing W -> Fin.Finalizing W -> Prop} `{!PreOrder R} :
  (forall A (m : Task Dsk.Disk A), Frames (OnFiles eq) m -> Frames R (onDisk m)) ->
  Frames R (match args.(Output.pythonRuntime) with Some runtime => mret runtime | None => onDisk (pythonBinary os) end).
Proof. intros HR. destruct (Output.pythonRuntime args); [frames|]. apply HR. unfold pythonBinary, existsSync. frames. Qed.

Lemma keeps_reading {A} (m : Task Dsk.Disk A) : Frames (OnFiles eq) m -> Frames Keeps (onDisk m).
Proof. intros Hm. apply keeps_onDisk. intros d. specialize (Hm d). unfold OnFiles in *. by rewrite Hm. Qed.

Lemma rename_cases call python (w : W) o w' :
  renameDirectoryNoReplace spawnSync (inside segments (stagedName call)) output python
    (default surroundings.(Surroundings.renameHelper) args.(Output.renameNoReplaceHelper)) w = (o, w') ->
  let moved := Moved (inside segments (stagedName call)) output (diskOf w).(Dsk.files) (diskOf w').(Dsk.files) in
  ((diskOf w').(Dsk.files) = (diskOf w).(Dsk.files) \/ moved) /\ (forall u, o = Returns u -> moved).
Proof.
  unfold renameDirectoryNoReplace. destruct (relied_suffix _ _ _ _ _ Hrelied call) as [_ Hne].
  intros [(result & w1 & Es & E)|(e & -> & Es)]%task_bind_cases;
    apply (relied_spawn _ _ _ _ _ Hrelied) in Es as [Hm Hs]; [|apply staged_segment|done| |apply staged_segment|done].
  - apply unlessThrow_inv in E as [-> Ho]. split; [done|]. intros u ->. apply (Hs result); [done|]. apply Ho. by exists u.
  - split; [done|discriminate].
Qed.

(** What a part of the block leaves, from files where the output is as it was at first. *)
Definition Left (s : Fin.Finalizing W) (o : Outcome string) (s' : Fin.Finalizing W) : Prop :=
  LocalOk s' /\ match o with
                | Returns path => path = output /\ Published (diskOf s).(Dsk.files) (diskOf s').(Dsk.files)
                | Throws _ => OnState (Spared Out) s s' \/ Published (diskOf s).(Dsk.files) (diskOf s').(Dsk.files)
                end.

Lemma world_cases {A} (m : Task W A) s o s' :
  inWorld m s = (o, s') -> exists w', m s.(Fin.world) = (o, w') /\ s' = Fin.mk w' s.(Fin.stagingDirectory) s.(Fin.published).
Proof. unfold inWorld. destruct (m s.(Fin.world)) as [o' w']. intros [= -> <-]. by exists w'. Qed.

(** After the rename nothing touches the output. *)
Lemma announced s o s' :
  (setPublished ;;
   tryCatch (inWorld (sync os args (parentPath os args) post_publish))
     (fun e => throwing (mkError "Error" ("candidate was published at " ⧺ output ⧺ ", but directory durability is unknown: "
                                         ⧺ e.(err_message)))) ;;
   mret output) s = (o, s') ->
  Keeps s s' /\ (forall path, o = Returns path -> path = output).
Proof.
  intros E. split.
  - refine (frames_at Keeps _ s o s' _ E). pose proof (keeps_world _ (sync_reads (parentPath os args) post_publish)).
    apply bind_frames; [apply _|apply keeps_setPublished|intros _]. frames.
  - intros path ->. apply task_bind_iff in E as (u1 & s1 & _ & E). by apply task_bind_iff in E as (u2 & s2 & _ & [= -> _]).
Qed.

Lemma publish_left call s o s' :
  LocalOk s -> Holds (inside segments (stagedName call)) pair (diskOf s).(Dsk.files) -> Validated ->
  publish os surroundings spawnSync args (inside segments (stagedName call)) s = (o, s') -> Left s o s'.
Proof.
  intros Hl Hh Hv. unfold publish. rewrite outputPath_eq.
  assert (Hpublished : forall f, Moved (inside segments (stagedName call)) output (diskOf s).(Dsk.files) f -> Published (diskOf s).(Dsk.files) f).
  { intros f HM. split; [intros rest Hr; by apply HM|]. split; [by eapply holds_moved|done]. }
  pose proof (frames_python (R := Keeps) (fun A => keeps_reading (A := A))) as Hpython.
  intros [(python & s1 & E1 & E)|(e & -> & E)]%task_bind_cases.
  2: { destruct (frames_at Keeps _ _ _ _ Hpython E Hl) as [HS HL]. split; [exact HL|left; exact HS]. }
  assert (Hf : (diskOf s1).(Dsk.files) = (diskOf s).(Dsk.files)).
  { symmetry. apply (frames_at (OnState eq)) in E1; [done|]. apply frames_python. intros A m. apply (frames_state eq). }
  destruct (frames_at Keeps _ _ _ _ Hpython E1 Hl) as [_ Hl1].
  apply task_bind_cases in E as [(u & s2 & (w2 & Hr & ->)%world_cases & E)|(e & -> & (w2 & Hr & ->)%world_cases)];
    apply rename_cases in Hr as [Hm Hs]; change (diskOf (Fin.world s1)) with (diskOf s1) in *; rewrite Hf in *.
  - apply announced in E as [HK Hpath]. destruct (HK Hl1) as [HS HL]. split; [exact HL|].
    assert (Hp : Published (diskOf s).(Dsk.files) (diskOf s').(Dsk.files)).
    { eapply published_spared; [reflexivity|apply Hpublished, (Hs u eq_refl)|exact HS]. }
    destruct o as [path|e]; [split; [by apply Hpath|done]|by right].
  - split; [exact Hl1|]. destruct Hm as [Hm|Hm]; [left|right].
    + unfold OnState. change (diskOf _) with (diskOf w2) at 2. by rewrite Hm.
    + apply Hpublished, Hm.
Qed.

Lemma left_after s s1 o s' : OnState (Spared Out) s s1 -> Left s1 o s' -> Left s o s'.
Proof.
  intros HS [HL Ho]. split; [done|]. assert (G : Published (diskOf s1).(Dsk.files) (diskOf s').(Dsk.files) ->
    Published (diskOf s).(Dsk.files) (diskOf s').(Dsk.files)) by (intros Hp; by eapply published_spared).
  destruct o as [path|e]; [split; [apply Ho|by apply G, Ho]|]. destruct Ho as [Ho|Ho]; [left; by etransitivity|right; by apply G].
Qed.

Lemma block_left s o s' : LocalOk s -> stageAndPublish os surroundings spawnSync args s = (o, s') -> Left s o s'.
Proof.
  intros Hl. unfold stageAndPublish. rewrite staging_prefix. pose proof (spares_writeFile os Out _ out_lock) as Hlock.
  assert (Hfirst : Frames Keeps (onDisk (handleWriteFile os (lockPath os args) (show (Os.pid os) ⧺ String NEWLINE "") ;;
      handleSync os (lockPath os args)))) by (apply keeps_onDisk; frames).
  intros [(u & s1 & E1 & E)|(e & -> & E)]%task_bind_cases.
  2: { destruct (frames_at Keeps _ _ _ _ Hfirst E Hl) as [HS HL]. split; [exact HL|left; exact HS]. }
  destruct (frames_at Keeps _ _ _ _ Hfirst E1 Hl) as [HS1 HL1]. apply (left_after _ s1); [done|].
  assert (Htemp : Frames Keeps (onDisk (mkdtemp os surroundings.(Surroundings.temporarySuffix) (inside segments STAGING_NAME)))).
  { apply keeps_onDisk, spares_mkdtemp. intros call. rewrite inside_suffix. intros Ho. apply (out_staged call ""); [by left|]. by rewrite append_empty. }
  apply task_bind_cases in E as [(staged & s2 & E2 & E)|(e & -> & E)].
  2: { destruct (frames_at Keeps _ _ _ _ Htemp E HL1) as [HS HL]. split; [exact HL|left; exact HS]. }
  pose proof (frames_at Keeps _ _ _ _ Htemp E2 HL1) as [HS2 HL2].
  apply disk_step in E2 as (d2 & (-> & Hnone & mode & Hd2)%mkdtemp_returns & Ed2). rewrite inside_suffix in *.
  apply (left_after _ s2); [done|]. revert E Ed2 Hnone Hd2. generalize (Dsk.calls (diskOf s1)) as call. intros call E Ed2 Hnone Hd2.
  pose proof (keeps_fillStaging call) as Hfill. apply task_bind_cases in E as [(u3 & s3 & E3 & E)|(e & -> & E)].
  2: { destruct (frames_at Keeps _ _ _ _ Hfill E HL2) as [HS HL]. split; [exact HL|left; exact HS]. }
  pose proof (frames_at Keeps _ _ _ _ Hfill E3 HL2) as [HS3 HL3]. apply (left_after _ s3); [done|].
  apply (fill_returns call mode) in E3 as [Hh Hv].
  - by apply publish_left in E.
  - rewrite Ed2, Hd2. apply lookup_insert_eq.
  - intros file. rewrite Ed2, Hd2, lookup_insert_ne; [apply Hnone; right; by exists file|].
    intros El%(f_equal String.length). rewrite !length_append in El. cbn in El. lia.
Qed.

(** ** Before the block *)

Lemma frames_checkParent P :
  (forall above, above `prefix_of` segments -> ~ P (render above)) -> Frames (OnState (Spared P)) (checkParent os surroundings args).
Proof.
  intros HP. assert (Hmkdir : Frames (OnFiles (Spared P)) (mkdir os (parentPath os args) 448)).
  { apply spares_mkdir. rewrite parentPath_eq, segmentsOf_render by done. exact HP. }
  unfold checkParent, stat. repeat (apply bind_frames; [apply _| |intros ?]); try (apply frames_state; frames); frames.
Qed.

Lemma frames_takeLock : Frames (OnFiles (Spared Out)) (takeOutputLock os args).
Proof. pose proof (spares_openExclusive os Out _ out_lock 384). unfold takeOutputLock. frames. Qed.

Lemma lock_held entry d o d' :
  d.(Dsk.files) !! lockPath os args = Some entry -> takeOutputLock os args d = (o, d') -> exists e, o = Throws e.
Proof.
  intros Hl. unfold takeOutputLock, tryCatch. destruct (openExclusive os _ 384 d) as [[u|e] d1] eqn:E; [|intros [= <- _]; by eexists].
  apply openExclusive_returns in E as [E _]. congruence.
Qed.

(** The output after a call, whatever it answers. *)
Definition AllOrNothing (w : W) (o : Outcome string) (w' : W) : Prop :=
  match o with
  | Returns path => path = output /\ Published (diskOf w).(Dsk.files) (diskOf w').(Dsk.files)
  | Throws _ => OnState (Spared Out) w w' \/ Published (diskOf w).(Dsk.files) (diskOf w').(Dsk.files)
  end.

Lemma underLock_cases w o w' : underOutputLock os surroundings spawnSync args w = (o, w') -> AllOrNothing w o w'.
Proof.
  unfold underOutputLock, finallyDo. set (s := Fin.mk w None false). destruct (stageAndPublish os surroundings spawnSync args s) as [ob s1] eqn:Eb.
  assert (Hl : LocalOk s) by by intros staged. apply block_left in Eb as [HL1 Ho]; [|done].
  destruct (settleOutput os args s1) as [oc s2] eqn:Es. destruct (frames_at Keeps _ _ _ _ keeps_settle Es HL1) as [HS _].
  assert (Hp : Published (diskOf s).(Dsk.files) (diskOf s1).(Dsk.files) -> Published (diskOf s).(Dsk.files) (diskOf s2).(Dsk.files)).
  { intros Hp. by eapply published_spared; [reflexivity| |]. }
  assert (Hn : OnState (Spared Out) s s1 -> OnState (Spared Out) s s2) by (intros Hn; by etransitivity).
  intros E. assert (Ew : w' = Fin.world s2) by (destruct oc; by injection E as _ <-). subst w'. unfold AllOrNothing.
  destruct ob as [path|e], oc as [[]|e']; injection E as <-; try (destruct Ho as [-> Ho]; first [by split; [|apply Hp]|right; by apply Hp]).
  all: destruct Ho as [Ho|Ho]; [left; by apply Hn|right; by apply Hp].
Qed.

Lemma finalize_cases w o w' :
  finalizeCandidateDirectoryAtomically os surroundings spawnSync args w = (o, w') ->
  AllOrNothing w o w'
  /\ (is_Some ((diskOf w).(Dsk.files) !! lockPath os args) -> exists e, o = Throws e /\ OnState (Spared Out) w w').
Proof.
  unfold finalizeCandidateDirectoryAtomically. intros E.
  assert (Hout : Frames (OnState (Spared Out)) (checkParent os surroundings args)).
  { apply frames_checkParent. intros above Ha. by rewrite below_way. }
  assert (Hlock : Frames (OnState (Spared (fun path => path = lockPath os args))) (checkParent os surroundings args)).
  { apply frames_checkParent. intros above Ha E'. rewrite lockPath_eq in E'. apply (inside_off segments above (name ⧺ ".assemble.lock")); [done| |done].
    intros El%(f_equal String.length). rewrite length_append in El. cbn in El. lia. }
  apply task_bind_cases in E as [(u & w1 & E1 & E)|(e & -> & E)].
  2: { apply (frames_at _ _ _ _ _ Hout) in E. split; [by left|]. intros _. by exists e. }
  pose proof (frames_at _ _ _ _ _ Hout E1) as HS1. pose proof (frames_at _ _ _ _ _ Hlock E1 _ eq_refl) as HL1.
  pose proof (frames_state (S := W) _ _ frames_takeLock) as Htake.
  apply task_bind_cases in E as [(u2 & w2 & E2 & E)|(e & -> & E)].
  2: { apply (frames_at _ _ _ _ _ Htake) in E. split; [left; by etransitivity|]. intros _. exists e. split; [done|by etransitivity]. }
  pose proof (frames_at _ _ _ _ _ Htake E2) as HS2. apply underLock_cases in E. split.
  - unfold AllOrNothing in *. assert (HS : OnState (Spared Out) w w2) by by etransitivity. destruct o as [path|e].
    + destruct E as [-> Hp]. split; [done|]. eapply published_spared; [exact HS|exact Hp|reflexivity].
    + destruct E as [Hn|Hp]; [left; by etransitivity|right]. eapply published_spared; [exact HS|exact Hp|reflexivity].
  - intros [entry Hl]. exfalso. apply onDisk_inv in E2 as (d' & E2 & _). apply (lock_held entry) in E2 as [e E2]; [done|]. by rewrite HL1.
Qed.
End Atomic.

(** ** [scripts/rename_noreplace.py] *)

Section Rename.
Context (segments : list string) (a b : string) (Ha : isSegment a = true) (Hb : isSegment b = true) (Hne : a <> b).
#[local] Abbreviation from := (inside segments a).
#[local] Abbreviation to := (inside segments b).

Lemma within_tail directory rest : Tail rest -> within directory (directory ⧺ rest) = Some rest.
Proof. intros H. by apply within_spec. Qed.

Lemma within_other rest : Tail rest -> within from (to ⧺ rest) = None.
Proof.
  intros Hr. apply eq_None_not_Some. intros [rest' [E Hr']%within_spec].
  by apply (siblings_apart segments a b Ha Hb rest' rest).
Qed.

Lemma swap_from rest : Tail rest -> swapName from to (from ⧺ rest) = to ⧺ rest.
Proof. intros Hr. unfold swapName. by rewrite within_tail. Qed.

Lemma swap_to rest : Tail rest -> swapName from to (to ⧺ rest) = from ⧺ rest.
Proof. intros Hr. unfold swapName. by rewrite within_other, within_tail. Qed.

Lemma swap_off path : below from path = false -> below to path = false -> swapName from to path = path.
Proof.
  unfold below, swapName. rewrite !bool_decide_eq_false, <- !eq_None_not_Some. by intros -> ->.
Qed.

Lemma swap_involutive path : swapName from to (swapName from to path) = path.
Proof.
  destruct (below from path) eqn:Ef; [|destruct (below to path) eqn:Et].
  - apply below_spec in Ef as (rest & -> & Hr). by rewrite swap_from, swap_to.
  - apply below_spec in Et as (rest & -> & Hr). by rewrite swap_to, swap_from.
  - by rewrite !(swap_off path).
Qed.

Lemma moveTree_moves (files : Files) : pathsBelow to files = [] -> Moved from to files (moveTree from to files).
Proof.
  intros Hn. pose proof (proj1 (pathsBelow_nil _ _) Hn) as Hnone. assert (Hinj : Inj (=) (=) (swapName from to)) by (intros x y E; by rewrite <- (swap_involutive x), E, swap_involutive).
  unfold moveTree. split.
  - intros rest Hr. split; [by apply Hnone|]. rewrite <- (swap_from rest) by done. by rewrite (lookup_kmap (swapName from to)).
  - intros path [Hf Ht]. rewrite <- (swap_off path) at 1 by done. by rewrite (lookup_kmap (swapName from to)).
Qed.

Lemma renameNoreplace_cases os d o d' :
  renameNoreplace os from to d = (o, d') ->
  (d'.(Dsk.files) = d.(Dsk.files) \/ Moved from to d.(Dsk.files) d'.(Dsk.files))
  /\ (forall result, o = Returns result -> succeeded result = true -> Moved from to d.(Dsk.files) d'.(Dsk.files)).
Proof.
  unfold renameNoreplace, systemCall. destruct (Os.fault os _) as [e|].
  { intros [= <- <-]. split; [by left|]. by intros result [= <-]. }
  destruct (negb _); [intros [= <- <-]; split; [by left|by intros result [= <-]]|].
  destruct (negb _); [intros [= <- <-]; split; [by left|by intros result [= <-]]|].
  destruct (_ !! from) as [[]|]; try (intros [= <- <-]; split; [by left|by intros result [= <-]]).
  all: destruct (pathsBelow to (Dsk.files d)) eqn:Eb; intros [= <- <-].
  all: first [split; [right|intros _ _ _]; by apply moveTree_moves|split; [by left|by intros result [= <-]]].
Qed.
End Rename.

(** C40. Whatever fails, at whatever call, the output directory is untouched or it
    holds exactly the simulation and the candidate, private, and the validator
    had accepted exactly these bytes in the staging directory.  It only ever
    comes where nothing was, so nothing is replaced; a call that returns has
    published; and while another assembler holds the lock a call throws and
    leaves the output alone. *)
Theorem output_all_or_nothing {W} `{HasDisk W} os surroundings spawnSync (args : Output.CandidateOutput W) segments name (w : W) o w' :
  Segments segments -> isSegment name = true -> resolve os args.(Output.outputDirectory) = inside segments name ->
  Relied segments name surroundings spawnSync args ->
  finalizeCandidateDirectoryAtomically os surroundings spawnSync args w = (o, w') ->
  let untouched := OnState (Spared (fun path => below (inside segments name) path = true)) w w' in
  let published := Published args segments name (diskOf w).(Dsk.files) (diskOf w').(Dsk.files) in
  match o with
  | Returns path => path = inside segments name /\ published
  | Throws _ => untouched \/ published
  end
  /\ (is_Some ((diskOf w).(Dsk.files) !! lockPath os args) -> exists e, o = Throws e /\ untouched).
Proof. intros Hs Hn Ho Hr E. by apply (finalize_cases os surroundings spawnSync args segments name Hs Hn Ho Hr w o w'). Qed.

(** A run with the real helper. *)
Definition calmOs : Os.OperatingSystem :=
  Os.mk (fun _ => None) (fun call => call) (fun _ path => path) false 7 "/home" 18 (fun _ => "2026-01-01T00:00:00.000Z") (fun _ => "ab").
Definition helperProgram (runtime : string) (arguments : list string) : Task Dsk.Disk Spawn.SpawnResult :=
  match arguments with [_; source; destination] => renameNoreplace calmOs source destination | _ => mret (exited 64 "usage") end.
Definition sampleSurroundings : Surroundings.ProcessSurroundings := Surroundings.mk (Some 5) (fun _ _ => 5) (fun _ => "a1B2c3") "/helper.py".
Definition sampleOutput : Output.CandidateOutput Dsk.Disk :=
  Output.mk "release/candidate" "candidate" "simulation" (fun _ _ => mret tt) None (Some "/usr/bin/python3") None.

Lemma output_all_or_nothing_witness :
  exists d, finalizeCandidateDirectoryAtomically calmOs sampleSurroundings helperProgram sampleOutput (Dsk.mk ∅ 0)
            = (Returns "/home/release/candidate", d)
    /\ Holds "/home/release/candidate" (pair sampleOutput) d.(Dsk.files).
Proof.
  eexists. split; [vm_compute; reflexivity|].
  refine (proj1 (proj2 (proj2 (proj1 (output_all_or_nothing calmOs sampleSurroundings helperProgram sampleOutput ["home"; "release"] "candidate"
    (Dsk.mk ∅ 0) (Returns "/home/release/candidate") _ _ _ _ _ _))))).
  - by repeat constructor.
  - done.
  - vm_compute. reflexivity.
  - split.
    + intros candidate simulation d. reflexivity.
    + discriminate.
    + intros call. by split.
    + intros runtime helper staged d o d' Hs Hne E. by apply (renameNoreplace_cases ["home"; "release"] staged "candidate" Hs eq_refl Hne calmOs).
  - vm_compute. reflexivity.
Defined.
