(* ===== verification/BuildIntegrity.v ===== *)
(** * The reviewed SDK: [packages/release-candidate-assembler/src/build-integrity.ts]

    The installed package is walked, digested and compared with a reviewed pin
    and an attestation.  The walk is recursive with fuel: every directory it
    enters has a longer path than the one before, and no path is longer than the
    longest of the disk.  A file is its text in UTF-8. *)
From stdpp Require Import gmap.
From S2P Require Import Prelude JsMap Types MoveDomains JsValue Json SdkTypes Accounting Replay Group WalletHandlers.
From S2P Require Import LpHandlers PoolHandlers ConfigHandlers GroupChecks Reducer Reconciler Snapshot SnapshotDecode.
From S2P Require Import AlertCodec Store Disk FileStore ReleaseClient ReleaseInputs.

Definition NUL : string := String "000"%char "".
Definition LF : string := String NEWLINE "".

(** ** Directories *)

Definition childPrefix (directory : string) : string := if bool_decide (directory = "/") then "/" else directory ⧺ "/".

Definition isName (s : string) : bool :=
  allChars (fun c => negb (isSlash c)) s && negb (bool_decide (s = "")) && negb (bool_decide (s = ".")) && negb (bool_decide (s = "..")).

(** The entry of that directory that a path names. *)
Definition childName (directory path : string) : option string :=
  match stripPrefix (childPrefix directory) path with
  | Some name => if isName name then Some name else None
  | None => None
  end.

Definition Dirents : Type := list (string * Entry).

Fixpoint insertDirent (dirent : string * Entry) (sorted : Dirents) : Dirents :=
  match sorted with
  | [] => [dirent]
  | first :: rest => if String.leb dirent.1 first.1 then dirent :: sorted else first :: insertDirent dirent rest
  end.
Definition sortDirents (dirents : Dirents) : Dirents := foldr insertDirent [] dirents.

Definition direntsOf (directory : string) (files : Files) : Dirents :=
  omap (fun item : string * Entry => option_map (fun name => (name, item.2)) (childName directory item.1)) (map_to_list files).

(** [relative(from, to)] *)
Fixpoint stripCommon (a b : list string) : list string * list string :=
  match a, b with
  | x :: a', y :: b' => if bool_decide (x = y) then stripCommon a' b' else (a, b)
  | _, _ => (a, b)
  end.
Definition relativePath (from to : string) : string :=
  let '(above, down) := stripCommon (segmentsOf from) (segmentsOf to) in joinWith "/" (map (fun _ => "..") above ++ down).

Definition portableRelative (root path label : string) : Outcome string :=
  let value := relativePath root path in
  if bool_decide (value = "") || bool_decide (value = "..") || bool_decide (is_Some (stripPrefix "../" value))
     || negb (SAFE_RELATIVE_PATH value)
  then fail (label ⧺ " is outside the reviewed package tree or has an unsafe path") else Returns value.

Module PackageTree.
Record PackageTree := mk { sha256 : string; files : Z }.
End PackageTree.

Module Observed.
Record ObservedArtifact := mk {
  packageJsonSha256 : string;
  entrypoint : string;
  entrypointSha256 : string;
  treeSha256 : string;
  fileCount : Z
}.
End Observed.

Module IntegrityInputs.
Record IntegrityInputs := mk {
  repoRoot : string;
  sdkPackageJsonPath : string;
  sdkEntrypointPath : string;
  sdkReviewAttestationPath : string;
  sdkReviewSignaturePath : string;
  sdkReviewTrustPath : string
}.
End IntegrityInputs.

Section Integrity.
Context (os : Os.OperatingSystem) (sha256 : string -> string) (numberText : Z -> Z -> string).

(** [readdirSync(directory, { withFileTypes: true }).sort(...)] *)
Definition readdirSync (directory : string) : Task Dsk.Disk Dirents :=
  looks os (fun files => present "scandir" directory files ≫= fun _ => Returns (sortDirents (direntsOf directory files))).

Definition readFile (path : string) : Task Dsk.Disk string := handleReadFile os path.

Definition requireRegularFile (path label : string) : Task Dsk.Disk unit :=
  stat ← lstat os path;
  evaluate (unlessFail (isFile stat && negb (isSymbolicLink stat)) (label ⧺ " must be a regular non-symlink file")).

(** ** [packageTree] *)

Definition treeRecord (bytes path : string) : string := sha256 bytes ⧺ NUL ⧺ show (utf8Length bytes) ⧺ NUL ⧺ path ⧺ LF.

(** The loop over the entries of a directory; [visit] is what it does with one that is a directory. *)
Fixpoint visitEntries (visit : string -> Task Dsk.Disk (list string)) (root directory : string) (entries : Dirents)
    : Task Dsk.Disk (list string) :=
  match entries with
  | [] => mret []
  | (name, entry) :: rest =>
      let path := resolve os (directory ⧺ "/" ⧺ name) in
      records ←
        (match entry with
         | SymbolicLink _ _ =>
             evaluate (relative ← portableRelative root path "SDK path";
                       fail ("reviewed SDK package tree contains a symbolic link: " ⧺ relative))
         | Folder _ => visit path
         | RegularFile _ _ =>
             bytes ← readFile path;
             relative ← evaluate (portableRelative root path "SDK file");
             mret [treeRecord bytes relative]
         | OtherEntry _ =>
             evaluate (relative ← portableRelative root path "SDK path";
                       fail ("reviewed SDK package tree contains a non-regular entry: " ⧺ relative))
         end);
      others ← visitEntries visit root directory rest;
      mret (records ++ others)
  end.

Fixpoint visit (fuel : nat) (root directory : string) : Task Dsk.Disk (list string) :=
  match fuel with
  | O => throwing (mkError "Fuel" "")
  | S fuel' => entries ← readdirSync directory; visitEntries (visit fuel' root) root directory entries
  end.

(** No path of the disk is longer. *)
Definition longestPath (files : Files) : nat := foldr Nat.max O (map (fun item => String.length item.1) (map_to_list files)).

Definition packageTree (root : string) : Task Dsk.Disk PackageTree.PackageTree :=
  d ← getState;
  records ← visit (S (longestPath d.(Dsk.files))) root root;
  evaluate (unlessFail (negb (bool_decide (records = []))) "reviewed SDK package tree is empty") ;;
  mret (PackageTree.mk (sha256 (joinWith "" records)) (arrayLength records)).

(** ** The documents *)

Definition parseJson (path label : string) : Task Dsk.Disk JsonFields :=
  tryCatch
    (text ← readFile path;
     value ← evaluate (jsonParse numberText text);
     evaluate (match value with JObject fields => Returns fields | _ => fail (label ⧺ " must contain a JSON object") end))
    (fun e => evaluate (fail (label ⧺ " is not valid JSON: " ⧺ e.(err_message)))).

Definition PIN_KEYS : list string :=
  ["schema_version"; "evidence_scope"; "package_name"; "package_version"; "registry_tarball_url"; "npm_tarball_sha512_integrity";
   "npm_tarball_sha256"; "package_tree_digest_algorithm"; "sdk_package_json_sha256"; "sdk_loaded_entrypoint";
   "sdk_loaded_entrypoint_sha256"; "sdk_package_tree_sha256"; "sdk_package_file_count"].

Definition TREE_DIGEST_ALGORITHM : string :=
  "sha256(depth_first_lexicographic_path_components(sha256(file_bytes) NUL decimal_byte_length NUL posix_relative_path LF))".

Definition assertReviewedPin (pin : JsonFields) (integrity : string) (observed : Observed.ObservedArtifact) : Outcome unit :=
  let property key := jsGet key pin in
  unlessFail (bool_decide (keysText (jsKeys pin) = keysText PIN_KEYS)) "reviewed Cedra SDK artifact pin has missing or extra fields" ≫= fun _ =>
  unlessFail (isNumber (property "schema_version") 1
              && isText (property "evidence_scope") "reviewed-npm-sdk-artifact"
              && isText (property "package_name") REVIEWED_SDK_PACKAGE
              && isText (property "package_version") REVIEWED_SDK_VERSION
              && isText (property "registry_tarball_url") "https://registry.npmjs.org/@cedra-labs/ts-sdk/-/ts-sdk-2.2.8.tgz"
              && isText (property "npm_tarball_sha512_integrity") integrity
              && matches SHA256_PATTERN (property "npm_tarball_sha256")
              && isText (property "package_tree_digest_algorithm") TREE_DIGEST_ALGORITHM)
    "reviewed Cedra SDK artifact pin is invalid or differs from package-lock.json" ≫= fun _ =>
  unlessFail (isText (property "sdk_package_json_sha256") observed.(Observed.packageJsonSha256)
              && isText (property "sdk_loaded_entrypoint") observed.(Observed.entrypoint)
              && isText (property "sdk_loaded_entrypoint_sha256") observed.(Observed.entrypointSha256)
              && isText (property "sdk_package_tree_sha256") observed.(Observed.treeSha256)
              && isNumber (property "sdk_package_file_count") observed.(Observed.fileCount))
    "actually loaded Cedra SDK artifact differs from the independently reviewed npm tarball pin".

(** The [integrity] of the SDK in the lockfile. *)
Definition lockedIntegrity (lock : JsonFields) : Outcome string :=
  packages ← match jsGet "packages" lock with
             | Some (JObject fields) => Returns fields
             | _ => fail "reviewed package lockfile has no packages map"
             end;
  locked ← match jsGet "node_modules/@cedra-labs/ts-sdk" packages with
           | Some (JObject fields) => Returns fields
           | _ => fail "reviewed package lockfile has no Cedra SDK record"
           end;
  match jsGet "integrity" locked with
  | Some (JString integrity) =>
      unlessFail (isText (jsGet "version" locked) REVIEWED_SDK_VERSION && SHA512_INTEGRITY_PATTERN integrity)
        ("reviewed package lockfile must pin " ⧺ REVIEWED_SDK_PACKAGE ⧺ " " ⧺ REVIEWED_SDK_VERSION ⧺ " with SHA-512 integrity") ≫= fun _ =>
      Returns integrity
  | _ => fail ("reviewed package lockfile must pin " ⧺ REVIEWED_SDK_PACKAGE ⧺ " " ⧺ REVIEWED_SDK_VERSION ⧺ " with SHA-512 integrity")
  end.

Definition ATTESTATION_REFUSED : string :=
  "independent SDK-review attestation does not bind the loaded reviewed SDK and external trust anchor".

(** The reviewer of an approval, and what it binds besides. *)
Definition attestedReviewer (attestation : JsonFields) : Outcome string :=
  match jsGet "reviewer_identity" attestation with
  | Some (JString reviewer) =>
      unlessFail (isText (jsGet "evidence_scope" attestation) "independent-cedra-sdk-review-attestation"
                  && isText (jsGet "decision" attestation) "approved-for-testnet-candidate-assembly"
                  && REVIEWER_PATTERN reviewer) ATTESTATION_REFUSED ≫= fun _ =>
      Returns reviewer
  | _ => fail ATTESTATION_REFUSED
  end.
Definition assertAttestationBinds (attestation : JsonFields) (pinSha256 trustSha256 : string) (tree : PackageTree.PackageTree) : Outcome unit :=
  unlessFail (isText (jsGet "sdk_review_pin_sha256" attestation) pinSha256
              && isText (jsGet "sdk_package_tree_sha256" attestation) tree.(PackageTree.sha256)
              && isNumber (jsGet "sdk_package_file_count" attestation) tree.(PackageTree.files)
              && isText (jsGet "trusted_allowed_signers_sha256" attestation) trustSha256) ATTESTATION_REFUSED.

(** ** [computeBuildIntegrity] *)

(** What it returns. *)
Definition integrityEvidence (closureSha256 lockSha256 integrity pinSha256 packageJsonSha256 entrypoint entrypointSha256 : string)
    (tree : PackageTree.PackageTree) (attestationSha256 signatureSha256 reviewer trustSha256 : string) : JsonFields :=
  [("release_executable_closure_file", JString RELEASE_EXECUTABLE_CLOSURE_FILE);
   ("release_executable_closure_sha256", JString closureSha256);
   ("package_lock_file", JString "package-lock.json");
   ("package_lock_sha256", JString lockSha256);
   ("sdk_package", JString REVIEWED_SDK_PACKAGE);
   ("sdk_version", JString REVIEWED_SDK_VERSION);
   ("sdk_lock_integrity", JString integrity);
   ("sdk_review_pin_file", JString REVIEWED_SDK_PIN_FILE);
   ("sdk_review_pin_sha256", JString pinSha256);
   ("sdk_package_json_sha256", JString packageJsonSha256);
   ("sdk_loaded_entrypoint", JString entrypoint);
   ("sdk_loaded_entrypoint_sha256", JString entrypointSha256);
   ("sdk_package_tree_sha256", JString tree.(PackageTree.sha256));
   ("sdk_package_file_count", JNumber tree.(PackageTree.files));
   ("sdk_review_attestation_sha256", JString attestationSha256);
   ("sdk_review_signature_sha256", JString signatureSha256);
   ("sdk_review_signature_namespace", JString "cedra-reflect-sdk-review-v1");
   ("sdk_review_reviewer_identity", JString reviewer);
   ("sdk_review_trusted_signers_sha256", JString trustSha256)].

(** [sha256(readFileSync(path))] *)
Definition digestFile (path : string) : Task Dsk.Disk string := bytes ← readFile path; mret (sha256 bytes).

(** [realpathSync(resolve(path))] *)
Definition realPath (path : string) : Task Dsk.Disk string := realpath os (resolve os path).

Definition computeBuildIntegrity (args : IntegrityInputs.IntegrityInputs) : Task Dsk.Disk JsonFields :=
  repoRoot ← realPath args.(IntegrityInputs.repoRoot);
  let inRepository file := resolve os (repoRoot ⧺ "/" ⧺ file) in
  let packageLockPath := inRepository "package-lock.json" in
  let reviewPinPath := inRepository REVIEWED_SDK_PIN_FILE in
  let executableClosurePath := inRepository RELEASE_EXECUTABLE_CLOSURE_FILE in
  requireRegularFile packageLockPath "reviewed package lockfile" ;;
  requireRegularFile reviewPinPath "reviewed Cedra SDK artifact pin" ;;
  requireRegularFile executableClosurePath "reviewed release executable-closure manifest" ;;
  attestationPath ← realPath args.(IntegrityInputs.sdkReviewAttestationPath);
  signaturePath ← realPath args.(IntegrityInputs.sdkReviewSignaturePath);
  trustPath ← realPath args.(IntegrityInputs.sdkReviewTrustPath);
  requireRegularFile attestationPath "independent SDK-review attestation" ;;
  requireRegularFile signaturePath "independent SDK-review signature" ;;
  requireRegularFile trustPath "independent SDK-review trust anchor" ;;
  packageJsonPath ← realPath args.(IntegrityInputs.sdkPackageJsonPath);
  requireRegularFile packageJsonPath "loaded Cedra SDK package manifest" ;;
  sdkRoot ← realpath os (dirname packageJsonPath);
  evaluate (unlessFail (bool_decide (packageJsonPath = resolve os (sdkRoot ⧺ "/package.json")))
              "loaded Cedra SDK package manifest is not the package-root package.json") ;;
  entrypointPath ← realPath args.(IntegrityInputs.sdkEntrypointPath);
  requireRegularFile entrypointPath "loaded Cedra SDK entrypoint" ;;
  entrypoint ← evaluate (portableRelative sdkRoot entrypointPath "loaded Cedra SDK entrypoint");
  manifest ← parseJson packageJsonPath "loaded Cedra SDK package manifest";
  evaluate (unlessFail (isText (jsGet "name" manifest) REVIEWED_SDK_PACKAGE && isText (jsGet "version" manifest) REVIEWED_SDK_VERSION)
              ("loaded SDK must be " ⧺ REVIEWED_SDK_PACKAGE ⧺ " " ⧺ REVIEWED_SDK_VERSION)) ;;
  lock ← parseJson packageLockPath "reviewed package lockfile";
  integrity ← evaluate (lockedIntegrity lock);
  tree ← packageTree sdkRoot;
  packageJsonSha256 ← digestFile packageJsonPath;
  entrypointSha256 ← digestFile entrypointPath;
  pin ← parseJson reviewPinPath "reviewed Cedra SDK artifact pin";
  evaluate (assertReviewedPin pin integrity
              (Observed.mk packageJsonSha256 entrypoint entrypointSha256 tree.(PackageTree.sha256) tree.(PackageTree.files))) ;;
  attestation ← parseJson attestationPath "independent SDK-review attestation";
  trustSha256 ← digestFile trustPath;
  reviewer ← evaluate (attestedReviewer attestation);
  boundPinSha256 ← digestFile reviewPinPath;
  evaluate (assertAttestationBinds attestation boundPinSha256 trustSha256 tree) ;;
  closureSha256 ← digestFile executableClosurePath;
  lockSha256 ← digestFile packageLockPath;
  pinSha256 ← digestFile reviewPinPath;
  attestationSha256 ← digestFile attestationPath;
  signatureSha256 ← digestFile signaturePath;
  mret (integrityEvidence closureSha256 lockSha256 integrity pinSha256 packageJsonSha256 entrypoint entrypointSha256 tree
          attestationSha256 signatureSha256 reviewer trustSha256).
End Integrity.
