(* ===== verification/IntegrityTheorems.v ===== *)
(** * Theorems on the reviewed SDK

    The digest of a package tree determines every file of it, or two texts with
    one digest are at hand; evidence is only made for the reviewed tree. *)
From stdpp Require Import gmap.
From S2P Require Import Prelude JsMap Types MoveDomains JsValue Json SdkTypes Accounting Replay Group WalletHandlers.
From S2P Require Import LpHandlers PoolHandlers ConfigHandlers GroupChecks Reducer Reconciler Snapshot SnapshotDecode.
From S2P Require Import AlertCodec Store Numerals CursorRoundTrip JsonRoundTrip SnapshotRoundTrip Disk FileStore DiskSpec ReleaseClient.
From S2P Require Import ReleaseSpec ReleaseInputs AssemblerSpec BuildIntegrity.

(** ** Text in fields and lines *)

(** [c] is not in [s]. *)
Definition free (c : ascii) (s : string) : bool := allChars (fun x => negb (bool_decide (x = c))) s.

Lemma free_of f c s : allChars f s = true -> f c = false -> free c s = true.
Proof.
  intros Hs Hc. induction s as [|x s IH]; [done|]. cbn in *. bools. rewrite bool_decide_false by congruence. by apply IH.
Qed.

(** A field ends at its separator. *)
Lemma cut_at c a b r r' : free c a = true -> free c b = true -> a ⧺ String c r = b ⧺ String c r' -> a = b /\ r = r'.
Proof.
  revert b. induction a as [|x a IH]; intros [|y b] Ha Hb E.
  - by injection E as ->.
  - exfalso. cbn in E, Hb. injection E as <- _. by rewrite bool_decide_true in Hb.
  - exfalso. cbn in E, Ha. injection E as -> _. by rewrite bool_decide_true in Ha.
  - rewrite !append_String in E. injection E as -> E. cbn in Ha, Hb. bools. by apply IH in E as [-> ->].
Qed.

Lemma joinWith_cons x l : joinWith "" (x :: l) = x ⧺ joinWith "" l.
Proof. destruct l; [by rewrite append_empty|done]. Qed.

(** Lines of a text. *)
Lemma lines_inj l l' :
  Forall (fun line => free NEWLINE line = true) l -> Forall (fun line => free NEWLINE line = true) l' ->
  joinWith "" (map (fun line => line ⧺ LF) l) = joinWith "" (map (fun line => line ⧺ LF) l') -> l = l'.
Proof.
  intros Hl. revert l'. induction Hl as [|x l Hx Hl IH]; intros l' Hl'; destruct Hl' as [|x' l' Hx' Hl']; cbn [map]; rewrite ?joinWith_cons.
  - done.
  - intros E. exfalso. apply (f_equal String.length) in E. rewrite !length_append in E. cbn in E. lia.
  - intros E. exfalso. apply (f_equal String.length) in E. rewrite !length_append in E. cbn in E. lia.
  - rewrite !append_assoc. intros [-> E]%cut_at; [|done..]. f_equal. by apply IH.
Qed.

Lemma show_digits n : 0 <= n -> allChars isDigit (show n) = true.
Proof. intros Hn. destruct (decide (n = 0)) as [->|Hne]; [done|]. by destruct (show_numeral n ltac:(lia)) as [H _]. Qed.

Lemma utf8Length_nonneg s : 0 <= utf8Length s.
Proof. induction s as [|c s IH]; [done|]. cbn [utf8Length]. case_bool_decide; lia. Qed.

(** ** Records of a tree *)

Section Tree.
Context (os : Os.OperatingSystem) (sha256 : string -> string) (Hsha : Digests sha256).

(** Two different texts of one digest. *)
Definition Collision : Prop := exists a b, a <> b /\ sha256 a = sha256 b.

(** The files of a tree, by their names below its root. *)
Definition Listing : Type := list (list string * string).

Definition recordOf (file : list string * string) : string := treeRecord sha256 file.2 (joinWith "/" file.1).
Definition SafeFile (file : list string * string) : Prop := Segments file.1 /\ SAFE_RELATIVE_PATH (joinWith "/" file.1) = true.

Lemma digest_free c text : isLowerHex c = false -> free c (sha256 text) = true.
Proof. apply free_of, Hsha. Qed.

Lemma safe_free c path : SAFE_RELATIVE_PATH path = true -> isWordChar "@._+/-" c = false -> free c path = true.
Proof. unfold SAFE_RELATIVE_PATH. intros H. bools. by apply free_of. Qed.

Definition recordLine (file : list string * string) : string :=
  sha256 file.2 ⧺ String "000" (show (utf8Length file.2) ⧺ String "000" (joinWith "/" file.1)).

Lemma recordOf_line file : recordOf file = recordLine file ⧺ LF.
Proof. unfold recordOf, treeRecord, recordLine, NUL. rewrite !append_assoc, !append_String, !append_assoc. done. Qed.

Lemma recordLine_free file : SafeFile file -> free NEWLINE (recordLine file) = true.
Proof.
  intros [_ Hs]. unfold recordLine, free. rewrite !allChars_append. cbn [allChars]. rewrite !allChars_append. cbn [allChars].
  pose proof (digest_free NEWLINE file.2 eq_refl) as H1. unfold free in H1. rewrite H1.
  pose proof (free_of _ NEWLINE _ (show_digits _ (utf8Length_nonneg file.2)) eq_refl) as H2. unfold free in H2. rewrite H2.
  pose proof (safe_free NEWLINE _ Hs eq_refl) as H3. unfold free in H3. by rewrite H3.
Qed.

Lemma joinWith_segments names names' : Segments names -> Segments names' -> joinWith "/" names = joinWith "/" names' -> names = names'.
Proof. intros H H' E. apply render_inj; [done..|]. unfold render. by rewrite E. Qed.

Lemma recordLine_inj file file' :
  SafeFile file -> SafeFile file' -> recordLine file = recordLine file' -> file = file' \/ Collision.
Proof.
  destruct file as [names text], file' as [names' text']. intros [Hn _] [Hn' _]. unfold recordLine. cbn [fst snd] in *.
  intros [E1 E]%cut_at; [|by apply digest_free..].
  apply cut_at in E as [_ E]; [|by eapply free_of; [apply show_digits, utf8Length_nonneg|]..].
  apply joinWith_segments in E as ->; [|done..]. destruct (decide (text = text')) as [->|Hne]; [by left|right; by exists text, text'].
Qed.

Lemma listing_inj (l l' : Listing) :
  Forall SafeFile l -> Forall SafeFile l' -> map recordLine l = map recordLine l' -> l = l' \/ Collision.
Proof.
  intros Hl. revert l'. induction Hl as [|file l Hf Hl IH]; intros l' Hl'; destruct Hl' as [|file' l' Hf' Hl']; cbn [map]; intros E; try done.
  - by left.
  - injection E as E El. apply recordLine_inj in E as [->|Hc]; [|by right|done..]. apply IH in El as [->|Hc]; [by left|by right|done].
Qed.

(** The text that is digested determines the listing. *)
Lemma records_inj (l l' : Listing) :
  Forall SafeFile l -> Forall SafeFile l' -> joinWith "" (map recordOf l) = joinWith "" (map recordOf l') -> l = l' \/ Collision.
Proof.
  intros Hl Hl' E. apply listing_inj; [done..|]. apply lines_inj.
  - apply Forall_map. eapply Forall_impl; [|exact Hl]. apply recordLine_free.
  - apply Forall_map. eapply Forall_impl; [|exact Hl']. apply recordLine_free.
  - assert (G : forall l, map (fun line => line ⧺ LF) (map recordLine l) = map recordOf l)
      by (intros files; rewrite map_map; apply map_ext; intros file; by rewrite recordOf_line).
    by rewrite !G.
Qed.

(** ** The walk *)

(** A regular file below a directory, through directories only. *)
Inductive Reaches (files : Files) : list string -> list string -> string -> Prop :=
| reaches_file segments name content mode :
    isSegment name = true -> files !! render (segments ++ [name]) = Some (RegularFile content mode) ->
    Reaches files segments [name] content
| reaches_folder segments name rest content mode :
    isSegment name = true -> files !! render (segments ++ [name]) = Some (Folder mode) ->
    Reaches files (segments ++ [name]) rest content -> Reaches files segments (name :: rest) content.

Lemma reaches_segments files segments names content : Reaches files segments names content -> Segments names.
Proof. induction 1; by repeat constructor. Qed.

Lemma childPrefix_render segments name :
  Segments segments -> isSegment name = true -> childPrefix (render segments) ⧺ name = render (segments ++ [name]).
Proof.
  intros Hs Hn. rewrite render_snoc. unfold childPrefix. destruct Hs as [|s segments Hs Hrest]; [done|].
  rewrite bool_decide_false; [by rewrite append_assoc|]. intros E. apply (render_inj (s :: segments) []) in E; [done|by constructor|constructor].
Qed.

Lemma childName_spec segments path name :
  Segments segments -> childName (render segments) path = Some name <-> isSegment name = true /\ path = render (segments ++ [name]).
Proof.
  intros Hs. unfold childName. change isName with isSegment. split.
  - destruct (stripPrefix _ path) as [rest|] eqn:E; [|done]. apply stripPrefix_some in E as ->.
    destruct (isSegment rest) eqn:Hr; [|done]. intros [= <-]. split; [done|]. by apply childPrefix_render.
  - intros [Hn ->]. rewrite <- childPrefix_render, stripPrefix_app by done. by rewrite Hn.
Qed.

Lemma direntsOf_spec segments files name entry :
  Segments segments ->
  (name, entry) ∈ direntsOf (render segments) files <-> isSegment name = true /\ files !! render (segments ++ [name]) = Some entry.
Proof.
  intros Hs. unfold direntsOf. rewrite list_elem_of_omap. split.
  - intros ([path entry'] & Hin%elem_of_map_to_list & E). cbn in E. destruct (childName _ path) as [name'|] eqn:Ec; [|done].
    injection E as -> ->. by apply childName_spec in Ec as [Hn ->].
  - intros [Hn Hl]. exists (render (segments ++ [name]), entry). split; [by apply elem_of_map_to_list|]. cbn.
    rewrite (proj2 (childName_spec segments _ name Hs)); [done|done].
Qed.

Lemma insertDirent_perm dirent sorted : insertDirent dirent sorted ≡ₚ dirent :: sorted.
Proof.
  induction sorted as [|first rest IH]; [done|]. cbn. destruct (String.leb _ _); [done|]. rewrite IH. apply Permutation_swap.
Qed.

Lemma sortDirents_perm dirents : sortDirents dirents ≡ₚ dirents.
Proof. induction dirents as [|dirent dirents IH]; [done|]. cbn. by rewrite insertDirent_perm, IH. Qed.

Lemma stripCommon_prefix a b : stripCommon a (a ++ b) = ([], b).
Proof. induction a as [|x a IH]; [by destruct b|]. cbn. by rewrite bool_decide_true. Qed.

Lemma relativePath_below segments names :
  Segments segments -> Segments names -> relativePath (render segments) (render (segments ++ names)) = joinWith "/" names.
Proof.
  intros Hs Hn. unfold relativePath. rewrite !segmentsOf_render by (try apply Forall_app; done). by rewrite stripCommon_prefix.
Qed.

Lemma portableRelative_below segments names label relative :
  Segments segments -> Segments names -> portableRelative (render segments) (render (segments ++ names)) label = Returns relative ->
  relative = joinWith "/" names /\ SAFE_RELATIVE_PATH relative = true.
Proof.
  intros Hs Hn. unfold portableRelative. rewrite relativePath_below by done. destruct (_ || _) eqn:E; [done|]. intros [= <-].
  split; [done|]. bools. done.
Qed.

Section Walk.
Context (root : list string) (Hroot : Segments root) (files : Files).

(** The records are those of exactly the files that [P] holds of, below [above]. *)
Definition Lists (above : list string) (records : list string) (P : list string -> string -> Prop) : Prop :=
  exists listing, records = map recordOf listing /\ Forall SafeFile listing
    /\ forall names content, (names, content) ∈ listing <-> exists below, names = above ++ below /\ P below content.

Lemma lists_nil above : Lists above [] (fun _ _ => False).
Proof. exists []. split; [done|]. split; [constructor|]. intros names content. split; [by intros ?%not_elem_of_nil|by intros (below & _ & [])]. Qed.

Lemma lists_app above records records' P P' :
  Lists above records P -> Lists above records' P' -> Lists above (records ++ records') (fun below content => P below content \/ P' below content).
Proof.
  intros (l & -> & Hl & HP) (l' & -> & Hl' & HP'). exists (l ++ l'). split; [by rewrite map_app|]. split; [by apply Forall_app|].
  intros names content. rewrite elem_of_app, HP, HP'. split; [|intros (below & -> & [H|H]); [left|right]; by exists below].
  intros [(below & -> & H)|(below & -> & H)]; exists below; (split; [done|]); [by left|by right].
Qed.

Lemma lists_iff above records (P P' : list string -> string -> Prop) :
  (forall below content, P below content <-> P' below content) -> Lists above records P -> Lists above records P'.
Proof. intros HPP (l & -> & Hl & HP). exists l. do 2 (split; [done|]). intros names content. rewrite HP. by setoid_rewrite HPP. Qed.

(** What an entry of a directory holds. *)
Definition Under (above : list string) (name : string) (entry : Entry) (rest : list string) (content : string) : Prop :=
  match entry with
  | RegularFile text _ => rest = [] /\ content = text
  | Folder _ => Reaches files (root ++ above ++ [name]) rest content
  | _ => False
  end.
Definition Among (above : list string) (entries : Dirents) (below : list string) (content : string) : Prop :=
  exists name entry rest, (name, entry) ∈ entries /\ below = name :: rest /\ Under above name entry rest content.

Lemma among_reaches above (entries : Dirents) below content :
  Segments above ->
  (forall name entry, (name, entry) ∈ entries <-> isSegment name = true /\ files !! render (root ++ above ++ [name]) = Some entry) ->
  Among above entries below content <-> Reaches files (root ++ above) below content.
Proof.
  intros Ha Hin. split.
  - intros (name & entry & rest & [Hn Hl]%Hin & -> & HU). rewrite app_assoc in *. destruct entry as [text mode|mode| |]; cbn in HU; try done.
    + destruct HU as [-> ->]. by eapply reaches_file.
    + rewrite app_assoc in HU. by eapply reaches_folder.
  - intros HR. inversion HR as [segs name text mode Hn Hl|segs name rest text mode Hn Hl Hr]; subst; rewrite <- app_assoc in *.
    + exists name, (RegularFile content mode), []. split; [by apply Hin|done].
    + exists name, (Folder mode), rest. split; [by apply Hin|done].
Qed.

Lemma readFile_returns path d text d' :
  readFile os path d = (Returns text, d') -> d'.(Dsk.files) = d.(Dsk.files) /\ exists mode, d.(Dsk.files) !! path = Some (RegularFile text mode).
Proof.
  intros [E ->]%looks_returns. split; [done|]. destruct (Dsk.files d !! path) as [[content mode| | |]|]; try done. injection E as ->. by exists mode.
Qed.

Lemma visitEntries_returns visit above entries d records d' :
  Segments above -> d.(Dsk.files) = files ->
  (forall name entry, (name, entry) ∈ entries -> isSegment name = true /\ files !! render (root ++ above ++ [name]) = Some entry) ->
  (forall name mode d1 rs d2, (name, Folder mode) ∈ entries -> d1.(Dsk.files) = files ->
     visit (render (root ++ above ++ [name])) d1 = (Returns rs, d2) ->
     d2.(Dsk.files) = files /\ Lists (above ++ [name]) rs (Reaches files (root ++ above ++ [name]))) ->
  visitEntries os sha256 visit (render root) (render (root ++ above)) entries d = (Returns records, d') ->
  d'.(Dsk.files) = files /\ Lists above records (Among above entries).
Proof.
  intros Ha. revert d records d'. induction entries as [|[name entry] entries IH]; intros d records d' Hd Hin Hvisit.
  { intros [= <- <-]. split; [done|]. eapply lists_iff; [|apply lists_nil]. intros below content.
    split; [done|]. by intros (? & ? & ? & ?%not_elem_of_nil & _). }
  cbn [visitEntries]. destruct (Hin name entry) as [Hn Hl]; [left|].
  assert (Hra : Segments (root ++ above)) by by apply Forall_app.
  assert (Epath : resolve os (render (root ++ above) ⧺ "/" ⧺ name) = render (root ++ above ++ [name])).
  { unfold resolve. rewrite resolve_child by done. by rewrite app_assoc. }
  rewrite Epath. intros (rs & d1 & E1 & E)%task_bind_iff. apply task_bind_iff in E as (others & d2 & E2 & [= <- <-]).
  assert (Hfirst : d1.(Dsk.files) = files /\ Lists above rs (fun below content => exists rest, below = name :: rest /\ Under above name entry rest content)).
  { destruct entry as [text mode|mode|target mode|mode].
    - apply task_bind_iff in E1 as (bytes & d3 & [Hd3 [mode' Hb]]%readFile_returns & E1). rewrite Hd in *. rewrite Hl in Hb. injection Hb as <- <-.
      apply task_bind_iff in E1 as (relative & d4 & [Hrel ->]%evaluate_iff & [= <- <-]). split; [done|].
      apply portableRelative_below in Hrel as [-> Hsafe]; [|done|by repeat (apply Forall_app; split; [done|]); repeat constructor].
      exists [(above ++ [name], text)]. split; [done|]. split.
      + constructor; [|constructor]. split; [|done]. cbn. apply Forall_app. by repeat constructor.
      + intros names content. rewrite list_elem_of_singleton. split.
        * intros [= -> ->]. exists [name]. split; [done|]. by exists [].
        * by intros (below & -> & rest & -> & [-> ->]).
    - destruct (Hvisit name mode d rs d1) as [Hd1 HL]; [left|done|done|]. split; [done|]. destruct HL as (l & -> & Hl' & HP).
      exists l. do 2 (split; [done|]). intros names content. rewrite HP. split.
      + intros (below & -> & HR). exists (name :: below). split; [by rewrite <- app_assoc|]. by exists below.
      + intros (below & -> & rest & -> & HR). exists rest. split; [by rewrite <- app_assoc|done].
    - apply evaluate_iff in E1 as [E1 _]. by destruct (portableRelative _ _ _).
    - apply evaluate_iff in E1 as [E1 _]. by destruct (portableRelative _ _ _). }
  destruct Hfirst as [Hd1 HL1]. apply IH in E2 as [Hd2 HL2]; [|done| |].
  - split; [done|]. eapply lists_iff; [|by apply lists_app]. intros below content. cbn. unfold Among. split.
    + intros [(rest & -> & HU)|(name' & entry' & rest & Hi & -> & HU)].
      * exists name, entry, rest. split; [left|done].
      * exists name', entry', rest. split; [by right|done].
    + intros (name' & entry' & rest & [[= <- <-]|Hi]%elem_of_cons & -> & HU); [left; by exists rest|right; by exists name', entry', rest].
  - intros name' entry' Hi. apply Hin. by right.
  - intros name' mode d3 rs' d4 Hi. apply Hvisit with (mode := mode). by right.
Qed.

Lemma visit_returns fuel above d records d' :
  Segments above -> d.(Dsk.files) = files -> visit os sha256 fuel (render root) (render (root ++ above)) d = (Returns records, d') ->
  d'.(Dsk.files) = files /\ Lists above records (Reaches files (root ++ above)).
Proof.
  revert above d records d'. induction fuel as [|fuel IH]; intros above d records d' Ha Hd; [done|]. cbn [visit].
  intros (entries & d1 & [Er Hd1]%looks_returns & E)%task_bind_iff. rewrite Hd in *.
  assert (Hra : Segments (root ++ above)) by by apply Forall_app.
  destruct (present _ _ files); [|done]. injection Er as <-.
  assert (Hin : forall name entry, (name, entry) ∈ sortDirents (direntsOf (render (root ++ above)) files)
    <-> isSegment name = true /\ files !! render (root ++ above ++ [name]) = Some entry).
  { intros name entry. rewrite sortDirents_perm, direntsOf_spec by done. by rewrite app_assoc. }
  apply visitEntries_returns in E as [Hd' HL]; [|done|done|intros name entry; apply Hin|].
  - split; [done|]. eapply lists_iff; [|exact HL]. intros below content. by apply among_reaches.
  - intros name mode d2 rs d3 [Hn _]%Hin Hd2 E'. apply IH in E' as [Hd3 HL']; [|by apply Forall_app; repeat constructor|done].
    split; [done|]. exact HL'.
Qed.
End Walk.

(** The digest is that of exactly the files of the tree. *)
Lemma packageTree_returns root d tree d' :
  Segments root -> packageTree os sha256 (render root) d = (Returns tree, d') ->
  d'.(Dsk.files) = d.(Dsk.files)
  /\ exists listing, Forall SafeFile listing /\ tree.(PackageTree.sha256) = sha256 (joinWith "" (map recordOf listing))
       /\ tree.(PackageTree.files) = arrayLength listing /\ listing <> []
       /\ forall names content, (names, content) ∈ listing <-> Reaches d.(Dsk.files) root names content.
Proof.
  intros Hr. unfold packageTree. intros (d0 & d1 & [= <- <-] & E)%task_bind_iff.
  apply task_bind_iff in E as (records & d2 & E & E2). rewrite <- (app_nil_r root) in E at 2.
  apply (visit_returns root Hr d.(Dsk.files)) in E as [Hd2 (listing & -> & Hl & HP)]; [|constructor|done].
  apply task_bind_iff in E2 as ([] & d3 & [Hne%unlessFail_returns ->]%evaluate_iff & [= <- <-]). split; [done|]. exists listing.
  split; [done|]. split; [done|]. cbn [PackageTree.files]. split; [unfold arrayLength; by rewrite length_map|]. bools.
  split; [by intros ->|]. intros names content. rewrite HP, app_nil_r. split; [by intros (below & -> & H)|intros H; by exists names].
Qed.
End Tree.

(** The digest of the installed package binds the package: two trees with the
    same digest, on whatever machines, have the same files with the same content
    under the same names, unless two different texts with one SHA-256 digest are
    at hand. *)
Theorem package_tree_binds sha256 os os' root root' d d' tree tree' d1 d1' :
  Digests sha256 -> Segments root -> Segments root' ->
  packageTree os sha256 (render root) d = (Returns tree, d1) ->
  packageTree os' sha256 (render root') d' = (Returns tree', d1') ->
  tree.(PackageTree.sha256) = tree'.(PackageTree.sha256) ->
  (forall names content, Reaches d.(Dsk.files) root names content <-> Reaches d'.(Dsk.files) root' names content) \/ Collision sha256.
Proof.
  intros Hsha Hr Hr' (_ & l & Hl & E & _ & _ & HP)%packageTree_returns (_ & l' & Hl' & E' & _ & _ & HP')%packageTree_returns Et; [|done..].
  rewrite E, E' in Et. destruct (decide (joinWith "" (map (recordOf sha256) l) = joinWith "" (map (recordOf sha256) l'))) as [Ej|Hne].
  - apply records_inj in Ej as [->|Hc]; [|by right|done..]. left. intros names content. by rewrite <- HP, HP'.
  - right. by eexists _, _.
Qed.

(** ** The fuel of the walk suffices *)

Section Fuel.
Context (os : Os.OperatingSystem) (sha256 : string -> string) (root : list string) (Hroot : Segments root) (files : Files).

Lemma frames_visitEntries visit rootPath directory entries :
  (forall path, Frames (OnFiles eq) (visit path)) -> Frames (OnFiles eq) (visitEntries os sha256 visit rootPath directory entries).
Proof.
  intros Hv. induction entries as [|[name entry] entries IH]; cbn [visitEntries]; [frames|]. unfold readFile.
  apply bind_frames; [apply _| |intros ?; frames]. destruct entry; frames.
Qed.

Lemma frames_visit fuel rootPath directory : Frames (OnFiles eq) (visit os sha256 fuel rootPath directory).
Proof.
  revert directory. induction fuel as [|fuel IH]; intros directory; cbn [visit]; [frames|]. unfold readdirSync.
  apply bind_frames; [apply _|frames|intros entries]. by apply frames_visitEntries.
Qed.

Lemma longestPath_bound path entry : files !! path = Some entry -> (String.length path <= longestPath files)%nat.
Proof.
  intros H%elem_of_map_to_list. unfold longestPath. induction (map_to_list files) as [|[p e] l IH]; [by apply not_elem_of_nil in H|].
  cbn. apply elem_of_cons in H as [[= <- <-]|H]; [lia|]. specialize (IH H). lia.
Qed.

Lemma length_child segments name : isSegment name = true -> (String.length (render segments) < String.length (render (segments ++ [name])))%nat.
Proof.
  intros Hn%isSegment_nonempty. rewrite render_snoc, length_append. cbn [String.length].
  assert (0 < String.length name)%nat by (destruct name; [done|cbn; lia]). destruct segments; cbn; lia.
Qed.

(** With enough fuel a walk does not depend on it. *)
Lemma visit_enough_fuel fuel fuel' above d :
  Segments above -> d.(Dsk.files) = files -> (fuel <= fuel')%nat -> (0 < fuel)%nat ->
  (longestPath files < fuel + String.length (render (root ++ above)))%nat ->
  visit os sha256 fuel (render root) (render (root ++ above)) d = visit os sha256 fuel' (render root) (render (root ++ above)) d.
Proof.
  revert fuel' above d. induction fuel as [|fuel IH]; intros fuel' above d Ha Hd Hle Hpos Henough; [lia|].
  destruct fuel' as [|fuel']; [lia|]. cbn [visit]. assert (Hra : Segments (root ++ above)) by by apply Forall_app.
  unfold mbind, task_bind. destruct (readdirSync os (render (root ++ above)) d) as [[entries|e] d1] eqn:Er; [|done].
  apply looks_returns in Er as [Er Hd1]. rewrite Hd in *. destruct (present _ _ files); [|done]. injection Er as <-.
  assert (Hin : forall name entry, (name, entry) ∈ sortDirents (direntsOf (render (root ++ above)) files)
    -> isSegment name = true /\ files !! render ((root ++ above) ++ [name]) = Some entry).
  { intros name entry. rewrite sortDirents_perm, direntsOf_spec by done. done. }
  revert Hin d1 Hd1. generalize (sortDirents (direntsOf (render (root ++ above)) files)) as entries.
  induction entries as [|[name entry] entries IHe]; intros Hin d1 Hd1; [done|]. cbn [visitEntries].
  destruct (Hin name entry) as [Hn Hl]; [left|].
  assert (Epath : resolve os (render (root ++ above) ⧺ "/" ⧺ name) = render (root ++ above ++ [name])).
  { unfold resolve. rewrite resolve_child by done. by rewrite app_assoc. }
  rewrite Epath. assert (Hsub : forall mode, entry = Folder mode ->
    visit os sha256 fuel (render root) (render (root ++ above ++ [name])) d1 = visit os sha256 fuel' (render root) (render (root ++ above ++ [name])) d1).
  { intros mode ->. pose proof (longestPath_bound _ _ Hl) as Hb. pose proof (length_child (root ++ above) name Hn) as Hc.
    rewrite <- app_assoc in Hb, Hc. apply IH; [apply Forall_app; repeat constructor; done|done|lia|lia|lia]. }
  assert (Hrest : forall d2, d2.(Dsk.files) = files ->
    visitEntries os sha256 (visit os sha256 fuel (render root)) (render root) (render (root ++ above)) entries d2
    = visitEntries os sha256 (visit os sha256 fuel' (render root)) (render root) (render (root ++ above)) entries d2).
  { intros d2. apply IHe. intros name' entry' Hi. apply Hin. by right. }
  unfold mbind, task_bind. destruct entry as [text mode|mode|target mode|mode]; [|rewrite (Hsub mode eq_refl)| |].
  - destruct (readFile os _ d1) as [[bytes|e] d2] eqn:E2; [|done]. apply looks_returns in E2 as [_ E2].
    destruct (evaluate _ d2) as [[relative|e] d3] eqn:E3; [|done]. injection E3 as _ <-. cbn. rewrite Hrest by congruence. done.
  - pose proof (frames_visit fuel' (render root) (render (root ++ above ++ [name])) d1) as Hf.
    destruct (visit os sha256 fuel' _ _ d1) as [[rs|e] d2]; [|done]. unfold OnFiles in Hf. cbn in Hf. rewrite Hrest by congruence. done.
  - destruct (evaluate _ d1) as [[rs|e] d2] eqn:E2; [|done]. injection E2 as _ <-. by rewrite Hrest.
  - destruct (evaluate _ d1) as [[rs|e] d2] eqn:E2; [|done]. injection E2 as _ <-. by rewrite Hrest.
Qed.

(** So [packageTree] walks the whole tree. *)
Lemma packageTree_enough_fuel fuel d :
  d.(Dsk.files) = files -> (S (longestPath files) <= fuel)%nat ->
  visit os sha256 (S (longestPath files)) (render root) (render root) d = visit os sha256 fuel (render root) (render root) d.
Proof.
  intros Hd Hf. pose proof (visit_enough_fuel (S (longestPath files)) fuel [] d) as H. rewrite app_nil_r in H. apply H; [constructor|done|done|lia|lia].
Qed.
End Fuel.

(** ** Evidence *)

Lemma isNumber_spec value n : isNumber value n = true <-> value = Some (JNumber n).
Proof. destruct value as [[]|]; cbn; try done. rewrite bool_decide_eq_true. split; congruence. Qed.

Lemma joinWith_relative parts :
  Forall (fun part => noSlash part = true /\ part <> "") parts -> isAbsolute (joinWith "/" parts) = false.
Proof.
  intros H. destruct H as [|part parts [Hn Hne] _]; [done|]. assert (E : exists rest, joinWith "/" (part :: parts) = part ⧺ rest).
  { destruct parts as [|part' parts]; [exists ""; by rewrite append_empty|by exists ("/" ⧺ joinWith "/" (part' :: parts))]. }
  destruct E as [rest ->]. destruct part as [|c part]; [done|]. unfold noSlash in Hn. cbn in *.
  destruct c as [[] [] [] [] [] [] [] []]; try done; discriminate Hn.
Qed.

Lemma stripCommon_suffix a b : exists before, b = before ++ (stripCommon a b).2.
Proof.
  revert b. induction a as [|x a IH]; intros b; [by exists []; destruct b|]. destruct b as [|y b]; [by exists []|].
  cbn. case_bool_decide as E; [|by exists []]. destruct (IH b) as [before Eb]. exists (y :: before). cbn. by rewrite <- Eb.
Qed.

Lemma portableRelative_returns root path label relative :
  portableRelative root path label = Returns relative -> SAFE_RELATIVE_PATH relative = true /\ isAbsolute relative = false.
Proof.
  unfold portableRelative. destruct (_ || _) eqn:E; [done|]. intros [= <-]. split; [by bools|]. unfold relativePath.
  destruct (stripCommon_suffix (segmentsOf root) (segmentsOf path)) as [before Eb]. pose proof (segmentsOf_sound path) as Hs.
  rewrite Eb in Hs. apply Forall_app in Hs as [_ Hs]. destruct (stripCommon _ _) as [above down]. apply joinWith_relative, Forall_app. split.
  - apply Forall_map. by apply Forall_forall.
  - eapply Forall_impl; [|exact Hs]. intros part Hp. split; [by apply isSegment_noSlash|by apply isSegment_nonempty].
Qed.

Lemma tryCatch_returns {S A} (m : Task S A) handler s a s' :
  tryCatch m handler s = (Returns a, s') -> (forall e s1, exists e', (handler e s1).1 = Throws e') -> m s = (Returns a, s').
Proof.
  unfold tryCatch. destruct (m s) as [[x|e] s1]; [done|]. intros E H. destruct (H e s1) as [e' He]. by rewrite E in He.
Qed.

Section Evidence.
Context (os : Os.OperatingSystem) (sha256 : string -> string) (numberText : Z -> Z -> string) (Hsha : Digests sha256) (files : Files).

(** A file of that content. *)
Definition FileAt (path text : string) : Prop := exists mode, files !! path = Some (RegularFile text mode).

(** The JSON object in a file. *)
Definition ObjectAt (path : string) (fields : JsonFields) : Prop := exists text, FileAt path text /\ jsonParse numberText text = Returns (JObject fields).

Lemma parseJson_returns path label d fields d' :
  d.(Dsk.files) = files -> parseJson os numberText path label d = (Returns fields, d') -> d'.(Dsk.files) = files /\ ObjectAt path fields.
Proof.
  intros Hd E%tryCatch_returns; [|intros e s1; by eexists].
  apply task_bind_iff in E as (text & d2 & [Hd2 Hf]%readFile_returns & E). rewrite Hd in *.
  apply task_bind_iff in E as (value & d3 & [Hv ->]%evaluate_iff & [E ->]%evaluate_iff). split; [done|]. exists text.
  split; [done|]. destruct value; try done. by injection E as ->.
Qed.

Lemma digestFile_returns path d digest d' :
  d.(Dsk.files) = files -> digestFile os sha256 path d = (Returns digest, d') ->
  d'.(Dsk.files) = files /\ exists text, FileAt path text /\ digest = sha256 text.
Proof.
  intros Hd (text & d1 & [Hd1 Hf]%readFile_returns & [= <- <-])%task_bind_iff. rewrite Hd in *. split; [done|]. by exists text.
Qed.

Lemma realPath_returns path d real d' :
  d.(Dsk.files) = files -> realPath os path d = (Returns real, d') -> d'.(Dsk.files) = files /\ real = os.(Os.realpath) files (resolve os path).
Proof. intros Hd [[= <-] ->]%looks_returns. by rewrite Hd. Qed.

Lemma realpath_returns path d real d' :
  d.(Dsk.files) = files -> realpath os path d = (Returns real, d') -> d'.(Dsk.files) = files /\ real = os.(Os.realpath) files path.
Proof. intros Hd [[= <-] ->]%looks_returns. by rewrite Hd. Qed.

Lemma regularFile_returns path label d u d' :
  d.(Dsk.files) = files -> requireRegularFile os path label d = (Returns u, d') ->
  d'.(Dsk.files) = files /\ exists text, FileAt path text.
Proof.
  intros Hd (stat & d1 & [Hp Hd1]%looks_returns & [Hs ->]%evaluate_iff)%task_bind_iff. destruct u. split; [congruence|]. rewrite Hd in Hp.
  unfold present in Hp. apply unlessFail_returns in Hs. unfold FileAt. destruct (files !! path) as [[text mode| | |]|]; try done;
    injection Hp as <-; try done. by exists text, mode.
Qed.

Lemma digest_pattern text : SHA256_PATTERN (sha256 text) = true.
Proof. unfold SHA256_PATTERN, isLowerHexText. destruct (Hsha text) as [-> ->]. done. Qed.

(** The digest of the tree at [root]. *)
Definition TreeAt (root : string) (tree : PackageTree.PackageTree) : Prop :=
  exists d d', d.(Dsk.files) = files /\ packageTree os sha256 root d = (Returns tree, d').

Lemma packageTree_positive root d tree d' :
  d.(Dsk.files) = files -> packageTree os sha256 root d = (Returns tree, d') ->
  d'.(Dsk.files) = files /\ TreeAt root tree /\ 0 < tree.(PackageTree.files) /\ SHA256_PATTERN tree.(PackageTree.sha256) = true.
Proof.
  intros Hd Hrun. assert (HT : TreeAt root tree) by by exists d, d'. revert Hrun. unfold packageTree.
  intros (d0 & d1 & [= <- <-] & E)%task_bind_iff. apply task_bind_iff in E as (records & d2 & E & E2).
  pose proof (frames_visit os sha256 (S (longestPath (Dsk.files d))) root root d) as Hf. rewrite E in Hf. unfold OnFiles in Hf. cbn in Hf.
  apply task_bind_iff in E2 as ([] & d3 & [Hne%unlessFail_returns ->]%evaluate_iff & [= <- <-]). split; [congruence|].
  split; [done|]. split; [|apply digest_pattern]. cbn. bools. unfold arrayLength. destruct records; [done|cbn; lia].
Qed.

Context (args : IntegrityInputs.IntegrityInputs).

#[local] Abbreviation real := (fun path => os.(Os.realpath) files (resolve os path)).
#[local] Abbreviation inRepository := (fun file => resolve os (real args.(IntegrityInputs.repoRoot) ⧺ "/" ⧺ file)).
#[local] Abbreviation pinPath := (inRepository REVIEWED_SDK_PIN_FILE).

(** The loaded package is the one of the pin, which the approval binds. *)
Record Reviewed (evidence : JsonFields) (root : string) (tree : PackageTree.PackageTree) (pin attestation : JsonFields)
    (entrypoint integrity : string) : Prop := {
  reviewed_root : real args.(IntegrityInputs.sdkPackageJsonPath) = resolve os (root ⧺ "/package.json");
  reviewed_tree : TreeAt root tree;
  reviewed_pin : ObjectAt pinPath pin
    /\ jsGet "sdk_package_tree_sha256" pin = Some (JString tree.(PackageTree.sha256))
    /\ jsGet "sdk_package_file_count" pin = Some (JNumber tree.(PackageTree.files))
    /\ jsGet "npm_tarball_sha512_integrity" pin = Some (JString integrity);
  reviewed_entrypoint : jsGet "sdk_loaded_entrypoint" pin = Some (JString entrypoint)
    /\ exists text, FileAt (real args.(IntegrityInputs.sdkEntrypointPath)) text
         /\ jsGet "sdk_loaded_entrypoint_sha256" pin = Some (JString (sha256 text));
  reviewed_lock : exists lock, ObjectAt (inRepository "package-lock.json") lock /\ lockedIntegrity lock = Returns integrity;
  reviewed_attestation : ObjectAt (real args.(IntegrityInputs.sdkReviewAttestationPath)) attestation
    /\ jsGet "decision" attestation = Some (JString "approved-for-testnet-candidate-assembly")
    /\ jsGet "sdk_package_tree_sha256" attestation = Some (JString tree.(PackageTree.sha256))
    /\ exists text, FileAt pinPath text /\ jsGet "sdk_review_pin_sha256" attestation = Some (JString (sha256 text));
  reviewed_evidence : jsGet "sdk_package_tree_sha256" evidence = Some (JString tree.(PackageTree.sha256))
    /\ jsGet "sdk_lock_integrity" evidence = Some (JString integrity)
    /\ jsGet "sdk_loaded_entrypoint" evidence = Some (JString entrypoint);
  reviewed_valid : validateBuildIntegrityEvidence (Some (JObject evidence)) = Returns evidence
    <-> hasParentStep entrypoint = false /\ isSafeInteger tree.(PackageTree.files) = true
}.

Lemma lockedIntegrity_returns lock integrity : lockedIntegrity lock = Returns integrity -> SHA512_INTEGRITY_PATTERN integrity = true.
Proof.
  unfold lockedIntegrity. intros (packages & _ & (locked & _ & E)%outcome_bind_iff)%outcome_bind_iff.
  destruct (jsGet "integrity" locked) as [[]|]; try done. apply outcome_bind_iff in E as ([] & H%unlessFail_returns & [= <-]). by bools.
Qed.

Lemma attestedReviewer_returns attestation reviewer :
  attestedReviewer attestation = Returns reviewer ->
  REVIEWER_PATTERN reviewer = true /\ jsGet "decision" attestation = Some (JString "approved-for-testnet-candidate-assembly").
Proof.
  unfold attestedReviewer. destruct (jsGet "reviewer_identity" attestation) as [[]|]; try done.
  intros ([] & H%unlessFail_returns & [= <-])%outcome_bind_iff. bools. by rewrite isText_spec in *.
Qed.

Lemma assertReviewedPin_returns pin integrity observed u :
  assertReviewedPin pin integrity observed = Returns u ->
  jsGet "npm_tarball_sha512_integrity" pin = Some (JString integrity)
  /\ jsGet "sdk_loaded_entrypoint" pin = Some (JString observed.(Observed.entrypoint))
  /\ jsGet "sdk_loaded_entrypoint_sha256" pin = Some (JString observed.(Observed.entrypointSha256))
  /\ jsGet "sdk_package_tree_sha256" pin = Some (JString observed.(Observed.treeSha256))
  /\ jsGet "sdk_package_file_count" pin = Some (JNumber observed.(Observed.fileCount)).
Proof.
  unfold assertReviewedPin. destruct u.
  intros ([] & _ & ([] & H1%unlessFail_returns & H2%unlessFail_returns)%outcome_bind_iff)%outcome_bind_iff.
  bools. rewrite !isText_spec, isNumber_spec in *. done.
Qed.

Lemma assertAttestationBinds_returns attestation pinSha256 trustSha256 tree u :
  assertAttestationBinds attestation pinSha256 trustSha256 tree = Returns u ->
  jsGet "sdk_review_pin_sha256" attestation = Some (JString pinSha256)
  /\ jsGet "sdk_package_tree_sha256" attestation = Some (JString tree.(PackageTree.sha256)).
Proof.
  unfold assertAttestationBinds. destruct u. intros H%unlessFail_returns. bools. rewrite !isText_spec in *. done.
Qed.

Lemma evidence_valid closure lock integrity pin manifest entrypoint entry tree attestation signature reviewer trust :
  SHA512_INTEGRITY_PATTERN integrity = true -> SAFE_RELATIVE_PATH entrypoint = true -> isAbsolute entrypoint = false ->
  REVIEWER_PATTERN reviewer = true -> 0 < tree.(PackageTree.files) ->
  Forall (fun digest => SHA256_PATTERN digest = true)
    [closure; lock; pin; manifest; entry; tree.(PackageTree.sha256); attestation; signature; trust] ->
  let evidence := integrityEvidence closure lock integrity pin manifest entrypoint entry tree attestation signature reviewer trust in
  validateBuildIntegrityEvidence (Some (JObject evidence)) = Returns evidence
  <-> hasParentStep entrypoint = false /\ isSafeInteger tree.(PackageTree.files) = true.
Proof.
  intros Hi Hs Ha Hr Ht HF. cbv zeta.
  rewrite !Forall_cons_iff in HF. destruct HF as (?&?&?&?&?&?&?&?&?&_).
  set (evidence := integrityEvidence _ _ _ _ _ _ _ _ _ _ _ _). unfold validateBuildIntegrityEvidence. cbn [mbind outcome_bind].
  rewrite bool_decide_true by reflexivity. cbn [unlessFail mbind outcome_bind].
  assert (Hfixed : isText (jsGet "package_lock_file" evidence) "package-lock.json"
    && isText (jsGet "release_executable_closure_file" evidence) RELEASE_EXECUTABLE_CLOSURE_FILE
    && isText (jsGet "sdk_package" evidence) REVIEWED_SDK_PACKAGE && isText (jsGet "sdk_version" evidence) REVIEWED_SDK_VERSION
    && isText (jsGet "sdk_review_pin_file" evidence) REVIEWED_SDK_PIN_FILE
    && isText (jsGet "sdk_review_signature_namespace" evidence) "cedra-reflect-sdk-review-v1" = true) by reflexivity.
  assert (Hreviewer : jsGet "sdk_review_reviewer_identity" evidence = Some (JString reviewer)) by reflexivity.
  assert (Hintegrity : jsGet "sdk_lock_integrity" evidence = Some (JString integrity)) by reflexivity.
  assert (Hentry : jsGet "sdk_loaded_entrypoint" evidence = Some (JString entrypoint)) by reflexivity.
  assert (Hcount : jsGet "sdk_package_file_count" evidence = Some (JNumber tree.(PackageTree.files))) by reflexivity.
  rewrite Hfixed, Hreviewer, Hintegrity, Hentry, Hcount. cbn [matches]. unfold isSafeEntrypoint. rewrite Hr, Hi, Hs, Ha.
  rewrite (bool_decide_true (0 < PackageTree.files tree)), andb_true_r by done. cbn [andb negb].
  assert (Hdigests : outcome_forEach (fun key => unlessFail (matches SHA256_PATTERN (jsGet key evidence))
      ("build integrity evidence " ⧺ key ⧺ " is not a SHA-256 digest")) INTEGRITY_DIGESTS = Returns tt).
  { apply outcome_forEach_returns. unfold INTEGRITY_DIGESTS. rewrite !Forall_cons_iff.
    repeat split; try apply Forall_nil; try apply unlessFail_returns; try match goal with |- matches _ ?g = true =>
      first [change g with (Some (JString closure))|change g with (Some (JString lock))|change g with (Some (JString pin))
            |change g with (Some (JString manifest))|change g with (Some (JString entry))|change g with (Some (JString tree.(PackageTree.sha256)))
            |change g with (Some (JString attestation))|change g with (Some (JString signature))|change g with (Some (JString trust))] end; done. }
  destruct (hasParentStep entrypoint), (isSafeInteger _); cbn [negb andb unlessFail mbind outcome_bind];
    rewrite ?Hdigests; split; try done; by intros [].
Qed.

Lemma evaluated {A} (o : Outcome A) (d : Dsk.Disk) a d' :
  d.(Dsk.files) = files -> evaluate o d = (Returns a, d') -> d'.(Dsk.files) = files /\ o = Returns a.
Proof. intros Hd [E ->]%evaluate_iff. done. Qed.

(** The next statement returned [x]; the disk is as before. *)
#[local] Ltac advance lem x Hx :=
  lazymatch goal with Hd : Dsk.files ?d = files, E : _ ?d = (Returns _, _) |- _ =>
    let d1 := fresh "d" in let Hd1 := fresh "Hd" in
    apply task_bind_iff in E as (x & d1 & Hx & E); apply lem in Hx as [Hd1 Hx]; [clear Hd|exact Hd]
  end.

#[local] Ltac required := let u := fresh "u" in let Hu := fresh "Hu" in advance regularFile_returns u Hu.

(** The reviewed pin, the loaded tree and the approval name one package: the
    evidence of [computeBuildIntegrity] is made of those documents only, and it
    passes the validation that the assembler does of it when the entry point has
    no parent step. *)
Theorem reviewed_sdk_loaded d evidence d' :
  d.(Dsk.files) = files -> computeBuildIntegrity os sha256 numberText args d = (Returns evidence, d') ->
  d'.(Dsk.files) = files
  /\ exists root tree pin attestation entrypoint integrity, Reviewed evidence root tree pin attestation entrypoint integrity.
Proof.
  unfold computeBuildIntegrity. intros Hd E.
  advance realPath_returns repoRoot Hrepo. do 3 required.
  advance realPath_returns attestationPath Hattestation. advance realPath_returns signaturePath Hsignature.
  advance realPath_returns trustPath Htrust. do 3 required.
  advance realPath_returns packageJsonPath Hmanifest. required.
  advance realpath_returns sdkRoot Hroot. advance @evaluated u51 Hpackage.
  advance realPath_returns entrypointPath Hentry. required.
  advance @evaluated entrypoint Hrelative. advance parseJson_returns manifest Hjson. advance @evaluated u52 Hname.
  advance parseJson_returns lock Hlock. advance @evaluated integrity Hintegrity.
  advance packageTree_positive tree Htree. destruct Htree as (Htree & Hcount & Hdigest).
  advance digestFile_returns packageJsonSha256 Hdigest1. advance digestFile_returns entrypointSha256 Hdigest2.
  advance parseJson_returns pin Hpin. advance @evaluated u53 Hassert. advance parseJson_returns attestation Happroval.
  advance digestFile_returns trustSha256 Hdigest3. advance @evaluated reviewer Hreviewer.
  advance digestFile_returns boundPinSha256 Hdigest4. advance @evaluated u54 Hbinds.
  advance digestFile_returns closureSha256 Hdigest5. advance digestFile_returns lockSha256 Hdigest6.
  advance digestFile_returns pinSha256 Hdigest7. advance digestFile_returns attestationSha256 Hdigest8.
  advance digestFile_returns signatureSha256 Hdigest9. injection E as <- <-.
  split; [done|]. exists sdkRoot, tree, pin, attestation, entrypoint, integrity.
  destruct u51, u52, u53, u54. apply unlessFail_returns, bool_decide_eq_true in Hpackage. apply portableRelative_returns in Hrelative as [Hsafe Habs].
  pose proof (lockedIntegrity_returns _ _ Hintegrity) as Hsha512. apply attestedReviewer_returns in Hreviewer as [Hreviewer Hdecision].
  apply assertReviewedPin_returns in Hassert as (Hp1 & Hp2 & Hp3 & Hp4 & Hp5). apply assertAttestationBinds_returns in Hbinds as [Hb1 Hb2].
  destruct Hdigest1 as (t1 & _ & ->), Hdigest2 as (t2 & Ht2 & ->), Hdigest3 as (t3 & _ & ->), Hdigest4 as (t4 & Ht4 & ->), Hdigest5 as (t5 & _ & ->),
    Hdigest6 as (t6 & _ & ->), Hdigest7 as (t7 & _ & ->), Hdigest8 as (t8 & _ & ->), Hdigest9 as (t9 & _ & ->). subst.
  constructor; [done|done|done|by eauto|by eauto|by eauto 6|done|].
  apply evidence_valid; [exact Hsha512|exact Hsafe|exact Habs|exact Hreviewer|exact Hcount|].
  repeat (apply Forall_cons; [first [apply digest_pattern|exact Hdigest]|]). apply Forall_nil.
Qed.
End Evidence.
